(* ===== verification/_CoqProject ===== *)
-Q . S2P
Prelude.v
SeqVerify.v
CommonList.v
LockFreeQueue.v
QueueConcurrent.v
Utils.v
Looper.v
LnnStateMachine.v
LnnMap.v
PendingPkt.v
ProxyMessage.v
ProxySession.v
BleTrans.v
OpenChannelMsg.v
TdcState.v
TdcMessage.v
TdcListener.v
StateFault.v
ProxyHandshake.v
ProxyChannel.v
ProxyChannelInv.v
ProxyChannelSteps.v
ProxyChannelMain.v
ProxyOpen.v
DiscMedium.v
DiscCoap.v
DiscManager.v
DiscRegistry.v
DiscOps.v
DiscSystem.v
DiscNet.v
LnnNodeInfo.v
LnnLedger.v
LnnLedgerRel.v
LnnLedgerSpec.v
LnnLedgerOps.v
LnnLedgerMain.v
LnnNet.v
LnnConnFsm.v
LnnNetBuilder.v
LnnNetInv.v
LnnNetFsm.v
LnnNetSteps.v
LnnNetMain.v
DFileList.v
DFileFrame.v
DFileHandshake.v
DFileTransfer.v
DFileExchange.v
DFileConfirm.v
DFileLogic.v
DFileSender.v
DFileReceiver.v
DFileTermination.v
