(* ===== verification/Prelude.v ===== *)
(** * A verification library for DSoftBus (communication_dsoftbus, OpenHarmony 3.0 LTS)

    DSoftBus lets applications of devices near each other find one another,
    authenticate, and exchange data.  All paths below are under [src/].

    ** The program and its parts

    - [core/common]: the shared services: an intrusive list
      ([common_list.h]), a lock-free ring queue ([softbus_queue.c]), hex and
      timer utilities ([softbus_utils.c]), the message looper that runs the
      handlers of all the other parts ([message_handler.c]), the
      anti-replay check of sequence numbers
      ([softbus_sequence_verification.c]) and JSON helpers.
    - [core/bus_center]: the logical network node: the state-machine engine of
      the net builder ([lnn_state_machine.c]), which posts its messages to the
      looper, the hash map of the ledgers ([lnn_map.c]), the records of nodes
      ([lnn_node_info.c], [lnn_device_info.c]) and the ledger of the nodes of the
      network ([lnn_distributed_net_ledger.c]), which the connection state
      machine ([lnn_connection_fsm.c]) updates when devices join and leave; the
      net builder ([lnn_net_builder.c]) makes and ends these machines, and elects
      the master of the network.
    - [core/connection]: links (BLE, BR, TCP).  The BLE link cuts packets into
      notifications and puts them together again
      ([softbus_ble_trans_manager.c]).
    - [core/transmission]: sessions between applications, over a connection
      shared by several channels (the proxy channel: [softbus_proxychannel_*])
      or over a TCP connection of its own (the TCP direct channel:
      [trans_tcp_direct_*]); both negotiate with the JSON messages of
      [softbus_message_open_channel.c], and wait for acknowledgements with
      [trans_pending_pkt.c].
    - [components/nstackx]: file transfer (DFile) and CoAP discovery.  A DFile
      transfer starts with the exchange of its file list
      ([nstackx_file_list.c], [nstackx_dfile_frame.c]).

    ** Files of the development

    - [Prelude]: machine integers, byte codecs, [memcpy_s], error codes,
      tactics, hint databases and shared lemmas.
    - [SeqVerify]: the 60-entry receive window of
      [softbus_sequence_verification.c] on [int32_t] with wrap-around.
      It refines a set of received numbers; fresh numbers pass; a replay passes
      only in the two situations the code leaves open.
    - [CommonList]: [common_list.h] as a heap of cells.  Insertion, deletion
      and traversal against the list of elements they represent.
    - [LockFreeQueue], [QueueConcurrent]: [softbus_queue.c], first as
      functions of one caller (refinement of a bounded FIFO, with the 32-bit
      counters wrapping), then as a step relation with one step for each atomic
      operation and any number of producers and consumers (linear order of
      dequeued units, and progress of a thread that runs alone).
    - [Utils]: [softbus_utils.c].
    - [Looper]: [message_handler.c]: the queue operations and the looper thread,
      its clients and the destroying thread as a step relation with one step for each
      critical section (ordering, conservation of messages, no lost wake-up,
      orderly destruction).  [LooperOps] is the interface clients are verified
      against.
    - [LnnStateMachine]: [lnn_state_machine.c] over that interface: the invariant
      of every reachable machine, start and removal of messages.
    - [LnnMap]: [lnn_map.c]: refinement of a finite map ([gmap]) by every
      sequence of calls across collisions and resizes, and the iterator.
    - [PendingPkt]: [trans_pending_pkt.c] as a step relation.
    - [ProxyMessage], [ProxySession]: [softbus_proxychannel_message.c] and
      [softbus_proxychannel_session.c]: head and encryption of a message,
      cutting into slices, reassembly, acknowledgement and timeouts (round
      trips, and memory safety of reassembly for arbitrary input).
    - [BleTrans]: [softbus_ble_trans_manager.c] and the connection list of
      [softbus_ble_connection.c] (round trip in any order of fragments, bounds).
    - [OpenChannelMsg]: [softbus_json_utils.c] and
      [softbus_message_open_channel.c] (round trips of request and reply).
    - [TdcState], [TdcMessage], [TdcListener]: [trans_tcp_direct_manager.c],
      [trans_tcp_direct_message.c] and [trans_tcp_direct_listener.c] in a state
      monad over the two registries (framing of a byte stream that arrives in
      pieces; invariant of all reachable states, and absence of faults).
    - [StateFault]: the state monad with faults, and its total program logic,
      of the proxy channels, discovery, the ledger and the net builder.
    - [ProxyHandshake]: the JSON texts of [softbus_proxychannel_message.c] that open,
      acknowledge and identify a proxy channel, with their round trips.
    - [ProxyChannel]: the registry of proxy channels, the connections under them and
      their messages: [softbus_proxychannel_manager.c], [.._transceiver.c],
      [.._control.c] and the notices of [.._listener.c] and [.._network.c]; [step] and
      [run] are the histories of requests, callbacks, frames, ticks of the timer and
      messages of the looper, over the frames of [ProxyMessage].
    - [ProxyChannelInv], [ProxyChannelSteps], [ProxyChannelMain]: the invariant with
      what a step still owes the owners of channels, every handler, and the theorems:
      exactly which frames make a step fault, owners are told, unused channels end,
      data reaches its channel, ids are found; and histories on which the code does
      what it does not mean to.
    - [ProxyOpen]: two devices: the handshake from one looper to the other and back
      leaves both ends of the channel in agreement.
    - [DiscMedium], [DiscCoap], [DiscManager]: discovery.  [DiscMedium] is the
      function table [DiscoveryFuncInterface] with what the manager relies on as a
      class of laws; [DiscCoap] models [disc_coap.c] and the calls of the device
      finder in [disc_nstackx_adapter.c] and is an instance of the class;
      [DiscManager] models all of [disc_manager.c] over any two media, with the
      packages and informations in heaps.
    - [DiscRegistry], [DiscOps], [DiscSystem], [DiscNet]: the invariant of the
      manager's lists, the effect of each operation on them, and sequences of
      calls: no use of freed memory while the media accept their requests, the
      lists as finite maps, who is told about a device, and, with CoAP, that what
      is announced is what is registered.
    - [LnnNodeInfo]: the records of a node with their accessors, device types
      ([lnn_device_info.c], with its static buffer), capabilities, and the memory
      image of a [NodeInfo] as a codec with its laws.
    - [LnnLedger]: all of [lnn_distributed_net_ledger.c] over the hash tables of
      [LnnMap], and the functions of [lnn_connection_fsm.c] that use it.
    - [LnnLedgerRel], [LnnLedgerSpec], [LnnLedgerOps], [LnnLedgerMain]: what the
      tables represent, the contract of the ledger on finite maps, the proof that
      each operation meets it, and the theorems: every sequence of calls refines
      the contract, stored data is typed, and the notices of joins and leaves tell
      exactly who is online.
    - [LnnNet]: the state that the net builder and its machines share ([World]:
      ledger, machines by address, list of connections, messages and timers of the
      looper, calls of other parts), and [lnn_connection_addr_utils.c].
    - [LnnConnFsm]: all of [lnn_connection_fsm.c], the machine of one connection:
      authentication, exchange of device information, cleaning of invalid
      connections, online, leaving.
    - [LnnNetBuilder]: all of [lnn_net_builder.c] with [lnn_node_weight.c] and the
      master of [lnn_local_net_ledger.c]; [step] and [run] are the histories of the
      system, interleavings of requests, callbacks, timers and messages.
    - [LnnNetInv], [LnnNetFsm], [LnnNetSteps], [LnnNetMain]: the invariant of the
      whole, open at the machine that runs; every message and every request keeps
      it; and the theorems: exactly which step faults and the bookkeeping of the
      connections, that the listeners know who is online, and how the master of
      the network changes.  They compose the machines and the net builder with the
      contract of the ledger ([LnnLedgerSpec]).
    - [DFileList], [DFileFrame]: [nstackx_file_list.c] (with the path helpers of
      [nstackx_util.c]) and [nstackx_dfile_frame.c] on bytes (round trips of the
      control frames, bounds of the decoders for any datagram).
    - [DFileTransfer]: [nstackx_dfile_transfer.c], its configuration and retry
      computations: both state machines, frame handlers, timers and
      notifications, in a monad whose environment answers for clock, socket and
      file manager.
    - [DFileHandshake], [DFileExchange], [DFileConfirm]: what a sender's header
      frames do to a receiver's list, and its confirmation frames to the sender's
      list, when the network reorders and duplicates frames (refinement).
    - [DFileLogic]: the program logic of the monad: weakest preconditions and a
      view of the state that the safety proofs speak about.
    - [DFileSender], [DFileReceiver]: the invariants of the two state machines
      for every sequence of frames, ticks and file-manager messages: order of the
      phases, task started and stopped in balance, one end notification.
    - [DFileTermination]: every input of a sender is handled to the end.

    ** Conventions

    A C integer of width [w] is a [Z] with the conversions [u8] .. [i64]
    written where the source converts; the target is LP64, little-endian and
    wraps signed arithmetic.  A buffer is a list of bytes, a null pointer
    [None] (or 0), an access outside an object the result [None] (or the
    failure of the monad), so that a theorem which says that an operation
    returns [Some] says that it stays in bounds.  Results of allocations and
    locks, the clock, sockets, random numbers, callbacks into other parts, and
    code that is not in the repository (cJSON, mbedtls, securec apart from the
    calls modelled in [Prelude], the file system) are arguments; what is
    assumed of them are named hypotheses of the theorems, each with a witness at
    a concrete instance.  A [SoftBusList] guarded by a mutex is the list of its
    elements, and an operation on it is one step.  Log output is not modelled.

    ** Fuel and bounds

    Loops over data are structural recursions; where the source loops until a
    condition holds, the model either recurses on a bound that the source gives
    (the length of the buffer, the number of files) or is a step relation.
    Fuelled functions return an error when the fuel ends and the theorems show
    that the fuel given by the callers is enough.  The two bounds of a DFile
    handler are arguments: [hf] for the frames of one header exchange (502 are
    enough for the at most 500 files) and [fuel] for the rounds of the state
    machine (7 are enough); the safety theorems hold for every bound, and
    [sender_transfer_terminates] shows that these are enough for the sender.
    Histories of the net builder have fewer than 2^16 events, because a machine is
    known by an identifier of 16 bits that the source never recycles; its theorems
    suppose that memory is allocated and that the ledger's mutex can be taken,
    while calls of other parts may fail.  The theorems of the proxy channels suppose
    the same of memory and mutexes; the timer theorem bounds the number of channels by
    2^32, the width of their count, and [new_id_found] the 16-bit counter of ids, which
    the code lets wrap.

    ** Not modelled

    Threads, sockets, files and operating-system services themselves; the C++
    services and proxies of the standard system (IPC marshalling); discovery
    over BLE and calls of the discovery manager that overlap; authentication
    (HiChain is an external library), the exchange of device and ledger
    information over the network, the ledger of the local device but for the master
    and what the net builder reads, calls of the ledgers that overlap, connection
    managers for BR and TCP, and of the file transfer the sessions, the file
    manager and its block queues.  [LnnDeinitNetBuilder] is modelled but is not an
    event of the histories: the theorems are about a system that is up.
    Of the proxy channels the choice of a lane for a networking channel is left out.
    [PROJECT.json] lists each part with the reason. *)

From Stdlib Require Export ZArith Lia.
From coqutil Require Export Byte.
From coqutil Require Import Word.LittleEndianList.
From stdpp Require Export base tactics option numbers strings gmap list.

#[export] Set Default Goal Selector "!".
#[global] Open Scope Z_scope.

(** ** Machine integers

    A [w]-bit C integer is a [Z]; [wrap]/[swrap] are the conversions to an
    unsigned and to a two's-complement signed type of width [w].  Signed
    arithmetic is taken with the wrap-around of the target compilers
    ([-fwrapv] semantics); theorems that need the absence of overflow say so. *)

Definition wrap (w z : Z) : Z := z mod 2 ^ w.
Definition swrap (w z : Z) : Z := (z + 2 ^ (w - 1)) mod 2 ^ w - 2 ^ (w - 1).

Abbreviation u8 := (wrap 8).
Abbreviation u16 := (wrap 16).
Abbreviation u32 := (wrap 32).
Abbreviation u64 := (wrap 64).
Abbreviation i16 := (swrap 16).
Abbreviation i32 := (swrap 32).
Abbreviation i64 := (swrap 64).

Abbreviation UINT32_MAX := (2 ^ 32 - 1).
Abbreviation INT32_MIN := (- 2 ^ 31).
Abbreviation INT32_MAX := (2 ^ 31 - 1).

(** ** Error codes (core/common/include/softbus_errcode.h) *)

Definition SOFTBUS_OK : Z := 0.
Definition SOFTBUS_ERR : Z := -1.
Definition SOFTBUS_COMMOM_ERR_BASE : Z := -1000.
Definition SOFTBUS_TIMOUT : Z := SOFTBUS_COMMOM_ERR_BASE + 1.
Definition SOFTBUS_INVALID_PARAM : Z := SOFTBUS_COMMOM_ERR_BASE + 2.
Definition SOFTBUS_MEM_ERR : Z := SOFTBUS_COMMOM_ERR_BASE + 3.
Definition SOFTBUS_NO_INIT : Z := SOFTBUS_COMMOM_ERR_BASE + 6.
Definition SOFTBUS_MALLOC_ERR : Z := SOFTBUS_COMMOM_ERR_BASE + 9.
Definition SOFTBUS_ENCRYPT_ERR : Z := SOFTBUS_COMMOM_ERR_BASE + 10.
Definition SOFTBUS_DECRYPT_ERR : Z := SOFTBUS_COMMOM_ERR_BASE + 11.
Definition SOFTBUS_DATA_NOT_ENOUGH : Z := SOFTBUS_COMMOM_ERR_BASE + 22.
Definition SOFTBUS_SLICE_ERROR : Z := SOFTBUS_COMMOM_ERR_BASE + 23.
Definition SOFTBUS_TRANS_ERR_BASE : Z := -11000.
Definition SOFTBUS_TRANS_INVALID_DATA_LENGTH : Z := SOFTBUS_TRANS_ERR_BASE + 10.
Definition SOFTBUS_TRANS_PROXY_PACKMSG_ERR : Z := SOFTBUS_TRANS_ERR_BASE + 12.
Definition SOFTBUS_TRANS_PROXY_SENDMSG_ERR : Z := SOFTBUS_TRANS_ERR_BASE + 13.
Definition SOFTBUS_TRANS_PROXY_SEND_CHANNELID_INVALID : Z := SOFTBUS_TRANS_ERR_BASE + 14.
Definition SOFTBUS_TRANS_PROXY_CHANNLE_STATUS_INVALID : Z := SOFTBUS_TRANS_ERR_BASE + 15.
Definition SOFTBUS_TRANS_PROXY_SESS_ENCRYPT_ERR : Z := SOFTBUS_TRANS_ERR_BASE + 17.
Definition SOFTBUS_TRANS_PROXY_INVALID_SLICE_HEAD : Z := SOFTBUS_TRANS_ERR_BASE + 18.
Definition SOFTBUS_TRANS_PROXY_ASSEMBLE_PACK_NO_INVALID : Z := SOFTBUS_TRANS_ERR_BASE + 19.
Definition SOFTBUS_TRANS_PROXY_ASSEMBLE_PACK_EXCEED_LENGTH : Z := SOFTBUS_TRANS_ERR_BASE + 20.
Definition SOFTBUS_TRANS_PROXY_ASSEMBLE_PACK_DATA_NULL : Z := SOFTBUS_TRANS_ERR_BASE + 21.

(** ** Byte codecs

    The target is little-endian; [htonl]/[ntohl] are the byte reversal of a
    four-byte word.  [le_split]/[le_combine] are coqutil's. *)

Definition le_bytes (n : nat) (z : Z) : list byte := le_split n z.
Definition le_val (bs : list byte) : Z := le_combine bs.
Definition be_bytes (n : nat) (z : Z) : list byte := rev (le_bytes n z).
Definition be_val (bs : list byte) : Z := le_val (rev bs).

(** [bswap32] is what [htonl] and [ntohl] compute on a little-endian target. *)
Definition bswap32 (z : Z) : Z := be_val (le_bytes 4 z).

#[global] Arguments le_bytes : simpl never.
#[global] Arguments le_val : simpl never.

(** [slice off len l]: the [len] elements of [l] from offset [off]. *)
Definition slice {A} (off len : nat) (l : list A) : list A := take len (drop off l).

(** [splice off xs l]: [l] with the elements from [off] overwritten by [xs];
    the effect of a [memcpy] of [xs] to [l + off]. *)
Definition splice {A} (off : nat) (xs l : list A) : list A :=
  take off l ++ xs ++ drop (off + length xs) l.

(** [int32_at i l]: the little-endian [int32_t] at offset [i] of [l], [None]
    when it is not inside. *)
Definition int32_at (i : nat) (l : list byte) : option Z :=
  if (i + 4 <=? length l)%nat then Some (i32 (le_val (slice i 4 l))) else None.

#[export] Instance byte_eq_dec : EqDecision byte := Byte.byte_eq_dec.

Definition zeros (n : nat) : list byte := replicate n Byte.x00.

(** [memcpy_s(dst + off, destMax, src, count)] with [count] the length of
    [src]: refused when [count] exceeds [destMax] (then [destMax] bytes are
    cleared) or [destMax] is 0; [None] when it would write outside [dst]. *)
Definition memcpy_s (dst : list byte) (off : nat) (destMax : Z) (src : list byte)
    : option (bool * list byte) :=
  if destMax <=? 0 then Some (false, dst)
  else if Z.of_nat (length src) >? destMax then
    if (off + Z.to_nat destMax <=? length dst)%nat
    then Some (false, splice off (zeros (Z.to_nat destMax)) dst) else None
  else if (off + length src <=? length dst)%nat then Some (true, splice off src dst) else None.

(** ** Record updates

    [x <| f := v |>] is [x] with field [f] replaced.  A record type registers its
    constructor and projections as an instance of [Fields]; the notation
    expands to the constructor applied to the projections of [x], so that
    [cbn] computes with it on open terms. *)

Class Fields (R : Type) {C P : Type} := { ctor : C; projs : P }.

Ltac set_with c x fld v ps :=
  let app c p :=
    match constr:(Set) with
    | _ => let _ := match constr:(Set) with _ => constr_eq p fld end in constr:(c v)
    | _ => let a := eval cbn [p] in (p x) in constr:(c a)
    end in
  lazymatch ps with
  | (?ps', ?p) => let c' := set_with c x fld v ps' in app c' p
  | ?p => app c p
  end.
Ltac has_field fld ps :=
  lazymatch ps with
  | (?ps', ?p) => first [constr_eq p fld | has_field fld ps']
  | ?p => constr_eq p fld
  end.
Ltac record_set x fld v :=
  let R := type of x in
  let I := constr:(_ : Fields R) in
  let I := eval hnf in I in
  lazymatch I with {| ctor := ?k; projs := ?ps |} => has_field fld ps; let t := set_with k x fld v ps in exact t end.

Notation "x '<|' f := v '|>'" := (ltac:(record_set x f v))
  (at level 1, only parsing, f at level 0, v at level 200).

(** ** Automation *)

Create HintDb softbus discriminated.
Create Rewrite HintDb wrap.

(** Replace the machine-integer conversions by their defining equations and
    call [lia]: complete for goals with a fixed number of wraps. *)
Ltac wrap_lia :=
  unfold wrap, swrap in *; simpl Z.pow in *; Z.div_mod_to_equations; lia.

(** Case split on the innermost boolean test of an [if] in the goal (or in
    hypothesis [H]), keeping its truth value as a hypothesis for [lia]. *)
Ltac case_if :=
  match goal with
  | |- context [if ?b then _ else _] =>
      lazymatch b with
      | context [if _ then _ else _] => fail
      | _ => let E := fresh "Hif" in destruct b eqn:E
      end
  end.
Ltac case_if_in H :=
  match type of H with
  | context [if ?b then _ else _] =>
      lazymatch b with
      | context [if _ then _ else _] => fail
      | _ => let E := fresh "Hif" in destruct b eqn:E
      end
  end.

(** Decide a boolean comparison: [lia] on its propositional reading (the
    [nat] casts inside boolean atoms are not seen by [lia] itself). *)
Ltac bool_lia :=
  first
    [ lia
    | rewrite ?Z.gtb_ltb, ?Z.geb_leb;
      first [ apply Z.ltb_ge; lia | apply Z.ltb_lt; lia | apply Z.leb_gt; lia
            | apply Z.leb_le; lia | apply Z.eqb_eq; lia | apply Z.eqb_neq; lia
            | symmetry; first [ apply Z.ltb_ge; lia | apply Z.ltb_lt; lia | apply Z.leb_gt; lia
                              | apply Z.leb_le; lia | apply Z.eqb_eq; lia | apply Z.eqb_neq; lia ] ] ].

(** Close or simplify goals after a case split on boolean tests. *)
Ltac bool_solve := try discriminate; try congruence; try lia.

(** ** Lemmas on machine integers *)

Lemma wrap_range w z : 0 <= w -> 0 <= wrap w z < 2 ^ w.
Proof. intros. apply Z.mod_pos_bound, Z.pow_pos_nonneg; lia. Qed.

Lemma wrap_small w z : 0 <= z < 2 ^ w -> wrap w z = z.
Proof. apply Z.mod_small. Qed.

Lemma swrap_small w z :
  0 < w -> - 2 ^ (w - 1) <= z < 2 ^ (w - 1) -> swrap w z = z.
Proof.
  intros Hw Hz. unfold swrap.
  assert (2 ^ w = 2 * 2 ^ (w - 1)) as E
    by (replace w with (Z.succ (w - 1)) at 1 by lia; apply Z.pow_succ_r; lia).
  rewrite Z.mod_small; lia.
Qed.

Lemma u32_range z : 0 <= u32 z < 2 ^ 32.
Proof. by apply wrap_range. Qed.
Lemma i32_range z : INT32_MIN <= i32 z <= INT32_MAX.
Proof. wrap_lia. Qed.
Lemma u32_small z : 0 <= z < 2 ^ 32 -> u32 z = z.
Proof. apply wrap_small. Qed.
Lemma i32_small z : INT32_MIN <= z <= INT32_MAX -> i32 z = z.
Proof. intros. apply swrap_small; lia. Qed.
Lemma i32_idem z : i32 (i32 z) = i32 z.
Proof. apply i32_small, i32_range. Qed.
Lemma u32_idem z : u32 (u32 z) = u32 z.
Proof. apply u32_small, u32_range. Qed.

Lemma i32_eq_u32 a b : i32 a = i32 b <-> u32 a = u32 b.
Proof.
  unfold wrap, swrap. simpl Z.pow. split; intros H; Z.div_mod_to_equations; lia.
Qed.

Lemma i32_sub_i32 a b : i32 (i32 a - i32 b) = i32 (a - b).
Proof. wrap_lia. Qed.
Lemma u32_sub_i32 a b : u32 (i32 a - i32 b) = u32 (a - b).
Proof. wrap_lia. Qed.
Lemma i32_add_l a b : i32 (i32 a + b) = i32 (a + b).
Proof. wrap_lia. Qed.

#[export] Hint Rewrite i32_idem u32_idem i32_sub_i32 u32_sub_i32 i32_add_l : wrap.

(** ** Lemmas on slices *)

Lemma length_splice {A} off (xs l : list A) :
  (off + length xs <= length l)%nat -> length (splice off xs l) = length l.
Proof. intros. unfold splice. rewrite !length_app, length_take, length_drop. lia. Qed.

Lemma splice_take {A} off n (xs l : list A) :
  (off + length xs <= length l)%nat -> n = (off + length xs)%nat ->
  take n (splice off xs l) = take off l ++ xs.
Proof.
  intros Hl ->. unfold splice. rewrite app_assoc. apply take_app_length'.
  rewrite length_app, length_take. lia.
Qed.

Lemma take_slice {A} off len (l : list A) :
  take off l ++ slice off len l = take (off + len) l.
Proof. unfold slice. rewrite take_take_drop. f_equal. Qed.

Lemma slice_mid {A} (a b c : list A) i n :
  i = length a -> n = length b -> slice i n (a ++ b ++ c) = b.
Proof.
  intros -> ->. unfold slice. rewrite drop_app_length. apply take_app_length.
Qed.

Lemma memcpy_s_ok dst off destMax src :
  0 < destMax -> Z.of_nat (length src) <= destMax -> (off + length src <= length dst)%nat ->
  memcpy_s dst off destMax src = Some (true, splice off src dst).
Proof.
  intros H0 H1 H2. unfold memcpy_s. replace (destMax <=? 0) with false by lia.
  replace (Z.of_nat (length src) >? destMax) with false by bool_lia.
  by rewrite (proj2 (Nat.leb_le _ _)).
Qed.

(** A [memcpy_s] whose [destMax] describes the room in [dst] stays inside it. *)
Lemma memcpy_s_safe dst off destMax src : destMax <= Z.of_nat (length dst) - Z.of_nat off ->
  exists r dst', memcpy_s dst off destMax src = Some (r, dst') /\ length dst' = length dst /\
    (r = true -> Z.of_nat (length src) <= destMax).
Proof.
  intros H. unfold memcpy_s. destruct (destMax <=? 0) eqn:E0.
  { by exists false, dst. }
  destruct (_ >? destMax) eqn:E1.
  - rewrite (proj2 (Nat.leb_le _ _)) by lia. eexists _, _. split; [done|]. split; [|done].
    apply length_splice. unfold zeros. rewrite length_replicate. lia.
  - rewrite (proj2 (Nat.leb_le _ _)) by lia. eexists _, _. split; [done|].
    split; [apply length_splice; lia|lia].
Qed.

(** ** Lemmas on permutations *)

Lemma perm_snoc_l {A} (a b c : list A) x : a ≡ₚ b ++ c -> a ++ [x] ≡ₚ (b ++ [x]) ++ c.
Proof.
  intros ->. rewrite <- Permutation_cons_append, <- (Permutation_cons_append b). done.
Qed.

Lemma perm_snoc_r {A} (a b c d : list A) x :
  a ≡ₚ b ++ c ++ d -> a ++ [x] ≡ₚ b ++ c ++ x :: d.
Proof. intros ->. rewrite <- Permutation_cons_append, !app_assoc. apply Permutation_middle. Qed.

(** ** Lemmas on filters *)

Lemma filter_none {A} (P : A -> Prop) `{!forall x, Decision (P x)} (l : list A) :
  (forall x, x ∈ l -> ~ P x) -> filter P l = [].
Proof.
  induction l as [|x l IH]; intros Hl; [done|]. rewrite filter_cons_False by (apply Hl; set_solver).
  apply IH. set_solver.
Qed.

Lemma filter_all {A} (P : A -> Prop) `{!forall x, Decision (P x)} (l : list A) :
  (forall x, x ∈ l -> P x) -> filter P l = l.
Proof.
  induction l as [|x l IH]; intros Hl; [done|]. rewrite filter_cons_True by (apply Hl; set_solver).
  f_equal. apply IH. set_solver.
Qed.

Lemma Forall_filter {A} (P Q : A -> Prop) `{!forall x, Decision (P x)} (l : list A) :
  Forall Q l -> Forall Q (filter P l).
Proof. rewrite !Forall_forall. intros HQ x Hx. apply list_elem_of_filter in Hx as [_ Hx]. auto. Qed.

Lemma NoDup_fmap_filter {A B} (f : A -> B) (P : A -> Prop) `{!forall x, Decision (P x)} (l : list A) :
  NoDup (f <$> l) -> NoDup (f <$> filter P l).
Proof.
  induction l as [|x l IH]; [done|]. rewrite fmap_cons, NoDup_cons, filter_cons. intros [Hx Hl].
  case_decide; [|auto]. rewrite fmap_cons. apply NoDup_cons. split; [|auto]. intros Hin.
  apply list_elem_of_fmap in Hin as (y & E & Hy). apply list_elem_of_filter in Hy as [_ Hy].
  apply Hx. rewrite E. by apply list_elem_of_fmap_2.
Qed.

(** ** Lemmas on byte codecs *)

Lemma length_le_bytes n z : length (le_bytes n z) = n.
Proof. apply length_le_split. Qed.
Lemma length_be_bytes n z : length (be_bytes n z) = n.
Proof. unfold be_bytes. by rewrite length_rev, length_le_bytes. Qed.
Lemma le_val_bytes n z : le_val (le_bytes n z) = z mod 2 ^ (Z.of_nat n * 8).
Proof. apply le_combine_split. Qed.
Lemma be_val_bytes n z : be_val (be_bytes n z) = z mod 2 ^ (Z.of_nat n * 8).
Proof. unfold be_val, be_bytes. by rewrite rev_involutive, le_val_bytes. Qed.
Lemma le_bytes_val bs : le_bytes (length bs) (le_val bs) = bs.
Proof. apply split_le_combine. Qed.

Lemma be_val_range bs : 0 <= be_val bs < 2 ^ (8 * Z.of_nat (length bs)).
Proof. unfold be_val. rewrite <- (length_rev bs). apply le_combine_bound. Qed.

Lemma i32_le_val_bytes z : i32 (le_val (le_bytes 4 z)) = i32 z.
Proof. rewrite le_val_bytes. simpl. wrap_lia. Qed.
Lemma i32_be_val_bytes z : i32 (be_val (be_bytes 4 z)) = i32 z.
Proof. rewrite be_val_bytes. simpl. wrap_lia. Qed.
Lemma u32_le_val_bytes z : u32 (le_val (le_bytes 4 z)) = u32 z.
Proof. rewrite le_val_bytes. simpl. wrap_lia. Qed.

Lemma int32_at_mid a z c i : i = length a ->
  int32_at i (a ++ le_bytes 4 z ++ c) = Some (i32 z).
Proof.
  intros ->. unfold int32_at.
  rewrite (proj2 (Nat.leb_le _ _)) by (rewrite !length_app, length_le_bytes; lia).
  rewrite slice_mid by (done || by rewrite length_le_bytes). by rewrite i32_le_val_bytes.
Qed.

Lemma bswap32_involutive z : u32 (bswap32 (bswap32 z)) = u32 z.
Proof.
  unfold bswap32, be_val.
  rewrite <- (length_le_bytes 4 z) at 1.
  rewrite <- (length_rev (le_bytes 4 z)), le_bytes_val, rev_involutive.
  apply u32_le_val_bytes.
Qed.
