(* ===== verification/SeqVerify.v ===== *)
(** * Sequence verification (core/common/security/sequence_verification)

    The anti-replay filter of the proxy channels: a window [minSeq, maxSeq) of
    32-bit sequence numbers with a 64-bit bitmap of the numbers received out of
    order.  The file holds the functions of softbus_sequence_verification.c, a
    reference window over unbounded integers, the refinement between the two
    (across the wrap of the 32-bit counter), and what the window guarantees on
    whole traces. *)

From S2P Require Import Prelude.

Module SeqVerification.

(** ** Model *)

Record SeqVerifyInfo := mkSeqVerifyInfo {
  maxSeq : Z;
  minSeq : Z;
  recvBitmap : Z;
}.

Definition MAX_SEQ_BIAS : Z := 60.

(** [x << n] for a 64-bit [x] on an LP64 target.  A shift of 64 or more is
    undefined in C; the model drops every bit.  No shift of that size happens
    on the inputs of the refinement theorem. *)
Definition shl64 (x n : Z) : Z := if n <? 64 then u64 (Z.shiftl x n) else 0.

Definition IsDifferentSign (seqA seqB : Z) : bool :=
  if ((seqA >=? 0) && (seqB >=? 0)) || ((seqA <? 0) && (seqB <? 0))
  then false else true.

Definition IsPassDuplicateCheck (info : SeqVerifyInfo) (recvSeq : Z)
  : bool * SeqVerifyInfo :=
  let offset := u32 (maxSeq info - recvSeq) in
  let isRepeat := i32 (Z.land (recvBitmap info) (shl64 1 offset)) in
  if negb (isRepeat =? 0) then (false, info)
  else (true, mkSeqVerifyInfo (maxSeq info) (minSeq info)
                (Z.lor (recvBitmap info) (shl64 1 offset))).

Definition IsPassOverMaxCheck (info : SeqVerifyInfo) (recvSeq : Z)
  : bool * SeqVerifyInfo :=
  if i32 (recvSeq - maxSeq info) <? 0 then (false, info)
  else if i32 (recvSeq - minSeq info) >=? MAX_SEQ_BIAS then (false, info)
  else
    let seqOffset := u32 (recvSeq - maxSeq info + 1) in
    let bitmap := shl64 (recvBitmap info) seqOffset in
    (true, mkSeqVerifyInfo (i32 (recvSeq + 1)) (minSeq info)
             (Z.lor bitmap (shl64 1 1))).

(** [seqVerifyInfo->minSeq = ++recvSeq; return true;] *)
Definition advance_min (info : SeqVerifyInfo) (recvSeq : Z) : bool * SeqVerifyInfo :=
  (true, mkSeqVerifyInfo (maxSeq info) (i32 (recvSeq + 1)) (recvBitmap info)).

Definition IsPassAllRangeCheck (info : SeqVerifyInfo) (recvSeq : Z)
  : bool * SeqVerifyInfo :=
  if recvSeq =? minSeq info then advance_min info recvSeq
  else if recvSeq >? minSeq info then
    if recvSeq <? maxSeq info then IsPassDuplicateCheck info recvSeq
    else IsPassOverMaxCheck info recvSeq
  else (false, info).

Definition IsPassNormalCheck (info : SeqVerifyInfo) (recvSeq : Z)
  : bool * SeqVerifyInfo :=
  if recvSeq =? minSeq info then
    (true, mkSeqVerifyInfo (i32 (recvSeq + 1)) (i32 (recvSeq + 1)) (recvBitmap info))
  else if negb (IsDifferentSign recvSeq (minSeq info)) then
    if recvSeq >? maxSeq info then IsPassOverMaxCheck info recvSeq
    else (false, info)
  else IsPassOverMaxCheck info recvSeq.

Definition IsPassNoflipDisorderCheck (info : SeqVerifyInfo) (recvSeq : Z)
  : bool * SeqVerifyInfo :=
  if minSeq info >=? 0 then
    if recvSeq >=? 0 then IsPassAllRangeCheck info recvSeq
    else IsPassOverMaxCheck info recvSeq
  else if maxSeq info <? 0 then
    if recvSeq <? 0 then IsPassAllRangeCheck info recvSeq
    else IsPassOverMaxCheck info recvSeq
  else (false, info).

Definition IsPassFlipPositiveCheck (info : SeqVerifyInfo) (recvSeq : Z)
  : bool * SeqVerifyInfo :=
  if recvSeq >=? 0 then
    if recvSeq <? maxSeq info then IsPassDuplicateCheck info recvSeq
    else IsPassOverMaxCheck info recvSeq
  else if recvSeq =? minSeq info then advance_min info recvSeq
  else if recvSeq >? minSeq info then IsPassDuplicateCheck info recvSeq
  else (false, info).

Definition IsPassFlipNegativeCheck (info : SeqVerifyInfo) (recvSeq : Z)
  : bool * SeqVerifyInfo :=
  if recvSeq >=? 0 then
    if recvSeq =? minSeq info then advance_min info recvSeq
    else if recvSeq >? minSeq info then IsPassDuplicateCheck info recvSeq
    else (false, info)
  else if recvSeq <? maxSeq info then IsPassDuplicateCheck info recvSeq
  else IsPassOverMaxCheck info recvSeq.

Definition IsPassSeqCheck_body (info : SeqVerifyInfo) (recvSeq : Z)
  : bool * SeqVerifyInfo :=
  let isDifferentSign := IsDifferentSign (minSeq info) (maxSeq info) in
  if minSeq info =? maxSeq info then IsPassNormalCheck info recvSeq
  else if (minSeq info <? maxSeq info) && negb isDifferentSign then
    IsPassNoflipDisorderCheck info recvSeq
  else if (minSeq info >? maxSeq info) && isDifferentSign then
    IsPassFlipNegativeCheck info recvSeq
  else if (minSeq info <? maxSeq info) && isDifferentSign then
    IsPassFlipPositiveCheck info recvSeq
  else (false, info).

(** The exported function: the pointer may be NULL ([None]). *)
Definition IsPassSeqCheck (seqVerifyInfo : option SeqVerifyInfo) (recvSeq : Z)
  : bool * option SeqVerifyInfo :=
  match seqVerifyInfo with
  | None => (false, None)
  | Some info =>
      let '(ok, info') := IsPassSeqCheck_body info recvSeq in (ok, Some info')
  end.

(** The verdicts on a sequence of received numbers. *)
Fixpoint run_checks (info : SeqVerifyInfo) (recv : list Z) : list bool * SeqVerifyInfo :=
  match recv with
  | [] => ([], info)
  | s :: recv' =>
      let '(ok, info') := IsPassSeqCheck_body info s in
      let '(oks, info'') := run_checks info' recv' in
      (ok :: oks, info'')
  end.

(** ** Reference: a sliding window over unbounded sequence numbers *)

Record Window := mkWindow { lo : Z; hi : Z; seen : gset Z }.

(** Distance from [hi] below which a duplicate is recognised: [isRepeat] is an
    [int32_t], so bits 32 and above of the bitmap are lost in the test. *)
Definition DUP_REACH : Z := 32.

Definition spec_check (w : Window) (s : Z) : bool * Window :=
  if s =? lo w then (true, mkWindow (s + 1) (Z.max (hi w) (s + 1)) (seen w))
  else if s <? lo w then (false, w)
  else if s <? hi w then
    if bool_decide (s ∈ seen w) && (hi w - s <? DUP_REACH) then (false, w)
    else (true, mkWindow (lo w) (hi w) ({[s]} ∪ seen w))
  else if s - lo w >=? MAX_SEQ_BIAS then (false, w)
  else (true, mkWindow (lo w) (s + 1) ({[s]} ∪ seen w)).

Fixpoint spec_run (w : Window) (recv : list Z) : list bool * Window :=
  match recv with
  | [] => ([], w)
  | s :: recv' =>
      let '(ok, w') := spec_check w s in
      let '(oks, w'') := spec_run w' recv' in
      (ok :: oks, w'')
  end.

(** [info] represents [w]: the counters are the 32-bit views of the window's
    ends and bit [k] of the bitmap stands for sequence number [hi - k]. *)
Record seq_rel (info : SeqVerifyInfo) (w : Window) : Prop := {
  rel_max : maxSeq info = i32 (hi w);
  rel_min : minSeq info = i32 (lo w);
  rel_width : 0 <= hi w - lo w <= MAX_SEQ_BIAS;
  rel_bit0 : Z.testbit (recvBitmap info) 0 = false;
  rel_seen : forall s, s ∈ seen w -> s < hi w;
  rel_bits : forall s, lo w < s < hi w ->
    Z.testbit (recvBitmap info) (hi w - s) = bool_decide (s ∈ seen w);
}.

Definition init_window (base : Z) : Window := mkWindow base base ∅.
Definition init_info (base : Z) : SeqVerifyInfo := mkSeqVerifyInfo (i32 base) (i32 base) 0.

(** ** The bitmap *)

Lemma shl64_spec x n k : 0 <= n -> 0 <= k < 64 ->
  Z.testbit (shl64 x n) k = Z.testbit x (k - n).
Proof.
  intros. unfold shl64, wrap. case_if.
  - rewrite Z.mod_pow2_bits_low by lia. apply Z.shiftl_spec. lia.
  - rewrite Z.testbit_0_l, Z.testbit_neg_r by lia. done.
Qed.

Lemma testbit_1 k : Z.testbit 1 k = (k =? 0).
Proof.
  destruct (Z.eqb_spec k 0) as [->|]; [done|].
  destruct (Z_lt_le_dec k 0); [by apply Z.testbit_neg_r|].
  apply Z.bits_above_log2; simpl; lia.
Qed.

Lemma land_bit b n : 0 <= n < 64 ->
  Z.land b (shl64 1 n) = if Z.testbit b n then 2 ^ n else 0.
Proof.
  intros. apply Z.bits_inj'; intros k Hk. rewrite Z.land_spec.
  destruct (Z_lt_le_dec k 64).
  - rewrite shl64_spec, testbit_1 by lia.
    destruct (Z.eqb_spec (k - n) 0) as [?|].
    + replace k with n by lia. destruct (Z.testbit b n); simpl.
      * symmetry. apply Z.pow2_bits_true. lia.
      * by rewrite Z.testbit_0_l.
    + rewrite andb_false_r. destruct (Z.testbit b n).
      * rewrite Z.pow2_bits_false; [done|lia].
      * by rewrite Z.testbit_0_l.
  - unfold shl64, wrap. replace (n <? 64) with true by lia.
    rewrite Z.mod_pow2_bits_high by lia. rewrite andb_false_r.
    destruct (Z.testbit b n).
    + rewrite Z.pow2_bits_false; [done|lia].
    + by rewrite Z.testbit_0_l.
Qed.

(** The truncation of the masked word to [int32_t] keeps bits below 32 only. *)
Lemma i32_bit n : 0 <= n < 64 -> (i32 (2 ^ n) =? 0) = negb (n <? DUP_REACH).
Proof.
  intros. unfold DUP_REACH. destruct (Z.ltb_spec n 32); simpl.
  - apply Z.eqb_neq.
    assert (0 < 2 ^ n <= 2 ^ 31) by (split;
      [apply Z.pow_pos_nonneg|apply Z.pow_le_mono_r]; lia).
    wrap_lia.
  - apply Z.eqb_eq. replace n with (32 + (n - 32)) by lia.
    rewrite Z.pow_add_r by lia. generalize (2 ^ (n - 32)). intros. wrap_lia.
Qed.

Lemma lor_shl1_spec b n k : 0 <= n < 64 -> 0 <= k < 64 ->
  Z.testbit (Z.lor b (shl64 1 n)) k = Z.testbit b k || (k =? n).
Proof.
  intros. rewrite Z.lor_spec, shl64_spec, testbit_1 by lia. f_equal.
  apply eq_true_iff_eq. rewrite !Z.eqb_eq. lia.
Qed.

(** ** Each check against the reference window *)

Ltac rel_split := split; cbn [fst snd maxSeq minSeq recvBitmap lo hi seen].

Section refinement.
Context (info : SeqVerifyInfo) (w : Window).
Hypothesis Hrel : seq_rel info w.

Lemma rel_advance :
  let w' := mkWindow (lo w + 1) (Z.max (hi w) (lo w + 1)) (seen w) in
  (lo w < hi w -> seq_rel (mkSeqVerifyInfo (maxSeq info) (i32 (i32 (lo w) + 1)) (recvBitmap info)) w') /\
  (lo w = hi w -> seq_rel (mkSeqVerifyInfo (i32 (i32 (lo w) + 1)) (i32 (i32 (lo w) + 1))
                             (recvBitmap info)) w').
Proof.
  destruct Hrel as [Hmax Hmin Hw Hb0 Hseen Hbits]. simpl. rewrite i32_add_l.
  split; intros Hlt; rel_split; rewrite ?Z.max_l, ?Z.max_r by lia; try done; try lia.
  - intros s Hs. apply Hbits. lia.
  - intros s Hs. specialize (Hseen s Hs). lia.
Qed.

Lemma dup_refines s : lo w < s < hi w ->
  let r := IsPassDuplicateCheck info (i32 s) in
  let r' := spec_check w s in
  fst r = fst r' /\ seq_rel (snd r) (snd r').
Proof.
  intros Hs. destruct Hrel as [Hmax Hmin Hw Hb0 Hseen Hbits]. unfold MAX_SEQ_BIAS in *.
  unfold IsPassDuplicateCheck, spec_check. rewrite Hmax, u32_sub_i32, u32_small by lia.
  rewrite land_bit by lia. rewrite (Hbits s Hs).
  replace (s =? lo w) with false by lia. replace (s <? lo w) with false by lia.
  replace (s <? hi w) with true by lia.
  assert (negb (i32 (if bool_decide (s ∈ seen w) then 2 ^ (hi w - s) else 0) =? 0)
          = bool_decide (s ∈ seen w) && (hi w - s <? DUP_REACH)) as ->.
  { case_bool_decide; simpl; [|done]. rewrite i32_bit by lia. by rewrite negb_involutive. }
  destruct (_ && _); [done|]. split; [done|]. rel_split; try done; try lia.
  - rewrite lor_shl1_spec, Hb0, orb_false_l by lia. lia.
  - intros s' [->%elem_of_singleton|?]%elem_of_union; [lia|by apply Hseen].
  - intros s' Hs'. rewrite lor_shl1_spec, Hbits by lia.
    apply eq_true_iff_eq. rewrite orb_true_iff, !bool_decide_eq_true, Z.eqb_eq.
    rewrite elem_of_union, elem_of_singleton. split; intros [?|?]; first [by auto|lia].
Qed.

Lemma overmax_refines s : hi w <= s -> s <> lo w -> s - lo w < 2 ^ 31 ->
  let r := IsPassOverMaxCheck info (i32 s) in
  let r' := spec_check w s in
  fst r = fst r' /\ seq_rel (snd r) (snd r').
Proof.
  intros Hs Hne Hfar. pose proof Hrel as [Hmax Hmin Hw Hb0 Hseen Hbits].
  unfold MAX_SEQ_BIAS in *. unfold IsPassOverMaxCheck, spec_check.
  rewrite Hmax, Hmin, !i32_sub_i32, !i32_small by lia.
  replace (s =? lo w) with false by lia. replace (s <? lo w) with false by lia.
  replace (s <? hi w) with false by lia. replace (s - hi w <? 0) with false by lia.
  destruct (s - lo w >=? MAX_SEQ_BIAS) eqn:Hbias; [done|]. unfold MAX_SEQ_BIAS in Hbias.
  rewrite i32_add_l. split; [done|].
  replace (u32 (i32 s - i32 (hi w) + 1)) with (s - hi w + 1) by wrap_lia.
  rel_split; unfold MAX_SEQ_BIAS; try done; try lia.
  - rewrite lor_shl1_spec, shl64_spec by lia.
    rewrite Z.testbit_neg_r by lia. done.
  - intros s' [->%elem_of_singleton|Hs']%elem_of_union; [lia|].
    specialize (Hseen s' Hs'). lia.
  - intros s' Hs'. rewrite lor_shl1_spec, shl64_spec by lia.
    replace (s + 1 - s' - (s - hi w + 1)) with (hi w - s') by lia.
    apply eq_true_iff_eq.
    rewrite orb_true_iff, bool_decide_eq_true, Z.eqb_eq, elem_of_union, elem_of_singleton.
    destruct (Z_lt_le_dec s' (hi w)).
    + rewrite Hbits, bool_decide_eq_true by lia. split; intros [?|?]; first [by auto|lia].
    + assert (Z.testbit (recvBitmap info) (hi w - s') = false) as ->.
      { destruct (Z.eq_dec s' (hi w)) as [->|]; [by rewrite Z.sub_diag|].
        apply Z.testbit_neg_r. lia. }
      split; [intros [?|?]; [done|left; lia]|]. intros [->|?%Hseen]; [right|]; lia.
Qed.

(** A number far enough behind the window is refused by the overflow check. *)
Lemma overmax_behind s : s < lo w -> - (2 ^ 31 - MAX_SEQ_BIAS) <= s - lo w ->
  IsPassOverMaxCheck info (i32 s) = (false, info).
Proof.
  intros Hs Hnear. destruct Hrel as [Hmax Hmin Hw _ _ _].
  unfold IsPassOverMaxCheck, MAX_SEQ_BIAS in *.
  rewrite Hmax, i32_sub_i32, i32_small by lia.
  by replace (s - hi w <? 0) with true by lia.
Qed.
End refinement.

(** ** The sign-based dispatch

    [IsPassSeqCheck] compares the 32-bit views; the four regions of the
    reference window are reached exactly as intended. *)

Section dispatch.
Context (l h s : Z) (b : Z).
Hypothesis Hwidth : 0 <= h - l <= MAX_SEQ_BIAS.
Hypothesis Hnear : - (2 ^ 31 - MAX_SEQ_BIAS) <= s - l < 2 ^ 31.
Let info := mkSeqVerifyInfo (i32 h) (i32 l) b.

Ltac dispatch :=
  unfold IsPassSeqCheck_body, IsPassNormalCheck, IsPassNoflipDisorderCheck,
    IsPassFlipNegativeCheck, IsPassFlipPositiveCheck, IsPassAllRangeCheck,
    IsDifferentSign, MAX_SEQ_BIAS in *; simpl;
  repeat (case_if; try reflexivity); exfalso; clear info; wrap_lia.

Lemma dispatch_lo_eq : s = l -> l = h ->
  IsPassSeqCheck_body info (i32 s) =
  (true, mkSeqVerifyInfo (i32 (i32 s + 1)) (i32 (i32 s + 1)) b).
Proof. intros -> ->. unfold IsPassSeqCheck_body, IsPassNormalCheck. simpl. by rewrite Z.eqb_refl. Qed.

Lemma dispatch_lo : s = l -> l < h ->
  IsPassSeqCheck_body info (i32 s) = advance_min info (i32 s).
Proof. intros. dispatch. Qed.

Lemma dispatch_dup : l < s < h ->
  IsPassSeqCheck_body info (i32 s) = IsPassDuplicateCheck info (i32 s).
Proof. intros. dispatch. Qed.

Lemma dispatch_over : h <= s -> s <> l ->
  IsPassSeqCheck_body info (i32 s) = IsPassOverMaxCheck info (i32 s).
Proof. intros. dispatch. Qed.

Lemma dispatch_behind : s < l ->
  IsPassSeqCheck_body info (i32 s) = (false, info) \/
  IsPassSeqCheck_body info (i32 s) = IsPassOverMaxCheck info (i32 s).
Proof.
  intros.
  unfold IsPassSeqCheck_body, IsPassNormalCheck, IsPassNoflipDisorderCheck,
    IsPassFlipNegativeCheck, IsPassFlipPositiveCheck, IsPassAllRangeCheck,
    IsDifferentSign, MAX_SEQ_BIAS in *; simpl;
  repeat (case_if; try (by left); try (by right)); exfalso; clear info; wrap_lia.
Qed.
End dispatch.

(** ** Refinement of one check and of whole traces *)

Definition near (w : Window) (s : Z) : Prop :=
  - (2 ^ 31 - MAX_SEQ_BIAS) <= s - lo w < 2 ^ 31.

Lemma check_refines info w s : seq_rel info w -> near w s ->
  let r := IsPassSeqCheck_body info (i32 s) in
  let r' := spec_check w s in
  fst r = fst r' /\ seq_rel (snd r) (snd r').
Proof.
  intros Hrel Hnear. pose proof (rel_width _ _ Hrel) as Hw.
  pose proof (rel_advance _ _ Hrel) as [Hadv Hadv_eq].
  assert (info = mkSeqVerifyInfo (i32 (hi w)) (i32 (lo w)) (recvBitmap info)) as Einfo.
  { destruct Hrel as [<- <- _ _ _ _]. by destruct info. }
  destruct (Z.eq_dec s (lo w)) as [Hlo|Hlo]; [|destruct (Z_lt_le_dec s (lo w)) as [Hb|Hge]].
  - assert (spec_check w s = (true, mkWindow (lo w + 1) (Z.max (hi w) (lo w + 1)) (seen w)))
      as -> by (unfold spec_check; subst s; by rewrite Z.eqb_refl).
    destruct (Z.eq_dec (lo w) (hi w)); rewrite Einfo.
    + rewrite dispatch_lo_eq by done. subst s. by split; [|apply Hadv_eq].
    + rewrite dispatch_lo by lia. split; [done|].
      rewrite (rel_max _ _ Hrel) in Hadv. unfold advance_min. subst s. apply Hadv. lia.
  - assert (spec_check w s = (false, w)) as ->.
    { unfold spec_check. replace (s =? lo w) with false by lia.
      by replace (s <? lo w) with true by lia. }
    assert (IsPassSeqCheck_body info (i32 s) = (false, info)) as ->; [|done].
    rewrite Einfo. destruct (dispatch_behind (lo w) (hi w) s (recvBitmap info)) as [->| ->];
      try done. rewrite <- Einfo. eapply overmax_behind; [done..|]. apply Hnear.
  - destruct (Z_lt_le_dec s (hi w)).
    + rewrite Einfo, dispatch_dup, <- Einfo by (done || lia). apply dup_refines; [done|lia].
    + rewrite Einfo, dispatch_over, <- Einfo by (done || lia).
      apply overmax_refines; [done..|]. apply Hnear.
Qed.

(** Every number of the trace within half the 32-bit range of [base]. *)
Definition near_trace (base : Z) (recv : list Z) : Prop :=
  Forall (fun s => base <= s < base + (2 ^ 31 - MAX_SEQ_BIAS)) recv.

Lemma spec_check_lo w s : lo w <= lo (snd (spec_check w s)) <= Z.max (lo w) (s + 1).
Proof. unfold spec_check. repeat case_if; simpl; lia. Qed.

Lemma spec_check_seen w s : seen (snd (spec_check w s)) ⊆ {[s]} ∪ seen w.
Proof. unfold spec_check. repeat case_if; simpl; set_solver. Qed.

Lemma spec_check_mono w s : seen w ⊆ seen (snd (spec_check w s)).
Proof. unfold spec_check. repeat case_if; simpl; set_solver. Qed.

(** An accepted number is behind the window or recorded in it. *)
Lemma spec_check_accept w s : fst (spec_check w s) = true ->
  s < lo (snd (spec_check w s)) \/ s ∈ seen (snd (spec_check w s)).
Proof. unfold spec_check. repeat case_if; simpl; intros; try done; first [left; lia | right; set_solver]. Qed.

Lemma run_refines base recv info w : near_trace base recv ->
  seq_rel info w -> base <= lo w <= base + (2 ^ 31 - MAX_SEQ_BIAS) ->
  let r := run_checks info (i32 <$> recv) in
  let r' := spec_run w recv in
  fst r = fst r' /\ seq_rel (snd r) (snd r') /\
  base <= lo (snd r') <= base + (2 ^ 31 - MAX_SEQ_BIAS).
Proof.
  intros Htr. revert info w.
  induction Htr as [|s recv Hs _ IH]; intros info w Hrel Hlo; [simpl; by split_and!; try lia|].
  destruct (check_refines info w s) as [Hv Hrel']; [done|unfold near, MAX_SEQ_BIAS in *; lia|].
  pose proof (spec_check_lo w s) as Hlo'. simpl.
  destruct (IsPassSeqCheck_body info (i32 s)) as [ok info'], (spec_check w s) as [ok' w'].
  simpl in *. destruct (IH info' w') as (? & ? & ?); [done|lia|].
  destruct (run_checks info' _), (spec_run w' recv). simpl in *. split_and!; (congruence || done || lia).
Qed.

Lemma init_rel base : seq_rel (init_info base) (init_window base).
Proof.
  rel_split; unfold init_info, init_window, MAX_SEQ_BIAS; simpl; (done || lia || set_solver).
Qed.

Lemma spec_run_seen recv w : seen (snd (spec_run w recv)) ⊆ seen w ∪ list_to_set recv.
Proof.
  revert w. induction recv as [|s recv IH]; intros w; simpl; [set_solver|].
  pose proof (spec_check_seen w s). destruct (spec_check w s) as [ok w'].
  specialize (IH w'). destruct (spec_run w' recv). set_solver.
Qed.

Lemma spec_run_keeps recv w s : s < lo w \/ s ∈ seen w ->
  s < lo (snd (spec_run w recv)) \/ s ∈ seen (snd (spec_run w recv)).
Proof.
  revert w. induction recv as [|s' recv IH]; intros w Hs; simpl; [done|].
  pose proof (spec_check_mono w s'). pose proof (spec_check_lo w s').
  destruct (spec_check w s') as [ok w']. specialize (IH w').
  destruct (spec_run w' recv). apply IH. simpl in *. destruct Hs; [left; lia|right; set_solver].
Qed.

Lemma spec_run_accepted recv w i s :
  recv !! i = Some s -> fst (spec_run w recv) !! i = Some true ->
  s < lo (snd (spec_run w recv)) \/ s ∈ seen (snd (spec_run w recv)).
Proof.
  revert w i. induction recv as [|s' recv IH]; intros w i; [done|]. simpl.
  pose proof (spec_check_accept w s') as Hacc. pose proof (spec_run_keeps recv) as Hkeep.
  destruct (spec_check w s') as [ok w'] eqn:E. specialize (IH w'). specialize (Hkeep w').
  destruct (spec_run w' recv) as [oks w''] eqn:E'. simpl in *.
  destruct i as [|i]; simpl; [|apply IH]. intros [= ->] [= ->]. auto.
Qed.

(** ** Properties *)


(** C37: no false rejection.  On every trace near [base], a number that was
    never received before and lies less than [MAX_SEQ_BIAS] ahead of [minSeq]
    is accepted, whatever was received in whatever order. *)
Theorem fresh_seq_accepted base recv s :
  near_trace base (recv ++ [s]) -> s ∉ recv ->
  let info := snd (run_checks (init_info base) (i32 <$> recv)) in
  0 <= i32 (i32 s - minSeq info) < MAX_SEQ_BIAS ->
  fst (IsPassSeqCheck_body info (i32 s)) = true.
Proof.
  intros [Htr Hs]%Forall_app Hfresh. rewrite Forall_singleton in Hs.
  destruct (run_refines base recv (init_info base) (init_window base)) as (_ & Hrel & Hlo);
    [done|apply init_rel|unfold MAX_SEQ_BIAS; simpl; lia|].
  pose proof (spec_run_seen recv (init_window base)) as Hseen.
  revert Hrel Hlo Hseen. generalize (snd (run_checks (init_info base) (i32 <$> recv))) as info.
  generalize (snd (spec_run (init_window base) recv)) as w. intros w info Hrel Hlo Hseen. simpl.
  rewrite (rel_min _ _ Hrel), i32_sub_i32, (i32_small (s - lo w))
    by (unfold MAX_SEQ_BIAS in *; lia).
  intros Hwin. destruct (check_refines info w s Hrel) as [-> _]; [unfold near, MAX_SEQ_BIAS in *; lia|].
  unfold spec_check. repeat case_if; simpl; try done; try lia.
  apply andb_true_iff in Hif2 as [?%bool_decide_eq_true _]. set_solver.
Qed.

(** what a replay can do.  On every trace near [base], a number that was
    accepted once is accepted again only when it equals [minSeq] or lies 32 or
    more behind [maxSeq]. *)
Theorem replay_accepted_only_at_min_or_far base recv i s :
  near_trace base recv ->
  let '(oks, info) := run_checks (init_info base) (i32 <$> recv) in
  recv !! i = Some s -> oks !! i = Some true ->
  fst (IsPassSeqCheck_body info (i32 s)) = true ->
  minSeq info = i32 s \/ DUP_REACH <= u32 (maxSeq info - i32 s).
Proof.
  intros Htr.
  destruct (run_refines base recv (init_info base) (init_window base)) as (Hv & Hrel & Hlo);
    [done|apply init_rel|unfold MAX_SEQ_BIAS; simpl; lia|].
  pose proof (spec_run_accepted recv (init_window base) i s) as Hacc.
  destruct (run_checks _ _) as [oks info], (spec_run _ _) as [oks' w]. simpl in *. subst oks'.
  intros Hi Hok Hagain. destruct (Hacc Hi Hok) as [Hb|Hin].
  all: apply Forall_lookup_1 with (i := i) (x := s) in Htr as Hs; [|done].
  all: destruct (check_refines info w s Hrel) as [Hv _]; [unfold near, MAX_SEQ_BIAS in *; lia|].
  all: rewrite Hagain in Hv; symmetry in Hv; revert Hv; unfold spec_check.
  - replace (s =? lo w) with false by lia. by replace (s <? lo w) with true by lia.
  - pose proof (rel_seen _ _ Hrel s Hin). pose proof (rel_width _ _ Hrel).
    rewrite (rel_min _ _ Hrel), (rel_max _ _ Hrel), u32_sub_i32.
    rewrite (bool_decide_eq_true_2 _ Hin). unfold DUP_REACH, MAX_SEQ_BIAS in *.
    repeat case_if; simpl; intros; try done; try lia; [left; f_equal; lia|].
    right. rewrite u32_small; lia.
Qed.

(** replays the filter lets through, and a jump it should refuse.  Number 1
    is accepted twice when 0 arrives in between; it is accepted twice when 40
    has moved [maxSeq] more than 32 ahead; and after [1] alone, the number
    2^31 - 1 ahead of [maxSeq] passes the bias check of 60. *)
Theorem replay_and_jump_accepted :
  fst (run_checks (init_info 0) [1; 0; 1]) = [true; true; true] /\
  fst (run_checks (init_info 0) [1; 40; 1]) = [true; true; true] /\
  fst (run_checks (init_info 0) [1; INT32_MIN + 1]) = [true; true].
Proof. vm_compute. by split_and!. Qed.

(** ** Witnesses *)


Lemma fresh_seq_accepted_witness :
  fst (IsPassSeqCheck_body (snd (run_checks (init_info 7) (i32 <$> [9; 7; 30]))) (i32 8)) = true.
Proof.
  apply (fresh_seq_accepted 7 [9; 7; 30] 8).
  - repeat constructor; unfold MAX_SEQ_BIAS; lia.
  - set_solver.
  - vm_compute. split; congruence.
Defined.

Lemma replay_accepted_only_at_min_or_far_witness :
  minSeq (snd (run_checks (init_info 0) (i32 <$> [1; 0]))) = i32 1 \/
  DUP_REACH <= u32 (maxSeq (snd (run_checks (init_info 0) (i32 <$> [1; 0]))) - i32 1).
Proof.
  refine (replay_accepted_only_at_min_or_far 0 [1; 0] 0 1 _ _ _ _).
  - repeat constructor; unfold MAX_SEQ_BIAS; lia.
  - reflexivity.
  - reflexivity.
  - reflexivity.
Defined.

End SeqVerification.
