(* ===== verification/CommonList.v ===== *)
(** * Intrusive circular lists (core/common/include/common_list.h)

    Every registry of DSoftBus is a [SoftBusList]: a circular doubly linked
    list of nodes embedded in the elements.  This file models the list
    operations on a heap of [prev]/[next] cells and shows that they implement
    the operations on sequences which the other files use for those
    registries: insertion at the head and at the tail, deletion, and
    traversal. *)

From S2P Require Import Prelude.

Module CommonList.

(** ** Model *)

Abbreviation loc := Z (only parsing).
Definition NULL : loc := 0.

Record ListNode := mkListNode { prev : loc; next : loc }.
Abbreviation heap := (gmap Z ListNode) (only parsing).

(** Field reads and writes; a dereference outside the heap is an error. *)
Definition read_next (h : heap) (p : loc) : option loc := next <$> h !! p.
Definition read_prev (h : heap) (p : loc) : option loc := prev <$> h !! p.
Definition write_next (h : heap) (p v : loc) : option heap :=
  n ← h !! p; Some (<[p := mkListNode (prev n) v]> h).
Definition write_prev (h : heap) (p v : loc) : option heap :=
  n ← h !! p; Some (<[p := mkListNode v (next n)]> h).

Definition ListInit (h : heap) (list : loc) : option heap :=
  h ← write_next h list list;
  write_prev h list list.

Definition ListAdd (h : heap) (list node : loc) : option heap :=
  nx ← read_next h list;
  h ← write_next h node nx;
  h ← write_prev h node list;
  nx ← read_next h list;
  h ← write_prev h nx node;
  write_next h list node.

Definition ListTailInsert (h : heap) (list node : loc) : option heap :=
  pv ← read_prev h list;
  ListAdd h pv node.

Definition ListNodeInsert (h : heap) (list node : loc) : option heap := ListAdd h list node.

Definition ListDelete (h : heap) (node : loc) : option heap :=
  nx ← read_next h node;
  pv ← read_prev h node;
  h ← (if negb (nx =? NULL) && negb (pv =? NULL) then
         h ← write_prev h nx pv;
         nx ← read_next h node;
         pv ← read_prev h node;
         write_next h pv nx
       else Some h);
  h ← write_next h node node;
  write_prev h node node.

Definition IsListEmpty (h : heap) (node : loc) : option bool :=
  nx ← read_next h node; Some (nx =? node).

Definition ListDel (h : heap) (prevNode nextNode : loc) : option heap :=
  h ← write_prev h nextNode prevNode;
  write_next h prevNode nextNode.

Definition ListDelInit (h : heap) (list : loc) : option heap :=
  pv ← read_prev h list;
  nx ← read_next h list;
  h ← ListDel h pv nx;
  ListInit h list.

(** [LIST_FOR_EACH]: the items visited from [item] until [head] is reached. *)
Fixpoint list_for_each (fuel : nat) (h : heap) (head item : loc) : option (list loc) :=
  match fuel with
  | O => None
  | S fuel =>
      if item =? head then Some []
      else nx ← read_next h item;
           rest ← list_for_each fuel h head nx;
           Some (item :: rest)
  end.

Definition LIST_FOR_EACH (fuel : nat) (h : heap) (head : loc) : option (list loc) :=
  nx ← read_next h head; list_for_each fuel h head nx.

(** ** Representation: the heap holds the circular list [xs] anchored at [hd] *)

Definition edge (h : heap) (a b : loc) : Prop :=
  read_next h a = Some b /\ read_prev h b = Some a.

Fixpoint links (h : heap) (l : list loc) : Prop :=
  match l with
  | a :: (b :: _) as l' => edge h a b /\ links h l'
  | _ => True
  end.

Record dlist (h : heap) (hd : loc) (xs : list loc) : Prop := mkDlist {
  dl_nodup : NoDup (hd :: xs);
  dl_links : links h (hd :: xs ++ [hd]);
}.

(** ** Lemmas *)

Lemma links_app h l1 a l2 :
  links h (l1 ++ a :: l2) <-> links h (l1 ++ [a]) /\ links h (a :: l2).
Proof.
  induction l1 as [|x l1 IH]; simpl; [tauto|].
  destruct l1 as [|y l1]; simpl in *; [tauto|]. rewrite IH. tauto.
Qed.

(** A circular list can be anchored at any of its nodes. *)
Lemma dlist_rotate h a b xs ys :
  dlist h a (xs ++ b :: ys) -> dlist h b (ys ++ a :: xs).
Proof.
  intros [Hnd Hl]. split.
  - assert (a :: xs ++ b :: ys ≡ₚ b :: ys ++ a :: xs) as <-; [|done].
    rewrite !app_comm_cons. apply Permutation_app_comm.
  - pose proof (links_app h (a :: xs) b (ys ++ [a])) as E1.
    pose proof (links_app h (b :: ys) a (xs ++ [b])) as E2.
    simpl app in *. rewrite <- app_assoc in *. simpl app in *. tauto.
Qed.

(** Links only depend on the [next] of all but the last node and on the
    [prev] of all but the first. *)
Lemma links_frame h h' l :
  (forall i a b, l !! i = Some a -> l !! S i = Some b ->
     read_next h' a = read_next h a /\ read_prev h' b = read_prev h b) ->
  links h l -> links h' l.
Proof.
  induction l as [|a [|b l] IH]; intros Hf Hl; try done.
  destruct Hl as [[E1 E2] Hl]. split.
  - destruct (Hf 0%nat a b) as [F1 F2]; [done..|]. split; congruence.
  - apply IH; [|done]. intros i. apply (Hf (S i)).
Qed.

Lemma edge_dom h a b : edge h a b -> is_Some (h !! a) /\ is_Some (h !! b).
Proof.
  unfold edge, read_next, read_prev. intros [H1 H2].
  destruct (h !! a), (h !! b); done.
Qed.

Lemma links_dom h l a : (2 <= length l)%nat -> links h l -> a ∈ l -> is_Some (h !! a).
Proof.
  induction l as [|x [|y l] IH]; intros Hlen Hl Ha; simpl in *; try lia.
  destruct Hl as [He Hl]. apply edge_dom in He as [Hx Hy].
  apply elem_of_cons in Ha as [->|Ha]; [done|].
  destruct l as [|z l]; [by apply list_elem_of_singleton in Ha as ->|].
  apply IH; [simpl; lia|done|done].
Qed.

Lemma dlist_dom h hd xs a : dlist h hd xs -> a ∈ hd :: xs -> is_Some (h !! a).
Proof.
  intros [_ Hl] Ha. eapply links_dom; [|exact Hl|].
  - rewrite length_cons, length_app. simpl. lia.
  - rewrite app_comm_cons. apply elem_of_app. by left.
Qed.

(** The effect of the writes on reads. *)
Lemma write_next_Some h p v : is_Some (h !! p) -> exists h',
  write_next h p v = Some h' /\ dom h' = dom h /\
  (forall q, read_next h' q = if decide (q = p) then Some v else read_next h q) /\
  (forall q, read_prev h' q = read_prev h q).
Proof.
  intros [n Hn]. eexists. unfold write_next, read_next, read_prev. rewrite Hn. simpl.
  split_and!; [done| |intros q..].
  - apply dom_insert_lookup_L. by exists n.
  - case_decide; subst; by simplify_map_eq.
  - destruct (decide (q = p)); subst; by simplify_map_eq.
Qed.

Lemma write_prev_Some h p v : is_Some (h !! p) -> exists h',
  write_prev h p v = Some h' /\ dom h' = dom h /\
  (forall q, read_prev h' q = if decide (q = p) then Some v else read_prev h q) /\
  (forall q, read_next h' q = read_next h q).
Proof.
  intros [n Hn]. eexists. unfold write_prev, read_next, read_prev. rewrite Hn. simpl.
  split_and!; [done| |intros q..].
  - apply dom_insert_lookup_L. by exists n.
  - case_decide; subst; by simplify_map_eq.
  - destruct (decide (q = p)); subst; by simplify_map_eq.
Qed.

Lemma is_Some_dom h h' (p : loc) :
  dom h' = dom h -> is_Some ((h : heap) !! p) -> is_Some ((h' : heap) !! p).
Proof. rewrite <- !elem_of_dom. by intros ->. Qed.

(** Reads outside the touched nodes are unchanged. *)
Definition frame_eq (h h' : heap) (l : list loc) : Prop :=
  dom h' = dom h /\
  forall q, q ∉ l -> read_next h' q = read_next h q /\ read_prev h' q = read_prev h q.

Lemma dlist_first h a xs :
  dlist h a xs -> exists b l, xs ++ [a] = b :: l /\ edge h a b /\ links h (b :: l) /\
  NoDup (b :: l) /\ (forall x, x ∈ b :: l <-> x ∈ a :: xs).
Proof.
  intros [Hnd Hl]. assert (xs ++ [a] ≡ₚ a :: xs) as Hp by (by rewrite Permutation_app_comm).
  destruct (xs ++ [a]) as [|b l] eqn:E; [by destruct xs|].
  destruct Hl as [He Hl]. exists b, l. split_and!; try done; [by rewrite Hp|].
  intros x. by rewrite Hp.
Qed.

(** Run one field write, with its effect on reads as hypotheses. *)
Ltac do_write lem :=
  match goal with
  | |- context [?w ?h ?p ?v ≫= _] =>
      let h' := fresh "h" in let E := fresh "E" in let D := fresh "D" in
      let R1 := fresh "R" in let R2 := fresh "R" in
      destruct (lem h p v) as (h' & E & D & R1 & R2);
      [eauto using is_Some_dom | rewrite E; simpl; clear E]
  end.

Ltac read_simpl :=
  repeat match goal with
  | H : forall q, read_next ?h q = _ |- context [read_next ?h _] => rewrite H
  | H : forall q, read_prev ?h q = _ |- context [read_prev ?h _] => rewrite H
  end; repeat case_decide; subst; try done; try congruence.

Lemma ListAdd_spec h a xs n :
  dlist h a xs -> n ∉ a :: xs -> is_Some (h !! n) ->
  exists h', ListAdd h a n = Some h' /\ dlist h' a (n :: xs) /\ frame_eq h h' (n :: a :: xs).
Proof.
  intros Hd Hn Hnh. pose proof (dlist_first _ _ _ Hd) as (b & l & El & [Hab Hba] & Hl & Hnd & Hin).
  assert (is_Some (h !! a)) as Ha by (eapply dlist_dom; [done|set_solver]).
  assert (is_Some (h !! b)) as Hb by (eapply dlist_dom; [done|set_solver]).
  assert (n <> a /\ n <> b) as [Hna Hnb] by set_solver.
  unfold ListAdd. rewrite Hab. simpl. do_write write_next_Some. do_write write_prev_Some.
  assert (read_next h1 a = Some b) as -> by read_simpl. simpl.
  do_write write_prev_Some.
  destruct (write_next_Some h2 a n) as (h3 & -> & D3 & R5 & R6); [eauto using is_Some_dom|].
  assert (forall q, read_next h3 q = if decide (q = a) then Some n
            else if decide (q = n) then Some b else read_next h q) as Rn by (intros q; read_simpl).
  assert (forall q, read_prev h3 q = if decide (q = b) then Some n
            else if decide (q = n) then Some a else read_prev h q) as Rp by (intros q; read_simpl).
  clear R R0 R1 R2 R3 R4 R5 R6. exists h3. split; [done|]. split.
  - destruct Hd as [Hnda _]. split.
    { rewrite NoDup_cons in Hnda. rewrite not_elem_of_cons in Hn.
      rewrite !NoDup_cons, not_elem_of_cons. naive_solver. }
    simpl. rewrite El. split; [split; read_simpl|]. split; [split; read_simpl|].
    eapply links_frame; [|exact Hl]. intros i x y Hx Hy.
    assert (x <> a /\ y <> b) as [Hxa Hyb].
    { split; intros ->.
      - assert ((b :: l) !! length xs = Some a) as Hlast.
        { rewrite <- El. by apply list_lookup_middle. }
        pose proof (NoDup_lookup _ _ _ _ Hnd Hx Hlast) as ->.
        apply lookup_lt_Some in Hy. rewrite <- El, length_app in Hy. simpl in Hy. lia.
      - by pose proof (NoDup_lookup _ (S i) 0 b Hnd Hy eq_refl). }
    apply list_elem_of_lookup_2 in Hx, Hy. apply Hin in Hx, Hy. split; read_simpl.
  - split; [congruence|]. intros q Hq.
    assert (q <> b) by (intros ->; apply Hq; apply elem_of_cons; right; by apply Hin; left).
    rewrite !not_elem_of_cons in Hq. split; read_simpl; tauto.
Qed.

Lemma ListInit_spec h a : is_Some (h !! a) ->
  exists h', ListInit h a = Some h' /\ dlist h' a [] /\ frame_eq h h' [a].
Proof.
  intros Ha. unfold ListInit. do_write write_next_Some.
  destruct (write_prev_Some h0 a a) as (h1 & -> & D1 & R1' & R2'); [eauto using is_Some_dom|].
  exists h1. split; [done|]. split.
  - split; [apply NoDup_singleton|]. simpl. split; [split; read_simpl|done].
  - split; [congruence|]. intros q Hq. rewrite list_elem_of_singleton in Hq. split; read_simpl.
Qed.

(** Unlinking the anchor [n] of a non-empty circle leaves the circle of the
    other nodes. *)
Lemma unlink_spec h n b l : dlist h n (b :: l) ->
  exists z h1 h2, read_prev h n = Some z /\ read_next h n = Some b /\
    write_prev h b z = Some h1 /\ write_next h1 z b = Some h2 /\
    dlist h2 b l /\ frame_eq h h2 (b :: l) /\
    read_next h1 n = Some b /\ read_prev h1 n = Some z.
Proof.
  intros Hd. pose proof Hd as [Hnd Hl]. destruct Hl as [[Hnb Hbn] Hl].
  assert (exists z l', b :: l = l' ++ [z]) as (z & l' & El)
    by (destruct (exists_last (l := b :: l)) as (l' & z & E); [done|eauto]).
  assert (edge h z n /\ links h (b :: l)) as [[Hzn Hnz] Hbl].
  { simpl app in Hl. rewrite app_comm_cons, El, <- app_assoc in Hl. simpl in Hl.
    apply links_app in Hl as [Hl Hz]. rewrite El. split; [apply Hz|done]. }
  assert (z ∈ b :: l) as Hzin by (rewrite El; set_solver).
  assert (is_Some (h !! z)) as Hz by (eapply dlist_dom; [exact Hd|set_solver]).
  assert (is_Some (h !! b)) as Hb by (eapply dlist_dom; [exact Hd|set_solver]).
  apply NoDup_cons in Hnd as [Hnin Hnd]. rewrite not_elem_of_cons in Hnin.
  destruct Hnin as [Hnb' Hnl]. assert (n <> z) as Hnz' by (intros ->; set_solver).
  destruct (write_prev_Some h b z Hb) as (h1 & E1 & D1 & Rp & Rn).
  destruct (write_next_Some h1 z b) as (h2 & E2 & D2 & Rn' & Rp'); [eauto using is_Some_dom|].
  exists z, h1, h2. split_and!; try done; [| |by read_simpl..].
  - split; [done|]. rewrite app_comm_cons. rewrite El at 1. rewrite <- app_assoc. simpl.
    apply links_app. rewrite <- El. split; [|split; [split; read_simpl|done]].
    eapply links_frame; [|exact Hbl]. intros i x y Hx Hy.
    assert (x <> z /\ y <> b) as [Hxz Hyb].
    { split; intros ->.
      - assert ((b :: l) !! length l' = Some z) as Hlast
          by (rewrite El; by apply list_lookup_middle).
        pose proof (NoDup_lookup _ _ _ _ Hnd Hx Hlast) as ->.
        apply lookup_lt_Some in Hy. rewrite El, length_app in Hy. simpl in Hy. lia.
      - by pose proof (NoDup_lookup _ (S i) 0 b Hnd Hy eq_refl). }
    split; read_simpl.
  - split; [congruence|]. intros q Hq. assert (q <> z) by (intros ->; done).
    rewrite not_elem_of_cons in Hq. split; read_simpl; tauto.
Qed.

Lemma dlist_frame h h' a xs l :
  dlist h a xs -> frame_eq h h' l -> (forall x, x ∈ a :: xs -> x ∉ l) -> dlist h' a xs.
Proof.
  intros [Hnd Hl] [_ Hf] Hdisj. split; [done|].
  eapply links_frame; [|exact Hl]. intros i x y Hx Hy.
  apply list_elem_of_lookup_2 in Hx, Hy.
  rewrite app_comm_cons, elem_of_app in Hx, Hy.
  split; apply Hf; apply Hdisj; set_solver.
Qed.

Lemma ListDelete_spec h n b l :
  dlist h n (b :: l) -> h !! NULL = None ->
  exists h', ListDelete h n = Some h' /\ dlist h' b l /\ dlist h' n [] /\
    frame_eq h h' (n :: b :: l).
Proof.
  intros Hd Hnull. pose proof (unlink_spec _ _ _ _ Hd) as
    (z & h1 & h2 & Hpv & Hnx & E1 & E2 & Hd2 & Hf & Hn1 & Hp1).
  assert (is_Some (h !! n)) as Hn by (eapply dlist_dom; [exact Hd|by left]).
  assert (b <> NULL /\ z <> NULL) as [Hb Hz].
  { unfold write_prev, write_next in *.
    split; intros ->; [by rewrite Hnull in E1|].
    destruct (h !! b) eqn:Eb; simplify_eq/=.
    destruct (decide (b = NULL)); simplify_map_eq. }
  unfold ListDelete. rewrite Hnx, Hpv. simpl.
  replace (b =? NULL) with false by lia. replace (z =? NULL) with false by lia. simpl.
  rewrite E1. simpl. rewrite Hn1, Hp1. simpl. rewrite E2. simpl.
  destruct (ListInit_spec h2 n) as (h3 & E3 & Hd3 & Hf3);
    [destruct Hf as [D _]; eauto using is_Some_dom|].
  exists h3. unfold ListInit in E3. split; [done|]. split; [|split; [done|]].
  - eapply dlist_frame; [exact Hd2|exact Hf3|]. destruct Hd as [Hnd _].
    apply NoDup_cons in Hnd as [Hnin _]. intros x Hx. rewrite list_elem_of_singleton.
    by intros ->.
  - destruct Hf as [D Hf], Hf3 as [D3 Hf3]. split; [congruence|]. intros q Hq.
    rewrite not_elem_of_cons in Hq. destruct Hq as [Hqn Hq].
    destruct (Hf q Hq) as [<- <-]. apply Hf3. by rewrite list_elem_of_singleton.
Qed.

Lemma list_for_each_spec h hd xs ys fuel : dlist h hd (xs ++ ys) ->
  (length ys < fuel)%nat ->
  (nx ← read_next h (default hd (last xs)); list_for_each fuel h hd nx) = Some ys.
Proof.
  revert xs fuel. induction ys as [|y ys IH]; intros xs fuel Hd Hfuel.
  all: destruct fuel as [|fuel]; simpl in Hfuel; [lia|].
  all: pose proof Hd as [Hnd Hl].
  all: assert (exists p, hd :: xs = p ++ [default hd (last xs)]) as [p Ep]
    by (destruct xs as [|x xs _] using rev_ind;
        [by exists [] | exists (hd :: xs); by rewrite last_snoc]).
  all: rewrite <- app_assoc, app_comm_cons, Ep, <- app_assoc in Hl; simpl in Hl;
    apply links_app in Hl as [_ [[Hnext _] _]]; rewrite Hnext; simpl.
  - by rewrite Z.eqb_refl.
  - assert (y <> hd) as Hne by (intros ->; apply NoDup_cons in Hnd as [Hn _]; set_solver).
    replace (y =? hd) with false by lia.
    specialize (IH (xs ++ [y]) fuel). rewrite last_snoc in IH. simpl in IH.
    rewrite <- app_assoc in IH. specialize (IH Hd). destruct (read_next h y) as [nx|]; simpl in *.
    + rewrite IH by lia. done.
    + specialize (IH ltac:(lia)). done.
Qed.

(** ** Properties *)

(** insertion.  In a heap that holds the circular list [xs] anchored at
    [hd], adding a node of the heap that is not in the list succeeds without
    touching any other cell; [ListAdd] puts it first and [ListTailInsert]
    puts it last. *)
Theorem list_insert_correct h hd xs n :
  dlist h hd xs -> n ∉ hd :: xs -> is_Some (h !! n) ->
  (exists h', ListAdd h hd n = Some h' /\ dlist h' hd (n :: xs) /\
     frame_eq h h' (n :: hd :: xs)) /\
  (exists h', ListTailInsert h hd n = Some h' /\ dlist h' hd (xs ++ [n]) /\
     frame_eq h h' (n :: hd :: xs)).
Proof.
  intros Hd Hn Hin. split; [by apply ListAdd_spec|].
  destruct xs as [|z xs _] using rev_ind.
  - destruct (dl_links _ _ _ Hd) as [[_ Hp] _]. unfold ListTailInsert. rewrite Hp. simpl.
    by apply ListAdd_spec.
  - pose proof (dl_links _ _ _ Hd) as Hl. rewrite <- app_assoc in Hl. simpl app in Hl.
    apply (links_app h (hd :: xs) z [hd]) in Hl as [_ [[_ Hp] _]].
    unfold ListTailInsert. rewrite Hp. simpl.
    apply dlist_rotate in Hd. simpl in Hd.
    destruct (ListAdd_spec h z (hd :: xs) n Hd) as (h' & -> & Hd' & Hf); [set_solver|done|].
    exists h'. split; [done|]. split.
    + apply (dlist_rotate h' z hd [n] xs) in Hd'. by rewrite <- app_assoc.
    + destruct Hf as [D Hf]. split; [done|]. intros q Hq. apply Hf. set_solver.
Qed.

(** deletion.  Deleting a node of the list (in a heap where address 0 is
    no cell) leaves the other nodes linked in their order, the node alone in a
    circle of its own, and every cell outside the list as it was. *)
Theorem list_delete_correct h hd xs n ys :
  dlist h hd (xs ++ n :: ys) -> h !! NULL = None ->
  exists h', ListDelete h n = Some h' /\ dlist h' hd (xs ++ ys) /\ dlist h' n [] /\
    frame_eq h h' (hd :: xs ++ n :: ys).
Proof.
  intros Hd Hnull. apply dlist_rotate in Hd.
  destruct ys as [|y ys].
  - destruct (ListDelete_spec h n hd xs Hd Hnull) as (h' & -> & Hd' & Hn & D & Hf).
    exists h'. rewrite app_nil_r. do 3 (split; [done|]). split; [done|].
    intros q Hq. apply Hf. set_solver.
  - destruct (ListDelete_spec h n y (ys ++ hd :: xs) Hd Hnull) as (h' & -> & Hd' & Hn & D & Hf).
    exists h'. split; [done|]. split; [by apply dlist_rotate in Hd'|].
    split; [done|]. split; [done|]. intros q Hq. apply Hf. set_solver.
Qed.

(** traversal and emptiness.  [LIST_FOR_EACH] terminates (one unit of
    fuel per node and one for the anchor) and visits exactly the nodes in
    order; [IsListEmpty] answers whether there are any. *)
Theorem list_for_each_correct h hd xs fuel :
  dlist h hd xs -> (length xs < fuel)%nat ->
  LIST_FOR_EACH fuel h hd = Some xs /\
  IsListEmpty h hd = Some (bool_decide (xs = [])).
Proof.
  intros Hd Hfuel. split; [by apply (list_for_each_spec h hd [] xs fuel)|].
  destruct Hd as [Hnd Hl]. unfold IsListEmpty.
  destruct xs as [|x xs]; destruct Hl as [[-> _] _]; simpl; f_equal; [lia|].
  apply NoDup_cons in Hnd as [Hn _]. rewrite not_elem_of_cons in Hn.
  destruct (Z.eqb_spec x hd) as [->|]; naive_solver.
Qed.

(** ** Witnesses *)

(** Head at 1 with one element at 2, and a free cell at 3. *)
Definition heap3 : gmap Z ListNode :=
  {[1 := mkListNode 2 2; 2 := mkListNode 1 1; 3 := mkListNode 3 3]}.

Lemma heap3_dlist : dlist heap3 1 [2].
Proof. split; [apply (bool_decide_unpack _); by vm_compute|]. by vm_compute. Qed.

Lemma list_insert_correct_witness :
  exists h', ListTailInsert heap3 1 3 = Some h' /\ dlist h' 1 [2; 3].
Proof.
  destruct (list_insert_correct heap3 1 [2] 3) as [_ (h' & E & Hd & _)].
  - apply heap3_dlist.
  - set_solver.
  - eexists. reflexivity.
  - exists h'. split; [exact E|exact Hd].
Defined.

Lemma list_delete_correct_witness :
  exists h', ListDelete heap3 2 = Some h' /\ dlist h' 1 [].
Proof.
  destruct (list_delete_correct heap3 1 [] 2 []) as (h' & E & Hd & _).
  - apply heap3_dlist.
  - reflexivity.
  - exists h'. split; [exact E|exact Hd].
Defined.

Lemma list_for_each_correct_witness :
  LIST_FOR_EACH 2 heap3 1 = Some [2] /\ IsListEmpty heap3 1 = Some false.
Proof.
  apply (list_for_each_correct heap3 1 [2] 2).
  - apply heap3_dlist.
  - simpl. lia.
Defined.

End CommonList.
