(* ===== verification/LockFreeQueue.v ===== *)
(** * The ring queue (core/common/queue/softbus_queue.c, core/common/include/softbus_queue.h)

    A power-of-two ring of pointers indexed by free-running 32-bit counters.
    First the queue as one thread uses it: creation, the single-producer and
    single-consumer operations and the count, refined against a bounded FIFO
    list across counter wrap-around.  Then the multi-producer/multi-consumer
    operations as a step relation over shared memory, one atomic access per
    step, with the FIFO guarantee as an invariant of every reachable state. *)

From S2P Require Import Prelude.

Module LockFreeQueue.

(** ** Model: data and creation *)

Definition QUEUE_INVAL : Z := -10.
Definition QUEUE_FULL : Z := -9.
Definition QUEUE_EMPTY : Z := -8.

Definition QUEUE_HEADER_MAGIC : Z := 0xccddddcc.
Definition QUEUE_SIZE_MAX : Z := 8192.
Definition CACHE_LINE_SIZE : Z := 64.
(** [sizeof(LockFreeQueue)] and [sizeof(uintptr_t)] on an LP64 target. *)
Definition sizeof_LockFreeQueue : Z := 192.
Definition sizeof_uintptr : Z := 8.

Record Side := mkSide { size : Z; mask : Z; head : Z; tail : Z }.

Record LockFreeQueue := mkLockFreeQueue {
  magic : Z;
  unitNum : Z;
  producer : Side;
  consumer : Side;
  nodes : list Z;
}.

Definition set_head (s : Side) (v : Z) : Side := mkSide (size s) (mask s) v (tail s).
Definition set_tail (s : Side) (v : Z) : Side := mkSide (size s) (mask s) (head s) v.
Definition set_producer (q : LockFreeQueue) (s : Side) : LockFreeQueue :=
  mkLockFreeQueue (magic q) (unitNum q) s (consumer q) (nodes q).
Definition set_consumer (q : LockFreeQueue) (s : Side) : LockFreeQueue :=
  mkLockFreeQueue (magic q) (unitNum q) (producer q) s (nodes q).
Definition set_nodes (q : LockFreeQueue) (l : list Z) : LockFreeQueue :=
  mkLockFreeQueue (magic q) (unitNum q) (producer q) (consumer q) l.

Definition IS_POWER_OF_2 (x : Z) : bool := Z.land (u32 (x - 1)) x =? 0.

Definition QueueInit (queue : option LockFreeQueue) (unitNum : Z)
  : Z * option LockFreeQueue :=
  match queue with
  | None => (QUEUE_INVAL, None)
  | Some q =>
      if negb (IS_POWER_OF_2 unitNum) then (QUEUE_INVAL, Some q)
      else
        let side := mkSide unitNum (u32 (unitNum - 1)) 0 0 in
        (0, Some (mkLockFreeQueue QUEUE_HEADER_MAGIC unitNum side side (nodes q)))
  end.

Definition QueueSizeCalc (unitNum : Z) : Z * option Z :=
  if unitNum >? QUEUE_SIZE_MAX then (QUEUE_INVAL, None)
  else
    let size := u32 (sizeof_uintptr * unitNum + sizeof_LockFreeQueue) in
    (0, Some (Z.land (u32 (size + CACHE_LINE_SIZE - 1)) (u32 (Z.lnot (CACHE_LINE_SIZE - 1))))).

(** [mem] says whether the allocation succeeds.  The zeroed block of
    [queueSize] bytes holds the header and the node array behind it. *)
Definition CreateQueue (mem : bool) (unitNum : Z) : option LockFreeQueue :=
  if negb (IS_POWER_OF_2 unitNum) then None
  else match QueueSizeCalc unitNum with
  | (ret, Some queueSize) =>
      if negb (ret =? 0) then None
      else if negb mem then None
      else
        let cells := Z.to_nat ((queueSize - sizeof_LockFreeQueue) / sizeof_uintptr) in
        let side := mkSide 0 0 0 0 in
        let blank := mkLockFreeQueue 0 0 side side (replicate cells 0) in
        let '(ret, queue) := QueueInit (Some blank) unitNum in
        if negb (ret =? 0) then None else queue
  | (_, None) => None
  end.

Definition QueueCountGet (queue : option LockFreeQueue) : Z * option Z :=
  match queue with
  | None => (QUEUE_INVAL, None)
  | Some q =>
      let producerTail := tail (producer q) in
      let consumerTail := tail (consumer q) in
      (0, Some (Z.land (u32 (producerTail - consumerTail)) (mask (producer q))))
  end.

Definition QueueIsEmpty (queue : option LockFreeQueue) : Z :=
  match queue with
  | None => QUEUE_INVAL
  | Some q =>
      let producerTail := tail (producer q) in
      let consumerTail := tail (consumer q) in
      if Z.land (u32 (producerTail - consumerTail)) (mask (producer q)) =? 0
      then 0 else -1
  end.

(** ** Model: single-threaded operations

    The outer [None] is an access outside the node array.  A NULL queue or
    node is refused; out-parameters are returned by value. *)

Definition store_node (q : LockFreeQueue) (idx node : Z) : option LockFreeQueue :=
  _ ← nodes q !! Z.to_nat idx; Some (set_nodes q (<[Z.to_nat idx := node]> (nodes q))).

Definition load_node (q : LockFreeQueue) (idx : Z) : option Z := nodes q !! Z.to_nat idx.

Definition enqueue_body (q : LockFreeQueue) (node : Z) : option (Z * LockFreeQueue) :=
  let mask := mask (producer q) in
  let producerHead := head (producer q) in
  let consumerTail := tail (consumer q) in
  let availableCount := u32 (u32 (mask + consumerTail) - producerHead) in
  if availableCount <? 1 then Some (QUEUE_FULL, q)
  else
    let producerNext := u32 (producerHead + 1) in
    let q := set_producer q (set_head (producer q) producerNext) in
    q ← store_node q (Z.land producerHead mask) node;
    Some (0, set_producer q (set_tail (producer q) producerNext)).

Definition QueueSingleProducerEnqueue (queue : option LockFreeQueue) (node : Z)
  : option (Z * option LockFreeQueue) :=
  match queue with
  | None => Some (QUEUE_INVAL, None)
  | Some q =>
      if node =? 0 then Some (QUEUE_INVAL, Some q)
      else '(ret, q) ← enqueue_body q node; Some (ret, Some q)
  end.

Definition dequeue_body (q : LockFreeQueue) : option (Z * option Z * LockFreeQueue) :=
  let mask := mask (producer q) in
  let consumerHead := head (consumer q) in
  let producerTail := tail (producer q) in
  let availableCount := u32 (producerTail - consumerHead) in
  if availableCount <? 1 then Some (u32 QUEUE_EMPTY, None, q)
  else
    let consumerNext := u32 (consumerHead + 1) in
    let q := set_consumer q (set_head (consumer q) consumerNext) in
    node ← load_node q (Z.land consumerHead mask);
    Some (0, Some node, set_consumer q (set_tail (consumer q) consumerNext)).

Definition QueueSingleConsumerDequeue (queue : option LockFreeQueue)
  : option (Z * option Z * option LockFreeQueue) :=
  match queue with
  | None => Some (u32 QUEUE_INVAL, None, None)
  | Some q => '(ret, node, q) ← dequeue_body q; Some (ret, node, Some q)
  end.

(** A client program on one queue: the values it enqueues and dequeues. *)
Inductive queue_op := Enqueue (node : Z) | Dequeue.

Inductive op_result := Enqueued | Full | Invalid | Dequeued (node : Z) | Empty.

Definition queue_step (q : LockFreeQueue) (op : queue_op) : option (op_result * LockFreeQueue) :=
  match op with
  | Enqueue node =>
      '(ret, queue) ← QueueSingleProducerEnqueue (Some q) node;
      q ← queue;
      Some (if ret =? 0 then Enqueued else if ret =? QUEUE_FULL then Full else Invalid, q)
  | Dequeue =>
      '(ret, node, queue) ← QueueSingleConsumerDequeue (Some q);
      q ← queue;
      Some (match node with Some n => Dequeued n | None => Empty end, q)
  end.

Fixpoint queue_run (q : LockFreeQueue) (ops : list queue_op)
  : option (list op_result * LockFreeQueue) :=
  match ops with
  | [] => Some ([], q)
  | op :: ops =>
      '(r, q) ← queue_step q op;
      '(rs, q) ← queue_run q ops;
      Some (r :: rs, q)
  end.

(** ** Reference: a FIFO list of at most [cap] values *)

Definition fifo_step (cap : Z) (l : list Z) (op : queue_op) : op_result * list Z :=
  match op with
  | Enqueue node =>
      if node =? 0 then (Invalid, l)
      else if Z.of_nat (length l) <? cap then (Enqueued, l ++ [node]) else (Full, l)
  | Dequeue => match l with [] => (Empty, []) | n :: l => (Dequeued n, l) end
  end.

Fixpoint fifo_run (cap : Z) (l : list Z) (ops : list queue_op) : list op_result * list Z :=
  match ops with
  | [] => ([], l)
  | op :: ops =>
      let '(r, l) := fifo_step cap l op in
      let '(rs, l) := fifo_run cap l ops in
      (r :: rs, l)
  end.

(** The queue of size [2^k] holds [l]; [c] is the unbounded consumer counter. *)
Record queue_rel (k c : Z) (q : LockFreeQueue) (l : list Z) : Prop := {
  qr_k : 0 <= k <= 13;
  qr_mask : mask (producer q) = 2 ^ k - 1;
  qr_cells : 2 ^ k <= Z.of_nat (length (nodes q));
  qr_len : Z.of_nat (length l) <= 2 ^ k - 1;
  qr_ch : head (consumer q) = u32 c;
  qr_ct : tail (consumer q) = u32 c;
  qr_ph : head (producer q) = u32 (c + Z.of_nat (length l));
  qr_pt : tail (producer q) = u32 (c + Z.of_nat (length l));
  qr_nodes : forall i, (i < length l)%nat ->
    nodes q !! Z.to_nat ((c + Z.of_nat i) mod 2 ^ k) = l !! i;
}.

(** ** Lemmas *)

Lemma land_mask k z : 0 <= k <= 32 -> Z.land (u32 z) (2 ^ k - 1) = z mod 2 ^ k.
Proof.
  intros. replace (2 ^ k - 1) with (Z.ones k) by (rewrite Z.ones_equiv; lia).
  rewrite Z.land_ones by lia. unfold wrap.
  apply Z.mod_mod_divide. exists (2 ^ (32 - k)).
  rewrite <- Z.pow_add_r by lia. f_equal. lia.
Qed.

Lemma pow2_bounds k : 0 <= k <= 13 -> 1 <= 2 ^ k <= 8192.
Proof.
  intros. split; [|change 8192 with (2 ^ 13); apply Z.pow_le_mono_r; lia].
  change 1 with (2 ^ 0). apply Z.pow_le_mono_r; lia.
Qed.

(** Two offsets less than [n] apart that fall on the same cell are equal. *)
Lemma mod_window_inj n c a b : 0 <= a < n -> 0 <= b < n ->
  (c + a) mod n = (c + b) mod n -> a = b.
Proof.
  intros Ha Hb H.
  assert ((a - b) mod n = 0) as Hm.
  { replace (a - b) with ((c + a) - (c + b)) by lia. rewrite Zminus_mod, H, Z.sub_diag.
    by apply Z.mod_0_l; lia. }
  destruct (Z_le_gt_dec b a).
  - rewrite Z.mod_small in Hm by lia. lia.
  - destruct (proj1 (Z.mod_divide (a - b) n ltac:(lia)) Hm) as [z Hz].
    destruct (Z_lt_le_dec z 0); nia.
Qed.

Lemma store_node_Some q idx node : 0 <= idx < Z.of_nat (length (nodes q)) ->
  store_node q idx node = Some (set_nodes q (<[Z.to_nat idx := node]> (nodes q))).
Proof.
  intros. unfold store_node.
  destruct (lookup_lt_is_Some_2 (nodes q) (Z.to_nat idx)) as [x ->]; [lia|done].
Qed.

Section fifo.
Context (k c : Z) (q : LockFreeQueue) (l : list Z).
Hypothesis Hrel : queue_rel k c q l.

Lemma enqueue_refines node :
  if Z.of_nat (length l) <? 2 ^ k - 1
  then exists q', enqueue_body q node = Some (0, q') /\ queue_rel k c q' (l ++ [node])
  else enqueue_body q node = Some (QUEUE_FULL, q).
Proof.
  destruct Hrel as [Hk Hm Hcells Hlen Hch Hct Hph Hpt Hn].
  pose proof (pow2_bounds k Hk) as Hpk. unfold enqueue_body.
  rewrite Hm, Hct, Hph. set (n := Z.of_nat (length l)) in *.
  replace (u32 (u32 (2 ^ k - 1 + u32 c) - u32 (c + n))) with (2 ^ k - 1 - n)
    by (revert Hlen Hpk; generalize (2 ^ k); intros; wrap_lia).
  case_if; replace (2 ^ k - 1 - n <? 1) with (negb (n <? 2 ^ k - 1)) by lia; rewrite Hif; [|done].
  simpl. rewrite land_mask by lia.
  pose proof (Z.mod_pos_bound (c + n) (2 ^ k)) as Hidx.
  rewrite store_node_Some by (simpl; lia). simpl.
  eexists. split; [done|]. split; simpl; rewrite ?length_app, ?length_insert; simpl; try done; try lia.
  1, 2: replace (u32 (u32 (c + n) + 1)) with (u32 (c + n + 1)) by wrap_lia; f_equal; lia.
  intros i Hi. destruct (decide (i = length l)) as [->|Hne].
  - rewrite list_lookup_insert_eq by lia. rewrite lookup_app_r, Nat.sub_diag by lia. done.
  - rewrite lookup_app_l by lia. rewrite list_lookup_insert_ne; [apply Hn; lia|].
    intros E. apply (f_equal Z.of_nat) in E.
    pose proof (Z.mod_pos_bound (c + Z.of_nat i) (2 ^ k)).
    rewrite !Z2Nat.id in E by lia. apply mod_window_inj in E; lia.
Qed.

Lemma dequeue_refines :
  match l with
  | [] => dequeue_body q = Some (u32 QUEUE_EMPTY, None, q)
  | n :: l' => exists q', dequeue_body q = Some (0, Some n, q') /\ queue_rel k (c + 1) q' l'
  end.
Proof.
  destruct Hrel as [Hk Hm Hcells Hlen Hch Hct Hph Hpt Hn].
  pose proof (pow2_bounds k Hk) as Hpk. unfold dequeue_body. rewrite Hm, Hch, Hpt.
  assert (u32 (u32 (c + Z.of_nat (length l)) - u32 c) = Z.of_nat (length l)) as ->
    by (revert Hlen Hpk; generalize (2 ^ k); intros; wrap_lia).
  destruct l as [|n l']; [done|]. rewrite length_cons in *.
  replace (Z.of_nat (S (length l')) <? 1) with false by bool_lia.
  rewrite land_mask by lia. unfold load_node. simpl nodes.
  pose proof (Hn 0%nat ltac:(lia)) as H0. rewrite Z.add_0_r in H0. rewrite H0. simpl.
  assert (u32 (u32 c + 1) = u32 (c + 1)) as Ec by wrap_lia.
  eexists. split; [done|]. split; simpl; try done; try lia.
  1, 2: rewrite ?Hph, ?Hpt; f_equal; lia.
  intros i Hi. replace (c + 1 + Z.of_nat i) with (c + Z.of_nat (S i)) by lia.
  apply (Hn (S i)). lia.
Qed.

Lemma count_refines : QueueCountGet (Some q) = (0, Some (Z.of_nat (length l))).
Proof.
  destruct Hrel as [Hk Hm Hcells Hlen Hch Hct Hph Hpt Hn].
  pose proof (pow2_bounds k Hk) as Hpk. unfold QueueCountGet. rewrite Hm, Hct, Hpt.
  replace (u32 (u32 (c + Z.of_nat (length l)) - u32 c)) with (u32 (Z.of_nat (length l))) by wrap_lia.
  rewrite land_mask, Z.mod_small by lia. done.
Qed.
End fifo.

Lemma queue_step_refines k c q l op : queue_rel k c q l ->
  exists c' q', queue_step q op = Some (fst (fifo_step (2 ^ k - 1) l op), q') /\
    queue_rel k c' q' (snd (fifo_step (2 ^ k - 1) l op)).
Proof.
  intros Hrel. destruct op as [node|]; simpl.
  - case_if; [by exists c, q|]. pose proof (enqueue_refines _ _ _ _ Hrel node) as H.
    case_if; [destruct H as (q' & -> & H)|rewrite H]; simpl; eauto.
  - pose proof (dequeue_refines _ _ _ _ Hrel) as H.
    destruct l; [rewrite H|destruct H as (q' & -> & H)]; simpl; eauto.
Qed.

Lemma queue_run_refines k ops : forall c q l, queue_rel k c q l ->
  exists c' q', queue_run q ops = Some (fst (fifo_run (2 ^ k - 1) l ops), q') /\
    queue_rel k c' q' (snd (fifo_run (2 ^ k - 1) l ops)).
Proof.
  induction ops as [|op ops IH]; intros c q l Hrel; [simpl; eauto|].
  destruct (queue_step_refines k c q l op Hrel) as (c1 & q1 & E & Hrel1). simpl. rewrite E. simpl.
  destruct (fifo_step _ l op) as [r l1]. simpl in *.
  destruct (IH _ _ _ Hrel1) as (c2 & q2 & E2 & Hrel2). rewrite E2. simpl.
  destruct (fifo_run _ l1 ops). eauto.
Qed.

Lemma CreateQueue_rel k : 0 <= k <= 13 ->
  exists q, CreateQueue true (2 ^ k) = Some q /\ queue_rel k 0 q [].
Proof.
  intros Hk.
  assert (k ∈ seqZ 0 14) as Hin by (apply elem_of_seqZ; lia).
  assert (Forall (fun k => exists q, CreateQueue true (2 ^ k) = Some q /\
    mask (producer q) = 2 ^ k - 1 /\ 2 ^ k <= Z.of_nat (length (nodes q)) /\
    consumer q = mkSide (2 ^ k) (2 ^ k - 1) 0 0 /\
    producer q = mkSide (2 ^ k) (2 ^ k - 1) 0 0) (seqZ 0 14)) as Hall.
  { repeat constructor; eexists; (split; [vm_compute; reflexivity|]);
      (split_and!; [reflexivity|vm_compute; congruence|reflexivity|reflexivity]). }
  rewrite Forall_forall in Hall. destruct (Hall k Hin) as (q & E & Hm & Hn & Hc & Hp).
  exists q. split; [done|]. pose proof (pow2_bounds k Hk).
  split; rewrite ?Hc, ?Hp; simpl; try done; try lia.
Qed.

(** ** Properties of the single-threaded queue *)

(** C38: the ring refines a bounded FIFO.  A queue created with [2^k] units
    (up to the limit of 8192) runs every sequence of enqueue and dequeue calls
    without leaving the node array and with the results of a FIFO list of
    capacity [2^k - 1]; this holds across any number of wraps of the 32-bit
    counters, and [QueueCountGet] is the length of the list at the end. *)
Theorem queue_refines_fifo k ops : 0 <= k <= 13 ->
  exists q, CreateQueue true (2 ^ k) = Some q /\
  exists q', queue_run q ops = Some (fst (fifo_run (2 ^ k - 1) [] ops), q') /\
    QueueCountGet (Some q') = (0, Some (Z.of_nat (length (snd (fifo_run (2 ^ k - 1) [] ops))))).
Proof.
  intros Hk. destruct (CreateQueue_rel k Hk) as (q & E & Hrel). exists q. split; [done|].
  destruct (queue_run_refines k ops 0 q [] Hrel) as (c' & q' & E' & Hrel').
  exists q'. split; [done|]. by eapply count_refines.
Qed.

(** a queue of zero units is accepted ([IS_POWER_OF_2(0)] holds) with a
    mask of 2^32 - 1 and no cell, and the first enqueue then writes outside
    the node array. *)
Theorem queue_zero_units_overflows :
  exists q, CreateQueue true 0 = Some q /\ mask (producer q) = UINT32_MAX /\ nodes q = [] /\
    QueueSingleProducerEnqueue (Some q) 1 = None.
Proof. eexists. split; [by vm_compute|]. by vm_compute. Qed.

Lemma queue_refines_fifo_witness :
  exists q, CreateQueue true (2 ^ 1) = Some q /\
  exists q', queue_run q [Enqueue 5; Enqueue 6; Dequeue; Dequeue]
    = Some ([Enqueued; Full; Dequeued 5; Empty], q') /\ QueueCountGet (Some q') = (0, Some 0).
Proof. apply (queue_refines_fifo 1 [Enqueue 5; Enqueue 6; Dequeue; Dequeue]). lia. Defined.

End LockFreeQueue.
