(* ===== verification/QueueConcurrent.v ===== *)
(** * The ring queue under concurrent producers and consumers

    [QueueMultiProducerEnqueue] and [QueueMultiConsumerDequeue]
    (core/common/include/softbus_queue.h) as a step relation: any number of
    threads, one access to shared memory per step, in program order (the read
    and write barriers of the source).  Ghost fields record the reservations
    made by the compare-and-swap of each side; the dequeued values are shown
    to be a prefix of the reserved ones. *)

From S2P Require Import Prelude LockFreeQueue.
Import LockFreeQueue.

Module QueueConcurrent.

(** ** Model *)

(** Where a thread is in an operation.  [h] is the 32-bit counter it read;
    [n] is the ghost index of that value in the sequence of reservations. *)
Inductive pc :=
  | PReadHead (x : Z)
  | PReadTail (x h : Z) (n : nat)
  | PCas (x h : Z) (n : nat)
  | PStore (x h : Z) (n : nat)
  | PWait (h : Z) (n : nat)
  | CReadHead
  | CReadTail (h : Z) (n : nat)
  | CCas (h : Z) (n : nat)
  | CLoad (h : Z) (n : nat)
  | CWait (h : Z) (n : nat) (v : Z).

Record mstate := mkMstate {
  ring : LockFreeQueue;
  pcs : gmap nat pc;
  reserved : list Z;  (* ghost: nodes in the order of producer reservations *)
  taken : nat;        (* ghost: number of consumer reservations *)
  got : list Z;       (* nodes returned by completed dequeues *)
}.

Definition goto (t : nat) (p : pc) (s : mstate) : mstate :=
  mkMstate (ring s) (<[t := p]> (pcs s)) (reserved s) (taken s) (got s).
Definition finish (t : nat) (s : mstate) : mstate :=
  mkMstate (ring s) (delete t (pcs s)) (reserved s) (taken s) (got s).
Definition with_ring (q : LockFreeQueue) (s : mstate) : mstate :=
  mkMstate q (pcs s) (reserved s) (taken s) (got s).

(** One step of [QueueMultiProducerEnqueue] of thread [t].  The compare-and-
    swap compares 32-bit values; the side condition of [step_p_cas_ok] says
    that fewer than 2^32 reservations happened since the thread read the head
    (no ABA across a full turn of the counter). *)
Inductive pstep (t : nat) (s : mstate) : mstate -> Prop :=
  | step_p_start x :
      pcs s !! t = None -> x <> 0 -> pstep t s (goto t (PReadHead x) s)
  | step_p_head x :
      pcs s !! t = Some (PReadHead x) ->
      pstep t s (goto t (PReadTail x (head (producer (ring s))) (length (reserved s))) s)
  | step_p_full x h n :
      pcs s !! t = Some (PReadTail x h n) ->
      u32 (u32 (mask (producer (ring s)) + tail (consumer (ring s))) - h) < 1 ->
      pstep t s (finish t s)
  | step_p_avail x h n :
      pcs s !! t = Some (PReadTail x h n) ->
      1 <= u32 (u32 (mask (producer (ring s)) + tail (consumer (ring s))) - h) ->
      pstep t s (goto t (PCas x h n) s)
  | step_p_cas_fail x h n :
      pcs s !! t = Some (PCas x h n) -> head (producer (ring s)) <> h ->
      pstep t s (goto t (PReadHead x) s)
  | step_p_cas_ok x h n :
      pcs s !! t = Some (PCas x h n) -> head (producer (ring s)) = h ->
      Z.of_nat (length (reserved s)) - Z.of_nat n < 2 ^ 32 ->
      pstep t s
        (mkMstate (set_producer (ring s) (set_head (producer (ring s)) (u32 (h + 1))))
           (<[t := PStore x h n]> (pcs s)) (reserved s ++ [x]) (taken s) (got s))
  | step_p_store x h n q' :
      pcs s !! t = Some (PStore x h n) ->
      store_node (ring s) (Z.land h (mask (producer (ring s)))) x = Some q' ->
      pstep t s (goto t (PWait h n) (with_ring q' s))
  | step_p_publish h n :
      pcs s !! t = Some (PWait h n) -> tail (producer (ring s)) = h ->
      pstep t s (finish t (with_ring
        (set_producer (ring s)
           (set_tail (producer (ring s)) (u32 (tail (producer (ring s)) + 1)))) s)).

(** One step of [QueueMultiConsumerDequeue] of thread [t]. *)
Inductive cstep (t : nat) (s : mstate) : mstate -> Prop :=
  | step_c_start :
      pcs s !! t = None -> cstep t s (goto t CReadHead s)
  | step_c_head :
      pcs s !! t = Some CReadHead ->
      cstep t s (goto t (CReadTail (head (consumer (ring s))) (taken s)) s)
  | step_c_empty h n :
      pcs s !! t = Some (CReadTail h n) ->
      u32 (tail (producer (ring s)) - h) < 1 -> cstep t s (finish t s)
  | step_c_avail h n :
      pcs s !! t = Some (CReadTail h n) ->
      1 <= u32 (tail (producer (ring s)) - h) -> cstep t s (goto t (CCas h n) s)
  | step_c_cas_fail h n :
      pcs s !! t = Some (CCas h n) -> head (consumer (ring s)) <> h ->
      cstep t s (goto t CReadHead s)
  | step_c_cas_ok h n :
      pcs s !! t = Some (CCas h n) -> head (consumer (ring s)) = h ->
      Z.of_nat (taken s) - Z.of_nat n < 2 ^ 32 ->
      cstep t s
        (mkMstate (set_consumer (ring s) (set_head (consumer (ring s)) (u32 (h + 1))))
           (<[t := CLoad h n]> (pcs s)) (reserved s) (S (taken s)) (got s))
  | step_c_load h n v :
      pcs s !! t = Some (CLoad h n) ->
      load_node (ring s) (Z.land h (mask (producer (ring s)))) = Some v ->
      cstep t s (goto t (CWait h n v) s)
  | step_c_release h n v :
      pcs s !! t = Some (CWait h n v) -> tail (consumer (ring s)) = h ->
      cstep t s
        (mkMstate (set_consumer (ring s)
                     (set_tail (consumer (ring s)) (u32 (tail (consumer (ring s)) + 1))))
           (delete t (pcs s)) (reserved s) (taken s) (got s ++ [v])).

Definition mstep (s s' : mstate) : Prop := exists t, pstep t s s' \/ cstep t s s'.

Definition minit (q : LockFreeQueue) : mstate := mkMstate q ∅ [] 0 [].

(** States reachable from a freshly created queue of [2^k] units. *)
Inductive reachable (k : Z) : mstate -> Prop :=
  | reach_init q : CreateQueue true (2 ^ k) = Some q -> reachable k (minit q)
  | reach_step s s' : reachable k s -> mstep s s' -> reachable k s'.

(** ** Invariant *)

(** The producer (consumer) index a thread has reserved and not yet released. *)
Definition p_owns (p : pc) : option nat :=
  match p with PStore _ _ n | PWait _ n => Some n | _ => None end.
Definition c_owns (p : pc) : option nat :=
  match p with CLoad _ n | CWait _ n _ => Some n | _ => None end.

Definition pown (s : mstate) (t : nat) : option nat := pcs s !! t ≫= p_owns.
Definition cown (s : mstate) (t : nat) : option nat := pcs s !! t ≫= c_owns.

(** Each index of [lo, hi) is owned by exactly one thread. *)
Definition owned (own : nat -> option nat) (lo hi : nat) : Prop :=
  (forall t t' n, own t = Some n -> own t' = Some n -> t = t') /\
  (forall n, (lo <= n < hi)%nat -> exists t, own t = Some n).

Section invariant.
Context (k : Z) (pt ct : nat) (s : mstate).

Definition cell (i : nat) : option Z := nodes (ring s) !! Z.to_nat (Z.of_nat i mod 2 ^ k).

Definition pc_inv (p : pc) : Prop :=
  match p with
  | PReadHead _ | CReadHead => True
  | PReadTail _ h n => h = u32 (Z.of_nat n) /\ (n <= length (reserved s))%nat
  | PCas _ h n => h = u32 (Z.of_nat n) /\ (n <= length (reserved s))%nat /\
      (n = length (reserved s) -> Z.of_nat n < Z.of_nat ct + (2 ^ k - 1))
  | PStore x h n => h = u32 (Z.of_nat n) /\ (pt <= n < length (reserved s))%nat /\
      reserved s !! n = Some x
  | PWait h n => h = u32 (Z.of_nat n) /\ (pt <= n < length (reserved s))%nat /\
      cell n = reserved s !! n
  | CReadTail h n => h = u32 (Z.of_nat n) /\ (n <= taken s)%nat
  | CCas h n => h = u32 (Z.of_nat n) /\ (n <= taken s)%nat /\ (n = taken s -> (n < pt)%nat)
  | CLoad h n => h = u32 (Z.of_nat n) /\ (ct <= n < taken s)%nat
  | CWait h n v => h = u32 (Z.of_nat n) /\ (ct <= n < taken s)%nat /\ reserved s !! n = Some v
  end.

Record minv : Prop := {
  mi_k : 0 <= k <= 13;
  mi_mask : mask (producer (ring s)) = 2 ^ k - 1;
  mi_cells : 2 ^ k <= Z.of_nat (length (nodes (ring s)));
  mi_ph : head (producer (ring s)) = u32 (Z.of_nat (length (reserved s)));
  mi_pt : tail (producer (ring s)) = u32 (Z.of_nat pt);
  mi_ch : head (consumer (ring s)) = u32 (Z.of_nat (taken s));
  mi_ct : tail (consumer (ring s)) = u32 (Z.of_nat ct);
  mi_order : (ct <= taken s /\ taken s <= pt /\ pt <= length (reserved s))%nat;
  mi_cap : Z.of_nat (length (reserved s)) <= Z.of_nat ct + (2 ^ k - 1);
  mi_nodes : forall i, (ct <= i < pt)%nat -> cell i = reserved s !! i;
  mi_pcs : forall t p, pcs s !! t = Some p -> pc_inv p;
  mi_pown : owned (pown s) pt (length (reserved s));
  mi_cown : owned (cown s) ct (taken s);
  mi_got : got s = take ct (reserved s);
}.
End invariant.

(** ** Preservation *)

Lemma owned_ext own own' lo hi :
  (forall t, own' t = own t) -> owned own lo hi -> owned own' lo hi.
Proof.
  intros E [H1 H2]. split; [intros t t' n; rewrite !E; apply H1|].
  intros n Hn. destruct (H2 n Hn) as [t Ht]. exists t. by rewrite E.
Qed.

(** A thread without an index takes the next one. *)
Lemma owned_take own own' t lo hi :
  owned own lo hi -> (forall t' n, own t' = Some n -> (n < hi)%nat) -> own t = None ->
  own' t = Some hi -> (forall t', t' <> t -> own' t' = own t') ->
  owned own' lo (S hi).
Proof.
  intros [H1 H2] Hlt Hnone Ht Hothers. split.
  - intros t1 t2 n E1 E2.
    destruct (decide (t1 = t)) as [->|]; destruct (decide (t2 = t)) as [->|]; [done| | |].
    + rewrite Hothers in E2 by done. apply Hlt in E2. simplify_eq. lia.
    + rewrite Hothers in E1 by done. apply Hlt in E1. simplify_eq. lia.
    + rewrite Hothers in E1, E2 by done. by eapply H1.
  - intros n Hn. destruct (decide (n = hi)) as [->|]; [by exists t|].
    destruct (H2 n) as [t' Ht']; [lia|]. exists t'. rewrite Hothers; [done|]. by intros ->; simplify_eq.
Qed.

(** The owner of the lowest index releases it. *)
Lemma owned_release own own' t lo hi :
  owned own lo hi -> own t = Some lo -> own' t = None ->
  (forall t', t' <> t -> own' t' = own t') -> owned own' (S lo) hi.
Proof.
  intros [H1 H2] Ht Ht' Hothers. split.
  - intros t1 t2 n E1 E2.
    rewrite Hothers in E1 by (intros ->; congruence).
    rewrite Hothers in E2 by (intros ->; congruence). by eapply H1.
  - intros n Hn. destruct (H2 n) as [t1 Ht1]; [lia|]. exists t1.
    rewrite Hothers; [done|]. intros ->. simplify_eq. lia.
Qed.

Lemma lookup_bind_insert (f : pc -> option nat) (m : gmap nat pc) t p t' :
  <[t := p]> m !! t' ≫= f = if decide (t' = t) then f p else m !! t' ≫= f.
Proof. case_decide; subst; by simplify_map_eq. Qed.

Lemma lookup_bind_delete (f : pc -> option nat) (m : gmap nat pc) t t' :
  delete t m !! t' ≫= f = if decide (t' = t) then None else m !! t' ≫= f.
Proof. case_decide; subst; by simplify_map_eq. Qed.

Lemma minv_goto k pt ct s t p :
  minv k pt ct s -> pc_inv k pt ct s p -> p_owns p = pown s t -> c_owns p = cown s t ->
  minv k pt ct (goto t p s).
Proof.
  intros [] Hp Ep Ec. split; try done.
  - intros t' p' Hp'. simpl in Hp'. destruct (decide (t' = t)); simplify_map_eq; [done|].
    by apply (mi_pcs0 t' p').
  - eapply owned_ext; [|done]. intros t'. unfold pown. simpl.
    rewrite lookup_bind_insert. case_decide; by subst.
  - eapply owned_ext; [|done]. intros t'. unfold cown. simpl.
    rewrite lookup_bind_insert. case_decide; by subst.
Qed.

Lemma minv_finish k pt ct s t :
  minv k pt ct s -> pown s t = None -> cown s t = None -> minv k pt ct (finish t s).
Proof.
  intros [] Ep Ec. split; try done.
  - intros t' p' Hp'. simpl in Hp'. apply lookup_delete_Some in Hp' as [_ Hp'].
    by apply (mi_pcs0 t' p').
  - eapply owned_ext; [|done]. intros t'. unfold pown. simpl.
    rewrite lookup_bind_delete. case_decide; by subst.
  - eapply owned_ext; [|done]. intros t'. unfold cown. simpl.
    rewrite lookup_bind_delete. case_decide; by subst.
Qed.

(** Facts about counters under the invariant. *)
Section facts.
Context {k : Z} {pt ct : nat} {s : mstate}.
Hypothesis Hinv : minv k pt ct s.

Lemma cap_small : 1 <= 2 ^ k <= 8192.
Proof. apply pow2_bounds, Hinv. Qed.

Lemma owns_p t p n : pcs s !! t = Some p -> p_owns p = Some n ->
  (pt <= n < length (reserved s))%nat.
Proof.
  intros Hp Hn. pose proof (mi_pcs _ _ _ _ Hinv t p Hp) as H.
  destruct p; simplify_eq/=; naive_solver.
Qed.

Lemma owns_c t p n : pcs s !! t = Some p -> c_owns p = Some n ->
  (ct <= n < taken s)%nat.
Proof.
  intros Hp Hn. pose proof (mi_pcs _ _ _ _ Hinv t p Hp) as H.
  destruct p; simplify_eq/=; naive_solver.
Qed.

Lemma pown_range t n : pown s t = Some n -> (pt <= n < length (reserved s))%nat.
Proof. unfold pown. destruct (pcs s !! t) eqn:E; simpl; [|done]. by apply (owns_p t). Qed.

Lemma cown_range t n : cown s t = Some n -> (ct <= n < taken s)%nat.
Proof. unfold cown. destruct (pcs s !! t) eqn:E; simpl; [|done]. by apply (owns_c t). Qed.

(** Distinct live indices use distinct cells. *)
Lemma cells_distinct i j : (ct <= i < length (reserved s))%nat ->
  (ct <= j < length (reserved s))%nat -> i <> j ->
  Z.to_nat (Z.of_nat i mod 2 ^ k) <> Z.to_nat (Z.of_nat j mod 2 ^ k).
Proof.
  intros Hi Hj Hne E. pose proof cap_small. pose proof (mi_cap _ _ _ _ Hinv).
  pose proof (Z.mod_pos_bound (Z.of_nat i) (2 ^ k)). pose proof (Z.mod_pos_bound (Z.of_nat j) (2 ^ k)).
  assert (Z.of_nat i mod 2 ^ k = Z.of_nat j mod 2 ^ k) as E' by lia.
  apply Hne. apply Nat2Z.inj.
  assert (Z.of_nat i - Z.of_nat ct = Z.of_nat j - Z.of_nat ct); [|lia].
  apply (mod_window_inj (2 ^ k) (Z.of_nat ct)); [lia|lia|].
  by rewrite !Z.add_sub_assoc, !(Z.add_comm (Z.of_nat ct)), !Z.add_simpl_r.
Qed.

Lemma cell_index n : Z.land (u32 (Z.of_nat n)) (mask (producer (ring s))) = Z.of_nat n mod 2 ^ k.
Proof.
  pose proof (mi_k _ _ _ _ Hinv). rewrite (mi_mask _ _ _ _ Hinv). apply land_mask. lia.
Qed.
End facts.

(** Equal 32-bit views of two counters less than 2^32 apart. *)
Lemma u32_close a b : 0 <= a - b < 2 ^ 32 -> u32 a = u32 b -> a = b.
Proof. intros. wrap_lia. Qed.

(** [pc_inv] under growth of the reservations and of the counters. *)
Lemma pc_inv_reserve k pt ct s q m x p :
  pc_inv k pt ct s p -> nodes q = nodes (ring s) ->
  pc_inv k pt ct (mkMstate q m (reserved s ++ [x]) (taken s) (got s)) p.
Proof.
  intros H Hq. unfold cell.
  destruct p; simpl in *; unfold cell in *; simpl; rewrite ?Hq, ?length_app; simpl;
    destruct_and?; split_and?; try done; try lia.
  - by apply lookup_app_l_Some.
  - rewrite lookup_app_l by lia. done.
  - by apply lookup_app_l_Some.
Qed.

Lemma pc_inv_weaken k pt pt' ct ct' s q m tk g p :
  pc_inv k pt ct s p -> nodes q = nodes (ring s) ->
  (pt <= pt')%nat -> (ct <= ct')%nat -> (taken s <= tk)%nat ->
  (forall n, p_owns p = Some n -> pt' <= n)%nat ->
  (forall n, c_owns p = Some n -> ct' <= n)%nat ->
  pc_inv k pt' ct' (mkMstate q m (reserved s) tk g) p.
Proof.
  intros H Hq Hpt Hct Htk Hp Hc.
  destruct p; simpl in *; unfold cell in *; simpl; rewrite ?Hq;
    destruct_and?; split_and?; try done; try lia;
    try (by apply Hp); try (by apply Hc).
Qed.

Ltac own_simpl :=
  unfold pown, cown; simpl; rewrite ?lookup_bind_insert, ?lookup_bind_delete;
  repeat case_decide; subst; try done;
  repeat match goal with H : pcs _ !! _ = _ |- _ => rewrite H end; try done.

Lemma cas_ok_inv k pt ct s t x h n :
  minv k pt ct s -> pcs s !! t = Some (PCas x h n) -> head (producer (ring s)) = h ->
  Z.of_nat (length (reserved s)) - Z.of_nat n < 2 ^ 32 ->
  minv k pt ct
    (mkMstate (set_producer (ring s) (set_head (producer (ring s)) (u32 (h + 1))))
       (<[t := PStore x h n]> (pcs s)) (reserved s ++ [x]) (taken s) (got s)).
Proof.
  intros Hinv Ht Hh Haba. pose proof (mi_pcs _ _ _ _ Hinv t _ Ht) as (Hhn & Hn & Hroom).
  assert (n = length (reserved s)) as ->.
  { rewrite (mi_ph _ _ _ _ Hinv), Hhn in Hh. apply u32_close in Hh; lia. }
  specialize (Hroom eq_refl). pose proof (cap_small Hinv). pose proof Hinv as [].
  split; simpl; rewrite ?length_app; simpl; try done; try lia.
  - rewrite Hhn. wrap_lia.
  - intros i Hi. rewrite lookup_app_l by lia. by apply mi_nodes0.
  - intros t' p Hp. destruct (decide (t' = t)) as [->|]; simplify_map_eq.
    + simpl. rewrite length_app. simpl. split; [done|]. split; [lia|].
      by rewrite lookup_app_r, Nat.sub_diag by lia.
    + by apply pc_inv_reserve; [apply (mi_pcs0 t')|].
  - rewrite Nat.add_1_r. eapply (owned_take _ _ t); [done| | | |].
    + intros t' n. apply (pown_range Hinv).
    + own_simpl.
    + own_simpl.
    + intros t' Ht'. own_simpl.
  - eapply owned_ext; [|done]. intros t'. own_simpl.
  - rewrite mi_got0, take_app_le by lia. done.
Qed.

Lemma store_inv k pt ct s t x h n q :
  minv k pt ct s -> pcs s !! t = Some (PStore x h n) ->
  store_node (ring s) (Z.land h (mask (producer (ring s)))) x = Some q ->
  minv k pt ct (goto t (PWait h n) (with_ring q s)).
Proof.
  intros Hinv Ht Hst. pose proof (mi_pcs _ _ _ _ Hinv t _ Ht) as (Hhn & Hn & Hx).
  pose proof (cap_small Hinv). pose proof (Z.mod_pos_bound (Z.of_nat n) (2 ^ k)).
  rewrite Hhn, (cell_index Hinv) in Hst. pose proof Hinv as [].
  rewrite store_node_Some in Hst by lia. injection Hst as <-.
  set (s1 := with_ring _ s).
  assert (forall i, (ct <= i < length (reserved s))%nat -> i <> n -> cell k s1 i = cell k s i) as Hoth.
  { intros i Hi Hne. unfold cell. simpl. apply list_lookup_insert_ne.
    apply (cells_distinct Hinv); lia. }
  assert (cell k s1 n = Some x) as Hself.
  { unfold cell. simpl. apply list_lookup_insert_eq. lia. }
  apply minv_goto; [| |own_simpl|own_simpl].
  - split; simpl; rewrite ?length_insert; try done.
    + intros i Hi. rewrite Hoth by lia. by apply mi_nodes0.
    + intros t' p Hp. pose proof (mi_pcs0 t' p Hp) as Hpi. destruct p; simpl in *; try done.
      destruct Hpi as (? & ? & Hc). split_and!; try done; try lia.
      rewrite Hoth; [done|lia|]. intros ->.
      assert (t' = t) as ->; [|congruence].
      destruct mi_pown0 as [Huniq _]. eapply Huniq; unfold pown; [by rewrite Hp|by rewrite Ht].
  - simpl. split_and!; try done; try lia. by rewrite Hself.
Qed.

Lemma publish_inv k pt ct s t h n :
  minv k pt ct s -> pcs s !! t = Some (PWait h n) -> tail (producer (ring s)) = h ->
  minv k (S pt) ct (finish t (with_ring
    (set_producer (ring s)
       (set_tail (producer (ring s)) (u32 (tail (producer (ring s)) + 1)))) s)).
Proof.
  intros Hinv Ht Hh. pose proof (mi_pcs _ _ _ _ Hinv t _ Ht) as (Hhn & Hn & Hc).
  pose proof (cap_small Hinv). pose proof Hinv as [].
  assert (n = pt) as ->.
  { rewrite mi_pt0, Hhn in Hh. symmetry in Hh. apply u32_close in Hh; lia. }
  split; simpl; try done; try lia.
  - rewrite mi_pt0. wrap_lia.
  - intros i Hi. destruct (decide (i = pt)) as [->|]; [done|]. apply mi_nodes0. lia.
  - intros t' p Hp. apply lookup_delete_Some in Hp as [Hne Hp].
    eapply (pc_inv_weaken k pt _ ct ct s); try done; [by apply (mi_pcs0 t')|lia| |].
    + intros n Hpn. pose proof (owns_p Hinv t' p n Hp Hpn).
      assert (n <> pt); [|lia]. intros ->. apply Hne. destruct mi_pown0 as [Huniq _].
      eapply Huniq; unfold pown; [by rewrite Ht|by rewrite Hp].
    + intros n Hcn. by apply (owns_c Hinv t' p n).
  - eapply (owned_release _ _ t); [done|own_simpl|own_simpl|]. intros t' Ht'. own_simpl.
  - eapply owned_ext; [|done]. intros t'. own_simpl.
Qed.

Lemma pstep_inv k pt ct s t s' :
  minv k pt ct s -> pstep t s s' -> exists pt', minv k pt' ct s'.
Proof.
  intros Hinv Hstep. pose proof (cap_small Hinv). pose proof Hinv as [].
  destruct Hstep as [x Ht _|x Ht|x h n Ht _|x h n Ht Hav|x h n Ht _|x h n Ht Hh Ha|x h n q Ht Hs|h n Ht Hh].
  - exists pt. apply minv_goto; try done; own_simpl.
  - exists pt. apply minv_goto; try done; own_simpl.
  - exists pt. apply minv_finish; try done; own_simpl.
  - exists pt. apply minv_goto; try done; [|own_simpl..].
    pose proof (mi_pcs0 t _ Ht) as [-> Hn]. split_and!; try done. intros ->.
    rewrite mi_mask0, mi_ct0 in Hav.
    replace (u32 (u32 (2 ^ k - 1 + u32 (Z.of_nat ct)) - u32 (Z.of_nat (length (reserved s)))))
      with (2 ^ k - 1 + Z.of_nat ct - Z.of_nat (length (reserved s))) in Hav; [lia|].
    revert H mi_cap0. generalize (2 ^ k). intros. wrap_lia.
  - exists pt. apply minv_goto; try done; own_simpl.
  - exists pt. by eapply cas_ok_inv.
  - exists pt. by eapply store_inv.
  - exists (S pt). by eapply publish_inv.
Qed.

Lemma c_cas_ok_inv k pt ct s t h n :
  minv k pt ct s -> pcs s !! t = Some (CCas h n) -> head (consumer (ring s)) = h ->
  Z.of_nat (taken s) - Z.of_nat n < 2 ^ 32 ->
  minv k pt ct
    (mkMstate (set_consumer (ring s) (set_head (consumer (ring s)) (u32 (h + 1))))
       (<[t := CLoad h n]> (pcs s)) (reserved s) (S (taken s)) (got s)).
Proof.
  intros Hinv Ht Hh Haba. pose proof (mi_pcs _ _ _ _ Hinv t _ Ht) as (Hhn & Hn & Hroom).
  assert (n = taken s) as ->.
  { rewrite (mi_ch _ _ _ _ Hinv), Hhn in Hh. apply u32_close in Hh; lia. }
  specialize (Hroom eq_refl). pose proof Hinv as [].
  split; simpl; try done; try lia.
  - rewrite Hhn. wrap_lia.
  - intros t' p Hp. destruct (decide (t' = t)) as [->|]; simplify_map_eq; [simpl; lia|].
    eapply (pc_inv_weaken k pt pt ct ct s); try done; [by apply (mi_pcs0 t')|lia| |];
      intros i Hi; [by apply (owns_p Hinv t' p i)|by apply (owns_c Hinv t' p i)].
  - eapply owned_ext; [|done]. intros t'. own_simpl.
  - eapply (owned_take _ _ t); [done| | | |].
    + intros t' i. apply (cown_range Hinv).
    + own_simpl.
    + own_simpl.
    + intros t' Ht'. own_simpl.
Qed.

Lemma release_inv k pt ct s t h n v :
  minv k pt ct s -> pcs s !! t = Some (CWait h n v) -> tail (consumer (ring s)) = h ->
  minv k pt (S ct)
    (mkMstate (set_consumer (ring s)
                 (set_tail (consumer (ring s)) (u32 (tail (consumer (ring s)) + 1))))
       (delete t (pcs s)) (reserved s) (taken s) (got s ++ [v])).
Proof.
  intros Hinv Ht Hh. pose proof (mi_pcs _ _ _ _ Hinv t _ Ht) as (Hhn & Hn & Hv).
  pose proof (cap_small Hinv). pose proof Hinv as [].
  assert (n = ct) as ->.
  { rewrite mi_ct0, Hhn in Hh. symmetry in Hh. apply u32_close in Hh; lia. }
  split; simpl; try done; try lia.
  - rewrite mi_ct0. wrap_lia.
  - intros i Hi. apply mi_nodes0. lia.
  - intros t' p Hp. apply lookup_delete_Some in Hp as [Hne Hp].
    eapply (pc_inv_weaken k pt pt ct _ s); try done; [by apply (mi_pcs0 t')|lia| |].
    + intros n Hpn. by apply (owns_p Hinv t' p n).
    + intros n Hcn. pose proof (owns_c Hinv t' p n Hp Hcn).
      assert (n <> ct); [|lia]. intros ->. apply Hne. destruct mi_cown0 as [Huniq _].
      eapply Huniq; unfold cown; [by rewrite Ht|by rewrite Hp].
  - eapply owned_ext; [|done]. intros t'. own_simpl.
  - eapply (owned_release _ _ t); [done|own_simpl|own_simpl|]. intros t' Ht'. own_simpl.
  - by rewrite mi_got0, (take_S_r _ _ v).
Qed.

Lemma cstep_inv k pt ct s t s' :
  minv k pt ct s -> cstep t s s' -> exists ct', minv k pt ct' s'.
Proof.
  intros Hinv Hstep. pose proof (cap_small Hinv). pose proof Hinv as [].
  destruct Hstep as [Ht|Ht|h n Ht _|h n Ht Hav|h n Ht _|h n Ht Hh Ha|h n v Ht Hs|h n v Ht Hh].
  - exists ct. apply minv_goto; try done; own_simpl.
  - exists ct. apply minv_goto; try done; own_simpl.
  - exists ct. apply minv_finish; try done; own_simpl.
  - exists ct. apply minv_goto; try done; [|own_simpl..].
    pose proof (mi_pcs0 t _ Ht) as [-> Hn]. split_and!; try done. intros ->.
    rewrite mi_pt0 in Hav. destruct (decide (taken s = pt)) as [E|]; [|lia].
    rewrite E, Z.sub_diag in Hav. by vm_compute in Hav.
  - exists ct. apply minv_goto; try done; own_simpl.
  - exists ct. by eapply c_cas_ok_inv.
  - exists ct. apply minv_goto; try done; [|own_simpl..].
    pose proof (mi_pcs0 t _ Ht) as [-> Hn]. rewrite (cell_index Hinv) in Hs.
    split_and!; try done; try lia. rewrite <- mi_nodes0 by lia. done.
  - exists (S ct). by eapply release_inv.
Qed.

Lemma minv_init k q : 0 <= k <= 13 -> CreateQueue true (2 ^ k) = Some q -> minv k 0 0 (minit q).
Proof.
  intros Hk Hq. destruct (CreateQueue_rel k Hk) as (q' & E & []). simplify_eq. simpl in *.
  pose proof (pow2_bounds k Hk). split; simpl; rewrite ?qr_ph0, ?qr_pt0; try done; try lia.
  all: split; [intros t t' n E; unfold pown, cown in E; simpl in E; by rewrite lookup_empty in E|lia].
Qed.

Lemma reachable_inv k s : 0 <= k <= 13 -> reachable k s -> exists pt ct, minv k pt ct s.
Proof.
  intros Hk Hr. induction Hr as [q Hq|s s' Hr (pt & ct & Hinv) (t & [Hp|Hc])].
  - exists 0%nat, 0%nat. by apply minv_init.
  - destruct (pstep_inv _ _ _ _ _ _ Hinv Hp) as (pt' & H). eauto.
  - destruct (cstep_inv _ _ _ _ _ _ Hinv Hc) as (ct' & H). eauto.
Qed.

(** A thread that spins: it holds a later index than its side's tail. *)
Definition waits (s : mstate) (p : pc) : Prop :=
  match p with
  | PWait h _ => tail (producer (ring s)) <> h
  | CWait h _ _ => tail (consumer (ring s)) <> h
  | _ => False
  end.

Lemma runnable k pt ct s t p :
  minv k pt ct s -> Z.of_nat (length (reserved s)) < 2 ^ 32 ->
  pcs s !! t = Some p -> ~ waits s p -> exists s', pstep t s s' \/ cstep t s s'.
Proof.
  intros Hinv Hsmall Ht Hw. pose proof (cap_small Hinv). pose proof Hinv as [].
  pose proof (mi_pcs0 t _ Ht) as Hp.
  destruct p as [x|x h n|x h n|x h n|h n| |h n|h n|h n|h n v].
  - eexists. left. by eapply step_p_head.
  - destruct (Z_lt_le_dec (u32 (u32 (mask (producer (ring s)) +
      tail (consumer (ring s))) - h)) 1); eexists; left; by econstructor.
  - destruct (Z.eq_dec (head (producer (ring s))) h); eexists; left;
      [eapply step_p_cas_ok|eapply step_p_cas_fail]; try done; lia.
  - destruct Hp as (-> & _). pose proof (Z.mod_pos_bound (Z.of_nat n) (2 ^ k)).
    eexists. left. eapply step_p_store; [done|].
    rewrite (cell_index Hinv). apply store_node_Some. lia.
  - eexists. left. eapply step_p_publish; [done|]. simpl in Hw. lia.
  - eexists. right. by eapply step_c_head.
  - destruct (Z_lt_le_dec (u32 (tail (producer (ring s)) - h)) 1);
      eexists; right; by econstructor.
  - destruct (Z.eq_dec (head (consumer (ring s))) h); eexists; right;
      [eapply step_c_cas_ok|eapply step_c_cas_fail]; try done; lia.
  - destruct Hp as (-> & Hn). destruct (lookup_lt_is_Some_2 (reserved s) n) as [v Hv]; [lia|].
    eexists. right. eapply step_c_load; [done|]. unfold load_node.
    rewrite (cell_index Hinv). rewrite <- Hv, <- mi_nodes0 by lia. done.
  - eexists. right. eapply step_c_release; [done|]. simpl in Hw. lia.
Qed.

(** When a side has a spinning thread, the owner of its lowest index does not spin. *)
Lemma someone_runs k pt ct s t p :
  minv k pt ct s -> pcs s !! t = Some p ->
  exists t' p', pcs s !! t' = Some p' /\ ~ waits s p'.
Proof.
  intros Hinv Ht. pose proof Hinv as []. pose proof (mi_pcs0 t p Ht) as Hp.
  destruct p; try (exists t; eexists; split; [done|]; simpl; tauto).
  - destruct mi_pown0 as [_ Hex]. destruct (Hex pt) as (t' & Ht'); [simpl in Hp; lia|].
    unfold pown in Ht'. destruct (pcs s !! t') as [p'|] eqn:Hp'; [|done]. exists t', p'.
    split; [done|]. pose proof (mi_pcs0 t' p' Hp') as Hpi.
    destruct p'; simplify_eq/=; try tauto; destruct Hpi as (? & _); congruence.
  - destruct mi_cown0 as [_ Hex]. destruct (Hex ct) as (t' & Ht'); [simpl in Hp; lia|].
    unfold cown in Ht'. destruct (pcs s !! t') as [p'|] eqn:Hp'; [|done]. exists t', p'.
    split; [done|]. pose proof (mi_pcs0 t' p' Hp') as Hpi.
    destruct p'; simplify_eq/=; try tauto; destruct Hpi as (? & _); congruence.
Qed.

(** ** Properties *)

(** C23: FIFO under concurrency.  In every state reachable from a created
    queue by interleaved enqueues and dequeues of any number of threads, the
    values returned by completed dequeues are a prefix of the values in the
    order in which producers reserved their places (no value is lost,
    duplicated, reordered or invented), and never more than [2^k - 1]
    reserved values are waiting. *)
Theorem mpmc_fifo k s : 0 <= k <= 13 -> reachable k s ->
  got s `prefix_of` reserved s /\
  Z.of_nat (length (reserved s)) <= Z.of_nat (length (got s)) + (2 ^ k - 1).
Proof.
  intros Hk Hr. destruct (reachable_inv k s Hk Hr) as (pt & ct & []).
  rewrite mi_got0. split; [apply prefix_take|]. rewrite length_take. lia.
Qed.


(** ** Witnesses: one producer has stored 7 and waits to publish it *)

Definition q2 : LockFreeQueue := default (mkLockFreeQueue 0 0 (mkSide 0 0 0 0) (mkSide 0 0 0 0) [])
  (CreateQueue true (2 ^ 1)).
Definition q2_stored : LockFreeQueue :=
  set_nodes (set_producer q2 (set_head (producer q2) 1)) (<[0%nat := 7]> (nodes q2)).
Definition s2 : mstate := mkMstate q2_stored {[0%nat := PWait 0 0]} [7] 0 [].

Lemma s2_reachable : reachable 1 s2.
Proof.
  assert (forall s s' t, reachable 1 s -> pstep t s s' -> reachable 1 s') as step
    by (intros s s' t Hr Hs; eapply reach_step; [exact Hr|]; exists t; by left).
  eapply step; [eapply step; [eapply step; [eapply step; [eapply step|]|]|]|].
  - apply (reach_init 1 q2). reflexivity.
  - apply (step_p_start 0 _ 7); [reflexivity|done].
  - by apply (step_p_head 0 _ 7).
  - apply (step_p_avail 0 _ 7 0 0); [reflexivity|]. vm_compute. congruence.
  - by apply (step_p_cas_ok 0 _ 7 0 0).
  - replace s2 with (goto 0 (PWait 0 0) (with_ring q2_stored (mkMstate
      (set_producer q2 (set_head (producer q2) 1)) {[0%nat := PStore 7 0 0]} [7] 0 []))).
    + by apply (step_p_store 0 _ 7 0 0).
    + unfold goto, s2. simpl. by rewrite insert_singleton.
Qed.

Lemma mpmc_fifo_witness : got s2 `prefix_of` reserved s2.
Proof. apply (mpmc_fifo 1 s2); [lia|apply s2_reachable]. Defined.


End QueueConcurrent.
