(* ===== verification/Utils.v ===== *)
(** * Shared utilities (core/common/utils/softbus_utils.c)

    Hexadecimal conversion, random identifiers, string validation, the
    registry of periodic timer callbacks and the [SoftBusList] container.
    Characters are [Z] values of [unsigned char]; a buffer is the list of its
    cells; an access outside a buffer makes the whole call [None]. *)

From S2P Require Import Prelude.
From S2P Require Import CommonList.

Module Utils.

Definition HEXIFY_UNIT_LEN : Z := 2.
Definition HEX_MAX_NUM : Z := 16.
Definition DEC_MAX_NUM : Z := 10.
Definition HEX_MAX_BIT_NUM : Z := 4.
Definition UN_HEXIFY_LEN (len : Z) : Z := Z.quot len HEXIFY_UNIT_LEN.
Definition HEXIFY_LEN (len : Z) : Z := i32 (i32 (len * HEXIFY_UNIT_LEN) + 1).

(** Character constants of the source. *)
Definition ch_0 : Z := 48.
Definition ch_9 : Z := 57.
Definition ch_a : Z := 97.
Definition ch_f : Z := 102.
Definition ch_A : Z := 65.
Definition ch_F : Z := 70.

(** The value of one hexadecimal digit, the [if]/[else] cascade on [c]. *)
Definition hex_digit (c : Z) : option Z :=
  if (ch_0 <=? c) && (c <=? ch_9) then Some (u8 (c - ch_0))
  else if (ch_a <=? c) && (c <=? ch_f) then Some (u8 (c - (ch_a - DEC_MAX_NUM)))
  else if (ch_A <=? c) && (c <=? ch_F) then Some (u8 (c - (ch_A - DEC_MAX_NUM)))
  else None.

(** The loop of [ConvertHexStringToBytes]: [n] bytes are left to write at
    [out]; [inp] is the rest of the input. *)
Fixpoint hex_to_bytes_loop (n : nat) (outBuf : list Z) (out : nat) (inp : list Z)
    : option (Z * list Z) :=
  match n with
  | O => Some (SOFTBUS_OK, outBuf)
  | S n =>
      match inp with
      | [] => None
      | c :: inp =>
          match hex_digit c with
          | None => Some (SOFTBUS_ERR, outBuf)
          | Some c =>
              match inp with
              | [] => None
              | c2 :: inp =>
                  match hex_digit c2 with
                  | None => Some (SOFTBUS_ERR, outBuf)
                  | Some c2 =>
                      if (out <? length outBuf)%nat then
                        hex_to_bytes_loop n
                          (<[out := u8 (Z.lor (Z.shiftl c HEX_MAX_BIT_NUM) c2)]> outBuf) (S out) inp
                      else None
                  end
              end
          end
      end
  end.

Definition ConvertHexStringToBytes (outBuf : option (list Z)) (outBufLen : Z)
    (inBuf : option (list Z)) (inLen : Z) : option (Z * option (list Z)) :=
  match outBuf, inBuf with
  | Some out, Some inp =>
      if negb (Z.rem inLen HEXIFY_UNIT_LEN =? 0) then Some (SOFTBUS_ERR, outBuf)
      else
        let outLen := u32 (UN_HEXIFY_LEN inLen) in
        '(ret, out') ← hex_to_bytes_loop (Z.to_nat outLen) out 0 inp;
        Some (ret, Some out')
  | _, _ => Some (SOFTBUS_ERR, outBuf)
  end.

Definition hex_char (h : Z) : Z :=
  if h <? DEC_MAX_NUM then u8 (ch_0 + h) else u8 (ch_a + h - DEC_MAX_NUM).

Definition write_byte (buf : list Z) (i : nat) (v : Z) : option (list Z) :=
  if (i <? length buf)%nat then Some (<[i := v]> buf) else None.

(** The loop of [ConvertBytesToHexString]: [n] is the rest of [inLen]. *)
Fixpoint bytes_to_hex_loop (n : nat) (outBuf : list Z) (out : nat) (inp : list Z)
    : option (list Z) :=
  match n with
  | O => Some outBuf
  | S n =>
      match inp with
      | [] => None
      | b :: inp =>
          let h := b / HEX_MAX_NUM in
          let l := b mod HEX_MAX_NUM in
          buf1 ← write_byte outBuf out (hex_char h);
          buf2 ← write_byte buf1 (S out) (hex_char l);
          bytes_to_hex_loop n buf2 (S (S out)) inp
      end
  end.

Definition ConvertBytesToHexString (outBuf : option (list Z)) (outBufLen : Z)
    (inBuf : option (list Z)) (inLen : Z) : option (Z * option (list Z)) :=
  match outBuf, inBuf with
  | Some out, Some inp =>
      if outBufLen <? u32 (HEXIFY_LEN inLen) then Some (SOFTBUS_ERR, outBuf)
      else
        out' ← bytes_to_hex_loop (Z.to_nat inLen) out 0 inp;
        Some (SOFTBUS_OK, Some out')
  | _, _ => Some (SOFTBUS_ERR, outBuf)
  end.

(** [random n] is the result of [SoftBusGenerateRandomArray] on an [n]-byte
    array: its return code and the bytes it stores. *)
Definition GenerateRandomStr (mem : bool) (random : Z -> Z * list Z)
    (str : option (list Z)) (len : Z) : option (Z * option (list Z)) :=
  match str with
  | None => Some (SOFTBUS_INVALID_PARAM, str)
  | Some _ =>
      if len <? HEXIFY_UNIT_LEN then Some (SOFTBUS_INVALID_PARAM, str)
      else
        let hexLen := len / HEXIFY_UNIT_LEN in
        if negb mem then Some (SOFTBUS_MEM_ERR, str)
        else
          let '(r, hexAuthId) := random hexLen in
          if negb (r =? SOFTBUS_OK) then Some (SOFTBUS_ERR, str)
          else
            '(ret, str') ← ConvertBytesToHexString str len (Some hexAuthId) (i32 hexLen);
            if negb (ret =? SOFTBUS_OK) then Some (SOFTBUS_ERR, str')
            else Some (SOFTBUS_OK, str')
  end.

(** [strlen] of a buffer: [None] when no terminator is inside it. *)
Fixpoint strlen (s : list Z) : option nat :=
  match s with
  | [] => None
  | c :: s => if c =? 0 then Some O else S <$> strlen s
  end.

Definition IsValidString (input : option (list Z)) (maxLen : Z) : option bool :=
  match input with
  | None => Some false
  | Some s =>
      n ← strlen s;
      let len := u32 (Z.of_nat n) in
      Some (negb ((len =? 0) || (len >=? maxLen)))
  end.

(** ** Timer callbacks: a callback is an identifier, NULL is [None]. *)

Definition SOFTBUS_CONN_TIMER_FUN : Z := 0.
Definition SOFTBUS_MAX_TIMER_FUN_NUM : Z := 8.

Record timer_state := mkTimer {
  g_timerId : option Z;
  g_timerFunList : list (option Z);
}.

Definition timer_init_state : timer_state := mkTimer None (replicate 8 None).

Definition RegisterTimeoutCallback (g : timer_state) (timerFunId : Z) (callback : option Z)
    : Z * timer_state :=
  match callback with
  | None => (SOFTBUS_ERR, g)
  | Some _ =>
      if (timerFunId >=? SOFTBUS_MAX_TIMER_FUN_NUM) || (timerFunId <? SOFTBUS_CONN_TIMER_FUN)
      then (SOFTBUS_ERR, g)
      else match g_timerFunList g !! Z.to_nat timerFunId with
           | Some (Some _) => (SOFTBUS_OK, g)
           | _ => (SOFTBUS_OK,
               mkTimer (g_timerId g) (<[Z.to_nat timerFunId := callback]> (g_timerFunList g)))
           end
  end.

(** The callbacks [HandleTimeoutFun] calls, in order. *)
Definition HandleTimeoutFun (g : timer_state) : list Z := omap id (g_timerFunList g).

(** [created] is the result of [SoftBusCreateTimer], [started] that of
    [SoftBusStartTimer] on it. *)
Definition SoftBusTimerInit (created : option Z) (started : Z) (g : timer_state)
    : Z * timer_state :=
  match g_timerId g with
  | Some _ => (SOFTBUS_OK, g)
  | None =>
      if negb (started =? SOFTBUS_OK) then (SOFTBUS_ERR, mkTimer None (g_timerFunList g))
      else (SOFTBUS_OK, mkTimer created (g_timerFunList g))
  end.

Definition SoftBusTimerDeInit (g : timer_state) : timer_state :=
  match g_timerId g with Some _ => mkTimer None (g_timerFunList g) | None => g end.

(** ** [SoftBusList] over the heap of list cells: [node] is the address of the
    list anchor inside the freshly allocated structure. *)

Definition CreateSoftBusList (mem lock_ok : bool) (h : gmap Z CommonList.ListNode) (node : Z)
    : option (option Z * gmap Z CommonList.ListNode) :=
  if negb mem then Some (None, h)
  else
    let h1 := <[node := CommonList.mkListNode CommonList.NULL CommonList.NULL]> h in
    if negb lock_ok then Some (None, delete node h1)
    else h2 ← CommonList.ListInit h1 node; Some (Some node, h2).

Definition DestroySoftBusList (h : gmap Z CommonList.ListNode) (node : Z)
    : option (gmap Z CommonList.ListNode) :=
  h1 ← CommonList.ListDelInit h node; Some (delete node h1).

(** ** Lemmas *)

Definition is_byte (b : Z) : Prop := 0 <= b < 256.

(** The hexadecimal text of a byte sequence. *)
Definition hexify (bs : list Z) : list Z :=
  bs ≫= fun b => [hex_char (b / 16); hex_char (b mod 16)].

Lemma hexify_cons b bs :
  hexify (b :: bs) = hex_char (b / 16) :: hex_char (b mod 16) :: hexify bs.
Proof. reflexivity. Qed.

Lemma length_hexify bs : length (hexify bs) = (2 * length bs)%nat.
Proof. induction bs as [|b bs IH]; [done|]. rewrite hexify_cons. simpl. lia. Qed.

(** A decidable statement about all bytes below [n] holds when it computes. *)
Lemma forall_below (P : Z -> bool) (n : nat) b :
  forallb P (seqZ 0 (Z.of_nat n)) = true -> 0 <= b < Z.of_nat n -> P b = true.
Proof.
  intros H Hb. rewrite forallb_forall in H. apply H, list_elem_of_In, elem_of_seqZ. lia.
Qed.

Lemma hex_digit_char h : 0 <= h < 16 -> hex_digit (hex_char h) = Some h.
Proof.
  intros Hh. pose proof (forall_below
    (fun h => bool_decide (hex_digit (hex_char h) = Some h)) 16 h eq_refl Hh) as H.
  by apply bool_decide_eq_true in H.
Qed.

Lemma nibbles b : is_byte b -> u8 (Z.lor (Z.shiftl (b / 16) HEX_MAX_BIT_NUM) (b mod 16)) = b.
Proof.
  intros Hb. pose proof (forall_below
    (fun b => u8 (Z.lor (Z.shiftl (b / 16) HEX_MAX_BIT_NUM) (b mod 16)) =? b) 256 b eq_refl Hb) as H.
  by apply Z.eqb_eq in H.
Qed.

Lemma write_byte_app pre v0 v post :
  write_byte (pre ++ v0 :: post) (length pre) v = Some (pre ++ v :: post).
Proof.
  unfold write_byte. rewrite (proj2 (Nat.ltb_lt _ _)) by (rewrite length_app; simpl; lia).
  f_equal. rewrite insert_app_r_alt by lia. by rewrite Nat.sub_diag.
Qed.

Lemma write_two {A} (pre post : list A) a b :
  pre ++ a :: b :: post = (pre ++ [a; b]) ++ post.
Proof. by rewrite <- app_assoc. Qed.

Lemma bytes_to_hex_spec bs pre room post :
  length room = (2 * length bs)%nat ->
  bytes_to_hex_loop (length bs) (pre ++ room ++ post) (length pre) bs =
  Some (pre ++ hexify bs ++ post).
Proof.
  revert pre room. induction bs as [|b bs IH]; intros pre room Hr.
  { by destruct room. }
  destruct room as [|r1 [|r2 room]]; simpl in Hr; try lia.
  rewrite hexify_cons. simpl. rewrite write_byte_app. simpl.
  pose proof (write_byte_app (pre ++ [hex_char (b / HEX_MAX_NUM)]) r2
    (hex_char (b mod HEX_MAX_NUM)) (room ++ post)) as W.
  rewrite length_app, <- !app_assoc in W. simpl in W. rewrite Nat.add_1_r in W.
  rewrite W. simpl. rewrite (write_two pre (room ++ post)), (write_two pre (hexify bs ++ post)).
  replace (S (S (length pre))) with (length (pre ++ [hex_char (b / 16); hex_char (b mod 16)]))
    by (rewrite length_app; simpl; lia).
  by rewrite IH by lia.
Qed.

Lemma hex_to_bytes_spec bs pre room post tl :
  Forall is_byte bs -> length room = length bs ->
  hex_to_bytes_loop (length bs) (pre ++ room ++ post) (length pre) (hexify bs ++ tl) =
  Some (SOFTBUS_OK, pre ++ bs ++ post).
Proof.
  revert pre room. induction bs as [|b bs IH]; intros pre room Hb Hr.
  { by destruct room. }
  destruct room as [|r1 room]; simpl in Hr; try lia. apply Forall_cons in Hb as [Hb Hbs].
  rewrite hexify_cons. simpl.
  unfold is_byte in Hb. rewrite !hex_digit_char by (Z.div_mod_to_equations; lia).
  rewrite (proj2 (Nat.ltb_lt _ _)) by (rewrite length_app; simpl; lia).
  rewrite nibbles by done. rewrite insert_app_r_alt, Nat.sub_diag by lia. simpl.
  rewrite (cons_middle b), !app_assoc, <- (app_assoc (pre ++ [b])).
  replace (S (length pre)) with (length (pre ++ [b])) by (rewrite length_app; simpl; lia).
  rewrite IH by (done || lia). by rewrite <- !app_assoc.
Qed.

(** A digit error stops the conversion. *)
Lemma hex_to_bytes_bad bs pre room post bad tl n :
  Forall is_byte bs -> length room = length bs -> hex_digit bad = None -> (length bs < n)%nat ->
  hex_to_bytes_loop n (pre ++ room ++ post) (length pre) (hexify bs ++ bad :: tl) =
  Some (SOFTBUS_ERR, pre ++ bs ++ post).
Proof.
  revert pre room n. induction bs as [|b bs IH]; intros pre room n Hb Hr Hbad Hn;
    (destruct n as [|n]; [simpl in *; lia|]).
  { destruct room; [|done]. simpl. by rewrite Hbad. }
  destruct room as [|r1 room]; simpl in Hr; try lia. apply Forall_cons in Hb as [Hb Hbs].
  rewrite hexify_cons. simpl.
  unfold is_byte in Hb. rewrite !hex_digit_char by (Z.div_mod_to_equations; lia).
  rewrite (proj2 (Nat.ltb_lt _ _)) by (rewrite length_app; simpl; lia).
  rewrite nibbles by done. rewrite insert_app_r_alt, Nat.sub_diag by lia. simpl.
  rewrite (cons_middle b), !app_assoc, <- (app_assoc (pre ++ [b])).
  replace (S (length pre)) with (length (pre ++ [b])) by (rewrite length_app; simpl; lia).
  simpl in Hn. rewrite IH by (done || lia). by rewrite <- !app_assoc.
Qed.

Lemma ConvertBytesToHexString_ok bs out outBufLen :
  outBufLen = Z.of_nat (length out) -> 2 * Z.of_nat (length bs) + 1 <= outBufLen < 2 ^ 31 ->
  ConvertBytesToHexString (Some out) outBufLen (Some bs) (Z.of_nat (length bs)) =
  Some (SOFTBUS_OK, Some (hexify bs ++ drop (2 * length bs) out)).
Proof.
  intros -> Hlen. unfold ConvertBytesToHexString, HEXIFY_LEN, HEXIFY_UNIT_LEN.
  rewrite (i32_small (_ * 2)) by lia. rewrite i32_small by lia. rewrite u32_small by lia.
  replace (Z.of_nat (length out) <? _) with false by bool_lia. rewrite Nat2Z.id.
  pose proof (bytes_to_hex_spec bs [] (take (2 * length bs) out) (drop (2 * length bs) out)) as H.
  rewrite take_drop in H. cbn [app length] in H. rewrite H by (rewrite length_take; lia). done.
Qed.

(** ** Properties *)

(** hexadecimal round trip.  For every byte string and every text buffer
    of at least [2n+1] cells, [ConvertBytesToHexString] succeeds, writes [2n]
    digits and nothing else, and [ConvertHexStringToBytes] turns the text back
    into the bytes in any buffer of at least [n] cells. *)
Theorem hex_roundtrip bs out dst :
  Forall is_byte bs -> 2 * Z.of_nat (length bs) + 1 <= Z.of_nat (length out) < 2 ^ 31 ->
  (length bs <= length dst)%nat ->
  exists txt,
    ConvertBytesToHexString (Some out) (Z.of_nat (length out)) (Some bs) (Z.of_nat (length bs)) =
      Some (SOFTBUS_OK, Some txt) /\
    length txt = length out /\ drop (2 * length bs) txt = drop (2 * length bs) out /\
    ConvertHexStringToBytes (Some dst) (Z.of_nat (length dst)) (Some txt)
      (2 * Z.of_nat (length bs)) =
      Some (SOFTBUS_OK, Some (bs ++ drop (length bs) dst)).
Proof.
  intros Hb Hout Hdst. eexists. split; [by apply ConvertBytesToHexString_ok|].
  split. { rewrite length_app, length_hexify, length_drop. lia. }
  split. { by rewrite drop_app_length' by (by rewrite length_hexify). }
  unfold ConvertHexStringToBytes, UN_HEXIFY_LEN, HEXIFY_UNIT_LEN.
  rewrite Z.mul_comm, Z.rem_mul, Z.quot_mul by lia. cbn [negb Z.eqb].
  rewrite u32_small, Nat2Z.id by lia.
  pose proof (hex_to_bytes_spec bs [] (take (length bs) dst) (drop (length bs) dst)
    (drop (2 * length bs) out) Hb) as H.
  rewrite take_drop in H. cbn [app length] in H. rewrite H by (rewrite length_take; lia). done.
Qed.

(** random identifiers need an odd buffer size.  When the random source
    delivers the bytes it is asked for, [GenerateRandomStr] fails for every
    even length of 2 or more, and for every odd length it writes
    [len - 1] digits and leaves the last cell (the terminator) alone. *)
Theorem GenerateRandomStr_parity random str :
  (forall n, 0 <= n -> exists bs, random n = (SOFTBUS_OK, bs) /\ Z.of_nat (length bs) = n) ->
  let len := Z.of_nat (length str) in
  2 <= len < 2 ^ 31 ->
  (Z.even len = true ->
     GenerateRandomStr true random (Some str) len = Some (SOFTBUS_ERR, Some str)) /\
  (Z.odd len = true -> exists bs, random (len / 2) = (SOFTBUS_OK, bs) /\
     GenerateRandomStr true random (Some str) len =
       Some (SOFTBUS_OK, Some (hexify bs ++ drop (length str - 1) str))).
Proof.
  intros Hrandom len Hlen. destruct (Hrandom (len / 2)) as (bs & Er & El).
  { apply Z.div_pos; lia. }
  unfold GenerateRandomStr. change HEXIFY_UNIT_LEN with 2.
  replace (len <? 2) with false by lia. cbn [negb]. rewrite Er.
  rewrite <- El, i32_small by (rewrite El; Z.div_mod_to_equations; lia).
  cbn [negb Z.eqb SOFTBUS_OK]. split; intros Hpar.
  - apply Z.even_spec in Hpar as [k Hk].
    assert (Z.of_nat (length bs) = k) as Hbs by (rewrite El, Hk, Z.mul_comm; apply Z.div_mul; lia).
    unfold ConvertBytesToHexString, HEXIFY_LEN, HEXIFY_UNIT_LEN.
    rewrite (i32_small (_ * 2)) by lia.
    rewrite i32_small by lia. rewrite u32_small by lia.
    by replace (len <? _) with true by bool_lia.
  - apply Z.odd_spec in Hpar as [k Hk].
    assert (Z.of_nat (length bs) = k) as Hbs
      by (rewrite El, Hk; Z.div_mod_to_equations; lia).
    exists bs. split; [done|]. rewrite ConvertBytesToHexString_ok by lia.
    replace (length str - 1)%nat with (2 * length bs)%nat by lia. done.
Qed.

Lemma hex_roundtrip_witness :
  exists txt, ConvertBytesToHexString (Some [0; 0; 0; 0; 0]) 5 (Some [171; 5]) 2 =
    Some (SOFTBUS_OK, Some txt) /\
  ConvertHexStringToBytes (Some [0; 0; 9]) 3 (Some txt) 4 = Some (SOFTBUS_OK, Some [171; 5; 9]).
Proof.
  destruct (hex_roundtrip [171; 5] [0; 0; 0; 0; 0] [0; 0; 9]) as (txt & E & _ & _ & E').
  - repeat (constructor; [unfold is_byte; lia|]). constructor.
  - simpl. lia.
  - simpl. lia.
  - exists txt. split; [exact E|exact E'].
Defined.

Lemma GenerateRandomStr_parity_witness :
  GenerateRandomStr true (fun n => (SOFTBUS_OK, replicate (Z.to_nat n) 255)) (Some [0; 0; 0; 0]) 4 =
    Some (SOFTBUS_ERR, Some [0; 0; 0; 0]).
Proof.
  apply (GenerateRandomStr_parity (fun n => (SOFTBUS_OK, replicate (Z.to_nat n) 255)) [0; 0; 0; 0]).
  - intros n Hn. eexists. split; [reflexivity|]. rewrite length_replicate. lia.
  - simpl. lia.
  - reflexivity.
Defined.

End Utils.
