(* ===== verification/Looper.v ===== *)
(** * The message looper (core/common/message_handler/message_handler.c)

    A looper is a queue of messages ordered by due time, one thread that takes
    due messages and hands them to their handlers, and clients that post and
    remove messages or destroy the looper.  The queue operations are
    functions on the looper context; [loop_step] interleaves the critical
    sections of the thread, of the clients and of the destroying thread.
    Pointers to messages and handlers are addresses ([Z]). *)

From stdpp Require Import sorting.
From S2P Require Import Prelude.
#[local] Open Scope Z_scope.

Module Looper.

(** ** Data *)

Record SoftBusHandler := mkHandler { h_addr : Z; HandleMessage : option Z }.

Record SoftBusMessage := mkMessage {
  m_addr : Z;
  what : Z;
  arg1 : Z;
  arg2 : Z;
  time : Z;
  obj : Z;
  handler : option SoftBusHandler;
}.

Record SoftBusLooperContext := mkContext {
  msgHead : list SoftBusMessage;
  stop : bool;
  running : bool;
  currentMsg : option SoftBusMessage;
  msgSize : Z;
}.

#[export] Instance SoftBusHandler_eq_dec : EqDecision SoftBusHandler.
Proof. solve_decision. Defined.
#[export] Instance SoftBusMessage_eq_dec : EqDecision SoftBusMessage.
Proof. solve_decision. Defined.

Definition set_time (m : SoftBusMessage) (t : Z) : SoftBusMessage :=
  mkMessage (m_addr m) (what m) (arg1 m) (arg2 m) t (obj m) (handler m).
Definition set_msgs (c : SoftBusLooperContext) (l : list SoftBusMessage) (n : Z)
    : SoftBusLooperContext :=
  mkContext l (stop c) (running c) (currentMsg c) n.
Definition set_current (c : SoftBusLooperContext) (m : option SoftBusMessage)
    : SoftBusLooperContext :=
  mkContext (msgHead c) (stop c) (running c) m (msgSize c).
Definition set_running (c : SoftBusLooperContext) (b : bool) : SoftBusLooperContext :=
  mkContext (msgHead c) (stop c) b (currentMsg c) (msgSize c).
Definition set_stop (c : SoftBusLooperContext) (b : bool) : SoftBusLooperContext :=
  mkContext (msgHead c) b (running c) (currentMsg c) (msgSize c).

(** ** Time *)

Definition TIME_THOUSANDS_MULTIPLIER : Z := 1000.

Definition UptimeMicros (tv_sec tv_usec : Z) : Z :=
  u64 (u64 (u64 (u64 tv_sec * TIME_THOUSANDS_MULTIPLIER) * TIME_THOUSANDS_MULTIPLIER) + u64 tv_usec).

(** The absolute deadline given to [pthread_cond_timedwait]. *)
Definition wait_deadline (time : Z) : Z * Z :=
  (time / TIME_THOUSANDS_MULTIPLIER / TIME_THOUSANDS_MULTIPLIER,
   time mod (TIME_THOUSANDS_MULTIPLIER * TIME_THOUSANDS_MULTIPLIER) * TIME_THOUSANDS_MULTIPLIER).

(** ** Queue operations *)

(** The walk of [PostMessageAtTime] over the queue: before the first message
    with a later time, else at the tail. *)
Fixpoint insert_by_time (m : SoftBusMessage) (q : list SoftBusMessage) : list SoftBusMessage :=
  match q with
  | [] => [m]
  | x :: q' => if time x >? time m then m :: x :: q' else x :: insert_by_time m q'
  end.

(** What a call did besides changing the context: the messages it freed and
    whether it woke the threads waiting on [cond]. *)
Record effect := mkEffect { freed_msgs : list SoftBusMessage; broadcast : bool }.

(** [mem]: the node allocation succeeds; [lock]: the mutex is acquired. *)
Definition PostMessageAtTime (mem lock : bool) (c : SoftBusLooperContext) (msgPost : SoftBusMessage)
    : SoftBusLooperContext * effect :=
  match handler msgPost with
  | None => (c, mkEffect [msgPost] false)
  | Some _ =>
      if negb mem then (c, mkEffect [msgPost] false)
      else if negb lock then (c, mkEffect [msgPost] false)
      else if stop c then (c, mkEffect [msgPost] false)
      else (set_msgs c (insert_by_time msgPost (msgHead c)) (u32 (msgSize c + 1)),
            mkEffect [] true)
  end.

Definition LooperPostMessage (mem lock : bool) (now : Z) (c : SoftBusLooperContext)
    (msg : SoftBusMessage) : SoftBusLooperContext * effect :=
  PostMessageAtTime mem lock c (set_time msg (i64 now)).

Definition LooperPostMessageDelay (mem lock : bool) (now : Z) (c : SoftBusLooperContext)
    (msg : SoftBusMessage) (delayMillis : Z) : SoftBusLooperContext * effect :=
  PostMessageAtTime mem lock c
    (set_time msg (i64 (u64 (now + u64 (delayMillis * TIME_THOUSANDS_MULTIPLIER))))).

Definition WhatRemoveFunc (args : Z) (msg : SoftBusMessage) : Z :=
  let w := i32 args in if what msg =? w then 0 else 1.

Definition handler_is (m : SoftBusMessage) (h : Z) : bool :=
  match handler m with Some hd => h_addr hd =? h | None => false end.

(** The loop of [LoopRemoveMessageCustom]: kept messages, freed messages, size. *)
Fixpoint remove_loop (h : Z) (customFunc : SoftBusMessage -> Z) (q : list SoftBusMessage) (size : Z)
    : list SoftBusMessage * list SoftBusMessage * Z :=
  match q with
  | [] => ([], [], size)
  | m :: q' =>
      if handler_is m h && (customFunc m =? 0) then
        let '(kept, freed, n) := remove_loop h customFunc q' (u32 (size - 1)) in
        (kept, m :: freed, n)
      else
        let '(kept, freed, n) := remove_loop h customFunc q' size in
        (m :: kept, freed, n)
  end.

Definition LoopRemoveMessageCustom (lock : bool) (c : SoftBusLooperContext) (h : Z)
    (customFunc : SoftBusMessage -> Z) : SoftBusLooperContext * effect :=
  if negb lock then (c, mkEffect [] false)
  else if negb (running c) || stop c then (c, mkEffect [] false)
  else
    let '(kept, freed, n) := remove_loop h customFunc (msgHead c) (msgSize c) in
    (set_msgs c kept n, mkEffect freed false).

Definition LooperRemoveMessage (lock : bool) (c : SoftBusLooperContext) (h : Z) (w : Z)
    : SoftBusLooperContext * effect :=
  LoopRemoveMessageCustom lock c h (WhatRemoveFunc w).

(** ** The looper thread *)

(** Program points of [LoopTask]: before it marks itself running, at the top
    of the loop, waiting for a message, waiting for a due time, about to call
    the handler of a message, about to free it, after the loop, returned. *)
Inductive loop_pc :=
  | LStart
  | LTop
  | LWaitMsg
  | LWaitUntil (t : Z)
  | LHandle (m : SoftBusMessage)
  | LFree (m : SoftBusMessage)
  | LExit
  | LReturned.

(** The critical section at the top of the loop. *)
Definition loop_top (now : Z) (needDestroy : bool) (c : SoftBusLooperContext)
    : SoftBusLooperContext * loop_pc :=
  if stop c then (c, LExit)
  else if needDestroy then (c, LExit)
  else match msgHead c with
       | [] => (c, LWaitMsg)
       | m :: q =>
           if now >=? u64 (time m) then
             (set_current (set_msgs c q (u32 (msgSize c - 1))) (Some m), LHandle m)
           else (c, LWaitUntil (u64 (time m)))
       end.

(** ** Creation and the table of loopers *)

Definition LOOP_NAME_LEN : Z := 16.

(** [StartNewLooperThread] is [thread_ok]; [memcpy_s] refuses more than the
    destination size. *)
Definition CreateNewLooper (mem1 mem2 : bool) (name : list Z) (thread_ok : bool)
    : option SoftBusLooperContext :=
  if negb mem1 then None
  else if negb mem2 then None
  else if Z.of_nat (length name) >? LOOP_NAME_LEN then None
  else if negb thread_ok then None
  else Some (mkContext [] false false None 0).

Definition LOOP_TYPE_DEFAULT : Z := 1.
Definition LOOP_TYPE_BR_SEND : Z := 2.
Definition LOOP_TYPE_BR_RECV : Z := 3.
Definition LOOP_TYPE_P2P : Z := 4.

(** [g_loopConfig]: (type, looper), a looper being its address. *)
Definition loop_config := list (Z * option Z).
Definition g_loopConfig : loop_config :=
  [(LOOP_TYPE_DEFAULT, None); (LOOP_TYPE_BR_SEND, None); (LOOP_TYPE_BR_RECV, None);
   (LOOP_TYPE_P2P, None)].

Fixpoint GetLooper (cfg : loop_config) (type : Z) : option Z :=
  match cfg with
  | [] => None
  | (t, l) :: cfg => if t =? type then l else GetLooper cfg type
  end.

Definition SetLooper (cfg : loop_config) (type : Z) (looper : option Z) : loop_config :=
  map (fun p => if p.1 =? type then (p.1, looper) else p) cfg.

Fixpoint ReleaseLooper (cfg : loop_config) (looper : Z) : loop_config :=
  match cfg with
  | [] => []
  | (t, l) :: cfg =>
      if decide (l = Some looper) then (t, None) :: cfg
      else (t, l) :: ReleaseLooper cfg looper
  end.

Definition LooperInit (created : option Z) (cfg : loop_config) : Z * loop_config :=
  match created with
  | None => (-1, cfg)
  | Some l => (0, SetLooper cfg LOOP_TYPE_DEFAULT (Some l))
  end.

(** [LooperDeinit]: the loopers it destroys, the table it leaves and whether
    it set [g_isNeedDestroy] instead. *)
Definition deinit_slot (started : bool) (acc : list Z * loop_config * bool) (i : nat)
    : list Z * loop_config * bool :=
  let '(destroyed, cfg, need) := acc in
  if need then acc
  else match cfg !! i with
       | Some (_, Some l) =>
           if negb started then (destroyed, cfg, true)
           else (destroyed ++ [l], ReleaseLooper cfg l, false)
       | _ => acc
       end.

Definition LooperDeinit (started : bool) (cfg : loop_config) : list Z * loop_config * bool :=
  foldl (deinit_slot started) ([], cfg, false) (seq 0 (length cfg)).

(** ** The concurrent system *)

(** The destroying thread: not called, waiting for [running == 0], done. *)
Inductive destroy_pc := DIdle | DWait | DDone.

Record lstate := mkState {
  ctx : SoftBusLooperContext;
  lpc : loop_pc;
  dpc : destroy_pc;
  g_isNeedDestroy : bool;
  g_isThreadStarted : bool;
  posted : list SoftBusMessage;                (* ghost: every message given to a post *)
  handled : list (Z * SoftBusMessage);         (* ghost: clock and message of each take *)
  freed : list SoftBusMessage;                 (* ghost: every message freed *)
}.

Definition wake (p : loop_pc) : loop_pc :=
  match p with LWaitMsg | LWaitUntil _ => LTop | _ => p end.

Definition apply_effect (s : lstate) (c : SoftBusLooperContext) (e : effect)
    (new : list SoftBusMessage) : lstate :=
  mkState c (if broadcast e then wake (lpc s) else lpc s) (dpc s) (g_isNeedDestroy s)
    (g_isThreadStarted s) (posted s ++ new) (handled s) (freed s ++ freed_msgs e).

Definition with_pc (s : lstate) (c : SoftBusLooperContext) (p : loop_pc) : lstate :=
  mkState c p (dpc s) (g_isNeedDestroy s) (g_isThreadStarted s) (posted s) (handled s) (freed s).

Definition with_take (s : lstate) (now : Z) (m : SoftBusMessage) : lstate :=
  mkState (ctx s) (lpc s) (dpc s) (g_isNeedDestroy s) (g_isThreadStarted s) (posted s)
    (handled s ++ [(now, m)]) (freed s).

(** One step of the thread running [LoopTask]; it may be woken at any time
    ([pthread_cond_wait] allows spurious wake-ups). *)
Inductive thread_step (s : lstate) : lstate -> Prop :=
  | t_start : lpc s = LStart ->
      thread_step s (mkState (set_running (ctx s) true) LTop (dpc s) (g_isNeedDestroy s) true
        (posted s) (handled s) (freed s))
  | t_lock_fail : lpc s = LStart \/ lpc s = LTop -> thread_step s (with_pc s (ctx s) LReturned)
  | t_top now c p : lpc s = LTop -> loop_top now (g_isNeedDestroy s) (ctx s) = (c, p) ->
      thread_step s (match p with
                     | LHandle m => with_take (with_pc s c p) now m
                     | _ => with_pc s c p
                     end)
  | t_wake : wake (lpc s) = LTop -> thread_step s (with_pc s (ctx s) LTop)
  | t_handle m : lpc s = LHandle m -> thread_step s (with_pc s (ctx s) (LFree m))
  | t_free m : lpc s = LFree m ->
      thread_step s (mkState (set_current (ctx s) None) LTop (dpc s) (g_isNeedDestroy s)
        (g_isThreadStarted s) (posted s) (handled s) (freed s ++ [m]))
  | t_exit : lpc s = LExit ->
      thread_step s (with_pc s (set_running (ctx s) false) LReturned).

(** One critical section of a client.  Clients hold the looper: they do not
    call it once [DestroyLooper] has returned. *)
Inductive client_step (s : lstate) : lstate -> Prop :=
  | c_post mem lock now m c e : dpc s <> DDone ->
      LooperPostMessage mem lock now (ctx s) m = (c, e) ->
      client_step s (apply_effect s c e [set_time m (i64 now)])
  | c_post_delay mem lock now m d c e : dpc s <> DDone ->
      LooperPostMessageDelay mem lock now (ctx s) m d = (c, e) ->
      client_step s (apply_effect s c e
        [set_time m (i64 (u64 (now + u64 (d * TIME_THOUSANDS_MULTIPLIER))))])
  | c_remove lock h f c e : dpc s <> DDone ->
      LoopRemoveMessageCustom lock (ctx s) h f = (c, e) ->
      client_step s (apply_effect s c e []).

(** The steps of [DestroyLooper] and of [LooperDeinit] on this looper. *)
Inductive destroy_step (s : lstate) : lstate -> Prop :=
  | d_not_started : dpc s = DIdle -> g_isThreadStarted s = false ->
      destroy_step s (mkState (ctx s) (lpc s) DIdle true false (posted s) (handled s) (freed s))
  | d_stop : dpc s = DIdle ->
      destroy_step s (mkState (set_stop (ctx s) true) (wake (lpc s)) DWait (g_isNeedDestroy s)
        (g_isThreadStarted s) (posted s) (handled s) (freed s))
  | d_free : dpc s = DWait -> running (ctx s) = false ->
      destroy_step s (mkState (set_msgs (ctx s) [] (msgSize (ctx s))) (lpc s) DDone
        (g_isNeedDestroy s) (g_isThreadStarted s) (posted s) (handled s)
        (freed s ++ msgHead (ctx s))).

(** The looper context is gone once [DestroyLooper] is done: what a thread
    that still uses it would do is undefined, so the thread steps only before. *)
Definition loop_step (s s' : lstate) : Prop :=
  (dpc s <> DDone /\ thread_step s s') \/ client_step s s' \/ destroy_step s s'.

Definition linit : lstate :=
  mkState (mkContext [] false false None 0) LStart DIdle false false [] [] [].

Definition reachable (s : lstate) : Prop := rtc loop_step linit s.

(** The thread is about to use a context that was freed. *)
Definition use_after_free (s : lstate) : Prop := dpc s = DDone /\ lpc s <> LReturned.

(** ** Sorted, stable insertion *)

Definition earlier (x y : SoftBusMessage) : Prop := time x <= time y.

Lemma insert_by_time_perm m q : insert_by_time m q ≡ₚ m :: q.
Proof.
  induction q as [|x q IH]; [done|]. simpl. case_if; [done|]. rewrite IH. constructor.
Qed.

Lemma insert_by_time_sorted m q :
  StronglySorted earlier q -> StronglySorted earlier (insert_by_time m q).
Proof.
  induction 1 as [|x q Hs IH Hall]; simpl; [by repeat constructor|].
  unfold earlier in *. case_if.
  - constructor; [by constructor|]. constructor; [lia|].
    eapply Forall_impl; [exact Hall|]. simpl. lia.
  - constructor; [done|]. rewrite insert_by_time_perm. constructor; [lia|done].
Qed.

(** Messages of one due time keep their posting order. *)
Lemma insert_by_time_stable m q t : StronglySorted earlier q ->
  filter (fun x => time x = t) (insert_by_time m q) =
  filter (fun x => time x = t) q ++ filter (fun x => time x = t) [m].
Proof.
  induction 1 as [|x q Hs IH Hall]; simpl; [done|].
  case_if.
  - rewrite !(filter_cons _ m). case_decide as E; [|by rewrite app_nil_r].
    rewrite (filter_none _ (x :: q)); [done|]. intros y Hy Ey. unfold earlier in Hall.
    apply elem_of_cons in Hy as [->|Hy]; [lia|]. rewrite Forall_forall in Hall.
    specialize (Hall y Hy). lia.
  - rewrite !(filter_cons _ x). case_decide; by rewrite IH.
Qed.


(** ** Removal *)

Lemma sorted_filter (P : SoftBusMessage -> Prop) `{!forall x, Decision (P x)} q :
  StronglySorted earlier q -> StronglySorted earlier (filter P q).
Proof.
  induction 1 as [|x q Hs IH Hall]; [constructor|]. rewrite filter_cons. case_decide; [|done].
  constructor; [done|]. by apply Forall_filter.
Qed.

Definition hit (h : Z) (f : SoftBusMessage -> Z) (m : SoftBusMessage) : bool :=
  handler_is m h && (f m =? 0).

Lemma remove_loop_spec h f q n kept fr n' :
  remove_loop h f q n = (kept, fr, n') ->
  kept = filter (fun m => hit h f m = false) q /\ fr = filter (fun m => hit h f m = true) q /\
  u32 n' = u32 (n - Z.of_nat (length fr)) /\ (u32 n = n -> u32 n' = n').
Proof.
  revert n kept fr n'. induction q as [|m q IH]; intros n kept fr n' E; simpl in E.
  { simplify_eq. simpl. rewrite Z.sub_0_r. done. }
  rewrite !filter_cons. fold (hit h f m) in E. destruct (hit h f m) eqn:Eh.
  - destruct (remove_loop h f q _) as [[kept0 fr0] n0] eqn:Er. simplify_eq.
    destruct (IH _ _ _ _ Er) as (-> & -> & Hn & Hn'). simpl.
    split_and!; try done; [|intros _; by apply Hn', u32_idem].
    rewrite Hn, Nat2Z.inj_succ. unfold Z.succ. wrap_lia.
  - destruct (remove_loop h f q n) as [[kept0 fr0] n0] eqn:Er. simplify_eq.
    by destruct (IH _ _ _ _ Er) as (-> & -> & Hn & Hn').
Qed.

Lemma filter_bool_perm {A} (p : A -> bool) (l : list A) :
  l ≡ₚ filter (fun x => p x = true) l ++ filter (fun x => p x = false) l.
Proof.
  induction l as [|x l IH]; [done|]. rewrite !filter_cons. destruct (p x); simpl.
  - by rewrite <- IH.
  - rewrite <- Permutation_middle. by rewrite <- IH.
Qed.

Lemma filter_length_bool {A} (p : A -> bool) (l : list A) :
  length l = (length (filter (fun x => p x = true) l) +
              length (filter (fun x => p x = false) l))%nat.
Proof. by rewrite <- length_app, <- filter_bool_perm. Qed.

(** ** The invariant *)

Definition inflight (p : loop_pc) : list SoftBusMessage :=
  match p with LHandle m | LFree m => [m] | _ => [] end.

Definition nonneg (m : SoftBusMessage) : Prop := 0 <= time m < 2 ^ 63.

(** What a waiting thread knows: there is nothing it could do now. *)
Definition wait_inv (s : lstate) : Prop :=
  match lpc s with
  | LWaitMsg => msgHead (ctx s) = [] /\ stop (ctx s) = false
  | LWaitUntil t => stop (ctx s) = false /\
      (Forall nonneg (posted s) -> Forall (fun m => t <= u64 (time m)) (msgHead (ctx s)))
  | _ => True
  end.

Record linv (s : lstate) : Prop := {
  li_sorted : StronglySorted earlier (msgHead (ctx s));
  li_size : dpc s <> DDone -> msgSize (ctx s) = u32 (Z.of_nat (length (msgHead (ctx s))));
  li_perm : posted s ≡ₚ freed s ++ inflight (lpc s) ++ msgHead (ctx s);
  li_early : Forall (fun p => u64 (time p.2) <= p.1) (handled s);
  li_wait : wait_inv s;
  li_run : lpc s <> LReturned -> (running (ctx s) = false <-> lpc s = LStart);
  li_started : lpc s = LStart -> g_isThreadStarted s = false;
  li_stop : dpc s <> DIdle -> stop (ctx s) = true;
  li_done : dpc s = DDone -> msgHead (ctx s) = [] /\ (lpc s = LStart \/ lpc s = LReturned);
}.

Lemma linv_init : linv linit.
Proof. split; simpl; try done; by constructor. Qed.

Lemma wake_top s : linv s -> wake (lpc s) = LTop -> lpc s <> LReturned /\ lpc s <> LStart /\ inflight (lpc s) = [].
Proof. intros _ H. by destruct (lpc s). Qed.

Lemma inflight_wake p : inflight (wake p) = inflight p.
Proof. by destruct p. Qed.
Lemma wake_start p : wake p = LStart <-> p = LStart.
Proof. by destruct p. Qed.
Lemma wake_returned p : wake p = LReturned <-> p = LReturned.
Proof. by destruct p. Qed.

Lemma wait_inv_wake s c d nd ts po ha fr :
  wait_inv (mkState c (wake (lpc s)) d nd ts po ha fr).
Proof. unfold wait_inv. simpl. by destruct (lpc s). Qed.

(** The side conditions on program points. *)
Ltac run_absurd :=
  match goal with
  | Hr : _ -> (running ?c = false <-> _), F : running ?c = false |- _ =>
      apply Hr in F; congruence
  end.
Ltac lsolve :=
  simpl in *; intros; try done; try congruence;
  try (split; intros; first [done | congruence | run_absurd]); try tauto.

Lemma linv_pc s p :
  linv s -> inflight p = inflight (lpc s) -> wait_inv (with_pc s (ctx s) p) ->
  (p <> LReturned -> (running (ctx s) = false <-> p = LStart)) ->
  (p = LStart -> g_isThreadStarted s = false) ->
  (dpc s = DDone -> p = LStart \/ p = LReturned) -> linv (with_pc s (ctx s) p).
Proof. intros [] Ei Hw Hr Hs Hd. split; simpl; try done; [by rewrite Ei|]. intros D.
  split; [by apply li_done0|by apply Hd].
Qed.

Lemma loop_top_inv s now c p : linv s -> dpc s <> DDone -> lpc s = LTop ->
  loop_top now (g_isNeedDestroy s) (ctx s) = (c, p) ->
  linv (match p with LHandle m => with_take (with_pc s c p) now m | _ => with_pc s c p end).
Proof.
  intros Hi Hd E Et. pose proof Hi as []. rewrite E in *. simpl in *.
  assert (running (ctx s) <> false) as Hrun by (intros Hf; by apply li_run0 in Hf).
  unfold loop_top in Et. destruct (stop (ctx s)) eqn:Es; [|destruct (g_isNeedDestroy s)].
  1, 2: simplify_eq; apply linv_pc; rewrite ?E; lsolve.
  destruct (msgHead (ctx s)) as [|m q] eqn:Eq.
  { simplify_eq. apply linv_pc; rewrite ?E; lsolve. }
  destruct (now >=? u64 (time m)) eqn:En; simplify_eq; simpl.
  - apply StronglySorted_inv in li_sorted0 as [Hsort _].
    split; simpl; try done; try lsolve.
    + rewrite li_size0 by done. rewrite Nat2Z.inj_succ. unfold Z.succ.
      wrap_lia.
    + apply Forall_app. split; [done|]. apply Forall_singleton. simpl. lia.
    + rewrite Es. by apply li_stop0.
  - apply linv_pc; rewrite ?E; try done; try lsolve. unfold wait_inv. simpl.
    rewrite Es, Eq. split; [done|]. intros Hnn. rewrite li_perm0 in Hnn.
    apply Forall_app in Hnn as [_ Hnn]. simpl in Hnn.
    apply StronglySorted_inv in li_sorted0 as [_ Hall].
    apply Forall_cons in Hnn as [Hm Hq]. unfold nonneg, earlier in *.
    constructor; [lia|]. rewrite Forall_forall in Hall, Hq |- *. intros x Hx.
    specialize (Hall x Hx). specialize (Hq x Hx). simpl in *.
    rewrite !wrap_small by lia. done.
Qed.

Lemma thread_step_inv s s' : linv s -> dpc s <> DDone -> thread_step s s' -> linv s'.
Proof.
  intros Hi Hd Hs. pose proof Hi as [].
  destruct Hs as [E|E|now c p E Et|E|m E|m E|E]; [..|by apply loop_top_inv| | | |]; try rewrite E in *.
  - split; simpl; done.
  - apply linv_pc; try done. by destruct E as [->| ->].
  - apply (wake_top s Hi) in E as (? & ? & ?). apply linv_pc; lsolve.
  - apply linv_pc; rewrite ?E; lsolve.
  - split; simpl; lsolve. rewrite li_perm0. by rewrite <- app_assoc.
  - split; simpl; lsolve.
Qed.

Lemma PostMessageAtTime_inv s mem lock m c e :
  linv s -> dpc s <> DDone -> PostMessageAtTime mem lock (ctx s) m = (c, e) ->
  linv (apply_effect s c e [m]).
Proof.
  intros Hi Hd E. pose proof Hi as []. unfold PostMessageAtTime in E.
  assert (linv (apply_effect s (ctx s) (mkEffect [m] false) [m])) as Hfree.
  { split; simpl; lsolve.
    - by apply perm_snoc_l.
    - unfold wait_inv in *. simpl. destruct (lpc s); try done. destruct li_wait0 as [? Hw].
      split; [done|]. intros Hnn. apply Hw. by apply Forall_app in Hnn as [? _]. }
  destruct (handler m); [|by simplify_eq].
  destruct mem; [|by simplify_eq/=]. destruct lock; [|by simplify_eq/=]. simpl in E.
  destruct (stop (ctx s)) eqn:Es; simplify_eq; [done|].
  split; simpl; rewrite ?inflight_wake, ?wake_start, ?wake_returned; lsolve.
  - by apply insert_by_time_sorted.
  - rewrite li_size0 by done. rewrite (Permutation_length (insert_by_time_perm _ _)).
    simpl length. rewrite Nat2Z.inj_succ. unfold Z.succ. wrap_lia.
  - rewrite insert_by_time_perm, app_nil_r. by apply perm_snoc_r.
  - apply wait_inv_wake.
  - rewrite Es. by apply li_stop0.
Qed.

Lemma apply_effect_id s : apply_effect s (ctx s) (mkEffect [] false) [] = s.
Proof. destruct s. unfold apply_effect. simpl. by rewrite !app_nil_r. Qed.

Lemma Remove_inv s lock h f c e :
  linv s -> dpc s <> DDone -> LoopRemoveMessageCustom lock (ctx s) h f = (c, e) ->
  linv (apply_effect s c e []).
Proof.
  intros Hi Hd E. pose proof Hi as []. unfold LoopRemoveMessageCustom in E.
  assert (linv (apply_effect s (ctx s) (mkEffect [] false) [])) as Hid.
  { by rewrite apply_effect_id. }
  destruct lock; [|by simplify_eq/=]. simpl in E.
  destruct (negb (running (ctx s)) || stop (ctx s)); simplify_eq; [done|].
  destruct (remove_loop h f (msgHead (ctx s)) (msgSize (ctx s))) as [[kept fr] n] eqn:Er.
  simplify_eq. destruct (remove_loop_spec _ _ _ _ _ _ _ Er) as (-> & -> & Hn & Hn').
  pose proof (filter_bool_perm (hit h f) (msgHead (ctx s))) as Hperm.
  split; simpl; rewrite ?app_nil_r; lsolve.
  - by apply sorted_filter.
  - rewrite <- Hn' by (rewrite li_size0 by done; apply u32_idem). rewrite Hn, li_size0 by done.
    rewrite (filter_length_bool (hit h f) (msgHead (ctx s))) at 1. wrap_lia.
  - rewrite li_perm0. rewrite Hperm at 1. rewrite <- !app_assoc.
    by rewrite !(Permutation_app_comm (inflight (lpc s))), <- !app_assoc.
  - unfold wait_inv in *. simpl. destruct (lpc s); try done.
    + destruct li_wait0 as [-> ?]. done.
    + destruct li_wait0 as [? Hw]. split; [done|]. intros Hnn. apply Forall_filter, Hw.
      by rewrite app_nil_r in Hnn.
Qed.


Lemma client_step_inv s s' : linv s -> client_step s s' -> linv s'.
Proof.
  intros Hi [mem lock now m c e Hd E|mem lock now m d c e Hd E|lock h f c e Hd E].
  - by eapply PostMessageAtTime_inv.
  - by eapply PostMessageAtTime_inv.
  - by eapply Remove_inv.
Qed.

Lemma destroy_step_inv s s' : linv s -> destroy_step s s' -> linv s'.
Proof.
  intros Hi Hs. pose proof Hi as []. destruct Hs as [E Hs|E|E Hr].
  - split; simpl; rewrite ?E in *; lsolve.
  - split; simpl; rewrite ?inflight_wake, ?wake_start, ?wake_returned; rewrite ?E in *; lsolve.
    + by apply li_size0.
    + apply wait_inv_wake.
  - assert (lpc s = LStart \/ lpc s = LReturned) as Hp.
    { destruct (lpc s) eqn:El; try (by left); try (by right);
        exfalso; by apply li_run0 in Hr. }
    split; simpl; rewrite ?E in *; lsolve.
    + constructor.
    + rewrite li_perm0. destruct Hp as [-> | ->]; simpl; by rewrite app_nil_r.
    + unfold wait_inv. simpl. by destruct Hp as [-> | ->].
    + by apply li_stop0.
Qed.

Lemma reachable_linv s : reachable s -> linv s.
Proof.
  revert s. apply (rtc_ind_r (R := loop_step) linv linit); [apply linv_init|].
  intros y z _ Hyz Hi. destruct Hyz as [[Hd Ht]|[Hc|Hs]].
  - by eapply thread_step_inv.
  - by eapply client_step_inv.
  - by eapply destroy_step_inv.
Qed.

(** ** The interface its clients use

    The operations of [struct SoftBusLooper] on an abstract looper state and
    what they promise: a post either frees the message or adds exactly it to
    the queue; a removal either does nothing or removes and frees exactly the
    messages of the handler that the function selects; the thread takes the
    first message, when it is due. *)

Class LooperOps (L : Type) := {
  lo_queue : L -> list SoftBusMessage;
  lo_post : bool -> bool -> Z -> L -> SoftBusMessage -> L * effect;
  lo_post_delay : bool -> bool -> Z -> L -> SoftBusMessage -> Z -> L * effect;
  lo_remove : bool -> L -> Z -> (SoftBusMessage -> Z) -> L * effect;
  lo_take : Z -> L -> option (SoftBusMessage * L);
}.

(** [l'] is [l] with [m] queued and nothing freed, or [m] was freed. *)
Definition posted_ok `{LooperOps L} (l l' : L) (e : effect) (m : SoftBusMessage) : Prop :=
  (freed_msgs e = [m] /\ lo_queue l' = lo_queue l) \/
  (freed_msgs e = [] /\
   exists pre post, lo_queue l = pre ++ post /\ lo_queue l' = pre ++ m :: post).

Class LooperLaws (L : Type) `{LooperOps L} := {
  lo_post_law mem lock now l m l' e : lo_post mem lock now l m = (l', e) ->
    exists t, posted_ok l l' e (set_time m t);
  lo_post_delay_law mem lock now l m d l' e : lo_post_delay mem lock now l m d = (l', e) ->
    exists t, posted_ok l l' e (set_time m t);
  lo_remove_law lock l h f l' e : lo_remove lock l h f = (l', e) ->
    (freed_msgs e = [] /\ lo_queue l' = lo_queue l) \/
    (freed_msgs e = filter (fun m => hit h f m = true) (lo_queue l) /\
     lo_queue l' = filter (fun m => hit h f m = false) (lo_queue l));
  lo_take_law now l m l' : lo_take now l = Some (m, l') ->
    lo_queue l = m :: lo_queue l' /\ u64 (time m) <= now;
}.

#[export] Instance context_ops : LooperOps SoftBusLooperContext := {
  lo_queue := msgHead;
  lo_post := LooperPostMessage;
  lo_post_delay := LooperPostMessageDelay;
  lo_remove := LoopRemoveMessageCustom;
  lo_take now c :=
    match loop_top now false c with (c', LHandle m) => Some (m, c') | _ => None end;
}.

Lemma insert_by_time_split m q :
  exists pre post, q = pre ++ post /\ insert_by_time m q = pre ++ m :: post.
Proof.
  induction q as [|x q (pre & post & Eq & Ei)]; [by exists [], []|]. simpl. case_if.
  - by exists [], (x :: q).
  - exists (x :: pre), post. simpl. split; by f_equal.
Qed.

Lemma PostMessageAtTime_ok mem lock c m c' e :
  PostMessageAtTime mem lock c m = (c', e) -> posted_ok c c' e m.
Proof.
  intros E. unfold PostMessageAtTime in E.
  destruct (handler m); [|simplify_eq; by left].
  destruct mem, lock; simplify_eq/=; try (by left).
  destruct (stop c); simplify_eq; [by left|]. right. split; [done|]. apply insert_by_time_split.
Qed.

#[export] Instance context_laws : LooperLaws SoftBusLooperContext.
Proof.
  split.
  - intros mem lock now l m l' e E. eexists. exact (PostMessageAtTime_ok _ _ _ _ _ _ E).
  - intros mem lock now l m d l' e E. eexists. exact (PostMessageAtTime_ok _ _ _ _ _ _ E).
  - intros lock l h f l' e E. unfold lo_remove in E. simpl in E.
    unfold LoopRemoveMessageCustom in E. destruct lock; simplify_eq/=; [|by left].
    destruct (_ || _); simplify_eq/=; [by left|].
    destruct (remove_loop _ _ _ _) as [[kept fr] n] eqn:Er. simplify_eq/=.
    apply remove_loop_spec in Er as (-> & -> & _). by right.
  - intros now l m l' E. unfold lo_take in E. simpl in E. unfold loop_top in E.
    destruct (stop l); [done|]. simpl. destruct (msgHead l) as [|x q] eqn:Eq; [done|].
    destruct (now >=? u64 (time x)) eqn:En; simplify_eq/=. split; [done|lia].
Qed.

(** ** Properties *)

(** ordered, stable queue.  Posting any messages one after the other into
    an empty queue leaves it sorted by due time, with the same messages, and
    with messages of equal due time in the order in which they were posted. *)
Theorem post_order ms :
  let q := foldl (fun q m => insert_by_time m q) [] ms in
  StronglySorted earlier q /\ q ≡ₚ ms /\
  forall t, filter (fun m => time m = t) q = filter (fun m => time m = t) ms.
Proof.
  simpl. induction ms as [|m ms (Hs & Hp & Hf)] using rev_ind; [by repeat constructor|].
  rewrite foldl_snoc. split; [by apply insert_by_time_sorted|]. split.
  - rewrite insert_by_time_perm, Hp. apply Permutation_cons_append.
  - intros t. by rewrite insert_by_time_stable, filter_app, Hf.
Qed.

(** C33: no message is lost or freed twice.  In every reachable state the
    messages given to the looper are exactly those freed, the one being
    handled and those still queued; the queue is sorted by due time, [msgSize]
    is its length while the looper exists, and no message was ever taken
    before its due time. *)
Theorem looper_conservation s : reachable s ->
  posted s ≡ₚ freed s ++ inflight (lpc s) ++ msgHead (ctx s) /\
  StronglySorted earlier (msgHead (ctx s)) /\
  (dpc s <> DDone -> msgSize (ctx s) = u32 (Z.of_nat (length (msgHead (ctx s))))) /\
  Forall (fun p => u64 (time p.2) <= p.1) (handled s).
Proof. intros Hr. by destruct (reachable_linv s Hr). Qed.

(** C34: no lost wake-up.  When the thread sleeps without a deadline the queue
    is empty and no stop was requested; when it sleeps until [t] no stop was
    requested and (for due times that fit in 63 bits) no queued message is due
    before [t]. *)
Theorem looper_no_lost_wakeup s : reachable s -> Forall nonneg (posted s) ->
  (lpc s = LWaitMsg -> msgHead (ctx s) = [] /\ stop (ctx s) = false) /\
  (forall t, lpc s = LWaitUntil t ->
     stop (ctx s) = false /\ Forall (fun m => t <= u64 (time m)) (msgHead (ctx s))).
Proof.
  intros Hr Hn. destruct (reachable_linv s Hr). unfold wait_inv in li_wait0. split.
  - intros E. by rewrite E in li_wait0.
  - intros t E. rewrite E in li_wait0. naive_solver.
Qed.

(** destruction.  When [DestroyLooper] has returned, the queue is empty
    and, if the looper thread had started, it has left [LoopTask] and every
    message ever posted was freed. *)
Theorem destroy_complete s : reachable s -> dpc s = DDone -> g_isThreadStarted s = true ->
  ~ use_after_free s /\ freed s ≡ₚ posted s.
Proof.
  intros Hr Hd Hst. destruct (reachable_linv s Hr). destruct (li_done0 Hd) as [Hq [Hp|Hp]].
  { rewrite li_started0 in Hst by done. done. }
  split; [by intros [_ ?]|]. rewrite li_perm0, Hp, Hq. by rewrite app_nil_r.
Qed.

(** a looper destroyed before its thread has run is freed under it:
    [running] is 0 until the thread sets it, so [DestroyLooper] does not wait,
    and the thread then uses the freed context. *)
Theorem destroy_before_start_use_after_free : exists s, reachable s /\ use_after_free s.
Proof.
  eexists. split.
  - eapply rtc_l; [right; right; by apply d_stop|]. eapply rtc_once.
    right. right. by apply d_free.
  - done.
Qed.

(** ** Witnesses *)

Definition h1 : SoftBusHandler := mkHandler 1 (Some 1).
Definition m1 : SoftBusMessage := mkMessage 10 0 0 0 5 0 (Some h1).

Definition s_top : lstate :=
  mkState (mkContext [] false true None 0) LTop DIdle false true [] [] [].
(** The thread has started and waits for a message. *)
Definition s_wait : lstate :=
  mkState (mkContext [] false true None 0) LWaitMsg DIdle false true [] [] [].

Lemma s_wait_reachable : reachable s_wait.
Proof.
  apply (rtc_l _ _ s_top); [left; split; [done|by apply (t_start linit)]|].
  apply rtc_once. left. split; [done|exact (t_top s_top 0 (ctx s_top) LWaitMsg eq_refl eq_refl)].
Qed.

Lemma looper_conservation_witness :
  posted s_wait ≡ₚ freed s_wait ++ inflight (lpc s_wait) ++ msgHead (ctx s_wait).
Proof. apply (looper_conservation s_wait s_wait_reachable). Defined.

Lemma looper_no_lost_wakeup_witness :
  msgHead (ctx s_wait) = [] /\ stop (ctx s_wait) = false.
Proof.
  apply (looper_no_lost_wakeup s_wait s_wait_reachable).
  - constructor.
  - reflexivity.
Defined.

(** A message is posted while the thread waits, then the looper is destroyed. *)
Definition s_destroyed : lstate :=
  mkState (mkContext [] true false None 1) LReturned DDone false true [m1] [] [m1].

Definition s_posted : lstate :=
  mkState (mkContext [m1] false true None 1) LTop DIdle false true [m1] [] [].
Definition s_stopping (running : bool) (p : loop_pc) : lstate :=
  mkState (mkContext [m1] true running None 1) p DWait false true [m1] [] [].

Lemma s_destroyed_reachable : reachable s_destroyed.
Proof.
  unfold reachable. etrans; [apply s_wait_reachable|].
  apply (rtc_l _ _ s_posted).
  { right. left. exact (c_post s_wait true true 5 m1 _ _ ltac:(done) eq_refl). }
  apply (rtc_l _ _ (s_stopping true LTop)); [right; right; by apply (d_stop s_posted)|].
  apply (rtc_l _ _ (s_stopping true LExit)).
  { left. split; [done|]. exact (t_top (s_stopping true LTop) 0 _ LExit eq_refl eq_refl). }
  apply (rtc_l _ _ (s_stopping false LReturned)).
  { left. split; [done|]. by apply (t_exit (s_stopping true LExit)). }
  apply rtc_once. right. right. by apply (d_free (s_stopping false LReturned)).
Qed.

Lemma destroy_complete_witness : ~ use_after_free s_destroyed /\ freed s_destroyed ≡ₚ [m1].
Proof. by apply (destroy_complete s_destroyed s_destroyed_reachable). Defined.

End Looper.
