(* ===== verification/LnnStateMachine.v ===== *)
(** * The LNN state-machine engine (core/bus_center/lnn/net_builder/src/lnn_state_machine.c)

    A machine owns a set of registered states, a current state and a running
    flag; all its work is done in messages posted to a looper.  The engine is
    modelled against the looper interface [LooperOps]/[LooperLaws], so its
    theorems hold for every looper that keeps that contract.  The callbacks of
    the states are not part of this code: a callback is a list of the
    operations it performs on its machine ([fsm_action]), and nested
    transitions (an [enter] that changes the state again) are followed with
    fuel. *)

From S2P Require Import Prelude.
From S2P Require Import Looper.

Module LnnStateMachine.
Import Looper.

(** ** Data *)

Definition FSM_FLAG_RUNNING : Z := 1.
Definition FSM_CTRL_MSG_START : Z := 0.
Definition FSM_CTRL_MSG_DATA : Z := 1.
Definition FSM_CTRL_MSG_STOP : Z := 2.
Definition FSM_CTRL_MSG_DEINIT : Z := 3.

(** What the outside world decides when a message is built and posted: the
    addresses and results of the two allocations, of the queue node's, the
    lock and the clock. *)
Record post_env := mkEnv {
  e_msg : Z; e_ctrl : Z; e_mem_msg : bool; e_mem_ctrl : bool;
  e_mem_node : bool; e_lock : bool; e_now : Z;
}.

(** The operations a callback may perform on its machine. *)
Inductive fsm_action :=
  | ATransact (state : Z)
  | APost (e : post_env) (msgType data : Z)
  | APostDelay (e : post_env) (msgType data delay : Z)
  | ARemove (lock : bool) (msgType : Z)
  | AStop (e : post_env)
  | ADeinit (e : post_env).

Record FsmState := mkFsmState {
  enter : option (list fsm_action);
  process : option (Z -> Z -> list fsm_action);
  exit : option (list fsm_action);
}.

Record FsmStateMachine := mkFsm {
  curState : option Z;
  flag : Z;
  stateList : list Z;
  fsm_looper : bool;
  fsm_handler : SoftBusHandler;
  deinitCallback : bool;
}.

Inductive fsm_event :=
  | EEnter (state : Z)
  | EExit (state : Z)
  | EProcess (state msgType data : Z)
  | EDeinit
  | EFreeData (data : Z)
  | EUseAfterFree.

Definition is_running (f : FsmStateMachine) : bool :=
  negb (Z.land (flag f) FSM_FLAG_RUNNING =? 0).
Definition set_cur (f : FsmStateMachine) (s : option Z) : FsmStateMachine :=
  mkFsm s (flag f) (stateList f) (fsm_looper f) (fsm_handler f) (deinitCallback f).
Definition set_flag (f : FsmStateMachine) (v : Z) : FsmStateMachine :=
  mkFsm (curState f) v (stateList f) (fsm_looper f) (fsm_handler f) (deinitCallback f).
Definition set_states (f : FsmStateMachine) (l : list Z) : FsmStateMachine :=
  mkFsm (curState f) (flag f) l (fsm_looper f) (fsm_handler f) (deinitCallback f).

Section engine.
Context {L : Type} `{LL : LooperLaws L}.
Context (states : Z -> FsmState).

(** The machine, whether its memory is still allocated, the looper, the
    control objects ([FsmCtrlMsgObj], by address, with their [obj]) and the
    log of callback calls. *)
Record world := mkWorld {
  fsm : FsmStateMachine;
  alive : bool;
  looper : L;
  ctrl : gmap Z Z;
  events : list fsm_event;
}.

Definition set_fsm (w : world) (f : FsmStateMachine) : world :=
  mkWorld f (alive w) (looper w) (ctrl w) (events w).
Definition log (w : world) (e : fsm_event) : world :=
  mkWorld (fsm w) (alive w) (looper w) (ctrl w) (events w ++ [e]).
Definition set_looper (w : world) (l : L) : world :=
  mkWorld (fsm w) (alive w) l (ctrl w) (events w).
Definition set_ctrl (w : world) (c : gmap Z Z) : world :=
  mkWorld (fsm w) (alive w) (looper w) c (events w).

(** [IsDuplicateState]: the state is registered. *)
Definition IsDuplicateState (f : FsmStateMachine) (state : Z) : bool :=
  bool_decide (state ∈ stateList f).

(** [FreeFsmHandleMsg] frees the control object with the message. *)
Definition FreeFsmHandleMsg (w : world) (msg : SoftBusMessage) : world :=
  set_ctrl w (delete (obj msg) (ctrl w)).

Definition free_all (w : world) (ms : list SoftBusMessage) : world := foldl FreeFsmHandleMsg w ms.

(** [SoftBusMalloc] of the control object never returns NULL or a live block
    when it succeeds. *)
Definition malloc_ctrl_ok (e : post_env) (w : world) : bool :=
  e_mem_ctrl e && negb (e_ctrl e =? 0) && bool_decide (ctrl w !! e_ctrl e = None).

Definition CreateFsmHandleMsg (e : post_env) (w : world) (what arg1 arg2 data : Z)
    : option (SoftBusMessage * world) :=
  if negb (e_mem_msg e) then None
  else if negb (malloc_ctrl_ok e w) then None
  else Some (mkMessage (e_msg e) what arg1 arg2 0 (e_ctrl e) (Some (fsm_handler (fsm w))),
             set_ctrl w (<[e_ctrl e := data]> (ctrl w))).

Definition PostMessageToFsm (e : post_env) (w : world) (what arg1 arg2 data : Z) : Z * world :=
  match CreateFsmHandleMsg e w what arg1 arg2 data with
  | None => (SOFTBUS_ERR, w)
  | Some (msg, w1) =>
      let '(l, eff) := lo_post (e_mem_node e) (e_lock e) (e_now e) (looper w1) msg in
      (SOFTBUS_OK, free_all (set_looper w1 l) (freed_msgs eff))
  end.

(** [RemoveMessageFunc]: 0 selects the message. *)
Definition RemoveMessageFunc (para : Z) (msg : SoftBusMessage) : Z :=
  if para =? 0 then 1
  else
    let msgType := i32 para in
    if (what msg =? FSM_CTRL_MSG_DATA) && (i32 (arg1 msg) =? msgType) then 0 else 1.

(** The part of [RemoveMessageFunc] that frees the data of a selected message. *)
Definition FreeFsmHandleMsgObj (w : world) (msg : SoftBusMessage) : world :=
  match ctrl w !! obj msg with
  | None => w
  | Some data =>
      if data =? 0 then w
      else set_ctrl (log w (EFreeData data)) (<[obj msg := 0]> (ctrl w))
  end.

(** The public operations; [fsm_ptr] is false for a NULL machine. *)

Definition LnnFsmAddState (fsm_ptr : bool) (w : world) (state : option Z) : Z * world :=
  match state with
  | None => (SOFTBUS_INVALID_PARAM, w)
  | Some st =>
      if negb fsm_ptr || negb (fsm_looper (fsm w)) then (SOFTBUS_INVALID_PARAM, w)
      else if IsDuplicateState (fsm w) st then (SOFTBUS_ERR, w)
      else (SOFTBUS_OK, set_fsm w (set_states (fsm w) (st :: stateList (fsm w))))
  end.

Definition LnnFsmStart (fsm_ptr : bool) (e : post_env) (w : world) (initialState : option Z)
    : Z * world :=
  match initialState with
  | None => (SOFTBUS_INVALID_PARAM, w)
  | Some st =>
      if negb fsm_ptr || negb (fsm_looper (fsm w)) then (SOFTBUS_INVALID_PARAM, w)
      else PostMessageToFsm e w FSM_CTRL_MSG_START 0 0 st
  end.

Definition LnnFsmStop (fsm_ptr : bool) (e : post_env) (w : world) : Z * world :=
  if negb fsm_ptr || negb (fsm_looper (fsm w)) then (SOFTBUS_INVALID_PARAM, w)
  else PostMessageToFsm e w FSM_CTRL_MSG_STOP 0 0 0.

Definition LnnFsmDeinit (fsm_ptr : bool) (e : post_env) (w : world) : Z * world :=
  if negb fsm_ptr || negb (fsm_looper (fsm w)) then (SOFTBUS_INVALID_PARAM, w)
  else PostMessageToFsm e w FSM_CTRL_MSG_DEINIT 0 0 0.

Definition LnnFsmPostMessage (fsm_ptr : bool) (e : post_env) (w : world) (msgType data : Z)
    : Z * world :=
  if negb fsm_ptr || negb (fsm_looper (fsm w)) then (SOFTBUS_INVALID_PARAM, w)
  else PostMessageToFsm e w FSM_CTRL_MSG_DATA (u64 msgType) 0 data.

Definition LnnFsmPostMessageDelay (fsm_ptr : bool) (e : post_env) (w : world)
    (msgType data delayMillis : Z) : Z * world :=
  if negb fsm_ptr || negb (fsm_looper (fsm w)) then (SOFTBUS_INVALID_PARAM, w)
  else
    match CreateFsmHandleMsg e w FSM_CTRL_MSG_DATA (u64 msgType) 0 data with
    | None => (SOFTBUS_ERR, w)
    | Some (msg, w1) =>
        let '(l, eff) :=
          lo_post_delay (e_mem_node e) (e_lock e) (e_now e) (looper w1) msg delayMillis in
        (SOFTBUS_OK, free_all (set_looper w1 l) (freed_msgs eff))
    end.

Definition LnnFsmRemoveMessage (fsm_ptr : bool) (lock : bool) (w : world) (msgType : Z)
    : Z * world :=
  if negb fsm_ptr || negb (fsm_looper (fsm w)) then (SOFTBUS_INVALID_PARAM, w)
  else
    let '(l, eff) :=
      lo_remove lock (looper w) (h_addr (fsm_handler (fsm w))) (RemoveMessageFunc (u64 msgType)) in
    let w1 := foldl FreeFsmHandleMsgObj (set_looper w l) (freed_msgs eff) in
    (SOFTBUS_OK, free_all w1 (freed_msgs eff)).

(** [call] runs a callback's operations. *)
Definition call_enter (call : list fsm_action -> world -> option world) (w : world) (st : Z)
    : option world :=
  match enter (states st) with None => Some w | Some a => call a (log w (EEnter st)) end.
Definition call_exit (call : list fsm_action -> world -> option world) (w : world) (st : Z)
    : option world :=
  match exit (states st) with None => Some w | Some a => call a (log w (EExit st)) end.

Definition LnnFsmTransactState (call : list fsm_action -> world -> option world)
    (fsm_ptr : bool) (w : world) (state : option Z) : option (Z * world) :=
  match state with
  | None => Some (SOFTBUS_INVALID_PARAM, w)
  | Some st =>
      if negb fsm_ptr then Some (SOFTBUS_INVALID_PARAM, w)
      else match curState (fsm w) with
           | None => Some (SOFTBUS_ERR, w)
           | Some cur =>
               if negb (is_running (fsm w)) then Some (SOFTBUS_ERR, w)
               else if IsDuplicateState (fsm w) st then
                 w1 ← call_exit call w cur;
                 w2 ← call_enter call (set_fsm w1 (set_cur (fsm w1) (Some st))) st;
                 Some (SOFTBUS_OK, w2)
               else Some (SOFTBUS_OK, w)
           end
  end.

Fixpoint run (fuel : nat) (acts : list fsm_action) (w : world) : option world :=
  match fuel with
  | O => None
  | S fuel =>
      match acts with
      | [] => Some w
      | a :: acts =>
          w1 ← match a with
               | ATransact st => snd <$> LnnFsmTransactState (run fuel) true w (Some st)
               | APost e ty d => Some (LnnFsmPostMessage true e w ty d).2
               | APostDelay e ty d dl => Some (LnnFsmPostMessageDelay true e w ty d dl).2
               | ARemove lock ty => Some (LnnFsmRemoveMessage true lock w ty).2
               | AStop e => Some (LnnFsmStop true e w).2
               | ADeinit e => Some (LnnFsmDeinit true e w).2
               end;
          run fuel acts w1
      end
  end.

(** ** Message processing *)

Definition ProcessStartMessage (fuel : nat) (w : world) (msg : SoftBusMessage) : option world :=
  match ctrl w !! obj msg with
  | None => Some w
  | Some st =>
      if st =? 0 then Some w
      else if negb (bool_decide (curState (fsm w) = None)) || is_running (fsm w) then Some w
      else if IsDuplicateState (fsm w) st then
        w1 ← call_enter (run fuel) (set_fsm w (set_cur (fsm w) (Some st))) st;
        Some (set_fsm w1 (set_flag (fsm w1) (Z.lor (flag (fsm w1)) FSM_FLAG_RUNNING)))
      else Some w
  end.

Definition ProcessDataMessage (fuel : nat) (w : world) (msg : SoftBusMessage) : option world :=
  match ctrl w !! obj msg with
  | None => Some w
  | Some data =>
      match curState (fsm w) with
      | None => Some w
      | Some cur =>
          if negb (is_running (fsm w)) then Some w
          else match process (states cur) with
               | None => Some w
               | Some p =>
                   run fuel (p (i32 (arg1 msg)) data) (log w (EProcess cur (i32 (arg1 msg)) data))
               end
      end
  end.

Definition ProcessStopMessage (w : world) (msg : SoftBusMessage) : world :=
  match ctrl w !! obj msg with
  | None => w
  | Some _ =>
      if bool_decide (curState (fsm w) = None) || negb (is_running (fsm w)) then w
      else set_fsm w (set_flag (set_cur (fsm w) None) (Z.ldiff (flag (fsm w)) FSM_FLAG_RUNNING))
  end.

(** The deinit callback of every client destroys the machine. *)
Definition ProcessDeinitMessage (w : world) (msg : SoftBusMessage) : world :=
  match ctrl w !! obj msg with
  | None => w
  | Some _ =>
      if deinitCallback (fsm w) then
        mkWorld (fsm w) false (looper w) (ctrl w) (events w ++ [EDeinit])
      else w
  end.

Definition FsmStateMsgHandler (fuel : nat) (w : world) (msg : SoftBusMessage) : option world :=
  if what msg =? FSM_CTRL_MSG_START then ProcessStartMessage fuel w msg
  else if what msg =? FSM_CTRL_MSG_DATA then ProcessDataMessage fuel w msg
  else if what msg =? FSM_CTRL_MSG_STOP then Some (ProcessStopMessage w msg)
  else if what msg =? FSM_CTRL_MSG_DEINIT then Some (ProcessDeinitMessage w msg)
  else Some w.

(** [LnnFsmInit]: [lp] is [GetLooper(LOOP_TYPE_DEFAULT)]. *)
Definition LnnFsmInit (fsm_ptr name_ptr : bool) (h : SoftBusHandler) (cb : bool) (lp : option L)
    (old : FsmStateMachine) : Z * FsmStateMachine :=
  if negb fsm_ptr || negb name_ptr then (SOFTBUS_INVALID_PARAM, old)
  else match lp with
       | None => (SOFTBUS_ERR, mkFsm None 0 [] false (mkHandler (h_addr h) None) false)
       | Some _ => (SOFTBUS_OK, mkFsm None 0 [] true h cb)
       end.

(** ** The system: calls of the public operations and messages taken by the
    looper thread *)

Inductive fsm_op :=
  | OpAddState (st : option Z)
  | OpStart (e : post_env) (st : option Z)
  | OpStop (e : post_env)
  | OpDeinit (e : post_env)
  | OpPost (e : post_env) (msgType data : Z)
  | OpPostDelay (e : post_env) (msgType data delay : Z)
  | OpRemove (lock : bool) (msgType : Z)
  | OpTake (now : Z).

(** One operation.  Taking a message of this machine runs its handler and
    frees the message; if the machine is gone, that is a use after free. *)
Definition exec (fuel : nat) (op : fsm_op) (w : world) : option world :=
  match op with
  | OpAddState st => Some (LnnFsmAddState true w st).2
  | OpStart e st => Some (LnnFsmStart true e w st).2
  | OpStop e => Some (LnnFsmStop true e w).2
  | OpDeinit e => Some (LnnFsmDeinit true e w).2
  | OpPost e ty d => Some (LnnFsmPostMessage true e w ty d).2
  | OpPostDelay e ty d dl => Some (LnnFsmPostMessageDelay true e w ty d dl).2
  | OpRemove lock ty => Some (LnnFsmRemoveMessage true lock w ty).2
  | OpTake now =>
      match lo_take now (looper w) with
      | None => Some w
      | Some (m, l) =>
          let w := set_looper w l in
          if negb (handler_is m (h_addr (fsm_handler (fsm w)))) then Some w
          else if negb (alive w) then Some (log w EUseAfterFree)
          else w1 ← FsmStateMsgHandler fuel w m; Some (FreeFsmHandleMsg w1 m)
      end
  end.

Fixpoint exec_all (fuel : nat) (ops : list fsm_op) (w : world) : option world :=
  match ops with
  | [] => Some w
  | op :: ops => w1 ← exec fuel op w; exec_all fuel ops w1
  end.


(** ** Invariants *)

Definition haddr (w : world) : Z := h_addr (fsm_handler (fsm w)).
Definition ours (h : Z) (m : SoftBusMessage) : Prop := handler_is m h = true.
#[local] Instance ours_dec h m : Decision (ours h m) := ltac:(unfold ours; apply _).

(** The control objects of the machine's queued messages. *)
Definition qobjs (w : world) : list Z := obj <$> filter (ours (haddr w)) (lo_queue (looper w)).

(** The live control objects are those of the queued messages and those in
    [extra] (of the message being handled), each once. *)
Definition ctrl_ok (w : world) (extra : list Z) : Prop :=
  NoDup (extra ++ qobjs w) /\ forall a, is_Some (ctrl w !! a) <-> a ∈ extra ++ qobjs w.

(** A machine runs exactly when it has a current state, which is registered. *)
Record fsm_wf (f : FsmStateMachine) : Prop := {
  fw_run : curState f = None <-> is_running f = false;
  fw_cur : forall st, curState f = Some st -> st ∈ stateList f;
  fw_nodup : NoDup (stateList f);
}.

(** What callbacks can do to a machine: change the current state of a running
    machine to another registered one, and nothing else. *)
Record quiet (f f' : FsmStateMachine) : Prop := {
  q_flag : flag f' = flag f;
  q_states : stateList f' = stateList f;
  q_handler : fsm_handler f' = fsm_handler f;
  q_looper : fsm_looper f' = fsm_looper f;
  q_deinit : deinitCallback f' = deinitCallback f;
  q_some : is_Some (curState f) <-> is_Some (curState f');
  q_stopped : is_running f = false -> curState f' = curState f;
  q_cur : (forall st, curState f = Some st -> st ∈ stateList f) ->
          (forall st, curState f' = Some st -> st ∈ stateList f');
}.

#[local] Instance quiet_preorder : PreOrder quiet.
Proof.
  split.
  - intros f. by split.
  - intros f g h [] []. split; try congruence.
    + by etrans.
    + intros Hr. rewrite q_stopped1; [by apply q_stopped0|]. unfold is_running in *. congruence.
    + auto.
Qed.

Record kept (w w' : world) : Prop := {
  k_quiet : quiet (fsm w) (fsm w');
  k_alive : alive w' = alive w;
  k_ctrl : forall extra, ctrl_ok w extra -> ctrl_ok w' extra;
}.

#[local] Instance kept_preorder : PreOrder kept.
Proof.
  split; [by split|]. intros u v w [] []. split; [by etrans|congruence|auto].
Qed.

Lemma kept_log w e : kept w (log w e).
Proof. by split. Qed.

Lemma free_all_fields w ms :
  fsm (free_all w ms) = fsm w /\ alive (free_all w ms) = alive w /\
  looper (free_all w ms) = looper w /\ events (free_all w ms) = events w /\
  forall a, ctrl (free_all w ms) !! a = if bool_decide (a ∈ obj <$> ms) then None else ctrl w !! a.
Proof.
  unfold free_all. revert w. induction ms as [|m ms IH]; intros w; [done|]. simpl.
  destruct (IH (FreeFsmHandleMsg w m)) as (-> & -> & -> & -> & Hc). split_and!; try done.
  intros a. rewrite Hc. destruct (decide (a ∈ obj <$> ms)) as [Hin|Hin].
  { by rewrite !bool_decide_eq_true_2 by (done || by right). }
  rewrite (bool_decide_eq_false_2 (a ∈ obj <$> ms)) by done. simpl.
  destruct (decide (a = obj m)) as [->|Hne].
  - rewrite lookup_delete_eq, bool_decide_eq_true_2 by left. done.
  - rewrite lookup_delete_ne, bool_decide_eq_false_2 by (rewrite ?not_elem_of_cons; done). done.
Qed.

(** Posting keeps the account of control objects. *)
Lemma post_kept w l' eff m t d :
  ours (haddr w) m -> ctrl w !! obj m = None ->
  posted_ok (looper w) l' eff (set_time m t) ->
  kept w (free_all (set_looper (set_ctrl w (<[obj m := d]> (ctrl w))) l') (freed_msgs eff)).
Proof.
  intros Ho Hfresh Hpost. set (w1 := set_looper _ _).
  destruct (free_all_fields w1 (freed_msgs eff)) as (Ef & Ea & El & _ & Hc).
  split; [by rewrite Ef|by rewrite Ea|]. intros extra [Hnd Hdom]. unfold ctrl_ok.
  assert (obj m ∉ extra ++ qobjs w) as Hnew by (rewrite <- Hdom, Hfresh; by intros []).
  assert (haddr (free_all w1 (freed_msgs eff)) = haddr w) as Eh by (unfold haddr; by rewrite Ef).
  unfold qobjs in *. rewrite El, Eh. simpl looper.
  destruct Hpost as [[Efr Eq]|[Efr (pre & post & Eq & Eq')]].
  - rewrite Eq. split; [done|]. intros a. rewrite <- Hdom, Hc, Efr. simpl.
    destruct (decide (a = obj m)) as [->|Hne].
    + rewrite bool_decide_eq_true_2 by (by left). rewrite Hfresh. split; by intros [].
    + rewrite bool_decide_eq_false_2 by (by rewrite list_elem_of_singleton).
      by rewrite lookup_insert_ne by done.
  - rewrite Eq', Eq in *. rewrite filter_app in *. rewrite filter_cons_True by done.
    rewrite fmap_app in *. rewrite fmap_cons. simpl.
    assert (extra ++ (obj <$> filter (ours (haddr w)) pre) ++ obj m :: (obj <$> filter (ours (haddr w)) post) ≡ₚ
      obj m :: extra ++ (obj <$> filter (ours (haddr w)) pre) ++ (obj <$> filter (ours (haddr w)) post)) as Hp.
    { rewrite !app_assoc. symmetry. apply Permutation_middle. }
    split; [rewrite Hp; by constructor|]. intros a. rewrite Hp, elem_of_cons, <- Hdom, Hc, Efr.
    simpl. destruct (decide (a = obj m)) as [->|Hne].
    + rewrite lookup_insert_eq. split; [by left|done].
    + rewrite lookup_insert_ne by done. naive_solver.
Qed.


Lemma CreateFsmHandleMsg_Some e w wh a1 a2 d m w1 :
  CreateFsmHandleMsg e w wh a1 a2 d = Some (m, w1) ->
  ours (haddr w) m /\ ctrl w !! obj m = None /\ w1 = set_ctrl w (<[obj m := d]> (ctrl w)).
Proof.
  unfold CreateFsmHandleMsg, malloc_ctrl_ok. intros E. case_if_in E; [done|].
  case_if_in E; [done|]. simplify_eq. simpl.
  apply negb_false_iff, andb_true_iff in Hif0 as [_ Hf]. apply bool_decide_eq_true in Hf.
  split_and!; try done. unfold ours, handler_is. simpl. apply Z.eqb_refl.
Qed.

Lemma PostMessageToFsm_kept e w wh a1 a2 d : kept w (PostMessageToFsm e w wh a1 a2 d).2.
Proof.
  unfold PostMessageToFsm. destruct (CreateFsmHandleMsg _ _ _ _ _ _) as [[m w1]|] eqn:E; [|done].
  apply CreateFsmHandleMsg_Some in E as (Ho & Hf & ->).
  destruct (lo_post _ _ _ _ _) as [l eff] eqn:Ep.
  destruct (lo_post_law _ _ _ _ _ _ _ Ep) as [t Hp]. by eapply post_kept.
Qed.

Lemma LnnFsmPostMessageDelay_kept b e w ty d dl :
  kept w (LnnFsmPostMessageDelay b e w ty d dl).2.
Proof.
  unfold LnnFsmPostMessageDelay. case_if; [done|].
  destruct (CreateFsmHandleMsg _ _ _ _ _ _) as [[m w1]|] eqn:E; [|done].
  apply CreateFsmHandleMsg_Some in E as (Ho & Hf & ->).
  destruct (lo_post_delay _ _ _ _ _ _) as [l eff] eqn:Ep.
  destruct (lo_post_delay_law _ _ _ _ _ _ _ _ Ep) as [t Hp]. by eapply post_kept.
Qed.

Lemma free_obj_fields w ms : let w' := foldl FreeFsmHandleMsgObj w ms in
  fsm w' = fsm w /\ alive w' = alive w /\ looper w' = looper w /\
  forall a, is_Some (ctrl w' !! a) <-> is_Some (ctrl w !! a).
Proof.
  revert w. induction ms as [|m ms IH]; intros w; [done|]. simpl.
  destruct (IH (FreeFsmHandleMsgObj w m)) as (-> & -> & -> & Hc).
  unfold FreeFsmHandleMsgObj in *. destruct (ctrl w !! obj m) as [d|] eqn:E; [|done].
  case_if; [done|]. simpl in *. split_and!; try done. intros a. rewrite Hc.
  destruct (decide (a = obj m)) as [->|Hne].
  - by rewrite lookup_insert_eq, E.
  - by rewrite lookup_insert_ne.
Qed.

(** Removing selected messages of the machine keeps the account. *)
Lemma remove_ctrl_ok w w' h f extra :
  h = haddr w -> haddr w' = haddr w ->
  lo_queue (looper w') = filter (fun m => hit h f m = false) (lo_queue (looper w)) ->
  (forall a, is_Some (ctrl w' !! a) <-> is_Some (ctrl w !! a) /\
     a ∉ obj <$> filter (fun m => hit h f m = true) (lo_queue (looper w))) ->
  ctrl_ok w extra -> ctrl_ok w' extra.
Proof.
  intros -> Eh Eq Hc [Hnd Hdom]. unfold ctrl_ok, qobjs in *. rewrite Eh, Eq.
  set (q := lo_queue (looper w)) in *. set (O := filter (ours (haddr w)) q) in *.
  assert (filter (ours (haddr w)) (filter (fun m => hit (haddr w) f m = false) q) =
          filter (fun m => hit (haddr w) f m = false) O) as ->.
  { unfold O. rewrite !list_filter_filter. apply list_filter_iff. intros. tauto. }
  assert (filter (fun m => hit (haddr w) f m = true) q =
          filter (fun m => hit (haddr w) f m = true) O) as E.
  { unfold O. rewrite !list_filter_filter. apply list_filter_iff. intros m. unfold ours, hit.
    destruct (handler_is m (haddr w)); naive_solver. }
  rewrite E in Hc. pose proof (filter_bool_perm (hit (haddr w) f) O) as Hp.
  apply (fmap_Permutation obj) in Hp. rewrite fmap_app in Hp. rewrite Hp in Hnd.
  set (A := obj <$> filter (fun m => hit (haddr w) f m = true) O) in *.
  set (B := obj <$> filter (fun m => hit (haddr w) f m = false) O) in *.
  rewrite (Permutation_app_comm A B), app_assoc in Hnd. apply NoDup_app in Hnd as (Hnd & Hdisj & _).
  split; [done|]. intros a. rewrite Hc, Hdom, Hp, !elem_of_app. specialize (Hdisj a).
  rewrite elem_of_app in Hdisj. naive_solver.
Qed.

Lemma LnnFsmRemoveMessage_kept b lock w ty : kept w (LnnFsmRemoveMessage b lock w ty).2.
Proof.
  unfold LnnFsmRemoveMessage. case_if; [done|].
  destruct (lo_remove _ _ _ _) as [l eff] eqn:El. simpl.
  set (w1 := foldl _ _ _). destruct (free_obj_fields (set_looper w l) (freed_msgs eff)) as
    (F1 & A1 & L1 & C1). fold w1 in F1, A1, L1, C1.
  destruct (free_all_fields w1 (freed_msgs eff)) as (F2 & A2 & L2 & _ & C2).
  split; [by rewrite F2, F1|by rewrite A2, A1|]. intros extra Hok.
  destruct (lo_remove_law _ _ _ _ _ _ El) as [[Efr Eq]|[Efr Eq]].
  - rewrite Efr in *. destruct Hok as [Hnd Hdom]. unfold ctrl_ok, qobjs, haddr in *. simpl free_all in *.
    rewrite L1, F1. simpl. rewrite Eq. split; [done|]. intros a. by rewrite C1, <- Hdom.
  - eapply remove_ctrl_ok; [reflexivity| | | |exact Hok].
    + unfold haddr. by rewrite F2, F1.
    + rewrite L2, L1. exact Eq.
    + intros a. rewrite C2, Efr. rewrite <- C1.
      case_bool_decide; split; naive_solver.
Qed.

(** ** Callbacks *)

Lemma LnnFsmTransactState_kept call b w st r w' :
  (forall acts u u', call acts u = Some u' -> kept u u') ->
  LnnFsmTransactState call b w st = Some (r, w') -> kept w w'.
Proof.
  intros Hcall E. unfold LnnFsmTransactState in E. destruct st as [st|]; [|by simplify_eq].
  case_if_in E; [by simplify_eq|]. destruct (curState (fsm w)) as [cur|] eqn:Ec; [|by simplify_eq].
  case_if_in E; [by simplify_eq|]. case_if_in E; [|by simplify_eq].
  apply bind_Some in E as (w1 & E1 & E). apply bind_Some in E as (w2 & E2 & E). simplify_eq.
  assert (kept w w1) as K1.
  { unfold call_exit in E1. destruct (exit _); [|by simplify_eq].
    etrans; [apply kept_log|by eapply Hcall]. }
  assert (kept w1 (set_fsm w1 (set_cur (fsm w1) (Some st)))) as K2.
  { destruct K1 as [[] _ _]. split; [|done|done]. split; simpl; try done.
    - rewrite <- q_some0, Ec. split; by eexists.
    - intros Hr. unfold is_running in *. rewrite q_flag0 in Hr. by rewrite Hr in Hif0.
    - intros _ s Hs. simplify_eq. rewrite q_states0. by apply bool_decide_eq_true in Hif1. }
  etrans; [exact K1|]. etrans; [exact K2|]. unfold call_enter in E2.
  destruct (enter _); [|by simplify_eq]. etrans; [apply kept_log|by eapply Hcall].
Qed.

Lemma op_kept :
  (forall b e w ty d, kept w (LnnFsmPostMessage b e w ty d).2) /\
  (forall b e w, kept w (LnnFsmStop b e w).2) /\
  (forall b e w, kept w (LnnFsmDeinit b e w).2) /\
  (forall b e w st, kept w (LnnFsmStart b e w st).2).
Proof.
  split_and!; intros; unfold LnnFsmPostMessage, LnnFsmStop, LnnFsmDeinit, LnnFsmStart.
  4: destruct st; [|done].
  all: case_if; [done|apply PostMessageToFsm_kept].
Qed.

Lemma run_kept fuel acts w w' : run fuel acts w = Some w' -> kept w w'.
Proof.
  revert acts w w'. induction fuel as [|fuel IH]; intros acts w w' E; [done|].
  destruct acts as [|a acts]; simpl in E; [by simplify_eq|].
  apply bind_Some in E as (w1 & E1 & E2). etrans; [|by eapply IH]. clear E2.
  destruct op_kept as (K1 & K2 & K3 & _).
  destruct a; simplify_eq/=; auto using LnnFsmPostMessageDelay_kept, LnnFsmRemoveMessage_kept.
  apply fmap_Some in E1 as ([r u] & E1 & ->).
  eapply (LnnFsmTransactState_kept (run fuel) true w (Some state) r u); [|exact E1]. intros acts' u1 u2. apply IH.
Qed.


(** ** The handler and the system *)

Lemma running_set f : is_running (set_flag f (Z.lor (flag f) FSM_FLAG_RUNNING)) = true.
Proof.
  unfold is_running, FSM_FLAG_RUNNING. simpl. rewrite Z.land_lor_distr_l, Z.land_diag.
  apply negb_true_iff, Z.eqb_neq. intros E. apply Z.lor_eq_0_iff in E as [_ E]. done.
Qed.

Lemma running_clear f s : is_running (set_flag (set_cur f s) (Z.ldiff (flag f) FSM_FLAG_RUNNING)) = false.
Proof. unfold is_running. simpl. by rewrite Z.land_ldiff. Qed.

Lemma kept_wf w w' : kept w w' -> fsm_wf (fsm w) -> fsm_wf (fsm w').
Proof.
  intros [[] _ _] []. split.
  - unfold is_running in *. rewrite q_flag0, <- fw_run0.
    destruct (curState (fsm w)), (curState (fsm w')); naive_solver.
  - auto.
  - by rewrite q_states0.
Qed.

(** A start message on a stopped machine ends in the state it names, running,
    whatever the state's [enter] does. *)
Lemma start_spec fuel w msg st w' :
  ctrl w !! obj msg = Some st -> st <> 0 -> curState (fsm w) = None ->
  is_running (fsm w) = false -> st ∈ stateList (fsm w) ->
  ProcessStartMessage fuel w msg = Some w' ->
  curState (fsm w') = Some st /\ is_running (fsm w') = true /\
  stateList (fsm w') = stateList (fsm w) /\ haddr w' = haddr w /\ alive w' = alive w /\
  (forall extra, ctrl_ok w extra -> ctrl_ok w' extra).
Proof.
  intros Ec H0 Hcur Hrun Hin E. unfold ProcessStartMessage in E. rewrite Ec in E.
  rewrite (proj2 (Z.eqb_neq _ _)) in E by done.
  rewrite Hcur, Hrun in E. simpl in E. unfold IsDuplicateState in E.
  rewrite bool_decide_eq_true_2 in E by done.
  apply bind_Some in E as (w1 & E1 & E). simplify_eq.
  assert (kept (set_fsm w (set_cur (fsm w) (Some st))) w1) as [[] A C].
  { unfold call_enter in E1. destruct (enter _); [|by simplify_eq].
    etrans; [apply kept_log|by eapply run_kept]. }
  simpl. rewrite running_set. split_and!; try done.
  - apply q_stopped0. done.
  - unfold haddr. simpl. by rewrite q_handler0.
Qed.

Lemma FsmStateMsgHandler_inv fuel w m w' extra :
  fsm_wf (fsm w) -> ctrl_ok w extra -> FsmStateMsgHandler fuel w m = Some w' ->
  fsm_wf (fsm w') /\ ctrl_ok w' extra /\ haddr w' = haddr w.
Proof.
  intros Hwf Hok E. unfold FsmStateMsgHandler in E.
  assert (forall u, kept w u -> fsm_wf (fsm u) /\ ctrl_ok u extra /\ haddr u = haddr w) as Hkept.
  { intros u K. pose proof K as [Q A C]. split_and!; [by eapply kept_wf|by apply C|].
    unfold haddr. by rewrite (q_handler _ _ Q). }
  assert (kept w w) as Kid by done.
  repeat case_if_in E.
  - destruct (ctrl w !! obj m) as [st|] eqn:Ec.
    2: { unfold ProcessStartMessage in E. rewrite Ec in E. simplify_eq. auto. }
    pose proof E as E'. unfold ProcessStartMessage in E'. rewrite Ec in E'.
    case_if_in E'; [simplify_eq; auto|]. case_if_in E'; [simplify_eq; auto|].
    case_if_in E'; [|simplify_eq; auto]. clear E'.
    apply orb_false_iff in Hif1 as [Hcur Hr]. apply negb_false_iff, bool_decide_eq_true in Hcur.
    apply bool_decide_eq_true in Hif2. apply Z.eqb_neq in Hif0.
    destruct (start_spec _ _ _ _ _ Ec Hif0 Hcur Hr Hif2 E) as (Ec' & Er' & Es' & Eh' & _ & C').
    split_and!; [|by apply C'|done]. split.
    + rewrite Ec', Er'. split; done.
    + intros s. rewrite Ec', Es'. intros ?. by simplify_eq.
    + rewrite Es'. apply Hwf.
  - apply Hkept. unfold ProcessDataMessage in E. destruct (ctrl w !! obj m); [|by simplify_eq].
    destruct (curState (fsm w)); [|by simplify_eq]. case_if_in E; [by simplify_eq|].
    destruct (process _); [|by simplify_eq]. etrans; [apply kept_log|by eapply run_kept].
  - simplify_eq. unfold ProcessStopMessage. destruct (ctrl w !! obj m); [|auto].
    case_if; [auto|]. split_and!; [|done|done]. split; simpl.
    + rewrite running_clear. done.
    + done.
    + apply Hwf.
  - simplify_eq. unfold ProcessDeinitMessage. destruct (ctrl w !! obj m); [|auto].
    case_if; [|auto]. done.
  - simplify_eq. auto.
Qed.

Definition sys_inv (w : world) : Prop := alive w = true -> fsm_wf (fsm w) /\ ctrl_ok w [].

Lemma kept_sys w w' : kept w w' -> sys_inv w -> sys_inv w'.
Proof.
  intros K Hi Ha. pose proof K as [_ A C]. rewrite A in Ha. destruct (Hi Ha).
  split; [by eapply kept_wf|by apply C].
Qed.

Lemma LnnFsmAddState_sys b w st : sys_inv w -> sys_inv (LnnFsmAddState b w st).2.
Proof.
  intros Hi. unfold LnnFsmAddState. destruct st as [st|]; [|done]. case_if; [done|].
  case_if; [done|]. intros Ha. simpl in *. destruct (Hi Ha) as [[] Hc]. split; [|done].
  apply bool_decide_eq_false in Hif0. split; simpl; [done| |by constructor].
  intros s Hs. right. auto.
Qed.

Lemma take_sys fuel now w w' : sys_inv w -> exec fuel (OpTake now) w = Some w' -> sys_inv w'.
Proof.
  intros Hi E. simpl in E. destruct (lo_take now (looper w)) as [[m l]|] eqn:Et; [|by simplify_eq].
  apply lo_take_law in Et as [Eq _].
  destruct (handler_is m (h_addr (fsm_handler (fsm w)))) eqn:Eh; simpl in E.
  - destruct (alive w) eqn:Ea; simpl in E.
    2: { simplify_eq. intros Ha. simpl in Ha. congruence. }
    apply bind_Some in E as (w1 & E1 & E). simplify_eq. intros _.
    destruct (Hi Ea) as [Hwf [Hnd Hdom]].
    assert (qobjs w = obj m :: qobjs (set_looper w l)) as Hq.
    { unfold qobjs. rewrite Eq, filter_cons_True by done. done. }
    destruct (FsmStateMsgHandler_inv fuel (set_looper w l) m w1 [obj m]) as (Hwf1 & [Hnd1 Hdom1] & _);
      [done| |done|].
    { split; simpl app in *; rewrite <- Hq; [done|]. exact Hdom. }
    split; [done|]. simpl app in *. apply NoDup_cons in Hnd1 as [Hni Hnd1].
    split; simpl; [done|]. intros a. destruct (decide (a = obj m)) as [->|Hne].
    + rewrite lookup_delete_eq. split; [by intros []|done].
    + rewrite lookup_delete_ne by done. rewrite Hdom1, elem_of_cons. naive_solver.
  - simplify_eq. intros Ha. destruct (Hi Ha) as [Hwf [Hnd Hdom]]. split; [done|].
    assert (qobjs (set_looper w l) = qobjs w) as Hq.
    { unfold qobjs. rewrite Eq, filter_cons_False; [done|]. unfold ours, haddr. congruence. }
    split; simpl app in *; rewrite Hq; done.
Qed.

Lemma exec_sys fuel op w w' : sys_inv w -> exec fuel op w = Some w' -> sys_inv w'.
Proof.
  destruct op_kept as (K1 & K2 & K3 & K4). destruct op; [..|apply take_sys]; intros Hi E; simplify_eq/=.
  - by apply LnnFsmAddState_sys.
  - eapply kept_sys; [apply K4|done].
  - eapply kept_sys; [apply K2|done].
  - eapply kept_sys; [apply K3|done].
  - eapply kept_sys; [apply K1|done].
  - eapply kept_sys; [apply LnnFsmPostMessageDelay_kept|done].
  - eapply kept_sys; [apply LnnFsmRemoveMessage_kept|done].
Qed.

Lemma exec_all_sys fuel ops w w' : sys_inv w -> exec_all fuel ops w = Some w' -> sys_inv w'.
Proof.
  revert w. induction ops as [|op ops IH]; intros w Hi E; simplify_eq/=; [done|].
  apply bind_Some in E as (w1 & E1 & E2). eapply IH; [|exact E2]. by eapply exec_sys.
Qed.


(** ** Termination when [enter] and [exit] do not change the state themselves *)

Definition plain (a : fsm_action) : Prop := match a with ATransact _ => False | _ => True end.

Definition callbacks_bounded (n : nat) : Prop := forall st,
  (forall a, enter (states st) = Some a -> Forall plain a /\ (length a <= n)%nat) /\
  (forall a, exit (states st) = Some a -> Forall plain a /\ (length a <= n)%nat) /\
  (forall p ty d, process (states st) = Some p -> (length (p ty d) <= n)%nat).

Lemma run_plain fuel acts w : Forall plain acts -> (length acts < fuel)%nat ->
  is_Some (run fuel acts w).
Proof.
  revert acts w. induction fuel as [|fuel IH]; intros acts w Hp Hl; [lia|].
  destruct acts as [|a acts]; [by eexists|]. apply Forall_cons in Hp as [Ha Hp]. simpl in Hl.
  simpl. destruct a; simpl; try done; apply IH; (done || lia).
Qed.

Section bounded.
Context (n : nat) (Hn : callbacks_bounded n).

Lemma call_enter_total fuel w st : (n < fuel)%nat -> is_Some (call_enter (run fuel) w st).
Proof.
  intros Hf. unfold call_enter. destruct (enter (states st)) as [a|] eqn:E; [|by eexists].
  destruct (proj1 (Hn st) a E). apply run_plain; [done|lia].
Qed.

Lemma call_exit_total fuel w st : (n < fuel)%nat -> is_Some (call_exit (run fuel) w st).
Proof.
  intros Hf. unfold call_exit. destruct (exit (states st)) as [a|] eqn:E; [|by eexists].
  destruct (proj1 (proj2 (Hn st)) a E). apply run_plain; [done|lia].
Qed.

Lemma transact_total fuel b w st : (n < fuel)%nat ->
  is_Some (LnnFsmTransactState (run fuel) b w st).
Proof.
  intros Hf. unfold LnnFsmTransactState. destruct st as [st|]; [|by eexists].
  case_if; [by eexists|]. destruct (curState (fsm w)) as [cur|]; [|by eexists].
  case_if; [by eexists|]. case_if; [|by eexists].
  destruct (call_exit_total fuel w cur Hf) as [w1 ->]. simpl.
  destruct (call_enter_total fuel (set_fsm w1 (set_cur (fsm w1) (Some st))) st Hf) as [w2 ->].
  by eexists.
Qed.

Lemma run_total fuel acts w : (length acts + n < fuel)%nat -> is_Some (run fuel acts w).
Proof.
  revert acts w. induction fuel as [|fuel IH]; intros acts w Hl; [lia|].
  destruct acts as [|a acts]; [by eexists|]. simpl in Hl.
  destruct a as [st| | | | |]; [|simpl; apply IH; lia..].
  destruct (transact_total fuel true w (Some st)) as [[r u] E]; [lia|].
  cbn [run]. rewrite E. simpl. apply IH. lia.
Qed.

Lemma exec_total op w : is_Some (exec (S (2 * n)) op w).
Proof.
  destruct op; try (by eexists). unfold exec.
  destruct (lo_take now (looper w)) as [[m l]|]; [|by eexists].
  case_if; [by eexists|]. case_if; [by eexists|].
  assert (forall u, is_Some (FsmStateMsgHandler (S (2 * n)) u m)) as Hh.
  { intros u. unfold FsmStateMsgHandler. repeat case_if; try (by eexists).
    - unfold ProcessStartMessage. destruct (ctrl u !! obj m); [|by eexists].
      case_if; [by eexists|]. case_if; [by eexists|]. case_if; [|by eexists].
      destruct (call_enter_total (S (2 * n)) (set_fsm u (set_cur (fsm u) (Some z))) z)
        as [w1 ->]; [lia|]. by eexists.
    - unfold ProcessDataMessage. destruct (ctrl u !! obj m); [|by eexists].
      destruct (curState (fsm u)) as [cur|]; [|by eexists]. case_if; [by eexists|].
      destruct (process (states cur)) as [p|] eqn:Ep; [|by eexists].
      apply run_total. pose proof (proj2 (proj2 (Hn cur)) p (i32 (arg1 m)) z Ep). lia. }
  destruct (Hh (set_looper w l)) as [w1 ->]. by eexists.
Qed.

Lemma exec_all_total ops w : is_Some (exec_all (S (2 * n)) ops w).
Proof.
  revert w. induction ops as [|op ops IH]; intros w; [by eexists|].
  destruct (exec_total op w) as [w1 E]. cbn -[exec Nat.mul]. rewrite E. apply IH.
Qed.
End bounded.

(** ** Properties *)


(** starting.  A start message for a registered state, handled by a
    stopped machine, leaves the machine running in exactly that state,
    whatever the [enter] callback of the state does: a transition requested
    inside it is refused, since the running flag is set only afterwards. *)
Theorem fsm_start fuel w msg st w' :
  ctrl w !! obj msg = Some st -> st <> 0 -> curState (fsm w) = None ->
  is_running (fsm w) = false -> st ∈ stateList (fsm w) ->
  ProcessStartMessage fuel w msg = Some w' ->
  curState (fsm w') = Some st /\ is_running (fsm w') = true /\
  stateList (fsm w') = stateList (fsm w).
Proof.
  intros. destruct (start_spec fuel w msg st w') as (? & ? & ? & _); auto.
Qed.

(** removal.  [LnnFsmRemoveMessage] of a non-zero type either finds the
    looper unable to remove and changes nothing, or removes exactly this
    machine's data messages of that type; of type 0 it never removes
    anything, because the type travels as a pointer that the selection
    function takes for NULL. *)
Theorem fsm_remove w lock msgType :
  INT32_MIN <= msgType <= INT32_MAX -> fsm_looper (fsm w) = true ->
  let w' := (LnnFsmRemoveMessage true lock w msgType).2 in
  let data m := handler_is m (haddr w) && ((what m =? FSM_CTRL_MSG_DATA) && (i32 (arg1 m) =? msgType)) in
  (msgType = 0 -> lo_queue (looper w') = lo_queue (looper w)) /\
  (msgType <> 0 ->
     lo_queue (looper w') = lo_queue (looper w) \/
     lo_queue (looper w') = filter (fun m => data m = false) (lo_queue (looper w))).
Proof.
  intros Hty Hl w' data. unfold w', LnnFsmRemoveMessage. rewrite Hl. simpl.
  destruct (lo_remove _ _ _ _) as [l eff] eqn:El. simpl.
  destruct (free_all_fields (foldl FreeFsmHandleMsgObj (set_looper w l) (freed_msgs eff))
    (freed_msgs eff)) as (_ & _ & -> & _).
  destruct (free_obj_fields (set_looper w l) (freed_msgs eff)) as (_ & _ & -> & _). simpl.
  apply lo_remove_law in El as [[_ Eq]|[_ Eq]]; rewrite Eq; [by auto|]. split.
  - intros ->. rewrite filter_all; [done|]. intros m _. unfold hit, RemoveMessageFunc. simpl.
    by rewrite andb_false_r.
  - intros H0. right. apply list_filter_iff. intros m. unfold hit, data, haddr, RemoveMessageFunc.
    replace (u64 msgType =? 0) with false by wrap_lia.
    replace (i32 (u64 msgType)) with msgType by wrap_lia.
    destruct (handler_is _ _); [|done]. simpl. by case_if.
Qed.

End engine.

(** ** The engine on the real looper: witnesses and a counterexample *)

Section examples.

Definition lp0 : SoftBusLooperContext := mkContext [] false true None 0.
Definition h0 : SoftBusHandler := mkHandler 500 (Some 1).
Definition st_auth : FsmState := mkFsmState (Some [ATransact 2]) None None.
Definition states0 : Z -> FsmState := fun _ => mkFsmState None None None.
Definition states1 : Z -> FsmState := fun _ => st_auth.
Definition env0 (a : Z) : post_env := mkEnv a (a + 1000) true true true true 10.
Definition fsm0 : FsmStateMachine := mkFsm None 0 [] false h0 false.
Definition w0 : world := mkWorld (LnnFsmInit true true h0 true (Some lp0) fsm0).2 true lp0 ∅ [].

(** deinitialisation with a pending message.  [LnnFsmDeinit] does not
    remove the machine's queued messages: a delayed message posted before it
    is handed to the freed machine after the deinit callback. *)
Theorem fsm_deinit_use_after_free :
  exists w, exec_all states0 1 [OpPostDelay (env0 1) 7 0 1; OpDeinit (env0 2);
                                OpTake 10; OpTake 2000] w0 = Some w /\
    events w = [EDeinit; EUseAfterFree].
Proof. eexists. split; [by vm_compute|by vm_compute]. Qed.


(** The machine with states 1 and 2 and a start message for state 1, whose
    [enter] asks for state 2. *)
Definition start_msg : SoftBusMessage := mkMessage 1 FSM_CTRL_MSG_START 0 0 10 1001 (Some h0).
Definition w_start : world :=
  mkWorld (mkFsm None 0 [2; 1] true h0 true) true lp0 {[1001 := 1]} [].

Lemma fsm_start_witness :
  exists w', ProcessStartMessage states1 5 w_start start_msg = Some w' /\
    curState (fsm w') = Some 1.
Proof.
  destruct (ProcessStartMessage states1 5 w_start start_msg) as [w'|] eqn:E.
  - exists w'. split; [reflexivity|].
    apply (fsm_start states1 5 w_start start_msg 1 w'); try done. simpl. set_solver.
  - vm_compute in E. discriminate E.
Defined.

Definition data_msg : SoftBusMessage := mkMessage 2 FSM_CTRL_MSG_DATA 0 0 10 1002 (Some h0).
Definition w_data : world :=
  mkWorld (mkFsm None 0 [2; 1] true h0 true) true (mkContext [data_msg] false true None 1)
    {[1002 := 0]} [].

Lemma fsm_remove_witness : lo_queue (looper (LnnFsmRemoveMessage true true w_data 0).2) = [data_msg].
Proof.
  destruct (fsm_remove states0 w_data true 0) as [E _]; [lia|reflexivity|].
  exact (E eq_refl).
Defined.

End examples.
End LnnStateMachine.
