(* ===== verification/LnnMap.v ===== *)
(** * The LNN hash map (core/bus_center/lnn/net_ledger/common/src/lnn_map.c)

    A chained hash table from C strings to byte blobs, resized by four.  A
    bucket is the list of its chain of nodes; a key is the list of its
    characters before the terminator; a call that dereferences a NULL bucket
    array or indexes outside it is [None].  The specification is a finite map
    [gmap (list Z) (list Z)]. *)

From S2P Require Import Prelude.

Module LnnMap.

Definition HDF_MIN_MAP_SIZE : Z := 8.
Definition HDF_ENLARGE_FACTOR : Z := 2.
Definition HDF_MAP_KEY_MAX_SIZE : Z := 1000.
Definition HDF_MAP_VALUE_MAX_SIZE : Z := 1000.

Record MapNode := mkNode { hash : Z; valueSize : Z; key : list Z; value : list Z }.

Record Map := mkMap {
  nodes : option (list (list MapNode));
  nodeSize : Z;
  bucketSize : Z;
}.

(** The iterator: the chain from its node on ([[]] for NULL), the nodes it has
    passed and the next bucket. *)
Record MapIterator := mkIterator {
  it_node : list MapNode;
  nodeNum : Z;
  bucketNum : Z;
  it_map : Map;
}.

(** Whether plain [char] is signed is up to the platform. *)
Section map.
Context (signed_char : bool).

Definition char_int (c : Z) : Z := if signed_char && (c >=? 128) then c - 256 else c.

Definition MapHash (key : option (list Z)) : Z :=
  match key with
  | None => 0
  | Some k => Z.land (foldl (fun h c => u32 (u32 (h * 131) + char_int c)) 0 k) 0x7FFFFFFF
  end.

Definition MapHashIdx (map : Map) (hash : Z) : Z := Z.land hash (u32 (bucketSize map - 1)).

Definition MapAddNode (map : Map) (node : MapNode) : option Map :=
  bs ← nodes map;
  let idx := Z.to_nat (MapHashIdx map (hash node)) in
  chain ← bs !! idx;
  Some (mkMap (Some (<[idx := node :: chain]> bs)) (nodeSize map) (bucketSize map)).

Definition add_chain (map : option Map) (chain : list MapNode) : option Map :=
  foldl (fun acc n => acc ≫= fun m => MapAddNode m n) map chain.

Definition MapResize (mem : bool) (map : Map) (size : Z) : option (Z * Map) :=
  if negb mem then Some (SOFTBUS_MEM_ERR, map)
  else
    let map1 := mkMap (Some (replicate (Z.to_nat size) [])) (nodeSize map) size in
    map2 ← match nodes map with
           | None => Some map1
           | Some tmp => foldl add_chain (Some map1) tmp
           end;
    Some (SOFTBUS_OK, map2).

Definition MapCreateNode (mem : bool) (key : list Z) (hash : Z) (value : list Z) (valueSize : Z)
    : option MapNode :=
  if negb mem then None else Some (mkNode hash valueSize key value).

(** The search of [LnnMapSet] along a chain: [inl] the result of the update
    with the chain it leaves, [inr] when the key is not there. *)
Fixpoint set_in_chain (h : Z) (k v : list Z) (size : Z) (chain : list MapNode)
    : option (Z * list MapNode) :=
  match chain with
  | [] => None
  | n :: rest =>
      if negb (hash n =? h) || negb (bool_decide (key n = k)) then
        prod_map id (cons n) <$> set_in_chain h k v size rest
      else if negb (valueSize n =? size) then Some (SOFTBUS_INVALID_PARAM, chain)
      else Some (SOFTBUS_OK, mkNode (hash n) (valueSize n) (key n) v :: rest)
  end.

(** The insertion of a new node, after the search failed. *)
Definition set_new (mem_resize mem_node : bool) (map : Map) (h : Z) (k v : list Z) (size : Z)
    : option (Z * Map) :=
  map1 ← (if nodeSize map >=? bucketSize map then
            snd <$> MapResize mem_resize map
              (if bucketSize map <? HDF_MIN_MAP_SIZE then HDF_MIN_MAP_SIZE
               else u32 (Z.shiftl (bucketSize map) HDF_ENLARGE_FACTOR))
          else Some map);
  match MapCreateNode mem_node k h v size with
  | None => Some (SOFTBUS_INVALID_PARAM, map1)
  | Some node =>
      map2 ← MapAddNode map1 node;
      Some (SOFTBUS_OK, mkMap (nodes map2) (u32 (nodeSize map2 + 1)) (bucketSize map2))
  end.

(** [value] is the caller's buffer, of [valueSize] bytes. *)
Definition LnnMapSet (mem_resize mem_node : bool) (map : Map) (key value : option (list Z))
    : option (Z * Map) :=
  match key, value with
  | Some k, Some v =>
      let size := Z.of_nat (length v) in
      if size =? 0 then Some (SOFTBUS_INVALID_PARAM, map)
      else if (size >? HDF_MAP_KEY_MAX_SIZE) ||
              (Z.of_nat (length k) >? HDF_MAP_VALUE_MAX_SIZE)
      then Some (SOFTBUS_INVALID_PARAM, map)
      else
        let h := MapHash key in
        match nodes map with
        | Some bs =>
            if nodeSize map >? 0 then
              let idx := Z.to_nat (MapHashIdx map h) in
              chain ← bs !! idx;
              match set_in_chain h k v size chain with
              | Some (r, chain') =>
                  Some (r, mkMap (Some (<[idx := chain']> bs)) (nodeSize map) (bucketSize map))
              | None => set_new mem_resize mem_node map h k v size
              end
            else set_new mem_resize mem_node map h k v size
        | None => set_new mem_resize mem_node map h k v size
        end
  | _, _ => Some (SOFTBUS_INVALID_PARAM, map)
  end.

Fixpoint get_in_chain (h : Z) (k : list Z) (chain : list MapNode) : option (list Z) :=
  match chain with
  | [] => None
  | n :: rest =>
      if (hash n =? h) && bool_decide (key n = k) then Some (value n) else get_in_chain h k rest
  end.

(** The outer option is the validity of the bucket access, the inner one the
    returned pointer. *)
Definition LnnMapGet (map : Map) (key : option (list Z)) : option (option (list Z)) :=
  match key, nodes map with
  | Some k, Some bs =>
      if nodeSize map =? 0 then Some None
      else
        let h := MapHash key in
        chain ← bs !! Z.to_nat (MapHashIdx map h);
        Some (get_in_chain h k chain)
  | _, _ => Some None
  end.

Fixpoint erase_in_chain (h : Z) (k : list Z) (chain : list MapNode) : option (list MapNode) :=
  match chain with
  | [] => None
  | n :: rest =>
      if (hash n =? h) && bool_decide (key n = k) then Some rest
      else cons n <$> erase_in_chain h k rest
  end.

Definition LnnMapErase (map : Map) (key : option (list Z)) : option (Z * Map) :=
  match key, nodes map with
  | Some k, Some bs =>
      if nodeSize map =? 0 then Some (SOFTBUS_INVALID_PARAM, map)
      else
        let h := MapHash key in
        let idx := Z.to_nat (MapHashIdx map h) in
        chain ← bs !! idx;
        match erase_in_chain h k chain with
        | Some chain' =>
            Some (SOFTBUS_OK,
              mkMap (Some (<[idx := chain']> bs)) (u32 (nodeSize map - 1)) (bucketSize map))
        | None => Some (SOFTBUS_ERR, map)
        end
  | _, _ => Some (SOFTBUS_INVALID_PARAM, map)
  end.

Definition MapGetSize (map : option Map) : Z :=
  match map with None => 0 | Some m => nodeSize m end.

Definition LnnMapInit : Map := mkMap None 0 0.

(** [LnnMapDelete]: the nodes it frees and the map it leaves. *)
Definition LnnMapDelete (map : Map) : list MapNode * Map :=
  match nodes map with
  | None => ([], map)
  | Some bs => (concat (take (Z.to_nat (bucketSize map)) bs), mkMap None 0 0)
  end.

Definition LnnMapInitIterator (mem : bool) (map : option Map) : option MapIterator :=
  match map with
  | None => None
  | Some m => if negb mem then None else Some (mkIterator [] 0 0 m)
  end.

Definition LnnMapHasNext (it : MapIterator) : bool := nodeNum it <? nodeSize (it_map it).

(** The [while] loop of [LnnMapNext]: [fuel] bounds the buckets left. *)
Fixpoint next_bucket (fuel : nat) (it : MapIterator) : option MapIterator :=
  match fuel with
  | O => Some it
  | S fuel =>
      if bucketNum it <? bucketSize (it_map it) then
        bs ← nodes (it_map it);
        chain ← bs !! Z.to_nat (bucketNum it);
        match chain with
        | [] => next_bucket fuel
            (mkIterator (it_node it) (nodeNum it) (u32 (bucketNum it + 1)) (it_map it))
        | _ => Some (mkIterator chain (u32 (nodeNum it + 1)) (u32 (bucketNum it + 1)) (it_map it))
        end
      else Some it
  end.

Definition LnnMapNext (it : MapIterator) : option MapIterator :=
  if LnnMapHasNext it then
    match it_node it with
    | _ :: n :: rest =>
        Some (mkIterator (n :: rest) (u32 (nodeNum it + 1)) (bucketNum it) (it_map it))
    | _ => next_bucket (Z.to_nat (bucketSize (it_map it))) it
    end
  else Some it.

(** A client's walk: while there is a next element, take it. *)
Fixpoint iterate (fuel : nat) (it : MapIterator) : option (list MapNode) :=
  match fuel with
  | O => None
  | S fuel =>
      if LnnMapHasNext it then
        it1 ← LnnMapNext it;
        n ← head (it_node it1);
        cons n <$> iterate fuel it1
      else Some []
  end.


(** ** The abstract map *)

Inductive map_op :=
  | MSet (mem_node : bool) (k v : list Z)
  | MGet (k : list Z)
  | MErase (k : list Z).

Inductive map_result := RCode (r : Z) | RValue (v : option (list Z)).

(** Operations on a finite map: the contract of the hash table. *)
Definition spec_op (g : gmap (list Z) (list Z)) (op : map_op)
    : map_result * gmap (list Z) (list Z) :=
  match op with
  | MSet mem_node k v =>
      if (length v =? 0)%nat || (1000 <? length v)%nat || (1000 <? length k)%nat
      then (RCode SOFTBUS_INVALID_PARAM, g)
      else match g !! k with
           | Some old => if (length old =? length v)%nat then (RCode SOFTBUS_OK, <[k := v]> g)
                         else (RCode SOFTBUS_INVALID_PARAM, g)
           | None => if mem_node then (RCode SOFTBUS_OK, <[k := v]> g)
                     else (RCode SOFTBUS_INVALID_PARAM, g)
           end
  | MGet k => (RValue (g !! k), g)
  | MErase k =>
      if decide (g = ∅) then (RCode SOFTBUS_INVALID_PARAM, g)
      else match g !! k with
           | Some _ => (RCode SOFTBUS_OK, delete k g)
           | None => (RCode SOFTBUS_ERR, g)
           end
  end.

(** The same operations on the table (bucket-array allocations succeed). *)
Definition table_op (m : Map) (op : map_op) : option (map_result * Map) :=
  match op with
  | MSet mem_node k v =>
      '(r, m') ← LnnMapSet true mem_node m (Some k) (Some v); Some (RCode r, m')
  | MGet k => v ← LnnMapGet m (Some k); Some (RValue v, m)
  | MErase k => '(r, m') ← LnnMapErase m (Some k); Some (RCode r, m')
  end.

Fixpoint spec_run (g : gmap (list Z) (list Z)) (ops : list map_op)
    : list map_result * gmap (list Z) (list Z) :=
  match ops with
  | [] => ([], g)
  | op :: ops =>
      let '(r, g1) := spec_op g op in
      let '(rs, g2) := spec_run g1 ops in (r :: rs, g2)
  end.

Fixpoint table_run (m : Map) (ops : list map_op) : option (list map_result * Map) :=
  match ops with
  | [] => Some ([], m)
  | op :: ops =>
      '(r, m1) ← table_op m op;
      '(rs, m2) ← table_run m1 ops;
      Some (r :: rs, m2)
  end.

(** ** Representation *)

Definition kv (n : MapNode) : list Z * list Z := (key n, value n).
Definition all_nodes (m : Map) : list MapNode := concat (default [] (nodes m)).

(** A node carries its key's hash and its value's size. *)
Definition node_ok (n : MapNode) : Prop :=
  hash n = MapHash (Some (key n)) /\ valueSize n = Z.of_nat (length (value n)).

(** The bucket array: absent while the map was never filled, else a power of
    two of buckets with every node in the bucket of its hash. *)
Definition shape (m : Map) : Prop :=
  match nodes m with
  | None => bucketSize m = 0
  | Some bs => exists k, 3 <= k <= 31 /\ bucketSize m = 2 ^ k /\ Z.of_nat (length bs) = 2 ^ k /\
      forall i chain n, bs !! i = Some chain -> n ∈ chain -> Z.of_nat i = MapHashIdx m (hash n)
  end.

Record map_rel (m : Map) (g : gmap (list Z) (list Z)) : Prop := {
  mr_shape : shape m;
  mr_nodes : Forall node_ok (all_nodes m);
  mr_size : nodeSize m = Z.of_nat (length (all_nodes m));
  mr_perm : kv <$> all_nodes m ≡ₚ map_to_list g;
}.

#[local] Arguments MapHash : simpl never.

Lemma MapHash_range k : 0 <= MapHash k < 2 ^ 31.
Proof.
  destruct k as [k|]; [|done]. unfold MapHash. set (f := foldl _ _ _).
  change 2147483647 with (Z.ones 31). rewrite Z.land_ones by lia. apply Z.mod_pos_bound. lia.
Qed.

Lemma hash_idx m h k : 0 <= k <= 31 -> bucketSize m = 2 ^ k -> MapHashIdx m h = h mod 2 ^ k.
Proof.
  intros Hk E. unfold MapHashIdx. rewrite E.
  assert (0 < 2 ^ k <= 2 ^ 31) by (split; [lia|apply Z.pow_le_mono_r; lia]).
  rewrite u32_small by lia. rewrite Z.sub_1_r, <- Z.ones_equiv. apply Z.land_ones. lia.
Qed.

(** A bucket and the rest of the table. *)
Lemma concat_bucket {A} (bs : list (list A)) i c : bs !! i = Some c ->
  exists rest, concat bs ≡ₚ c ++ rest /\ forall c', concat (<[i := c']> bs) ≡ₚ c' ++ rest.
Proof.
  intros E. exists (concat (take i bs) ++ concat (drop (S i) bs)).
  assert (forall c', concat (take i bs ++ c' :: drop (S i) bs) ≡ₚ
    c' ++ concat (take i bs) ++ concat (drop (S i) bs)) as Hc.
  { intros c'. rewrite concat_app. simpl. rewrite !app_assoc.
    f_equiv. apply Permutation_app_comm. }
  split.
  - rewrite <- (take_drop_middle bs i c E) at 1. apply Hc.
  - intros c'. rewrite insert_take_drop by (by eapply lookup_lt_Some). apply Hc.
Qed.

Lemma map_rel_lookup m g n : map_rel m g -> n ∈ all_nodes m -> g !! key n = Some (value n).
Proof.
  intros [] Hn. apply elem_of_map_to_list. rewrite <- mr_perm0.
  apply list_elem_of_fmap. by exists n.
Qed.

Lemma map_rel_node m g k v : map_rel m g -> g !! k = Some v ->
  exists n, n ∈ all_nodes m /\ key n = k /\ value n = v.
Proof.
  intros [] Hg. apply elem_of_map_to_list in Hg. rewrite <- mr_perm0 in Hg.
  apply list_elem_of_fmap in Hg as (n & E & Hn). exists n. unfold kv in E. by simplify_eq.
Qed.

Lemma map_rel_size m g : map_rel m g -> nodeSize m = Z.of_nat (size g).
Proof.
  intros []. rewrite mr_size0. f_equal. rewrite <- (length_fmap kv), mr_perm0.
  apply length_map_to_list.
Qed.


(** ** Nodes against the abstract map *)

Lemma rep_delete n N g :
  kv <$> n :: N ≡ₚ map_to_list g -> kv <$> N ≡ₚ map_to_list (delete (key n) g).
Proof.
  intros Hp. assert (g !! key n = Some (value n)) as Hg.
  { apply elem_of_map_to_list. rewrite <- Hp. by left. }
  apply (Permutation_cons_inv (a := kv n)). rewrite <- fmap_cons, Hp.
  symmetry. by apply map_to_list_delete.
Qed.

Lemma rep_insert n N g : g !! key n = None ->
  kv <$> N ≡ₚ map_to_list g -> kv <$> n :: N ≡ₚ map_to_list (<[key n := value n]> g).
Proof. intros Hg Hp. rewrite map_to_list_insert by done. rewrite fmap_cons. by rewrite Hp. Qed.

Lemma rep_update n n' N g : key n' = key n ->
  kv <$> n :: N ≡ₚ map_to_list g -> kv <$> n' :: N ≡ₚ map_to_list (<[key n := value n']> g).
Proof.
  intros E Hp. rewrite <- (insert_delete_eq g), <- E. apply rep_insert.
  - rewrite E. apply lookup_delete_eq.
  - rewrite E. by apply rep_delete.
Qed.

Lemma rep_nodup N g : kv <$> N ≡ₚ map_to_list g -> NoDup (key <$> N).
Proof.
  intros Hp. assert (key <$> N = (kv <$> N).*1) as -> by (rewrite <- list_fmap_compose; done).
  rewrite Hp. apply NoDup_fst_map_to_list.
Qed.

(** ** Chains *)

Lemma chain_split k chain : k ∈ (key <$> chain) ->
  exists pre n post, chain = pre ++ n :: post /\ key n = k /\ k ∉ (key <$> pre).
Proof.
  induction chain as [|x chain IH]; intros Hin; [by apply elem_of_nil in Hin|].
  destruct (decide (key x = k)) as [E|Hne].
  - exists [], x, chain. split_and!; [done|done|apply not_elem_of_nil].
  - rewrite fmap_cons in Hin. apply elem_of_cons in Hin as [->|Hin]; [done|].
    destruct (IH Hin) as (pre & n & post & -> & E & Hpre). exists (x :: pre), n, post.
    split_and!; [done|done|]. rewrite fmap_cons, not_elem_of_cons. done.
Qed.

Lemma chain_miss h k v sz chain : k ∉ (key <$> chain) ->
  get_in_chain h k chain = None /\ set_in_chain h k v sz chain = None /\
  erase_in_chain h k chain = None.
Proof.
  induction chain as [|x chain IH]; intros Hk; [done|].
  rewrite fmap_cons, not_elem_of_cons in Hk. destruct Hk as [Hne Hk].
  destruct (IH Hk) as (E1 & E2 & E3). simpl.
  rewrite (bool_decide_eq_false_2 (key x = k)) by done.
  rewrite andb_false_r, orb_true_r, E1, E2, E3. done.
Qed.

Lemma chain_hit k v sz pre n post : k ∉ (key <$> pre) -> key n = k ->
  get_in_chain (hash n) k (pre ++ n :: post) = Some (value n) /\
  erase_in_chain (hash n) k (pre ++ n :: post) = Some (pre ++ post) /\
  set_in_chain (hash n) k v sz (pre ++ n :: post) =
    Some (if valueSize n =? sz
          then (SOFTBUS_OK, pre ++ mkNode (hash n) (valueSize n) (key n) v :: post)
          else (SOFTBUS_INVALID_PARAM, pre ++ n :: post)).
Proof.
  intros Hk En. induction pre as [|x pre IH]; simpl.
  - rewrite Z.eqb_refl, (bool_decide_eq_true_2 (key n = k)) by done. simpl.
    by destruct (valueSize n =? sz).
  - rewrite fmap_cons, not_elem_of_cons in Hk. destruct Hk as [Hne Hk].
    destruct (IH Hk) as (E1 & E2 & E3).
    rewrite (bool_decide_eq_false_2 (key x = k)) by done.
    rewrite andb_false_r, orb_true_r, E1, E2, E3. by destruct (valueSize n =? sz).
Qed.

(** ** Buckets *)

Lemma idx_lookup m bs h : shape m -> nodes m = Some bs -> 0 <= h ->
  exists chain, bs !! Z.to_nat (MapHashIdx m h) = Some chain /\ 0 <= MapHashIdx m h.
Proof.
  intros Hs E Hh. unfold shape in Hs. rewrite E in Hs. destruct Hs as (k & Hk & Eb & El & _).
  rewrite (hash_idx m h k) by lia. pose proof (Z.mod_pos_bound h (2 ^ k)).
  assert (0 < 2 ^ k) by lia.
  destruct (lookup_lt_is_Some_2 bs (Z.to_nat (h mod 2 ^ k))) as [c Hc]; [lia|]. eauto with lia.
Qed.

(** The bucket of a key holds every node with that key. *)
Lemma bucket_of m g bs k : map_rel m g -> nodes m = Some bs ->
  let idx := Z.to_nat (MapHashIdx m (MapHash (Some k))) in
  exists chain rest, bs !! idx = Some chain /\ all_nodes m ≡ₚ chain ++ rest /\
    (forall c', concat (<[idx := c']> bs) ≡ₚ c' ++ rest) /\ k ∉ (key <$> rest).
Proof.
  intros Hrel E idx. pose proof Hrel as [].
  destruct (idx_lookup m bs (MapHash (Some k)) mr_shape0 E) as (chain & Hc & Hidx).
  { apply MapHash_range. }
  destruct (concat_bucket bs idx chain Hc) as (rest & Hall & Hupd). exists chain, rest.
  assert (all_nodes m = concat bs) as Ea by (unfold all_nodes; by rewrite E).
  rewrite Ea. split_and!; [done|done|done|]. intros Hin.
  apply list_elem_of_fmap in Hin as (n & -> & Hn).
  assert (n ∈ concat bs) as Hn' by (rewrite Hall; apply elem_of_app; by right).
  assert (node_ok n) as [Hh _] by (rewrite Ea, Forall_forall in mr_nodes0; auto).
  apply list_elem_of_In, in_concat in Hn' as (c & Hci & Hnc).
  apply list_elem_of_In, list_elem_of_lookup in Hci as (i & Hi). apply list_elem_of_In in Hnc.
  assert (i = idx) as ->.
  { unfold shape in mr_shape0. rewrite E in mr_shape0. destruct mr_shape0 as (b & _ & _ & _ & Hp).
    specialize (Hp i c n Hi Hnc). rewrite Hh in Hp. unfold idx. lia. }
  unfold idx in *. rewrite Hc in Hi. simplify_eq.
  pose proof (rep_nodup _ _ mr_perm0) as Hnd. rewrite Ea, Hall, fmap_app in Hnd.
  apply NoDup_app in Hnd as (_ & Hd & _). apply (Hd (key n)).
  - by apply list_elem_of_fmap_2.
  - by apply list_elem_of_fmap_2.
Qed.

Lemma shape_update m bs idx c' sz : shape m -> nodes m = Some bs ->
  (forall n, n ∈ c' -> Z.of_nat idx = MapHashIdx m (hash n)) ->
  shape (mkMap (Some (<[idx := c']> bs)) sz (bucketSize m)).
Proof.
  intros Hs E Hc'. unfold shape in *. rewrite E in Hs. destruct Hs as (k & Hk & Eb & El & Hp).
  simpl. exists k. rewrite length_insert. split_and!; try done; try lia.
  intros i chain n Hi Hn. unfold MapHashIdx in *. simpl.
  apply list_lookup_insert_Some in Hi as [(<- & <- & _)|(_ & Hi)]; [auto|by eapply Hp].
Qed.

(** ** Adding nodes and resizing *)

Lemma MapAddNode_ok m n : shape m -> nodes m <> None -> 0 <= hash n ->
  exists m', MapAddNode m n = Some m' /\ shape m' /\ nodes m' <> None /\
    all_nodes m' ≡ₚ n :: all_nodes m /\ nodeSize m' = nodeSize m /\ bucketSize m' = bucketSize m.
Proof.
  intros Hs Hne Hh. destruct (nodes m) as [bs|] eqn:E; [|done]. unfold MapAddNode. rewrite E. simpl.
  destruct (idx_lookup m bs (hash n) Hs E Hh) as (chain & Hc & Hidx). rewrite Hc. simpl.
  eexists. split; [done|]. split_and!; try done.
  - eapply shape_update; [done|done|]. intros x Hx. apply elem_of_cons in Hx as [->|Hx]; [lia|].
    unfold shape in Hs. rewrite E in Hs. destruct Hs as (k & _ & _ & _ & Hp). by eapply Hp.
  - unfold all_nodes. rewrite E. simpl. destruct (concat_bucket bs _ chain Hc) as (rest & Ha & Hu).
    by rewrite Hu, Ha.
Qed.

Lemma add_chain_ok m chain : shape m -> nodes m <> None -> Forall (fun n => 0 <= hash n) chain ->
  exists m', add_chain (Some m) chain = Some m' /\ shape m' /\ nodes m' <> None /\
    all_nodes m' ≡ₚ chain ++ all_nodes m /\ nodeSize m' = nodeSize m /\
    bucketSize m' = bucketSize m.
Proof.
  revert m. induction chain as [|n chain IH]; intros m Hs Hne Hh; [by exists m|].
  apply Forall_cons in Hh as [Hn Hh].
  destruct (MapAddNode_ok m n Hs Hne Hn) as (m1 & E1 & S1 & N1 & A1 & Z1 & B1).
  destruct (IH m1 S1 N1 Hh) as (m2 & E2 & S2 & N2 & A2 & Z2 & B2). exists m2.
  unfold add_chain in *. simpl. rewrite E1, E2. split_and!; try done; try congruence.
  rewrite A2, A1. symmetry. apply Permutation_middle.
Qed.

Lemma add_chains_ok m chains : shape m -> nodes m <> None ->
  Forall (fun n => 0 <= hash n) (concat chains) ->
  exists m', foldl add_chain (Some m) chains = Some m' /\ shape m' /\ nodes m' <> None /\
    all_nodes m' ≡ₚ concat chains ++ all_nodes m /\ nodeSize m' = nodeSize m /\
    bucketSize m' = bucketSize m.
Proof.
  revert m. induction chains as [|c chains IH]; intros m Hs Hne Hh; [by exists m|].
  simpl in Hh. apply Forall_app in Hh as [Hc Hh].
  destruct (add_chain_ok m c Hs Hne Hc) as (m1 & E1 & S1 & N1 & A1 & Z1 & B1).
  destruct (IH m1 S1 N1 Hh) as (m2 & E2 & S2 & N2 & A2 & Z2 & B2). exists m2.
  cbn [foldl]. rewrite E1, E2. split_and!; try done; try congruence.
  rewrite A2, A1. simpl. rewrite !app_assoc. f_equiv. apply Permutation_app_comm.
Qed.

Lemma concat_replicate_nil {A} n : concat (replicate n ([] : list A)) = [].
Proof. by induction n. Qed.

Lemma MapResize_ok m g k : map_rel m g -> 3 <= k <= 31 ->
  exists m', MapResize true m (2 ^ k) = Some (SOFTBUS_OK, m') /\ map_rel m' g /\
    nodes m' <> None /\ bucketSize m' = 2 ^ k.
Proof.
  intros Hrel Hk. pose proof Hrel as []. unfold MapResize. simpl negb. cbv iota.
  set (m1 := mkMap _ _ _). assert (0 < 2 ^ k) by (apply Z.pow_pos_nonneg; lia).
  assert (shape m1) as S1.
  { exists k. simpl. rewrite length_replicate. split_and!; try lia.
    intros i chain n Hi Hn. apply lookup_replicate in Hi as [-> _]. by apply elem_of_nil in Hn. }
  assert (all_nodes m1 = []) as A1 by (unfold all_nodes; apply concat_replicate_nil).
  destruct (nodes m) as [bs|] eqn:E.
  - assert (all_nodes m = concat bs) as Ea by (unfold all_nodes; by rewrite E).
    destruct (add_chains_ok m1 bs S1) as (m2 & -> & S2 & N2 & A2 & Z2 & B2); [done| |].
    { rewrite <- Ea. eapply Forall_impl; [exact mr_nodes0|]. intros n [-> _]. apply MapHash_range. }
    rewrite A1, app_nil_r in A2. rewrite <- Ea in A2. exists m2. split_and!; try done. split.
    + done.
    + by rewrite A2.
    + by rewrite Z2, A2.
    + by rewrite A2.
  - assert (all_nodes m = []) as Ea by (unfold all_nodes; by rewrite E).
    rewrite Ea in *. exists m1. split_and!; try done. by split; rewrite ?A1.
Qed.


(** ** The operations refine the abstract map *)

Lemma enlarge m g : map_rel m g -> Z.of_nat (size g) < 2 ^ 30 -> nodeSize m >= bucketSize m ->
  exists k, 3 <= k <= 31 /\
    (if bucketSize m <? HDF_MIN_MAP_SIZE then HDF_MIN_MAP_SIZE
     else u32 (Z.shiftl (bucketSize m) HDF_ENLARGE_FACTOR)) = 2 ^ k.
Proof.
  intros Hrel Hsz Hge. rewrite (map_rel_size m g Hrel) in Hge. pose proof Hrel as [Hs _ _ _].
  unfold shape in Hs. destruct (nodes m) as [bs|].
  - destruct Hs as (k & Hk & Eb & _). rewrite Eb in *.
    assert (k < 30) by (apply (Z.pow_lt_mono_r_iff 2); lia).
    assert (2 ^ 3 <= 2 ^ k) by (apply Z.pow_le_mono_r; lia).
    exists (k + 2). split; [lia|]. unfold HDF_MIN_MAP_SIZE, HDF_ENLARGE_FACTOR.
    replace (2 ^ k <? 8) with false by lia.
    rewrite Z.shiftl_mul_pow2, <- Z.pow_add_r by lia. apply u32_small.
    split; [lia|]. apply Z.pow_lt_mono_r; lia.
  - rewrite Hs. by exists 3.
Qed.

Lemma set_new_refines m g mem k v : map_rel m g -> Z.of_nat (size g) < 2 ^ 30 -> g !! k = None ->
  exists m', set_new true mem m (MapHash (Some k)) k v (Z.of_nat (length v)) =
      Some (if mem then SOFTBUS_OK else SOFTBUS_INVALID_PARAM, m') /\
    map_rel m' (if mem then <[k := v]> g else g).
Proof.
  intros Hrel Hsz Hg. unfold set_new.
  assert (exists m1, (if nodeSize m >=? bucketSize m
    then snd <$> MapResize true m (if bucketSize m <? HDF_MIN_MAP_SIZE then HDF_MIN_MAP_SIZE
      else u32 (Z.shiftl (bucketSize m) HDF_ENLARGE_FACTOR)) else Some m) = Some m1 /\
    map_rel m1 g /\ nodes m1 <> None) as (m1 & -> & R1 & N1).
  { destruct (nodeSize m >=? bucketSize m) eqn:E.
    - destruct (enlarge m g Hrel Hsz) as (b & Hb & ->); [lia|].
      destruct (MapResize_ok m g b Hrel Hb) as (m1 & -> & R1 & N1 & _). exists m1. done.
    - exists m. split_and!; [done|done|]. intros En. pose proof Hrel as [Hs _ _ _].
      unfold shape in Hs. rewrite En in Hs. rewrite (map_rel_size m g Hrel) in E. lia. }
  simpl. destruct mem; simpl; [|by exists m1]. pose proof R1 as [S1 F1 Z1 P1].
  set (n := mkNode _ _ k v).
  destruct (MapAddNode_ok m1 n S1 N1) as (m2 & -> & S2 & N2 & A2 & Z2 & B2).
  { exact (proj1 (MapHash_range (Some k))). }
  simpl. eexists. split; [done|].
  assert (all_nodes (mkMap (nodes m2) (u32 (nodeSize m2 + 1)) (bucketSize m2)) ≡ₚ
    n :: all_nodes m1) as A2' by exact A2.
  split.
  - exact S2.
  - rewrite A2'. by constructor.
  - rewrite A2'. simpl. rewrite Z2, Z1, u32_small; [lia|].
    rewrite <- Z1, (map_rel_size m1 g R1). lia.
  - rewrite A2'. by apply (rep_insert n).
Qed.

(** The nodes of a key's bucket, split at the key's node. *)
Lemma find_node m g bs k v : map_rel m g -> nodes m = Some bs -> g !! k = Some v ->
  let idx := Z.to_nat (MapHashIdx m (MapHash (Some k))) in
  exists pre n post rest, bs !! idx = Some (pre ++ n :: post) /\ key n = k /\ value n = v /\
    node_ok n /\ (k ∉ (key <$> pre)) /\ (all_nodes m ≡ₚ n :: (pre ++ post) ++ rest) /\
    (forall c', concat (<[idx := c']> bs) ≡ₚ c' ++ rest) /\
    (forall x, x ∈ pre ++ n :: post -> Z.of_nat idx = MapHashIdx m (hash x)).
Proof.
  intros Hrel E Hg idx. destruct (bucket_of m g bs k Hrel E) as (chain & rest & Hc & Ha & Hu & Hr).
  destruct (map_rel_node m g k v Hrel Hg) as (n & Hn & Ek & Ev).
  assert (k ∈ (key <$> chain)) as Hin.
  { rewrite Ha in Hn. apply elem_of_app in Hn as [Hn|Hn].
    - rewrite <- Ek. by apply list_elem_of_fmap_2.
    - destruct Hr. rewrite <- Ek. by apply list_elem_of_fmap_2. }
  destruct (chain_split k chain Hin) as (pre & n' & post & -> & Ek' & Hpre).
  assert (n' ∈ all_nodes m) as Hn'.
  { rewrite Ha, !elem_of_app, elem_of_cons. auto. }
  exists pre, n', post, rest. split_and!; try done.
  - pose proof (map_rel_lookup m g n' Hrel Hn') as Hg'. rewrite Ek', Hg in Hg'. by simplify_eq.
  - destruct Hrel as [_ F _ _]. rewrite Forall_forall in F. auto.
  - rewrite Ha. rewrite <- (Permutation_middle pre post n'). done.
  - intros x Hx. destruct Hrel as [Hs _ _ _]. unfold shape in Hs. rewrite E in Hs.
    destruct Hs as (b & _ & _ & _ & Hp). by eapply Hp.
Qed.

Lemma absent_node m g bs k : map_rel m g -> nodes m = Some bs -> g !! k = None ->
  exists chain, bs !! Z.to_nat (MapHashIdx m (MapHash (Some k))) = Some chain /\
    k ∉ (key <$> chain).
Proof.
  intros Hrel E Hg. destruct (bucket_of m g bs k Hrel E) as (chain & rest & Hc & Ha & _).
  exists chain. split; [done|]. intros Hin. apply list_elem_of_fmap in Hin as (n & -> & Hn).
  rewrite (map_rel_lookup m g n Hrel) in Hg; [done|]. rewrite Ha. apply elem_of_app. by left.
Qed.

Lemma map_rel_empty m g : map_rel m g -> (nodeSize m = 0 <-> g = ∅).
Proof.
  intros Hrel. rewrite (map_rel_size m g Hrel). rewrite <- map_size_empty_iff. lia.
Qed.

Lemma map_rel_no_nodes m g : map_rel m g -> nodes m = None -> g = ∅.
Proof.
  intros Hrel E. apply (map_rel_empty m g Hrel). destruct Hrel as [_ _ -> _].
  unfold all_nodes. by rewrite E.
Qed.

(** Replacing a node by one with the same key, hash and size. *)
Lemma update_rel m g bs k v old pre n post rest :
  let idx := Z.to_nat (MapHashIdx m (MapHash (Some k))) in
  let n' := mkNode (hash n) (valueSize n) (key n) v in
  map_rel m g -> nodes m = Some bs -> key n = k -> hash n = MapHash (Some k) ->
  valueSize n = Z.of_nat (length v) -> value n = old ->
  all_nodes m ≡ₚ n :: (pre ++ post) ++ rest ->
  (forall c', concat (<[idx := c']> bs) ≡ₚ c' ++ rest) ->
  (forall x, x ∈ pre ++ n :: post -> Z.of_nat idx = MapHashIdx m (hash x)) ->
  map_rel (mkMap (Some (<[idx := pre ++ n' :: post]> bs)) (nodeSize m) (bucketSize m)) (<[k := v]> g).
Proof.
  intros idx n' [Hs F Hz P] En Ek Hh Hvs Ev Ha Hu Hp. set (m' := mkMap _ _ _).
  assert (all_nodes m' ≡ₚ n' :: (pre ++ post) ++ rest) as A'.
  { unfold all_nodes. simpl. rewrite Hu. rewrite <- (Permutation_middle pre post n'). done. }
  rewrite Ha in F. apply Forall_cons in F as [Fn F].
  split.
  - eapply shape_update; [done|done|]. intros x Hx.
    apply elem_of_app in Hx as [Hx|[->|Hx]%elem_of_cons]; [| |].
    + apply Hp, elem_of_app. by left.
    + apply (Hp n), elem_of_app. right. by left.
    + apply Hp, elem_of_app. right. by right.
  - rewrite A'. constructor; [|done]. split; simpl; [by rewrite Ek|done].
  - rewrite A'. simpl. rewrite Hz, Ha. done.
  - rewrite A'. rewrite <- Ek. apply (rep_update n n'); [done|]. by rewrite <- Ha.
Qed.

Lemma set_old_refines m g bs k v old :
  map_rel m g -> nodes m = Some bs -> g !! k = Some old ->
  let idx := Z.to_nat (MapHashIdx m (MapHash (Some k))) in
  let ok := (length old =? length v)%nat in
  exists chain chain', bs !! idx = Some chain /\
    set_in_chain (MapHash (Some k)) k v (Z.of_nat (length v)) chain =
      Some (if ok then SOFTBUS_OK else SOFTBUS_INVALID_PARAM, chain') /\
    map_rel (mkMap (Some (<[idx := chain']> bs)) (nodeSize m) (bucketSize m))
      (if ok then <[k := v]> g else g).
Proof.
  intros Hrel En Hg idx ok. destruct (find_node m g bs k old Hrel En Hg) as
    (pre & n & post & rest & Hc & Ek & Ev & [Hh Hvs] & Hpre & Ha & Hu & Hp).
  rewrite Ek in Hh. exists (pre ++ n :: post).
  destruct (chain_hit k v (Z.of_nat (length v)) pre n post Hpre Ek) as (_ & _ & Hset).
  rewrite <- Hh, Hset, Hvs, Ev. unfold ok.
  destruct (Nat.eqb_spec (length old) (length v)) as [El|El].
  - replace (Z.of_nat (length old) =? Z.of_nat (length v)) with true by bool_lia.
    eexists. split; [done|]. split; [done|]. unfold idx. rewrite <- Ev, <- Hvs.
    apply (update_rel m g bs k v old pre n post rest); try done. by rewrite Hvs, Ev, El.
  - replace (Z.of_nat (length old) =? Z.of_nat (length v)) with false by bool_lia.
    eexists. split; [done|]. split; [done|].
    rewrite list_insert_id by done. rewrite <- En. by destruct m.
Qed.

Lemma set_refines m g mem k v : map_rel m g -> Z.of_nat (size g) < 2 ^ 30 ->
  exists r m', LnnMapSet true mem m (Some k) (Some v) = Some (r, m') /\
    (spec_op g (MSet mem k v)).1 = RCode r /\ map_rel m' (spec_op g (MSet mem k v)).2.
Proof.
  intros Hrel Hsz. unfold LnnMapSet, spec_op, HDF_MAP_KEY_MAX_SIZE, HDF_MAP_VALUE_MAX_SIZE.
  destruct (Nat.eqb_spec (length v) 0) as [Hv|Hv]; simpl.
  { rewrite Hv. by exists SOFTBUS_INVALID_PARAM, m. }
  replace (Z.of_nat (length v) =? 0) with false by bool_lia.
  replace ((Z.of_nat (length v) >? 1000) || (Z.of_nat (length k) >? 1000))
    with ((1000 <? length v)%nat || (1000 <? length k)%nat)
    by (destruct (Nat.ltb_spec 1000 (length v)), (Nat.ltb_spec 1000 (length k)); lia).
  destruct ((1000 <? length v)%nat || (1000 <? length k)%nat) eqn:Eb.
  { simpl. by exists SOFTBUS_INVALID_PARAM, m. }
  destruct (g !! k) as [old|] eqn:Hg.
  - destruct (nodes m) as [bs|] eqn:En.
    2: { rewrite (map_rel_no_nodes m g Hrel En) in Hg. by rewrite lookup_empty in Hg. }
    assert ((nodeSize m >? 0) = true) as ->.
    { destruct (Z.eq_dec (nodeSize m) 0) as [E0|]; [|rewrite (map_rel_size m g Hrel) in *; lia].
      apply (map_rel_empty m g Hrel) in E0 as ->. by rewrite lookup_empty in Hg. }
    destruct (set_old_refines m g bs k v old Hrel En Hg) as (chain & chain' & -> & E & R).
    cbn [mbind option_bind]. rewrite E. eexists _, _. split; [done|].
    by destruct (length old =? length v)%nat.
  - destruct (set_new_refines m g mem k v Hrel Hsz Hg) as (m' & Enew & R').
    exists (if mem then SOFTBUS_OK else SOFTBUS_INVALID_PARAM), m'. split; [|by destruct mem].
    destruct (nodes m) as [bs|] eqn:En; [|done]. destruct (nodeSize m >? 0); [|done].
    destruct (absent_node m g bs k Hrel En Hg) as (chain & Hc & Hk). rewrite Hc.
    cbn [mbind option_bind].
    destruct (chain_miss (MapHash (Some k)) k v (Z.of_nat (length v)) chain Hk) as (_ & -> & _).
    done.
Qed.

Lemma get_refines m g k : map_rel m g -> LnnMapGet m (Some k) = Some (g !! k).
Proof.
  intros Hrel. unfold LnnMapGet. destruct (nodes m) as [bs|] eqn:En.
  2: { by rewrite (map_rel_no_nodes m g Hrel En), lookup_empty. }
  destruct (nodeSize m =? 0) eqn:E0.
  { apply Z.eqb_eq, (map_rel_empty m g Hrel) in E0 as ->. by rewrite lookup_empty. }
  destruct (g !! k) as [v|] eqn:Hg.
  - destruct (find_node m g bs k v Hrel En Hg) as
      (pre & n & post & rest & -> & Ek & Ev & [Hh _] & Hpre & _).
    destruct (chain_hit k v 0 pre n post Hpre Ek) as (Hget & _). rewrite Ek in Hh.
    rewrite <- Hh. cbn [mbind option_bind]. by rewrite Hget, Ev.
  - destruct (absent_node m g bs k Hrel En Hg) as (chain & -> & Hk). cbn [mbind option_bind].
    by destruct (chain_miss (MapHash (Some k)) k [] 0 chain Hk) as (-> & _).
Qed.

Lemma erase_refines m g k : map_rel m g -> Z.of_nat (size g) < 2 ^ 30 ->
  exists r m', LnnMapErase m (Some k) = Some (r, m') /\
    (spec_op g (MErase k)).1 = RCode r /\ map_rel m' (spec_op g (MErase k)).2.
Proof.
  intros Hrel Hsz. unfold LnnMapErase, spec_op. destruct (nodes m) as [bs|] eqn:En.
  2: { rewrite decide_True by (by eapply map_rel_no_nodes). eauto. }
  destruct (Z.eqb_spec (nodeSize m) 0) as [E0|E0].
  { rewrite decide_True by (by apply (map_rel_empty m g Hrel)). eauto. }
  rewrite decide_False by (by rewrite <- (map_rel_empty m g Hrel)).
  destruct (g !! k) as [v|] eqn:Hg.
  - destruct (find_node m g bs k v Hrel En Hg) as
      (pre & n & post & rest & -> & Ek & Ev & [Hh _] & Hpre & Ha & Hu & Hp).
    destruct (chain_hit k v 0 pre n post Hpre Ek) as (_ & Her & _). rewrite Ek in Hh.
    rewrite Hh in Her. cbn [mbind option_bind]. rewrite Her. eexists _, _. split; [done|].
    split; [done|]. simpl. rewrite <- (map_rel_size m g Hrel) in Hsz.
    destruct Hrel as [Hs F Hz P]. set (m' := mkMap _ _ _).
    assert (all_nodes m' ≡ₚ (pre ++ post) ++ rest) as A' by (unfold all_nodes; simpl; by rewrite Hu).
    rewrite Ha in F, Hz, P. apply Forall_cons in F as [Fn F]. split.
    + eapply shape_update; [done|done|]. intros x Hx. apply Hp.
      apply elem_of_app in Hx as [Hx|Hx]; apply elem_of_app; [by left|by right; right].
    + by rewrite A'.
    + rewrite A'. simpl in Hz |- *. rewrite u32_small; lia.
    + rewrite A', <- Ek. by apply rep_delete.
  - destruct (absent_node m g bs k Hrel En Hg) as (chain & -> & Hk). cbn [mbind option_bind].
    destruct (chain_miss (MapHash (Some k)) k [] 0 chain Hk) as (_ & _ & ->). eauto.
Qed.


Lemma spec_size g op : (size (spec_op g op).2 <= S (size g))%nat.
Proof.
  assert (forall k v, (size (<[k := v]> g) <= S (size g))%nat) as Hins.
  { intros k v. rewrite map_size_insert. destruct (g !! k); simpl; lia. }
  assert (forall k, (size (delete k g) <= S (size g))%nat) as Hdel.
  { intros k. rewrite map_size_delete. destruct (g !! k); simpl; lia. }
  destruct op as [mem k v|k|k]; simpl.
  - case_if; [simpl; lia|]. destruct (g !! k); [case_if|destruct mem];
      simpl; first [apply Hins|lia].
  - lia.
  - case_decide; simpl; [lia|]. destruct (g !! k); simpl; first [apply Hdel|lia].
Qed.

Lemma table_op_refines m g op : map_rel m g -> Z.of_nat (size g) < 2 ^ 30 ->
  exists m', table_op m op = Some ((spec_op g op).1, m') /\ map_rel m' (spec_op g op).2.
Proof.
  intros Hrel Hsz. destruct op as [mem k v|k|k]; unfold table_op.
  - destruct (set_refines m g mem k v Hrel Hsz) as (r & m' & -> & -> & R). by exists m'.
  - rewrite (get_refines m g k Hrel). by exists m.
  - destruct (erase_refines m g k Hrel Hsz) as (r & m' & -> & -> & R). by exists m'.
Qed.

Lemma table_run_refines m g ops : map_rel m g ->
  Z.of_nat (size g) + Z.of_nat (length ops) < 2 ^ 30 ->
  exists m', table_run m ops = Some ((spec_run g ops).1, m') /\ map_rel m' (spec_run g ops).2.
Proof.
  revert m g. induction ops as [|op ops IH]; intros m g Hrel Hsz; [by exists m|].
  rewrite length_cons in Hsz. pose proof (spec_size g op) as Hs.
  destruct (table_op_refines m g op Hrel) as (m1 & E1 & R1); [lia|].
  destruct (IH m1 (spec_op g op).2 R1) as (m2 & E2 & R2); [lia|]. exists m2.
  cbn [table_run spec_run]. rewrite E1. cbn [mbind option_bind]. rewrite E2.
  cbn [mbind option_bind]. destruct (spec_op g op) as [r g1]. simpl in *.
  by destruct (spec_run g1 ops).
Qed.

Lemma LnnMapInit_rel : map_rel LnnMapInit ∅.
Proof. split; simpl; [done|constructor|done|]. by rewrite map_to_list_empty. Qed.

(** ** Iteration *)

Section iteration.
Context (m : Map) (bs : list (list MapNode)).
Hypothesis Hbs : nodes m = Some bs.
Hypothesis Hlen : bucketSize m = Z.of_nat (length bs).
Hypothesis Hb : Z.of_nat (length bs) < 2 ^ 32.
Hypothesis Hsize : nodeSize m = Z.of_nat (length (concat bs)).
Hypothesis Hn : nodeSize m < 2 ^ 32.

(** The nodes an iterator has not passed. *)
Definition remaining (c : list MapNode) (b : nat) : list MapNode := tl c ++ concat (drop b bs).

Lemma next_bucket_spec fuel c num b :
  (length bs - b <= fuel)%nat -> concat (drop b bs) <> [] ->
  exists n c' b', concat (drop b bs) = n :: c' ++ concat (drop b' bs) /\ (b' <= length bs)%nat /\
    next_bucket fuel (mkIterator c num (Z.of_nat b) m) =
      Some (mkIterator (n :: c') (u32 (num + 1)) (Z.of_nat b') m).
Proof.
  revert b. induction fuel as [|fuel IH]; intros b Hf Hne.
  { rewrite drop_ge in Hne by lia. done. }
  destruct (lookup_lt_is_Some_2 bs b) as [chain Hc].
  { destruct (decide (b < length bs)%nat); [done|]. rewrite drop_ge in Hne by lia. done. }
  pose proof (lookup_lt_Some _ _ _ Hc). simpl.
  rewrite (drop_S bs chain b Hc) in *. simpl in *.
  replace (Z.of_nat b <? bucketSize m) with true by (rewrite Hlen; bool_lia).
  rewrite Hbs. simpl. rewrite Nat2Z.id, Hc. simpl.
  rewrite (u32_small (Z.of_nat b + 1)) by lia.
  replace (Z.of_nat b + 1) with (Z.of_nat (S b)) by lia.
  destruct chain as [|n c'].
  - simpl in *. destruct (IH (S b)) as (n & c' & b' & E & Hb' & Enx); [lia|done|].
    exists n, c', b'. rewrite Enx. by rewrite E.
  - exists n, c', (S b). split_and!; [done|lia|done].
Qed.

Lemma next_spec c num b x xs :
  num < nodeSize m -> remaining c b = x :: xs ->
  exists c' b', remaining (x :: c') b' = xs /\ ((b <= length bs)%nat -> (b' <= length bs)%nat) /\
    LnnMapNext (mkIterator c num (Z.of_nat b) m) =
      Some (mkIterator (x :: c') (u32 (num + 1)) (Z.of_nat b') m).
Proof.
  intros Hnum Er. unfold LnnMapNext, LnnMapHasNext. simpl.
  replace (num <? nodeSize m) with true by lia.
  assert (tl c = [] -> exists c' b', remaining (x :: c') b' = xs /\ (b' <= length bs)%nat /\
    next_bucket (Z.to_nat (bucketSize m)) (mkIterator c num (Z.of_nat b) m) =
      Some (mkIterator (x :: c') (u32 (num + 1)) (Z.of_nat b') m)) as Hnext.
  { intros Ec. unfold remaining in Er. rewrite Ec in Er. simpl in Er.
    destruct (next_bucket_spec (Z.to_nat (bucketSize m)) c num b) as (n & c' & b' & E & Hb' & Enx);
      [rewrite Hlen; lia|by rewrite Er|]. rewrite Er in E. simplify_eq.
    exists c', b'. done. }
  destruct c as [|y [|n rest]].
  1, 2: destruct (Hnext eq_refl) as (c' & b' & E1 & E2 & E3); exists c', b'; done.
  unfold remaining in Er. simplify_eq/=. exists rest, b. done.
Qed.

Lemma iterate_spec fuel c b :
  (length (remaining c b) < fuel)%nat -> (b <= length bs)%nat ->
  (length (remaining c b) <= length (concat bs))%nat ->
  iterate fuel (mkIterator c (nodeSize m - Z.of_nat (length (remaining c b))) (Z.of_nat b) m) =
  Some (remaining c b).
Proof.
  revert c b. induction fuel as [|fuel IH]; intros c b Hf Hbl Hrl; [lia|].
  cbn [iterate]. destruct (remaining c b) as [|x xs] eqn:Er; unfold LnnMapHasNext at 1; simpl.
  { by replace (_ <? nodeSize m) with false by bool_lia. }
  replace (_ <? nodeSize m) with true by bool_lia.
  destruct (next_spec c (nodeSize m - Z.of_nat (length (x :: xs))) b x xs) as
    (c' & b' & Exs & Hb' & Enx); [simpl; lia|done|].
  simpl in Enx. rewrite Enx. simpl in Hf, Hrl |- *.
  replace (u32 (nodeSize m - Z.of_nat (S (length xs)) + 1)) with
    (nodeSize m - Z.of_nat (length xs)) by (rewrite u32_small; lia).
  pose proof (IH (x :: c') b') as Hit. rewrite Exs in Hit. rewrite Hit by (auto; lia). done.
Qed.

End iteration.


(** ** Properties *)


(** iteration.  An iterator over a table that represents [g] visits every
    entry of [g] exactly once, and then has no next element. *)
Theorem iterator_enumerates m g : map_rel m g -> Z.of_nat (size g) < 2 ^ 32 ->
  exists it ns, LnnMapInitIterator true (Some m) = Some it /\
    iterate (S (size g)) it = Some ns /\ kv <$> ns ≡ₚ map_to_list g.
Proof.
  intros Hrel Hsz. pose proof Hrel as [Hs _ Hz Hp]. exists (mkIterator [] 0 0 m).
  rewrite (map_rel_size m g Hrel) in Hz. destruct (nodes m) as [bs|] eqn:E.
  - exists (concat bs). split; [done|]. unfold all_nodes in Hz, Hp. rewrite E in Hz, Hp.
    split; [|done]. unfold shape in Hs. rewrite E in Hs. destruct Hs as (k & Hk & Eb & El & _).
    assert (2 ^ k <= 2 ^ 31) by (apply Z.pow_le_mono_r; lia).
    pose proof (map_rel_size m g Hrel) as Hns. simpl in Hz.
    pose proof (iterate_spec m bs E) as Hit. unfold remaining in Hit.
    specialize (Hit ltac:(lia) ltac:(lia) ltac:(lia) ltac:(lia) (S (size g)) [] 0%nat).
    simpl in Hit. rewrite drop_0 in Hit. rewrite Hns, <- Hz, Z.sub_diag in Hit.
    apply Hit; lia.
  - exists []. split; [done|]. unfold all_nodes in Hz, Hp. rewrite E in Hz, Hp.
    split; [|done]. simpl. unfold LnnMapHasNext. simpl. rewrite (map_rel_size m g Hrel).
    simpl in Hz. by rewrite Hz.
Qed.

End map.

(** when the first bucket array cannot be allocated, [LnnMapSet] ignores
    the failure of [MapResize] and dereferences the missing array. *)
Theorem first_resize_failure_crashes sc k v :
  (0 < length v <= 1000)%nat -> (length k <= 1000)%nat ->
  LnnMapSet sc false true LnnMapInit (Some k) (Some v) = None.
Proof.
  intros Hv Hk. unfold LnnMapSet, HDF_MAP_KEY_MAX_SIZE, HDF_MAP_VALUE_MAX_SIZE.
  replace (Z.of_nat (length v) =? 0) with false by bool_lia.
  replace (Z.of_nat (length v) >? 1000) with false by bool_lia.
  replace (Z.of_nat (length k) >? 1000) with false by bool_lia.
  reflexivity.
Qed.

(** ** Witnesses *)

Definition ops3 : list map_op :=
  [MSet true [97] [1]; MSet true [98] [2]; MSet true [97] [3]; MErase [98]; MGet [97]; MGet [98]].


Lemma iterator_enumerates_witness :
  exists m (g : gmap (list Z) (list Z)) it ns, g !! [97] = Some [1] /\
    LnnMapInitIterator true (Some m) = Some it /\
    iterate (S (size g)) it = Some ns /\ kv <$> ns ≡ₚ map_to_list g.
Proof.
  destruct (table_run_refines true LnnMapInit ∅ [MSet true [97] [1]] (LnnMapInit_rel true))
    as (m & _ & R); [vm_compute; reflexivity|].
  exists m, (spec_run ∅ [MSet true [97] [1]]).2.
  destruct (iterator_enumerates true m _ R) as (it & ns & E); [vm_compute; reflexivity|].
  exists it, ns. split; [reflexivity|exact E].
Defined.

Lemma first_resize_failure_crashes_witness :
  LnnMapSet true false true LnnMapInit (Some [97]) (Some [1]) = None.
Proof. apply (first_resize_failure_crashes true [97] [1]); simpl; lia. Defined.

End LnnMap.
