(* ===== verification/PendingPkt.v ===== *)
(** * Pending packets (core/transmission/pending_packet/src/trans_pending_pkt.c)

    A sender that needs an acknowledgement registers (channel, sequence) in a
    list and sleeps at most two seconds on its own condition variable; the
    receiver of the acknowledgement looks the pair up, marks it and signals.
    The registered structure lives as long as the call that made it, so it is
    identified by (a number for) that call.  [pend_step] interleaves the critical
    sections. *)

From S2P Require Import Prelude.

Module PendingPkt.

Definition PENDING_TYPE_PROXY : Z := 0.
Definition PENDING_TYPE_DIRECT : Z := 1.
Definition PENDING_TYPE_BUTT : Z := 2.

Record PendingPktInfo := mkPending {
  owner : nat;
  channelId : Z;
  seq : Z;
  finded : bool;
}.

(** A pending list and its counter; the table [g_pendingList] by type. *)
Record SoftBusList := mkList { items : list PendingPktInfo; cnt : Z }.
Abbreviation pending_lists := (list (option SoftBusList)).
Definition g_pendingList : pending_lists := [None; None].

Definition bad_type (type : Z) : bool :=
  (type <? PENDING_TYPE_PROXY) || (type >=? PENDING_TYPE_BUTT).

Definition slot (g : pending_lists) (type : Z) : option SoftBusList :=
  mjoin (g !! Z.to_nat type).

Definition set_slot (g : pending_lists) (type : Z) (l : option SoftBusList) : pending_lists :=
  <[Z.to_nat type := l]> g.

(** [created]: [CreateSoftBusList] succeeds. *)
Definition PendingInit (created : bool) (g : pending_lists) (type : Z) : Z * pending_lists :=
  if bad_type type then (SOFTBUS_ERR, g)
  else if created then (SOFTBUS_OK, set_slot g type (Some (mkList [] 0)))
  else (SOFTBUS_ERR, set_slot g type None).

Definition PendingDeinit (g : pending_lists) (type : Z) : pending_lists :=
  if bad_type type then g
  else match slot g type with None => g | Some _ => set_slot g type None end.

Definition matches (channel sq : Z) (i : PendingPktInfo) : bool :=
  (seq i =? sq) && (channelId i =? channel).

(** [ProcPendingPacket] up to the first unlock: an error code, or the list
    with the new item of thread [t] at its head. *)
Definition proc_register (mem : bool) (g : pending_lists) (t : nat) (channel sq type : Z)
    : Z + pending_lists :=
  if bad_type type then inl SOFTBUS_ERR
  else match slot g type with
       | None => inl SOFTBUS_ERR
       | Some l =>
           if existsb (matches channel sq) (items l) then inl SOFTBUS_ERR
           else if negb mem then inl SOFTBUS_MALLOC_ERR
           else inr (set_slot g type
                  (Some (mkList (mkPending t channel sq false :: items l) (u32 (cnt l + 1)))))
       end.

(** Its result after the wait: [finded] of its item. *)
Definition proc_result (l : SoftBusList) (t : nat) : Z :=
  match list_find (fun i => owner i = t) (items l) with
  | Some (_, i) => if finded i then SOFTBUS_OK else SOFTBUS_TIMOUT
  | None => SOFTBUS_TIMOUT
  end.

(** Its last critical section: [ListDelete] of the item. *)
Definition proc_remove (l : SoftBusList) (t : nat) : SoftBusList :=
  mkList (filter (fun i => owner i <> t) (items l)) (u32 (cnt l - 1)).

(** The walk of [SetPendingPacket]: mark the first match; [Some t] is the
    thread signalled. *)
Fixpoint mark_first (channel sq : Z) (l : list PendingPktInfo)
    : option nat * list PendingPktInfo :=
  match l with
  | [] => (None, [])
  | i :: l =>
      if matches channel sq i then
        (Some (owner i), mkPending (owner i) (channelId i) (seq i) true :: l)
      else let '(o, l') := mark_first channel sq l in (o, i :: l')
  end.

Definition SetPendingPacket (g : pending_lists) (channel sq type : Z)
    : Z * pending_lists * option nat :=
  if bad_type type then (SOFTBUS_ERR, g, None)
  else match slot g type with
       | None => (SOFTBUS_ERR, g, None)
       | Some l =>
           match mark_first channel sq (items l) with
           | (Some t, l') => (SOFTBUS_OK, set_slot g type (Some (mkList l' (cnt l))), Some t)
           | (None, _) => (SOFTBUS_ERR, g, None)
           end
       end.

Definition DelPendingPacket (g : pending_lists) (channel type : Z) : Z * option nat :=
  if bad_type type then (SOFTBUS_ERR, None)
  else match slot g type with
       | None => (SOFTBUS_ERR, None)
       | Some l => (SOFTBUS_OK,
           option_map (fun p => owner p.2) (list_find (fun i => channelId i = channel) (items l)))
       end.

(** ** The system on one initialised list *)

(** A caller of [ProcPendingPacket]: registered but not yet waiting, waiting,
    woken, about to remove its item with a result. *)
Inductive pend_pc := PRegistered | PWaiting | PWoken | PRemoving (ret : Z).

Record pstate := mkPstate {
  plist : SoftBusList;
  ppcs : gmap nat pend_pc;
  acked : gset nat;                    (* ghost: calls whose item was marked *)
  returned : list (nat * Z);           (* ghost: finished calls and their results *)
}.

Definition table (type : Z) (l : SoftBusList) : pending_lists := set_slot g_pendingList type (Some l).

(** [pthread_cond_signal] wakes the waiting thread; it is lost otherwise. *)
Definition signal (t : option nat) (p : gmap nat pend_pc) : gmap nat pend_pc :=
  match t with
  | Some t => match p !! t with Some PWaiting => <[t := PWoken]> p | _ => p end
  | None => p
  end.

Inductive pend_step (type : Z) (s : pstate) : pstate -> Prop :=
  | pn_register t mem channel sq g' l' : ppcs s !! t = None ->
      t ∉ acked s -> t ∉ (returned s).*1 ->
      proc_register mem (table type (plist s)) t channel sq type = inr g' ->
      slot g' type = Some l' ->
      pend_step type s (mkPstate l' (<[t := PRegistered]> (ppcs s)) (acked s) (returned s))
  | pn_wait t : ppcs s !! t = Some PRegistered ->
      pend_step type s (mkPstate (plist s) (<[t := PWaiting]> (ppcs s)) (acked s) (returned s))
  | pn_timeout t : ppcs s !! t = Some PWaiting ->
      pend_step type s (mkPstate (plist s) (<[t := PWoken]> (ppcs s)) (acked s) (returned s))
  | pn_check t : ppcs s !! t = Some PWoken ->
      pend_step type s (mkPstate (plist s)
        (<[t := PRemoving (proc_result (plist s) t)]> (ppcs s)) (acked s) (returned s))
  | pn_remove t ret : ppcs s !! t = Some (PRemoving ret) ->
      pend_step type s (mkPstate (proc_remove (plist s) t) (delete t (ppcs s)) (acked s)
        (returned s ++ [(t, ret)]))
  | pn_set channel sq g' t l' :
      SetPendingPacket (table type (plist s)) channel sq type = (SOFTBUS_OK, g', Some t) ->
      slot g' type = Some l' ->
      pend_step type s (mkPstate l' (signal (Some t) (ppcs s)) ({[t]} ∪ acked s) (returned s))
  | pn_del channel r t :
      DelPendingPacket (table type (plist s)) channel type = (r, t) ->
      pend_step type s (mkPstate (plist s) (signal t (ppcs s)) (acked s) (returned s)).

Definition pend_init : pstate := mkPstate (mkList [] 0) ∅ ∅ [].
Definition pend_reachable (type : Z) (s : pstate) : Prop := rtc (pend_step type) pend_init s.


(** ** Lemmas *)

Lemma slot_table type l : bad_type type = false -> slot (table type l) type = Some l.
Proof.
  unfold bad_type, PENDING_TYPE_PROXY, PENDING_TYPE_BUTT. intros Hb.
  unfold slot, table, set_slot. rewrite list_lookup_insert_eq; [done|]. simpl. lia.
Qed.

Lemma slot_set_slot type l g : bad_type type = false -> length g = 2%nat ->
  slot (set_slot g type (Some l)) type = Some l.
Proof.
  unfold bad_type, PENDING_TYPE_PROXY, PENDING_TYPE_BUTT. intros Hb Hg.
  unfold slot, set_slot. rewrite list_lookup_insert_eq; [done|]. lia.
Qed.

Definition pkey (i : PendingPktInfo) : Z * Z := (channelId i, seq i).

Definition set_found (i : PendingPktInfo) : PendingPktInfo :=
  mkPending (owner i) (channelId i) (seq i) true.

(** Marking changes one item: the first with the given key. *)
Lemma mark_first_spec channel sq l t l' : mark_first channel sq l = (Some t, l') ->
  exists pre i post, l = pre ++ i :: post /\ l' = pre ++ set_found i :: post /\ owner i = t /\
    pkey i = (channel, sq).
Proof.
  revert l'. induction l as [|x l IH]; intros l' E; simpl in E; [done|].
  destruct (matches channel sq x) eqn:Em.
  - simplify_eq. exists [], x, l. split_and!; try done. unfold matches in Em. unfold pkey.
    f_equal; lia.
  - destruct (mark_first channel sq l) as [o l1] eqn:E1. simplify_eq.
    destruct (IH l1 eq_refl) as (pre & i & post & -> & -> & Ho & Hk).
    by exists (x :: pre), i, post.
Qed.

(** The invariant of the pending list. *)
Record pinv (s : pstate) : Prop := {
  pi_owner : forall t, t ∈ (owner <$> items (plist s)) <-> is_Some (ppcs s !! t);
  pi_nodup : NoDup (owner <$> items (plist s));
  pi_keys : NoDup (pkey <$> items (plist s));
  pi_cnt : cnt (plist s) = u32 (Z.of_nat (length (items (plist s))));
  pi_found : forall i, i ∈ items (plist s) -> (finded i = true <-> owner i ∈ acked s);
  pi_fresh : forall t, t ∈ acked s -> is_Some (ppcs s !! t) \/ t ∈ (returned s).*1;
  pi_removing : forall t r, ppcs s !! t = Some (PRemoving r) -> r = SOFTBUS_OK -> t ∈ acked s;
  pi_returned : forall t, (t, SOFTBUS_OK) ∈ returned s -> t ∈ acked s;
}.


Lemma pinv_init : pinv pend_init.
Proof.
  split; simpl.
  - intros t. rewrite lookup_empty. split; [by intros ?%elem_of_nil|by intros []].
  - constructor.
  - constructor.
  - done.
  - by intros i ?%elem_of_nil.
  - by intros t ?%elem_of_empty.
  - intros t r. by rewrite lookup_empty.
  - by intros t ?%elem_of_nil.
Qed.

(** A step that only moves one caller. *)
Lemma pinv_move s t p : pinv s -> is_Some (ppcs s !! t) ->
  (forall r, p = PRemoving r -> r = SOFTBUS_OK -> t ∈ acked s) ->
  pinv (mkPstate (plist s) (<[t := p]> (ppcs s)) (acked s) (returned s)).
Proof.
  intros [] Ht Hp. split; simpl; try done.
  - intros t'. rewrite pi_owner0. destruct (decide (t' = t)) as [->|]; simplify_map_eq; [|done].
    split; by eauto.
  - intros t' Ha. destruct (decide (t' = t)) as [->|]; simplify_map_eq; [eauto|auto].
  - intros t' r. destruct (decide (t' = t)) as [->|]; simplify_map_eq; [intros; simplify_eq|]; eauto.
Qed.

Lemma signal_cases t p : signal t p = p \/
  exists t', t = Some t' /\ p !! t' = Some PWaiting /\ signal t p = <[t' := PWoken]> p.
Proof.
  destruct t as [t|]; [|by left]. simpl. destruct (p !! t) as [[]|] eqn:E; eauto.
Qed.

Lemma pinv_signal s t : pinv s ->
  pinv (mkPstate (plist s) (signal t (ppcs s)) (acked s) (returned s)).
Proof.
  intros Hi. destruct (signal_cases t (ppcs s)) as [->|(t' & _ & Ht & ->)]; [by destruct s|].
  apply pinv_move; [done|by rewrite Ht|done].
Qed.

Lemma proc_register_inr mem type l t channel sq g' l' : 
  proc_register mem (table type l) t channel sq type = inr g' -> slot g' type = Some l' ->
  l' = mkList (mkPending t channel sq false :: items l) (u32 (cnt l + 1)) /\
  (channel, sq) ∉ (pkey <$> items l).
Proof.
  unfold proc_register. destruct (bad_type type) eqn:Hb; [done|]. rewrite slot_table by done.
  destruct (existsb _ _) eqn:Ex; [done|]. destruct mem; [|done]. simpl. intros E Hs.
  simplify_eq. rewrite slot_set_slot in Hs by (done || (unfold table, set_slot; by rewrite length_insert)). simplify_eq.
  split; [done|]. intros Hin. apply list_elem_of_fmap in Hin as (i & Ek & Hin).
  assert (existsb (matches channel sq) (items l) = true) as Ex'; [|congruence].
  apply existsb_exists. exists i. split; [by apply list_elem_of_In|]. unfold matches, pkey in *.
  simplify_eq. by rewrite !Z.eqb_refl.
Qed.

Lemma SetPendingPacket_ok type l channel sq g' t l' :
  SetPendingPacket (table type l) channel sq type = (SOFTBUS_OK, g', Some t) ->
  slot g' type = Some l' ->
  exists pre i post, items l = pre ++ i :: post /\
    l' = mkList (pre ++ set_found i :: post) (cnt l) /\ owner i = t /\ pkey i = (channel, sq).
Proof.
  unfold SetPendingPacket. destruct (bad_type type) eqn:Hb; [done|]. rewrite slot_table by done.
  destruct (mark_first _ _ _) as [[t'|] l1] eqn:Em; [|done]. intros E Hs. simplify_eq.
  rewrite slot_set_slot in Hs by (done || (unfold table, set_slot; by rewrite length_insert)). simplify_eq.
  apply mark_first_spec in Em as (pre & i & post & El & -> & Ho & Hk). rewrite El.
  by exists pre, i, post.
Qed.

Lemma proc_result_ok s t : pinv s -> proc_result (plist s) t = SOFTBUS_OK -> t ∈ acked s.
Proof.
  intros []. unfold proc_result. destruct (list_find _ _) as [[k i]|] eqn:E; [|done].
  apply list_find_Some in E as (Hi & <- & _). intros Hr. apply pi_found0.
  - by eapply list_elem_of_lookup_2.
  - by destruct (finded i).
Qed.

Lemma pinv_register s t channel sq :
  pinv s -> ppcs s !! t = None -> t ∉ acked s -> (channel, sq) ∉ (pkey <$> items (plist s)) ->
  pinv (mkPstate (mkList (mkPending t channel sq false :: items (plist s)) (u32 (cnt (plist s) + 1)))
    (<[t := PRegistered]> (ppcs s)) (acked s) (returned s)).
Proof.
  intros [] Hn Ha Hk. split; simpl; try done.
  - intros t'. rewrite elem_of_cons, pi_owner0.
    destruct (decide (t' = t)) as [->|]; simplify_map_eq; naive_solver.
  - constructor; [|done]. rewrite pi_owner0, Hn. by intros [].
  - by constructor.
  - rewrite pi_cnt0, Nat2Z.inj_succ. unfold Z.succ. wrap_lia.
  - intros i [->|Hi]%elem_of_cons; [|auto]. simpl. split; [done|]. intros ?. done.
  - intros t' Ht'. destruct (decide (t' = t)) as [->|]; simplify_map_eq; [eauto|auto].
  - intros t' r. destruct (decide (t' = t)) as [->|]; simplify_map_eq; [done|eauto].
Qed.

Lemma length_filter_owner t l : NoDup (owner <$> l) -> t ∈ (owner <$> l) ->
  length l = S (length (filter (fun i => owner i <> t) l)).
Proof.
  induction l as [|x l IH]; intros Hnd Hin; [by apply elem_of_nil in Hin|].
  rewrite fmap_cons in Hnd, Hin. apply NoDup_cons in Hnd as [Hx Hnd]. rewrite filter_cons.
  case_decide as Ho; simpl.
  - f_equal. apply IH; [done|]. apply elem_of_cons in Hin as [->|Hin]; done.
  - subst t. rewrite filter_all; [done|]. intros y Hy E. apply Hx.
    rewrite <- E. by apply list_elem_of_fmap_2.
Qed.

Lemma pinv_remove s t ret : pinv s -> ppcs s !! t = Some (PRemoving ret) ->
  pinv (mkPstate (proc_remove (plist s) t) (delete t (ppcs s)) (acked s) (returned s ++ [(t, ret)])).
Proof.
  intros [] Ht. split; simpl.
  - intros t'. rewrite list_elem_of_fmap. split.
    + intros (i & -> & Hi). apply list_elem_of_filter in Hi as [Hne Hi].
      rewrite lookup_delete_ne by done. apply pi_owner0. by apply list_elem_of_fmap_2.
    + destruct (decide (t' = t)) as [->|Hne]; [rewrite lookup_delete_eq; by intros []|].
      rewrite lookup_delete_ne by done. intros Ht'. apply pi_owner0, list_elem_of_fmap in Ht'
        as (i & -> & Hi). exists i. split; [done|]. by apply list_elem_of_filter.
  - by apply NoDup_fmap_filter.
  - by apply NoDup_fmap_filter.
  - rewrite pi_cnt0, (length_filter_owner t (items (plist s))); [|done|].
    + rewrite Nat2Z.inj_succ. unfold Z.succ. wrap_lia.
    + apply pi_owner0. by rewrite Ht.
  - intros i Hi. apply list_elem_of_filter in Hi as [_ Hi]. auto.
  - intros t' Ha. rewrite fmap_app, elem_of_app. destruct (decide (t' = t)) as [->|].
    + right. right. by left.
    + rewrite lookup_delete_ne by done. destruct (pi_fresh0 t' Ha); auto.
  - intros t' r. rewrite lookup_delete_Some. intros [_ ?]. eauto.
  - intros t'. rewrite elem_of_app, list_elem_of_singleton. intros [?|E]; [auto|].
    simplify_eq. eauto.
Qed.

Lemma pinv_set s t pre i post : pinv s -> items (plist s) = pre ++ i :: post -> owner i = t ->
  pinv (mkPstate (mkList (pre ++ set_found i :: post) (cnt (plist s))) (ppcs s)
    ({[t]} ∪ acked s) (returned s)).
Proof.
  intros [] E Ho. rewrite E in *. rewrite !fmap_app, !fmap_cons in *.
  assert (is_Some (ppcs s !! t)) as Ht.
  { apply pi_owner0. rewrite elem_of_app, elem_of_cons. auto. }
  split; simpl; rewrite ?fmap_app, ?fmap_cons; try done.
  - rewrite pi_cnt0. by rewrite !length_app.
  - intros j Hj. rewrite elem_of_union, elem_of_singleton.
    apply NoDup_app in pi_nodup0 as (_ & Hd & Hnd). apply NoDup_cons in Hnd as [Hni _].
    assert (forall k, k ∈ pre \/ k ∈ post -> owner k <> t) as Hne.
    { intros k [Hk|Hk] Ek; subst t.
      - apply (Hd (owner k)); [by apply list_elem_of_fmap_2|]. rewrite Ek. by left.
      - apply Hni. rewrite <- Ek. by apply list_elem_of_fmap_2. }
    apply elem_of_app in Hj as [Hj|[->|Hj]%elem_of_cons]; [| |].
    + rewrite pi_found0 by (apply elem_of_app; auto). specialize (Hne j). naive_solver.
    + simpl. naive_solver.
    + rewrite pi_found0 by (apply elem_of_app; right; by right). specialize (Hne j). naive_solver.
  - intros t' [->%elem_of_singleton|Ht']%elem_of_union; auto.
  - intros t' r Hr Hok. apply elem_of_union. right. by eapply pi_removing0.
  - intros t' Hr. apply elem_of_union. right. auto.
Qed.

Lemma pinv_step type s s' : pinv s -> pend_step type s s' -> pinv s'.
Proof.
  intros Hi Hs. destruct Hs as
    [t mem channel sq g' l' Hn Ha Hr Hreg Hsl|t Ht|t Ht|t Ht|t ret Ht|channel sq g' t l' Hset Hsl
    |channel r t _].
  - destruct (proc_register_inr _ _ _ _ _ _ _ _ Hreg Hsl) as [-> Hk]. by apply pinv_register.
  - apply pinv_move; [done|by rewrite Ht|done].
  - apply pinv_move; [done|by rewrite Ht|done].
  - apply pinv_move; [done|by rewrite Ht|]. intros r Er Hok. simplify_eq. by apply proc_result_ok.
  - by apply pinv_remove.
  - destruct (SetPendingPacket_ok _ _ _ _ _ _ _ Hset Hsl) as (pre & i & post & El & -> & Ho & _).
    apply (pinv_signal (mkPstate _ (ppcs s) _ _)). by apply pinv_set.
  - by apply pinv_signal.
Qed.

Lemma pend_reachable_inv type s : pend_reachable type s -> pinv s.
Proof.
  revert s. apply (rtc_ind_r (R := pend_step type) pinv pend_init); [apply pinv_init|].
  intros y z _ Hyz Hi. by eapply pinv_step.
Qed.

(** ** Properties *)


(** Call 0 is registered for (1, 5), acknowledged, and only then waits. *)
Definition l_new : SoftBusList := mkList [mkPending 0 1 5 false] 1.
Definition l_acked : SoftBusList := mkList [mkPending 0 1 5 true] 1.
Definition s_lost : pstate := mkPstate l_acked {[0%nat := PWaiting]} {[0%nat]} [].

Lemma s_lost_reachable : pend_reachable PENDING_TYPE_PROXY s_lost.
Proof.
  eapply (rtc_l _ _ (mkPstate l_new {[0%nat := PRegistered]} ∅ [])).
  { apply (pn_register _ pend_init 0%nat true 1 5 (table 0 l_new) l_new); try done.
    apply not_elem_of_nil. }
  eapply (rtc_l _ _ (mkPstate l_acked {[0%nat := PRegistered]} {[0%nat]} [])).
  { pose proof (pn_set 0 (mkPstate l_new {[0%nat := PRegistered]} ∅ []) 1 5 (table 0 l_acked)
      0%nat l_acked eq_refl eq_refl) as Hs. cbn [ppcs acked returned] in Hs.
    rewrite union_empty_r_L in Hs.
    replace (signal _ _) with ({[0%nat := PRegistered]} : gmap nat pend_pc) in Hs by done.
    exact Hs. }
  apply rtc_once. pose proof (pn_wait PENDING_TYPE_PROXY
    (mkPstate l_acked {[0%nat := PRegistered]} {[0%nat]} []) 0%nat eq_refl) as Hs.
  cbn [plist ppcs acked returned] in Hs. rewrite insert_singleton_eq in Hs. exact Hs.
Qed.

(** C40: a lost wake-up.  An acknowledgement that arrives after the call has
    registered its packet but before it waits is not noticed by the wait,
    which does not look at [finded] first: the caller sleeps although it was
    acknowledged. *)
Theorem pending_lost_wakeup : exists s t,
  pend_reachable PENDING_TYPE_PROXY s /\ ppcs s !! t = Some PWaiting /\ t ∈ acked s.
Proof.
  exists s_lost, 0%nat. split; [apply s_lost_reachable|]. split; [done|]. simpl. by apply elem_of_singleton.
Qed.


End PendingPkt.
