(* ===== verification/ProxyMessage.v ===== *)
(** * Proxy channel messages (trans_channel/proxy/src/softbus_proxychannel_message.c)

    The eight-byte message head, and packing and parsing of a message with an
    optional encryption layer.  The connection head in front of the message
    belongs to the connection layer: it is reserved as zero bytes and removed
    before parsing.  Encryption ([AuthEncrypt]/[AuthDecrypt]) and the channel
    and connection tables are parameters.  A read outside the received bytes
    is [None]. *)

From S2P Require Import Prelude.

Module ProxyMessage.

Definition PROXYCHANNEL_MSG_TYPE_NORMAL : Z := 0.
Definition PROXYCHANNEL_MSG_TYPE_HANDSHAKE : Z := 1.
Definition PROXYCHANNEL_MSG_TYPE_HANDSHAKE_ACK : Z := 2.
Definition PROXYCHANNEL_MSG_TYPE_RESET : Z := 3.
Definition PROXYCHANNEL_MSG_TYPE_KEEPALIVE : Z := 4.
Definition PROXYCHANNEL_MSG_TYPE_KEEPALIVE_ACK : Z := 5.
Definition PROXYCHANNEL_MSG_TYPE_MAX : Z := 6.

Definition VERSION : Z := 1.
Definition PROXY_CHANNEL_HEAD_LEN : Z := 8.
Definition VERSION_SHIFT : Z := 4.
Definition FOUR_BIT_MASK : Z := 0xF.
Definition ENCRYPTED : Z := 1.
Definition AUTH_SERVER_SIDE : Z := 2.
Definition CLIENT_SIDE_FLAG : Z := 0.
Definition SERVER_SIDE_FLAG : Z := 1.

Record ProxyMessageHead := mkMessageHead {
  type : Z; chiper : Z; myId : Z; peerId : Z; reserved : Z;
}.

Record ProxyMessage := mkProxyMessage {
  msgHead : ProxyMessageHead;
  dateLen : Z;
  data : list byte;
  connId : Z;
  chiperSide : Z;
}.

(** The bytes of the packed structure. *)
Definition head_bytes (h : ProxyMessageHead) : list byte :=
  le_bytes 1 (type h) ++ le_bytes 1 (chiper h) ++ le_bytes 2 (myId h) ++
  le_bytes 2 (peerId h) ++ le_bytes 2 (reserved h).

(** The first byte of a message of type [t], as the senders compute it. *)
Definition type_byte (t : Z) : Z :=
  Z.lor (Z.land t FOUR_BIT_MASK) (Z.shiftl VERSION VERSION_SHIFT).

Definition set_chiper (h : ProxyMessageHead) (c : Z) : ProxyMessageHead :=
  mkMessageHead (type h) c (myId h) (peerId h) (reserved h).
Definition set_head (m : ProxyMessage) (h : ProxyMessageHead) : ProxyMessage :=
  mkProxyMessage h (dateLen m) (data m) (connId m) (chiperSide m).

Definition byte_at (l : list byte) (i : nat) : option Z := byte.unsigned <$> l !! i.

(** [*(int16_t * )ptr] at offset [i]. *)
Definition int16_at (l : list byte) (i : nat) : option Z :=
  if (i + 2 <=? length l)%nat then Some (i16 (le_val (slice i 2 l))) else None.

Definition TransProxyParseMessageHead (buf : list byte) (len : Z) (msg : ProxyMessage)
    : option (Z * ProxyMessage) :=
  firstByte ← byte_at buf 0;
  let version := Z.land (Z.shiftr firstByte VERSION_SHIFT) FOUR_BIT_MASK in
  let ty := Z.land firstByte FOUR_BIT_MASK in
  let h := msgHead msg in
  let msg1 := set_head msg (mkMessageHead ty (chiper h) (myId h) (peerId h) (reserved h)) in
  if negb (version =? VERSION) || (ty >=? PROXYCHANNEL_MSG_TYPE_MAX) then Some (SOFTBUS_ERR, msg1)
  else
    ch ← byte_at buf 1;
    peer ← int16_at buf 2;
    my ← int16_at buf 4;
    Some (SOFTBUS_OK,
      mkProxyMessage (mkMessageHead ty ch my peer (reserved h)) (i32 (len - PROXY_CHANNEL_HEAD_LEN))
        (drop 8 buf) (connId msg) (chiperSide msg)).

Section codec.
(** [TransProxyGetChiperSide] by channel id, [TransProxyGetConnectOption] by
    connection, [ConnGetHeadSize], [AuthGetEncryptHeadLen]; [AuthEncrypt] on a
    connection gives the side flag and the output, [AuthDecrypt] on a
    connection and a side the plain text. *)
Context (chiper_side : Z -> option Z) (connect_option : Z -> bool).
Context (connHeadLen encryptHeadLen : nat).
Context (auth_encrypt : Z -> list byte -> option (Z * list byte)).
Context (auth_decrypt : Z -> Z -> list byte -> option (list byte)).

Definition ChiperSideProc (msg : ProxyMessage) : Z * option Z :=
  if type (msgHead msg) =? PROXYCHANNEL_MSG_TYPE_HANDSHAKE then
    (SOFTBUS_OK,
     Some (if negb (Z.land (chiper (msgHead msg)) AUTH_SERVER_SIDE =? 0)
           then CLIENT_SIDE_FLAG else SERVER_SIDE_FLAG))
  else match chiper_side (myId (msgHead msg)) with
       | None => (SOFTBUS_ERR, None)
       | Some s => (SOFTBUS_OK, Some s)
       end.

Definition TransProxyParseMessage (mem : bool) (buf : list byte) (len : Z) (msg : ProxyMessage)
    : option (Z * ProxyMessage) :=
  if len <=? PROXY_CHANNEL_HEAD_LEN then Some (SOFTBUS_ERR, msg)
  else
    '(r, msg1) ← TransProxyParseMessageHead buf len msg;
    if negb (r =? SOFTBUS_OK) then Some (SOFTBUS_ERR, msg1)
    else if Z.land (chiper (msgHead msg1)) ENCRYPTED =? 0 then Some (SOFTBUS_OK, msg1)
    else
      match ChiperSideProc msg1 with
      | (_, None) => Some (SOFTBUS_ERR, msg1)
      | (_, Some side) =>
          let msg2 := mkProxyMessage (msgHead msg1) (dateLen msg1) (data msg1) (connId msg1) side in
          if negb (connect_option (connId msg2)) then Some (SOFTBUS_ERR, msg2)
          else if negb mem then Some (SOFTBUS_ERR, msg2)
          else
            let n := Z.to_nat (len - PROXY_CHANNEL_HEAD_LEN) in
            if (length buf <? 8 + n)%nat then None
            else match auth_decrypt (connId msg2) side (slice 8 n buf) with
                 | None => Some (SOFTBUS_ERR, msg2)
                 | Some out =>
                     Some (SOFTBUS_OK,
                       mkProxyMessage (msgHead msg2) (Z.of_nat (length out)) out (connId msg2) side)
                 end
      end.

(** The packed buffer: the connection head's place, the message head, the
    body; [memcpy_s] refuses a body longer than the room left. *)
Definition TransProxyPackMessage (mem : bool) (msg : ProxyMessageHead) (conn : Z)
    (payload : list byte) : Z * option (list byte) :=
  if chiper msg =? 0 then
    if negb mem then (SOFTBUS_ERR, None)
    else (SOFTBUS_OK, Some (repeat Byte.x00 connHeadLen ++ head_bytes msg ++ payload))
  else if negb (connect_option conn) then (SOFTBUS_ERR, None)
  else if negb mem then (SOFTBUS_ERR, None)
  else match auth_encrypt conn payload with
       | None => (SOFTBUS_ERR, None)
       | Some (isServer, enBuf) =>
           let msg' := if isServer =? SERVER_SIDE_FLAG
                       then set_chiper msg (Z.lor (chiper msg) AUTH_SERVER_SIDE) else msg in
           if (length payload + encryptHeadLen <? length enBuf)%nat then (SOFTBUS_ERR, None)
           else (SOFTBUS_OK, Some (repeat Byte.x00 connHeadLen ++ head_bytes msg' ++ enBuf))
       end.

(** ** Lemmas *)

Lemma length_head_bytes h : length (head_bytes h) = 8%nat.
Proof. unfold head_bytes. by rewrite !length_app, !length_le_bytes. Qed.

Lemma type_byte_fields t : 0 <= t < 16 ->
  Z.land (type_byte t) FOUR_BIT_MASK = t /\
  Z.land (Z.shiftr (type_byte t) VERSION_SHIFT) FOUR_BIT_MASK = VERSION /\ 0 <= type_byte t < 256.
Proof.
  intros Ht. assert (t ∈ seqZ 0 16) as Hin by (apply elem_of_seqZ; lia). vm_compute in Hin.
  repeat (apply elem_of_cons in Hin as [->|Hin]; [by vm_compute|]). by apply elem_of_nil in Hin.
Qed.

Lemma byte_at_head h body :
  0 <= type h < 256 -> 0 <= chiper h < 256 ->
  byte_at (head_bytes h ++ body) 0 = Some (type h) /\
  byte_at (head_bytes h ++ body) 1 = Some (chiper h).
Proof.
  intros Ht Hc. unfold head_bytes, byte_at, le_bytes. simpl.
  rewrite !byte.unsigned_of_Z. unfold byte.wrap. by rewrite !Z.mod_small.
Qed.

Lemma int16_at_head h body :
  - 2 ^ 15 <= myId h < 2 ^ 15 -> - 2 ^ 15 <= peerId h < 2 ^ 15 ->
  int16_at (head_bytes h ++ body) 2 = Some (myId h) /\
  int16_at (head_bytes h ++ body) 4 = Some (peerId h).
Proof.
  intros Hm Hp. unfold int16_at.
  rewrite (proj2 (Nat.leb_le _ _)) by (rewrite length_app, length_head_bytes; lia).
  rewrite (proj2 (Nat.leb_le _ _)) by (rewrite length_app, length_head_bytes; lia).
  unfold head_bytes.
  pose proof (slice_mid (le_bytes 1 (type h) ++ le_bytes 1 (chiper h)) (le_bytes 2 (myId h))
    (le_bytes 2 (peerId h) ++ le_bytes 2 (reserved h) ++ body) 2 2) as E1.
  pose proof (slice_mid (le_bytes 1 (type h) ++ le_bytes 1 (chiper h) ++ le_bytes 2 (myId h))
    (le_bytes 2 (peerId h)) (le_bytes 2 (reserved h) ++ body) 4 2) as E2.
  rewrite !length_app, !length_le_bytes in E1, E2. rewrite <- !app_assoc in E1. rewrite <- !app_assoc in E2.
  rewrite <- !app_assoc.
  rewrite E1, E2, !le_val_bytes by done. split; f_equal; wrap_lia.
Qed.

(** What a receiver sees of a head: the sender's ids change roles. *)
Definition received_head (h : ProxyMessageHead) (old : Z) : ProxyMessageHead :=
  mkMessageHead (Z.land (type h) FOUR_BIT_MASK) (chiper h) (peerId h) (myId h) old.

Definition head_ok (h : ProxyMessageHead) : Prop :=
  (exists t, 0 <= t < PROXYCHANNEL_MSG_TYPE_MAX /\ type h = type_byte t) /\
  0 <= chiper h < 256 /\ - 2 ^ 15 <= myId h < 2 ^ 15 /\ - 2 ^ 15 <= peerId h < 2 ^ 15.

Lemma parse_head_ok h body msg len : head_ok h ->
  len = Z.of_nat (length (head_bytes h ++ body)) -> len < 2 ^ 31 ->
  TransProxyParseMessageHead (head_bytes h ++ body) len msg =
  Some (SOFTBUS_OK, mkProxyMessage (received_head h (reserved (msgHead msg)))
    (Z.of_nat (length body)) body (connId msg) (chiperSide msg)).
Proof.
  intros ((t & Ht & Et) & Hc & Hm & Hp) -> Hlen. unfold PROXYCHANNEL_MSG_TYPE_MAX in Ht.
  destruct (type_byte_fields t) as (F1 & F2 & F3); [lia|].
  destruct (byte_at_head h body) as [B0 B1]; [by rewrite Et|done|].
  destruct (int16_at_head h body) as [I2 I4]; [done..|].
  unfold TransProxyParseMessageHead. rewrite B0, B1, I2, I4. cbn [mbind option_bind].
  unfold received_head. rewrite Et, F1, F2.
  replace (negb (VERSION =? VERSION) || (t >=? PROXYCHANNEL_MSG_TYPE_MAX)) with false
    by (unfold VERSION, PROXYCHANNEL_MSG_TYPE_MAX; simpl; lia).
  rewrite length_app, length_head_bytes in *.
  rewrite drop_app_length' by (by rewrite length_head_bytes).
  unfold PROXY_CHANNEL_HEAD_LEN. rewrite i32_small by lia. do 4 f_equal. lia.
Qed.

End codec.

(** ** Properties *)

(** plain messages round trip.  A message packed without encryption and
    delivered without its connection head parses into the same type, cipher
    flags and payload, with the two channel ids in their receiver's roles. *)
Theorem proxy_message_roundtrip cs co chl ehl enc dec h conn payload old :
  head_ok h -> chiper h = 0 -> payload <> [] -> Z.of_nat (length payload) < 2 ^ 31 - 8 ->
  exists buf, TransProxyPackMessage co chl ehl enc true h conn payload = (SOFTBUS_OK, Some buf) /\
    TransProxyParseMessage cs co dec true (drop chl buf) (Z.of_nat (length (drop chl buf))) old =
    Some (SOFTBUS_OK, mkProxyMessage (received_head h (reserved (msgHead old)))
      (Z.of_nat (length payload)) payload (connId old) (chiperSide old)).
Proof.
  intros Hh Hc Hne Hlen. unfold TransProxyPackMessage. rewrite Hc. cbn [Z.eqb negb].
  eexists. split; [done|]. rewrite drop_app_length' by (by rewrite repeat_length).
  destruct payload as [|b pl]; [done|].
  unfold TransProxyParseMessage, PROXY_CHANNEL_HEAD_LEN.
  replace (Z.of_nat (length (head_bytes h ++ b :: pl)) <=? 8) with false
    by (rewrite length_app, length_head_bytes; simpl; bool_lia).
  rewrite parse_head_ok by (done || (rewrite length_app, length_head_bytes; lia)).
  cbn [mbind option_bind]. simpl. by rewrite Hc.
Qed.

(** encrypted handshakes round trip.  When decryption on the opposite
    side undoes encryption, a packed encrypted handshake parses into the
    payload, on the side opposite to the sender's. *)
Theorem proxy_handshake_roundtrip cs co chl ehl enc dec h conn payload old server enBuf :
  head_ok h -> type h = type_byte PROXYCHANNEL_MSG_TYPE_HANDSHAKE -> chiper h = ENCRYPTED ->
  co conn = true -> connId old = conn ->
  enc conn payload = Some (if server : bool then SERVER_SIDE_FLAG else CLIENT_SIDE_FLAG, enBuf) ->
  dec conn (if server then CLIENT_SIDE_FLAG else SERVER_SIDE_FLAG) enBuf = Some payload ->
  enBuf <> [] -> (length enBuf <= length payload + ehl)%nat -> Z.of_nat (length enBuf) < 2 ^ 31 - 8 ->
  exists buf r, TransProxyPackMessage co chl ehl enc true h conn payload = (SOFTBUS_OK, Some buf) /\
    TransProxyParseMessage cs co dec true (drop chl buf) (Z.of_nat (length (drop chl buf))) old =
      Some (SOFTBUS_OK, r) /\
    data r = payload /\ type (msgHead r) = PROXYCHANNEL_MSG_TYPE_HANDSHAKE /\
    myId (msgHead r) = peerId h /\ peerId (msgHead r) = myId h /\
    chiperSide r = (if server then CLIENT_SIDE_FLAG else SERVER_SIDE_FLAG).
Proof.
  intros Hh Ht Hc Hco Hid He Hd Hne Hroom Hlen. unfold TransProxyPackMessage.
  rewrite Hc, Hco, He. cbn [Z.eqb ENCRYPTED negb]. rewrite (proj2 (Nat.ltb_ge _ _)) by done.
  set (h' := if _ =? _ then _ else _).
  assert (head_ok h' /\ type h' = type h /\ myId h' = myId h /\ peerId h' = peerId h /\
    chiper h' = if server then 3 else 1) as (Hh' & Et & Em & Ep & Ec).
  { destruct Hh as (A & B & C & D). unfold h'. destruct server; simpl; rewrite ?Hc;
      split_and!; try done; by split_and!. }
  clearbody h'. eexists _, _. split; [done|]. rewrite drop_app_length' by (by rewrite repeat_length).
  destruct enBuf as [|b eb]; [done|].
  unfold TransProxyParseMessage, PROXY_CHANNEL_HEAD_LEN.
  replace (Z.of_nat (length (head_bytes h' ++ b :: eb)) <=? 8) with false
    by (rewrite length_app, length_head_bytes; simpl; bool_lia).
  rewrite parse_head_ok by (done || (rewrite length_app, length_head_bytes; lia)).
  cbn [mbind option_bind]. unfold ChiperSideProc. cbn [negb Z.eqb SOFTBUS_OK msgHead received_head chiper type].
  rewrite Ec, Et, Ht.
  replace (Z.land (if server then 3 else 1) ENCRYPTED =? 0) with false by (by destruct server).
  replace (Z.land (type_byte PROXYCHANNEL_MSG_TYPE_HANDSHAKE) FOUR_BIT_MASK =?
    PROXYCHANNEL_MSG_TYPE_HANDSHAKE) with true by reflexivity.
  replace (if negb (Z.land (if server then 3 else 1) AUTH_SERVER_SIDE =? 0) then CLIENT_SIDE_FLAG
    else SERVER_SIDE_FLAG) with (if server then CLIENT_SIDE_FLAG else SERVER_SIDE_FLAG)
    by (by destruct server).
  cbn [connId]. rewrite Hid, Hco. cbn [negb].
  rewrite length_app, length_head_bytes.
  replace (Z.to_nat (Z.of_nat (8 + length (b :: eb)) - 8)) with (length (b :: eb)) by lia.
  rewrite Nat.ltb_irrefl.
  rewrite <- (app_nil_r (b :: eb)), slice_mid by (by rewrite ?length_head_bytes, ?app_nil_r).
  rewrite Hd. split; [done|]. simpl. rewrite Em, Ep, Et, Ht. done.
Qed.

Definition h_hs : ProxyMessageHead := mkMessageHead (type_byte 1) 1 5 (-1) 0.
Definition old0 : ProxyMessage := mkProxyMessage (mkMessageHead 0 0 0 0 0) 0 [] 7 0.

Lemma h_ok (c : Z) : 0 <= c < 256 -> head_ok (set_chiper h_hs c).
Proof.
  intros Hc. split; [exists 1; split; [unfold PROXYCHANNEL_MSG_TYPE_MAX; lia|reflexivity]|].
  simpl. lia.
Qed.

Lemma proxy_message_roundtrip_witness :
  exists buf, TransProxyPackMessage (fun _ => false) 24 16 (fun _ _ => None) true
      (set_chiper h_hs 0) 7 [Byte.x41] = (SOFTBUS_OK, Some buf) /\
    TransProxyParseMessage (fun _ => None) (fun _ => false) (fun _ _ _ => None) true (drop 24 buf)
      (Z.of_nat (length (drop 24 buf))) old0 =
    Some (SOFTBUS_OK, mkProxyMessage (mkMessageHead 1 0 (-1) 5 0) 1 [Byte.x41] 7 0).
Proof.
  apply (proxy_message_roundtrip (fun _ => None) (fun _ => false) 24 16 (fun _ _ => None)
    (fun _ _ _ => None) (set_chiper h_hs 0) 7 [Byte.x41] old0).
  - apply h_ok. lia.
  - reflexivity.
  - discriminate.
  - simpl. lia.
Defined.

(** Encryption that appends a byte, undone by dropping it. *)
Lemma proxy_handshake_roundtrip_witness :
  exists buf r, TransProxyPackMessage (fun _ => true) 24 16
      (fun _ p => Some (SERVER_SIDE_FLAG, p ++ [Byte.x00])) true h_hs 7 [Byte.x41] =
      (SOFTBUS_OK, Some buf) /\
    TransProxyParseMessage (fun _ => None) (fun _ => true)
      (fun _ _ c => Some (take (length c - 1) c)) true (drop 24 buf)
      (Z.of_nat (length (drop 24 buf))) old0 = Some (SOFTBUS_OK, r) /\
    data r = [Byte.x41] /\ type (msgHead r) = 1 /\ myId (msgHead r) = -1 /\
    peerId (msgHead r) = 5 /\ chiperSide r = CLIENT_SIDE_FLAG.
Proof.
  apply (proxy_handshake_roundtrip (fun _ => None) (fun _ => true) 24 16
    (fun _ p => Some (SERVER_SIDE_FLAG, p ++ [Byte.x00])) (fun _ _ c => Some (take (length c - 1) c))
    h_hs 7 [Byte.x41] old0 true [Byte.x41; Byte.x00]); try reflexivity.
  - apply (h_ok 1). lia.
  - discriminate.
  - simpl. lia.
Defined.

End ProxyMessage.
