(* ===== verification/ProxySession.v ===== *)
(** * Proxy session data (trans_channel/proxy/src/softbus_proxychannel_session.c)

    Session data is encrypted, given a packet head, cut into slices of 1024
    bytes with a slice head each, and reassembled on the other side by a slice
    processor per channel and priority; synchronous messages are acknowledged
    through the pending-packet list.  The cipher, the channel table, the
    connection layer and the client notification are parameters.  A read or
    write outside a buffer is [None]. *)

From S2P Require Import Prelude.
From S2P Require Import PendingPkt.
From S2P Require Import ProxyMessage.

Module ProxySession.
Import PendingPkt(pending_lists, SetPendingPacket, PENDING_TYPE_PROXY).

(** ** Constants and data *)

Definition PROXY_FLAG_BYTES : Z := 0.
Definition PROXY_FLAG_ACK : Z := 1.
Definition PROXY_FLAG_MESSAGE : Z := 2.
Definition PROXY_FLAG_ASYNC_MESSAGE : Z := 8.
Definition PROXY_CHANNEL_PRORITY_MESSAGE : Z := 0.
Definition PROXY_CHANNEL_PRORITY_BYTES : Z := 1.
Definition PROXY_CHANNEL_PRORITY_BUTT : Z := 3.
Definition TRANS_SESSION_BYTES : Z := 0.
Definition TRANS_SESSION_MESSAGE : Z := 1.
Definition CONN_DEFAULT : Z := 0.
Definition CONN_MIDDLE : Z := 2.
Definition CONN_HIGH : Z := 3.
Definition PROXY_CHANNEL_STATUS_KEEPLIVEING : Z := 3.
Definition PROXY_CHANNEL_STATUS_COMPLETED : Z := 6.

Definition PROXY_ACK_SIZE : Z := 4.
Definition DATA_HEAD_SIZE : Z := 4096.
Definition MAGIC_NUMBER : Z := 0xBABEFACE.
Definition MAX_SEND_LENGTH : Z := 1024.
Definition OVERHEAD_LEN : Z := 28.
Definition PROXY_BYTES_LENGTH_MAX : Z := 4096.
Definition PROXY_MESSAGE_LENGTH_MAX : Z := 1024.
Definition PROXY_MAX_BYTES_LEN : Z := 4096.
Definition PROXY_MAX_MESSAGE_LEN : Z := 1024.
Definition SLICE_HEAD_LEN : Z := 32.
Definition SLICE_PACKET_TIMEOUT : Z := 10.

Record SliceHead := mkSliceHead { priority : Z; sliceNum : Z; sliceSeq : Z; s_reserved : Z }.
Record PacketHead := mkPacketHead { magicNumber : Z; p_seq : Z; flags : Z; p_dataLen : Z }.

Definition slice_head_bytes (h : SliceHead) : list byte :=
  le_bytes 4 (priority h) ++ le_bytes 4 (sliceNum h) ++ le_bytes 4 (sliceSeq h) ++
  le_bytes 4 (s_reserved h).
Definition packet_head_bytes (h : PacketHead) : list byte :=
  le_bytes 4 (magicNumber h) ++ le_bytes 4 (p_seq h) ++ le_bytes 4 (flags h) ++
  le_bytes 4 (p_dataLen h).

Definition read_slice_head (data : list byte) : option SliceHead :=
  p ← int32_at 0 data; n ← int32_at 4 data; s ← int32_at 8 data; r ← int32_at 12 data;
  Some (mkSliceHead p n s r).
Definition read_packet_head (data : list byte) : option PacketHead :=
  m ← int32_at 0 data; s ← int32_at 4 data; f ← int32_at 8 data; l ← int32_at 12 data;
  Some (mkPacketHead m s f l).

Record SliceProcessor := mkProcessor {
  active : bool;
  timeout : Z;
  sliceNumber : Z;
  expectedSeq : Z;
  dataLen : Z;
  bufLen : Z;
  p_data : option (list byte);
}.

Record ChannelSliceProcessor := mkChannel { channelId : Z; processor : list SliceProcessor }.

Record ProxyChannelInfo := mkChanInfo { ci_myId : Z; ci_peerId : Z; ci_connId : Z; ci_status : Z }.

(** ** Type conversions *)

Definition ProxyTypeToProxyIndex (packetType : Z) : Z :=
  if (packetType =? PROXY_FLAG_MESSAGE) || (packetType =? PROXY_FLAG_ASYNC_MESSAGE) ||
     (packetType =? PROXY_FLAG_ACK)
  then PROXY_CHANNEL_PRORITY_MESSAGE
  else PROXY_CHANNEL_PRORITY_BYTES.

Definition SessionTypeToPacketType (sessionType : Z) : Z :=
  if sessionType =? TRANS_SESSION_BYTES then PROXY_FLAG_BYTES
  else if sessionType =? TRANS_SESSION_MESSAGE then PROXY_FLAG_MESSAGE
  else PROXY_FLAG_BYTES.

Definition ProxyTypeToConnPri (proxyType : Z) : Z :=
  if proxyType =? PROXY_FLAG_BYTES then CONN_MIDDLE
  else if (proxyType =? PROXY_FLAG_ASYNC_MESSAGE) || (proxyType =? PROXY_FLAG_ACK) then CONN_HIGH
  else CONN_DEFAULT.

Section session.

(** The session key of a channel; AES-GCM with the packet sequence:
    [encrypt key plain seq] and [decrypt key cipher seq] give the return code
    and the output; the size of the connection head. *)
Context (session_key : Z -> option (list byte)).
Context (encrypt decrypt : list byte -> list byte -> Z -> Z * list byte).
Context (connHeadLen : nat).

(** ** Sending *)

Definition TransProxyEncryptPacketData (channel seq : Z) (inData : list byte)
    : Z * option (list byte) :=
  match session_key channel with
  | None => (SOFTBUS_ERR, None)
  | Some key =>
      let '(ret, out) := encrypt key inData seq in
      if negb (ret =? SOFTBUS_OK) ||
         negb (Z.of_nat (length out) =? u32 (Z.of_nat (length inData) + OVERHEAD_LEN))
      then (SOFTBUS_ENCRYPT_ERR, None)
      else (SOFTBUS_OK, Some out)
  end.

Definition TransProxyDecryptPacketData (channel seq : Z) (inData : list byte)
    : Z * option (list byte) :=
  match session_key channel with
  | None => (SOFTBUS_ERR, None)
  | Some key =>
      let '(ret, out) := decrypt key inData seq in
      if negb (ret =? SOFTBUS_OK) then (SOFTBUS_ERR, None) else (SOFTBUS_OK, Some out)
  end.

(** [newSeq] is what [TransProxyGetNewChanSeq] would return; for an ACK the
    sequence is the payload, when it fits. *)
Definition TransProxyGetPktSeqId (newSeq : Z) (inData : list byte) (flag : Z) : Z :=
  if (flag =? PROXY_FLAG_ACK) && (length inData <=? 4)%nat then i32 (le_val inData) else newSeq.

Definition TransProxyPackBytes (mem : bool) (newSeq channel : Z) (inData : list byte) (flag : Z)
    : Z * option (list byte * Z) :=
  if negb mem then (SOFTBUS_MEM_ERR, None)
  else
    let seq := TransProxyGetPktSeqId newSeq inData flag in
    match TransProxyEncryptPacketData channel seq inData with
    | (_, None) => (SOFTBUS_TRANS_PROXY_SESS_ENCRYPT_ERR, None)
    | (_, Some out) =>
        let head := mkPacketHead (i32 MAGIC_NUMBER) seq flag (i32 (Z.of_nat (length out))) in
        (SOFTBUS_OK, Some (packet_head_bytes head ++ out, seq))
    end.

(** The packed slice: room for the connection head, message head, slice head,
    payload. *)
Definition TransProxyPackAppNormalMsg (mem : bool) (msg : ProxyMessage.ProxyMessageHead)
    (head : SliceHead) (payLoad : list byte) : option (list byte) :=
  if negb mem then None
  else Some (zeros connHeadLen ++ ProxyMessage.head_bytes msg ++ slice_head_bytes head ++ payLoad).

(** The loop of [TransProxyTransAppNormalMsg]: [n] slices are left from [i];
    [mem i] and [send i] are the allocation and the transmission of slice
    [i].  The result is the code and the buffers sent. *)
Fixpoint send_slices (mem : nat -> bool) (send : nat -> Z) (msg : ProxyMessage.ProxyMessageHead)
    (payLoad : list byte) (num flag : Z) (i n : nat) : Z * list (list byte) :=
  match n with
  | O => (SOFTBUS_OK, [])
  | S n =>
      let head := mkSliceHead (ProxyTypeToProxyIndex flag) num (Z.of_nat i) 0 in
      let len := Z.of_nat (length payLoad) in
      let '(dlen, offset) :=
        if num >? 1 then
          ((if Z.of_nat i =? num - 1 then len - Z.of_nat i * MAX_SEND_LENGTH else MAX_SEND_LENGTH),
           Z.of_nat i * MAX_SEND_LENGTH)
        else (len, 0) in
      match TransProxyPackAppNormalMsg (mem i) msg head
              (slice (Z.to_nat offset) (Z.to_nat dlen) payLoad) with
      | None => (SOFTBUS_TRANS_PROXY_PACKMSG_ERR, [])
      | Some buf =>
          if negb (send i =? SOFTBUS_OK) then (SOFTBUS_TRANS_PROXY_SENDMSG_ERR, [])
          else
            let '(r, bufs) := send_slices mem send msg payLoad num flag (S i) n in
            (r, buf :: bufs)
      end
  end.

Definition normal_head (info : ProxyChannelInfo) : ProxyMessage.ProxyMessageHead :=
  ProxyMessage.mkMessageHead (ProxyMessage.type_byte ProxyMessage.PROXYCHANNEL_MSG_TYPE_NORMAL) 0
    (ci_myId info) (ci_peerId info) 0.

Definition TransProxyTransAppNormalMsg (mem : nat -> bool) (send : nat -> Z)
    (info : ProxyChannelInfo) (payLoad : list byte) (flag : Z) : Z * list (list byte) :=
  let singleLen := MAX_SEND_LENGTH in
  let num := Z.quot (i32 (i32 (Z.of_nat (length payLoad) + singleLen) - 1)) singleLen in
  send_slices mem send (normal_head info) payLoad num flag 0 (Z.to_nat num).

(** [info]: what [TransProxyGetSendMsgChanInfo] finds for the channel. *)
Definition TransProxyTransDataSendMsg (mem_info : bool) (mem : nat -> bool) (send : nat -> Z)
    (info : option ProxyChannelInfo) (payLoad : list byte) (flag : Z) : Z * list (list byte) :=
  if negb mem_info then (SOFTBUS_MALLOC_ERR, [])
  else match info with
       | None => (SOFTBUS_TRANS_PROXY_SEND_CHANNELID_INVALID, [])
       | Some info =>
           if negb (ci_status info =? PROXY_CHANNEL_STATUS_COMPLETED) &&
              negb (ci_status info =? PROXY_CHANNEL_STATUS_KEEPLIVEING)
           then (SOFTBUS_TRANS_PROXY_CHANNLE_STATUS_INVALID, [])
           else TransProxyTransAppNormalMsg mem send info payLoad flag
       end.

(** [wait]: the result of the blocking [ProcPendingPacket] on the sequence. *)
Definition TransProxyTransDataSendSyncMsg (mem_info : bool) (mem : nat -> bool) (send : nat -> Z)
    (wait : Z -> Z) (info : option ProxyChannelInfo) (payLoad : list byte) (flag seq : Z)
    : Z * list (list byte) :=
  let '(ret, bufs) := TransProxyTransDataSendMsg mem_info mem send info payLoad flag in
  if negb (ret =? SOFTBUS_OK) then (ret, bufs) else (wait seq, bufs).

Definition TransProxyPostPacketData (mem_pack mem_info : bool) (mem : nat -> bool) (send : nat -> Z)
    (wait : Z -> Z) (info : option ProxyChannelInfo) (newSeq channel : Z)
    (data : option (list byte)) (flag : Z) : Z * list (list byte) :=
  match data with
  | None => (SOFTBUS_INVALID_PARAM, [])
  | Some d =>
      match TransProxyPackBytes mem_pack newSeq channel d flag with
      | (ret, None) => (ret, [])
      | (_, Some (out, seq)) =>
          if flag =? PROXY_FLAG_MESSAGE
          then TransProxyTransDataSendSyncMsg mem_info mem send wait info out flag seq
          else TransProxyTransDataSendMsg mem_info mem send info out flag
      end
  end.

Definition TransProxyPostSessionData (mem_pack mem_info : bool) (mem : nat -> bool)
    (send : nat -> Z) (wait : Z -> Z) (info : option ProxyChannelInfo) (newSeq channel : Z)
    (data : option (list byte)) (sessionType : Z) : Z * list (list byte) :=
  TransProxyPostPacketData mem_pack mem_info mem send wait info newSeq channel data
    (SessionTypeToPacketType sessionType).

(** ** Receiving *)

(** What a received packet makes the module do: notify the client, post an
    acknowledgement packet, mark a pending packet. *)
Inductive proxy_event :=
  | Notify (channel : Z) (data : list byte) (type : Z)
  | PostAck (channel : Z) (ack : list byte)
  | AckReceived (channel seq : Z).

Record rstate := mkRstate {
  procs : option (list ChannelSliceProcessor);
  pend : pending_lists;
  evs : list proxy_event;
}.

Definition emit (w : rstate) (e : proxy_event) : rstate := mkRstate (procs w) (pend w) (evs w ++ [e]).
Definition set_procs (w : rstate) (l : list ChannelSliceProcessor) : rstate :=
  mkRstate (Some l) (pend w) (evs w).

Definition TransProxyProcSendMsgAck (w : rstate) (channel : Z) (data : list byte) : Z * rstate :=
  if negb (Z.of_nat (length data) =? PROXY_ACK_SIZE)
  then (SOFTBUS_TRANS_INVALID_DATA_LENGTH, w)
  else
    let seq := i32 (bswap32 (le_val data)) in
    let '(ret, g, _) := SetPendingPacket (pend w) channel seq PENDING_TYPE_PROXY in
    (ret, mkRstate (procs w) g (evs w ++ [AckReceived channel seq])).

Definition TransProxySendSessionAck (w : rstate) (channel seq : Z) : rstate :=
  emit w (PostAck channel (le_bytes 4 seq)).

(** [client]: the result of notifying the client. *)
Definition TransProxyNotifySession (client : Z) (w : rstate) (channel flag seq : Z)
    (data : list byte) : Z * rstate :=
  if flag =? PROXY_FLAG_BYTES then (client, emit w (Notify channel data TRANS_SESSION_BYTES))
  else if flag =? PROXY_FLAG_MESSAGE then
    (client, emit (TransProxySendSessionAck w channel seq) (Notify channel data TRANS_SESSION_MESSAGE))
  else if flag =? PROXY_FLAG_ASYNC_MESSAGE then
    (client, emit w (Notify channel data TRANS_SESSION_MESSAGE))
  else if flag =? PROXY_FLAG_ACK then TransProxyProcSendMsgAck w channel data
  else (SOFTBUS_INVALID_PARAM, w).

Definition TransProxySessionDataLenCheck (len type : Z) : Z :=
  if (type =? PROXY_FLAG_MESSAGE) || (type =? PROXY_FLAG_ASYNC_MESSAGE) then
    if len >? PROXY_MAX_MESSAGE_LEN then SOFTBUS_ERR else SOFTBUS_OK
  else if type =? PROXY_FLAG_BYTES then
    if len >? PROXY_MAX_BYTES_LEN then SOFTBUS_ERR else SOFTBUS_OK
  else SOFTBUS_OK.

(** [data]: the bytes from the end of the packet head to the end of the
    buffer they are in. *)
Definition TransProxyProcessSessionData (mem : bool) (client : Z) (w : rstate) (channel : Z)
    (head : PacketHead) (data : list byte) : option (Z * rstate) :=
  if p_dataLen head <=? OVERHEAD_LEN then Some (SOFTBUS_TRANS_INVALID_DATA_LENGTH, w)
  else if negb mem then Some (SOFTBUS_MALLOC_ERR, w)
  else if Z.of_nat (length data) <? p_dataLen head then None
  else
    match TransProxyDecryptPacketData channel (p_seq head) (take (Z.to_nat (p_dataLen head)) data) with
    | (_, None) => Some (SOFTBUS_DECRYPT_ERR, w)
    | (_, Some out) =>
        if negb (TransProxySessionDataLenCheck (Z.of_nat (length out)) (flags head) =? SOFTBUS_OK)
        then Some (SOFTBUS_ERR, w)
        else
          let '(r, w') := TransProxyNotifySession client w channel (flags head) (p_seq head) out in
          Some (if negb (r =? SOFTBUS_OK) then SOFTBUS_ERR else SOFTBUS_OK, w')
    end.

Definition TransProxyNoSubPacketProc (mem : bool) (client : Z) (w : rstate) (channel : Z)
    (data : list byte) : option (Z * rstate) :=
  head ← read_packet_head data;
  if negb (u32 (magicNumber head) =? MAGIC_NUMBER) then Some (SOFTBUS_ERR, w)
  else if p_dataLen head <=? 0 then Some (SOFTBUS_ERR, w)
  else
    '(r, w') ← TransProxyProcessSessionData mem client w channel head (drop 16 data);
    Some (if negb (r =? SOFTBUS_OK) then SOFTBUS_ERR else SOFTBUS_OK, w').

Definition TransProxyCheckSliceHead (head : SliceHead) : Z :=
  if (priority head <? 0) || (priority head >=? PROXY_CHANNEL_PRORITY_BUTT) then SOFTBUS_ERR
  else if negb (sliceNum head =? 1) && (sliceSeq head >=? sliceNum head) then SOFTBUS_ERR
  else SOFTBUS_OK.

(** ** Slice processors *)

Definition empty_processor : SliceProcessor := mkProcessor false 0 0 0 0 0 None.

Definition TransProxyClearProcessor (p : SliceProcessor) : SliceProcessor := empty_processor.

Definition max_len (prio : Z) : Z :=
  (if prio =? PROXY_CHANNEL_PRORITY_MESSAGE then PROXY_MESSAGE_LENGTH_MAX
   else PROXY_BYTES_LENGTH_MAX) + DATA_HEAD_SIZE + OVERHEAD_LEN.

Definition TransProxyFirstSliceProcess (mem : bool) (p : SliceProcessor) (head : SliceHead)
    (data : list byte) : option (Z * SliceProcessor) :=
  let p0 := TransProxyClearProcessor p in
  let maxLen := max_len (priority head) in
  if negb mem then Some (SOFTBUS_MALLOC_ERR, p0)
  else
    '(ok, buf) ← memcpy_s (zeros (Z.to_nat maxLen)) 0 maxLen data;
    if (ok : bool) then
      Some (SOFTBUS_OK,
        mkProcessor true 0 (sliceNum head) 1 (i32 (Z.of_nat (length data))) maxLen (Some buf))
    else Some (SOFTBUS_SLICE_ERROR, mkProcessor false 0 0 0 0 maxLen (Some buf)).

Definition TransProxySliceProcessChkPkgIsValid (p : SliceProcessor) (head : SliceHead)
    (data : list byte) : Z :=
  if negb (sliceNum head =? sliceNumber p) || negb (sliceSeq head =? expectedSeq p)
  then SOFTBUS_TRANS_PROXY_ASSEMBLE_PACK_NO_INVALID
  else if i32 (i32 (Z.of_nat (length data)) + dataLen p) >? bufLen p
  then SOFTBUS_TRANS_PROXY_ASSEMBLE_PACK_EXCEED_LENGTH
  else match p_data p with
       | None => SOFTBUS_TRANS_PROXY_ASSEMBLE_PACK_DATA_NULL
       | Some _ => SOFTBUS_OK
       end.

(** The copy shared by [TransProxyNormalSliceProcess] and
    [TransProxyLastSliceProcess]: on success the slice is appended. *)
Definition append_slice (p : SliceProcessor) (head : SliceHead) (data : list byte)
    : option (Z * SliceProcessor) :=
  let ret := TransProxySliceProcessChkPkgIsValid p head data in
  if negb (ret =? SOFTBUS_OK) then Some (ret, p)
  else match p_data p with
       | None => None
       | Some buf =>
           '(ok, buf') ← memcpy_s buf (Z.to_nat (dataLen p)) (bufLen p - dataLen p) data;
           if (ok : bool) then
             Some (SOFTBUS_OK,
               mkProcessor (active p) (timeout p) (sliceNumber p) (i32 (expectedSeq p + 1))
                 (i32 (dataLen p + Z.of_nat (length data))) (bufLen p) (Some buf'))
           else Some (SOFTBUS_MEM_ERR,
             mkProcessor (active p) (timeout p) (sliceNumber p) (expectedSeq p) (dataLen p)
               (bufLen p) (Some buf'))
       end.

Definition TransProxyNormalSliceProcess (p : SliceProcessor) (head : SliceHead) (data : list byte)
    : option (Z * SliceProcessor) :=
  '(ret, p') ← append_slice p head data;
  if negb (ret =? SOFTBUS_OK) then Some (ret, p')
  else Some (ret, mkProcessor (active p') 0 (sliceNumber p') (expectedSeq p') (dataLen p')
                    (bufLen p') (p_data p')).

Definition TransProxyLastSliceProcess (mem : bool) (client : Z) (w : rstate) (channel : Z)
    (p : SliceProcessor) (head : SliceHead) (data : list byte)
    : option (Z * SliceProcessor * rstate) :=
  '(ret, p') ← append_slice p head data;
  if negb (ret =? SOFTBUS_OK) then Some (ret, p', w)
  else
    buf ← p_data p';
    '(r, w') ← TransProxyNoSubPacketProc mem client w channel buf;
    if negb (r =? SOFTBUS_OK) then Some (r, p', w')
    else Some (r, TransProxyClearProcessor p', w').

Fixpoint find_channel (l : list ChannelSliceProcessor) (channel : Z) : option nat :=
  match l with
  | [] => None
  | c :: l => if channelId c =? channel then Some O else S <$> find_channel l channel
  end.

(** [TransProxyGetChannelSliceProcessor]: the position of the channel's
    processors and the list, with a new node in front when there was none. *)
Definition TransProxyGetChannelSliceProcessor (mem : bool) (l : list ChannelSliceProcessor)
    (channel : Z) : option (nat * list ChannelSliceProcessor) :=
  match find_channel l channel with
  | Some i => Some (i, l)
  | None =>
      if negb mem then None
      else Some (O, mkChannel channel [empty_processor; empty_processor; empty_processor] :: l)
  end.

Definition update_processor (l : list ChannelSliceProcessor) (i j : nat) (p : SliceProcessor)
    : list ChannelSliceProcessor :=
  alter (fun c => mkChannel (channelId c) (<[j := p]> (processor c))) i l.

(** The environment of one reception: the allocations of the channel node, of
    the first slice's buffer and of the plain text, the lock, the client. *)
Record recv_env := mkRecvEnv {
  r_mem_node : bool; r_mem_slice : bool; r_mem_out : bool; r_lock : bool; r_client : Z;
}.

Definition TransProxySubPacketProc (e : recv_env) (w : rstate) (channel : Z) (head : SliceHead)
    (data : list byte) : option (Z * rstate) :=
  if Z.of_nat (length data) <=? 0 then Some (SOFTBUS_INVALID_PARAM, w)
  else match procs w with
  | None => Some (SOFTBUS_NO_INIT, w)
  | Some l =>
      if negb (r_lock e) then Some (SOFTBUS_ERR, w)
      else match TransProxyGetChannelSliceProcessor (r_mem_node e) l channel with
      | None => Some (SOFTBUS_ERR, w)
      | Some (i, l1) =>
          c ← l1 !! i;
          let j := Z.to_nat (priority head) in
          p ← processor c !! j;
          '(ret, p', w') ←
            (if sliceSeq head =? 0 then
               '(r, p1) ← TransProxyFirstSliceProcess (r_mem_slice e) p head data; Some (r, p1, w)
             else if sliceNum head =? sliceSeq head + 1 then
               TransProxyLastSliceProcess (r_mem_out e) (r_client e) w channel p head data
             else '(r, p1) ← TransProxyNormalSliceProcess p head data; Some (r, p1, w));
          let p'' := if negb (ret =? SOFTBUS_OK) then TransProxyClearProcessor p' else p' in
          Some (ret, set_procs w' (update_processor l1 i j p''))
      end
  end.

Definition TransOnNormalMsgReceived (e : recv_env) (w : rstate) (channel : Z)
    (data : option (list byte)) : option (Z * rstate) :=
  match data with
  | None => Some (SOFTBUS_ERR, w)
  | Some d =>
      if Z.of_nat (length d) <=? SLICE_HEAD_LEN then Some (SOFTBUS_ERR, w)
      else
        head ← read_slice_head d;
        if negb (TransProxyCheckSliceHead head =? 0)
        then Some (SOFTBUS_TRANS_PROXY_INVALID_SLICE_HEAD, w)
        else if sliceNum head =? 1
        then TransProxyNoSubPacketProc (r_mem_out e) (r_client e) w channel (drop 16 d)
        else TransProxySubPacketProc e w channel head (drop 16 d)
  end.

(** ** Maintenance *)

Fixpoint remove_channel (l : list ChannelSliceProcessor) (channel : Z) : list ChannelSliceProcessor :=
  match l with
  | [] => []
  | c :: l => if channelId c =? channel then l else c :: remove_channel l channel
  end.

Definition TransProxyDelSliceProcessorByChannelId (lock : bool) (w : rstate) (channel : Z)
    : Z * rstate :=
  match procs w with
  | None => (SOFTBUS_NO_INIT, w)
  | Some l =>
      if negb lock then (SOFTBUS_ERR, w)
      else (SOFTBUS_OK, set_procs w (remove_channel l channel))
  end.

Definition tick_processor (p : SliceProcessor) : SliceProcessor :=
  if active p then
    let t := i32 (timeout p + 1) in
    if t >=? SLICE_PACKET_TIMEOUT then TransProxyClearProcessor p
    else mkProcessor (active p) t (sliceNumber p) (expectedSeq p) (dataLen p) (bufLen p) (p_data p)
  else p.

Definition TransProxySliceTimerProc (lock : bool) (w : rstate) : rstate :=
  match procs w with
  | None => w
  | Some l =>
      if (length l =? 0)%nat then w
      else if negb lock then w
      else set_procs w (map (fun c => mkChannel (channelId c) (map tick_processor (processor c))) l)
  end.

(** ** Memory safety of the assembly *)

(** A processor's buffer has the size it records and holds what it counts. *)
Definition proc_ok (p : SliceProcessor) : Prop :=
  match p_data p with
  | None => True
  | Some buf => Z.of_nat (length buf) = bufLen p /\ 0 <= dataLen p <= bufLen p /\ bufLen p < 2 ^ 30
  end.

Definition channel_ok (c : ChannelSliceProcessor) : Prop :=
  length (processor c) = 3%nat /\ Forall proc_ok (processor c).

Definition state_ok (w : rstate) : Prop :=
  match procs w with None => True | Some l => Forall channel_ok l end.

Lemma max_len_bounds prio : 0 < max_len prio < 2 ^ 30.
Proof. unfold max_len. by destruct (prio =? _). Qed.

Lemma append_slice_safe p head data : proc_ok p -> Z.of_nat (length data) < 2 ^ 32 ->
  exists r p', append_slice p head data = Some (r, p') /\ proc_ok p' /\
    (r = SOFTBUS_OK -> is_Some (p_data p')).
Proof.
  intros Hp Hd. unfold append_slice. destruct (negb (_ =? SOFTBUS_OK)) eqn:Ec.
  { eexists _, p. split; [done|]. split; [done|]. intros E. by rewrite E in Ec. }
  unfold proc_ok in Hp. destruct (p_data p) as [buf|] eqn:Eb.
  - destruct Hp as (El & Hlen & Hmax).
    destruct (memcpy_s_safe buf (Z.to_nat (dataLen p)) (bufLen p - dataLen p) data)
      as (ok & buf' & -> & El' & Hok); [lia|]. simpl.
    destruct ok; eexists _, _; (split; [done|]); unfold proc_ok; simpl.
    + specialize (Hok eq_refl). rewrite i32_small by lia. split; [lia|by eexists].
    + split; [lia|done].
  - unfold TransProxySliceProcessChkPkgIsValid in Ec. rewrite Eb in Ec.
    by repeat case_if_in Ec.
Qed.

Lemma first_slice_safe mem p head data :
  exists r p', TransProxyFirstSliceProcess mem p head data = Some (r, p') /\ proc_ok p'.
Proof.
  unfold TransProxyFirstSliceProcess. destruct mem; simpl; [|by eexists _, _].
  pose proof (max_len_bounds (priority head)) as Hm.
  destruct (memcpy_s_safe (zeros (Z.to_nat (max_len (priority head)))) 0 (max_len (priority head)) data)
    as (ok & buf & -> & El & Hok); [unfold zeros; rewrite length_replicate; lia|].
  unfold zeros in El. rewrite length_replicate in El. simpl.
  destruct ok; eexists _, _; (split; [done|]); unfold proc_ok; simpl; [|lia].
  specialize (Hok eq_refl). rewrite i32_small by lia. lia.
Qed.

(** The packet processing leaves a buffer only when the packet head claims
    more bytes than there are. *)
Definition over_read (buf : list byte) : Prop :=
  (length buf < 16)%nat \/
  exists h, read_packet_head buf = Some h /\ Z.of_nat (length buf) - 16 < p_dataLen h.

Lemma int32_at_Some i l : (i + 4 <= length l)%nat -> exists z, int32_at i l = Some z.
Proof. intros H. unfold int32_at. rewrite (proj2 (Nat.leb_le _ _)) by done. eauto. Qed.

Lemma read_heads_Some l : (16 <= length l)%nat ->
  is_Some (read_packet_head l) /\ is_Some (read_slice_head l).
Proof.
  intros H. unfold read_packet_head, read_slice_head.
  destruct (int32_at_Some 0 l) as [? ->]; [lia|]. destruct (int32_at_Some 4 l) as [? ->]; [lia|].
  destruct (int32_at_Some 8 l) as [? ->]; [lia|]. destruct (int32_at_Some 12 l) as [? ->]; [lia|].
  by split; eexists.
Qed.

Lemma nosub_procs mem client w ch buf r w' :
  TransProxyNoSubPacketProc mem client w ch buf = Some (r, w') -> procs w' = procs w.
Proof.
  unfold TransProxyNoSubPacketProc. intros E. apply bind_Some in E as (h & _ & E).
  case_if_in E; [by simplify_eq|]. case_if_in E; [by simplify_eq|].
  apply bind_Some in E as ([r1 w1] & E1 & E). simplify_eq.
  unfold TransProxyProcessSessionData in E1. repeat (case_if_in E1; [by simplify_eq|]).
  destruct (TransProxyDecryptPacketData _ _ _) as [_ [out|]]; [|by simplify_eq].
  case_if_in E1; [by simplify_eq|]. unfold TransProxyNotifySession in E1.
  repeat case_if_in E1; simplify_eq; try done.
  unfold TransProxyProcSendMsgAck in E1. case_if_in E1; simplify_eq; [done|].
  destruct (SetPendingPacket _ _ _ _) as [[r2 g2] o2]. by simplify_eq.
Qed.

Lemma nosub_None mem client w ch buf :
  TransProxyNoSubPacketProc mem client w ch buf = None -> over_read buf.
Proof.
  unfold TransProxyNoSubPacketProc. intros E. destruct (decide (length buf < 16)%nat); [by left|].
  destruct (read_heads_Some buf) as [[h Eh] _]; [lia|]. rewrite Eh in E. simpl in E.
  case_if_in E; [done|]. case_if_in E; [done|].
  destruct (TransProxyProcessSessionData _ _ _ _ _ _) as [[r1 w1]|] eqn:E1; [done|].
  unfold TransProxyProcessSessionData in E1. case_if_in E1; [done|]. case_if_in E1; [done|].
  case_if_in E1.
  - right. exists h. split; [done|]. apply Z.ltb_lt in Hif3. rewrite length_drop in Hif3. lia.
  - destruct (TransProxyDecryptPacketData _ _ _) as [_ [out|]]; [|done]. case_if_in E1; [done|].
    by destruct (TransProxyNotifySession _ _ _ _ _ _).
Qed.


Lemma channel_ok_new ch :
  channel_ok (mkChannel ch [empty_processor; empty_processor; empty_processor]).
Proof. split; [done|]. by repeat constructor. Qed.

Lemma get_channel_ok mem l ch i l1 : Forall channel_ok l ->
  TransProxyGetChannelSliceProcessor mem l ch = Some (i, l1) ->
  Forall channel_ok l1 /\ is_Some (l1 !! i) /\ find_channel l1 ch = Some i.
Proof.
  intros Hl E. unfold TransProxyGetChannelSliceProcessor in E.
  destruct (find_channel l ch) as [j|] eqn:Ef.
  - simplify_eq. split; [done|]. split; [|done]. clear Hl. revert i Ef.
    induction l1 as [|c l1 IH]; intros i Ef; [done|]. simpl in Ef. case_if_in Ef; simplify_eq; [done|].
    apply fmap_Some in Ef as (i' & Ei & ->). by apply IH.
  - destruct mem; simplify_eq/=. split; [|split; [done|by rewrite Z.eqb_refl]].
    constructor; [apply channel_ok_new|done].
Qed.

Lemma update_processor_ok l i j p : Forall channel_ok l -> proc_ok p ->
  Forall channel_ok (update_processor l i j p).
Proof.
  intros Hl Hp. unfold update_processor. apply Forall_alter; [done|]. intros c _ [Hc1 Hc2].
  split; simpl; [by rewrite length_insert|]. by apply Forall_insert.
Qed.

Lemma empty_ok : proc_ok empty_processor.
Proof. done. Qed.

(** One slice on one processor: it stays well formed, or the completed packet
    is over-read. *)
Lemma last_slice_safe mem client w ch p head data :
  proc_ok p -> Z.of_nat (length data) < 2 ^ 32 ->
  (exists r p' w', TransProxyLastSliceProcess mem client w ch p head data = Some (r, p', w') /\
     proc_ok p' /\ procs w' = procs w) \/
  (TransProxyLastSliceProcess mem client w ch p head data = None /\
   exists p' buf, append_slice p head data = Some (SOFTBUS_OK, p') /\ p_data p' = Some buf /\
     over_read buf).
Proof.
  intros Hp Hd. destruct (append_slice_safe p head data Hp Hd) as (r & p' & E & Hp' & Hs).
  unfold TransProxyLastSliceProcess. rewrite E. simpl. destruct (Z.eqb_spec r SOFTBUS_OK) as [->|Hr].
  - destruct (Hs eq_refl) as [buf Eb]. simpl. rewrite Eb. simpl.
    destruct (TransProxyNoSubPacketProc mem client w ch buf) as [[r1 w1]|] eqn:En; simpl.
    + left. apply nosub_procs in En. case_if; eexists _, _, _; by split_and!.
    + right. split; [done|]. exists p', buf. split_and!; [done|done|]. by eapply nosub_None.
  - left. simpl. by eexists _, _, _.
Qed.

Lemma normal_slice_safe p head data : proc_ok p -> Z.of_nat (length data) < 2 ^ 32 ->
  exists r p', TransProxyNormalSliceProcess p head data = Some (r, p') /\ proc_ok p'.
Proof.
  intros Hp Hd. destruct (append_slice_safe p head data Hp Hd) as (r & p' & E & Hp' & _).
  unfold TransProxyNormalSliceProcess. rewrite E. simpl. case_if; by eexists _, _.
Qed.

(** [buf] is the assembly buffer of the channel after slice [data] completed it. *)
Definition completed (e : recv_env) (w : rstate) (ch : Z) (head : SliceHead) (data buf : list byte)
    : Prop :=
  exists l i l1 c p p', procs w = Some l /\
    TransProxyGetChannelSliceProcessor (r_mem_node e) l ch = Some (i, l1) /\ l1 !! i = Some c /\
    processor c !! Z.to_nat (priority head) = Some p /\
    append_slice p head data = Some (SOFTBUS_OK, p') /\ p_data p' = Some buf.

Lemma sub_packet_safe e w ch head data :
  state_ok w -> 0 <= priority head < 3 -> Z.of_nat (length data) < 2 ^ 32 ->
  (exists r w', TransProxySubPacketProc e w ch head data = Some (r, w') /\ state_ok w') \/
  (TransProxySubPacketProc e w ch head data = None /\
   exists buf, completed e w ch head data buf /\ over_read buf).
Proof.
  intros Hw Hprio Hd. unfold TransProxySubPacketProc. case_if; [left; by eexists _, _|].
  unfold state_ok in Hw. destruct (procs w) as [l|] eqn:El; [|left; eexists _, _; split; [done|];
    unfold state_ok; by rewrite El].
  assert (state_ok w) as Hw' by (unfold state_ok; by rewrite El).
  case_if; [left; by eexists _, _|].
  destruct (TransProxyGetChannelSliceProcessor _ l ch) as [[i l1]|] eqn:Eg; [|left; by eexists _, _].
  destruct (get_channel_ok _ _ _ _ _ Hw Eg) as (Hl1 & [c Hc] & _). rewrite Hc. simpl.
  assert (channel_ok c) as [Hlen Hall] by (rewrite Forall_lookup in Hl1; eauto).
  destruct (lookup_lt_is_Some_2 (processor c) (Z.to_nat (priority head))) as [p Hp]; [lia|].
  rewrite Hp. simpl. assert (proc_ok p) as Hpok by (rewrite Forall_lookup in Hall; eauto).
  assert (forall r p' w', proc_ok p' -> procs w' = procs w -> state_ok (set_procs w'
    (update_processor l1 i (Z.to_nat (priority head))
      (if negb (r =? SOFTBUS_OK) then TransProxyClearProcessor p' else p')))) as Hset.
  { intros r p' w' Hp' _. unfold state_ok. simpl. apply update_processor_ok; [done|].
    by destruct (r =? SOFTBUS_OK). }
  case_if.
  - destruct (first_slice_safe (r_mem_slice e) p head data) as (r & p' & -> & Hp'). simpl.
    left. eexists _, _. split; [done|]. by apply (Hset r).
  - case_if.
    + destruct (last_slice_safe (r_mem_out e) (r_client e) w ch p head data Hpok Hd)
        as [(r & p' & w' & -> & Hp' & Ew)|(-> & p' & buf & Ea & Eb & Hover)]; simpl.
      2: { right. split; [done|]. exists buf. split; [|done]. by exists l, i, l1, c, p, p'. }
      left. eexists _, _. split; [done|]. by apply (Hset r).
    + destruct (normal_slice_safe p head data Hpok Hd) as (r & p' & -> & Hp'). simpl.
      left. eexists _, _. split; [done|]. by apply (Hset r).
Qed.


(** ** Slicing *)

Definition chunk (payLoad : list byte) (i : nat) : list byte := slice (1024 * i) 1024 payLoad.

(** The slice of index [i] of [num], without the connection and message heads. *)
Definition wire_slice (payLoad : list byte) (num flag : Z) (i : nat) : list byte :=
  slice_head_bytes (mkSliceHead (ProxyTypeToProxyIndex flag) num (Z.of_nat i) 0) ++ chunk payLoad i.

Lemma slice_all {A} n (l : list A) off : (length l - off <= n)%nat -> slice off n l = drop off l.
Proof. intros H. unfold slice. apply take_ge. rewrite length_drop. lia. Qed.

Lemma send_slices_ok msg payLoad num flag i n :
  0 < num -> Z.of_nat (i + n) = num ->
  num * 1024 - 1024 < Z.of_nat (length payLoad) <= num * 1024 ->
  send_slices (fun _ => true) (fun _ => SOFTBUS_OK) msg payLoad num flag i n =
  (SOFTBUS_OK, (fun k => zeros connHeadLen ++ ProxyMessage.head_bytes msg ++
     wire_slice payLoad num flag k) <$> seq i n).
Proof.
  intros Hnum. revert i. induction n as [|n IH]; intros i Hi Hlen; [done|].
  cbn [send_slices seq fmap list_fmap].
  assert ((if num >? 1
    then (if Z.of_nat i =? num - 1 then Z.of_nat (length payLoad) - Z.of_nat i * MAX_SEND_LENGTH
          else MAX_SEND_LENGTH, Z.of_nat i * MAX_SEND_LENGTH)
    else (Z.of_nat (length payLoad), 0)) =
    (if Z.of_nat i =? num - 1 then Z.of_nat (length payLoad) - Z.of_nat i * MAX_SEND_LENGTH
          else MAX_SEND_LENGTH, Z.of_nat i * MAX_SEND_LENGTH)) as ->.
  { destruct (num >? 1) eqn:E; [done|]. assert (Z.of_nat i = 0 /\ num = 1) as [-> ->] by lia.
    simpl. f_equal. lia. }
  unfold TransProxyPackAppNormalMsg. cbn [negb]. rewrite Z.eqb_refl. cbn [negb].
  rewrite IH by lia. simpl. do 2 f_equal. unfold wire_slice, chunk.
  replace (Z.to_nat (Z.of_nat i * MAX_SEND_LENGTH)) with (1024 * i)%nat
    by (unfold MAX_SEND_LENGTH; lia).
  destruct (Z.eqb_spec (Z.of_nat i) (num - 1)) as [Ei|Ei]; [|done].
  rewrite (slice_all 1024) by lia. rewrite slice_all; [done|]. unfold MAX_SEND_LENGTH. lia.
Qed.


(** ** Heads on the wire *)

Definition int32 (z : Z) : Prop := INT32_MIN <= z <= INT32_MAX.

Lemma read_four a b c d rest :
  int32 a -> int32 b -> int32 c -> int32 d ->
  let l := (le_bytes 4 a ++ le_bytes 4 b ++ le_bytes 4 c ++ le_bytes 4 d) ++ rest in
  int32_at 0 l = Some a /\ int32_at 4 l = Some b /\ int32_at 8 l = Some c /\ int32_at 12 l = Some d.
Proof.
  intros Ha Hb Hc Hd l. unfold l. rewrite <- !app_assoc.
  pose proof (int32_at_mid [] a (le_bytes 4 b ++ le_bytes 4 c ++ le_bytes 4 d ++ rest) 0) as E0.
  pose proof (int32_at_mid (le_bytes 4 a) b (le_bytes 4 c ++ le_bytes 4 d ++ rest) 4) as E1.
  pose proof (int32_at_mid (le_bytes 4 a ++ le_bytes 4 b) c (le_bytes 4 d ++ rest) 8) as E2.
  pose proof (int32_at_mid (le_bytes 4 a ++ le_bytes 4 b ++ le_bytes 4 c) d rest 12) as E3.
  rewrite <- !app_assoc in E2, E3. rewrite <- !app_assoc in E3.
  rewrite !length_app, !length_le_bytes in E2, E3. rewrite length_le_bytes in E1.
  rewrite app_nil_l in E0. unfold int32 in *.
  rewrite E0, E1, E2, E3 by done. by rewrite !i32_small.
Qed.

Lemma read_slice_head_ok h rest :
  int32 (priority h) -> int32 (sliceNum h) -> int32 (sliceSeq h) -> int32 (s_reserved h) ->
  read_slice_head (slice_head_bytes h ++ rest) = Some h.
Proof.
  intros. unfold read_slice_head, slice_head_bytes.
  destruct (read_four (priority h) (sliceNum h) (sliceSeq h) (s_reserved h) rest)
    as (E0 & E1 & E2 & E3); try done.
  rewrite E0, E1, E2, E3. by destruct h.
Qed.

Lemma read_packet_head_ok h rest :
  int32 (magicNumber h) -> int32 (p_seq h) -> int32 (flags h) -> int32 (p_dataLen h) ->
  read_packet_head (packet_head_bytes h ++ rest) = Some h.
Proof.
  intros. unfold read_packet_head, packet_head_bytes.
  destruct (read_four (magicNumber h) (p_seq h) (flags h) (p_dataLen h) rest)
    as (E0 & E1 & E2 & E3); try done.
  rewrite E0, E1, E2, E3. by destruct h.
Qed.

Lemma length_slice_head_bytes h : length (slice_head_bytes h) = 16%nat.
Proof. unfold slice_head_bytes. by rewrite !length_app, !length_le_bytes. Qed.
Lemma length_packet_head_bytes h : length (packet_head_bytes h) = 16%nat.
Proof. unfold packet_head_bytes. by rewrite !length_app, !length_le_bytes. Qed.

(** ** One processor in the table *)

Definition proc_at (w : rstate) (ch : Z) (j : nat) (p : SliceProcessor) : Prop :=
  exists l i c, procs w = Some l /\ find_channel l ch = Some i /\ l !! i = Some c /\
    processor c !! j = Some p.

Lemma find_channel_update l i j p ch :
  find_channel (update_processor l i j p) ch = find_channel l ch.
Proof.
  unfold update_processor. revert i. induction l as [|c l IH]; intros i; [done|].
  destruct i as [|i]; [done|].
  change (alter ?f (S i) (c :: l)) with (c :: alter f i l). cbn [find_channel]. by rewrite IH.
Qed.

Lemma proc_at_update w l i j p c p0 ch : find_channel l ch = Some i -> l !! i = Some c ->
  processor c !! j = Some p0 -> proc_at (set_procs w (update_processor l i j p)) ch j p.
Proof.
  intros Hf Hc Hp. eexists _, i, _. split; [done|]. rewrite find_channel_update.
  split; [done|]. unfold update_processor. rewrite list_lookup_alter_eq, Hc. simpl.
  split; [done|]. simpl. apply list_lookup_insert_eq. by eapply lookup_lt_Some.
Qed.

(** All allocations, the lock and the client succeed. *)
Definition env_ok : recv_env := mkRecvEnv true true true true SOFTBUS_OK.

Lemma get_channel_found mem l ch i : find_channel l ch = Some i ->
  TransProxyGetChannelSliceProcessor mem l ch = Some (i, l).
Proof. intros E. unfold TransProxyGetChannelSliceProcessor. by rewrite E. Qed.

Lemma first_packet w ch head data p' : state_ok w -> procs w <> None ->
  0 <= priority head < 3 -> data <> [] -> sliceSeq head = 0 ->
  (forall p, TransProxyFirstSliceProcess true p head data = Some (SOFTBUS_OK, p')) ->
  exists w', TransProxySubPacketProc env_ok w ch head data = Some (SOFTBUS_OK, w') /\
    proc_at w' ch (Z.to_nat (priority head)) p' /\ evs w' = evs w /\ pend w' = pend w.
Proof.
  intros Hw Hne Hprio Hd Hseq Hfirst. unfold TransProxySubPacketProc.
  replace (Z.of_nat (length data) <=? 0) with false by (destruct data; [done|simpl; bool_lia]).
  unfold state_ok in Hw. destruct (procs w) as [l|] eqn:El; [|done]. simpl.
  destruct (TransProxyGetChannelSliceProcessor true l ch) as [[i l1]|] eqn:Eg.
  2: { unfold TransProxyGetChannelSliceProcessor in Eg. by destruct (find_channel l ch). }
  destruct (get_channel_ok _ _ _ _ _ Hw Eg) as (Hl1 & [c Hc] & Hf). rewrite Hc. simpl.
  assert (channel_ok c) as [Hlen _] by (rewrite Forall_lookup in Hl1; eauto).
  destruct (lookup_lt_is_Some_2 (processor c) (Z.to_nat (priority head))) as [p Hp]; [lia|].
  rewrite Hp, Hseq. simpl. rewrite Hfirst. simpl. eexists. split; [done|].
  split; [by eapply proc_at_update|done].
Qed.

(** A later slice on a processor that accepts it. *)
Lemma later_packet w ch head data p p' w1 :
  proc_at w ch (Z.to_nat (priority head)) p -> data <> [] -> sliceSeq head <> 0 ->
  (if sliceNum head =? sliceSeq head + 1
   then TransProxyLastSliceProcess true SOFTBUS_OK w ch p head data = Some (SOFTBUS_OK, p', w1)
   else TransProxyNormalSliceProcess p head data = Some (SOFTBUS_OK, p') /\ w1 = w) ->
  exists w', TransProxySubPacketProc env_ok w ch head data = Some (SOFTBUS_OK, w') /\
    proc_at w' ch (Z.to_nat (priority head)) p' /\ evs w' = evs w1 /\ pend w' = pend w1.
Proof.
  intros (l & i & c & El & Hf & Hc & Hp) Hd Hseq Hstep. unfold TransProxySubPacketProc.
  replace (Z.of_nat (length data) <=? 0) with false by (destruct data; [done|simpl; bool_lia]).
  rewrite El. simpl. rewrite (get_channel_found _ _ _ _ Hf), Hc. simpl. rewrite Hp. simpl.
  replace (sliceSeq head =? 0) with false by lia.
  destruct (sliceNum head =? sliceSeq head + 1).
  - rewrite Hstep. simpl. eexists. split; [done|]. split; [by eapply proc_at_update|done].
  - destruct Hstep as [-> ->]. simpl. eexists. split; [done|].
    split; [by eapply proc_at_update|done].
Qed.


(** ** Assembly *)

Lemma length_zeros n : length (zeros n) = n.
Proof. apply length_replicate. Qed.

Lemma splice_pad (a xs : list byte) off n : off = length a ->
  splice off xs (a ++ zeros n) = a ++ xs ++ zeros (n - length xs).
Proof.
  intros ->. unfold splice, zeros. rewrite take_app_length, drop_app_add, drop_replicate. done.
Qed.

Section assembly.
Context (P : list byte) (num prio : Z).
Let maxLen := max_len prio.
Hypothesis Hprio : 0 <= prio < 3.
Hypothesis Hnum : 1 < num.
Hypothesis HL : num * 1024 - 1024 < Z.of_nat (length P) <= num * 1024.
Hypothesis Hmax : Z.of_nat (length P) <= maxLen.

Let head (i : nat) : SliceHead := mkSliceHead prio num (Z.of_nat i) 0.

(** The processor after [m] slices. *)
Definition asm (m : nat) : SliceProcessor :=
  mkProcessor true 0 num (Z.of_nat m) (1024 * Z.of_nat m) maxLen
    (Some (take (1024 * m) P ++ zeros (Z.to_nat maxLen - 1024 * m))).

Lemma length_chunk m : (Z.of_nat m < num - 1) -> length (chunk P m) = 1024%nat.
Proof. intros Hm. unfold chunk, slice. rewrite length_take, length_drop. lia. Qed.

Lemma first_ok p :
  TransProxyFirstSliceProcess true p (head 0) (chunk P 0) = Some (SOFTBUS_OK, asm 1).
Proof.
  pose proof (max_len_bounds prio) as Hb. pose proof (length_chunk 0) as Hc.
  unfold TransProxyFirstSliceProcess. simpl priority. cbn [negb].
  fold maxLen. fold maxLen in Hb. change (zeros (Z.to_nat maxLen)) with ([] ++ zeros (Z.to_nat maxLen)) at 1.
  rewrite memcpy_s_ok by (rewrite ?Hc, ?app_nil_l, ?length_zeros; lia).
  cbn [mbind option_bind]. rewrite splice_pad by done. rewrite !Hc by lia. reflexivity.
Qed.

Lemma append_ok m : (1 <= m)%nat -> Z.of_nat m < num ->
  exists p', append_slice (asm m) (head m) (chunk P m) = Some (SOFTBUS_OK, p') /\
    (Z.of_nat m < num - 1 -> mkProcessor (active p') 0 (sliceNumber p') (expectedSeq p') (dataLen p')
       (bufLen p') (p_data p') = asm (S m)) /\
    (Z.of_nat m = num - 1 -> p_data p' = Some (P ++ zeros (Z.to_nat maxLen - length P))).
Proof.
  intros Hm1 Hm. pose proof (max_len_bounds prio) as Hb. fold maxLen in Hb.
  assert (length (chunk P m) = Nat.min 1024 (length P - 1024 * m)) as Hc
    by (unfold chunk, slice; by rewrite length_take, length_drop).
  unfold append_slice, TransProxySliceProcessChkPkgIsValid.
  cbn [sliceNum sliceSeq head asm sliceNumber expectedSeq dataLen bufLen p_data].
  rewrite !Z.eqb_refl. cbn [negb orb].
  rewrite (i32_small (Z.of_nat (length (chunk P m)))) by lia. rewrite i32_small by lia.
  replace (_ >? maxLen) with false by bool_lia. cbn [Z.eqb SOFTBUS_OK negb].
  replace (Z.to_nat (1024 * Z.of_nat m)) with (1024 * m)%nat by lia.
  rewrite memcpy_s_ok by (rewrite ?length_app, ?length_take, ?length_zeros; lia).
  cbn [mbind option_bind]. rewrite splice_pad by (rewrite length_take; lia).
  eexists. split; [reflexivity|]. cbn [active sliceNumber expectedSeq dataLen bufLen p_data].
  pose proof (take_slice (1024 * m) 1024 P) as Ht. fold (chunk P m) in Ht.
  rewrite app_assoc, Ht. split; intros Hlast.
  - unfold asm. rewrite Hc. rewrite !i32_small by lia. f_equal; try lia.
    do 3 f_equal; lia.
  - rewrite take_ge by lia. do 3 f_equal. lia.
Qed.

Lemma chunk_nonempty m : Z.of_nat m < num -> chunk P m <> [].
Proof.
  intros Hm E. apply (f_equal length) in E. unfold chunk, slice in E.
  rewrite length_take, length_drop in E. cbn [length] in E. lia.
Qed.

End assembly.


(** ** The whole path *)

(** Received slices, one after the other, with the codes returned. *)
Fixpoint deliver (e : recv_env) (w : rstate) (ch : Z) (ds : list (list byte))
    : option (list Z * rstate) :=
  match ds with
  | [] => Some ([], w)
  | d :: ds =>
      '(r, w1) ← TransOnNormalMsgReceived e w ch (Some d);
      '(rs, w2) ← deliver e w1 ch ds;
      Some (r :: rs, w2)
  end.

(** What the client and the sender get for a packet. *)
Definition delivery (ch seq flag : Z) (data : list byte) : list proxy_event :=
  if flag =? PROXY_FLAG_BYTES then [Notify ch data TRANS_SESSION_BYTES]
  else if flag =? PROXY_FLAG_MESSAGE
  then [PostAck ch (le_bytes 4 seq); Notify ch data TRANS_SESSION_MESSAGE]
  else [Notify ch data TRANS_SESSION_MESSAGE].

Definition data_flag (flag : Z) : Prop :=
  flag = PROXY_FLAG_BYTES \/ flag = PROXY_FLAG_MESSAGE \/ flag = PROXY_FLAG_ASYNC_MESSAGE.

Lemma nosub_ok w ch key data seq flag cipher pad :
  session_key ch = Some key -> decrypt key cipher seq = (SOFTBUS_OK, data) ->
  OVERHEAD_LEN < Z.of_nat (length cipher) < 2 ^ 31 -> int32 seq -> data_flag flag ->
  TransProxySessionDataLenCheck (Z.of_nat (length data)) flag = SOFTBUS_OK ->
  exists w', TransProxyNoSubPacketProc true SOFTBUS_OK w ch
      ((packet_head_bytes (mkPacketHead (i32 MAGIC_NUMBER) seq flag
          (i32 (Z.of_nat (length cipher)))) ++ cipher) ++ pad) = Some (SOFTBUS_OK, w') /\
    evs w' = evs w ++ delivery ch seq flag data /\ procs w' = procs w.
Proof.
  intros Hk Hdec Hlen Hseq Hflag Hcheck. unfold OVERHEAD_LEN in Hlen.
  rewrite (i32_small (Z.of_nat (length cipher))) by lia. unfold TransProxyNoSubPacketProc. rewrite <- app_assoc.
  rewrite read_packet_head_ok.
  2: { apply i32_range. }
  2: { done. }
  2: { unfold int32. simpl. destruct Hflag as [-> |[-> | ->]]; by vm_compute. }
  2: { unfold int32. simpl. lia. }
  cbn [mbind option_bind magicNumber p_dataLen]. change (u32 (i32 MAGIC_NUMBER) =? MAGIC_NUMBER) with true.
  cbn [negb]. replace (Z.of_nat (length cipher) <=? 0) with false by bool_lia.
  unfold TransProxyProcessSessionData, OVERHEAD_LEN. cbn [p_dataLen p_seq flags negb].
  rewrite drop_app_length' by (by rewrite length_packet_head_bytes).
  replace (Z.of_nat (length cipher) <=? 28) with false by bool_lia.
  replace (_ <? Z.of_nat (length cipher)) with false by (rewrite length_app; bool_lia).
  rewrite Nat2Z.id, take_app_length. unfold TransProxyDecryptPacketData. rewrite Hk, Hdec.
  cbn [Z.eqb SOFTBUS_OK negb]. rewrite Hcheck. cbn [Z.eqb SOFTBUS_OK negb].
  destruct Hflag as [-> |[-> | ->]]; simpl; eexists; (split; [reflexivity|]); simpl;
    by rewrite <- ?app_assoc.
Qed.

Lemma received_single e w ch P flag : (16 < length P <= 1024)%nat ->
  TransOnNormalMsgReceived e w ch (Some (wire_slice P 1 flag 0)) =
  TransProxyNoSubPacketProc (r_mem_out e) (r_client e) w ch P.
Proof.
  intros HP. unfold TransOnNormalMsgReceived, wire_slice, SLICE_HEAD_LEN.
  assert (chunk P 0 = P) as -> by (unfold chunk; by rewrite slice_all, drop_0 by lia).
  replace (_ <=? 32) with false by (rewrite length_app, length_slice_head_bytes; bool_lia).
  rewrite read_slice_head_ok by
    (cbn [priority sliceNum sliceSeq s_reserved]; unfold int32, ProxyTypeToProxyIndex; try case_if; by vm_compute).
  unfold TransProxyCheckSliceHead. cbn [mbind option_bind priority sliceNum sliceSeq].
  replace ((ProxyTypeToProxyIndex flag <? 0) || (ProxyTypeToProxyIndex flag >=? PROXY_CHANNEL_PRORITY_BUTT))
    with false by (unfold ProxyTypeToProxyIndex; by case_if).
  cbn [negb andb Z.eqb SOFTBUS_OK Pos.eqb]. by rewrite drop_app_length' by (by rewrite length_slice_head_bytes).
Qed.

Lemma received_slice e w ch P num flag i : 1 < num <= 2 ^ 20 -> Z.of_nat i < num ->
  (16 < length (chunk P i))%nat ->
  TransOnNormalMsgReceived e w ch (Some (wire_slice P num flag i)) =
  TransProxySubPacketProc e w ch (mkSliceHead (ProxyTypeToProxyIndex flag) num (Z.of_nat i) 0)
    (chunk P i).
Proof.
  intros Hnum Hi HP. unfold TransOnNormalMsgReceived, wire_slice, SLICE_HEAD_LEN.
  replace (_ <=? 32) with false by (rewrite length_app, length_slice_head_bytes; bool_lia).
  rewrite read_slice_head_ok by
    (cbn [priority sliceNum sliceSeq s_reserved]; unfold int32, ProxyTypeToProxyIndex;
     first [lia | case_if; by vm_compute]).
  unfold TransProxyCheckSliceHead. cbn [mbind option_bind priority sliceNum sliceSeq].
  replace ((ProxyTypeToProxyIndex flag <? 0) || (ProxyTypeToProxyIndex flag >=? PROXY_CHANNEL_PRORITY_BUTT))
    with false by (unfold ProxyTypeToProxyIndex; by case_if).
  replace (negb (num =? 1) && (Z.of_nat i >=? num)) with false by lia.
  cbn [negb Z.eqb SOFTBUS_OK]. replace (num =? 1) with false by lia.
  by rewrite drop_app_length' by (by rewrite length_slice_head_bytes).
Qed.


(** The packet of [data]: packet head and cipher text. *)
Section packet.
Context (ch : Z) (key data cipher : list byte) (seq flag : Z).
Hypothesis Hkey : session_key ch = Some key.
Hypothesis Hdec : decrypt key cipher seq = (SOFTBUS_OK, data).
Hypothesis Hcipher : Z.of_nat (length cipher) = Z.of_nat (length data) + OVERHEAD_LEN.
Hypothesis Hdata : (0 < length data)%nat.
Hypothesis Hseq : int32 seq.
Hypothesis Hflag : data_flag flag.
Hypothesis Hcheck : TransProxySessionDataLenCheck (Z.of_nat (length data)) flag = SOFTBUS_OK.

Let P : list byte :=
  packet_head_bytes (mkPacketHead (i32 MAGIC_NUMBER) seq flag (i32 (Z.of_nat (length cipher)))) ++ cipher.
Let prio := ProxyTypeToProxyIndex flag.

Lemma data_bound : Z.of_nat (length data) <= 4096 /\
  Z.of_nat (length P) = Z.of_nat (length data) + 44 /\ Z.of_nat (length P) <= max_len prio /\
  0 <= prio < 3.
Proof.
  unfold P. rewrite length_app, length_packet_head_bytes, Nat2Z.inj_add, Hcipher.
  unfold prio. assert (Z.of_nat (length data) <= (if flag =? PROXY_FLAG_BYTES then 4096 else 1024) /\
    max_len (ProxyTypeToProxyIndex flag) = (if flag =? PROXY_FLAG_BYTES then 8220 else 5148) /\
    0 <= ProxyTypeToProxyIndex flag < 3) as (H1 & H2 & H3).
  { unfold TransProxySessionDataLenCheck in Hcheck.
    destruct Hflag as [E|[E|E]]; rewrite E in Hcheck |- *; simpl in Hcheck;
      (case_if_in Hcheck; [done|]); rewrite Z.gtb_ltb in Hif; apply Z.ltb_ge in Hif;
      split_and!; done. }
  rewrite H2. unfold OVERHEAD_LEN. destruct (flag =? PROXY_FLAG_BYTES); lia.
Qed.

Lemma packet_nosub w pad : exists w',
  TransProxyNoSubPacketProc true SOFTBUS_OK w ch (P ++ pad) = Some (SOFTBUS_OK, w') /\
  evs w' = evs w ++ delivery ch seq flag data /\ procs w' = procs w.
Proof.
  destruct data_bound as (Hb & _). eapply nosub_ok; try done. unfold OVERHEAD_LEN in *. lia.
Qed.

Context (num : Z).
Hypothesis Hnum : num * 1024 - 1024 < Z.of_nat (length P) <= num * 1024.
Hypothesis Htail : num * 1024 - 1024 + 16 < Z.of_nat (length P).

Lemma long_chunk i : Z.of_nat i < num -> (16 < length (chunk P i))%nat.
Proof. intros Hi. unfold chunk, slice. rewrite length_take, length_drop. lia. Qed.

Lemma deliver_rest n m w : 1 < num -> (1 <= m)%nat -> Z.of_nat (m + n) = num -> (0 < n)%nat ->
  proc_at w ch (Z.to_nat prio) (asm P num prio m) ->
  exists rs w', deliver env_ok w ch (wire_slice P num flag <$> List.seq m n) = Some (rs, w') /\
    Forall (fun r => r = SOFTBUS_OK) rs /\ evs w' = evs w ++ delivery ch seq flag data.
Proof.
  destruct data_bound as (Hb & HP & Hmax & Hprio). intros Hn1. revert m w.
  induction n as [|n IH]; intros m w Hm Hmn Hn Hat; [lia|]. clear Hn.
  destruct (append_ok P num prio Hn1 Hnum Hmax m Hm) as (p' & Ea & Hnext & Hlast); [lia|].
  cbn [List.seq fmap list_fmap deliver]. rewrite received_slice by (try lia; apply long_chunk; lia). fold prio.
  destruct (decide (n = 0%nat)) as [->|Hn].
  - destruct (packet_nosub w (zeros (Z.to_nat (max_len prio) - length P))) as (w1 & En & Ev & _).
    destruct (later_packet w ch (mkSliceHead prio num (Z.of_nat m) 0) (chunk P m) (asm P num prio m)
      empty_processor w1) as (w' & -> & _ & Ev' & _); [done| | | |].
    + apply (chunk_nonempty P num prio Hnum). lia.
    + simpl. lia.
    + cbn [sliceNum sliceSeq]. replace (num =? Z.of_nat m + 1) with true by lia.
      unfold TransProxyLastSliceProcess. rewrite Ea. cbn [mbind option_bind negb Z.eqb SOFTBUS_OK].
      rewrite Hlast by lia. cbn [mbind option_bind]. by rewrite En.
    + simpl. eexists _, w'. split; [done|]. split; [by repeat constructor|]. by rewrite Ev', Ev.
  - destruct (later_packet w ch (mkSliceHead prio num (Z.of_nat m) 0) (chunk P m) (asm P num prio m)
      (asm P num prio (S m)) w) as (w' & -> & Hat' & Ev' & _); [done| | | |].
    + apply (chunk_nonempty P num prio Hnum). lia.
    + simpl. lia.
    + cbn [sliceNum sliceSeq]. replace (num =? Z.of_nat m + 1) with false by lia. split; [|done].
      unfold TransProxyNormalSliceProcess. rewrite Ea. cbn [mbind option_bind negb Z.eqb SOFTBUS_OK].
      by rewrite Hnext by lia.
    + destruct (IH (S m) w') as (rs & w2 & E2 & Hrs & Ev2); [lia..|done|]. simpl. rewrite E2. simpl.
      eexists _, w2. split; [done|]. split; [by constructor|]. by rewrite Ev2, Ev'.
Qed.

Lemma deliver_all w : 1 <= num -> state_ok w -> procs w <> None ->
  exists rs w', deliver env_ok w ch (wire_slice P num flag <$> List.seq 0 (Z.to_nat num)) = Some (rs, w') /\
    Forall (fun r => r = SOFTBUS_OK) rs /\ evs w' = evs w ++ delivery ch seq flag data.
Proof.
  destruct data_bound as (Hb & HP & Hmax & Hprio). intros H1 Hw Hne.
  destruct (Z.eq_dec num 1) as [->|Hn1].
  - change (Z.to_nat 1) with 1%nat. cbn [List.seq fmap list_fmap deliver].
    rewrite received_single by lia.
    destruct (packet_nosub w []) as (w1 & En & Ev & _). rewrite app_nil_r in En.
    unfold env_ok. cbn [r_mem_out r_client]. rewrite En. simpl. eexists _, w1.
    split; [done|]. split; [by repeat constructor|done].
  - replace (Z.to_nat num) with (S (Z.to_nat num - 1)) by lia.
    cbn [List.seq fmap list_fmap deliver]. rewrite received_slice by (try lia; apply long_chunk; lia). fold prio.
    destruct (first_packet w ch (mkSliceHead prio num (Z.of_nat 0) 0) (chunk P 0) (asm P num prio 1)
      Hw Hne) as (w1 & -> & Hat & Ev1 & _); [done| |done| |].
    + apply (chunk_nonempty P num prio Hnum). lia.
    + intros p. apply (first_ok P num prio); try done; lia.
    + simpl. destruct (deliver_rest (Z.to_nat num - 1) 1 w1) as (rs & w2 & E2 & Hrs & Ev2);
        [lia..|done|]. rewrite E2. simpl. eexists _, w2. split; [done|].
      split; [by constructor|]. by rewrite Ev2, Ev1.
Qed.

End packet.


(** ** Properties *)

(** C27: memory safety of reassembly.  Whatever slices arrive, in whatever
    order and with whatever heads, every copy stays inside its assembly buffer
    and the slice processors stay well formed; reception leaves a buffer only
    when the packet head of a complete packet (a single slice, or the
    assembled buffer) claims more bytes than the buffer holds. *)
Theorem slices_memory_safe e w ch d :
  state_ok w -> Z.of_nat (length d) < 2 ^ 32 ->
  (exists r w', TransOnNormalMsgReceived e w ch (Some d) = Some (r, w') /\ state_ok w') \/
  (TransOnNormalMsgReceived e w ch (Some d) = None /\
   exists buf, over_read buf /\
     (buf = drop 16 d \/ exists h, read_slice_head d = Some h /\ completed e w ch h (drop 16 d) buf)).
Proof.
  intros Hw Hd. unfold TransOnNormalMsgReceived. case_if; [left; by eexists _, _|].
  apply Z.leb_gt in Hif. unfold SLICE_HEAD_LEN in Hif.
  destruct (read_heads_Some d) as [_ [h Eh]]; [lia|]. rewrite Eh. simpl.
  case_if; [left; by eexists _, _|]. case_if.
  - destruct (TransProxyNoSubPacketProc _ _ w ch (drop 16 d)) as [[r w']|] eqn:En.
    + left. eexists r, w'. split; [done|]. unfold state_ok. by rewrite (nosub_procs _ _ _ _ _ _ _ En).
    + right. split; [done|]. exists (drop 16 d). split; [by eapply nosub_None|by left].
  - unfold TransProxyCheckSliceHead in Hif0. case_if_in Hif0; [done|].
    destruct (sub_packet_safe e w ch h (drop 16 d) Hw) as [?|(-> & buf & Hc & Ho)].
    + unfold PROXY_CHANNEL_PRORITY_BUTT in Hif2. lia.
    + rewrite length_drop. lia.
    + by left.
    + right. split; [done|]. exists buf. split; [done|]. right. by exists h.
Qed.

Lemma slice_count L : 0 < L < 2 ^ 30 ->
  let num := Z.quot (i32 (i32 (L + MAX_SEND_LENGTH) - 1)) MAX_SEND_LENGTH in
  0 < num /\ num * 1024 - 1024 < L <= num * 1024.
Proof.
  intros HL. unfold MAX_SEND_LENGTH. simpl. rewrite (i32_small (L + 1024)) by lia.
  rewrite i32_small by lia. rewrite Z.quot_div_nonneg by lia. Z.div_mod_to_equations. lia.
Qed.

Lemma pack_bytes_ok newSeq ch key data flag cipher :
  session_key ch = Some key -> encrypt key data newSeq = (SOFTBUS_OK, cipher) ->
  Z.of_nat (length cipher) = Z.of_nat (length data) + OVERHEAD_LEN ->
  Z.of_nat (length data) < 2 ^ 30 -> flag <> PROXY_FLAG_ACK ->
  TransProxyPackBytes true newSeq ch data flag = (SOFTBUS_OK, Some (packet_head_bytes
    (mkPacketHead (i32 MAGIC_NUMBER) newSeq flag (i32 (Z.of_nat (length cipher)))) ++ cipher, newSeq)).
Proof.
  intros Hk He Hc Hd Hf. unfold TransProxyPackBytes, TransProxyGetPktSeqId. cbn [negb].
  replace (flag =? PROXY_FLAG_ACK) with false by lia. cbn [andb].
  unfold TransProxyEncryptPacketData. rewrite Hk, He.
  replace (u32 (Z.of_nat (length data) + OVERHEAD_LEN)) with (Z.of_nat (length cipher))
    by (rewrite Hc; unfold OVERHEAD_LEN in *; rewrite u32_small; lia).
  by rewrite !Z.eqb_refl.
Qed.

Lemma data_flag_not_ack flag : data_flag flag -> flag <> PROXY_FLAG_ACK.
Proof. by intros [-> |[-> | ->]]. Qed.

Lemma bufs_wire msg P num flag (l : list nat) :
  drop (connHeadLen + 8) <$> ((fun k => zeros connHeadLen ++ ProxyMessage.head_bytes msg ++
    wire_slice P num flag k) <$> l) = wire_slice P num flag <$> l.
Proof.
  rewrite <- list_fmap_compose. apply list_fmap_ext. intros i x _. unfold compose.
  rewrite app_assoc. apply drop_app_length'.
  by rewrite length_app, length_zeros, ProxyMessage.length_head_bytes.
Qed.


(** a short last slice is lost.  A message of 981 to 996 bytes makes a
    packet of two slices whose second carries at most 16 bytes; the receiver,
    which wants every slice to be longer than a packet head, rejects it in
    every state, so the message never arrives. *)
Theorem short_tail_lost ch key newSeq info data flag cipher :
  session_key ch = Some key -> encrypt key data newSeq = (SOFTBUS_OK, cipher) ->
  Z.of_nat (length cipher) = Z.of_nat (length data) + OVERHEAD_LEN ->
  (980 < length data <= 996)%nat -> data_flag flag ->
  exists out b0 b1,
    TransProxyPackBytes true newSeq ch data flag = (SOFTBUS_OK, Some (out, newSeq)) /\
    TransProxyTransAppNormalMsg (fun _ => true) (fun _ => SOFTBUS_OK) info out flag =
      (SOFTBUS_OK, [b0; b1]) /\
    forall e w rch, TransOnNormalMsgReceived e w rch (Some (drop (connHeadLen + 8) b1)) =
      Some (SOFTBUS_ERR, w).
Proof.
  intros Hk He Hc Hd Hflag. unfold OVERHEAD_LEN in *.
  set (P := packet_head_bytes (mkPacketHead (i32 MAGIC_NUMBER) newSeq flag
    (i32 (Z.of_nat (length cipher)))) ++ cipher).
  assert (Z.of_nat (length P) = Z.of_nat (length data) + 44) as HP
    by (unfold P; rewrite length_app, length_packet_head_bytes; lia).
  set (mk := fun k => zeros connHeadLen ++ ProxyMessage.head_bytes (normal_head info) ++
    wire_slice P 2 flag k).
  exists P, (mk 0%nat), (mk 1%nat).
  split; [apply pack_bytes_ok with (key := key); try done; [lia|by apply data_flag_not_ack]|].
  destruct (slice_count (Z.of_nat (length P))) as [Hn0 Hn]; [lia|].
  split.
  { unfold TransProxyTransAppNormalMsg. set (num := Z.quot _ _) in *. assert (num = 2) as -> by lia.
    by rewrite send_slices_ok by lia. }
  intros e w rch. unfold mk. rewrite app_assoc, drop_app_length'
    by (by rewrite length_app, length_zeros, ProxyMessage.length_head_bytes).
  unfold TransOnNormalMsgReceived, wire_slice, SLICE_HEAD_LEN.
  replace (_ <=? 32) with true; [done|]. symmetry. apply Z.leb_le.
  rewrite length_app, length_slice_head_bytes. unfold chunk, slice.
  rewrite length_take, length_drop. lia.
Qed.

(** the length in the packet head is trusted.  A received message of 33
    bytes whose packet head claims 29 bytes of cipher text makes the receiver
    read past the end of the message, in every state and for every key. *)
Theorem packet_length_over_read e w ch : r_mem_out e = true ->
  TransOnNormalMsgReceived e w ch (Some
    (slice_head_bytes (mkSliceHead 0 1 0 0) ++
     packet_head_bytes (mkPacketHead MAGIC_NUMBER 0 PROXY_FLAG_BYTES 29) ++ [Byte.x00])) = None.
Proof. intros Hm. destruct e as [a b c d cl]. simpl in Hm. rewrite Hm. reflexivity. Qed.

(** acknowledgements name another packet.  The receiver of a message
    acknowledges with the sequence in host byte order, and the sender decodes
    it from network byte order: unless the four bytes read the same backwards,
    the acknowledgement of the only pending packet does not mark it. *)
Theorem ack_byte_order w ch seq t :
  int32 seq -> i32 (bswap32 (u32 seq)) <> seq ->
  pend w = PendingPkt.table PENDING_TYPE_PROXY
    (PendingPkt.mkList [PendingPkt.mkPending t ch seq false] 1) ->
  let ack := le_bytes 4 seq in
  evs (TransProxySendSessionAck w ch seq) = evs w ++ [PostAck ch ack] /\
  (TransProxyProcSendMsgAck w ch ack).1 = SOFTBUS_ERR /\
  pend (TransProxyProcSendMsgAck w ch ack).2 = pend w.
Proof.
  intros Hs Hne Hp ack. split; [done|]. unfold TransProxyProcSendMsgAck, ack.
  rewrite length_le_bytes, le_val_bytes. simpl negb. cbv iota.
  change (seq mod 2 ^ (Z.of_nat 4 * 8)) with (u32 seq).
  rewrite Hp. unfold SetPendingPacket. simpl. unfold PendingPkt.matches. simpl.
  replace (seq =? i32 (bswap32 (u32 seq))) with false by lia. simpl. done.
Qed.

End session.

(** ** Witnesses *)

Section witness.

(** A cipher that appends 28 zero bytes. *)
Definition key0 : Z -> option (list byte) := fun _ => Some [].
Definition enc0 : list byte -> list byte -> Z -> Z * list byte :=
  fun _ p _ => (SOFTBUS_OK, p ++ zeros 28).
Definition dec0 : list byte -> list byte -> Z -> Z * list byte :=
  fun _ c _ => (SOFTBUS_OK, take (length c - 28) c).
Definition w_init : rstate := mkRstate (Some []) PendingPkt.g_pendingList [].
Definition info0 : ProxyChannelInfo := mkChanInfo 1 2 3 PROXY_CHANNEL_STATUS_COMPLETED.

Lemma cipher0 plain seq : exists cipher, enc0 [] plain seq = (SOFTBUS_OK, cipher) /\
  Z.of_nat (length cipher) = Z.of_nat (length plain) + OVERHEAD_LEN /\
  dec0 [] cipher seq = (SOFTBUS_OK, plain).
Proof.
  eexists. split; [reflexivity|]. unfold dec0, OVERHEAD_LEN.
  rewrite length_app, length_zeros. split; [lia|].
  replace (length plain + 28 - 28)%nat with (length plain) by lia. by rewrite take_app_length.
Qed.

Lemma slices_memory_safe_witness :
  exists r w', TransOnNormalMsgReceived key0 dec0 env_ok w_init 5
    (Some (wire_slice (zeros 2000) 2 PROXY_FLAG_BYTES 0)) = Some (r, w') /\ state_ok w'.
Proof.
  destruct (slices_memory_safe key0 dec0 env_ok w_init 5 (wire_slice (zeros 2000) 2 PROXY_FLAG_BYTES 0))
    as [?|[E _]].
  - constructor.
  - vm_compute. reflexivity.
  - done.
  - vm_compute in E. discriminate E.
Defined.


Lemma short_tail_lost_witness :
  exists out b0 b1,
    TransProxyPackBytes key0 enc0 true 7 1 (zeros 981) PROXY_FLAG_MESSAGE =
      (SOFTBUS_OK, Some (out, 7)) /\
    TransProxyTransAppNormalMsg 24 (fun _ => true) (fun _ => SOFTBUS_OK) info0 out PROXY_FLAG_MESSAGE =
      (SOFTBUS_OK, [b0; b1]) /\
    forall e w rch, TransOnNormalMsgReceived key0 dec0 e w rch (Some (drop 32 b1)) =
      Some (SOFTBUS_ERR, w).
Proof.
  apply (short_tail_lost key0 enc0 dec0 24 1 [] 7 info0 (zeros 981) PROXY_FLAG_MESSAGE
    (zeros 981 ++ zeros 28)).
  - reflexivity.
  - reflexivity.
  - vm_compute. reflexivity.
  - rewrite length_zeros. lia.
  - right. by left.
Defined.

Lemma packet_length_over_read_witness :
  TransOnNormalMsgReceived key0 dec0 env_ok w_init 5 (Some
    (slice_head_bytes (mkSliceHead 0 1 0 0) ++
     packet_head_bytes (mkPacketHead MAGIC_NUMBER 0 PROXY_FLAG_BYTES 29) ++ [Byte.x00])) = None.
Proof. apply (packet_length_over_read key0 dec0 env_ok w_init 5). reflexivity. Defined.

Definition w_pending : rstate := mkRstate (Some []) (PendingPkt.table PENDING_TYPE_PROXY
  (PendingPkt.mkList [PendingPkt.mkPending 0 3 1 false] 1)) [].

Lemma ack_byte_order_witness :
  (TransProxyProcSendMsgAck w_pending 3 (le_bytes 4 1)).1 = SOFTBUS_ERR.
Proof.
  apply (ack_byte_order w_pending 3 1 0).
  - unfold int32. lia.
  - vm_compute. discriminate.
  - reflexivity.
Defined.

End witness.
End ProxySession.
