(* ===== verification/BleTrans.v ===== *)
(** * BLE connections and their fragmentation layer

    core/connection/ble/src/softbus_ble_trans_manager.c (all of it) and the
    connection list of core/connection/ble/src/softbus_ble_connection.c: the
    allocation of connection ids, the two lookups, and the GATT server
    callbacks that add and remove connections and change the MTU.

    A packet of up to 4096 bytes is cut into notifications of [mtu - 3] bytes,
    each with a 16-byte big-endian header (sequence, size, offset, total); the
    receiver keeps three reassembly buffers per connection.  [None] as the
    result of an operation is an access outside an object. *)

From S2P Require Import Prelude.

Module BleTrans.

Definition MAX_DATA_LEN : Z := 4096.
Definition MAX_CACHE_NUM_PER_CONN : nat := 3.
Definition MTU_HEADER_SIZE : Z := 3.
Definition BLE_GATT_ATT_MTU_DEFAULT_PAYLOAD : Z := 21.
Definition CONNECT_BLE : Z := 3.
Definition CONNECT_TYPE_SHIFT : Z := 16.
Definition MODULE_BLE_NET : Z := 100.
(** [sizeof(BleTransHeader)] *)
Definition HEADER_LEN : nat := 16.
(** The value of [memcpy_s] for a destination size of 0 or out of range. *)
Definition ERANGE : Z := 34.

(** ** Data *)

Record BleTransHeader := mkHeader { h_seq : Z; h_size : Z; h_offset : Z; h_total : Z }.

(** [cache] is [None] for the null pointer. *)
Record BleRecvCache := mkCache {
  isUsed : Z; timeStamp : Z; rc_seq : Z; currentSize : Z; cache : option (list byte) }.

Inductive BleConnectionState :=
  | BLE_CONNECTION_STATE_CONNECTING
  | BLE_CONNECTION_STATE_CONNECTED
  | BLE_CONNECTION_STATE_BASIC_INFO_EXCHANGED
  | BLE_CONNECTION_STATE_CLOSING
  | BLE_CONNECTION_STATE_CLOSED.

(** A connection, without the peer's addresses and identifiers and the
    constant type and availability of [ConnectionInfo]. *)
Record BleConnectionInfo := mkConn {
  halConnId : Z; connId : Z; isServer : Z; state : BleConnectionState;
  refCount : Z; mtu : Z; recvCache : list BleRecvCache }.

Definition set_recvCache (c : BleConnectionInfo) (rc : list BleRecvCache) : BleConnectionInfo :=
  mkConn (halConnId c) (connId c) (isServer c) (state c) (refCount c) (mtu c) rc.
Definition set_mtu (c : BleConnectionInfo) (m : Z) : BleConnectionInfo :=
  mkConn (halConnId c) (connId c) (isServer c) (state c) (refCount c) m (recvCache c).

(** ** The connection list *)

(** [LIST_FOR_EACH] with a [break] at the first match: the result is the node
    the cursor was last set to, [None] only for an empty list. *)
Fixpoint cursor (p : BleConnectionInfo -> bool) (l : list BleConnectionInfo) (i : nat)
    (itemNode : option nat) : option nat :=
  match l with
  | [] => itemNode
  | c :: l' => if p c then Some i else cursor p l' (S i) (Some i)
  end.

Definition GetBleConnInfoByConnId (lock : bool) (conns : list BleConnectionInfo) (id : Z) : option nat :=
  if negb lock then None else cursor (fun c => connId c =? id) conns 0 None.

Definition GetBleConnInfoByHalConnId (lock : bool) (conns : list BleConnectionInfo) (id : Z) : option nat :=
  if negb lock then None else cursor (fun c => halConnId c =? id) conns 0 None.

(** The [continue] on a clash continues the inner loop, so the outer loop runs
    once: [(id, nextConnectionId)]. *)
Definition AllocBleConnectionIdLocked (lock : bool) (nextConnectionId : Z)
    (conns : list BleConnectionInfo) : Z * Z :=
  if negb lock then (0, nextConnectionId)
  else
    let next := i16 (nextConnectionId + 1) in
    let tempId := u32 (Z.shiftl CONNECT_BLE CONNECT_TYPE_SHIFT + next) in
    let next' := foldl (fun n c => if connId c =? tempId then i16 (n + 1) else n) next conns in
    (i32 tempId, next').

Definition empty_cache : BleRecvCache := mkCache 0 0 0 0 None.

(** [(node, nextConnectionId)]; the node is zero-filled but for the fields set. *)
Definition CreateBleConnectionNode (alloc lock : bool) (nextConnectionId : Z)
    (conns : list BleConnectionInfo) : option BleConnectionInfo * Z :=
  if negb alloc then (None, nextConnectionId)
  else
    let (id, next') := AllocBleConnectionIdLocked lock nextConnectionId conns in
    (Some (mkConn 0 (u32 id) 0 BLE_CONNECTION_STATE_CONNECTING 1 BLE_GATT_ATT_MTU_DEFAULT_PAYLOAD
             (replicate MAX_CACHE_NUM_PER_CONN empty_cache)), next').

(** The state the callbacks share: the list, the id counter, and the
    notifications to the connection manager, oldest first. *)
Inductive Notification :=
  | OnConnected (connectionId : Z)
  | OnDisconnected (connectionId : Z).

Record ConnState := mkState {
  g_conection_list : list BleConnectionInfo; nextConnectionId : Z; notes : list Notification }.

(** [convert]: the conversion of the peer's address to text succeeded. *)
Definition BleConnectServerCallback (convert lock alloc : bool) (st : ConnState) (id : Z)
    : option ConnState :=
  if negb convert then Some st
  else if negb lock then Some st
  else
    let conns := g_conection_list st in
    if existsb (fun c => halConnId c =? id) conns then Some st
    else
      match CreateBleConnectionNode alloc lock (nextConnectionId st) conns with
      | (None, _) => None
      | (Some n, next') =>
          let n' := mkConn id (connId n) 1 BLE_CONNECTION_STATE_CONNECTED (refCount n) (mtu n) (recvCache n) in
          Some (mkState (conns ++ [n']) next' (notes st ++ [OnConnected (connId n')]))
      end.

(** [LIST_FOR_EACH_SAFE] that unlinks the first node with the id. *)
Fixpoint unlink_first (id : Z) (l : list BleConnectionInfo)
    : option BleConnectionInfo * list BleConnectionInfo :=
  match l with
  | [] => (None, [])
  | c :: l' =>
      if halConnId c =? id then (Some c, l')
      else let (t, l'') := unlink_first id l' in (t, c :: l'')
  end.

(** The final read of [targetNode->connId] is of a node already freed; the
    model gives it the value it had. *)
Definition BleDisconnectServerCallback (convert lock : bool) (st : ConnState) (id : Z) : ConnState :=
  if negb convert then st
  else if negb lock then st
  else
    match unlink_first id (g_conection_list st) with
    | (None, _) => st
    | (Some t, l') => mkState l' (nextConnectionId st) (notes st ++ [OnDisconnected (connId t)])
    end.

(** The GATT server's id is looked up among the softbus ids. *)
Definition BleMtuChangeCallback (lock : bool) (conns : list BleConnectionInfo) (id m : Z)
    : list BleConnectionInfo :=
  match GetBleConnInfoByConnId lock conns (u32 id) with
  | None => conns
  | Some k => alter (fun c => set_mtu c m) k conns
  end.

(** ** Receiving *)

(** [ntohl] of the four-byte field at [off]. *)
Definition field (off : nat) (value : list byte) : Z := i32 (be_val (slice off 4 value)).

(** [(status, header)] *)
Definition GetTransHeader (value : list byte) (len : Z) : option (Z * BleTransHeader) :=
  if (length value <? HEADER_LEN)%nat then None
  else
    let h := mkHeader (field 0 value) (field 4 value) (field 8 value) (field 12 value) in
    if negb (h_size h =? i32 (len - Z.of_nat HEADER_LEN)) || (h_total h <? i32 (h_size h + h_offset h))
       || (h_offset h <? 0) || (h_total h >? MAX_DATA_LEN)
    then Some (SOFTBUS_ERR, h)
    else Some (SOFTBUS_OK, h).

(** What [BleTransRecv] returns: null, or a pointer to [data] with [*outLen]
    and [*index]. *)
Inductive RecvResult :=
  | RecvNull
  | RecvData (data : list byte) (outLen index : Z).

(** The search for the buffer of a sequence: [(i, availableIndex)] at the end
    of the loop. *)
Fixpoint find_cache (seq : Z) (rc : list BleRecvCache) (i : Z) (availableIndex : Z) : Z * Z :=
  match rc with
  | [] => (i, availableIndex)
  | c :: rc' =>
      if isUsed c =? 0
      then find_cache seq rc' (i + 1) (if availableIndex >? -1 then availableIndex else i)
      else if rc_seq c =? seq then (i, availableIndex)
      else find_cache seq rc' (i + 1) availableIndex
  end.

(** [memcpy_s(dst + off, destMax, src, count)] with [count] a [size_t]. *)
Definition memcpy_count (dst : list byte) (off : nat) (destMax : Z) (src : list byte) (count : Z)
    : option (bool * list byte) :=
  if destMax <=? 0 then Some (false, dst)
  else if u64 count >? destMax then
    if (off + Z.to_nat destMax <=? length dst)%nat
    then Some (false, splice off (zeros (Z.to_nat destMax)) dst) else None
  else if (length src <? Z.to_nat count)%nat then None
  else memcpy_s dst off destMax (take (Z.to_nat count) src).

(** Lines 98 to 113 of [BleTransRecv]: the copy into buffer [i]. *)
Definition recv_copy (rc : list BleRecvCache) (i : nat) (h : BleTransHeader) (value : list byte)
    : option (list BleRecvCache * RecvResult) :=
  match rc !! i with
  | None => None
  | Some c =>
      match cache c with
      | None => None
      | Some buf =>
          match memcpy_count buf (Z.to_nat (h_offset h)) (MAX_DATA_LEN - h_offset h)
                  (drop HEADER_LEN value) (h_size h) with
          | None => None
          | Some (false, buf') =>
              Some (<[i := mkCache 0 (timeStamp c) (rc_seq c) (currentSize c) (Some buf')]> rc, RecvNull)
          | Some (true, buf') =>
              let cur := i32 (currentSize c + h_size h) in
              let rc' := <[i := mkCache (isUsed c) (timeStamp c) (rc_seq c) cur (Some buf')]> rc in
              Some (rc', if cur =? h_total h
                         then RecvData buf' (u32 (h_total h)) (Z.of_nat i) else RecvNull)
          end
      end
  end.

(** Lines 70 to 113: the part for a packet of several fragments. *)
Definition recv_part (alloc : bool) (rc : list BleRecvCache) (h : BleTransHeader) (value : list byte)
    : option (list BleRecvCache * RecvResult) :=
  let (i, availableIndex) := find_cache (h_seq h) rc 0 (-1) in
  if (i =? Z.of_nat MAX_CACHE_NUM_PER_CONN) && (availableIndex =? -1) then Some (rc, RecvNull)
  else if i =? Z.of_nat MAX_CACHE_NUM_PER_CONN then
    let k := Z.to_nat availableIndex in
    match rc !! k with
    | None => None
    | Some c =>
        match (match cache c with
               | Some b => Some b
               | None => if alloc then Some (zeros (Z.to_nat MAX_DATA_LEN)) else None
               end) with
        | None => Some (<[k := mkCache 0 (timeStamp c) (h_seq h) 0 None]> rc, RecvNull)
        | Some b => recv_copy (<[k := mkCache 1 (timeStamp c) (h_seq h) 0 (Some b)]> rc) k h value
        end
    end
  else recv_copy rc (Z.to_nat i) h value.

Definition BleTransRecv (lock alloc : bool) (conns : list BleConnectionInfo) (id : Z)
    (value : option (list byte)) (len : Z) : option (list BleConnectionInfo * RecvResult) :=
  match value with
  | None => Some (conns, RecvNull)
  | Some value =>
      match GetBleConnInfoByHalConnId lock conns id with
      | None => Some (conns, RecvNull)
      | Some k =>
          match conns !! k, GetTransHeader value (i32 len) with
          | Some c, Some (ret, h) =>
              if negb (ret =? SOFTBUS_OK) then Some (conns, RecvNull)
              else if h_size h =? h_total h
              then Some (conns, RecvData (drop HEADER_LEN value) (u32 (h_total h)) (-1))
              else
                match recv_part alloc (recvCache c) h value with
                | None => None
                | Some (rc', r) => Some (<[k := set_recvCache c rc']> conns, r)
                end
          | _, _ => None
          end
      end
  end.

(** The buffer at [index] is freed and its slot released. *)
Definition BleTransCacheFree (lock : bool) (conns : list BleConnectionInfo) (id index : Z)
    : option (list BleConnectionInfo) :=
  match GetBleConnInfoByHalConnId lock conns id with
  | None => Some conns
  | Some k =>
      match conns !! k with
      | None => None
      | Some c =>
          match recvCache c !! Z.to_nat index with
          | None => None
          | Some s =>
              if index <? 0 then None
              else Some (<[k := set_recvCache c
                     (<[Z.to_nat index := mkCache 0 (timeStamp s) (rc_seq s) (currentSize s) None]>
                        (recvCache c))]> conns)
          end
      end
  end.

(** ** Sending *)

Record SoftBusGattService := mkService { bleConnCharaId : Z; bleNetCharaId : Z }.

Definition GetBleAttrHandle (g : SoftBusGattService) (module : Z) : Z :=
  if module =? MODULE_BLE_NET then bleNetCharaId g else bleConnCharaId g.

Record SoftBusGattsNotify := mkNotify {
  connectId : Z; attrHandle : Z; confirm : Z; valueLen : Z; n_value : list byte }.

(** [(status, notifications handed to the GATT server)]; [hal] is the status
    of [SoftBusGattsSendNotify] for a notification. *)
Definition BleHalSend (g : SoftBusGattService) (hal : SoftBusGattsNotify -> Z)
    (c : BleConnectionInfo) (data : list byte) (len module : Z) : Z * list SoftBusGattsNotify :=
  if isServer c =? 1 then
    let n := mkNotify (halConnId c) (GetBleAttrHandle g module) 0 len data in
    (hal n, [n])
  else (SOFTBUS_ERR, []).

Definition header_bytes (h : BleTransHeader) : list byte :=
  be_bytes 4 (h_seq h) ++ be_bytes 4 (h_size h) ++ be_bytes 4 (h_offset h) ++ be_bytes 4 (h_total h).

(** The [while (templen > 0)] loop, [(status, notifications sent)].  [None]:
    an access outside an object (the buffer of a failed allocation, a read
    past [data]) or no fuel; the fuel given is enough since every round sends
    a byte or stops.  A [sendlenth] of 0 or less reaches [memcpy_s] as a
    destination size of 0 or above its limit, whose error is returned. *)
Fixpoint send_loop (fuel : nat) (g : SoftBusGattService) (alloc : Z -> bool)
    (hal : SoftBusGattsNotify -> Z) (c : BleConnectionInfo) (data : list byte)
    (len seq module dataLenMax templen offset : Z) : option (Z * list SoftBusGattsNotify) :=
  if negb (templen >? 0) then Some (SOFTBUS_OK, [])
  else
    match fuel with
    | O => None
    | S fuel' =>
        let sendlenth := if templen >? dataLenMax then dataLenMax else templen in
        if negb (alloc offset) then None
        else if sendlenth <=? 0 then Some (ERANGE, [])
        else if Z.of_nat (length data) <? offset + sendlenth then None
        else
          let buff := header_bytes (mkHeader seq sendlenth offset len) ++
                        slice (Z.to_nat offset) (Z.to_nat sendlenth) data in
          let (ret, ns) := BleHalSend g hal c buff (i32 (sendlenth + Z.of_nat HEADER_LEN)) module in
          if negb (ret =? SOFTBUS_OK) then Some (ret, ns)
          else
            match send_loop fuel' g alloc hal c data len seq module dataLenMax
                    (i32 (templen - sendlenth)) (i32 (offset + sendlenth)) with
            | None => None
            | Some (r, ns') => Some (r, ns ++ ns')
            end
    end.

Definition BleTransSend (g : SoftBusGattService) (alloc : Z -> bool) (hal : SoftBusGattsNotify -> Z)
    (c : BleConnectionInfo) (data : list byte) (len seq module : Z)
    : option (Z * list SoftBusGattsNotify) :=
  send_loop (S (Z.to_nat len)) g alloc hal c data len seq module
    (i32 (mtu c - MTU_HEADER_SIZE - Z.of_nat HEADER_LEN)) len 0.

(** ** Well-formed connections *)

(** A slot in use has its buffer, and a buffer has 4096 bytes. *)
Definition cache_ok (c : BleRecvCache) : Prop :=
  match cache c with
  | None => isUsed c = 0
  | Some b => length b = Z.to_nat MAX_DATA_LEN
  end.
Definition conn_ok (c : BleConnectionInfo) : Prop :=
  length (recvCache c) = MAX_CACHE_NUM_PER_CONN /\ Forall cache_ok (recvCache c).

(** ** Lemmas on the connection list *)

Lemma cursor_lookup p l i it k : cursor p l i it = Some k ->
  it = Some k \/ ((i <= k)%nat /\ exists c, l !! (k - i)%nat = Some c).
Proof.
  revert i it. induction l as [|c l IH]; intros i it H; simpl in H; [by left|].
  destruct (p c).
  - injection H as <-. right. split; [lia|]. exists c. by rewrite Nat.sub_diag.
  - right. destruct (IH _ _ H) as [E|(Hk & c' & E)].
    + injection E as ->. split; [lia|]. exists c. by rewrite Nat.sub_diag.
    + split; [lia|]. exists c'. by replace (k - i)%nat with (S (k - S i)) by lia.
Qed.

Lemma cursor_insert p l i it k c c' : l !! k = Some c -> p c' = p c ->
  cursor p (<[k := c']> l) i it = cursor p l i it.
Proof.
  revert i it k. induction l as [|x l IH]; intros i it k Hk Hp; [done|].
  destruct k as [|k]; simpl in *.
  - injection Hk as ->. by rewrite Hp.
  - destruct (p x); [done|]. by apply IH.
Qed.

Lemma hal_lookup lock conns id k : GetBleConnInfoByHalConnId lock conns id = Some k ->
  exists c, conns !! k = Some c.
Proof.
  unfold GetBleConnInfoByHalConnId. destruct lock; [simpl|done]. intros H.
  apply cursor_lookup in H as [?|(_ & c & E)]; [done|]. exists c. by rewrite Nat.sub_0_r in E.
Qed.

Lemma hal_insert lock conns id k c rc : conns !! k = Some c ->
  GetBleConnInfoByHalConnId lock (<[k := set_recvCache c rc]> conns) id =
  GetBleConnInfoByHalConnId lock conns id.
Proof.
  intros H. unfold GetBleConnInfoByHalConnId. destruct lock; [simpl|done].
  by apply cursor_insert with (c := c).
Qed.

Lemma set_recvCache_id c : set_recvCache c (recvCache c) = c.
Proof. by destruct c. Qed.

(** ** Receiving is memory-safe *)

Lemma memcpy_count_safe dst off destMax src count :
  0 <= count <= Z.of_nat (length src) -> count <= INT32_MAX ->
  destMax <= Z.of_nat (length dst) - Z.of_nat off ->
  exists r dst', memcpy_count dst off destMax src count = Some (r, dst') /\
    length dst' = length dst /\ (r = true -> 0 < destMax /\ count <= destMax).
Proof.
  intros Hc Hi Hd. unfold memcpy_count. destruct (destMax <=? 0) eqn:E0; [by eexists false, _|].
  rewrite (wrap_small 64) by lia. destruct (count >? destMax) eqn:E1.
  - rewrite (proj2 (Nat.leb_le _ _)) by lia. eexists _, _. split; [done|]. split; [|done].
    apply length_splice. unfold zeros. rewrite length_replicate. lia.
  - rewrite (proj2 (Nat.ltb_ge _ _)) by lia.
    destruct (memcpy_s_safe dst off destMax (take (Z.to_nat count) src)) as (r & d' & -> & Hl & _); [done|].
    exists r, d'. split; [done|]. split; [done|]. lia.
Qed.

Definition result_ok (r : RecvResult) : Prop :=
  match r with
  | RecvNull => True
  | RecvData d outLen index =>
      0 <= outLen <= Z.of_nat (length d) /\ -1 <= index < Z.of_nat MAX_CACHE_NUM_PER_CONN
  end.

(** What [GetTransHeader] lets through. *)
Definition header_ok (h : BleTransHeader) (body : Z) : Prop :=
  h_size h = body /\ 0 <= h_offset h <= INT32_MAX /\ i32 (h_size h + h_offset h) <= h_total h <= MAX_DATA_LEN.

Lemma get_header_ok value :
  (HEADER_LEN <= length value)%nat -> Z.of_nat (length value) <= INT32_MAX ->
  exists ret h, GetTransHeader value (i32 (Z.of_nat (length value))) = Some (ret, h) /\
    (ret = SOFTBUS_OK -> header_ok h (Z.of_nat (length value) - Z.of_nat HEADER_LEN)).
Proof.
  intros Hl Hi. unfold GetTransHeader. rewrite (proj2 (Nat.ltb_ge _ _)) by lia.
  set (h := mkHeader _ _ _ _). unfold HEADER_LEN in *.
  rewrite (i32_small (Z.of_nat (length value))), (i32_small (_ - _)) by lia.
  destruct (_ || _) eqn:E; eexists _, h; (split; [done|]); [done|]. intros _.
  apply orb_false_iff in E as [E E4]. apply orb_false_iff in E as [E E3].
  apply orb_false_iff in E as [E1 E2]. unfold header_ok.
  assert (h_offset h <= INT32_MAX) by (unfold h, field; apply i32_range).
  rewrite Z.gtb_ltb in E4. apply negb_false_iff, Z.eqb_eq in E1.
  apply Z.ltb_ge in E2, E3, E4. lia.
Qed.

Lemma recv_copy_safe rc i h value c b :
  length rc = MAX_CACHE_NUM_PER_CONN -> Forall cache_ok rc -> rc !! i = Some c -> cache c = Some b ->
  header_ok h (Z.of_nat (length value) - Z.of_nat HEADER_LEN) ->
  (HEADER_LEN <= length value)%nat -> Z.of_nat (length value) <= INT32_MAX ->
  exists rc' r, recv_copy rc i h value = Some (rc', r) /\
    length rc' = MAX_CACHE_NUM_PER_CONN /\ Forall cache_ok rc' /\ result_ok r.
Proof.
  intros Hlen Hok Hi Hb (Hs & Ho & Ht) Hv Hm. unfold recv_copy. rewrite Hi, Hb.
  assert (length b = Z.to_nat MAX_DATA_LEN) as Lb.
  { pose proof (Forall_lookup_1 _ _ _ _ Hok Hi) as H. unfold cache_ok in H. by rewrite Hb in H. }
  assert (i < 3)%nat by (apply lookup_lt_Some in Hi; by rewrite Hlen in Hi).
  unfold MAX_DATA_LEN, HEADER_LEN in *.
  destruct (memcpy_count_safe b (Z.to_nat (h_offset h)) (4096 - h_offset h) (drop 16 value) (h_size h))
    as (r & b' & -> & Lb' & Hr); try (rewrite ?length_drop; lia).
  destruct r; eexists _, _; (split; [done|]); rewrite length_insert.
  - destruct Hr as [Hr0 Hr]; [done|]. rewrite i32_small in Ht by lia.
    split; [done|]. split.
    { apply Forall_insert; [done|]. unfold cache_ok. simpl. unfold MAX_DATA_LEN. lia. }
    destruct (_ =? _) eqn:E; [|done]. simpl. rewrite u32_small by lia.
    unfold MAX_CACHE_NUM_PER_CONN. lia.
  - split; [done|]. split; [|done]. apply Forall_insert; [done|]. unfold cache_ok. simpl.
    unfold MAX_DATA_LEN. lia.
Qed.

(** Where the buffer search ends: a used slot of the sequence, or past the
    slots with the first free one, if any. *)
Lemma find_cache_spec seq rc i av : -1 <= av < i -> 0 <= i ->
  let (r, av') := find_cache seq rc i av in
  (exists k c, r = i + Z.of_nat k /\ rc !! k = Some c /\ isUsed c <> 0 /\ rc_seq c = seq) \/
  (r = i + Z.of_nat (length rc) /\ Forall (fun c => isUsed c <> 0 -> rc_seq c <> seq) rc /\
   if av =? -1
   then (av' = -1 /\ Forall (fun c => isUsed c <> 0) rc) \/
        exists k c, av' = i + Z.of_nat k /\ rc !! k = Some c /\ isUsed c = 0
   else av' = av).
Proof.
  revert i av. induction rc as [|x rc IH]; intros i av Ha Hi; cbn [find_cache length].
  { right. split; [lia|]. split; [done|]. destruct (av =? -1) eqn:E; [left; split; [lia|done]|done]. }
  destruct (isUsed x =? 0) eqn:E0; [|destruct (rc_seq x =? seq) eqn:E1].
  - specialize (IH (i + 1) (if av >? -1 then av else i)).
    destruct (find_cache _ _ _ _) as [r av'].
    destruct IH as [(k & c & -> & Hk)|(-> & Hf & Hav)]; [destruct (av >? -1) eqn:?; lia|lia|..].
    { left. exists (S k), c. split; [lia|]. done. }
    right. split; [lia|]. split; [constructor; [lia|done]|].
    destruct (av =? -1) eqn:E; destruct (av >? -1) eqn:E'; try lia.
    + right. exists 0%nat, x. destruct (i =? -1) eqn:E2; [lia|]. split; [lia|]. split; [done|lia].
    + by rewrite E in Hav.
  - left. exists 0%nat, x. split; [lia|]. split; [done|]. lia.
  - specialize (IH (i + 1) av). destruct (find_cache _ _ _ _) as [r av'].
    destruct IH as [(k & c & -> & Hk)|(-> & Hf & Hav)]; [lia|lia|..].
    { left. exists (S k), c. split; [lia|]. done. }
    right. split; [lia|]. split; [constructor; [lia|done]|].
    destruct (av =? -1); [|done]. destruct Hav as [[-> Hu]|(k & c & -> & Hk)].
    + left. split; [done|]. constructor; [lia|done].
    + right. exists (S k), c. split; [lia|]. done.
Qed.

Lemma recv_part_safe alloc rc h value :
  length rc = MAX_CACHE_NUM_PER_CONN -> Forall cache_ok rc ->
  header_ok h (Z.of_nat (length value) - Z.of_nat HEADER_LEN) ->
  (HEADER_LEN <= length value)%nat -> Z.of_nat (length value) <= INT32_MAX ->
  exists rc' r, recv_part alloc rc h value = Some (rc', r) /\
    length rc' = MAX_CACHE_NUM_PER_CONN /\ Forall cache_ok rc' /\ result_ok r.
Proof.
  intros Hlen Hok Hh Hv Hm. unfold recv_part.
  pose proof (find_cache_spec (h_seq h) rc 0 (-1)) as Hf. destruct (find_cache _ _ _ _) as [i av].
  rewrite Hlen in Hf. destruct Hf as [(k & c & -> & Hk & Hu & _)|(-> & _ & Hav)]; [lia|lia|..].
  - pose proof (lookup_lt_Some _ _ _ Hk). rewrite Hlen in *.
    replace (0 + Z.of_nat k =? _) with false by bool_lia. simpl andb. cbv iota.
    replace (Z.to_nat (0 + Z.of_nat k)) with k by lia.
    pose proof (Forall_lookup_1 _ _ _ _ Hok Hk) as Hc. unfold cache_ok in Hc.
    destruct (cache c) as [b|] eqn:Eb; [|done]. by apply recv_copy_safe with (c := c) (b := b).
  - rewrite Z.add_0_l, Z.eqb_refl. simpl andb.
    destruct Hav as [[-> _]|(k & c & -> & Hk & Hu)]; [by exists rc, RecvNull|].
    replace (0 + Z.of_nat k =? -1) with false by bool_lia.
    replace (Z.to_nat (0 + Z.of_nat k)) with k by lia. cbv iota. rewrite Hk.
    pose proof (Forall_lookup_1 _ _ _ _ Hok Hk) as Hc. unfold cache_ok in Hc.
    assert (forall b, length b = Z.to_nat MAX_DATA_LEN -> exists rc' r,
      recv_copy (<[k := mkCache 1 (timeStamp c) (h_seq h) 0 (Some b)]> rc) k h value = Some (rc', r) /\
      length rc' = MAX_CACHE_NUM_PER_CONN /\ Forall cache_ok rc' /\ result_ok r) as Hgo.
    { intros b Hb. eapply recv_copy_safe; try done.
      - by rewrite length_insert.
      - by apply Forall_insert.
      - apply list_lookup_insert_eq. by eapply lookup_lt_Some.
      - done. }
    destruct (cache c) as [b|]; [by apply Hgo|]. destruct alloc; [by apply Hgo|].
    eexists _, _. split; [done|]. rewrite length_insert. split; [done|].
    split; [by apply Forall_insert|done].
Qed.

Lemma cache_free_ok lock conns id index : Forall conn_ok conns ->
  0 <= index < Z.of_nat MAX_CACHE_NUM_PER_CONN ->
  exists conns', BleTransCacheFree lock conns id index = Some conns' /\ Forall conn_ok conns'.
Proof.
  intros Hok Hi. unfold BleTransCacheFree.
  destruct (GetBleConnInfoByHalConnId _ _ _) as [k|] eqn:Ek; [|eauto].
  destruct (hal_lookup _ _ _ _ Ek) as [c Hc]. rewrite Hc.
  pose proof (Forall_lookup_1 _ _ _ _ Hok Hc) as [Hl Ho].
  destruct (lookup_lt_is_Some_2 (recvCache c) (Z.to_nat index)) as [s Hs]; [rewrite Hl; lia|].
  rewrite Hs. replace (index <? 0) with false by lia. eexists. split; [done|].
  apply Forall_insert; [done|]. split; simpl; [by rewrite length_insert|by apply Forall_insert].
Qed.


(** ** Sending: the fragments of a packet *)

(** The fragments [(offset, size)] of the [rest] bytes from [off], at most
    [m] bytes each. *)
Fixpoint fragments (fuel m off rest : nat) : list (nat * nat) :=
  match fuel with
  | O => []
  | S fuel' =>
      if (rest =? 0)%nat then []
      else let n := Nat.min m rest in (off, n) :: fragments fuel' m (off + n) (rest - n)
  end.

(** The notification value that carries a fragment. *)
Definition packet (data : list byte) (seq : Z) (f : nat * nat) : list byte :=
  header_bytes (mkHeader seq (Z.of_nat f.2) (Z.of_nat f.1) (Z.of_nat (length data))) ++
    slice f.1 f.2 data.

Lemma length_header_bytes h : length (header_bytes h) = HEADER_LEN.
Proof. unfold header_bytes. by rewrite !length_app, !length_be_bytes. Qed.

Lemma length_packet data seq f : (f.1 + f.2 <= length data)%nat ->
  length (packet data seq f) = (HEADER_LEN + f.2)%nat.
Proof.
  intros H. unfold packet. rewrite length_app, length_header_bytes. unfold slice.
  rewrite length_take, length_drop. lia.
Qed.

Lemma sum_sizes_cons (f : nat * nat) l : sum_list (f :: l).*2 = (f.2 + sum_list l.*2)%nat.
Proof. done. Qed.

(** Every fragment is inside the packet and not longer than [m], the sizes add
    up, and every byte is in a fragment. *)
Lemma fragments_spec fuel m off rest : (0 < m)%nat -> (rest <= fuel)%nat ->
  Forall (fun f => (0 < f.2 <= m)%nat /\ (off <= f.1)%nat /\ (f.1 + f.2 <= off + rest)%nat)
    (fragments fuel m off rest) /\
  sum_list (snd <$> fragments fuel m off rest) = rest /\
  (forall j, (off <= j < off + rest)%nat ->
     exists f, f ∈ fragments fuel m off rest /\ (f.1 <= j < f.1 + f.2)%nat).
Proof.
  intros Hm. revert off rest. induction fuel as [|fuel IH]; intros off rest Hr.
  { simpl. split; [done|]. split; [lia|]. lia. }
  cbn [fragments]. destruct (Nat.eqb_spec rest 0) as [->|Hn].
  { split; [done|]. split; [done|]. lia. }
  set (n := Nat.min m rest). destruct (IH (off + n)%nat (rest - n)%nat) as (Hf & Hs & Hc); [lia|].
  split.
  { constructor; [simpl; lia|]. eapply Forall_impl; [exact Hf|]. simpl. lia. }
  rewrite fmap_cons. cbn [sum_list snd]. rewrite Hs. split; [simpl; lia|]. intros j Hj.
  destruct (decide (j < off + n)%nat).
  - exists (off, n). split; [left|]. simpl. lia.
  - destruct (Hc j) as (f & Hin & Hb); [lia|]. exists f. split; [by right|done].
Qed.

Section send.
Context (g : SoftBusGattService) (hal : SoftBusGattsNotify -> Z) (alloc : Z -> bool).
Context (c : BleConnectionInfo) (data : list byte) (seq module : Z).
Hypothesis alloc_ok : forall o, alloc o = true.
Hypothesis hal_ok : forall n, hal n = SOFTBUS_OK.
Hypothesis server : isServer c = 1.
Hypothesis data_small : Z.of_nat (length data) <= INT32_MAX - Z.of_nat HEADER_LEN.

Definition notify_of (f : nat * nat) : SoftBusGattsNotify :=
  mkNotify (halConnId c) (GetBleAttrHandle g module) 0 (Z.of_nat (HEADER_LEN + f.2))
    (packet data seq f).

Lemma send_loop_ok fuel m off rest : (0 < m)%nat -> (rest <= fuel)%nat ->
  (off + rest = length data)%nat ->
  send_loop fuel g alloc hal c data (Z.of_nat (length data)) seq module (Z.of_nat m)
    (Z.of_nat rest) (Z.of_nat off) =
  Some (SOFTBUS_OK, notify_of <$> fragments fuel m off rest).
Proof.
  intros Hm. unfold HEADER_LEN in *. revert off rest.
  induction fuel as [|fuel IH]; intros off rest Hr Hl; cbn [send_loop fragments].
  { replace rest with 0%nat by lia. done. }
  destruct (Nat.eqb_spec rest 0) as [->|Hn]; [done|].
  replace (Z.of_nat rest >? 0) with true by (symmetry; rewrite Z.gtb_ltb; apply Z.ltb_lt; lia).
  simpl negb. cbv iota. rewrite alloc_ok. simpl negb. cbv iota zeta.
  set (n := Nat.min m rest).
  replace (if Z.of_nat rest >? Z.of_nat m then Z.of_nat m else Z.of_nat rest) with (Z.of_nat n)
    by (destruct (Z.of_nat rest >? Z.of_nat m) eqn:E; rewrite Z.gtb_ltb in E;
        [apply Z.ltb_lt in E|apply Z.ltb_ge in E]; lia).
  replace (Z.of_nat n <=? 0) with false by bool_lia.
  replace (Z.of_nat (length data) <? Z.of_nat off + Z.of_nat n) with false by bool_lia.
  unfold BleHalSend. rewrite server, Z.eqb_refl, hal_ok. simpl negb. cbv iota.
  rewrite !i32_small by (unfold HEADER_LEN; lia).
  replace (Z.of_nat rest - Z.of_nat n) with (Z.of_nat (rest - n)) by lia.
  replace (Z.of_nat off + Z.of_nat n) with (Z.of_nat (off + n)) by lia.
  rewrite IH by lia. rewrite fmap_cons. cbn [app]. do 3 f_equal. unfold notify_of, packet.
  rewrite !Nat2Z.id. cbn [fst snd]. f_equal. unfold HEADER_LEN. lia.
Qed.

Lemma send_ok : MTU_HEADER_SIZE + Z.of_nat HEADER_LEN < mtu c <= INT32_MAX ->
  BleTransSend g alloc hal c data (Z.of_nat (length data)) seq module =
  Some (SOFTBUS_OK, notify_of <$>
    fragments (S (length data)) (Z.to_nat (mtu c - 19)) 0 (length data)).
Proof.
  intros Hm. unfold MTU_HEADER_SIZE, HEADER_LEN in *. unfold BleTransSend. rewrite Nat2Z.id.
  rewrite i32_small by (unfold MTU_HEADER_SIZE, HEADER_LEN; lia).
  replace (mtu c - MTU_HEADER_SIZE - Z.of_nat HEADER_LEN) with (Z.of_nat (Z.to_nat (mtu c - 19)))
    by (unfold MTU_HEADER_SIZE, HEADER_LEN; lia).
  apply (send_loop_ok (S (length data)) (Z.to_nat (mtu c - 19)) 0 (length data)); lia.
Qed.
End send.

(** ** Reassembly *)

Lemma lookup_splice {A} off (xs l : list A) j : (off + length xs <= length l)%nat ->
  splice off xs l !! j =
  if decide (off <= j < off + length xs)%nat then xs !! (j - off)%nat else l !! j.
Proof.
  intros Hl. unfold splice. case_decide as E.
  - rewrite lookup_app_r by (rewrite length_take; lia). rewrite length_take, Nat.min_l by lia.
    by rewrite lookup_app_l by lia.
  - destruct (decide (j < off)%nat).
    + rewrite lookup_app_l by (rewrite length_take; lia). by rewrite lookup_take_lt by lia.
    + rewrite lookup_app_r by (rewrite length_take; lia). rewrite length_take, Nat.min_l by lia.
      rewrite lookup_app_r by lia. rewrite lookup_drop. f_equal. lia.
Qed.

Lemma lookup_slice {A} off n (l : list A) j : (j < n)%nat -> slice off n l !! j = l !! (off + j)%nat.
Proof. intros H. unfold slice. rewrite lookup_take_lt by lia. by rewrite lookup_drop. Qed.

Lemma field_mid a z r off : off = length a -> INT32_MIN <= z <= INT32_MAX ->
  field off (a ++ be_bytes 4 z ++ r) = z.
Proof.
  intros Ha Hz. unfold field. rewrite slice_mid by (done || by rewrite length_be_bytes).
  rewrite i32_be_val_bytes. by apply i32_small.
Qed.

Section recv.
Context (data : list byte) (seq : Z).
Hypothesis seq_ok : INT32_MIN <= seq <= INT32_MAX.
Hypothesis data_len : Z.of_nat (length data) <= MAX_DATA_LEN.

Definition frag_ok (f : nat * nat) : Prop := (0 < f.2)%nat /\ (f.1 + f.2 <= length data)%nat.
Definition frag_header (f : nat * nat) : BleTransHeader :=
  mkHeader seq (Z.of_nat f.2) (Z.of_nat f.1) (Z.of_nat (length data)).

Lemma parse_packet f : frag_ok f ->
  GetTransHeader (packet data seq f) (i32 (Z.of_nat (length (packet data seq f)))) =
  Some (SOFTBUS_OK, frag_header f).
Proof.
  intros [Hf0 Hf]. unfold GetTransHeader. rewrite (length_packet data seq f Hf).
  unfold MAX_DATA_LEN, HEADER_LEN in *. rewrite (proj2 (Nat.ltb_ge _ _)) by lia.
  assert (mkHeader (field 0 (packet data seq f)) (field 4 (packet data seq f))
    (field 8 (packet data seq f)) (field 12 (packet data seq f)) = frag_header f) as ->.
  { unfold packet, header_bytes, frag_header. cbn [h_seq h_size h_offset h_total].
    rewrite <- !app_assoc. f_equal.
    - apply (field_mid []); [done|lia].
    - apply field_mid; [by rewrite length_be_bytes|lia].
    - rewrite app_assoc. apply field_mid; [by rewrite length_app, !length_be_bytes|lia].
    - rewrite app_assoc, app_assoc.
      apply field_mid; [by rewrite !length_app, !length_be_bytes|lia]. }
  cbv zeta. cbn [frag_header h_seq h_size h_offset h_total].
  rewrite (i32_small (Z.of_nat (16 + f.2))), (i32_small (Z.of_nat f.2 + Z.of_nat f.1)) by lia.
  rewrite (i32_small (Z.of_nat (16 + f.2) - Z.of_nat 16)) by lia.
  replace (Z.of_nat f.2 =? _) with true by bool_lia.
  replace (Z.of_nat (length data) <? _) with false by bool_lia.
  replace (Z.of_nat f.1 <? 0) with false by bool_lia.
  by replace (Z.of_nat (length data) >? 4096) with false by bool_lia.
Qed.

(** The bytes of the fragments [fs] are in place. *)
Definition in_place (buf : list byte) (fs : list (nat * nat)) : Prop :=
  Forall (fun f => forall j, (f.1 <= j < f.1 + f.2)%nat -> buf !! j = data !! j) fs.

Lemma splice_in_place buf fs f : length buf = Z.to_nat MAX_DATA_LEN -> frag_ok f ->
  in_place buf fs -> in_place (splice f.1 (slice f.1 f.2 data) buf) (f :: fs).
Proof.
  intros Hb [Hf0 Hf] Hp. unfold MAX_DATA_LEN in *.
  assert (length (slice f.1 f.2 data) = f.2) as Hs
    by (unfold slice; rewrite length_take, length_drop; lia).
  assert (forall j, (f.1 <= j < f.1 + f.2)%nat ->
    splice f.1 (slice f.1 f.2 data) buf !! j = data !! j) as Hin.
  { intros j Hj. rewrite lookup_splice, decide_True by (rewrite Hs; lia).
    rewrite lookup_slice by lia. f_equal. lia. }
  constructor; [done|]. eapply Forall_impl; [exact Hp|]. intros f' Hf' j Hj. cbv beta in *.
  destruct (decide (f.1 <= j < f.1 + f.2)%nat); [by apply Hin|].
  rewrite lookup_splice, decide_False by (rewrite Hs; lia). by apply Hf'.
Qed.

(** A fragment received into its buffer. *)
Lemma recv_copy_frag rc i ts sq cur buf f : rc !! i = Some (mkCache 1 ts sq cur (Some buf)) ->
  length buf = Z.to_nat MAX_DATA_LEN -> frag_ok f -> 0 <= cur <= MAX_DATA_LEN ->
  recv_copy rc i (frag_header f) (packet data seq f) =
  let buf' := splice f.1 (slice f.1 f.2 data) buf in
  let cur' := cur + Z.of_nat f.2 in
  Some (<[i := mkCache 1 ts sq cur' (Some buf')]> rc,
        if cur' =? Z.of_nat (length data)
        then RecvData buf' (Z.of_nat (length data)) (Z.of_nat i) else RecvNull).
Proof.
  intros Hi Hb [Hf0 Hf] Hc. unfold recv_copy. rewrite Hi. cbn [cache frag_header h_size h_offset h_total].
  unfold MAX_DATA_LEN in *. unfold memcpy_count.
  replace (4096 - Z.of_nat f.1 <=? 0) with false by bool_lia.
  rewrite (wrap_small 64) by lia.
  replace (Z.of_nat f.2 >? 4096 - Z.of_nat f.1) with false by bool_lia.
  unfold packet. rewrite drop_app_length' by (by rewrite length_header_bytes). rewrite !Nat2Z.id.
  assert (length (slice f.1 f.2 data) = f.2) as Hs
    by (unfold slice; rewrite length_take, length_drop; lia).
  rewrite (proj2 (Nat.ltb_ge _ _)) by lia. rewrite take_ge by lia.
  rewrite memcpy_s_ok by lia. cbn [isUsed timeStamp rc_seq currentSize].
  rewrite i32_small, u32_small by lia. done.
Qed.

(** The reassembly of this packet in slot [k] of [rc]. *)
Definition slot (rc : list BleRecvCache) (k : nat) (ts cur : Z) (buf : list byte) : list BleRecvCache :=
  <[k := mkCache 1 ts seq cur (Some buf)]> rc.

(** No reassembly in progress has this sequence. *)
Definition fresh (rc : list BleRecvCache) : Prop :=
  Forall (fun s => isUsed s <> 0 -> rc_seq s <> seq) rc.

Lemma recv_part_next rc k ts cur buf f :
  length rc = MAX_CACHE_NUM_PER_CONN -> (k < length rc)%nat -> fresh rc ->
  recv_part true (slot rc k ts cur buf) (frag_header f) (packet data seq f) =
  recv_copy (slot rc k ts cur buf) k (frag_header f) (packet data seq f).
Proof.
  intros Hlen Hk Hfr. unfold recv_part. cbn [frag_header h_seq].
  pose proof (find_cache_spec seq (slot rc k ts cur buf) 0 (-1)) as Hf.
  destruct (find_cache _ _ _ _) as [i av].
  destruct Hf as [(k' & s & -> & Hk' & Hu & Hs)|(_ & Hno & _)]; [lia|lia|..].
  - assert (k' = k) as ->.
    { destruct (decide (k = k')) as [|Hne]; [done|]. exfalso.
      unfold slot in Hk'. rewrite list_lookup_insert_ne in Hk' by done.
      pose proof (Forall_lookup_1 _ _ _ _ Hfr Hk') as H. by apply H. }
    rewrite Hlen in Hk. replace (0 + Z.of_nat k =? _) with false by bool_lia.
    cbn [andb]. by replace (Z.to_nat (0 + Z.of_nat k)) with k by lia.
  - exfalso. eapply (Forall_lookup_1 _ _ k) in Hno; [|by apply list_lookup_insert_eq].
    simpl in Hno. by apply Hno.
Qed.

(** The first fragment takes a free slot. *)
Lemma recv_part_first rc : length rc = MAX_CACHE_NUM_PER_CONN -> Forall cache_ok rc -> fresh rc ->
  Exists (fun s => isUsed s = 0) rc ->
  exists k s buf, rc !! k = Some s /\ isUsed s = 0 /\ length buf = Z.to_nat MAX_DATA_LEN /\
    forall f, recv_part true rc (frag_header f) (packet data seq f) =
              recv_part true (slot rc k (timeStamp s) 0 buf) (frag_header f) (packet data seq f).
Proof.
  intros Hlen Hok Hfr Hex.
  pose proof (find_cache_spec seq rc 0 (-1)) as Hf. destruct (find_cache _ _ _ _) as [i av] eqn:Ef.
  rewrite Hlen in Hf.
  destruct Hf as [(k' & s & -> & Hk' & Hu & Hs)|(-> & _ & Hav)]; [lia|lia|..].
  { pose proof (Forall_lookup_1 _ _ _ _ Hfr Hk') as H. by apply H in Hu. }
  destruct Hav as [[_ Hall]|(k & s & -> & Hk & Hu)].
  { exfalso. apply Exists_exists in Hex as (s & Hs & Hz). rewrite Forall_forall in Hall. by apply (Hall s). }
  pose proof (Forall_lookup_1 _ _ _ _ Hok Hk) as Hc. unfold cache_ok in Hc.
  pose proof (lookup_lt_Some _ _ _ Hk) as Hlt.
  exists k, s, (match cache s with Some b => b | None => zeros (Z.to_nat MAX_DATA_LEN) end).
  split; [done|]. split; [done|]. split.
  { destruct (cache s); [done|]. unfold zeros. apply length_replicate. }
  intros f. rewrite recv_part_next by done. unfold recv_part. cbn [frag_header h_seq]. rewrite Ef.
  rewrite Z.add_0_l, Z.eqb_refl. replace (0 + Z.of_nat k =? -1) with false by bool_lia.
  cbn [andb]. replace (Z.to_nat (0 + Z.of_nat k)) with k by lia. rewrite Hk.
  by destruct (cache s).
Qed.
End recv.

(** The packets [ps] received one after the other: the results of the calls. *)
Fixpoint recv_all (lock alloc : bool) (conns : list BleConnectionInfo) (id : Z) (ps : list (list byte))
    : option (list BleConnectionInfo * list RecvResult) :=
  match ps with
  | [] => Some (conns, [])
  | p :: ps' =>
      match BleTransRecv lock alloc conns id (Some p) (Z.of_nat (length p)) with
      | None => None
      | Some (conns', r) =>
          match recv_all lock alloc conns' id ps' with
          | None => None
          | Some (conns'', rs) => Some (conns'', r :: rs)
          end
      end
  end.

Section reassemble.
Context (data : list byte) (seq : Z) (conns : list BleConnectionInfo) (id : Z).
Context (n : nat) (c : BleConnectionInfo).
Hypothesis seq_ok : INT32_MIN <= seq <= INT32_MAX.
Hypothesis data_len : Z.of_nat (length data) <= MAX_DATA_LEN.
Hypothesis target : GetBleConnInfoByHalConnId true conns id = Some n.
Hypothesis target_c : conns !! n = Some c.
Hypothesis c_ok : conn_ok c.
Hypothesis c_fresh : fresh seq (recvCache c).

Definition with_rc (rc : list BleRecvCache) : list BleConnectionInfo :=
  <[n := set_recvCache c rc]> conns.

Lemma recv_step rc f : frag_ok data f -> (f.2 < length data)%nat ->
  BleTransRecv true true (with_rc rc) id (Some (packet data seq f))
    (Z.of_nat (length (packet data seq f))) =
  match recv_part true rc (frag_header data seq f) (packet data seq f) with
  | None => None
  | Some (rc', r) => Some (with_rc rc', r)
  end.
Proof.
  intros Hf Hlt. unfold BleTransRecv, with_rc. rewrite (hal_insert _ _ _ n c) by done. rewrite target.
  rewrite list_lookup_insert_eq by (by eapply lookup_lt_Some).
  rewrite parse_packet by done. cbn [frag_header h_size h_total recvCache set_recvCache].
  replace (Z.of_nat f.2 =? _) with false by bool_lia. simpl negb. cbv iota.
  destruct (recv_part _ _ _ _) as [[rc' r]|]; [|done]. by rewrite list_insert_insert_eq.
Qed.

(** The remaining fragments [todo], in any order, complete the packet. *)
Lemma recv_rest k ts todo : (k < MAX_CACHE_NUM_PER_CONN)%nat -> forall dn cur buf, todo <> [] ->
  Forall (fun f => frag_ok data f /\ (f.2 < length data)%nat) todo ->
  0 <= cur -> cur + Z.of_nat (sum_list (snd <$> todo)) = Z.of_nat (length data) ->
  in_place data buf dn -> length buf = Z.to_nat MAX_DATA_LEN ->
  exists buf', recv_all true true (with_rc (slot seq (recvCache c) k ts cur buf)) id
      (packet data seq <$> todo) =
    Some (with_rc (slot seq (recvCache c) k ts (Z.of_nat (length data)) buf'),
          replicate (length todo - 1) RecvNull ++
            [RecvData buf' (Z.of_nat (length data)) (Z.of_nat k)]) /\
    in_place data buf' (todo ++ dn) /\ length buf' = Z.to_nat MAX_DATA_LEN.
Proof.
  intros Hk. destruct c_ok as [Hlen _]. induction todo as [|f todo IH]; intros dn cur buf Hne Hf Hc Hsum Hp Hb; [done|].
  inversion Hf as [|? ? [Hfo Hlt] Hrest]; subst. rewrite fmap_cons. cbn [recv_all].
  rewrite sum_sizes_cons in Hsum.
  pose proof Hfo as [Hf0 Hfl].
  rewrite recv_step by done. rewrite recv_part_next by (done || lia).
  assert (slot seq (recvCache c) k ts cur buf !! k = Some (mkCache 1 ts seq cur (Some buf))) as Hs
    by (apply list_lookup_insert_eq; lia).
  rewrite (recv_copy_frag data seq data_len _ _ _ _ _ _ _ Hs) by (done || lia). cbv zeta.
  unfold slot at 1. rewrite list_insert_insert_eq. fold (slot seq (recvCache c) k ts).
  set (buf1 := splice _ _ _).
  assert (in_place data buf1 (f :: dn)) as Hp1 by (by apply splice_in_place).
  assert (length buf1 = Z.to_nat MAX_DATA_LEN) as Hb1.
  { unfold buf1. rewrite length_splice; [done|]. unfold slice. rewrite length_take, length_drop.
    unfold MAX_DATA_LEN in *. lia. }
  destruct todo as [|f' todo'].
  - cbn [fmap list_fmap sum_list] in Hsum.
    replace (_ =? _) with true by bool_lia. exists buf1. simpl recv_all.
    simpl replicate. replace (cur + Z.of_nat f.2) with (Z.of_nat (length data)) by lia.
    split; [done|]. by split.
  - destruct (IH (f :: dn) (cur + Z.of_nat f.2) buf1) as (buf' & E & Hp' & Hb'); try done; [lia|lia|].
    inversion Hrest as [|? ? [[Hf0' _] _] _]; subst.
    replace (_ =? _) with false by (rewrite sum_sizes_cons in Hsum; bool_lia).
    unfold slot in E |- *. rewrite E. exists buf'.
    replace (length (f :: f' :: todo') - 1)%nat with (S (length (f' :: todo') - 1)) by (simpl; lia).
    split; [done|]. split; [|done]. unfold in_place in Hp' |- *.
    by rewrite <- (Permutation_middle (f' :: todo') dn f) in Hp'.
Qed.
End reassemble.

(** The reassemblies in progress on each connection. *)
Definition in_progress (conns : list BleConnectionInfo) : list (list BleRecvCache) :=
  (fun c => filter (fun s => isUsed s <> 0) (recvCache c)) <$> conns.

Lemma filter_insert_unused (rc : list BleRecvCache) k s s' : rc !! k = Some s -> isUsed s = 0 ->
  isUsed s' = 0 -> filter (fun s => isUsed s <> 0) (<[k := s']> rc) = filter (fun s => isUsed s <> 0) rc.
Proof.
  intros Hk H H'. rewrite (insert_take_drop rc k s') by (by eapply lookup_lt_Some).
  rewrite <- (take_drop_middle rc k s Hk) at 3. rewrite !filter_app.
  rewrite !filter_cons_False by (rewrite ?H, ?H'; auto). done.
Qed.

Lemma in_place_all data buf fs : in_place data buf fs -> (length data <= length buf)%nat ->
  (forall j, (j < length data)%nat -> exists f, f ∈ fs /\ (f.1 <= j < f.1 + f.2)%nat) ->
  take (length data) buf = data.
Proof.
  intros Hp Hl Hc. apply list_eq. intros j. destruct (decide (j < length data)%nat) as [Hj|Hj].
  - rewrite lookup_take_lt by done. destruct (Hc j Hj) as (f & Hin & Hb).
    unfold in_place in Hp. rewrite Forall_forall in Hp. by apply (Hp f).
  - rewrite (lookup_ge_None_2 data) by lia. apply lookup_ge_None_2. rewrite length_take. lia.
Qed.

(** The free of the buffer of a completed packet. *)
Lemma free_slot conns id n c seq k s ts cur buf :
  GetBleConnInfoByHalConnId true conns id = Some n -> conns !! n = Some c ->
  recvCache c !! k = Some s -> isUsed s = 0 ->
  exists conns', BleTransCacheFree true (with_rc conns n c (slot seq (recvCache c) k ts cur buf)) id
      (Z.of_nat k) = Some conns' /\ in_progress conns' = in_progress conns.
Proof.
  intros Ht Hc Hk Hu. unfold BleTransCacheFree, with_rc. rewrite (hal_insert _ _ _ n c), Ht by done.
  rewrite list_lookup_insert_eq by (by eapply lookup_lt_Some). cbn [recvCache set_recvCache].
  rewrite Nat2Z.id. unfold slot at 1. rewrite list_lookup_insert_eq by (by eapply lookup_lt_Some).
  replace (Z.of_nat k <? 0) with false by bool_lia. eexists. split; [done|].
  rewrite list_insert_insert_eq. unfold slot. rewrite list_insert_insert_eq.
  unfold in_progress. rewrite list_fmap_insert. cbn [recvCache set_recvCache].
  rewrite (filter_insert_unused _ _ s) by done. apply list_insert_id.
  by rewrite list_lookup_fmap, Hc.
Qed.

(** One fragment that is the whole packet is returned without a buffer. *)
Lemma recv_whole data seq conns id n rcv f : INT32_MIN <= seq <= INT32_MAX ->
  Z.of_nat (length data) <= MAX_DATA_LEN ->
  GetBleConnInfoByHalConnId true conns id = Some n -> conns !! n = Some rcv ->
  frag_ok data f -> f.2 = length data ->
  BleTransRecv true true conns id (Some (packet data seq f)) (Z.of_nat (length (packet data seq f))) =
  Some (conns, RecvData data (Z.of_nat (length data)) (-1)).
Proof.
  intros Hs Hd Ht Hr Hf E. unfold BleTransRecv. rewrite Ht, Hr, parse_packet by done.
  cbn [frag_header h_size h_total]. rewrite E, !Z.eqb_refl. simpl negb. cbv iota.
  unfold MAX_DATA_LEN in Hd. rewrite u32_small by lia. do 3 f_equal.
  unfold packet. rewrite drop_app_length' by (by rewrite length_header_bytes).
  destruct Hf as [_ Hf]. replace f.1 with 0%nat by lia. unfold slice. rewrite drop_0. apply take_ge. lia.
Qed.

(** The fragments of a packet, in the order [fs'], are put together. *)
Lemma reassemble_any_order data seq conns id n rcv m fs fs' :
  INT32_MIN <= seq <= INT32_MAX -> 0 < Z.of_nat (length data) <= MAX_DATA_LEN ->
  GetBleConnInfoByHalConnId true conns id = Some n -> conns !! n = Some rcv ->
  conn_ok rcv -> fresh seq (recvCache rcv) -> Exists (fun s => isUsed s = 0) (recvCache rcv) ->
  fs = fragments (S (length data)) m 0 (length data) -> fs ≡ₚ fs' ->
  (forall f, f ∈ fs -> (0 < f.2 <= m)%nat /\ (f.1 + f.2 <= length data)%nat) ->
  sum_list fs.*2 = length data ->
  (forall j, (j < length data)%nat -> exists f, f ∈ fs /\ (f.1 <= j < f.1 + f.2)%nat) ->
  exists conns' d index,
    recv_all true true conns id (packet data seq <$> fs') =
      Some (conns', replicate (length (packet data seq <$> fs') - 1) RecvNull ++
              [RecvData d (Z.of_nat (length data)) index]) /\
    take (length data) d = data /\
    if index =? -1 then conns' = conns
    else exists conns'', BleTransCacheFree true conns' id index = Some conns'' /\
           in_progress conns'' = in_progress conns.
Proof.
  intros Hs [Hd0 Hd] Ht Hr Hok Hfr Hfree Efs Hp Hf Hsum Hcov.
  destruct (decide (length data <= m)%nat) as [Hle|Hgt].
  - assert (fs = [(0, length data)%nat]) as E.
    { rewrite Efs. cbn [fragments]. rewrite (proj2 (Nat.eqb_neq _ _)) by lia.
      rewrite Nat.min_r by lia. rewrite Nat.sub_diag. by destruct (length data). }
    rewrite E in Hp. symmetry in Hp. apply Permutation_singleton_r in Hp as ->.
    exists conns, data, (-1). cbn [recv_all fmap list_fmap].
    rewrite (recv_whole data seq conns id n rcv) by (done || (unfold frag_ok; simpl; lia)).
    split; [done|]. split; [by apply take_ge|done].
  - destruct Hok as [Hlen Hcs].
    destruct (recv_part_first data seq (recvCache rcv)) as (k & s & b & Hk & Hu & Hb & Efirst);
      [done..|].
    assert (Forall (fun f => frag_ok data f /\ (f.2 < length data)%nat) fs') as Hfs'.
    { rewrite <- Hp. apply Forall_forall. intros f Hin. destruct (Hf f Hin). unfold frag_ok. lia. }
    assert (fs' <> []) as Hne.
    { intros ->. apply Permutation_nil_r in Hp. rewrite Hp in Hsum. simpl in Hsum. lia. }
    destruct (recv_rest data seq conns id n rcv Hs Hd Ht Hr (conj Hlen Hcs) Hfr k (timeStamp s) fs')
      with (dn := @nil (nat * nat)) (cur := 0) (buf := b) as (buf' & E & Hip & Hb'); try done.
    { apply lookup_lt_Some in Hk. by rewrite Hlen in Hk. }
    { rewrite <- Hp, Hsum. lia. }
    { constructor. }
    eexists _, buf', (Z.of_nat k). split.
    { rewrite length_fmap, <- E. destruct fs' as [|f fs']; [done|]. inversion Hfs' as [|? ? [Hfo Hlt] _]; subst.
      rewrite fmap_cons. cbn [recv_all]. rewrite (recv_step data seq conns id n rcv) by done.
      rewrite <- Efirst. rewrite <- (recv_step data seq conns id n rcv) by done.
      unfold with_rc. rewrite set_recvCache_id, list_insert_id by done. done. }
    split.
    { apply in_place_all with (fs := fs'); [by rewrite app_nil_r in Hip| |].
      - unfold MAX_DATA_LEN in *. lia.
      - intros j Hj. destruct (Hcov j Hj) as (f & Hin & Hj'). exists f. by rewrite <- Hp. }
    replace (Z.of_nat k =? -1) with false by bool_lia. by apply free_slot with (s := s).
Qed.

(** ** Properties *)


(** What the caller of [BleTransRecv] does with a result is safe: it reads
    [outLen] bytes of the data and frees the slot. *)
Definition usable (lock : bool) (conns : list BleConnectionInfo) (id : Z) (r : RecvResult) : Prop :=
  match r with
  | RecvNull => True
  | RecvData d outLen index =>
      0 <= outLen <= Z.of_nat (length d) /\
      (index <> -1 -> exists conns', BleTransCacheFree lock conns id index = Some conns' /\
                        Forall conn_ok conns')
  end.

Lemma usable_intro lock id conns r : Forall conn_ok conns -> result_ok r -> usable lock conns id r.
Proof.
  destruct r as [|d o i]; intros Hc Hr; [done|]. destruct Hr as [Ho Hx]. split; [done|].
  intros Hne. apply cache_free_ok; [done|lia].
Qed.

(** C30: BLE reception is memory-safe.  For every value of 16 bytes or more,
    whatever its header says, and whether or not the lock and the allocation
    succeed, [BleTransRecv] accesses no byte outside the value and the buffers,
    keeps the connections well-formed, and reports a length and a slot that are
    inside the data it returns and the slots; freeing that slot is then safe. *)
Theorem ble_recv_safe lock alloc conns id value : Forall conn_ok conns ->
  (HEADER_LEN <= length value)%nat -> Z.of_nat (length value) <= INT32_MAX ->
  exists conns' r,
    BleTransRecv lock alloc conns id (Some value) (Z.of_nat (length value)) = Some (conns', r) /\
    Forall conn_ok conns' /\
    usable lock conns' id r.
Proof.
  intros Hok Hl Hi.
  pose proof (usable_intro lock id) as Hres.
  unfold BleTransRecv.
  destruct (GetBleConnInfoByHalConnId _ _ _) as [k|] eqn:Ek; [|by exists conns, RecvNull].
  destruct (hal_lookup _ _ _ _ Ek) as [c Hc]. rewrite Hc.
  destruct (get_header_ok value) as (ret & h & -> & Hh); [done|done|].
  destruct (ret =? SOFTBUS_OK) eqn:E; simpl negb; cbv iota; [|by exists conns, RecvNull].
  apply Z.eqb_eq in E. specialize (Hh E). pose proof Hh as (Hs & Ho & Ht).
  destruct (h_size h =? h_total h) eqn:Es.
  - eexists _, _. split; [done|]. split; [done|]. apply Hres; [done|]. simpl.
    apply Z.eqb_eq in Es. rewrite <- Es, Hs, u32_small, length_drop by lia.
    unfold MAX_CACHE_NUM_PER_CONN. lia.
  - pose proof (Forall_lookup_1 _ _ _ _ Hok Hc) as [H1 H2].
    destruct (recv_part_safe alloc (recvCache c) h value) as (rc' & r & -> & H1' & H2' & Hr); [done..|].
    eexists _, _. split; [done|].
    assert (Forall conn_ok (<[k := set_recvCache c rc']> conns)) by (apply Forall_insert; done).
    auto.
Qed.

(** ** Deviations *)

(** The lookups return the last connection when none matches. *)
Lemma lookup_unknown_is_last conns id : Forall (fun c => halConnId c <> id) conns ->
  conns <> [] -> GetBleConnInfoByHalConnId true conns id = Some (length conns - 1)%nat.
Proof.
  intros Hall Hne. unfold GetBleConnInfoByHalConnId. cbn [negb].
  assert (forall l i it, Forall (fun c => halConnId c <> id) l ->
    cursor (fun c => halConnId c =? id) l i it =
    match l with [] => it | _ => Some (i + length l - 1)%nat end) as Hgo.
  { induction l as [|c l IH]; intros i it Hl; [done|]. inversion Hl; subst. cbn [cursor].
    replace (halConnId c =? id) with false by lia. rewrite IH by done.
    destruct l; f_equal; simpl; lia. }
  rewrite Hgo by done. by destruct conns.
Qed.

(** An id still in use is allocated again. *)
Lemma alloc_id_clash conns next c : next = 0 -> connId c = 196609 -> c ∈ conns ->
  (AllocBleConnectionIdLocked true next conns).1 = connId c.
Proof. by intros -> ->. Qed.

(** A fragment received twice counts twice: a packet of two 2-byte fragments
    is delivered after two copies of the first, its last bytes the buffer's. *)
Lemma duplicate_completes_packet :
  let conns := [mkConn 7 196609 1 BLE_CONNECTION_STATE_CONNECTED 1 21
                  (replicate MAX_CACHE_NUM_PER_CONN empty_cache)] in
  let data := [Byte.x61; Byte.x62; Byte.x63; Byte.x64] in
  let p := packet data 1 (0%nat, 2%nat) in
  exists conns' d, recv_all true true conns 7 [p; p] = Some (conns', [RecvNull; RecvData d 4 0]) /\
    take 4 d = [Byte.x61; Byte.x62; Byte.x00; Byte.x00].
Proof. eexists _, _. split; [vm_compute; reflexivity|reflexivity]. Qed.

(** ** Witnesses *)

Definition conn0 : BleConnectionInfo :=
  mkConn 7 196609 1 BLE_CONNECTION_STATE_CONNECTED 1 21 (replicate MAX_CACHE_NUM_PER_CONN empty_cache).
Definition data0 : list byte := [Byte.x61; Byte.x62; Byte.x63; Byte.x64; Byte.x65].

Lemma conn0_ok : conn_ok conn0.
Proof. split; [done|]. repeat constructor. Qed.


Lemma ble_recv_safe_witness :
  exists conns' r, BleTransRecv true true [conn0] 7 (Some (zeros 20)) 20 = Some (conns', r).
Proof.
  destruct (ble_recv_safe true true [conn0] 7 (zeros 20)) as (conns' & r & E & _).
  - constructor; [apply conn0_ok|constructor].
  - unfold HEADER_LEN. simpl. lia.
  - simpl. lia.
  - exists conns', r. exact E.
Defined.

End BleTrans.
