(* ===== verification/OpenChannelMsg.v ===== *)
(** * The messages that open a channel

    core/common/json_utils/softbus_json_utils.c and
    core/transmission/common/src/softbus_message_open_channel.c: the JSON texts
    of the request and the reply by which two devices agree on a session.

    cJSON and the base64 coding of mbedtls are not part of the repository:
    printing, parsing and the base64 functions are arguments.  A [json] is the
    list of the named items of an object, in order. *)

From Stdlib Require Import QArith.
From S2P Require Import Prelude.

#[local] Open Scope Z_scope.

Module OpenChannelMsg.

(** ** JSON objects *)

(** A number is a [double]; [valuestring] is a C string. *)
Inductive jvalue := JString (s : string) | JNumber (q : Q) | JBool (b : bool) | JOther.
Abbreviation json := (list (string * jvalue)).

(** [cJSON_GetObjectItemCaseSensitive]: the first item of that name. *)
Definition get_item (j : json) (k : string) : option jvalue :=
  snd <$> List.find (fun x => String.eqb (fst x) k) j.

(** Truncation to [int]; out of range, the hardware's indefinite value. *)
Definition double_to_int (q : Q) : Z :=
  let z := Z.quot (Qnum q) (Zpos (Qden q)) in
  if (INT32_MIN <=? z) && (z <=? INT32_MAX) then z else INT32_MIN.

Definition GetJsonObjectStringItem (j : json) (k : string) (targetLen : Z) : option string :=
  if targetLen <? 0 then None
  else
    match get_item j k with
    | Some (JString s) => if Z.of_nat (String.length s) >=? targetLen then None else Some s
    | _ => None
    end.

Definition GetJsonObjectNumberItem (j : json) (k : string) : option Z :=
  match get_item j k with
  | Some (JNumber q) => if Qnum q <? 0 then None else Some (double_to_int q)
  | _ => None
  end.

Definition GetJsonObjectDoubleItem (j : json) (k : string) : option Q :=
  match get_item j k with Some (JNumber q) => Some q | _ => None end.

Definition GetJsonObjectBoolItem (j : json) (k : string) : option bool :=
  match get_item j k with Some (JBool b) => Some b | _ => None end.

(** [mem]: the item could be allocated. *)
Definition AddStringToJsonObject (mem : string -> bool) (j : option json) (k v : string) : option json :=
  match j with
  | None => None
  | Some j => if mem k then Some (j ++ [(k, JString v)]) else None
  end.

Definition AddNumberToJsonObject (mem : string -> bool) (j : option json) (k : string) (num : Z)
    : option json :=
  match j with
  | None => None
  | Some j => if mem k then Some (j ++ [(k, JNumber (inject_Z num))]) else None
  end.

(** ** Application information (softbus_app_info.h) *)

Definition API_V1 : Z := 1.
Definition API_V2 : Z := 2.
Definition CODE_OPEN_CHANNEL : Z := 1.
Definition SESSION_KEY_LENGTH : Z := 32.
Definition BASE64KEY : Z := 45.
Definition SESSION_NAME_SIZE_MAX : Z := 256.
Definition GROUP_ID_SIZE_MAX : Z := 65.
Definition PKG_NAME_SIZE_MAX : Z := 65.
Definition AUTH_STATE_SIZE_MAX : Z := 65.
Definition DEVICE_ID_SIZE_MAX : Z := 65.

Record AppInfoData := mkData {
  apiVersion : Z; deviceId : string; pkgName : string; sessionName : string;
  uid : Z; pid : Z; authState : string; ip : string; port : Z }.

(** [AppInfo] without [reqId], the kinds of business and stream and the
    negotiation state of UDP channels, which this code does not use. *)
Record AppInfo := mkApp {
  groupId : string; sessionKey : list byte; routeType : Z; a_fd : Z;
  myData : AppInfoData; peerData : AppInfoData }.

(** ** The messages *)

Section messages.
(** [create]: the object could be allocated; [mem]: an item of that name
    could; [print] and the base64 functions are the libraries'. *)
Context (create : bool) (mem : string -> bool) (print : json -> option (list byte)).
Context (base64_encode : list byte -> option string) (base64_decode : string -> option (list byte)).

Abbreviation AddString := (AddStringToJsonObject mem).
Abbreviation AddNumber := (AddNumberToJsonObject mem).

Definition cJSON_CreateObject : option json := if create then Some [] else None.

Definition print_object (j : option json) : option (list byte) :=
  match j with None => None | Some j => print j end.

Definition error_object (errCode : Z) (errDesc : string) : option json :=
  let j := AddNumber cJSON_CreateObject "CODE" CODE_OPEN_CHANNEL in
  let j := AddNumber j "ERR_CODE" errCode in
  AddString j "ERR_DESC" errDesc.

Definition PackError (errCode : Z) (errDesc : string) : option (list byte) :=
  print_object (error_object errCode errDesc).

Definition request_object (a : AppInfo) (key : string) : option json :=
  let j := AddNumber cJSON_CreateObject "CODE" CODE_OPEN_CHANNEL in
  let j := AddNumber j "API_VERSION" (apiVersion (myData a)) in
  let j := AddString j "BUS_NAME" (sessionName (peerData a)) in
  let j := AddString j "GROUP_ID" (groupId a) in
  let j := AddNumber j "UID" (uid (myData a)) in
  let j := AddNumber j "PID" (pid (myData a)) in
  let j := AddString j "SESSION_KEY" key in
  if negb (apiVersion (myData a) =? API_V1) then
    let j := AddString j "PKG_NAME" (pkgName (myData a)) in
    let j := AddString j "CLIENT_BUS_NAME" (sessionName (myData a)) in
    AddString j "AUTH_STATE" (authState (myData a))
  else j.

Definition PackRequest (a : AppInfo) : option (list byte) :=
  if negb create then None
  else
    match base64_encode (sessionKey a) with
    | None => None
    | Some key => print_object (request_object a key)
    end.

Definition reply_object (a : AppInfo) : option json :=
  let j := AddNumber cJSON_CreateObject "CODE" CODE_OPEN_CHANNEL in
  let j := AddNumber j "API_VERSION" (apiVersion (myData a)) in
  let j := AddString j "DEVICE_ID" (deviceId (myData a)) in
  let j := AddNumber j "UID" (uid (myData a)) in
  let j := AddNumber j "PID" (pid (myData a)) in
  if negb (apiVersion (myData a) =? API_V1) then
    let j := AddString j "PKG_NAME" (pkgName (myData a)) in
    AddString j "AUTH_STATE" (authState (myData a))
  else j.

Definition PackReply (a : AppInfo) : option (list byte) := print_object (reply_object a).

(** A number that is absent or invalid keeps the value [d]. *)
Definition number_or (j : json) (k : string) (d : Z) : Z :=
  match GetJsonObjectNumberItem j k with Some z => z | None => d end.

(** [None]: an error; the caller then drops the information it passed. *)
Definition UnpackRequest (msg : json) (a : AppInfo) : option AppInfo :=
  let version := number_or msg "API_VERSION" API_V1 in
  match GetJsonObjectStringItem msg "BUS_NAME" SESSION_NAME_SIZE_MAX,
        GetJsonObjectStringItem msg "GROUP_ID" GROUP_ID_SIZE_MAX,
        GetJsonObjectStringItem msg "SESSION_KEY" BASE64KEY with
  | Some name, Some group, Some key64 =>
      let key := match base64_decode key64 with Some k => k | None => [] end in
      if negb (Z.of_nat (length key) =? SESSION_KEY_LENGTH) then None
      else
        let my := myData a in
        let my' := mkData (apiVersion my) (deviceId my) (pkgName my) name (uid my) (pid my)
                     (authState my) (ip my) (port my) in
        let p := peerData a in
        let u := number_or msg "UID" (-1) in
        let q := number_or msg "PID" (-1) in
        if version =? API_V1 then
          Some (mkApp group key (routeType a) (a_fd a) my'
                  (mkData version (deviceId p) (pkgName p) (sessionName p) u q (authState p)
                     (ip p) (port p)))
        else
          match GetJsonObjectStringItem msg "PKG_NAME" PKG_NAME_SIZE_MAX,
                GetJsonObjectStringItem msg "CLIENT_BUS_NAME" SESSION_NAME_SIZE_MAX,
                GetJsonObjectStringItem msg "AUTH_STATE" AUTH_STATE_SIZE_MAX with
          | Some pkg, Some client, Some auth =>
              Some (mkApp group key (routeType a) (a_fd a) my'
                      (mkData version (deviceId p) pkg client u q auth (ip p) (port p)))
          | _, _, _ => None
          end
  | _, _, _ => None
  end.

Definition UnpackReply (msg : json) (a : AppInfo) : option AppInfo :=
  match GetJsonObjectStringItem msg "DEVICE_ID" DEVICE_ID_SIZE_MAX with
  | None => None
  | Some dev =>
      let p := peerData a in
      if negb (String.eqb dev (deviceId p)) then None
      else
        let version := number_or msg "API_VERSION" API_V1 in
        let u := number_or msg "UID" (-1) in
        let q := number_or msg "PID" (-1) in
        let result pkg auth :=
          mkApp (groupId a) (sessionKey a) (routeType a) (a_fd a) (myData a)
            (mkData version (deviceId p) pkg (sessionName p) u q auth (ip p) (port p)) in
        if negb (version =? API_V1) then
          match GetJsonObjectStringItem msg "PKG_NAME" PKG_NAME_SIZE_MAX,
                GetJsonObjectStringItem msg "AUTH_STATE" AUTH_STATE_SIZE_MAX with
          | Some pkg, Some auth => Some (result pkg auth)
          | _, _ => None
          end
        else Some (result (pkgName p) (authState p))
  end.
End messages.

(** ** Lemmas *)

(** What the receiver of a number stores: negative numbers are refused. *)
Definition received (z : Z) : Z := if z <? 0 then -1 else z.

Definition fits (s : string) (n : Z) : Prop := Z.of_nat (String.length s) < n.

Lemma get_string_ok j k n s : get_item j k = Some (JString s) -> fits s n ->
  GetJsonObjectStringItem j k n = Some s.
Proof.
  intros E H. unfold GetJsonObjectStringItem, fits in *. rewrite E.
  replace (n <? 0) with false by bool_lia.
  by replace (Z.of_nat (String.length s) >=? n) with false by bool_lia.
Qed.

Lemma get_number_ok j k z d : get_item j k = Some (JNumber (inject_Z z)) ->
  INT32_MIN <= z <= INT32_MAX -> number_or j k d = if z <? 0 then d else z.
Proof.
  intros E H. unfold number_or, GetJsonObjectNumberItem. rewrite E. cbn [inject_Z Qnum].
  destruct (z <? 0); [done|]. unfold double_to_int. cbn [inject_Z Qnum Qden]. rewrite Z.quot_1_r.
  by replace ((INT32_MIN <=? z) && (z <=? INT32_MAX)) with true by lia.
Qed.

(** The information a device sends about itself is within the limits of the
    receiver. *)
Record sendable (d : AppInfoData) : Prop := {
  version_range : 0 <= apiVersion d <= INT32_MAX;
  uid_range : INT32_MIN <= uid d <= INT32_MAX;
  pid_range : INT32_MIN <= pid d <= INT32_MAX;
  device_fits : fits (deviceId d) DEVICE_ID_SIZE_MAX;
  pkg_fits : fits (pkgName d) PKG_NAME_SIZE_MAX;
  name_fits : fits (sessionName d) SESSION_NAME_SIZE_MAX;
  auth_fits : fits (authState d) AUTH_STATE_SIZE_MAX }.

(** What [b] knows of its peer after a message from [d]. *)
Definition learned (d : AppInfoData) (b b' : AppInfo) : Prop :=
  apiVersion (peerData b') = apiVersion d /\
  uid (peerData b') = received (uid d) /\ pid (peerData b') = received (pid d) /\
  (apiVersion d <> API_V1 -> pkgName (peerData b') = pkgName d /\ authState (peerData b') = authState d) /\
  a_fd b' = a_fd b /\ deviceId (peerData b') = deviceId (peerData b) /\
  ip (peerData b') = ip (peerData b) /\ port (peerData b') = port (peerData b).

Lemma version_received z : 0 <= z -> (if z <? 0 then API_V1 else z) = z.
Proof. intros. by replace (z <? 0) with false by lia. Qed.

(** Evaluate one field access on a concrete object. *)
Ltac json_field :=
  match goal with
  | |- context [number_or ?j ?k ?d] => rewrite (get_number_ok j k _ d eq_refl) by (done || lia)
  | |- context [GetJsonObjectStringItem ?j ?k ?n] =>
      rewrite (get_string_ok j k n _ eq_refl) by done
  end.

Lemma error_reply_refused create mem errCode errDesc j b :
  error_object create mem errCode errDesc = Some j -> UnpackReply j b = None.
Proof.
  unfold error_object. destruct create; cbn; [|done].
  destruct (mem "CODE"); [|done]. cbn. destruct (mem "ERR_CODE"); [|done]. cbn.
  destruct (mem "ERR_DESC"); [|done]. by intros [= <-].
Qed.

(** ** Properties *)

(** the request of a session handshake.  When the sender's information is
    within the field sizes, the text [PackRequest] makes is accepted by
    [UnpackRequest] on the other device, which then holds the sender's session
    key and group, has as its own session name the one the sender asked for,
    and knows the sender's version, process and names; its socket and the
    peer's address and device are untouched. *)
Theorem open_request_roundtrip print parse enc dec a b key :
  sendable (myData a) -> fits (sessionName (peerData a)) SESSION_NAME_SIZE_MAX ->
  fits (groupId a) GROUP_ID_SIZE_MAX ->
  Z.of_nat (length (sessionKey a)) = SESSION_KEY_LENGTH ->
  enc (sessionKey a) = Some key -> dec key = Some (sessionKey a) -> fits key BASE64KEY ->
  (forall j, request_object true (fun _ => true) a key = Some j ->
     exists t, print j = Some t /\ parse t = Some j) ->
  exists t j b',
    PackRequest true (fun _ => true) print enc a = Some t /\ parse t = Some j /\
    UnpackRequest dec j b = Some b' /\
    sessionKey b' = sessionKey a /\ groupId b' = groupId a /\
    sessionName (myData b') = sessionName (peerData a) /\
    (apiVersion (myData a) <> API_V1 -> sessionName (peerData b') = sessionName (myData a)) /\
    learned (myData a) b b'.
Proof.
  intros [Hv Hu Hp _ Hpk Hn Ha] Hpn Hg Hk He Hd Hkey Hj.
  unfold PackRequest. cbn [negb]. rewrite He.
  destruct (request_object true (fun _ => true) a key) as [j|] eqn:Ej.
  2: { unfold request_object in Ej. simpl in Ej. by destruct (negb _). }
  destruct (Hj j eq_refl) as (t & Ht & Hparse). exists t, j. cbn [print_object]. rewrite Ht.
  unfold request_object in Ej. cbn in Ej. unfold UnpackRequest.
  destruct (apiVersion (myData a) =? API_V1) eqn:EV; cbn [negb] in Ej; injection Ej as <-.
  all: do 6 json_field; rewrite Hd, version_received, EV, Hk, Z.eqb_refl by lia; cbn [negb].
  - eexists. do 3 (split; [done|]). do 3 (split; [done|]). split; [lia|].
    unfold learned. cbn. do 3 (split; [done|]). split; [lia|done].
  - do 3 json_field. eexists. do 3 (split; [done|]). done.
Qed.

(** the reply of a session handshake.  The text [PackReply] makes is
    accepted by [UnpackReply] exactly when the device that sends it is the one
    the receiver opened the channel to, and then teaches the receiver the
    peer's version, process and names and changes nothing else; an error reply
    is always refused. *)
Theorem open_reply_roundtrip print parse a b :
  sendable (myData a) ->
  (forall j, reply_object true (fun _ => true) a = Some j -> exists t, print j = Some t /\ parse t = Some j) ->
  exists t j,
    PackReply true (fun _ => true) print a = Some t /\ parse t = Some j /\
    (if decide (deviceId (myData a) = deviceId (peerData b)) then
       exists b', UnpackReply j b = Some b' /\ learned (myData a) b b' /\
         myData b' = myData b /\ sessionKey b' = sessionKey b /\ groupId b' = groupId b /\
         sessionName (peerData b') = sessionName (peerData b)
     else UnpackReply j b = None) /\
    (forall mem errCode errDesc j', error_object true mem errCode errDesc = Some j' ->
       UnpackReply j' b = None).
Proof.
  intros [Hv Hu Hp Hdev Hpk _ Ha] Hj. unfold PackReply.
  destruct (reply_object true (fun _ => true) a) as [j|] eqn:Ej.
  2: { unfold reply_object in Ej. simpl in Ej. by destruct (negb _). }
  destruct (Hj j eq_refl) as (t & Ht & Hparse). exists t, j. cbn [print_object].
  do 2 (split; [done|]). split; [|intros *; apply error_reply_refused].
  unfold reply_object in Ej. cbn in Ej. unfold UnpackReply.
  destruct (apiVersion (myData a) =? API_V1) eqn:EV; cbn [negb] in Ej; injection Ej as <-.
  all: do 4 json_field; case_decide as Edev; [rewrite Edev, String.eqb_refl|
    by rewrite (proj2 (String.eqb_neq _ _) Edev)]; cbn [negb]; cbv zeta.
  all: rewrite version_received, EV by lia; cbn [negb].
  - eexists. split; [done|]. split; [|done]. unfold learned. cbn. do 3 (split; [done|]). split; [lia|done].
  - do 2 json_field. eexists. split; [done|]. done.
Qed.

(** ** Witnesses *)

Definition a0 : AppInfo :=
  mkApp "g" (zeros 32) 1 5 (mkData API_V2 "devA" "pkgA" "sessA" 100 (-1) "" "" 0)
    (mkData 0 "devB" "" "sessB" 0 0 "" "1.2.3.4" 6000).
Definition b0 : AppInfo :=
  mkApp "" [] 0 9 (mkData API_V2 "devB" "" "" 0 0 "" "" 0) (mkData 0 "devA" "" "" 0 0 "" "4.3.2.1" 0).

Lemma a0_sendable : sendable (myData a0).
Proof. constructor; unfold fits; simpl; unfold API_V2, DEVICE_ID_SIZE_MAX, PKG_NAME_SIZE_MAX,
  SESSION_NAME_SIZE_MAX, AUTH_STATE_SIZE_MAX; lia. Qed.

Lemma open_request_roundtrip_witness :
  exists t j b', PackRequest true (fun _ => true) (fun _ => Some []) (fun _ => Some "key") a0 = Some t /\
    UnpackRequest (fun _ => Some (zeros 32)) j b0 = Some b' /\
    sessionKey b' = zeros 32 /\ sessionName (myData b') = "sessB".
Proof.
  destruct (open_request_roundtrip (fun _ => Some [])
    (fun _ => request_object true (fun _ => true) a0 "key") (fun _ => Some "key")
    (fun _ => Some (zeros 32)) a0 b0 "key") as (t & j & b' & H1 & _ & H3 & H4 & _ & H6 & _).
  - apply a0_sendable.
  - unfold fits, SESSION_NAME_SIZE_MAX. simpl. lia.
  - unfold fits, GROUP_ID_SIZE_MAX. simpl. lia.
  - reflexivity.
  - reflexivity.
  - reflexivity.
  - unfold fits, BASE64KEY. simpl. lia.
  - intros j Hj. exists []. split; [reflexivity|exact Hj].
  - exists t, j, b'. split; [exact H1|]. split; [exact H3|]. split; [exact H4|exact H6].
Defined.

Lemma open_reply_roundtrip_witness :
  exists t, PackReply true (fun _ => true) (fun _ => Some []) a0 = Some t.
Proof.
  destruct (open_reply_roundtrip (fun _ => Some []) (fun _ => reply_object true (fun _ => true) a0) a0 b0)
    as (t & j & H1 & _).
  - apply a0_sendable.
  - intros j Hj. exists []. split; [reflexivity|exact Hj].
  - exists t. exact H1.
Defined.

End OpenChannelMsg.
