(* ===== verification/TdcState.v ===== *)
(** * TCP direct channels: the two registries

    core/transmission/trans_channel/tcp_direct/src/trans_tcp_direct_manager.c
    (the list of session connections, the channel ids, the handshake timer, the
    opening of a channel) and the list of receive buffers of
    trans_tcp_direct_message.c.

    The operations are written in a state monad over [tdc], the globals of the
    three files of the component, with [fail] for an access outside an object
    (a null list, a byte outside a buffer).  What the component obtains from
    elsewhere during a call (allocation results, sockets, the authentication
    and session-manager callbacks, cJSON and base64) is an argument [Env].  A [SoftBusList] is the Coq list of its elements; its [cnt], updated
    with every insertion and deletion, is the length. *)

From S2P Require Import Prelude OpenChannelMsg.

Module TdcState.
Import OpenChannelMsg.

Definition INVALID_CHANNEL_ID : Z := -1.
Definition HANDSHAKE_TIMEOUT : Z := 19.
Definition MAX_DATA_BUF : Z := 4096.
Definition WIFI_STA : Z := 1.
Definition TRANS_SEQ_STEP : Z := 2.

Definition TCP_DIRECT_CHANNEL_STATUS_HANDSHAKING : Z := 0.
Definition TCP_DIRECT_CHANNEL_STATUS_CONNECTING : Z := 1.
Definition TCP_DIRECT_CHANNEL_STATUS_CONNECTED : Z := 2.
Definition TCP_DIRECT_CHANNEL_STATUS_TIMEOUT : Z := 3.

Inductive TriggerType := READ_TRIGGER | WRITE_TRIGGER | EXCEPT_TRIGGER | RW_TRIGGER.

(** ** Data *)

Definition app_set_fd (a : AppInfo) (f : Z) : AppInfo :=
  mkApp (groupId a) (sessionKey a) (routeType a) f (myData a) (peerData a).
Definition app_set_key (a : AppInfo) (k : list byte) : AppInfo :=
  mkApp (groupId a) k (routeType a) (a_fd a) (myData a) (peerData a).
Definition app_set_peer (a : AppInfo) (i : string) (p : Z) : AppInfo :=
  let d := peerData a in
  mkApp (groupId a) (sessionKey a) (routeType a) (a_fd a) (myData a)
    (mkData (apiVersion d) (deviceId d) (pkgName d) (sessionName d) (uid d) (pid d) (authState d) i p).
Definition app_set_uid_pid (a : AppInfo) (u p : Z) : AppInfo :=
  let d := myData a in
  mkApp (groupId a) (sessionKey a) (routeType a) (a_fd a)
    (mkData (apiVersion d) (deviceId d) (pkgName d) (sessionName d) u p (authState d) (ip d) (port d))
    (peerData a).

Record SessionConn := mkConn {
  serverSide : bool; channelId : Z; appInfo : AppInfo; status : Z; timeout : Z }.

Definition set_appInfo (c : SessionConn) (a : AppInfo) : SessionConn :=
  mkConn (serverSide c) (channelId c) a (status c) (timeout c).
Definition set_status (c : SessionConn) (s : Z) : SessionConn :=
  mkConn (serverSide c) (channelId c) (appInfo c) s (timeout c).

(** [data] has [size] bytes; [w] is the offset of the write pointer in it. *)
Record ServerDataBuf := mkBuf { b_channelId : Z; b_fd : Z; b_size : Z; b_data : list byte; b_w : Z }.

(** What the component does to its surroundings, oldest first. *)
Inductive Ev :=
  | EAddTrigger (fd : Z) (t : TriggerType)
  | EDelTrigger (fd : Z) (t : TriggerType)
  | EShutDown (fd : Z)
  | EClose (fd : Z)
  | ESend (fd : Z) (buf : list byte)
  | EOpened (channelId : Z) (fd : Z) (sessionKey : list byte) (isServer : bool)
  | EOpenFailed (channelId : Z).

Record tdc := mkTdc {
  g_tcpSrvDataList : option (list ServerDataBuf);
  g_sessionConnList : option (list SessionConn);
  g_tdcChannelId : Z;
  g_seq : Z;
  evs : list Ev }.

(** The results of the calls an operation makes. *)
Record Env := mkEnv {
  alloc_node : bool; alloc_buf : bool; alloc_conn : bool; alloc_conn2 : bool; alloc_out : bool;
  lock : bool;
  OpenTcpClientSocket : string -> Z -> Z;
  RecvTcpData : Z -> Z -> option (list byte);
  SendTcpData : Z -> list byte -> Z;
  AddTrigger : Z -> TriggerType -> Z;
  AuthEncrypt : string -> Z -> list byte -> option (Z * list byte);
  AuthDecrypt : string -> Z -> list byte -> option (list byte);
  AuthGetUuidByOption : string -> option string;
  LnnGetLocalUuid : option string;
  LnnGetNetworkIdByUuid : string -> option string;
  SoftBusGenerateSessionKey : option (list byte);
  GetPkgNameBySessionName : string -> option string;
  GetUidAndPidBySessionName : string -> option (Z * Z);
  OnChannelOpened : Z -> Z;
  OnChannelOpenFailed : Z -> Z;
  cJSON_Parse : list byte -> option json;
  cJSON_PrintUnformatted : json -> option (list byte);
  json_create : bool;
  json_mem : string -> bool;
  base64_encode : list byte -> option string;
  base64_decode : string -> option (list byte) }.

(** ** The monad *)

Definition M (A : Type) : Type := tdc -> option (A * tdc).
Definition ret {A} (a : A) : M A := fun s => Some (a, s).
Definition bind {A B} (m : M A) (k : A -> M B) : M B :=
  fun s => match m s with None => None | Some (a, s') => k a s' end.
Definition fail {A} : M A := fun _ => None.
Definition gets {A} (f : tdc -> A) : M A := fun s => Some (f s, s).
Definition emit (e : Ev) : M unit :=
  fun s => Some (tt, mkTdc (g_tcpSrvDataList s) (g_sessionConnList s) (g_tdcChannelId s) (g_seq s)
                       (evs s ++ [e])).
Definition put_bufs (l : option (list ServerDataBuf)) : M unit :=
  fun s => Some (tt, mkTdc l (g_sessionConnList s) (g_tdcChannelId s) (g_seq s) (evs s)).
Definition put_conns (l : option (list SessionConn)) : M unit :=
  fun s => Some (tt, mkTdc (g_tcpSrvDataList s) l (g_tdcChannelId s) (g_seq s) (evs s)).

Declare Scope tdc_scope.
Delimit Scope tdc_scope with tdc.
Notation "'let*' x := m 'in' k" := (bind m (fun x => k))
  (at level 10, x name, m at level 99, k at level 200) : tdc_scope.
Notation "m ;; k" := (bind m (fun _ => k)) (at level 100, k at level 200, right associativity) : tdc_scope.
#[local] Open Scope tdc_scope.

(** ** Receive buffers (trans_tcp_direct_message.c) *)

Definition TransSrvDataListInit (create : bool) : M Z :=
  let* l := gets g_tcpSrvDataList in
  match l with
  | Some _ => ret SOFTBUS_OK
  | None => if create then put_bufs (Some []) ;; ret SOFTBUS_OK else ret SOFTBUS_ERR
  end.

Definition TransSrvDataListDeinit : M unit :=
  let* l := gets g_tcpSrvDataList in
  match l with
  | None => ret tt
  | Some _ => put_bufs None
  end.

Definition TransSrvAddDataBufNode (node_ok buf_ok : bool) (id fd : Z) : M Z :=
  if negb node_ok then ret SOFTBUS_MALLOC_ERR
  else if negb buf_ok then ret SOFTBUS_MALLOC_ERR
  else
    let* l := gets g_tcpSrvDataList in
    match l with
    | None => fail
    | Some l =>
        put_bufs (Some (l ++ [mkBuf id fd MAX_DATA_BUF (zeros (Z.to_nat MAX_DATA_BUF)) 0])) ;;
        ret SOFTBUS_OK
    end.

(** The first element with a property is unlinked. *)
Fixpoint del_first {A} (p : A -> bool) (l : list A) : list A :=
  match l with
  | [] => []
  | x :: l' => if p x then l' else x :: del_first p l'
  end.

Definition TransSrvDelDataBufNode (id : Z) : M unit :=
  let* l := gets g_tcpSrvDataList in
  match l with
  | None => ret tt
  | Some l => put_bufs (Some (del_first (fun b => b_channelId b =? id) l))
  end.

(** ** Session connections (trans_tcp_direct_manager.c) *)

(** The counter wraps from [INT32_MAX] to 0. *)
Definition GenerateTdcChannelId (lock_ok : bool) : M Z :=
  if negb lock_ok then ret INVALID_CHANNEL_ID
  else fun s =>
    let id := g_tdcChannelId s in
    let next := i32 (id + 1) in
    Some (id, mkTdc (g_tcpSrvDataList s) (g_sessionConnList s) (if next <? 0 then 0 else next)
                (g_seq s) (evs s)).

Definition TransTdcGetNewSeqId : M Z :=
  fun s => let q := u64 (g_seq s + TRANS_SEQ_STEP) in
    Some (q, mkTdc (g_tcpSrvDataList s) (g_sessionConnList s) (g_tdcChannelId s) q (evs s)).

Definition TransTdcAddSessionConn (c : SessionConn) : M Z :=
  let* l := gets g_sessionConnList in
  match l with
  | None => ret SOFTBUS_INVALID_PARAM
  | Some l => put_conns (Some (l ++ [c])) ;; ret SOFTBUS_OK
  end.

Definition TransDelSessionConnById (id : Z) : M unit :=
  let* l := gets g_sessionConnList in
  match l with
  | None => ret tt
  | Some l => put_conns (Some (del_first (fun c => channelId c =? id) l))
  end.

Definition GetSessionConnById (id : Z) : M (option SessionConn) :=
  let* l := gets g_sessionConnList in
  match l with
  | None => ret None
  | Some l => ret (List.find (fun c => channelId c =? id) l)
  end.

Definition GetSessionConnByFd (fd : Z) : M (option SessionConn) :=
  let* l := gets g_sessionConnList in
  match l with
  | None => ret None
  | Some l => ret (List.find (fun c => a_fd (appInfo c) =? fd) l)
  end.

(** The first element with a property is updated. *)
Fixpoint upd_first {A} (p : A -> bool) (f : A -> A) (l : list A) : option (list A) :=
  match l with
  | [] => None
  | x :: l' => if p x then Some (f x :: l') else
      match upd_first p f l' with None => None | Some l'' => Some (x :: l'') end
  end.

Definition update_conn (id : Z) (f : SessionConn -> SessionConn) : M Z :=
  let* l := gets g_sessionConnList in
  match l with
  | None => ret SOFTBUS_ERR
  | Some l =>
      match upd_first (fun c => channelId c =? id) f l with
      | None => ret SOFTBUS_ERR
      | Some l' => put_conns (Some l') ;; ret SOFTBUS_OK
      end
  end.

Definition SetAppInfoById (id : Z) (a : AppInfo) : M Z := update_conn id (fun c => set_appInfo c a).
Definition SetSessionConnStatusById (id st : Z) : M Z := update_conn id (fun c => set_status c st).

(** [keyLen] is the size of the field, so [memcpy_s] cannot fail. *)
Definition SetSessionKeyByChanId (id : Z) (k : list byte) : M unit :=
  let* _ := update_conn id (fun c => set_appInfo c (app_set_key (appInfo c) k)) in ret tt.

(** ** The handshake timer *)

Definition DelTrigger (fd : Z) (t : TriggerType) : M unit := emit (EDelTrigger fd t).
Definition TcpShutDown (fd : Z) : M unit := if fd >=? 0 then emit (EShutDown fd) else ret tt.
Definition TransTdcOnChannelOpenFailed (e : Env) (id : Z) : M Z :=
  emit (EOpenFailed id) ;; ret (OnChannelOpenFailed e id).

Definition OnSesssionTimeOutProc (e : Env) (c : SessionConn) : M unit :=
  (if negb (serverSide c) then let* _ := TransTdcOnChannelOpenFailed e (channelId c) in ret tt
   else ret tt) ;;
  let fd := a_fd (appInfo c) in
  if fd >=? 0 then DelTrigger fd RW_TRIGGER ;; TcpShutDown fd else ret tt.

(** [LIST_FOR_EACH_ENTRY_SAFE]: the connections that stay, in order. *)
Fixpoint timer_loop (e : Env) (l : list SessionConn) : M (list SessionConn) :=
  match l with
  | [] => ret []
  | c :: l' =>
      let c' := mkConn (serverSide c) (channelId c) (appInfo c) (status c) (u32 (timeout c + 1)) in
      if (status c' <? TCP_DIRECT_CHANNEL_STATUS_CONNECTED) && (timeout c' >=? HANDSHAKE_TIMEOUT) then
        OnSesssionTimeOutProc e (set_status c' TCP_DIRECT_CHANNEL_STATUS_TIMEOUT) ;;
        timer_loop e l'
      else
        let* r := timer_loop e l' in ret (c' :: r)
  end.

Definition TransTdcTimerProc (e : Env) : M unit :=
  let* l := gets g_sessionConnList in
  match l with
  | None => ret tt
  | Some [] => ret tt
  | Some l =>
      if negb (lock e) then ret tt
      else let* l' := timer_loop e l in put_conns (Some l')
  end.

(** The connections of an application that died. *)
Fixpoint death_loop (name : string) (l : list SessionConn) : M (list SessionConn) :=
  match l with
  | [] => ret []
  | c :: l' =>
      if String.eqb (pkgName (myData (appInfo c))) name
      then DelTrigger (a_fd (appInfo c)) RW_TRIGGER ;; death_loop name l'
      else let* r := death_loop name l' in ret (c :: r)
  end.

Definition TransTdcDeathCallback (e : Env) (name : string) : M unit :=
  let* l := gets g_sessionConnList in
  match l with
  | None => ret tt
  | Some l =>
      if negb (lock e) then ret tt
      else let* l' := death_loop name l in put_conns (Some l')
  end.

(** ** Opening a channel *)

(** The address of the peer, [connInfo->info.ipOption]. *)
Definition CreateDefaultSession (malloc : bool) (a : AppInfo) (i : string) (p : Z) : option SessionConn :=
  if negb malloc then None
  else Some (mkConn false INVALID_CHANNEL_ID (app_set_peer (app_set_fd a (-1)) i p)
               TCP_DIRECT_CHANNEL_STATUS_HANDSHAKING 0).

Definition OpenConnTcp (e : Env) (i : string) (p : Z) : Z :=
  let fd := OpenTcpClientSocket e i p in if fd <? 0 then SOFTBUS_ERR else fd.

(** [(status, *channelId)]; [INVALID_CHANNEL_ID] when it was not written. *)
Definition TransOpenTcpDirectChannel (e : Env) (a : AppInfo) (i : string) (p : Z) : M (Z * Z) :=
  let a := mkApp (groupId a) (sessionKey a) WIFI_STA (a_fd a) (myData a) (peerData a) in
  match CreateDefaultSession (alloc_conn e) a i p with
  | None => ret (SOFTBUS_MALLOC_ERR, INVALID_CHANNEL_ID)
  | Some newConn =>
      let fd := OpenConnTcp e i p in
      if fd <? 0 then ret (SOFTBUS_ERR, INVALID_CHANNEL_ID)
      else
        let* id := GenerateTdcChannelId (lock e) in
        let* r := TransSrvAddDataBufNode (alloc_node e) (alloc_buf e) id fd in
        if negb (r =? SOFTBUS_OK) then ret (SOFTBUS_ERR, id)
        else
          let newConn := mkConn (serverSide newConn) id (app_set_fd (appInfo newConn) fd)
                           (status newConn) (timeout newConn) in
          let* r := TransTdcAddSessionConn newConn in
          if negb (r =? SOFTBUS_OK) then TransSrvDelDataBufNode id ;; ret (SOFTBUS_ERR, id)
          else if negb (AddTrigger e fd WRITE_TRIGGER =? SOFTBUS_OK) then
            TransDelSessionConnById id ;; TransSrvDelDataBufNode id ;; ret (SOFTBUS_ERR, id)
          else emit (EAddTrigger fd WRITE_TRIGGER) ;; ret (SOFTBUS_OK, id)
  end.

End TdcState.
