(* ===== verification/TdcMessage.v ===== *)
(** * TCP direct channels: handshake messages

    core/transmission/trans_channel/tcp_direct/src/trans_tcp_direct_message.c:
    the framing of the byte stream of a connection into packets (a 24-byte
    little-endian head and an encrypted JSON text), the request and reply of
    the session handshake, and the sending of a packet. *)

From S2P Require Import Prelude OpenChannelMsg TdcState.

Module TdcMessage.
Import OpenChannelMsg TdcState.
#[local] Open Scope tdc_scope.

Definition DC_MSG_PACKET_HEAD_SIZE : Z := 24.
Definition SESSION_KEY_INDEX_SIZE : Z := 4.
Definition MESSAGE_INDEX_SIZE : Z := 4.
Definition OVERHEAD_LEN : Z := 28.
Definition MAGIC_NUMBER : Z := 0xBABEFACE.
Definition MODULE_SESSION : Z := 6.
Definition FLAG_REQUEST : Z := 0.
Definition FLAG_REPLY : Z := 1.
Definition AUTH_CONN_SERVER_SIDE : Z := 1.
Definition SERVER_SIDE_FLAG : Z := 1.

(** [sizeof] is [DC_MSG_PACKET_HEAD_SIZE]. *)
Record TdcPacketHead := mkHead {
  magicNumber : Z; module : Z; seq : Z; flags : Z; dataLen : Z }.

Definition head_bytes (h : TdcPacketHead) : list byte :=
  le_bytes 4 (magicNumber h) ++ le_bytes 4 (module h) ++ le_bytes 8 (seq h) ++
  le_bytes 4 (flags h) ++ le_bytes 4 (dataLen h).

(** The head at the start of a buffer of at least 24 bytes. *)
Definition read_head (d : list byte) : TdcPacketHead :=
  mkHead (le_val (slice 0 4 d)) (le_val (slice 4 4 d)) (le_val (slice 8 8 d))
    (le_val (slice 16 4 d)) (le_val (slice 20 4 d)).

(** ** Sending *)

(** [(status, packet)].  The cipher text is written to the buffer behind the
    head; [AuthEncrypt] fills its [dataLen] bytes. *)
Definition PackBytes (e : Env) (id : Z) (data : list byte) (h : TdcPacketHead) : M (Z * list byte) :=
  if negb (alloc_conn e) then ret (SOFTBUS_ERR, [])
  else
    let* c := GetSessionConnById id in
    match c with
    | None => ret (SOFTBUS_ERR, [])
    | Some c =>
        let len := u32 (dataLen h - SESSION_KEY_INDEX_SIZE - OVERHEAD_LEN) in
        if Z.of_nat (length data) <? len then fail
        else
          match AuthEncrypt e (ip (peerData (appInfo c))) (port (peerData (appInfo c)))
                  (take (Z.to_nat len) data) with
          | None => ret (SOFTBUS_ERR, [])
          | Some (side, cipher) =>
              if negb (Z.of_nat (length cipher) =? dataLen h) then fail
              else
                let q := if (flags h =? FLAG_REQUEST) && (side =? SERVER_SIDE_FLAG)
                         then Z.lor (seq h) AUTH_CONN_SERVER_SIDE else seq h in
                ret (SOFTBUS_OK,
                     head_bytes (mkHead (magicNumber h) (module h) q (flags h) (dataLen h)) ++ cipher)
          end
    end.

Definition TransTdcPostBytes (e : Env) (id : Z) (h : TdcPacketHead) (data : list byte) : M Z :=
  let bufferLen := u32 (dataLen h + DC_MSG_PACKET_HEAD_SIZE) in
  if bufferLen <=? OVERHEAD_LEN + MESSAGE_INDEX_SIZE + DC_MSG_PACKET_HEAD_SIZE
  then ret SOFTBUS_INVALID_PARAM
  else if negb (alloc_buf e) then ret SOFTBUS_MALLOC_ERR
  else
    let* r := PackBytes e id data h in
    if negb (r.1 =? SOFTBUS_OK) then ret SOFTBUS_ENCRYPT_ERR
    else if negb (alloc_conn2 e) then ret SOFTBUS_ERR
    else
      let* c := GetSessionConnById id in
      match c with
      | None => ret SOFTBUS_ERR
      | Some c =>
          let fd := a_fd (appInfo c) in
          emit (ESend fd r.2) ;;
          if negb (SendTcpData e fd r.2 =? i32 bufferLen) then ret SOFTBUS_ERR
          else ret SOFTBUS_OK
      end.

(** ** The handshake *)

Definition DecryptMessage (e : Env) (id : Z) (inp : list byte) : M (Z * list byte) :=
  let* c := GetSessionConnById id in
  match c with
  | None => ret (SOFTBUS_ERR, [])
  | Some c =>
      match AuthDecrypt e (ip (peerData (appInfo c))) (port (peerData (appInfo c))) inp with
      | None => ret (SOFTBUS_ERR, [])
      | Some out => ret (SOFTBUS_OK, out)
      end
  end.

Definition NotifyChannelOpened (e : Env) (id : Z) : M Z :=
  let* c := GetSessionConnById id in
  match c with
  | None => ret SOFTBUS_ERR
  | Some c =>
      let a := appInfo c in
      match LnnGetNetworkIdByUuid e (deviceId (peerData a)) with
      | None => ret SOFTBUS_ERR
      | Some _ =>
          match GetPkgNameBySessionName e (sessionName (myData a)) with
          | None => ret SOFTBUS_ERR
          | Some _ =>
              emit (EOpened id (a_fd a) (sessionKey a) (serverSide c)) ;;
              let* _ := SetSessionConnStatusById id TCP_DIRECT_CHANNEL_STATUS_CONNECTED in
              ret (OnChannelOpened e id)
          end
      end
  end.

Definition NotifyChannelOpenFailed (e : Env) (id : Z) : M Z :=
  let* c := GetSessionConnById id in
  match c with
  | None => ret SOFTBUS_ERR
  | Some c =>
      match GetPkgNameBySessionName e (sessionName (myData (appInfo c))) with
      | None => ret SOFTBUS_ERR
      | Some _ =>
          if negb (serverSide c) then TransTdcOnChannelOpenFailed e id else ret SOFTBUS_OK
      end
  end.

Definition OpenDataBusReply (e : Env) (id : Z) (reply : json) : M Z :=
  let* c := GetSessionConnById id in
  match c with
  | None => ret SOFTBUS_ERR
  | Some c =>
      match UnpackReply reply (appInfo c) with
      | None => ret SOFTBUS_ERR
      | Some a =>
          let* r := SetAppInfoById id a in
          if negb (r =? SOFTBUS_OK) then ret SOFTBUS_ERR
          else
            let* r := NotifyChannelOpened e id in
            if negb (r =? SOFTBUS_OK) then ret SOFTBUS_ERR else ret SOFTBUS_OK
      end
  end.

Definition OpenDataBusRequestReply (e : Env) (a : AppInfo) (id q errCode : Z) : M Z :=
  match (if negb (errCode =? SOFTBUS_OK)
         then PackError (json_create e) (json_mem e) (cJSON_PrintUnformatted e) errCode "notifyChannelOpened"
         else PackReply (json_create e) (json_mem e) (cJSON_PrintUnformatted e) a) with
  | None => ret SOFTBUS_ERR
  | Some reply =>
      TransTdcPostBytes e id
        (mkHead MAGIC_NUMBER MODULE_SESSION q FLAG_REPLY
           (u32 (Z.of_nat (length reply) + OVERHEAD_LEN + MESSAGE_INDEX_SIZE))) reply
  end.

Definition OpenDataBusRequest (e : Env) (id q : Z) (request : json) : M Z :=
  if negb (alloc_conn e) then ret SOFTBUS_ERR
  else
    let* c := GetSessionConnById id in
    match c with
    | None => ret SOFTBUS_INVALID_PARAM
    | Some c =>
        match UnpackRequest (base64_decode e) request (appInfo c) with
        | None => ret SOFTBUS_ERR
        | Some a =>
            match GetUidAndPidBySessionName e (sessionName (myData a)) with
            | None => ret SOFTBUS_ERR
            | Some (u, p) =>
                let a := app_set_uid_pid a u p in
                let* r := SetAppInfoById id a in
                if negb (r =? SOFTBUS_OK) then ret SOFTBUS_ERR
                else
                  let* r := NotifyChannelOpened e id in
                  let* r' := OpenDataBusRequestReply e a id q r in
                  if negb (r' =? SOFTBUS_OK) then ret SOFTBUS_ERR
                  else if negb (r =? SOFTBUS_OK) then ret SOFTBUS_ERR
                  else ret SOFTBUS_OK
            end
        end
    end.

Definition ProcessMessage (e : Env) (id fl q : Z) (packet : json) : M Z :=
  if negb (Z.land fl FLAG_REPLY =? 0) then OpenDataBusReply e id packet
  else OpenDataBusRequest e id q packet.

(** ** Receiving *)

Definition TransSrvGetDataBufNodeById (id : Z) : M (option ServerDataBuf) :=
  let* l := gets g_tcpSrvDataList in
  match l with
  | None => ret None
  | Some l => ret (List.find (fun b => b_channelId b =? id) l)
  end.

(** The node found by the last lookup is changed in place. *)
Definition write_node (id : Z) (f : ServerDataBuf -> ServerDataBuf) : M unit :=
  let* l := gets g_tcpSrvDataList in
  match l with
  | None => fail
  | Some l =>
      match upd_first (fun b => b_channelId b =? id) f l with
      | None => fail
      | Some l' => put_bufs (Some l')
      end
  end.

(** [(inLen, seq, flags)], [None] for an error. *)
Definition GetPktHeadInfoByDatabuf (node : option ServerDataBuf) : option (Z * Z * Z) :=
  match node with
  | None => None
  | Some b =>
      let h := read_head (b_data b) in
      if negb (module h =? MODULE_SESSION) then None
      else Some (dataLen h, seq h, flags h)
  end.

(** [memmove_s(data, size, end, w - end)] with [end] at offset [k]: the moved
    contents, [None] when [w - end] is negative (a huge [size_t]) and the
    buffer is cleared. *)
Definition shift_down (b : ServerDataBuf) (k : Z) : option (list byte) :=
  if b_w b - k <? 0 then None
  else Some (splice 0 (slice (Z.to_nat k) (Z.to_nat (b_w b - k)) (b_data b)) (b_data b)).

Definition ProcessReceivedData (e : Env) (id : Z) : M Z :=
  let* node := TransSrvGetDataBufNodeById id in
  match node, GetPktHeadInfoByDatabuf node with
  | Some b, Some (inLen, q, fl) =>
      let outSize := u32 (inLen - SESSION_KEY_INDEX_SIZE - OVERHEAD_LEN + 1) in
      if negb (alloc_out e) then ret SOFTBUS_MALLOC_ERR
      else if Z.of_nat (length (b_data b)) <? DC_MSG_PACKET_HEAD_SIZE + inLen then fail
      else
        let* r := DecryptMessage e id (slice (Z.to_nat DC_MSG_PACKET_HEAD_SIZE) (Z.to_nat inLen) (b_data b)) in
        if negb (r.1 =? SOFTBUS_OK) then ret SOFTBUS_ERR
        else
          let used := DC_MSG_PACKET_HEAD_SIZE + inLen in
          match shift_down b used with
          | None =>
              write_node id (fun b => mkBuf (b_channelId b) (b_fd b) (b_size b)
                                        (zeros (length (b_data b))) (b_w b)) ;;
              ret SOFTBUS_MEM_ERR
          | Some d' =>
              write_node id (fun b => mkBuf (b_channelId b) (b_fd b) (b_size b) d' (b_w b - used)) ;;
              if outSize <=? Z.of_nat (length r.2) then fail
              else
                match cJSON_Parse e r.2 with
                | None => ret SOFTBUS_ERR
                | Some packet => ProcessMessage e id fl q packet
                end
          end
  | _, _ => ret SOFTBUS_ERR
  end.

Definition TransTdcSrvProcData (e : Env) (id : Z) : M Z :=
  let* node := TransSrvGetDataBufNodeById id in
  match node with
  | None => ret SOFTBUS_ERR
  | Some b =>
      let bufLen := u32 (b_w b) in
      if bufLen <? DC_MSG_PACKET_HEAD_SIZE then ret SOFTBUS_DATA_NOT_ENOUGH
      else
        let h := read_head (b_data b) in
        if negb (magicNumber h =? MAGIC_NUMBER) then ret SOFTBUS_ERR
        else if dataLen h >? u32 (b_size b - DC_MSG_PACKET_HEAD_SIZE) then ret SOFTBUS_ERR
        else if bufLen <? u32 (dataLen h + DC_MSG_PACKET_HEAD_SIZE) then ret SOFTBUS_DATA_NOT_ENOUGH
        else DelTrigger (b_fd b) READ_TRIGGER ;; ProcessReceivedData e id
  end.

(** The received bytes are stored at the write pointer. *)
Definition TransTdcSrvRecvData (e : Env) (id : Z) : M Z :=
  let* l := gets g_tcpSrvDataList in
  match l with
  | None => fail
  | Some _ =>
      let* node := TransSrvGetDataBufNodeById id in
      match node with
      | None => ret SOFTBUS_ERR
      | Some b =>
          match RecvTcpData e (b_fd b) (b_size b - b_w b) with
          | None => ret SOFTBUS_ERR
          | Some bs =>
              if Z.of_nat (length (b_data b)) <? b_w b + Z.of_nat (length bs) then fail
              else
                write_node id (fun b => mkBuf (b_channelId b) (b_fd b) (b_size b)
                                          (splice (Z.to_nat (b_w b)) bs (b_data b))
                                          (b_w b + Z.of_nat (length bs))) ;;
                TransTdcSrvProcData e id
          end
      end
  end.

(** ** Lemmas *)

Section list_lookup.
Context {A : Type} (p : A -> bool) (l1 : list A) (x : A) (l2 : list A).
Hypothesis none_before : Forall (fun y => p y = false) l1.
Hypothesis here : p x = true.

Lemma find_mid : List.find p (l1 ++ x :: l2) = Some x.
Proof.
  revert none_before. induction l1 as [|y l IH]; simpl; intros H; [by rewrite here|].
  inversion H as [|? ? Hy Hl]; subst. rewrite Hy. by apply IH.
Qed.

Lemma upd_first_mid f : upd_first p f (l1 ++ x :: l2) = Some (l1 ++ f x :: l2).
Proof.
  revert none_before. induction l1 as [|y l IH]; simpl; intros H; [by rewrite here|].
  inversion H as [|? ? Hy Hl]; subst. by rewrite Hy, IH.
Qed.
End list_lookup.

Lemma splice_0 (xs d : list byte) : splice 0 xs d = xs ++ drop (length xs) d.
Proof. unfold splice. by rewrite take_0. Qed.

Lemma splice_append (a b d : list byte) : (length a + length b <= length d)%nat ->
  splice (length a) b (splice 0 a d) = splice 0 (a ++ b) d.
Proof.
  intros H. unfold splice. rewrite take_0. simpl app. rewrite take_app_length.
  rewrite drop_app_ge by lia. rewrite drop_drop, <- app_assoc, length_app. do 3 f_equal. lia.
Qed.

Lemma length_tdc_head h : length (head_bytes h) = 24%nat.
Proof. unfold head_bytes. by rewrite !length_app, !length_le_bytes. Qed.

(** The fields of a head are in the range of their types. *)
Record head_ok (h : TdcPacketHead) : Prop := {
  magic_range : 0 <= magicNumber h < 2 ^ 32;
  module_range : 0 <= module h < 2 ^ 32;
  seq_range : 0 <= seq h < 2 ^ 64;
  flags_range : 0 <= flags h < 2 ^ 32;
  dataLen_range : 0 <= dataLen h < 2 ^ 32 }.

Lemma field_at (a r : list byte) n z off : off = length a -> 0 <= z < 2 ^ (Z.of_nat n * 8) ->
  le_val (slice off n (a ++ le_bytes n z ++ r)) = z.
Proof.
  intros -> Hz. rewrite slice_mid by (done || by rewrite length_le_bytes).
  rewrite le_val_bytes. by apply Z.mod_small.
Qed.

Lemma read_head_bytes h r : head_ok h -> read_head (head_bytes h ++ r) = h.
Proof.
  intros [H1 H2 H3 H4 H5]. unfold read_head, head_bytes. destruct h as [m mo q f d]. cbn in *.
  rewrite <- !app_assoc. f_equal.
  - by apply (field_at []).
  - apply field_at; [by rewrite length_le_bytes|done].
  - rewrite app_assoc. apply field_at; [by rewrite !length_app, !length_le_bytes|done].
  - rewrite app_assoc, app_assoc. apply field_at; [by rewrite !length_app, !length_le_bytes|done].
  - rewrite app_assoc, app_assoc, app_assoc.
    apply field_at; [by rewrite !length_app, !length_le_bytes|done].
Qed.

(** ** Framing *)

(** The environment in which the socket yields [c]. *)
Definition with_recv (e : Env) (c : list byte) : Env :=
  mkEnv (alloc_node e) (alloc_buf e) (alloc_conn e) (alloc_conn2 e) (alloc_out e) (lock e)
    (OpenTcpClientSocket e) (fun _ _ => Some c) (SendTcpData e) (AddTrigger e) (AuthEncrypt e)
    (AuthDecrypt e) (AuthGetUuidByOption e) (LnnGetLocalUuid e) (LnnGetNetworkIdByUuid e)
    (SoftBusGenerateSessionKey e) (GetPkgNameBySessionName e) (GetUidAndPidBySessionName e)
    (OnChannelOpened e) (OnChannelOpenFailed e) (cJSON_Parse e) (cJSON_PrintUnformatted e)
    (json_create e) (json_mem e) (base64_encode e) (base64_decode e).

(** The chunks of a stream received one after the other. *)
Fixpoint recv_chunks (e : Env) (id : Z) (cs : list (list byte)) : M (list Z) :=
  match cs with
  | [] => ret []
  | c :: cs' =>
      let* r := TransTdcSrvRecvData (with_recv e c) id in
      let* rs := recv_chunks e id cs' in
      ret (r :: rs)
  end.

Section framing.
Context (e : Env) (id fd : Z) (h : TdcPacketHead) (cipher : list byte).
Context (s : tdc) (l1 l2 : list ServerDataBuf) (d0 : list byte).
Hypothesis other_ids : Forall (fun b => b_channelId b <> id) l1.
Hypothesis d0_len : length d0 = Z.to_nat MAX_DATA_BUF.
Hypothesis h_ok : head_ok h.
Hypothesis h_magic : magicNumber h = MAGIC_NUMBER.
Hypothesis h_module : module h = MODULE_SESSION.
Hypothesis h_len : dataLen h = Z.of_nat (length cipher).
Hypothesis h_fits : dataLen h <= MAX_DATA_BUF - DC_MSG_PACKET_HEAD_SIZE.

Definition pkt : list byte := head_bytes h ++ cipher.

(** [s] with the buffer of [id] holding [d] up to [w], and events [ev]. *)
Definition st (d : list byte) (w : Z) (ev : list Ev) : tdc :=
  mkTdc (Some (l1 ++ mkBuf id fd MAX_DATA_BUF d w :: l2)) (g_sessionConnList s)
    (g_tdcChannelId s) (g_seq s) ev.

Lemma not_before : Forall (fun b => (b_channelId b =? id) = false) l1.
Proof. eapply Forall_impl; [exact other_ids|]. simpl. lia. Qed.

Lemma get_node d w ev :
  TransSrvGetDataBufNodeById id (st d w ev) = Some (Some (mkBuf id fd MAX_DATA_BUF d w), st d w ev).
Proof.
  unfold TransSrvGetDataBufNodeById, bind, gets. cbn [st g_tcpSrvDataList].
  unfold ret. by rewrite find_mid by (apply not_before || apply Z.eqb_refl).
Qed.

Lemma write_node_st d w ev f d' w' : f (mkBuf id fd MAX_DATA_BUF d w) = mkBuf id fd MAX_DATA_BUF d' w' ->
  write_node id f (st d w ev) = Some (tt, st d' w' ev).
Proof.
  intros E. unfold write_node, bind, gets. cbn [st g_tcpSrvDataList].
  rewrite upd_first_mid by (apply not_before || apply Z.eqb_refl). by rewrite E.
Qed.

(** Storing a chunk behind the bytes [pre]. *)
Lemma recv_chunk pre c : (length pre + length c <= Z.to_nat MAX_DATA_BUF)%nat ->
  TransTdcSrvRecvData (with_recv e c) id (st (splice 0 pre d0) (Z.of_nat (length pre)) (evs s)) =
  TransTdcSrvProcData (with_recv e c) id
    (st (splice 0 (pre ++ c) d0) (Z.of_nat (length (pre ++ c))) (evs s)).
Proof.
  intros H. unfold TransTdcSrvRecvData. unfold bind at 1, gets at 1. cbn [g_tcpSrvDataList st].
  unfold bind at 1. rewrite get_node. cbn [b_fd b_size b_w b_data with_recv RecvTcpData].
  rewrite (length_splice 0) by (rewrite d0_len; lia). rewrite d0_len.
  replace (Z.of_nat (Z.to_nat MAX_DATA_BUF) <? _) with false by bool_lia.
  unfold bind. erewrite write_node_st; [done|]. cbn. f_equal.
  - rewrite Nat2Z.id. apply splice_append. lia.
  - rewrite length_app. lia.
Qed.

(** A prefix of the packet is not enough. *)
Lemma prefix_not_enough e' pre rest : pkt = pre ++ rest -> rest <> [] ->
  TransTdcSrvProcData e' id (st (splice 0 pre d0) (Z.of_nat (length pre)) (evs s)) =
  Some (SOFTBUS_DATA_NOT_ENOUGH, st (splice 0 pre d0) (Z.of_nat (length pre)) (evs s)).
Proof.
  intros Ep Hr. unfold TransTdcSrvProcData, bind. rewrite get_node. cbn [b_w b_data b_size].
  assert (length pkt = (length pre + length rest)%nat) as Hl by (rewrite Ep; apply length_app).
  assert (length pkt = (24 + length cipher)%nat) as Hl'
    by (unfold pkt; by rewrite length_app, length_tdc_head).
  assert (0 < length rest)%nat by (destruct rest; simpl; [done|lia]).
  unfold MAX_DATA_BUF, DC_MSG_PACKET_HEAD_SIZE in *. rewrite (u32_small (Z.of_nat _)) by lia.
  destruct (Z.ltb_spec (Z.of_nat (length pre)) 24) as [|Hge]; [done|].
  assert (read_head (splice 0 pre d0) = h) as ->.
  { unfold splice. simpl. rewrite <- (take_drop 24 pre).
    assert (take 24 pre = head_bytes h) as ->; [|rewrite <- app_assoc; by apply read_head_bytes].
    rewrite <- (take_app_le pre rest) by lia. rewrite <- Ep. unfold pkt.
    apply take_app_length'. by rewrite length_tdc_head. }
  rewrite h_magic, Z.eqb_refl. cbn [negb]. rewrite !u32_small by lia.
  replace (dataLen h >? 4096 - 24) with false by bool_lia.
  by replace (Z.of_nat (length pre) <? dataLen h + 24) with true by bool_lia.
Qed.

Context (c : SessionConn) (cl : list SessionConn) (plain : list byte) (packet : json).
Hypothesis s_conns : g_sessionConnList s = Some cl.
Hypothesis s_conn : List.find (fun c => channelId c =? id) cl = Some c.

(** What a call in environment [e] does with the packet: the cipher text
    decrypts to [plain], which parses to [packet]. *)
Record accepts (e : Env) : Prop := {
  out_ok : alloc_out e = true;
  decrypts : AuthDecrypt e (ip (peerData (appInfo c))) (port (peerData (appInfo c))) cipher = Some plain;
  plain_len : Z.of_nat (length plain) + SESSION_KEY_INDEX_SIZE + OVERHEAD_LEN <= Z.of_nat (length cipher);
  parses : cJSON_Parse e plain = Some packet }.

Lemma decrypt_st e' d w ev : accepts e' ->
  DecryptMessage e' id cipher (st d w ev) = Some ((SOFTBUS_OK, plain), st d w ev).
Proof.
  intros H. unfold DecryptMessage, GetSessionConnById, bind, gets. cbn [g_sessionConnList st].
  rewrite s_conns. unfold ret. rewrite s_conn. by rewrite (decrypts _ H).
Qed.

Lemma read_head_pkt : read_head (splice 0 pkt d0) = h.
Proof. rewrite splice_0. unfold pkt. rewrite <- app_assoc. by apply read_head_bytes. Qed.

Lemma process_whole e' ev : accepts e' ->
  ProcessReceivedData e' id (st (splice 0 pkt d0) (Z.of_nat (length pkt)) ev) =
  ProcessMessage e' id (flags h) (seq h) packet (st (splice 0 pkt d0) 0 ev).
Proof.
  intros H. unfold ProcessReceivedData. unfold bind at 1. rewrite get_node.
  unfold GetPktHeadInfoByDatabuf. cbn [b_data]. rewrite read_head_pkt, h_module, Z.eqb_refl. cbn [negb].
  rewrite (out_ok _ H). cbn [negb]. pose proof (plain_len _ H) as Hpl.
  assert (length pkt = (24 + length cipher)%nat) as Hl
    by (unfold pkt; by rewrite length_app, length_tdc_head).
  unfold MAX_DATA_BUF, DC_MSG_PACKET_HEAD_SIZE, SESSION_KEY_INDEX_SIZE, OVERHEAD_LEN in *.
  rewrite (length_splice 0) by lia. rewrite d0_len.
  replace (Z.of_nat (Z.to_nat 4096) <? 24 + dataLen h) with false by bool_lia.
  assert (slice (Z.to_nat 24) (Z.to_nat (dataLen h)) (splice 0 pkt d0) = cipher) as ->.
  { rewrite splice_0. unfold pkt. rewrite <- app_assoc. apply slice_mid; [by rewrite length_tdc_head|lia]. }
  unfold bind at 1. rewrite decrypt_st by done. cbn [fst snd]. rewrite Z.eqb_refl. cbn [negb].
  unfold shift_down. cbn [b_w b_data].
  replace (Z.of_nat (length pkt) - (24 + dataLen h)) with 0 by lia.
  change (0 <? 0) with false. cbv iota.
  assert (slice (Z.to_nat (24 + dataLen h)) (Z.to_nat 0) (splice 0 pkt d0) = []) as -> by (unfold slice; by rewrite take_0).
  rewrite (splice_0 [] (splice 0 pkt d0)). cbn [length app]. rewrite drop_0.
  unfold bind at 1. rewrite (write_node_st _ _ _ _ (splice 0 pkt d0) 0) by (cbn; f_equal; lia).
  replace (u32 (dataLen h - 4 - 28 + 1) <=? Z.of_nat (length plain)) with false
    by (rewrite u32_small by lia; bool_lia).
  by rewrite (parses _ H).
Qed.

Lemma whole_packet e' : accepts e' ->
  TransTdcSrvProcData e' id (st (splice 0 pkt d0) (Z.of_nat (length pkt)) (evs s)) =
  ProcessMessage e' id (flags h) (seq h) packet
    (st (splice 0 pkt d0) 0 (evs s ++ [EDelTrigger fd READ_TRIGGER])).
Proof.
  intros H. unfold TransTdcSrvProcData. unfold bind at 1. rewrite get_node. cbn [b_w b_data b_size].
  assert (length pkt = (24 + length cipher)%nat) as Hl
    by (unfold pkt; by rewrite length_app, length_tdc_head).
  rewrite read_head_pkt, h_magic, Z.eqb_refl. cbn [negb].
  unfold MAX_DATA_BUF, DC_MSG_PACKET_HEAD_SIZE in *. rewrite !u32_small by lia.
  replace (Z.of_nat (length pkt) <? 24) with false by bool_lia.
  replace (dataLen h >? 4096 - 24) with false by bool_lia.
  replace (Z.of_nat (length pkt) <? dataLen h + 24) with false by bool_lia.
  unfold bind at 1. by rewrite <- process_whole.
Qed.

Lemma recv_stream cs pre : accepts e -> pkt = pre ++ concat cs -> Forall (fun c => c <> []) cs -> cs <> [] ->
  recv_chunks e id cs (st (splice 0 pre d0) (Z.of_nat (length pre)) (evs s)) =
  match ProcessMessage e id (flags h) (seq h) packet
          (st (splice 0 pkt d0) 0 (evs s ++ [EDelTrigger fd READ_TRIGGER])) with
  | None => None
  | Some (r, s') => Some (replicate (length cs - 1) SOFTBUS_DATA_NOT_ENOUGH ++ [r], s')
  end.
Proof.
  intros He. revert pre. induction cs as [|ck cs IH]; intros pre Ep Hcs Hne; [done|].
  inversion Hcs as [|? ? Hck Hrest]; subst. cbn [concat recv_chunks] in *. unfold bind at 1.
  assert (length pkt = (24 + length cipher)%nat) as Hl
    by (unfold pkt; by rewrite length_app, length_tdc_head).
  rewrite recv_chunk.
  2: { unfold MAX_DATA_BUF, DC_MSG_PACKET_HEAD_SIZE in *. rewrite Ep, !length_app in Hl. lia. }
  rewrite app_assoc in Ep. destruct cs as [|ck' cs'].
  - cbn [concat] in Ep. rewrite app_nil_r in Ep. rewrite <- Ep, whole_packet by (by destruct He).
    change (ProcessMessage (with_recv e ck)) with (ProcessMessage e).
    by destruct (ProcessMessage e id (flags h) (seq h) packet _) as [[r s']|].
  - rewrite (prefix_not_enough _ (pre ++ ck) (concat (ck' :: cs'))); [|done|].
    2: { inversion Hrest; subst. cbn [concat]. by destruct ck'. }
    unfold bind. rewrite IH by done.
    replace (length (ck :: ck' :: cs') - 1)%nat with (S (length (ck' :: cs') - 1)) by (simpl; lia).
    by destruct (ProcessMessage e id (flags h) (seq h) packet _) as [[r s']|].
Qed.
End framing.

(** ** Property *)

(** C26: the framing of a TCP direct channel does not depend on how the stream
    is cut.  When a session packet that the authentication layer accepts
    arrives in an empty buffer in any non-empty pieces, every call but the last
    says that the data is not enough and changes only the buffer; the last
    stops the read trigger and handles exactly the message of the packet, with
    the flags and sequence of its head, the buffer being empty again. *)
Theorem tdc_framing e id fd h cipher s l1 l2 d0 c cl plain packet cs :
  g_tcpSrvDataList s = Some (l1 ++ mkBuf id fd MAX_DATA_BUF d0 0 :: l2) ->
  Forall (fun b => b_channelId b <> id) l1 -> length d0 = Z.to_nat MAX_DATA_BUF ->
  head_ok h -> magicNumber h = MAGIC_NUMBER -> module h = MODULE_SESSION ->
  dataLen h = Z.of_nat (length cipher) -> dataLen h <= MAX_DATA_BUF - DC_MSG_PACKET_HEAD_SIZE ->
  g_sessionConnList s = Some cl -> List.find (fun c => channelId c =? id) cl = Some c ->
  accepts cipher c plain packet e ->
  concat cs = head_bytes h ++ cipher -> Forall (fun c => c <> []) cs ->
  recv_chunks e id cs s =
  match ProcessMessage e id (flags h) (seq h) packet
          (mkTdc (Some (l1 ++ mkBuf id fd MAX_DATA_BUF (splice 0 (head_bytes h ++ cipher) d0) 0 :: l2))
             (Some cl) (g_tdcChannelId s) (g_seq s) (evs s ++ [EDelTrigger fd READ_TRIGGER])) with
  | None => None
  | Some (r, s') => Some (replicate (length cs - 1) SOFTBUS_DATA_NOT_ENOUGH ++ [r], s')
  end.
Proof.
  intros Hb Hl1 Hd Hh Hm Hmo Hlen Hfit Hcl Hc Hacc Hcs Hne.
  assert (cs <> []) as Hn.
  { intros ->. apply (f_equal length) in Hcs. rewrite length_app, length_tdc_head in Hcs.
    change (length (concat [])) with 0%nat in Hcs. lia. }
  assert (s = st id fd s l1 l2 (splice 0 [] d0) 0 (evs s)) as E.
  { rewrite splice_0. cbn [length app]. rewrite drop_0. unfold st. rewrite <- Hb. by destruct s. }
  transitivity (recv_chunks e id cs
    (st id fd s l1 l2 (splice 0 [] d0) (Z.of_nat (@length byte [])) (evs s))); [by f_equal|].
  rewrite (recv_stream e id fd h cipher s l1 l2 d0 Hl1 Hd Hh Hm Hmo Hlen Hfit c cl plain packet Hcl Hc cs [])
    by done.
  unfold st, pkt. by rewrite Hcl.
Qed.

(** ** Witness *)

Definition app0 : AppInfo :=
  mkApp "g" (zeros 32) 1 9 (mkData API_V2 "devA" "pkg" "my" 0 0 "" "" 0)
    (mkData 0 "devB" "" "peer" 0 0 "" "1.2.3.4" 6000).
Definition conn0 : SessionConn := mkConn false 3 app0 TCP_DIRECT_CHANNEL_STATUS_HANDSHAKING 0.
Definition state0 : tdc :=
  mkTdc (Some [mkBuf 3 9 MAX_DATA_BUF (zeros (Z.to_nat MAX_DATA_BUF)) 0]) (Some [conn0]) 4 0 [].
(** A peer that answers with a reply of its device. *)
Definition reply0 : json := [("DEVICE_ID", JString "devB")].
Definition env0 : Env :=
  mkEnv true true true true true true (fun _ _ => 9) (fun _ _ => None) (fun _ _ => 0) (fun _ _ => 0)
    (fun _ _ p => Some (0, zeros 32 ++ p)) (fun _ _ c => if (length c <? 32)%nat then None else Some (drop 32 c)) (fun _ => Some "devB")
    (Some "devA") (fun _ => Some "net") (Some (zeros 32)) (fun _ => Some "pkg") (fun _ => Some (1, 2))
    (fun _ => SOFTBUS_OK) (fun _ => SOFTBUS_OK) (fun _ => Some reply0) (fun _ => Some (zeros 8))
    true (fun _ => true) (fun _ => Some "key") (fun _ => Some (zeros 32)).
Definition head0 : TdcPacketHead := mkHead MAGIC_NUMBER MODULE_SESSION 2 FLAG_REPLY 40.
Definition chunks0 : list (list byte) :=
  [take 10 (head_bytes head0 ++ zeros 40); drop 10 (head_bytes head0 ++ zeros 40)].

Lemma tdc_framing_witness :
  exists s', recv_chunks env0 3 chunks0 state0 = Some ([SOFTBUS_DATA_NOT_ENOUGH; SOFTBUS_OK], s') /\
    evs s' = [EDelTrigger 9 READ_TRIGGER; EOpened 3 9 (zeros 32) false].
Proof.
  eexists. split.
  - rewrite (tdc_framing env0 3 9 head0 (zeros 40) state0 [] [] (zeros (Z.to_nat MAX_DATA_BUF)) conn0 [conn0]
      (zeros 8) reply0 chunks0).
    + vm_compute. reflexivity.
    + reflexivity.
    + constructor.
    + apply length_replicate.
    + constructor; cbn; unfold MAGIC_NUMBER, MODULE_SESSION, FLAG_REPLY; lia.
    + reflexivity.
    + reflexivity.
    + reflexivity.
    + unfold MAX_DATA_BUF, DC_MSG_PACKET_HEAD_SIZE. cbn. lia.
    + reflexivity.
    + reflexivity.
    + constructor; reflexivity.
    + reflexivity.
    + constructor; [|constructor; [|constructor]]; discriminate.
  - reflexivity.
Defined.

End TdcMessage.
