(* ===== verification/TdcListener.v ===== *)
(** * TCP direct channels: socket events and the life cycle of a channel

    core/transmission/trans_channel/tcp_direct/src/trans_tcp_direct_listener.c,
    and the component as a state machine: the events of the listener, the
    opening of a channel, the timer and the death of an application. *)

From S2P Require Import Prelude OpenChannelMsg TdcState TdcMessage.

Module TdcListener.
Import OpenChannelMsg TdcState TdcMessage.
#[local] Open Scope tdc_scope.

(** [SOFTBUS_SOCKET_*] *)
Definition SOFTBUS_SOCKET_OUT : Z := 0.
Definition SOFTBUS_SOCKET_IN : Z := 1.
Definition SOFTBUS_SOCKET_EXCEPTION : Z := 2.

Definition StartVerifySession (e : Env) (c : SessionConn) : M Z :=
  let* q := TransTdcGetNewSeqId in
  match SoftBusGenerateSessionKey e with
  | None => ret SOFTBUS_ERR
  | Some k =>
      SetSessionKeyByChanId (channelId c) k ;;
      match PackRequest (json_create e) (json_mem e) (cJSON_PrintUnformatted e) (base64_encode e)
              (app_set_key (appInfo c) k) with
      | None => ret SOFTBUS_ERR
      | Some bytes =>
          let* r := TransTdcPostBytes e (channelId c)
                      (mkHead MAGIC_NUMBER MODULE_SESSION q FLAG_REQUEST
                         (u32 (Z.of_nat (length bytes) + OVERHEAD_LEN + MESSAGE_INDEX_SIZE))) bytes in
          if negb (r =? SOFTBUS_OK) then ret SOFTBUS_ERR else ret SOFTBUS_OK
      end
  end.

Definition CreateSessionConnNode (e : Env) (fd chanId : Z) (i : string) : M Z :=
  if negb (alloc_conn e) then ret SOFTBUS_MALLOC_ERR
  else
    match LnnGetLocalUuid e with
    | None => ret SOFTBUS_ERR
    | Some my =>
        match AuthGetUuidByOption e i with
        | None => ret SOFTBUS_ERR
        | Some peer =>
            let c := mkConn true chanId
                       (mkApp "" (zeros (Z.to_nat SESSION_KEY_LENGTH)) 0 fd (mkData API_V2 my "" "" 0 0 "" "" 0)
                          (mkData 0 peer "" "" 0 0 "" i 0))
                       TCP_DIRECT_CHANNEL_STATUS_CONNECTING 0 in
            let* r := TransTdcAddSessionConn c in
            if negb (r =? SOFTBUS_OK) then ret SOFTBUS_ERR
            else if negb (AddTrigger e fd READ_TRIGGER =? SOFTBUS_OK) then
              TransDelSessionConnById chanId ;; ret SOFTBUS_ERR
            else emit (EAddTrigger fd READ_TRIGGER) ;; ret SOFTBUS_OK
        end
    end.

Definition OnConnectEvent (e : Env) (events cfd : Z) (i : option string) : M Z :=
  if events =? SOFTBUS_SOCKET_EXCEPTION then ret SOFTBUS_ERR
  else
    match i with
    | None => ret SOFTBUS_INVALID_PARAM
    | Some i =>
        if cfd <? 0 then ret SOFTBUS_INVALID_PARAM
        else
          let* id := GenerateTdcChannelId (lock e) in
          let* r := TransSrvAddDataBufNode (alloc_node e) (alloc_buf e) id cfd in
          if negb (r =? SOFTBUS_OK) then TcpShutDown cfd ;; ret r
          else
            let* r := CreateSessionConnNode e cfd id i in
            if negb (r =? SOFTBUS_OK) then
              TransSrvDelDataBufNode id ;; TcpShutDown cfd ;; ret r
            else ret SOFTBUS_OK
    end.

Definition CloseTcpDirectFd (fd : Z) : M unit := if fd >=? 0 then emit (EClose fd) else ret tt.

Definition TransProcDataRes (e : Env) (r id fd : Z) : M unit :=
  (if negb (r =? SOFTBUS_OK) then
     DelTrigger fd READ_TRIGGER ;; TcpShutDown fd ;;
     let* _ := NotifyChannelOpenFailed e id in ret tt
   else CloseTcpDirectFd fd) ;;
  TransDelSessionConnById id ;;
  TransSrvDelDataBufNode id.

(** The allocation of the copy of the connection; [e] the rest. *)
Definition OnDataEvent (alloc : bool) (e : Env) (events fd : Z) : M Z :=
  if negb alloc then ret SOFTBUS_ERR
  else
    let* c := GetSessionConnByFd fd in
    match c with
    | None =>
        DelTrigger fd READ_TRIGGER ;; DelTrigger fd WRITE_TRIGGER ;; DelTrigger fd EXCEPT_TRIGGER ;;
        TcpShutDown fd ;; ret SOFTBUS_ERR
    | Some c =>
        if events =? SOFTBUS_SOCKET_IN then
          let* r := TransTdcSrvRecvData e (channelId c) in
          if r =? SOFTBUS_DATA_NOT_ENOUGH then ret SOFTBUS_OK
          else TransProcDataRes e r (channelId c) fd ;; ret r
        else if events =? SOFTBUS_SOCKET_OUT then
          if serverSide c then ret SOFTBUS_ERR
          else
            DelTrigger fd WRITE_TRIGGER ;;
            emit (EAddTrigger fd READ_TRIGGER) ;;
            let* r := StartVerifySession e c in
            if negb (r =? SOFTBUS_OK) then
              DelTrigger fd READ_TRIGGER ;; TcpShutDown fd ;;
              let* _ := NotifyChannelOpenFailed e (channelId c) in
              TransDelSessionConnById (channelId c) ;;
              TransSrvDelDataBufNode (channelId c) ;;
              ret r
            else ret r
        else if events =? SOFTBUS_SOCKET_EXCEPTION then
          DelTrigger fd EXCEPT_TRIGGER ;; TcpShutDown fd ;;
          TransDelSessionConnById (channelId c) ;;
          TransSrvDelDataBufNode (channelId c) ;;
          ret SOFTBUS_ERR
        else ret SOFTBUS_ERR
    end.

(** ** The component as a state machine *)

Inductive Op :=
  | OpOpen (a : AppInfo) (i : string) (p : Z)
  | OpConnect (events cfd : Z) (i : option string)
  | OpData (alloc : bool) (events fd : Z)
  | OpTimer
  | OpDeath (name : string).

Definition run_op (e : Env) (op : Op) : M unit :=
  match op with
  | OpOpen a i p => let* _ := TransOpenTcpDirectChannel e a i p in ret tt
  | OpConnect ev cfd i => let* _ := OnConnectEvent e ev cfd i in ret tt
  | OpData alloc ev fd => let* _ := OnDataEvent alloc e ev fd in ret tt
  | OpTimer => TransTdcTimerProc e
  | OpDeath name => TransTdcDeathCallback e name
  end.

(** What the component relies on: locks do not fail, a receive stays within
    the length it was given, the cipher adds 32 bytes and decryption removes
    them, and a printed text is shorter than 2 GiB. *)
Record env_ok (e : Env) : Prop := {
  lock_ok : lock e = true;
  recv_len : forall fd n bs, RecvTcpData e fd n = Some bs -> Z.of_nat (length bs) <= n;
  encrypt_len : forall i p m side c, AuthEncrypt e i p m = Some (side, c) ->
    Z.of_nat (length c) = Z.of_nat (length m) + SESSION_KEY_INDEX_SIZE + OVERHEAD_LEN;
  decrypt_len : forall i p c m, AuthDecrypt e i p c = Some m ->
    Z.of_nat (length m) + SESSION_KEY_INDEX_SIZE + OVERHEAD_LEN <= Z.of_nat (length c);
  print_len : forall j t, cJSON_PrintUnformatted e j = Some t -> Z.of_nat (length t) <= INT32_MAX }.

(** One operation, while the channel ids have not wrapped. *)
Inductive step : tdc -> tdc -> Prop :=
  | step_op e op s s' : env_ok e -> g_tdcChannelId s < INT32_MAX ->
      run_op e op s = Some (tt, s') -> step s s'.

(** After [TransSrvDataListInit] and [TransTdcStartSessionListener]. *)
Definition init : tdc := mkTdc (Some []) (Some []) 0 0 [].

(** ** The invariant *)

Definition buf_ok (b : ServerDataBuf) : Prop :=
  b_size b = MAX_DATA_BUF /\ length (b_data b) = Z.to_nat MAX_DATA_BUF /\ 0 <= b_w b <= MAX_DATA_BUF.

(** [c] has a receive buffer for its socket in [bl]. *)
Definition has_buf (bl : list ServerDataBuf) (c : SessionConn) : Prop :=
  exists b, b ∈ bl /\ b_channelId b = channelId c /\ b_fd b = a_fd (appInfo c).

Record inv (s : tdc) (bl : list ServerDataBuf) (cl : list SessionConn) : Prop := {
  inv_bufs : g_tcpSrvDataList s = Some bl;
  inv_conns : g_sessionConnList s = Some cl;
  inv_buf_ok : Forall buf_ok bl;
  inv_buf_ids : NoDup (b_channelId <$> bl);
  inv_conn_ids : NoDup (channelId <$> cl);
  inv_has_buf : Forall (has_buf bl) cl;
  inv_range : Forall (fun b => b_channelId b < g_tdcChannelId s) bl;
  inv_next : 0 <= g_tdcChannelId s }.

(** [m] does not fault and keeps the invariant. *)
Definition safe {A} (m : M A) : Prop :=
  forall s bl cl, inv s bl cl -> exists a s' bl' cl', m s = Some (a, s') /\ inv s' bl' cl'.

Create HintDb tdc discriminated.

Lemma safe_ret {A} (a : A) : safe (ret a).
Proof. intros s bl cl H. by exists a, s, bl, cl. Qed.

Lemma safe_bind {A B} (m : M A) (k : A -> M B) : safe m -> (forall a, safe (k a)) -> safe (bind m k).
Proof.
  intros Hm Hk s bl cl H. destruct (Hm s bl cl H) as (a & s' & bl' & cl' & E & H').
  unfold bind. rewrite E. by apply (Hk a s' bl' cl').
Qed.

Lemma safe_emit e : safe (emit e).
Proof. intros s bl cl []. eexists _, _, bl, cl. split; [reflexivity|]. by constructor. Qed.

Lemma safe_if {A} (b : bool) (m n : M A) : safe m -> safe n -> safe (if b then m else n).
Proof. by destruct b. Qed.

Lemma safe_get_by_id id : safe (GetSessionConnById id).
Proof.
  intros s bl cl H. unfold GetSessionConnById, bind, gets. rewrite (inv_conns _ _ _ H).
  by eexists _, _, _, _.
Qed.
#[export] Hint Resolve safe_ret safe_bind safe_emit safe_if safe_get_by_id : tdc.

Lemma safe_shutdown fd : safe (TcpShutDown fd).
Proof. unfold TcpShutDown. auto with tdc. Qed.
Lemma safe_deltrigger fd t : safe (DelTrigger fd t).
Proof. apply safe_emit. Qed.
#[export] Hint Resolve safe_shutdown safe_deltrigger : tdc.

(** ** Lists *)

Lemma upd_first_Some {A} (p : A -> bool) f l l' : upd_first p f l = Some l' ->
  exists l1 x l2, l = l1 ++ x :: l2 /\ p x = true /\ l' = l1 ++ f x :: l2.
Proof.
  revert l'. induction l as [|y l IH]; intros l' H; [done|]. simpl in H. destruct (p y) eqn:E.
  - injection H as <-. by exists [], y, l.
  - destruct (upd_first p f l) as [l0|]; [|done]. injection H as <-.
    destruct (IH _ eq_refl) as (l1 & x & l2 & -> & Hx & ->). by exists (y :: l1), x, l2.
Qed.

Lemma find_upd_first {A} (p : A -> bool) f l x : List.find p l = Some x ->
  exists l1 l2, l = l1 ++ x :: l2 /\ p x = true /\ upd_first p f l = Some (l1 ++ f x :: l2).
Proof.
  induction l as [|y l IH]; intros H; [done|]. simpl in H |- *. destruct (p y) eqn:E.
  - injection H as ->. by exists [], l.
  - destruct (IH H) as (l1 & l2 & -> & Hx & ->). by exists (y :: l1), l2.
Qed.

Lemma find_elem {A} (p : A -> bool) l x : List.find p l = Some x -> x ∈ l /\ p x = true.
Proof. intros H. apply List.find_some in H as [H1 H2]. by rewrite list_elem_of_In. Qed.

Lemma del_first_sublist {A} (p : A -> bool) l : sublist (del_first p l) l.
Proof. induction l as [|x l IH]; simpl; [done|]. destruct (p x); by constructor. Qed.

Lemma del_first_gone {A} (f : A -> Z) id l : NoDup (f <$> l) ->
  id ∉ (f <$> del_first (fun x => f x =? id) l).
Proof.
  induction l as [|x l IH]; simpl; [set_solver|]. rewrite NoDup_cons. intros [Hx Hl].
  destruct (f x =? id) eqn:E.
  - by replace id with (f x) by lia.
  - rewrite fmap_cons, not_elem_of_cons. split; [lia|auto].
Qed.

Lemma del_first_other {A} (f : A -> Z) id l x : x ∈ l -> f x <> id ->
  x ∈ del_first (fun x => f x =? id) l.
Proof.
  induction l as [|y l IH]; simpl; intros Hx Hn; [done|]. apply elem_of_cons in Hx as [->|Hx].
  - replace (f y =? id) with false by lia. by left.
  - destruct (f y =? id); [done|]. right. auto.
Qed.

Lemma Forall_sublist {A} (P : A -> Prop) l k : sublist l k -> Forall P k -> Forall P l.
Proof. rewrite !Forall_forall. intros H Hk x Hx. apply Hk. by apply (elem_of_sublist l k). Qed.

Lemma NoDup_fmap_sublist {A} (f : A -> Z) l k : sublist l k -> NoDup (f <$> k) -> NoDup (f <$> l).
Proof. intros H Hk. apply (sublist_NoDup _ _ Hk). by apply fmap_sublist. Qed.

(** ** The invariant under the registry operations *)

Lemma inv_set_conn s bl l1 c c' l2 : inv s bl (l1 ++ c :: l2) ->
  channelId c' = channelId c -> a_fd (appInfo c') = a_fd (appInfo c) ->
  inv (mkTdc (g_tcpSrvDataList s) (Some (l1 ++ c' :: l2)) (g_tdcChannelId s) (g_seq s) (evs s)) bl
    (l1 ++ c' :: l2).
Proof.
  intros [H1 H2 H3 H4 H5 H6 H7 H8] Hid Hfd. constructor; try done.
  - rewrite fmap_app, fmap_cons in *. by rewrite Hid.
  - rewrite Forall_app, Forall_cons in *. destruct H6 as (Ha & (b & Hb) & Hc). split; [done|].
    split; [|done]. exists b. by rewrite Hid, Hfd.
Qed.

Lemma inv_set_buf s l1 b b' l2 cl : inv s (l1 ++ b :: l2) cl ->
  b_channelId b' = b_channelId b -> b_fd b' = b_fd b -> buf_ok b' ->
  inv (mkTdc (Some (l1 ++ b' :: l2)) (g_sessionConnList s) (g_tdcChannelId s) (g_seq s) (evs s))
    (l1 ++ b' :: l2) cl.
Proof.
  intros [H1 H2 H3 H4 H5 H6 H7 H8] Hid Hfd Hok. constructor; try done.
  - rewrite Forall_app, Forall_cons in *. tauto.
  - rewrite fmap_app, fmap_cons in *. by rewrite Hid.
  - eapply Forall_impl; [exact H6|]. intros c (x & Hx & E1 & E2).
    apply elem_of_app in Hx as [Hx|Hx]; [exists x; split; [apply elem_of_app; by left|done]|].
    apply elem_of_cons in Hx as [->|Hx].
    + exists b'. rewrite Hid, Hfd. split; [|done]. apply elem_of_app. right. left.
    + exists x. split; [|done]. apply elem_of_app. right. by right.
  - cbn. rewrite Forall_app, Forall_cons in *. rewrite Hid. done.
Qed.

Lemma safe_update_conn id f :
  (forall c, channelId (f c) = channelId c) -> (forall c, a_fd (appInfo (f c)) = a_fd (appInfo c)) ->
  safe (update_conn id f).
Proof.
  intros Hid Hfd s bl cl H. unfold update_conn, bind, gets. rewrite (inv_conns _ _ _ H).
  destruct (upd_first _ f cl) as [l'|] eqn:E; [|by eexists _, _, _, _].
  apply upd_first_Some in E as (l1 & c & l2 & -> & _ & ->).
  eexists _, _, _, _. split; [reflexivity|]. by apply inv_set_conn with (c := c).
Qed.

Lemma safe_set_status id st : safe (SetSessionConnStatusById id st).
Proof. by apply safe_update_conn. Qed.
Lemma safe_set_key id k : safe (SetSessionKeyByChanId id k).
Proof. apply safe_bind; [by apply safe_update_conn|intros; apply safe_ret]. Qed.
#[export] Hint Resolve safe_set_status safe_set_key : tdc.

(** A channel is dropped: its connection, then its buffer. *)
Definition drop_channel (id : Z) : M unit := TransDelSessionConnById id ;; TransSrvDelDataBufNode id.

Lemma inv_del_conn s bl cl id : inv s bl cl ->
  inv (mkTdc (g_tcpSrvDataList s) (Some (del_first (fun c => channelId c =? id) cl))
         (g_tdcChannelId s) (g_seq s) (evs s)) bl (del_first (fun c => channelId c =? id) cl).
Proof.
  intros [H1 H2 H3 H4 H5 H6 H7 H8]. pose proof (del_first_sublist (fun c => channelId c =? id) cl) as Hs.
  constructor; try done; [by eapply NoDup_fmap_sublist|by eapply Forall_sublist].
Qed.

Lemma inv_del_buf s bl cl id : inv s bl cl -> (id ∉ (channelId <$> cl)) ->
  inv (mkTdc (Some (del_first (fun b => b_channelId b =? id) bl)) (g_sessionConnList s)
         (g_tdcChannelId s) (g_seq s) (evs s)) (del_first (fun b => b_channelId b =? id) bl) cl.
Proof.
  intros [H1 H2 H3 H4 H5 H6 H7 H8] Hn.
  pose proof (del_first_sublist (fun b => b_channelId b =? id) bl) as Hs.
  constructor; try done; [by eapply Forall_sublist|by eapply NoDup_fmap_sublist| |by eapply Forall_sublist].
  rewrite Forall_forall in *. intros c Hc. destruct (H6 c Hc) as (b & Hb & E1 & E2). exists b.
  split; [|done]. apply del_first_other; [done|]. rewrite E1. intros <-. apply Hn.
  by apply list_elem_of_fmap_2.
Qed.

Lemma safe_drop_channel id : safe (drop_channel id).
Proof.
  intros s bl cl H. unfold drop_channel, TransDelSessionConnById, TransSrvDelDataBufNode, bind, gets.
  rewrite (inv_conns _ _ _ H). cbn. rewrite (inv_bufs _ _ _ H). eexists _, _, _, _. split; [reflexivity|].
  pose proof (inv_del_conn s bl cl id H) as H'.
  refine (inv_del_buf _ _ _ id H' _). apply del_first_gone. by destruct H.
Qed.

Lemma safe_drop_then {A} id (k : M A) : safe k ->
  safe (TransDelSessionConnById id ;; TransSrvDelDataBufNode id ;; k).
Proof.
  intros Hk s bl cl H. destruct (safe_drop_channel id s bl cl H) as (u & s' & bl' & cl' & E & H').
  unfold drop_channel, bind in E |- *. destruct (TransDelSessionConnById id s) as [[v s1]|]; [|done].
  rewrite E. by eapply Hk.
Qed.

(** ** Sending and the handshake are safe *)

Lemma safe_open_failed e id : safe (TransTdcOnChannelOpenFailed e id).
Proof. unfold TransTdcOnChannelOpenFailed. auto with tdc. Qed.
#[export] Hint Resolve safe_open_failed : tdc.

(** Split a goal about the matches of an operation. *)
Ltac safe_step :=
  match goal with
  | |- safe (bind _ _) => apply safe_bind; [|intros ?]
  | |- safe (if ?b then fail else _) => destruct b eqn:?; [exfalso|]
  | |- safe (if _ then _ else _) => apply safe_if
  | |- safe (match ?x with _ => _ end) => destruct x eqn:?
  | |- safe _ => solve [auto with tdc]
  end.

Lemma safe_post_bytes e id m q f data : env_ok e -> Z.of_nat (length data) <= INT32_MAX ->
  safe (TransTdcPostBytes e id
    (mkHead MAGIC_NUMBER m q f (u32 (Z.of_nat (length data) + OVERHEAD_LEN + MESSAGE_INDEX_SIZE))) data).
Proof.
  intros He Hd. unfold TransTdcPostBytes, PackBytes, OVERHEAD_LEN, MESSAGE_INDEX_SIZE in *.
  cbn [dataLen flags]. rewrite (u32_small (_ + 28 + 4)) by lia.
  unfold SESSION_KEY_INDEX_SIZE. rewrite (u32_small (_ - 4 - 28)) by lia.
  replace (_ + 28 + 4 - 4 - 28) with (Z.of_nat (length data)) by lia.
  rewrite Z.ltb_irrefl, Nat2Z.id, take_ge by lia.
  repeat safe_step. match goal with H : AuthEncrypt _ _ _ _ = Some _ |- _ => apply (encrypt_len _ He) in H as Hc end.
  unfold SESSION_KEY_INDEX_SIZE, OVERHEAD_LEN in Hc.
  match goal with H : negb _ = true |- _ => apply negb_true_iff, Z.eqb_neq in H; lia end.
Qed.

Lemma safe_notify_opened e id : safe (NotifyChannelOpened e id).
Proof. unfold NotifyChannelOpened. repeat safe_step. Qed.
Lemma safe_notify_open_failed e id : safe (NotifyChannelOpenFailed e id).
Proof. unfold NotifyChannelOpenFailed. repeat safe_step. Qed.
#[export] Hint Resolve safe_notify_opened safe_notify_open_failed : tdc.

Lemma unpack_reply_fd j a a' : UnpackReply j a = Some a' -> a_fd a' = a_fd a.
Proof.
  unfold UnpackReply. intros H. repeat case_match; simplify_eq; done.
Qed.

Lemma unpack_request_fd dec j a a' : UnpackRequest dec j a = Some a' -> a_fd a' = a_fd a.
Proof.
  unfold UnpackRequest. intros H. repeat case_match; simplify_eq; done.
Qed.

(** The information of a connection is replaced by one with the same socket. *)
Lemma run_set_app {A} id a (k : Z -> M A) s bl cl c : inv s bl cl ->
  List.find (fun c => channelId c =? id) cl = Some c -> a_fd a = a_fd (appInfo c) ->
  (forall r, safe (k r)) ->
  exists x s' bl' cl', bind (SetAppInfoById id a) k s = Some (x, s') /\ inv s' bl' cl'.
Proof.
  intros H Ec Ea Hk. destruct (find_upd_first _ (fun c => set_appInfo c a) _ _ Ec) as (l1 & l2 & -> & _ & Eu).
  unfold bind, SetAppInfoById, update_conn, bind, gets. rewrite (inv_conns _ _ _ H), Eu. cbn.
  eapply Hk. by apply inv_set_conn with (c := c).
Qed.

(** The continuation of a lookup runs in the state it was made in. *)
Lemma run_get {A} id (k : option SessionConn -> M A) s bl cl : inv s bl cl ->
  bind (GetSessionConnById id) k s = k (List.find (fun c => channelId c =? id) cl) s.
Proof. intros H. unfold bind, GetSessionConnById, bind, gets. by rewrite (inv_conns _ _ _ H). Qed.

Lemma safe_reply e id j : safe (OpenDataBusReply e id j).
Proof.
  intros s bl cl H. unfold OpenDataBusReply. rewrite (run_get _ _ _ _ _ H).
  destruct (List.find _ cl) as [c|] eqn:Ec; [|by eapply safe_ret].
  destruct (UnpackReply j (appInfo c)) as [a|] eqn:Ea; [|by eapply safe_ret].
  apply (run_set_app _ _ _ _ _ _ _ H Ec); [by eapply unpack_reply_fd|]. intros r. repeat safe_step.
Qed.

Lemma packed_len e j t : env_ok e -> print_object (cJSON_PrintUnformatted e) j = Some t ->
  Z.of_nat (length t) <= INT32_MAX.
Proof. intros He. destruct j as [j|]; [|done]. apply (print_len _ He). Qed.

Lemma safe_request_reply e a id q err : env_ok e -> safe (OpenDataBusRequestReply e a id q err).
Proof.
  intros He. unfold OpenDataBusRequestReply.
  destruct (if negb _ then _ else _) as [t|] eqn:E; [|apply safe_ret].
  apply safe_post_bytes; [done|]. destruct (negb _); by eapply packed_len.
Qed.

Lemma safe_request e id q j : env_ok e -> safe (OpenDataBusRequest e id q j).
Proof.
  intros He s bl cl H. unfold OpenDataBusRequest. destruct (alloc_conn e); cbn [negb]; [|by eapply safe_ret].
  rewrite (run_get _ _ _ _ _ H).
  destruct (List.find _ cl) as [c|] eqn:Ec; [|by eapply safe_ret].
  destruct (UnpackRequest _ j (appInfo c)) as [a|] eqn:Ea; [|by eapply safe_ret].
  destruct (GetUidAndPidBySessionName e _) as [[u p]|]; [|by eapply safe_ret].
  apply (run_set_app _ _ _ _ _ _ _ H Ec); [by apply (unpack_request_fd _ _ _ _ Ea)|]. intros r.
  pose proof (fun a err => safe_request_reply e a id q err He). repeat safe_step.
Qed.

Lemma safe_process_message e id fl q j : env_ok e -> safe (ProcessMessage e id fl q j).
Proof.
  intros He. unfold ProcessMessage. apply safe_if; [apply safe_reply|by apply safe_request].
Qed.

(** ** Receiving is safe *)

Lemma le_val_range (bs : list byte) : 0 <= le_val bs.
Proof. unfold le_val. apply LittleEndianList.le_combine_bound. Qed.

Lemma run_get_buf {A} id (k : option ServerDataBuf -> M A) s bl cl : inv s bl cl ->
  bind (TransSrvGetDataBufNodeById id) k s = k (List.find (fun b => b_channelId b =? id) bl) s.
Proof. intros H. unfold bind, TransSrvGetDataBufNodeById, bind, gets. by rewrite (inv_bufs _ _ _ H). Qed.

(** The buffer found is replaced by a well-formed one of the same channel. *)
Lemma run_write_node id f s bl cl b : inv s bl cl ->
  List.find (fun b => b_channelId b =? id) bl = Some b ->
  b_channelId (f b) = b_channelId b -> b_fd (f b) = b_fd b -> buf_ok (f b) ->
  exists s' bl', write_node id f s = Some (tt, s') /\ inv s' bl' cl /\
    List.find (fun b => b_channelId b =? id) bl' = Some (f b) /\ evs s' = evs s.
Proof.
  intros H Eb H1 H2 H3. unfold write_node, bind, gets. rewrite (inv_bufs _ _ _ H).
  destruct (find_upd_first _ f _ _ Eb) as (l1 & l2 & E & Hb & ->).
  eexists _, (l1 ++ f b :: l2). split; [reflexivity|]. subst bl. split; [by apply inv_set_buf with (b := b)|].
  split; [|done]. apply find_mid; [|by rewrite H1].
  pose proof (inv_buf_ids _ _ _ H) as Hd. rewrite fmap_app, NoDup_app in Hd. destruct Hd as (_ & Hd & _).
  apply Forall_forall. intros x Hx. apply Z.eqb_neq. intros Ex. apply (Hd (b_channelId x)).
  - by apply list_elem_of_fmap_2.
  - rewrite fmap_cons. replace (b_channelId x) with (b_channelId b) by (apply Z.eqb_eq in Hb; lia). left.
Qed.

Lemma found_ok bl b id : Forall buf_ok bl -> List.find (fun b => b_channelId b =? id) bl = Some b -> buf_ok b.
Proof. intros H E. apply find_elem in E as [E _]. rewrite Forall_forall in H. auto. Qed.

(** A received packet is inside the buffer. *)
Definition framed (b : ServerDataBuf) : Prop :=
  DC_MSG_PACKET_HEAD_SIZE + dataLen (read_head (b_data b)) <= b_w b.

Lemma run_process e id s bl cl b : env_ok e -> inv s bl cl ->
  List.find (fun b => b_channelId b =? id) bl = Some b -> framed b ->
  exists r s' bl' cl', ProcessReceivedData e id s = Some (r, s') /\ inv s' bl' cl'.
Proof.
  intros He H Eb Hf. pose proof (found_ok _ _ _ (inv_buf_ok _ _ _ H) Eb) as (Hs & Hl & Hw).
  unfold ProcessReceivedData. rewrite (run_get_buf _ _ _ _ _ H), Eb. unfold GetPktHeadInfoByDatabuf.
  set (h := read_head (b_data b)) in *.
  destruct (module h =? MODULE_SESSION); cbn [negb]; [|by eapply safe_ret].
  destruct (alloc_out e); cbn [negb]; [|by eapply safe_ret].
  unfold framed in Hf. fold h in Hf. unfold DC_MSG_PACKET_HEAD_SIZE, MAX_DATA_BUF in *.
  assert (0 <= dataLen h) by apply le_val_range.
  replace (Z.of_nat (length (b_data b)) <? 24 + dataLen h) with false by bool_lia.
  unfold DecryptMessage. unfold bind at 1. rewrite (run_get _ _ _ _ _ H).
  destruct (List.find _ cl) as [c|]; [|by eapply safe_ret].
  destruct (AuthDecrypt e _ _ _) as [m|] eqn:Em; [|by eapply safe_ret]. apply (decrypt_len _ He) in Em.
  unfold SESSION_KEY_INDEX_SIZE, OVERHEAD_LEN, slice in *. rewrite length_take, length_drop in Em.
  unfold ret at 1. cbn [fst snd]. rewrite Z.eqb_refl. cbn [negb]. unfold shift_down.
  replace (b_w b - (24 + dataLen h) <? 0) with false by lia.
  set (d' := splice 0 _ _). assert (length d' = 4096%nat) as Hd'.
  { unfold d'. rewrite length_splice; [done|]. unfold slice. rewrite length_take, length_drop. lia. }
  destruct (run_write_node id (fun b => mkBuf (b_channelId b) (b_fd b) (b_size b) d' (b_w b - (24 + dataLen h)))
    s bl cl b H Eb) as (s' & bl' & E & Hi & _); [done|done| |].
  { unfold buf_ok, MAX_DATA_BUF. cbn [b_size b_data b_w]. lia. }
  unfold bind at 1. rewrite E. rewrite u32_small by lia.
  replace (dataLen h - 4 - 28 + 1 <=? Z.of_nat (length m)) with false by bool_lia.
  destruct (cJSON_Parse e m); [|by eapply safe_ret]. by eapply safe_process_message.
Qed.

Lemma safe_proc_data e id : env_ok e -> safe (TransTdcSrvProcData e id).
Proof.
  intros He s bl cl H. unfold TransTdcSrvProcData. rewrite (run_get_buf _ _ _ _ _ H).
  destruct (List.find _ bl) as [b|] eqn:Eb; [|by eapply safe_ret].
  pose proof (found_ok _ _ _ (inv_buf_ok _ _ _ H) Eb) as (Hs & Hl & Hw).
  unfold MAX_DATA_BUF, DC_MSG_PACKET_HEAD_SIZE in *.
  rewrite Hs, (u32_small (b_w b)), (u32_small (4096 - 24)) by lia.
  destruct (b_w b <? 24); [by eapply safe_ret|].
  destruct (magicNumber _ =? MAGIC_NUMBER); cbn [negb]; [|by eapply safe_ret].
  assert (0 <= dataLen (read_head (b_data b))) by apply le_val_range.
  destruct (dataLen _ >? 4096 - 24) eqn:E1; [by eapply safe_ret|].
  rewrite Z.gtb_ltb in E1. apply Z.ltb_ge in E1. rewrite u32_small by lia.
  destruct (Z.ltb_spec (b_w b) (dataLen (read_head (b_data b)) + 24)) as [|E2]; [by eapply safe_ret|].
  destruct (safe_emit (EDelTrigger (b_fd b) READ_TRIGGER) s bl cl H) as (u & s' & bl' & cl' & E & H').
  unfold bind, DelTrigger. rewrite E. injection E as _ <-.
  assert (bl' = bl) as -> by (pose proof (inv_bufs _ _ _ H'); pose proof (inv_bufs _ _ _ H); cbn in *; congruence).
  apply (run_process e id _ bl cl' b); try done. unfold framed, DC_MSG_PACKET_HEAD_SIZE. lia.
Qed.

Lemma safe_recv_data e id : env_ok e -> safe (TransTdcSrvRecvData e id).
Proof.
  intros He s bl cl H. unfold TransTdcSrvRecvData. unfold bind at 1, gets at 1. rewrite (inv_bufs _ _ _ H).
  rewrite (run_get_buf _ _ _ _ _ H). destruct (List.find _ bl) as [b|] eqn:Eb; [|by eapply safe_ret].
  pose proof (found_ok _ _ _ (inv_buf_ok _ _ _ H) Eb) as (Hs & Hl & Hw).
  destruct (RecvTcpData e _ _) as [bs|] eqn:Er; [|by eapply safe_ret]. apply (recv_len _ He) in Er.
  unfold MAX_DATA_BUF in *.
  replace (Z.of_nat (length (b_data b)) <? _) with false by bool_lia.
  unfold bind at 1.
  destruct (run_write_node id (fun b => mkBuf (b_channelId b) (b_fd b) (b_size b)
      (splice (Z.to_nat (b_w b)) bs (b_data b)) (b_w b + Z.of_nat (length bs))) s bl cl b H Eb)
    as (s' & bl' & E & Hi & _); [done|done| |].
  { unfold buf_ok, MAX_DATA_BUF. cbn [b_size b_data b_w]. rewrite length_splice by lia. lia. }
  rewrite E. by eapply safe_proc_data.
Qed.

(** ** Opening channels *)

(** A fresh channel: the id and the buffer of a new connection. *)
Lemma run_new_buffer (node_ok buf_ok' : bool) fd s bl cl : inv s bl cl -> g_tdcChannelId s < INT32_MAX ->
  exists id s', GenerateTdcChannelId true s = Some (id, s') /\ (id ∉ (channelId <$> cl)) /\
    inv s' bl cl /\
    exists r s'' bl', TransSrvAddDataBufNode node_ok buf_ok' id fd s' = Some (r, s'') /\ inv s'' bl' cl /\
      (r = SOFTBUS_OK -> exists b, b ∈ bl' /\ b_channelId b = id /\ b_fd b = fd).
Proof.
  intros [H1 H2 H3 H4 H5 H6 H7 H8] Hlt.
  assert (inv (mkTdc (g_tcpSrvDataList s) (g_sessionConnList s) (g_tdcChannelId s + 1) (g_seq s) (evs s)) bl cl)
    as Hi.
  { constructor; try done; cbn; [|lia]. eapply Forall_impl; [exact H7|]. simpl. lia. }
  exists (g_tdcChannelId s). eexists. split.
  { unfold GenerateTdcChannelId. cbn [negb]. rewrite i32_small by lia.
    replace (_ + 1 <? 0) with false by lia. reflexivity. }
  split.
  { intros Hin. apply list_elem_of_fmap in Hin as (c & E & Hc). 
    destruct (proj1 (Forall_forall _ _) H6 c Hc) as (b & Hb & Eb & _).
    pose proof (proj1 (Forall_forall _ _) H7 b Hb) as Hr. cbn in Hr. lia. }
  split; [done|]. unfold TransSrvAddDataBufNode.
  destruct node_ok, buf_ok'; cbn [negb]; try (eexists _, _, bl; split; [reflexivity|split; done]).
  unfold bind, gets. cbn [g_tcpSrvDataList]. rewrite H1.
  set (b := mkBuf _ _ _ _ _). eexists _, _, (bl ++ [b]). split; [reflexivity|]. split.
  - constructor; try done; cbn.
    + apply Forall_app. split; [done|]. repeat constructor; cbn; unfold MAX_DATA_BUF; lia.
    + rewrite fmap_app. apply NoDup_app. split; [done|]. split; [|apply NoDup_singleton].
      intros x Hx Hx'. apply list_elem_of_fmap in Hx as (b' & -> & Hb').
      apply list_elem_of_fmap in Hx' as (y & Ey & Hy). apply list_elem_of_singleton in Hy as ->.
      pose proof (proj1 (Forall_forall _ _) H7 b' Hb') as Hr. cbn in Hr, Ey. lia.
    + eapply Forall_impl; [exact H6|]. intros c (b' & Hb' & E). exists b'. split; [|done].
      apply elem_of_app. by left.
    + apply Forall_app. split; [|repeat constructor; simpl; lia].
      eapply Forall_impl; [exact H7|]. simpl. lia.
    + lia.
  - intros _. exists b. split; [|done]. apply elem_of_app. right. by left.
Qed.

(** A connection is registered behind its buffer. *)
Lemma run_add_conn s bl cl c : inv s bl cl -> (channelId c ∉ (channelId <$> cl)) -> has_buf bl c ->
  exists s', TransTdcAddSessionConn c s = Some (SOFTBUS_OK, s') /\ inv s' bl (cl ++ [c]).
Proof.
  intros [H1 H2 H3 H4 H5 H6 H7 H8] Hn Hb. unfold TransTdcAddSessionConn, bind, gets. rewrite H2.
  eexists. split; [reflexivity|]. constructor; try done; cbn.
  - rewrite fmap_app. apply NoDup_app. split; [done|]. split; [|apply NoDup_singleton].
    intros x Hx Hx'. apply list_elem_of_fmap in Hx' as (y & -> & Hy).
    by apply list_elem_of_singleton in Hy as ->.
  - apply Forall_app. split; [done|]. by constructor.
Qed.

(** A buffer that no connection uses is dropped. *)
Lemma run_del_buf s bl cl id : inv s bl cl -> (id ∉ (channelId <$> cl)) ->
  exists s' bl', TransSrvDelDataBufNode id s = Some (tt, s') /\ inv s' bl' cl.
Proof.
  intros H Hn. unfold TransSrvDelDataBufNode, bind, gets. rewrite (inv_bufs _ _ _ H).
  eexists _, _. split; [reflexivity|]. by apply inv_del_buf.
Qed.

Lemma run_open e a i p s bl cl : env_ok e -> inv s bl cl -> g_tdcChannelId s < INT32_MAX ->
  exists r s' bl' cl', TransOpenTcpDirectChannel e a i p s = Some (r, s') /\ inv s' bl' cl'.
Proof.
  intros He H Hlt. unfold TransOpenTcpDirectChannel, CreateDefaultSession.
  destruct (alloc_conn e); cbn [negb]; [|by eapply safe_ret].
  destruct (OpenConnTcp e i p <? 0); [by eapply safe_ret|]. rewrite (lock_ok _ He).
  destruct (run_new_buffer (alloc_node e) (alloc_buf e) (OpenConnTcp e i p) s bl cl H Hlt)
    as (id & s1 & E1 & Hn & H1 & r & s2 & bl2 & E2 & H2 & Hb).
  unfold bind at 1. rewrite E1. unfold bind at 1. rewrite E2.
  destruct (r =? SOFTBUS_OK) eqn:Er; cbn [negb]; [|by eapply safe_ret].
  apply Z.eqb_eq in Er. destruct (Hb Er) as (b & Hb1 & Hb2 & Hb3).
  set (c := mkConn _ _ _ _ _).
  destruct (run_add_conn s2 bl2 cl c H2) as (s3 & E3 & H3); [done|by exists b|].
  unfold bind at 1. rewrite E3, Z.eqb_refl. cbn [negb].
  destruct (AddTrigger e _ _ =? SOFTBUS_OK); cbn [negb].
  - eapply safe_bind; [apply safe_emit|intros; apply safe_ret|done].
  - by eapply safe_drop_then; [apply safe_ret|].
Qed.

(** The result of [CreateSessionConnNode]: on an error no connection is left
    behind. *)
Lemma run_create_conn e fd id i s bl cl : inv s bl cl -> (id ∉ (channelId <$> cl)) ->
  (exists b, b ∈ bl /\ b_channelId b = id /\ b_fd b = fd) ->
  exists r s' cl', CreateSessionConnNode e fd id i s = Some (r, s') /\ inv s' bl cl' /\
    (r = SOFTBUS_OK \/ (id ∉ (channelId <$> cl'))).
Proof.
  intros H Hn (b & Hb). unfold CreateSessionConnNode.
  assert (forall r, exists r' s' cl', ret r s = Some (r', s') /\ inv s' bl cl' /\
    (r' = SOFTBUS_OK \/ (id ∉ (channelId <$> cl')))) as Herr.
  { intros r. exists r, s, cl. split; [done|]. split; [done|by right]. }
  destruct (alloc_conn e); cbn [negb]; [|apply Herr]. destruct (LnnGetLocalUuid e) as [my|]; [|apply Herr].
  destruct (AuthGetUuidByOption e i) as [peer|]; [|apply Herr]. set (c := mkConn _ _ _ _ _).
  destruct (run_add_conn s bl cl c H) as (s1 & E1 & H1); [done|by exists b|].
  unfold bind at 1. rewrite E1, Z.eqb_refl. cbn [negb].
  destruct (AddTrigger e fd READ_TRIGGER =? SOFTBUS_OK); cbn [negb].
  - eexists _, _, _. split; [reflexivity|]. split; [|by left]. by destruct H1; constructor.
  - unfold TransDelSessionConnById, bind, gets. rewrite (inv_conns _ _ _ H1).
    eexists _, _, _. split; [reflexivity|]. split; [by apply inv_del_conn|right].
    apply del_first_gone. by destruct H1.
Qed.

Lemma run_connect e ev cfd i s bl cl : env_ok e -> inv s bl cl -> g_tdcChannelId s < INT32_MAX ->
  exists r s' bl' cl', OnConnectEvent e ev cfd i s = Some (r, s') /\ inv s' bl' cl'.
Proof.
  intros He H Hlt. unfold OnConnectEvent. destruct (ev =? _); [by eapply safe_ret|].
  destruct i as [i|]; [|by eapply safe_ret]. destruct (cfd <? 0); [by eapply safe_ret|].
  rewrite (lock_ok _ He).
  destruct (run_new_buffer (alloc_node e) (alloc_buf e) cfd s bl cl H Hlt)
    as (id & s1 & E1 & Hn & H1 & r & s2 & bl2 & E2 & H2 & Hb).
  unfold bind at 1. rewrite E1. unfold bind at 1. rewrite E2.
  destruct (r =? SOFTBUS_OK) eqn:Er; cbn [negb].
  2: { eapply safe_bind; [apply safe_shutdown|intros; apply safe_ret|done]. }
  apply Z.eqb_eq in Er.
  destruct (run_create_conn e cfd id i s2 bl2 cl H2 Hn (Hb Er)) as (r' & s3 & cl3 & E3 & H3 & Hr).
  unfold bind at 1. rewrite E3. destruct (r' =? SOFTBUS_OK) eqn:Er'; cbn [negb]; [by eapply safe_ret|].
  destruct Hr as [->|Hr]; [done|]. destruct (run_del_buf s3 bl2 cl3 id H3 Hr) as (s4 & bl4 & E4 & H4).
  unfold bind at 1. rewrite E4. eapply safe_bind; [apply safe_shutdown|intros; apply safe_ret|done].
Qed.

(** ** Socket events *)

Lemma safe_start_verify e c : env_ok e -> safe (StartVerifySession e c).
Proof.
  intros He. unfold StartVerifySession. apply safe_bind.
  { intros s bl cl []. eexists _, _, bl, cl. split; [reflexivity|]. by constructor. }
  intros q. destruct (SoftBusGenerateSessionKey e); [|apply safe_ret].
  apply safe_bind; [apply safe_set_key|intros _].
  destruct (PackRequest _ _ _ _ _) as [t|] eqn:Et; [|apply safe_ret].
  apply safe_bind; [|intros r; repeat safe_step]. apply safe_post_bytes; [done|].
  unfold PackRequest in Et. destruct (negb _); [done|]. destruct (base64_encode e _); [|done].
  by eapply packed_len.
Qed.

Lemma safe_data_event alloc e ev fd : env_ok e -> safe (OnDataEvent alloc e ev fd).
Proof.
  intros He. unfold OnDataEvent. apply safe_if; [apply safe_ret|]. apply safe_bind.
  { intros s bl cl H. unfold GetSessionConnByFd, bind, gets. rewrite (inv_conns _ _ _ H).
    by eexists _, _, _, _. }
  intros [c|]; [|repeat safe_step]. apply safe_if; [|apply safe_if; [apply safe_if|]].
  - apply safe_bind; [by apply safe_recv_data|]. intros r. apply safe_if; [apply safe_ret|].
    apply safe_bind; [|intros; apply safe_ret]. unfold TransProcDataRes, CloseTcpDirectFd.
    apply safe_bind; [repeat safe_step|]. intros _. apply safe_drop_channel.
  - apply safe_ret.
  - apply safe_bind; [auto with tdc|intros _]. apply safe_bind; [auto with tdc|intros _].
    apply safe_bind; [by apply safe_start_verify|]. intros r. apply safe_if; [|apply safe_ret].
    do 3 (apply safe_bind; [auto with tdc|intros _]). apply safe_drop_then, safe_ret.
  - apply safe_if; [|apply safe_ret]. do 2 (apply safe_bind; [auto with tdc|intros _]).
    apply safe_drop_then, safe_ret.
Qed.

(** ** The timer and the death of an application *)

(** [l'] keeps some of the connections of [l], with their ids and sockets. *)
Definition keeps (l' l : list SessionConn) : Prop :=
  sublist (channelId <$> l') (channelId <$> l) /\
  forall c', c' ∈ l' -> exists c, c ∈ l /\ channelId c = channelId c' /\ appInfo c = appInfo c'.

Lemma keeps_cons c c' l' l : keeps l' l -> channelId c' = channelId c -> appInfo c' = appInfo c ->
  keeps (c' :: l') (c :: l).
Proof.
  intros [Hs Hk] Hid Ha. split; [rewrite !fmap_cons, Hid; by constructor|].
  intros x Hx. apply elem_of_cons in Hx as [->|Hx].
  - exists c. split; [left|]. done.
  - destruct (Hk x Hx) as (y & Hy & E). exists y. split; [by right|done].
Qed.

Lemma keeps_skip c l' l : keeps l' l -> keeps l' (c :: l).
Proof.
  intros [Hs Hk]. split; [rewrite fmap_cons; by constructor|].
  intros x Hx. destruct (Hk x Hx) as (y & Hy & E). exists y. split; [by right|done].
Qed.

(** A loop over the connections changes nothing but the events. *)
Definition only_events (s s' : tdc) : Prop :=
  exists ev, s' = mkTdc (g_tcpSrvDataList s) (g_sessionConnList s) (g_tdcChannelId s) (g_seq s) ev.

Lemma only_events_trans s1 s2 s3 : only_events s1 s2 -> only_events s2 s3 -> only_events s1 s3.
Proof. intros [ev ->] [ev' ->]. by exists ev'. Qed.

Lemma only_events_refl s : only_events s s.
Proof. exists (evs s). by destruct s. Qed.

Lemma run_timeout_proc e c s : exists s', OnSesssionTimeOutProc e c s = Some (tt, s') /\ only_events s s'.
Proof.
  unfold OnSesssionTimeOutProc, TransTdcOnChannelOpenFailed, DelTrigger, TcpShutDown, bind, emit, ret.
  destruct (negb _), (_ >=? 0); eexists; (split; [reflexivity|]); try (by eexists); apply only_events_refl.
Qed.

Lemma run_timer_loop e l s :
  exists l' s', timer_loop e l s = Some (l', s') /\ only_events s s' /\ keeps l' l.
Proof.
  revert s. induction l as [|c l IH]; intros s.
  { exists [], s. split; [done|]. split; [apply only_events_refl|]. split; [done|set_solver]. }
  cbn [timer_loop]. destruct (_ && _).
  - destruct (run_timeout_proc e (set_status (mkConn (serverSide c) (channelId c) (appInfo c) (status c)
      (u32 (timeout c + 1))) TCP_DIRECT_CHANNEL_STATUS_TIMEOUT) s) as (s1 & E1 & H1).
    unfold bind. rewrite E1. destruct (IH s1) as (l' & s2 & E2 & H2 & Hk). exists l', s2.
    split; [done|]. split; [by eapply only_events_trans|by apply keeps_skip].
  - unfold bind. destruct (IH s) as (l' & s2 & -> & H2 & Hk). eexists _, s2. split; [reflexivity|].
    split; [done|]. by apply keeps_cons.
Qed.

Lemma run_death_loop name l s :
  exists l' s', death_loop name l s = Some (l', s') /\ only_events s s' /\ keeps l' l.
Proof.
  revert s. induction l as [|c l IH]; intros s.
  { exists [], s. split; [done|]. split; [apply only_events_refl|]. split; [done|set_solver]. }
  cbn [death_loop]. destruct (String.eqb _ _).
  - unfold bind, DelTrigger, emit. set (s1 := mkTdc _ _ _ _ _).
    destruct (IH s1) as (l' & s2 & E2 & H2 & Hk). exists l', s2.
    split; [done|]. split; [eapply only_events_trans; [by eexists|done]|by apply keeps_skip].
  - unfold bind. destruct (IH s) as (l' & s2 & -> & H2 & Hk). eexists _, s2. split; [reflexivity|].
    split; [done|]. by apply keeps_cons.
Qed.

Lemma inv_keeps s s' bl cl cl' : inv s bl cl -> only_events s s' -> keeps cl' cl ->
  inv (mkTdc (g_tcpSrvDataList s') (Some cl') (g_tdcChannelId s') (g_seq s') (evs s')) bl cl'.
Proof.
  intros [H1 H2 H3 H4 H5 H6 H7 H8] [ev ->] [Hs Hk]. constructor; try done.
  - by apply (sublist_NoDup _ _ H5).
  - apply Forall_forall. intros c' Hc'. destruct (Hk c' Hc') as (c & Hc & E1 & E2).
    destruct (proj1 (Forall_forall _ _) H6 c Hc) as (b & Hb & Eb1 & Eb2). exists b.
    by rewrite <- E1, <- E2.
Qed.

Lemma safe_timer e : safe (TransTdcTimerProc e).
Proof.
  intros s bl cl H. unfold TransTdcTimerProc. unfold bind at 1, gets. rewrite (inv_conns _ _ _ H).
  destruct cl as [|c cl]; [by eapply safe_ret|]. destruct (negb (lock e)); [by eapply safe_ret|].
  destruct (run_timer_loop e (c :: cl) s) as (l' & s' & E & Ho & Hk). unfold bind. rewrite E.
  eexists _, _, _, _. split; [reflexivity|]. by eapply inv_keeps.
Qed.

Lemma safe_death e name : safe (TransTdcDeathCallback e name).
Proof.
  intros s bl cl H. unfold TransTdcDeathCallback. unfold bind at 1, gets. rewrite (inv_conns _ _ _ H).
  destruct (negb (lock e)); [by eapply safe_ret|].
  destruct (run_death_loop name cl s) as (l' & s' & E & Ho & Hk). unfold bind. rewrite E.
  eexists _, _, _, _. split; [reflexivity|]. by eapply inv_keeps.
Qed.

(** ** Properties *)

Lemma run_op_safe e op s bl cl : env_ok e -> inv s bl cl -> g_tdcChannelId s < INT32_MAX ->
  exists s' bl' cl', run_op e op s = Some (tt, s') /\ inv s' bl' cl'.
Proof.
  intros He H Hlt. destruct op as [a i p|ev cfd i|alloc ev fd| |name]; cbn [run_op]; unfold bind.
  - destruct (run_open e a i p s bl cl He H Hlt) as (r & s' & bl' & cl' & -> & H'). by eexists _, _, _.
  - destruct (run_connect e ev cfd i s bl cl He H Hlt) as (r & s' & bl' & cl' & -> & H'). by eexists _, _, _.
  - destruct (safe_data_event alloc e ev fd He s bl cl H) as (r & s' & bl' & cl' & -> & H').
    by eexists _, _, _.
  - destruct (safe_timer e s bl cl H) as ([] & s' & bl' & cl' & E & H'). by eexists _, _, _.
  - destruct (safe_death e name s bl cl H) as ([] & s' & bl' & cl' & E & H'). by eexists _, _, _.
Qed.

Lemma inv_init : inv init [] [].
Proof. constructor; try done; try constructor. Qed.

Lemma tdc_reachable_inv s : rtc step init s -> exists bl cl, inv s bl cl.
Proof.
  revert s. apply (rtc_ind_r (R := step) (fun s => exists bl cl, inv s bl cl) init).
  { exists [], []. apply inv_init. }
  intros s s' _ Hs (bl & cl & H). destruct Hs as [e op s s' He Hlt E].
  destruct (run_op_safe e op s bl cl He H Hlt) as (s2 & bl2 & cl2 & E2 & H2). exists bl2, cl2. congruence.
Qed.

(** C25: the life cycle of TCP direct channels is memory-safe.  In every state
    reached by opening channels, socket events with arbitrary received bytes,
    timer ticks and dying applications, before the channel ids wrap, every
    further operation runs without an access outside an object; every
    connection has the receive buffer of its channel, for its socket; the
    channel ids are distinct; and every buffer has its 4096 bytes with the
    write pointer inside. *)
Theorem tdc_life_cycle s : rtc step init s ->
  (exists bl cl, g_tcpSrvDataList s = Some bl /\ g_sessionConnList s = Some cl /\
     Forall buf_ok bl /\ NoDup (b_channelId <$> bl) /\ NoDup (channelId <$> cl) /\
     Forall (has_buf bl) cl) /\
  (forall e op, env_ok e -> g_tdcChannelId s < INT32_MAX -> exists s', run_op e op s = Some (tt, s')).
Proof.
  intros Hr. destruct (tdc_reachable_inv s Hr) as (bl & cl & H). split.
  - exists bl, cl. by destruct H.
  - intros e op He Hlt. destruct (run_op_safe e op s bl cl He H Hlt) as (s' & _ & _ & E & _). eauto.
Qed.

(** ** Deviation *)

Fixpoint ticks (n : nat) (e : Env) : M unit :=
  match n with O => ret tt | S n' => TransTdcTimerProc e ;; ticks n' e end.

(** A channel that times out loses its connection but keeps its buffer. *)
Lemma timeout_keeps_buffer :
  match (let* _ := TransOpenTcpDirectChannel env0 app0 "1.2.3.4" 6000 in
         ticks (Z.to_nat HANDSHAKE_TIMEOUT) env0) init with
  | Some (_, s) => g_sessionConnList s = Some [] /\ option_map (map b_channelId) (g_tcpSrvDataList s) = Some [0]
  | None => False
  end.
Proof. vm_compute. auto. Qed.

(** ** Witness *)

Lemma env0_ok : env_ok env0.
Proof.
  constructor; [done|done|..].
  - intros i p m side c E. assert (c = zeros 32 ++ m) as -> by (cbv [env0 AuthEncrypt] in E; congruence).
    rewrite length_app. unfold zeros. rewrite length_replicate.
    unfold SESSION_KEY_INDEX_SIZE, OVERHEAD_LEN. lia.
  - intros i p c m E. cbv [env0 AuthDecrypt] in E. destruct (Nat.ltb_spec (length c) 32); [done|].
    assert (m = drop 32 c) as -> by congruence.
    rewrite length_drop. unfold SESSION_KEY_INDEX_SIZE, OVERHEAD_LEN. lia.
  - intros j t E. assert (t = zeros 8) as -> by (cbv [env0 cJSON_PrintUnformatted] in E; congruence).
    simpl. lia.
Qed.

(** A channel is opened, and its socket becomes writable. *)
Definition opened : tdc :=
  match run_op env0 (OpOpen app0 "1.2.3.4" 6000) init with Some (_, s) => s | None => init end.

Lemma tdc_life_cycle_witness :
  option_map (map channelId) (g_sessionConnList opened) = Some [0] /\
  exists s', run_op env0 (OpData true SOFTBUS_SOCKET_OUT 9) opened = Some (tt, s').
Proof.
  split; [vm_compute; reflexivity|]. apply (tdc_life_cycle opened).
  - apply rtc_once. apply (step_op env0 (OpOpen app0 "1.2.3.4" 6000)).
    + apply env0_ok.
    + vm_compute. reflexivity.
    + vm_compute. reflexivity.
  - apply env0_ok.
  - vm_compute. reflexivity.
Defined.

End TdcListener.
