(* ===== verification/StateFault.v ===== *)
(** * Computations with a state and faults

    The monad of the components that are modelled with explicit state: a
    computation changes a state, and an access the C program may not make (a
    freed or null object, an index out of range) is a fault.  The program logic
    is total: [wp m Q s] says that [m] ends from [s] without a fault in a result
    and state that satisfy [Q]. *)

From S2P Require Import Prelude.

Definition SF (S A : Type) : Type := S -> option (A * S).

Section monad.
Context {S : Type}.

Definition sret {A} (a : A) : SF S A := fun s => Some (a, s).
Definition sbind {A B} (m : SF S A) (k : A -> SF S B) : SF S B :=
  fun s => match m s with Some (a, s') => k a s' | None => None end.
Definition fault {A} : SF S A := fun _ => None.
Definition sgets {A} (f : S -> A) : SF S A := fun s => Some (f s, s).
Definition smodify (f : S -> S) : SF S unit := fun s => Some (tt, f s).
Definition slift {A} (o : option A) : SF S A := fun s => a ← o; Some (a, s).

(** A loop over a list. *)
Fixpoint sfor {A} (l : list A) (f : A -> SF S unit) : SF S unit :=
  match l with
  | [] => sret tt
  | x :: l => sbind (f x) (fun _ => sfor l f)
  end.

(** A loop that carries a value. *)
Fixpoint sfold {A B} (l : list A) (b : B) (f : B -> A -> SF S B) : SF S B :=
  match l with
  | [] => sret b
  | x :: l => sbind (f b x) (fun b => sfold l b f)
  end.

(** ** Weakest preconditions *)

Definition wps {A} (m : SF S A) (Q : A -> S -> Prop) (s : S) : Prop :=
  match m s with Some (a, s') => Q a s' | None => False end.

Implicit Types s : S.

Lemma wps_mono {A} (m : SF S A) (Q Q' : A -> S -> Prop) s :
  wps m Q s -> (forall a s', Q a s' -> Q' a s') -> wps m Q' s.
Proof. unfold wps. destruct (m s) as [[a s']|]; auto. Qed.
Lemma wps_bind {A B} (m : SF S B) (k : B -> SF S A) Q s : wps m (fun b s' => wps (k b) Q s') s -> wps (sbind m k) Q s.
Proof. unfold wps, sbind. by destruct (m s) as [[b s']|]. Qed.
Lemma wps_ret {A} (a : A) (Q : A -> S -> Prop) s : Q a s -> wps (sret a) Q s.
Proof. done. Qed.
Lemma wps_gets {A} (f : S -> A) (Q : A -> S -> Prop) s : Q (f s) s -> wps (sgets f) Q s.
Proof. done. Qed.
Lemma wps_modify (f : S -> S) (Q : unit -> S -> Prop) s : Q tt (f s) -> wps (smodify f) Q s.
Proof. done. Qed.
Lemma wps_lift {A} (o : option A) a (Q : A -> S -> Prop) s : o = Some a -> Q a s -> wps (slift o) Q s.
Proof. by intros ->. Qed.

(** An invariant of the loop over the elements that are left. *)
Lemma wps_for {A} (f : A -> SF S unit) (I : list A -> S -> Prop) (l : list A) s :
  I l s -> (forall x l s, I (x :: l) s -> wps (f x) (fun _ s' => I l s') s) -> wps (sfor l f) (fun _ s' => I [] s') s.
Proof.
  revert s. induction l as [|x l IH]; intros s HI Hf; [done|]. cbn [sfor]. apply wps_bind.
  eapply wps_mono; [by apply Hf|]. intros ? s' HI'. by apply IH.
Qed.

Lemma wps_fold {A B} (f : B -> A -> SF S B) (I : list A -> B -> S -> Prop) (l : list A) b s :
  I l b s -> (forall x l b s, I (x :: l) b s -> wps (f b x) (fun b' s' => I l b' s') s) ->
  wps (sfold l b f) (fun b' s' => I [] b' s') s.
Proof.
  revert b s. induction l as [|x l IH]; intros b s HI Hf; [done|]. cbn [sfold]. apply wps_bind.
  eapply wps_mono; [by apply Hf|]. intros b' s' HI'. by apply IH.
Qed.

(** A computation that ends, and what it ends in. *)
Lemma wps_run {A} (m : SF S A) (Q : A -> S -> Prop) s : wps m Q s <-> exists a s', m s = Some (a, s') /\ Q a s'.
Proof.
  unfold wps. destruct (m s) as [[a s']|]; split.
  - intros H. by exists a, s'.
  - by intros (? & ? & [= <- <-] & ?).
  - done.
  - by intros (? & ? & ? & ?).
Qed.
End monad.

Declare Scope sf_scope.
Delimit Scope sf_scope with sf.
Notation "'let*' x := m 'in' k" := (sbind m (fun x => k))
  (at level 10, x name, m at level 99, k at level 200) : sf_scope.
Notation "'let!' p := m 'in' k" := (sbind m (fun x => match x with p => k end))
  (at level 10, p strict pattern, m at level 99, k at level 200) : sf_scope.
Notation "m ;; k" := (sbind m (fun _ => k)) (at level 100, k at level 200, right associativity) : sf_scope.

(** One rule for the head of the computation; conditionals are split. *)
Ltac wps_step :=
  cbv beta zeta iota;
  lazymatch goal with
  | |- wps (sbind _ _) _ _ => apply wps_bind
  | |- wps (sret _) _ _ => apply wps_ret
  | |- wps (sgets _) _ _ => apply wps_gets
  | |- wps (smodify _) _ _ => apply wps_modify
  | |- wps (if ?b then _ else _) _ _ => let E := fresh "E" in destruct b eqn:E; try discriminate E
  | |- wps (match ?x with (_, _) => _ end) _ _ => destruct x
  end.
Ltac wps_steps := repeat wps_step.
