(* ===== verification/ProxyHandshake.v ===== *)
(** * The messages that open, keep and reset a proxy channel

    The JSON texts of core/transmission/trans_channel/proxy/src/softbus_proxychannel_message.c:
    the handshake with its acknowledgement, and the identity that resets and keeps
    alive a channel.  [ProxyMessage] models the frame around them.  cJSON and base64
    are arguments, as in [OpenChannelMsg]. *)

From S2P Require Import Prelude OpenChannelMsg.

Module ProxyHandshake.
Import OpenChannelMsg.

Definition APP_TYPE_NOT_CARE : Z := 0.
Definition APP_TYPE_NORMAL : Z := 1.
Definition APP_TYPE_AUTH : Z := 2.
Definition APP_TYPE_INNER : Z := 3.
Definition IDENTITY_LEN : Z := 32.

#[export] Instance AppInfoData_fields : Fields AppInfoData :=
  {| ctor := mkData; projs := (apiVersion, deviceId, pkgName, sessionName, uid, pid, authState, ip, port) |}.
#[export] Instance AppInfo_fields : Fields AppInfo :=
  {| ctor := mkApp; projs := (groupId, sessionKey, routeType, a_fd, myData, peerData) |}.

(** A channel; [appType] is the field of that name of its [AppInfo]. *)
Record ProxyChannelInfo := mkChan {
  channelId : Z; reqId : Z; isServer : Z; status : Z; timeout : Z; myId : Z; peerId : Z; connId : Z;
  type : Z; seq : Z; identity : string; appType : Z; appInfo : AppInfo; chiperSide : Z }.
#[export] Instance ProxyChannelInfo_fields : Fields ProxyChannelInfo :=
  {| ctor := mkChan; projs := (channelId, reqId, isServer, status, timeout, myId, peerId, connId, type, seq,
       identity, appType, appInfo, chiperSide) |}.

(** What [SoftBusCalloc] gives. *)
Definition zero_data : AppInfoData := mkData 0 "" "" "" 0 0 "" "" 0.
Definition zero_app : AppInfo := mkApp "" (zeros 32) 0 0 zero_data zero_data.
Definition zero_chan : ProxyChannelInfo := mkChan 0 0 0 0 0 0 0 0 0 0 "" 0 zero_app 0.

Section messages.
Context (create : bool) (mem : string -> bool) (print : json -> option (list byte)).
Context (base64_encode : list byte -> option string) (base64_decode : string -> option (list byte)).

Abbreviation AddString := (AddStringToJsonObject mem).
Abbreviation AddNumber := (AddNumberToJsonObject mem).
Abbreviation cJSON_CreateObject := (cJSON_CreateObject create).

(** The result of [cJSON_AddTrueToObject] is not looked at. *)
Definition cJSON_AddTrueToObject (j : option json) (k : string) : option json :=
  match j with Some j => Some (if mem k then j ++ [(k, JBool true)] else j) | None => None end.

Definition PackHandshakeMsgForNormal (a : AppInfo) (j : option json) : option json :=
  match base64_encode (sessionKey a) with
  | None => None
  | Some key =>
      let j := AddNumber j "UID" (uid (myData a)) in
      let j := AddNumber j "PID" (pid (myData a)) in
      let j := AddString j "GROUP_ID" (groupId a) in
      let j := AddString j "PKG_NAME" (pkgName (myData a)) in
      AddString j "SESSION_KEY" key
  end.

Definition handshake_object (info : ProxyChannelInfo) : option json :=
  let a := appInfo info in
  let j := AddNumber cJSON_CreateObject "TYPE" (appType info) in
  let j := AddString j "IDENTITY" (identity info) in
  let j := AddString j "DEVICE_ID" (deviceId (myData a)) in
  let j := AddString j "SRC_BUS_NAME" (sessionName (myData a)) in
  let j := AddString j "DST_BUS_NAME" (sessionName (peerData a)) in
  let j := cJSON_AddTrueToObject j "HAS_PRIORITY" in
  if appType info =? APP_TYPE_NORMAL then PackHandshakeMsgForNormal a j
  else if appType info =? APP_TYPE_AUTH then AddString j "PKG_NAME" (pkgName (myData a))
  else match base64_encode (sessionKey a) with
       | None => None
       | Some key => AddString j "SESSION_KEY" key
       end.

Definition TransProxyPackHandshakeMsg (info : ProxyChannelInfo) : option (list byte) :=
  print_object print (handshake_object info).

Definition ack_object (chan : ProxyChannelInfo) : option json :=
  let a := appInfo chan in
  if appType chan =? APP_TYPE_NOT_CARE then None
  else
    let j := AddString cJSON_CreateObject "IDENTITY" (identity chan) in
    let j := AddString j "DEVICE_ID" (deviceId (myData a)) in
    let j := cJSON_AddTrueToObject j "HAS_PRIORITY" in
    if appType chan =? APP_TYPE_NORMAL then
      let j := AddNumber j "UID" (uid (myData a)) in
      let j := AddNumber j "PID" (pid (myData a)) in
      AddString j "PKG_NAME" (pkgName (myData a))
    else if appType chan =? APP_TYPE_AUTH then AddString j "PKG_NAME" (pkgName (myData a))
    else j.

Definition TransProxyPackHandshakeAckMsg (chan : ProxyChannelInfo) : option (list byte) :=
  print_object print (ack_object chan).

(** [None]: an error; the callers then free the information. *)
Definition TransProxyUnpackHandshakeAckMsg (root : option json) (chan : ProxyChannelInfo) : option ProxyChannelInfo :=
  match root with
  | None => None
  | Some j =>
      match GetJsonObjectStringItem j "IDENTITY" (IDENTITY_LEN + 1),
            GetJsonObjectStringItem j "DEVICE_ID" DEVICE_ID_SIZE_MAX with
      | Some i, Some dev =>
          let p := peerData (appInfo chan) in
          let p := p <| deviceId := dev |> in
          let p := match GetJsonObjectStringItem j "PKG_NAME" PKG_NAME_SIZE_MAX with
                   | Some pkg => p <| pkgName := pkg |>
                   | None => p
                   end in
          Some (chan <| identity := i |> <| appInfo := (appInfo chan) <| peerData := p |> |>)
      | _, _ => None
      end
  end.

(** [SoftBusBase64Decode] into the session key, which it must fill. *)
Definition decode_key (key64 : string) : option (list byte) :=
  match base64_decode key64 with
  | Some key => if Z.of_nat (length key) =? SESSION_KEY_LENGTH then Some key else None
  | None => None
  end.

Definition UnpackHandshakeMsgForNormal (j : json) (a : AppInfo) : option AppInfo :=
  match GetJsonObjectNumberItem j "UID", GetJsonObjectNumberItem j "PID",
        GetJsonObjectStringItem j "PKG_NAME" PKG_NAME_SIZE_MAX, GetJsonObjectStringItem j "SESSION_KEY" BASE64KEY with
  | Some u, Some p, Some pkg, Some key64 =>
      match decode_key key64 with
      | None => None
      | Some key =>
          Some (a <| peerData := (peerData a) <| uid := u |> <| pid := p |> <| pkgName := pkg |> |> <| sessionKey := key |>)
      end
  | _, _, _, _ => None
  end.

Definition TransProxyUnpackHandshakeMsg (root : option json) (chan : ProxyChannelInfo) : option ProxyChannelInfo :=
  match root with
  | None => None
  | Some j =>
      match GetJsonObjectNumberItem j "TYPE", GetJsonObjectStringItem j "IDENTITY" (IDENTITY_LEN + 1),
            GetJsonObjectStringItem j "DEVICE_ID" DEVICE_ID_SIZE_MAX,
            GetJsonObjectStringItem j "SRC_BUS_NAME" SESSION_NAME_SIZE_MAX,
            GetJsonObjectStringItem j "DST_BUS_NAME" SESSION_NAME_SIZE_MAX with
      | Some t, Some i, Some dev, Some src, Some dst =>
          let a := appInfo chan in
          let a := a <| peerData := (peerData a) <| deviceId := dev |> <| sessionName := src |> |>
                     <| myData := (myData a) <| sessionName := dst |> |> in
          let chan := chan <| identity := i |> <| appType := t |> in
          let result := fun a => Some (chan <| appInfo := a |>) in
          if t =? APP_TYPE_NORMAL then
            match UnpackHandshakeMsgForNormal j a with Some a => result a | None => None end
          else if t =? APP_TYPE_AUTH then
            match GetJsonObjectStringItem j "PKG_NAME" PKG_NAME_SIZE_MAX with
            | Some pkg => result (a <| peerData := (peerData a) <| pkgName := pkg |> |>)
            | None => None
            end
          else
            match GetJsonObjectStringItem j "SESSION_KEY" BASE64KEY with
            | None => None
            | Some key64 =>
                match decode_key key64 with Some key => result (a <| sessionKey := key |>) | None => None end
            end
      | _, _, _, _, _ => None
      end
  end.

Definition identity_object (i : string) : option json := AddString cJSON_CreateObject "IDENTITY" i.
Definition TransProxyPackIdentity (i : string) : option (list byte) := print_object print (identity_object i).

Definition TransProxyUnpackIdentity (root : option json) (identitySize : Z) : option string :=
  match root with
  | None => None
  | Some j => GetJsonObjectStringItem j "IDENTITY" identitySize
  end.
End messages.

(** ** Round trips *)

Lemma get_number_item j k z : get_item j k = Some (JNumber (QArith_base.inject_Z z)) -> 0 <= z <= INT32_MAX ->
  GetJsonObjectNumberItem j k = Some z.
Proof.
  intros E H. pose proof (get_number_ok j k z (-1) E) as Hn. unfold number_or in Hn. unfold GetJsonObjectNumberItem in *.
  rewrite E in *. cbn [QArith_base.inject_Z QArith_base.Qnum] in *. replace (z <? 0) with false in * by lia.
  rewrite Hn; [done|]. lia.
Qed.

(** Evaluate a field of a concrete object. *)
Ltac item_field :=
  match goal with
  | |- context [GetJsonObjectNumberItem ?j ?k] => rewrite (get_number_item j k _ eq_refl) by done
  | |- context [GetJsonObjectStringItem ?j ?k ?n] => rewrite (get_string_ok j k n _ eq_refl) by done
  end.

(** What a channel sends of itself fits in the fields of the receiver. *)
Record chan_sendable (c : ProxyChannelInfo) : Prop := {
  s_type : 0 <= appType c <= INT32_MAX;
  s_identity : fits (identity c) (IDENTITY_LEN + 1);
  s_device : fits (deviceId (myData (appInfo c))) DEVICE_ID_SIZE_MAX;
  s_pkg : fits (pkgName (myData (appInfo c))) PKG_NAME_SIZE_MAX;
  s_name : fits (sessionName (myData (appInfo c))) SESSION_NAME_SIZE_MAX;
  s_peer : fits (sessionName (peerData (appInfo c))) SESSION_NAME_SIZE_MAX;
  s_uid : 0 <= uid (myData (appInfo c)) <= INT32_MAX;
  s_pid : 0 <= pid (myData (appInfo c)) <= INT32_MAX;
  s_key : Z.of_nat (length (sessionKey (appInfo c))) = SESSION_KEY_LENGTH }.

(** What the receiver of a handshake holds. *)
Definition handshake_received (c : ProxyChannelInfo) : ProxyChannelInfo :=
  let a := appInfo c in
  let peer := zero_data <| deviceId := deviceId (myData a) |> <| sessionName := sessionName (myData a) |> in
  let normal := peer <| uid := uid (myData a) |> <| pid := pid (myData a) |> <| pkgName := pkgName (myData a) |> in
  let auth := peer <| pkgName := pkgName (myData a) |> in
  zero_chan <| identity := identity c |> <| appType := appType c |>
    <| appInfo := zero_app <| myData := zero_data <| sessionName := sessionName (peerData a) |> |>
         <| peerData := if appType c =? APP_TYPE_NORMAL then normal else if appType c =? APP_TYPE_AUTH then auth else peer |>
         <| sessionKey := if appType c =? APP_TYPE_AUTH then zeros 32 else sessionKey a |> |>.

Lemma handshake_unpacks enc dec c key : chan_sendable c ->
  enc (sessionKey (appInfo c)) = Some key -> dec key = Some (sessionKey (appInfo c)) -> fits key BASE64KEY ->
  exists j, handshake_object true (fun _ => true) enc c = Some j /\
    TransProxyUnpackHandshakeMsg dec (Some j) zero_chan = Some (handshake_received c).
Proof.
  intros [] He Hd Hk. unfold handshake_object, PackHandshakeMsgForNormal, handshake_received. rewrite He.
  destruct (Z.eqb_spec (appType c) APP_TYPE_NORMAL) as [En|]; [|destruct (Z.eqb_spec (appType c) APP_TYPE_AUTH) as [Ea|]].
  all: eexists; split; [reflexivity|]; unfold TransProxyUnpackHandshakeMsg; do 5 item_field.
  - rewrite En in *. unfold UnpackHandshakeMsgForNormal. do 4 item_field. unfold decode_key. by rewrite Hd, s_key0.
  - rewrite Ea in *. by item_field.
  - rewrite !(proj2 (Z.eqb_neq _ _)) by done. item_field. unfold decode_key. by rewrite Hd, s_key0.
Qed.

(** What the receiver of an acknowledgement holds. *)
Definition ack_received (c : ProxyChannelInfo) : ProxyChannelInfo :=
  let a := myData (appInfo c) in
  let p := zero_data <| deviceId := deviceId a |> in
  zero_chan <| identity := identity c |>
    <| appInfo := zero_app <| peerData :=
         if (appType c =? APP_TYPE_NORMAL) || (appType c =? APP_TYPE_AUTH) then p <| pkgName := pkgName a |> else p |> |>.

Lemma ack_unpacks c : fits (identity c) (IDENTITY_LEN + 1) -> fits (deviceId (myData (appInfo c))) DEVICE_ID_SIZE_MAX ->
  fits (pkgName (myData (appInfo c))) PKG_NAME_SIZE_MAX -> appType c <> APP_TYPE_NOT_CARE ->
  exists j, ack_object true (fun _ => true) c = Some j /\
    TransProxyUnpackHandshakeAckMsg (Some j) zero_chan = Some (ack_received c).
Proof.
  intros Hi Hd Hp Ht. unfold ack_object, ack_received. rewrite (proj2 (Z.eqb_neq _ _)) by done.
  destruct (appType c =? APP_TYPE_NORMAL); [|destruct (appType c =? APP_TYPE_AUTH)]; cbn [orb].
  all: eexists; split; [reflexivity|]; unfold TransProxyUnpackHandshakeAckMsg; do 2 item_field; try by item_field.
  done.
Qed.

Lemma identity_unpacks i : fits i (IDENTITY_LEN + 1) ->
  exists j, identity_object true (fun _ => true) i = Some j /\ TransProxyUnpackIdentity (Some j) (IDENTITY_LEN + 1) = Some i.
Proof. intros Hi. eexists. split; [reflexivity|]. cbn. by item_field. Qed.

End ProxyHandshake.
