(* ===== verification/ProxyChannel.v ===== *)
(** * Proxy channels: the registry of channels, their connections and their messages

    core/transmission/trans_channel/proxy/src: softbus_proxychannel_manager.c (the list
    of channels and the handlers of messages), softbus_proxychannel_transceiver.c (the
    list of connections, the messages to the looper, the callbacks of the connections),
    softbus_proxychannel_control.c (what is sent), softbus_proxychannel_listener.c and
    softbus_proxychannel_network.c (who is told).

    [World] holds the globals of these files, the messages that wait in the looper and
    the calls made of other parts.  What a call needs from outside is an [Env]; the one
    that answers the next question is [env n] when [n] questions were asked before. *)

From Stdlib Require Import Ascii.
From S2P Require Import Prelude StateFault Utils OpenChannelMsg ProxyMessage ProxyHandshake.

Module ProxyChannel.
Import OpenChannelMsg ProxyHandshake.
#[local] Open Scope sf_scope.
#[local] Open Scope Z_scope.

Definition INVALID_CHANNEL_ID : Z := -1.
Definition PROXY_CHANNEL_CONTROL_TIMEOUT : Z := 19.
Definition PROXY_CHANNEL_BT_IDLE_TIMEOUT : Z := 240.
Definition MYID_MAX_NUM : Z := 100.
Definition MODULE_PROXY_CHANNEL : Z := 13.
Definition CONNECT_TCP : Z := 1.
Definition CONNECT_BR : Z := 2.
Definition CONNECT_BLE : Z := 3.
Definition SOFTBUS_TRANS_PROXY_DEL_CHANNELID_INVALID : Z := SOFTBUS_TRANS_ERR_BASE + 16.
Definition CONN_LOW : Z := 1.
Definition CONN_HIGH : Z := 3.

Definition PROXY_CHANNEL_STATUS_PYH_CONNECTED : Z := 0.
Definition PROXY_CHANNEL_STATUS_PYH_CONNECTING : Z := 1.
Definition PROXY_CHANNEL_STATUS_HANDSHAKEING : Z := 2.
Definition PROXY_CHANNEL_STATUS_KEEPLIVEING : Z := 3.
Definition PROXY_CHANNEL_STATUS_TIMEOUT : Z := 4.
Definition PROXY_CHANNEL_STATUS_HANDSHAKE_TIMEOUT : Z := 5.
Definition PROXY_CHANNEL_STATUS_COMPLETED : Z := 6.

(** ** Connections (softbus_conn_interface.h, softbus_proxychannel_transceiver.h) *)

(** A C string in an array. *)
Fixpoint cstr (l : list byte) : list byte :=
  match l with
  | [] => []
  | b :: l => if Byte.eqb b Byte.x00 then [] else b :: cstr l
  end.

(** The union is its bytes: a MAC of 18 bytes (with the hash of a device in the 32
    bytes that follow, for BLE), or an IP address of 46 bytes with its port at 48. *)
Record ConnectOption := mkOption { o_type : Z; o_info : list byte }.
Definition brMac (o : ConnectOption) : list byte := cstr (o_info o).
Definition ip (o : ConnectOption) : list byte := cstr (o_info o).
Definition port (o : ConnectOption) : Z := i32 (le_val (slice 48 4 (o_info o))).

Record ConnectionInfo := mkInfo { i_isAvailable : Z; i_isServer : Z; i_type : Z; i_info : list byte }.

Record ProxyConnInfo := mkConn { requestId : Z; connInfo : ConnectOption; p_connId : Z; ref : Z; state : Z }.
#[export] Instance ProxyConnInfo_fields : Fields ProxyConnInfo :=
  {| ctor := mkConn; projs := (requestId, connInfo, p_connId, ref, state) |}.

Inductive LoopMsg :=
  | LOOP_HANDSHAKE_MSG (chanId : Z)
  | LOOP_DISCONNECT_MSG (connectionId : Z)
  | LOOP_OPENFAIL_MSG (chan : ProxyChannelInfo)
  | LOOP_OPENCLOSE_MSG (chan : ProxyChannelInfo)
  | LOOP_KEEPALIVE_MSG (chan : ProxyChannelInfo)
  | LOOP_RESETPEER_MSG (chan : ProxyChannelInfo).

(** Calls of other parts.  The owner of a channel is an application, by its package,
    or the listener of the networking ([None]). *)
Inductive Out :=
  | ChannelOpened (owner : option string) (id : Z) (server : bool) (a : AppInfo)
  | ChannelOpenFailed (owner : option string) (id : Z)
  | ChannelClosed (owner : option string) (id : Z)
  | MsgReceived (owner : option string) (id : Z) (data : list byte)
  | ConnectDevice (o : ConnectOption) (req : Z)
  | DisconnectDevice (conn : Z)
  | PostBytes (conn : Z) (sq : Z) (buf : list byte) (priority : Z)
  | DelSliceProcessor (id : Z)
  | DelPending (id : Z).

(** A global list: not created, destroyed, or there. *)
Inductive Glob (A : Type) := Null | Freed | Live (l : list A).
Arguments Null {A}.
Arguments Freed {A}.
Arguments Live {A} l.

Record World := mkWorld {
  chans : Glob ProxyChannelInfo; chanCnt : Z; conns : option (list ProxyConnInfo); connCnt : Z;
  myIdCount : Z; postSeq : Z; netListener : bool; loop : list LoopMsg; out : list Out; tick : nat }.
#[export] Instance World_fields : Fields World :=
  {| ctor := mkWorld; projs := (chans, chanCnt, conns, connCnt, myIdCount, postSeq, netListener, loop, out, tick) |}.

(** Allocation, mutexes and other calls succeed or not; random bytes; request ids;
    results of [ConnConnectDevice], [ConnPostBytes] and of the session manager's
    [OnChannelOpened]; [ConnGetConnectionInfo]; encryption; cJSON and base64; the names
    and ids that the session manager and the ledgers know. *)
Record Env := mkEnv {
  e_mem : bool; e_lock : bool; e_ok : bool; e_random : Z -> Z * list Z; e_key : option (list byte);
  e_reqId : Z; e_connect : Z; e_post : Z; e_opened : Z;
  e_info : Z -> option ConnectionInfo;
  e_encrypt : Z -> list byte -> option (Z * list byte);
  e_decrypt : Z -> Z -> list byte -> option (list byte);
  e_create : bool; e_item : string -> bool; e_print : json -> option (list byte); e_parse : list byte -> option json;
  e_enc64 : list byte -> option string; e_dec64 : string -> option (list byte);
  e_pkgName : string -> option string; e_udid : option string; e_networkId : string -> option string }.

(** The characters up to the terminator. *)
Fixpoint text_of (l : list Z) : string :=
  match l with
  | [] => EmptyString
  | c :: l => if c =? 0 then EmptyString else String (ascii_of_N (Z.to_N c)) (text_of l)
  end.

Section proxy.
Context (env : nat -> Env) (connHeadLen encryptHeadLen : nat).

Definition ask : SF World Env := fun w => Some (env (tick w), w <| tick := S (tick w) |>).
Definition emit (o : Out) : SF World unit := smodify (fun w : World => w <| out := out w ++ [o] |>).
Definition put_chans (l : list ProxyChannelInfo) : SF World unit := smodify (fun w : World => w <| chans := Live l |>).
Definition put_conns (l : list ProxyConnInfo) : SF World unit := smodify (fun w : World => w <| conns := Some l |>).
Definition add_chanCnt (n : Z) : SF World unit := smodify (fun w : World => w <| chanCnt := u32 (chanCnt w + n) |>).
Definition add_connCnt (n : Z) : SF World unit := smodify (fun w : World => w <| connCnt := u32 (connCnt w + n) |>).

(** The list under its mutex; without the list or the mutex the functions return [r]. *)
Definition with_chans {A} (r : A) (k : list ProxyChannelInfo -> SF World A) : SF World A :=
  let* g := sgets chans in
  match g with
  | Null => sret r
  | Freed => fault
  | Live l => let* e := ask in if negb (e_lock e) then sret r else k l
  end.

(** The first channel with a property. *)
Definition first_chan {A} (f : ProxyChannelInfo -> bool) (r : A)
    (k : list ProxyChannelInfo -> nat -> ProxyChannelInfo -> SF World A) : SF World A :=
  with_chans r (fun l => match list_find f l with Some (i, c) => k l i c | None => sret r end).

Definition with_conns {A} (r : A) (k : list ProxyConnInfo -> SF World A) : SF World A :=
  let* g := sgets conns in
  match g with
  | None => sret r
  | Some l => let* e := ask in if negb (e_lock e) then sret r else k l
  end.

(** ** Messages to the looper (softbus_proxychannel_transceiver.c) *)

Definition post (m : LoopMsg) : SF World unit :=
  let* e := ask in
  if e_mem e then smodify (fun w : World => w <| loop := loop w ++ [m] |>) else sret tt.

Definition TransProxyPostResetPeerMsgToLoop (chan : ProxyChannelInfo) : SF World unit := post (LOOP_RESETPEER_MSG chan).
Definition TransProxyPostHandshakeMsgToLoop (chanId : Z) : SF World unit :=
  let* e := ask in if negb (e_mem e) then sret tt else post (LOOP_HANDSHAKE_MSG chanId).
Definition TransProxyPostDisConnectMsgToLoop (conn : Z) : SF World unit := post (LOOP_DISCONNECT_MSG (u32 conn)).
Definition TransProxyPostKeepAliveMsgToLoop (chan : ProxyChannelInfo) : SF World unit := post (LOOP_KEEPALIVE_MSG chan).
Definition TransProxyPostOpenFailMsgToLoop (chan : ProxyChannelInfo) : SF World unit := post (LOOP_OPENFAIL_MSG chan).
Definition TransProxyPostOpenClosedMsgToLoop (chan : ProxyChannelInfo) : SF World unit := post (LOOP_OPENCLOSE_MSG chan).

(** ** Who is told (softbus_proxychannel_listener.c, softbus_proxychannel_network.c) *)

Definition NotifyNetworkingChannelOpened (id : Z) (a : AppInfo) (server : bool) : SF World Z :=
  let* there := sgets netListener in
  if negb there then sret SOFTBUS_ERR
  else
    emit (ChannelOpened None id server a);;
    let* e := ask in
    if negb (e_opened e =? SOFTBUS_OK) then sret SOFTBUS_ERR else sret SOFTBUS_OK.

Definition notify_networking (o : Out) : SF World unit :=
  let* there := sgets netListener in if there : bool then emit o else sret tt.

Definition TransRegisterNetworkingChannelListener : SF World Z :=
  smodify (fun w : World => w <| netListener := true |>);; sret SOFTBUS_OK.

Definition NotifyNormalChannelOpened (id : Z) (a : AppInfo) (server : bool) : SF World Z :=
  let* e := ask in
  match e_networkId e (deviceId (peerData a)) with
  | None => sret SOFTBUS_ERR
  | Some _ =>
      emit (ChannelOpened (Some (pkgName (myData a))) id server a);;
      let* e := ask in sret (e_opened e)
  end.

Definition OnProxyChannelOpened (id t : Z) (a : AppInfo) (server : bool) : SF World Z :=
  if t =? APP_TYPE_NORMAL then NotifyNormalChannelOpened id a server
  else if t =? APP_TYPE_AUTH then sret SOFTBUS_ERR
  else if t =? APP_TYPE_INNER then NotifyNetworkingChannelOpened id a server
  else sret SOFTBUS_ERR.

Definition OnProxyChannelOpenFailed (id t : Z) (a : AppInfo) : SF World unit :=
  if t =? APP_TYPE_NORMAL then emit (ChannelOpenFailed (Some (pkgName (myData a))) id)
  else if t =? APP_TYPE_AUTH then sret tt
  else if t =? APP_TYPE_INNER then notify_networking (ChannelOpenFailed None id)
  else sret tt.

Definition OnProxyChannelClosed (id t : Z) (a : AppInfo) : SF World unit :=
  if t =? APP_TYPE_NORMAL then emit (ChannelClosed (Some (pkgName (myData a))) id)
  else if t =? APP_TYPE_AUTH then sret tt
  else if t =? APP_TYPE_INNER then notify_networking (ChannelClosed None id)
  else sret tt.

(** [MsgReceived (Some pkg)] is the call of [TransOnNormalMsgReceived]. *)
Definition OnProxyChannelMsgReceived (id t : Z) (a : AppInfo) (data : list byte) (len : Z) : SF World unit :=
  if len =? 0 then sret tt
  else if t =? APP_TYPE_NORMAL then emit (MsgReceived (Some (pkgName (myData a))) id data)
  else if t =? APP_TYPE_AUTH then sret tt
  else if t =? APP_TYPE_INNER then notify_networking (MsgReceived None id data)
  else sret tt.

(** ** The list of connections (softbus_proxychannel_transceiver.c) *)

Definition TransDelConnByReqId (req : Z) : SF World Z :=
  with_conns SOFTBUS_ERR (fun l =>
    match list_find (fun c => (requestId c =? req) && (state c =? PROXY_CHANNEL_STATUS_PYH_CONNECTING)) l with
    | Some (i, _) => put_conns (delete i l);; add_connCnt (-1);; sret SOFTBUS_OK
    | None => sret SOFTBUS_OK
    end).

Definition TransDelConnByConnId (conn : Z) : SF World unit :=
  with_conns tt (fun l =>
    match list_find (fun c => p_connId c =? conn) l with
    | Some (i, _) => put_conns (delete i l);; add_connCnt (-1)
    | None => sret tt
    end).

Definition TransDecConnRefByConnId (conn : Z) : SF World Z :=
  with_conns SOFTBUS_ERR (fun l =>
    match list_find (fun c => p_connId c =? conn) l with
    | Some (i, c) =>
        let r := i32 (ref c - 1) in
        if r <=? 0 then put_conns (delete i l);; add_connCnt (-1);; sret SOFTBUS_OK
        else put_conns (<[i := c <| ref := r |>]> l);; sret SOFTBUS_ERR
    | None => sret SOFTBUS_OK
    end).

Definition TransAddConnRefByConnId (conn : Z) : SF World Z :=
  with_conns SOFTBUS_ERR (fun l =>
    match list_find (fun c => p_connId c =? conn) l with
    | Some (i, c) => put_conns (<[i := c <| ref := i32 (ref c + 1) |>]> l);; sret SOFTBUS_OK
    | None => sret SOFTBUS_OK
    end).

(** The rest of [info] is not written. *)
Definition TransProxyGetConnectOption (e : Env) (conn : Z) : option ConnectOption :=
  match e_info e conn with
  | None => None
  | Some i =>
      if i_type i =? CONNECT_BR then Some (mkOption CONNECT_BR (take 18 (i_info i)))
      else if i_type i =? CONNECT_BLE then Some (mkOption CONNECT_BLE (take 50 (i_info i)))
      else if i_type i =? CONNECT_TCP then Some (mkOption CONNECT_TCP (take 52 (i_info i)))
      else None
  end.

Definition TransProxyTransSendMsg (conn : Z) (buf : list byte) (priority : Z) : SF World Z :=
  let* sq := sgets postSeq in
  smodify (fun w : World => w <| postSeq := u64 (sq + 1) |>);;
  emit (PostBytes conn sq buf priority);;
  let* e := ask in
  if e_post e <? 0 then sret (e_post e) else sret SOFTBUS_OK.

Definition TransProxyCloseConnChannel (connectionId : Z) : SF World Z :=
  let* r := TransDecConnRefByConnId connectionId in
  (if r =? SOFTBUS_OK then emit (DisconnectDevice connectionId) else sret tt);;
  sret SOFTBUS_OK.

(** [memcpy_s] of a [ConnectionInfo] over a [ConnectOption], which has no
    [isAvailable] and no [isServer]. *)
Definition option_of_info (i : ConnectionInfo) : ConnectOption :=
  mkOption (i_isAvailable i) (take 52 (le_bytes 4 (i_isServer i) ++ le_bytes 4 (i_type i) ++ i_info i)).

Definition TransCreateConnByConnId (conn : Z) : SF World unit :=
  let* g := sgets conns in
  match g with
  | None => sret tt
  | Some _ =>
      let* e := ask in
      match e_info e conn with
      | None => sret tt
      | Some info =>
          with_conns tt (fun l =>
            match list_find (fun c => p_connId c =? conn) l with
            | Some (i, c) => put_conns (<[i := c <| ref := i32 (ref c + 1) |>]> l)
            | None =>
                let* e := ask in
                if negb (e_mem e) then sret tt
                else
                  put_conns (mkConn 0 (option_of_info info) conn 1 PROXY_CHANNEL_STATUS_PYH_CONNECTED :: l);;
                  add_connCnt 1
            end)
      end
  end.

(** The connection [TransGetConn] looks for. *)
Definition same_conn (o : ConnectOption) (c : ProxyConnInfo) : bool :=
  if negb (o_type (connInfo c) =? o_type o) then false
  else if o_type o =? CONNECT_TCP then
    bool_decide (ip o = ip (connInfo c)) && (port o =? port (connInfo c))
  else if o_type o =? CONNECT_BR then bool_decide (brMac o = brMac (connInfo c))
  else false.

Definition TransGetConn (o : ConnectOption) : SF World (option ProxyConnInfo) :=
  with_conns None (fun l => sret (snd <$> list_find (same_conn o) l)).

Definition TransSetConnStateByReqId (req conn st : Z) : SF World unit :=
  with_conns tt (fun l =>
    match list_find (fun c => (requestId c =? req) && (state c =? PROXY_CHANNEL_STATUS_PYH_CONNECTING)) l with
    | Some (i, c) => put_conns (<[i := c <| state := st |> <| p_connId := conn |> <| requestId := 0 |>]> l)
    | None => sret tt
    end).

(** ** The list of channels (softbus_proxychannel_manager.c) *)

Definition MyIdIsValid (id : Z) : SF World Z :=
  with_chans SOFTBUS_ERR (fun l =>
    sret (if existsb (fun c => myId c =? id) l then SOFTBUS_ERR else SOFTBUS_OK)).

(** On a little-endian machine. *)
Definition EndianSwap16 (num : Z) : Z :=
  u16 (Z.lor (Z.shiftr (Z.land num 0xFF00) 8) (Z.shiftl (Z.land num 0x00FF) 8)).

(** The id that the counter stands for. *)
Definition id_of (n : Z) : Z := i16 (EndianSwap16 (u16 (i16 (Z.rem n MYID_MAX_NUM + 1)))).

Fixpoint new_id (cnt : nat) : SF World Z :=
  match cnt with
  | O => sret INVALID_CHANNEL_ID
  | S cnt =>
      smodify (fun w : World => w <| myIdCount := i16 (myIdCount w + 1) |>);;
      let* n := sgets myIdCount in
      let* r := MyIdIsValid (id_of n) in
      if r =? SOFTBUS_OK then sret (id_of n) else new_id cnt
  end.

Definition TransProxyGetNewMyId : SF World Z :=
  let* e := ask in
  if negb (e_lock e) then sret SOFTBUS_ERR else new_id (Z.to_nat MYID_MAX_NUM).

Definition ChanIsEqual (a b : ProxyChannelInfo) : bool :=
  (myId a =? myId b) && (peerId a =? peerId b) && String.eqb (identity a) (identity b).

Definition ResetChanIsEqual (st : Z) (a b : ProxyChannelInfo) : bool :=
  ((st =? PROXY_CHANNEL_STATUS_HANDSHAKEING) && (myId a =? myId b) && String.eqb (identity a) (identity b)) ||
  ChanIsEqual a b.

Definition acked (info c : ProxyChannelInfo) : ProxyChannelInfo :=
  c <| peerId := peerId info |> <| status := PROXY_CHANNEL_STATUS_COMPLETED |> <| timeout := 0 |>
    <| appInfo := (appInfo c) <| peerData := peerData (appInfo info) |> |>.

(** The channel as it is in the list after the call, which is copied to [info]. *)
Definition TransProxyUpdateAckInfo (info : ProxyChannelInfo) : SF World (option ProxyChannelInfo) :=
  first_chan (fun c => (myId c =? myId info) && String.eqb (identity c) (identity info)) None (fun l i c =>
    put_chans (<[i := acked info c]> l);; sret (Some (acked info c))).

(** False when the channel was freed instead. *)
Definition TransProxyAddChanItem (chan : ProxyChannelInfo) : SF World bool :=
  with_chans false (fun l => put_chans (chan :: l);; add_chanCnt 1;; sret true).

Definition TransProxyGetChanByChanId (chanId : Z) : SF World (option ProxyChannelInfo) :=
  first_chan (fun c => channelId c =? chanId) None (fun l i c => sret (Some c)).

Definition TransProxyDelChanByReqId (req : Z) : SF World unit :=
  let gone := fun c => (reqId c =? req) && (status c =? PROXY_CHANNEL_STATUS_PYH_CONNECTING) in
  with_chans tt (fun l =>
    sfor l (fun c => if gone c then TransProxyPostOpenFailMsgToLoop c;; add_chanCnt (-1) else sret tt);;
    put_chans (filter (fun c => negb (gone c)) l)).

Definition TransProxyDelChanByChanId (chanId : Z) : SF World unit :=
  first_chan (fun c => channelId c =? chanId) tt (fun l i c => put_chans (delete i l);; add_chanCnt (-1)).

Definition TransProxyChanProcessByReqId (req conn : Z) : SF World unit :=
  with_chans tt (fun l =>
    let* l' := sfold l [] (fun done c =>
      if (reqId c =? req) && (status c =? PROXY_CHANNEL_STATUS_PYH_CONNECTING) then
        TransAddConnRefByConnId conn;;
        TransProxyPostHandshakeMsgToLoop (channelId c);;
        sret (done ++ [c <| status := PROXY_CHANNEL_STATUS_HANDSHAKEING |> <| connId := conn |>])
      else sret (done ++ [c])) in
    put_chans l').

Definition is_opening (c : ProxyChannelInfo) : bool :=
  (status c =? PROXY_CHANNEL_STATUS_HANDSHAKEING) || (status c =? PROXY_CHANNEL_STATUS_PYH_CONNECTING).

Definition TransProxyDelByConnId (conn : Z) : SF World unit :=
  with_chans tt (fun l =>
    sfor l (fun c =>
      if connId c =? conn then
        (if is_opening c then OnProxyChannelOpenFailed (channelId c) (appType c) (appInfo c)
         else OnProxyChannelClosed (channelId c) (appType c) (appInfo c));;
        add_chanCnt (-1)
      else sret tt);;
    put_chans (filter (fun c => negb (connId c =? conn)) l)).

Definition TransProxyDelByChannelId (chanId : Z) : SF World (option ProxyChannelInfo) :=
  first_chan (fun c => channelId c =? chanId) None (fun l i c =>
    put_chans (delete i l);; add_chanCnt (-1);; sret (Some c)).

Definition TransProxyResetChan (info : ProxyChannelInfo) : SF World (option ProxyChannelInfo) :=
  first_chan (fun c => ResetChanIsEqual (status c) c info) None (fun l i c =>
    put_chans (delete i l);; add_chanCnt (-1);; sret (Some c)).

(** The idle time of a completed channel starts again. *)
Definition touch (c : ProxyChannelInfo) : ProxyChannelInfo :=
  if status c =? PROXY_CHANNEL_STATUS_COMPLETED then c <| timeout := 0 |> else c.

Definition TransProxyGetRecvMsgChanInfo (my peer : Z) : SF World (option ProxyChannelInfo) :=
  first_chan (fun c => (myId c =? my) || (peerId c =? peer)) None (fun l i c =>
    put_chans (<[i := touch c]> l);; sret (Some (touch c))).

Definition kept_alive (c : ProxyChannelInfo) : ProxyChannelInfo :=
  if (status c =? PROXY_CHANNEL_STATUS_KEEPLIVEING) || (status c =? PROXY_CHANNEL_STATUS_COMPLETED)
  then c <| timeout := 0 |> <| status := PROXY_CHANNEL_STATUS_COMPLETED |> else c.

Definition TransProxyKeepAlvieChan (info : ProxyChannelInfo) : SF World (option ProxyChannelInfo) :=
  first_chan (fun c => ChanIsEqual c info) None (fun l i c =>
    put_chans (<[i := kept_alive c]> l);; sret (Some (kept_alive c))).

Definition TransProxyGetSendMsgChanInfo (chanId : Z) : SF World (option ProxyChannelInfo) :=
  first_chan (fun c => channelId c =? chanId) None (fun l i c =>
    put_chans (<[i := touch c]> l);; sret (Some (touch c))).

Definition TransProxyGetNewChanSeq (chanId : Z) : SF World Z :=
  first_chan (fun c => channelId c =? chanId) 0 (fun l i c =>
    put_chans (<[i := c <| seq := i32 (seq c + 1) |>]> l);; sret (seq c)).

Definition TransProxySetChiperSide (chanId side : Z) : SF World Z :=
  first_chan (fun c => channelId c =? chanId) SOFTBUS_ERR (fun l i c =>
    put_chans (<[i := c <| chiperSide := side |>]> l);; sret SOFTBUS_OK).

(** The answer while a message is parsed, which needs nothing else of the list (it is
    destroyed only when the start fails). *)
Definition TransProxyGetChiperSide (e : Env) (w : World) (chanId : Z) : option Z :=
  match chans w with
  | Live l => if e_lock e then chiperSide ∘ snd <$> list_find (fun c => channelId c =? chanId) l else None
  | _ => None
  end.

Definition TransProxyGetSessionKeyByChanId (chanId sessionKeySize : Z) : SF World (Z * list byte) :=
  first_chan (fun c => channelId c =? chanId) (SOFTBUS_ERR, []) (fun l i c =>
    put_chans (<[i := touch c]> l);;
    if sessionKeySize <? SESSION_KEY_LENGTH then sret (SOFTBUS_ERR, [])
    else sret (SOFTBUS_OK, sessionKey (appInfo c))).

(** ** What is sent (softbus_proxychannel_control.c) *)

Definition pack (e : Env) (h : ProxyMessage.ProxyMessageHead) (conn : Z) (payload : list byte) : option (list byte) :=
  snd (ProxyMessage.TransProxyPackMessage (fun c => bool_decide (is_Some (TransProxyGetConnectOption e c)))
         connHeadLen encryptHeadLen (e_encrypt e) (e_mem e) h conn payload).

(** The side that [TransProxyPackMessage] notes in the head it encrypts for. *)
Definition server_side (e : Env) (conn : Z) (payload : list byte) : bool :=
  match e_encrypt e conn payload with Some (s, _) => s =? ProxyMessage.SERVER_SIDE_FLAG | None => false end.

Definition head (ty ch my peer : Z) : ProxyMessage.ProxyMessageHead :=
  ProxyMessage.mkMessageHead (ProxyMessage.type_byte ty) ch my peer 0.

(** A text with its terminator as an encrypted message; any failure is the error. *)
Definition send_text (ty conn my peer priority : Z) (text : Env -> option (list byte)) : SF World Z :=
  let* e := ask in
  match text e with
  | None => sret SOFTBUS_ERR
  | Some t =>
      let* e := ask in
      match pack e (head ty ProxyMessage.ENCRYPTED my peer) conn (t ++ [Byte.x00]) with
      | None => sret SOFTBUS_ERR
      | Some buf =>
          let* r := TransProxyTransSendMsg conn buf priority in
          if negb (r =? SOFTBUS_OK) then sret SOFTBUS_ERR else sret SOFTBUS_OK
      end
  end.

Definition TransProxySendMessage (info : ProxyChannelInfo) (payLoad : list byte) (priority : Z) : SF World Z :=
  let ch := if negb (appType info =? APP_TYPE_NORMAL) then ProxyMessage.ENCRYPTED else 0 in
  let* e := ask in
  match pack e (head ProxyMessage.PROXYCHANNEL_MSG_TYPE_NORMAL ch (myId info) (peerId info)) (connId info) payLoad with
  | None => sret SOFTBUS_TRANS_PROXY_PACKMSG_ERR
  | Some buf => TransProxyTransSendMsg (connId info) buf priority
  end.

Definition TransProxyHandshake (info : ProxyChannelInfo) : SF World Z :=
  let* e := ask in
  match TransProxyPackHandshakeMsg (e_create e) (e_item e) (e_print e) (e_enc64 e) info with
  | None => sret SOFTBUS_ERR
  | Some t =>
      let payLoad := t ++ [Byte.x00] in
      let* e := ask in
      match pack e (head ProxyMessage.PROXYCHANNEL_MSG_TYPE_HANDSHAKE ProxyMessage.ENCRYPTED (myId info) INVALID_CHANNEL_ID)
              (connId info) payLoad with
      | None => sret SOFTBUS_ERR
      | Some buf =>
          let* side := (if server_side e (connId info) payLoad
                        then TransProxySetChiperSide (channelId info) ProxyMessage.SERVER_SIDE_FLAG
                        else sret SOFTBUS_OK) in
          if negb (side =? SOFTBUS_OK) then sret SOFTBUS_ERR
          else
            let* r := TransProxyTransSendMsg (connId info) buf CONN_HIGH in
            if negb (r =? SOFTBUS_OK) then sret SOFTBUS_ERR else sret SOFTBUS_OK
      end
  end.

Definition TransProxyAckHandshake (conn : Z) (chan : ProxyChannelInfo) : SF World Z :=
  send_text ProxyMessage.PROXYCHANNEL_MSG_TYPE_HANDSHAKE_ACK conn (myId chan) (peerId chan) CONN_HIGH
    (fun e => TransProxyPackHandshakeAckMsg (e_create e) (e_item e) (e_print e) chan).

Definition identity_text (info : ProxyChannelInfo) (e : Env) : option (list byte) :=
  TransProxyPackIdentity (e_create e) (e_item e) (e_print e) (identity info).

Definition TransProxyKeepalive (conn : Z) (info : ProxyChannelInfo) : SF World unit :=
  send_text ProxyMessage.PROXYCHANNEL_MSG_TYPE_KEEPALIVE conn (myId info) (peerId info) CONN_HIGH (identity_text info);;
  sret tt.

Definition TransProxyAckKeepalive (info : ProxyChannelInfo) : SF World Z :=
  send_text ProxyMessage.PROXYCHANNEL_MSG_TYPE_KEEPALIVE_ACK (connId info) (myId info) (peerId info) CONN_HIGH
    (identity_text info).

Definition TransProxyResetPeer (info : ProxyChannelInfo) : SF World Z :=
  send_text ProxyMessage.PROXYCHANNEL_MSG_TYPE_RESET (connId info) (myId info) (peerId info) CONN_LOW
    (identity_text info).

(** ** Messages that arrive (softbus_proxychannel_manager.c) *)

Definition is_encrypted (msg : ProxyMessage.ProxyMessage) : bool :=
  negb (Z.land (ProxyMessage.chiper (ProxyMessage.msgHead msg)) ProxyMessage.ENCRYPTED =? 0).

(** The text [cJSON_Parse] reads.  A decrypted message is shorter than its zeroed
    buffer; one that came in the clear ends with the buffer it came in. *)
Definition text_read (msg : ProxyMessage.ProxyMessage) : option (list byte) :=
  let t := cstr (ProxyMessage.data msg) in
  if is_encrypted msg || (length t <? length (ProxyMessage.data msg))%nat then Some t else None.

Definition parse_json (msg : ProxyMessage.ProxyMessage) : SF World (option json) :=
  let* t := slift (text_read msg) in
  let* e := ask in sret (e_parse e t).

Definition TransProxyProcessHandshakeAckMsg (msg : ProxyMessage.ProxyMessage) : SF World unit :=
  let* e := ask in
  if negb (e_mem e) then sret tt
  else
    let* j := parse_json msg in
    match TransProxyUnpackHandshakeAckMsg j zero_chan with
    | None => sret tt
    | Some info =>
        let h := ProxyMessage.msgHead msg in
        let* r := TransProxyUpdateAckInfo (info <| myId := ProxyMessage.myId h |> <| peerId := ProxyMessage.peerId h |>) in
        match r with
        | None => sret tt
        | Some c => OnProxyChannelOpened (channelId c) (appType c) (appInfo c) false;; sret tt
        end
    end.

Definition TransProxyGetLocalInfo (chan : ProxyChannelInfo) : SF World (option ProxyChannelInfo) :=
  let a := appInfo chan in
  let* e := ask in
  match (if negb (appType chan =? APP_TYPE_INNER) then e_pkgName e (sessionName (myData a)) else Some (pkgName (myData a))) with
  | None => sret None
  | Some pkg =>
      match e_udid e with
      | None => sret None
      | Some udid =>
          sret (Some (chan <| appInfo := a <| myData := (myData a) <| pkgName := pkg |> <| deviceId := udid |> |> |>))
      end
  end.

Definition TransProxyProcessHandshakeMsg (msg : ProxyMessage.ProxyMessage) : SF World unit :=
  let* e := ask in
  if negb (e_mem e) then sret tt
  else
    let* j := parse_json msg in
    let* e := ask in
    match TransProxyUnpackHandshakeMsg (e_dec64 e) j zero_chan with
    | None => sret tt
    | Some chan =>
        let* r := TransProxyGetLocalInfo chan in
        match r with
        | None => sret tt
        | Some chan =>
            let* newChanId := TransProxyGetNewMyId in
            let* ret := OnProxyChannelOpened newChanId (appType chan) (appInfo chan) true in
            if negb (ret =? SOFTBUS_OK) then sret tt
            else
              let conn := ProxyMessage.connId msg in
              let chan := chan <| isServer := 1 |> <| status := PROXY_CHANNEL_STATUS_COMPLETED |> <| connId := conn |>
                            <| myId := newChanId |> <| channelId := newChanId |>
                            <| peerId := ProxyMessage.peerId (ProxyMessage.msgHead msg) |>
                            <| chiperSide := ProxyMessage.chiperSide msg |> in
              let* there := TransProxyAddChanItem chan in
              if negb there then fault
              else
                let* ret := TransProxyAckHandshake conn chan in
                if negb (ret =? SOFTBUS_OK) then
                  OnProxyChannelClosed newChanId (appType chan) (appInfo chan);;
                  TransProxyDelChanByChanId newChanId
                else TransCreateConnByConnId conn
        end
    end.

(** The message's identity and ids, as the handlers look a channel up. *)
Definition with_identity (msg : ProxyMessage.ProxyMessage) (k : ProxyChannelInfo -> SF World unit) : SF World unit :=
  let* e := ask in
  if negb (e_mem e) then sret tt
  else
    let* j := parse_json msg in
    match TransProxyUnpackIdentity j (IDENTITY_LEN + 1) with
    | None => sret tt
    | Some i =>
        let h := ProxyMessage.msgHead msg in
        k (zero_chan <| identity := i |> <| peerId := ProxyMessage.peerId h |> <| myId := ProxyMessage.myId h |>)
    end.

Definition TransProxyProcessResetMsg (msg : ProxyMessage.ProxyMessage) : SF World unit :=
  with_identity msg (fun info =>
    let* r := TransProxyResetChan info in
    match r with
    | None => sret tt
    | Some c =>
        (if status c =? PROXY_CHANNEL_STATUS_HANDSHAKEING
         then OnProxyChannelOpenFailed (channelId c) (appType c) (appInfo c)
         else OnProxyChannelClosed (channelId c) (appType c) (appInfo c));;
        TransProxyCloseConnChannel (ProxyMessage.connId msg);; sret tt
    end).

Definition TransProxyProcessKeepAlive (msg : ProxyMessage.ProxyMessage) : SF World unit :=
  with_identity msg (fun info =>
    let* r := TransProxyKeepAlvieChan info in
    match r with
    | None => sret tt
    | Some c => TransProxyAckKeepalive c;; sret tt
    end).

Definition TransProxyProcessKeepAliveAck (msg : ProxyMessage.ProxyMessage) : SF World unit :=
  with_identity msg (fun info => TransProxyKeepAlvieChan info;; sret tt).

Definition TransProxyProcessDataRecv (msg : ProxyMessage.ProxyMessage) : SF World unit :=
  let* e := ask in
  if negb (e_mem e) then sret tt
  else
    let h := ProxyMessage.msgHead msg in
    let* r := TransProxyGetRecvMsgChanInfo (ProxyMessage.myId h) (ProxyMessage.peerId h) in
    match r with
    | None => sret tt
    | Some c =>
        OnProxyChannelMsgReceived (channelId c) (appType c) (appInfo c) (ProxyMessage.data msg) (u32 (ProxyMessage.dateLen msg))
    end.

(** [free] of the data: only a decrypted message has a buffer of its own. *)
Definition TransProxyonMessageReceived (msg : ProxyMessage.ProxyMessage) : SF World unit :=
  let ty := ProxyMessage.type (ProxyMessage.msgHead msg) in
  (if ty =? ProxyMessage.PROXYCHANNEL_MSG_TYPE_HANDSHAKE then TransProxyProcessHandshakeMsg msg
   else if ty =? ProxyMessage.PROXYCHANNEL_MSG_TYPE_HANDSHAKE_ACK then TransProxyProcessHandshakeAckMsg msg
   else if ty =? ProxyMessage.PROXYCHANNEL_MSG_TYPE_RESET then TransProxyProcessResetMsg msg
   else if ty =? ProxyMessage.PROXYCHANNEL_MSG_TYPE_KEEPALIVE then TransProxyProcessKeepAlive msg
   else if ty =? ProxyMessage.PROXYCHANNEL_MSG_TYPE_KEEPALIVE_ACK then TransProxyProcessKeepAliveAck msg
   else if ty =? ProxyMessage.PROXYCHANNEL_MSG_TYPE_NORMAL then TransProxyProcessDataRecv msg
   else sret tt);;
  if negb (ProxyMessage.chiper (ProxyMessage.msgHead msg) =? 0) && negb (is_encrypted msg) then fault else sret tt.

Definition zero_msg (conn : Z) : ProxyMessage.ProxyMessage :=
  ProxyMessage.mkProxyMessage (ProxyMessage.mkMessageHead 0 0 0 0 0) 0 [] conn 0.

(** What the frame is parsed to. *)
Definition parse_frame (e : Env) (w : World) (connectionId : Z) (data : list byte) : option (Z * ProxyMessage.ProxyMessage) :=
  ProxyMessage.TransProxyParseMessage (TransProxyGetChiperSide e w)
    (fun c => bool_decide (is_Some (TransProxyGetConnectOption e c))) (e_decrypt e) (e_mem e)
    data (Z.of_nat (length data)) (zero_msg connectionId).

Definition TransProxyOnDataReceived (connectionId moduleId : Z) (data : option (list byte)) : SF World unit :=
  match data with
  | None => sret tt
  | Some data =>
      if negb (moduleId =? MODULE_PROXY_CHANNEL) then sret tt
      else
        let* e := ask in
        let* w := sgets id in
        let! (r, msg) := slift (parse_frame e w connectionId data) in
        if negb (r =? SOFTBUS_OK) then sret tt else TransProxyonMessageReceived msg
  end.

(** ** Opening (softbus_proxychannel_manager.c, softbus_proxychannel_transceiver.c) *)

Definition TransProxyCreateChanInfo (chan : ProxyChannelInfo) (chanId t : Z) (a : AppInfo) : SF World Z :=
  let* e := ask in
  let! (r, s) := slift (Utils.GenerateRandomStr (e_mem e) (e_random e) (Some (repeat 0 33)) 33) in
  if negb (r =? SOFTBUS_OK) then sret SOFTBUS_ERR
  else
    let* e := ask in
    match e_key e with
    | None => sret SOFTBUS_ERR
    | Some key =>
        TransProxyAddChanItem (chan <| myId := i16 chanId |> <| channelId := chanId |>
          <| identity := text_of (default [] s) |> <| appType := t |> <| appInfo := a <| sessionKey := key |> |>);;
        sret SOFTBUS_OK
    end.

Definition TransProxyConnExistProc (conn : ProxyConnInfo) (t : Z) (a : AppInfo) (chanNewId : Z) : SF World Z :=
  let* e := ask in
  if negb (e_mem e) then sret SOFTBUS_ERR
  else if state conn =? PROXY_CHANNEL_STATUS_PYH_CONNECTING then
    let* r := TransProxyCreateChanInfo
      (zero_chan <| reqId := i32 (requestId conn) |> <| status := PROXY_CHANNEL_STATUS_PYH_CONNECTING |>) chanNewId t a in
    if negb (r =? SOFTBUS_OK) then sret SOFTBUS_ERR else sret SOFTBUS_OK
  else
    let* r := TransProxyCreateChanInfo
      (zero_chan <| connId := p_connId conn |> <| status := PROXY_CHANNEL_STATUS_HANDSHAKEING |>) chanNewId t a in
    if negb (r =? SOFTBUS_OK) then sret SOFTBUS_ERR
    else
      TransAddConnRefByConnId (p_connId conn);;
      TransProxyPostHandshakeMsgToLoop chanNewId;; sret SOFTBUS_OK.

(** [state] of the connection that is there is read after the mutex is released. *)
Definition TransAddConnItem (chan : ProxyConnInfo) : SF World Z :=
  with_conns SOFTBUS_ERR (fun l =>
    match list_find (fun c => bool_decide (brMac (connInfo c) = brMac (connInfo chan))) l with
    | Some (_, item) =>
        (if state item =? PROXY_CHANNEL_STATUS_PYH_CONNECTED
         then TransProxyChanProcessByReqId (i32 (requestId chan)) (p_connId item) else sret tt);;
        sret SOFTBUS_ERR
    | None => put_conns (chan :: l);; add_connCnt 1;; sret SOFTBUS_OK
    end).

(** The result and the channel id that is handed out. *)
Definition TransProxyOpenConnChannel (t : Z) (a : AppInfo) (o : ConnectOption) : SF World (Z * option Z) :=
  let* e := ask in
  let reqId_ := e_reqId e in
  let* chanNewId := TransProxyGetNewMyId in
  let* found := TransGetConn o in
  match found with
  | Some conn =>
      let* r := TransProxyConnExistProc conn t a chanNewId in
      if r =? SOFTBUS_ERR then sret (SOFTBUS_ERR, None) else sret (SOFTBUS_OK, Some chanNewId)
  | None =>
      let* e := ask in
      if negb (e_mem e) then sret (SOFTBUS_ERR, None)
      else
        let* r := TransProxyCreateChanInfo
          (zero_chan <| reqId := i32 reqId_ |> <| status := PROXY_CHANNEL_STATUS_PYH_CONNECTING |> <| type := o_type o |>)
          chanNewId t a in
        if negb (r =? SOFTBUS_OK) then sret (SOFTBUS_ERR, None)
        else
          let* e := ask in
          if negb (e_mem e) then TransProxyDelChanByChanId chanNewId;; sret (SOFTBUS_ERR, None)
          else
            let* r := TransAddConnItem (mkConn reqId_ o 0 0 PROXY_CHANNEL_STATUS_PYH_CONNECTING) in
            if negb (r =? SOFTBUS_OK) then sret (SOFTBUS_OK, Some chanNewId)
            else
              emit (ConnectDevice o reqId_);;
              let* e := ask in
              if negb (e_connect e =? SOFTBUS_OK) then
                TransDelConnByReqId reqId_;; TransProxyDelChanByChanId chanNewId;; sret (e_connect e, Some chanNewId)
              else sret (SOFTBUS_OK, Some chanNewId)
  end.

Definition TransProxyOpenProxyChannel (a : option (Z * AppInfo)) (o : option ConnectOption) : SF World (Z * option Z) :=
  match a, o with
  | Some (t, a), Some o => TransProxyOpenConnChannel t a o
  | _, _ => sret (SOFTBUS_ERR, None)
  end.

Definition TransProxyOpenProxyChannelSuccess (chanId : Z) : SF World unit :=
  let* e := ask in
  if negb (e_mem e) then sret tt
  else
    let* r := TransProxyGetChanByChanId chanId in
    match r with
    | None => TransProxyCloseConnChannel (connId zero_chan);; sret tt
    | Some chan =>
        let* r := TransProxyHandshake chan in
        if r =? SOFTBUS_ERR then
          TransProxyCloseConnChannel (connId chan);;
          OnProxyChannelOpenFailed (channelId chan) (appType chan) (appInfo chan);;
          TransProxyDelChanByChanId chanId
        else sret tt
    end.

(** ** Closing and sending *)

Definition TransProxyCloseProxyOtherRes (chanId : Z) (info : ProxyChannelInfo) : SF World unit :=
  emit (DelSliceProcessor chanId);;
  emit (DelPending chanId);;
  TransProxyPostResetPeerMsgToLoop info;;
  TransProxyPostDisConnectMsgToLoop (connId info).

Definition TransProxyCloseProxyChannel (chanId : Z) : SF World Z :=
  let* e := ask in
  if negb (e_mem e) then sret SOFTBUS_MALLOC_ERR
  else
    let* r := TransProxyDelByChannelId chanId in
    match r with
    | None => sret SOFTBUS_TRANS_PROXY_DEL_CHANNELID_INVALID
    | Some info => TransProxyCloseProxyOtherRes chanId info;; sret SOFTBUS_OK
    end.

Definition TransProxySendMsg (chanId : Z) (data : list byte) (priority : Z) : SF World Z :=
  let* e := ask in
  if negb (e_mem e) then sret SOFTBUS_MALLOC_ERR
  else
    let* r := TransProxyGetSendMsgChanInfo chanId in
    match r with
    | None => sret SOFTBUS_TRANS_PROXY_SEND_CHANNELID_INVALID
    | Some info =>
        if negb (status info =? PROXY_CHANNEL_STATUS_COMPLETED) && negb (status info =? PROXY_CHANNEL_STATUS_KEEPLIVEING)
        then sret SOFTBUS_TRANS_PROXY_CHANNLE_STATUS_INVALID
        else TransProxySendMessage info data priority
    end.

(** ** The timer *)

Definition timer_move (p : ProxyChannelInfo -> bool) (limit st : Z) (r : bool * ProxyChannelInfo) : bool * ProxyChannelInfo :=
  let '(moved, c) := r in
  if p c && (timeout c >=? limit) then (true, c <| status := st |>) else (moved, c).

(** The three conditions of the loop, in their order. *)
Definition timer_chan (c : ProxyChannelInfo) : bool * ProxyChannelInfo :=
  timer_move (fun c => status c =? PROXY_CHANNEL_STATUS_COMPLETED) PROXY_CHANNEL_BT_IDLE_TIMEOUT PROXY_CHANNEL_STATUS_TIMEOUT
    (timer_move (fun c => status c =? PROXY_CHANNEL_STATUS_KEEPLIVEING) PROXY_CHANNEL_CONTROL_TIMEOUT PROXY_CHANNEL_STATUS_TIMEOUT
       (timer_move is_opening PROXY_CHANNEL_CONTROL_TIMEOUT PROXY_CHANNEL_STATUS_HANDSHAKE_TIMEOUT
          (false, c <| timeout := u16 (timeout c + 1) |>))).

Definition TransProxyTimerItemProc (l : list ProxyChannelInfo) : SF World unit :=
  sfor l (fun c =>
    (if status c =? PROXY_CHANNEL_STATUS_TIMEOUT then
       let* e := ask in
       (if e_mem e then TransProxyPostResetPeerMsgToLoop c else sret tt);;
       TransProxyPostOpenClosedMsgToLoop c;;
       TransProxyPostDisConnectMsgToLoop (connId c)
     else sret tt);;
    (if status c =? PROXY_CHANNEL_STATUS_HANDSHAKE_TIMEOUT then
       TransProxyPostOpenFailMsgToLoop c;;
       TransProxyPostDisConnectMsgToLoop (connId c)
     else sret tt);;
    (if status c =? PROXY_CHANNEL_STATUS_KEEPLIVEING then TransProxyPostKeepAliveMsgToLoop c else sret tt)).

(** What stays in the list, and what is moved to the front of another, one by one. *)
Definition stay (l : list ProxyChannelInfo) : list ProxyChannelInfo :=
  omap (fun c => let '(moved, c) := timer_chan c in if moved : bool then None else Some c) l.
Definition leave (l : list ProxyChannelInfo) : list ProxyChannelInfo :=
  reverse (omap (fun c => let '(moved, c) := timer_chan c in if moved : bool then Some c else None) l).

Definition TransProxyTimerProc : SF World unit :=
  let* g := sgets chans in
  let* cnt := sgets chanCnt in
  match g with
  | Null => sret tt
  | Freed => fault
  | Live _ =>
      if cnt =? 0 then sret tt
      else
        let* moved := with_chans [] (fun l =>
          put_chans (stay l);; add_chanCnt (- Z.of_nat (length (leave l)));; sret (leave l)) in
        TransProxyTimerItemProc moved
  end.

(** ** Callbacks *)

Definition TransOnConnectSuccessed (req connectionId : Z) : SF World unit :=
  TransSetConnStateByReqId req connectionId PROXY_CHANNEL_STATUS_PYH_CONNECTED;;
  TransProxyChanProcessByReqId (i32 req) connectionId.

Definition TransOnConnectFailed (req : Z) : SF World unit :=
  TransDelConnByReqId req;; TransProxyDelChanByReqId (i32 req).

Definition TransProxyOnDisConnect (conn : Z) : SF World unit :=
  TransProxyDelByConnId conn;; TransDelConnByConnId conn.

Definition TransProxyDeathCallback (pkg : string) : SF World unit :=
  let gone := fun c => String.eqb (pkgName (myData (appInfo c))) pkg in
  with_chans tt (fun l =>
    sfor l (fun c =>
      if gone c then
        (TransProxyResetPeer c;; TransProxyCloseConnChannel (connId c));; add_chanCnt (-1)
      else sret tt);;
    put_chans (filter (fun c => negb (gone c)) l)).

Definition TransProxyLoopMsgHandler (m : LoopMsg) : SF World unit :=
  match m with
  | LOOP_HANDSHAKE_MSG chanId => TransProxyOpenProxyChannelSuccess chanId
  | LOOP_DISCONNECT_MSG connectionId => TransProxyCloseConnChannel connectionId;; sret tt
  | LOOP_OPENFAIL_MSG chan => OnProxyChannelOpenFailed (channelId chan) (appType chan) (appInfo chan)
  | LOOP_OPENCLOSE_MSG chan => OnProxyChannelClosed (channelId chan) (appType chan) (appInfo chan)
  | LOOP_KEEPALIVE_MSG chan => TransProxyKeepalive (connId chan) chan
  | LOOP_RESETPEER_MSG chan => TransProxyResetPeer chan;; sret tt
  end.

(** ** Start *)

Definition TransProxyTransInit : SF World Z :=
  let* e := ask in
  if negb (e_ok e) then sret SOFTBUS_ERR
  else
    let* e := ask in
    if negb (e_mem e) then sret SOFTBUS_ERR
    else
      put_conns [];; smodify (fun w : World => w <| connCnt := 0 |>);;
      let* e := ask in
      if negb (e_ok e) then sret SOFTBUS_ERR else sret SOFTBUS_OK.

(** [e_ok]: the mutex and the pending packets can be initialised, the callbacks
    registered; a null callback table is refused. *)
Definition TransProxyManagerInit (cb : bool) : SF World Z :=
  let* e := ask in
  if negb (e_ok e) then sret SOFTBUS_ERR
  else if negb cb then sret SOFTBUS_ERR
  else
    let* r := TransProxyTransInit in
    if negb (r =? SOFTBUS_OK) then sret SOFTBUS_ERR
    else
      let* e := ask in
      if negb (e_mem e) then smodify (fun w : World => w <| chans := @Null ProxyChannelInfo |>);; sret SOFTBUS_ERR
      else
        put_chans [];; smodify (fun w : World => w <| chanCnt := 0 |>);;
        let* e := ask in
        if negb (e_ok e) then sret SOFTBUS_ERR
        else
          let* e := ask in
          if negb (e_ok e) then smodify (fun w : World => w <| chans := @Freed ProxyChannelInfo |>);; sret SOFTBUS_ERR
          else sret SOFTBUS_OK.

(** ** The system *)

Inductive Event :=
  | Open (a : option (Z * AppInfo)) (o : option ConnectOption)
  | Close (chanId : Z)
  | Send (chanId : Z) (data : list byte) (priority : Z)
  | NewSeq (chanId : Z)
  | SessionKey (chanId size : Z)
  | Connected (req conn : Z)
  | ConnectFailed (req : Z)
  | Disconnected (conn : Z)
  | Data (conn module : Z) (data : option (list byte))
  | Timer
  | Death (pkg : string)
  | Listen
  | Take.

(** One call from outside, or the message the looper takes next. *)
Definition step (e : Event) : SF World unit :=
  match e with
  | Open a o => TransProxyOpenProxyChannel a o;; sret tt
  | Close chanId => TransProxyCloseProxyChannel chanId;; sret tt
  | Send chanId data priority => TransProxySendMsg chanId data priority;; sret tt
  | NewSeq chanId => TransProxyGetNewChanSeq chanId;; sret tt
  | SessionKey chanId size => TransProxyGetSessionKeyByChanId chanId size;; sret tt
  | Connected req conn => TransOnConnectSuccessed req conn
  | ConnectFailed req => TransOnConnectFailed req
  | Disconnected conn => TransProxyOnDisConnect conn
  | Data conn module data => TransProxyOnDataReceived conn module data
  | Timer => TransProxyTimerProc
  | Death pkg => TransProxyDeathCallback pkg
  | Listen => TransRegisterNetworkingChannelListener;; sret tt
  | Take =>
      let* q := sgets loop in
      match q with
      | [] => sret tt
      | m :: q => smodify (fun w : World => w <| loop := q |>);; TransProxyLoopMsgHandler m
      end
  end.

Definition run (es : list Event) : SF World unit := sfor es step.
End proxy.

(** The globals before the start. *)
Definition world0 : World := mkWorld Null 0 None 0 0 1 false [] [] 0.

End ProxyChannel.
