(* ===== verification/ProxyChannelInv.v ===== *)
(** * The invariant of the proxy channels

    [fx] relates a world inside a step to the world [w0] the step began in: the list of
    channels is well formed, and every channel of [w0] is still in the list, or its
    owner was told (or a message that tells it waits), or is owed a notice, or gave it
    up itself.  Every operation has a rule on [fx]. *)

From S2P Require Import Prelude StateFault Utils OpenChannelMsg ProxyMessage ProxyHandshake ProxyChannel.

Module ProxyChannelInv.
Import OpenChannelMsg ProxyHandshake ProxyChannel.
#[local] Open Scope sf_scope.
#[local] Open Scope Z_scope.

(** ** Channels *)

Definition int16 (z : Z) : Prop := - 2 ^ 15 <= z < 2 ^ 15.

(** The statuses of the channels of the list, with the bounds of their timers. *)
Definition timed (c : ProxyChannelInfo) : Prop :=
  (is_opening c = true /\ 0 <= timeout c < PROXY_CHANNEL_CONTROL_TIMEOUT) \/
  (status c = PROXY_CHANNEL_STATUS_COMPLETED /\ 0 <= timeout c < PROXY_CHANNEL_BT_IDLE_TIMEOUT).
Definition chan_ok (c : ProxyChannelInfo) : Prop := channelId c = myId c /\ int16 (myId c) /\ timed c.

(** Ids are unique, but for the one that stands for none. *)
Definition ids (l : list Z) : list Z := filter (fun i => i <> INVALID_CHANNEL_ID) l.
Definition list_ok (l : list ProxyChannelInfo) : Prop := Forall chan_ok l /\ NoDup (ids (channelId <$> l)).

Lemma ids_sublist l l' : l' `sublist_of` l -> ids l' `sublist_of` ids l.
Proof.
  induction 1 as [|x l1 l2 H IH|x l1 l2 H IH]; [done|..]; unfold ids in *; rewrite ?filter_cons; case_decide; try done.
  - by constructor.
  - by constructor.
Qed.

Lemma list_ok_sublist l l' : list_ok l -> l' `sublist_of` l -> list_ok l'.
Proof.
  intros [H1 H2] Hs. split.
  { rewrite Forall_forall in *. intros x Hx. apply H1. eapply elem_of_submseteq; [done|]. by apply sublist_submseteq. }
  eapply sublist_NoDup; [done|]. by apply ids_sublist, fmap_sublist.
Qed.

(** Two records of one channel. *)
Definition same (c c' : ProxyChannelInfo) : Prop :=
  channelId c' = channelId c /\ identity c' = identity c /\ appType c' = appType c /\ myData (appInfo c') = myData (appInfo c).
Lemma same_refl c : same c c.
Proof. done. Qed.
Lemma same_trans a b c : same a b -> same b c -> same a c.
Proof. unfold same. intros (? & ? & ? & ?) (? & ? & ? & ?). repeat split; congruence. Qed.
Lemma proxy_same_sym a b : same a b -> same b a.
Proof. by intros (? & ? & ? & ?). Qed.
#[export] Hint Resolve same_refl : core.

Lemma same_insert (l : list ProxyChannelInfo) i c c' x : l !! i = Some c -> same c c' -> x ∈ l -> exists x', x' ∈ <[i := c']> l /\ same x x'.
Proof.
  intros Hi Hs Hx. apply list_elem_of_lookup in Hx as [j Hj]. destruct (decide (j = i)) as [->|Hne].
  - exists c'. rewrite Hi in Hj. injection Hj as <-. split; [|done]. eapply list_elem_of_lookup_2.
    by apply list_lookup_insert_eq, lookup_lt_is_Some_1; eauto.
  - exists x. split; [|done]. eapply list_elem_of_lookup_2. by rewrite list_lookup_insert_ne.
Qed.

(** An id that is one names one channel. *)
Lemma list_ok_unique l c x : list_ok l -> c ∈ l -> x ∈ l -> channelId c = channelId x -> channelId c <> INVALID_CHANNEL_ID -> c = x.
Proof.
  intros [_ Hn]. induction l as [|y l IH]; [by intros ?%elem_of_nil|]. unfold ids in *. rewrite fmap_cons, filter_cons in Hn.
  intros Hc Hx E Hi. apply elem_of_cons in Hc as [->|Hc], Hx as [->|Hx]; [done|..].
  - rewrite decide_True in Hn by done. apply NoDup_cons in Hn as [Hn _]. destruct Hn. apply list_elem_of_filter. split; [done|].
    rewrite E. by apply list_elem_of_fmap_2.
  - rewrite decide_True in Hn by (by rewrite <- E). apply NoDup_cons in Hn as [Hn _]. destruct Hn. apply list_elem_of_filter.
    split; [by rewrite <- E|]. rewrite <- E. by apply list_elem_of_fmap_2.
  - apply IH; try done. case_decide; [by apply NoDup_cons in Hn as [_ ?]|done].
Qed.

Definition pkg_of (c : ProxyChannelInfo) : string := pkgName (myData (appInfo c)).

(** Who a channel's end is told to, when the networking listens or not. *)
Definition owner (net : bool) (c : ProxyChannelInfo) : option (option string) :=
  if appType c =? APP_TYPE_NORMAL then Some (Some (pkg_of c))
  else if appType c =? APP_TYPE_INNER then if net then Some None else None
  else None.

Lemma owner_same net c c' : same c c' -> owner net c' = owner net c.
Proof. unfold owner, pkg_of. intros (_ & _ & -> & ->). done. Qed.

(** ** Inside a step *)

Section fx.
(** [q]: the channels, by id and package, that their owners gave up in this step. *)
Context (q : Z -> string -> Prop) (w0 : World).

(** A notice was sent, or waits in the looper. *)
Definition told (w : World) (c : ProxyChannelInfo) : Prop :=
  forall o, owner (netListener w0) c = Some o ->
    (exists ns, out w = out w0 ++ ns /\ (ChannelOpenFailed o (channelId c) ∈ ns \/ ChannelClosed o (channelId c) ∈ ns)) \/
    (exists ms c', loop w = loop w0 ++ ms /\ (LOOP_OPENFAIL_MSG c' ∈ ms \/ LOOP_OPENCLOSE_MSG c' ∈ ms) /\ same c c').

Lemma told_same w c c' : same c c' -> told w c' -> told w c.
Proof.
  intros Hs Ht o Ho. destruct (Ht o) as [(ns & E & Hn)|(ms & x & E & Hm & Hx)]; [by rewrite (owner_same _ c)|..].
  - left. exists ns. split; [done|]. destruct Hs as (<- & _). done.
  - right. exists ms, x. split_and!; [done..|]. by eapply same_trans.
Qed.

(** What stays true while the step goes on. *)
Definition later (w w' : World) : Prop :=
  (exists ns, out w' = out w ++ ns) /\ (exists ms, loop w' = loop w ++ ms) /\ netListener w' = netListener w.

Lemma later_trans w w' w'' : later w w' -> later w' w'' -> later w w''.
Proof.
  intros ([a Ea] & [b Eb] & En) ([a' Ea'] & [b' Eb'] & En'). split_and!; [| |congruence].
  - exists (a ++ a'). by rewrite Ea', Ea, app_assoc.
  - exists (b ++ b'). by rewrite Eb', Eb, app_assoc.
Qed.

Lemma told_later w w' c : later w w' -> told w c -> told w' c.
Proof.
  intros ([ns En] & [ms Em] & _) Ht o Ho. destruct (Ht o Ho) as [(a & E & Hn)|(b & x & E & Hm & Hx)].
  - left. exists (a ++ ns). rewrite En, E, app_assoc. split; [done|]. rewrite !elem_of_app. tauto.
  - right. exists (b ++ ms), x. rewrite Em, E, app_assoc. split_and!; [done| |done]. rewrite !elem_of_app. tauto.
Qed.

Definition msg_ok (m : LoopMsg) : Prop := match m with LOOP_KEEPALIVE_MSG _ => False | _ => True end.

(** What became of a channel. *)
Definition kept (l owed : list ProxyChannelInfo) (w : World) (c : ProxyChannelInfo) : Prop :=
  (exists c', c' ∈ l ++ owed /\ same c c') \/ told w c \/ q (channelId c) (pkg_of c).

(** The list is [l], notices about [owed] are to come, and the count is off by [d]. *)
Record fx (l owed : list ProxyChannelInfo) (d : Z) (w : World) : Prop := {
  fx_chans : chans w = Live l;
  fx_ok : list_ok l;
  fx_cnt : chanCnt w = u32 (Z.of_nat (length l) + d);
  fx_count : int16 (myIdCount w);
  fx_msgs : Forall msg_ok (loop w);
  fx_later : later w0 w;
  fx_kept : forall l0 c, chans w0 = Live l0 -> c ∈ l0 -> channelId c <> INVALID_CHANNEL_ID -> kept l owed w c }.

Lemma kept_later l owed w w' c : later w w' -> kept l owed w c -> kept l owed w' c.
Proof. intros Hl [?|[?|?]]; [by left|right; left; by eapply told_later|by right; right]. Qed.

(** A change of the world beside the list. *)
Lemma fx_frame l owed d w w' : fx l owed d w ->
  chans w' = chans w -> chanCnt w' = chanCnt w -> int16 (myIdCount w') -> Forall msg_ok (loop w') -> later w w' ->
  fx l owed d w'.
Proof.
  intros [] E1 E2 Hc Hm Hl. split; try congruence; try done; [by eapply later_trans|].
  intros l0 c H0 Hc0 Hi. eapply kept_later; [done|]. by eapply fx_kept0.
Qed.

Lemma later_refl w w' : out w' = out w -> loop w' = loop w -> netListener w' = netListener w -> later w w'.
Proof. unfold later. intros -> -> ->. split_and!; [by exists []; rewrite app_nil_r|by exists []; rewrite app_nil_r|done]. Qed.

(** A channel that the step added. *)
Definition fresh (c : ProxyChannelInfo) : Prop := forall l0 x, chans w0 = Live l0 -> x ∈ l0 -> ~ same x c.

(** The list changes: a channel stays, or is told, owed or given up, or is new. *)
Lemma fx_put l l' owed owed' d d' w : fx l owed d w -> list_ok l' -> Z.of_nat (length l') + d' = Z.of_nat (length l) + d ->
  (forall c, c ∈ l ++ owed -> channelId c <> INVALID_CHANNEL_ID ->
     (exists c', c' ∈ l' ++ owed' /\ same c c') \/ told w c \/ q (channelId c) (pkg_of c) \/ fresh c) ->
  fx l' owed' d' (w <| chans := Live l' |>).
Proof.
  intros [] Hok Hd Hk. split; try done; cbn [chanCnt]; [by rewrite fx_cnt0, Hd|].
  intros l0 c H0 Hc Hi. destruct (fx_kept0 l0 c H0 Hc Hi) as [(c' & Hin & Hs)|[?|?]]; [|by right; left|by right; right].
  pose proof Hs as (Eid & _ & _ & Em). assert (channelId c' <> INVALID_CHANNEL_ID) as Hi' by congruence.
  destruct (Hk c' Hin Hi') as [(x & Hx & Hsx)|[Ht|[Hq|Hf]]]; [| | |by destruct (Hf l0 c H0 Hc)].
  - left. exists x. split; [done|]. by eapply same_trans.
  - right; left. by eapply told_same.
  - right; right. unfold pkg_of in *. by rewrite <- Eid, <- Em.
Qed.

Lemma fx_add l owed d n w : fx l owed d w -> fx l owed (d + n) (w <| chanCnt := u32 (chanCnt w + n) |>).
Proof.
  intros []. split; try done. cbn [chanCnt]. rewrite fx_cnt0. unfold wrap. rewrite Zplus_mod_idemp_l. f_equal. lia.
Qed.

(** A notice that was owed was sent. *)
Lemma fx_paid l owed d c w : fx l (c :: owed) d w -> told w c -> fx l owed d w.
Proof.
  intros [] Ht. split; try done. intros l0 x H0 Hx Hi.
  destruct (fx_kept0 l0 x H0 Hx Hi) as [(c' & Hin & Hs)|?]; [|by right].
  apply elem_of_app in Hin as [Hin|[->|Hin]%elem_of_cons].
  - left. exists c'. split; [|done]. apply elem_of_app. by left.
  - right; left. by eapply told_same.
  - left. exists c'. split; [|done]. apply elem_of_app. by right.
Qed.

(** ** Rules *)

Context (env : nat -> Env) (hl el : nat).
(** Memory and mutexes are there, and random bytes are as many as asked for. *)
Definition env_fine (e : Env) : Prop :=
  e_mem e = true /\ e_lock e = true /\ forall n r bs, 0 <= n -> e_random e n = (r, bs) -> Z.of_nat (length bs) = n.
Context (Henv : forall n, env_fine (env n)).
Implicit Types (l owed : list ProxyChannelInfo) (c : ProxyChannelInfo) (d : Z) (w : World).

Lemma w_ask l owed d w (Q : Env -> World -> Prop) : fx l owed d w ->
  (forall e w', env_fine e -> fx l owed d w' -> later w w' -> Q e w') -> wps (ask env) Q w.
Proof.
  intros H HQ. unfold wps, ask. assert (later w (w <| tick := S (tick w) |>)) by by apply later_refl.
  apply HQ; [apply Henv| |done]. destruct H. by eapply fx_frame.
Qed.

Lemma w_emit l owed d w o (Q : unit -> World -> Prop) : fx l owed d w ->
  (forall w', fx l owed d w' -> later w w' -> out w' = out w ++ [o] -> Q tt w') -> wps (emit o) Q w.
Proof.
  intros H HQ. unfold emit. apply wps_modify.
  assert (later w (w <| out := out w ++ [o] |>)) by (split_and!; [by exists [o]|by exists []; rewrite app_nil_r|done]).
  apply HQ; [|done..]. destruct H. by eapply fx_frame.
Qed.

Lemma w_post l owed d w m (Q : unit -> World -> Prop) : msg_ok m -> fx l owed d w ->
  (forall w', fx l owed d w' -> later w w' -> (exists v, later w v /\ loop w' = loop v ++ [m] /\ out w' = out v) -> Q tt w') ->
  wps (post env m) Q w.
Proof.
  intros Hm H HQ. unfold post. apply wps_bind. eapply w_ask; [done|]. intros e w1 (Hmem & _) H1 Hl. rewrite Hmem. apply wps_modify.
  assert (later w1 (w1 <| loop := loop w1 ++ [m] |>)) by (split_and!; [by exists []; rewrite app_nil_r|by exists [m]|done]).
  apply HQ; [|by eapply later_trans|by exists w1]. pose proof H1 as []. eapply fx_frame; [exact H1|done..| |done]. apply Forall_app. by split; [|constructor].
Qed.

Lemma w_with {B} l owed d w (r : B) k (Q : B -> World -> Prop) : fx l owed d w ->
  (forall w', fx l owed d w' -> later w w' -> wps (k l) Q w') -> wps (with_chans env r k) Q w.
Proof.
  intros H Hk. unfold with_chans. apply wps_bind, wps_gets. rewrite (fx_chans _ _ _ _ H). apply wps_bind.
  eapply w_ask; [done|]. intros e w' (_ & Hlock & _) H' Hl. rewrite Hlock. by apply Hk.
Qed.

Lemma w_first {B} l owed d w f (r : B) k (Q : B -> World -> Prop) : fx l owed d w ->
  (forall i c w', l !! i = Some c -> f c = true -> (forall j y, l !! j = Some y -> (j < i)%nat -> f y = false) ->
     fx l owed d w' -> later w w' -> wps (k l i c) Q w') ->
  (forall w', fx l owed d w' -> later w w' -> (forall c, c ∈ l -> f c = false) -> Q r w') ->
  wps (first_chan env f r k) Q w.
Proof.
  intros H Hk Hr. unfold first_chan. eapply w_with; [done|]. intros w' H' Hl.
  destruct (list_find _ l) as [[i c]|] eqn:E.
  - apply list_find_Some in E as (Hi & Hc & Hj). apply Hk; try done; [by apply Is_true_eq_true|].
    intros j y Hy Hlt. apply not_true_is_false. intros Ht. by apply (Hj j y Hy Hlt), Is_true_eq_left.
  - apply list_find_None in E. apply wps_ret, Hr; [done..|]. intros c Hc. rewrite Forall_forall in E.
    apply not_true_is_false. intros Ht. by apply (E c Hc), Is_true_eq_left.
Qed.

(** The world after an operation: the list is some list, nothing is owed. *)
Definition fin (w : World) : Prop := exists l, fx l [] 0 w.
Lemma fin_intro l w : fx l [] 0 w -> fin w.
Proof. by exists l. Qed.

Lemma list_ok_update l i c c' : list_ok l -> l !! i = Some c -> chan_ok c' -> channelId c' = channelId c -> list_ok (<[i := c']> l).
Proof.
  intros [Hf Hn] Hi Hc Ec. split; [by apply Forall_insert|]. rewrite list_fmap_insert, Ec, list_insert_id; [done|].
  by rewrite list_lookup_fmap, Hi.
Qed.

(** A channel is replaced by another record of it. *)
Lemma w_update l owed d w i c c' (Q : unit -> World -> Prop) : fx l owed d w -> l !! i = Some c -> same c c' -> chan_ok c' ->
  (forall w', fx (<[i := c']> l) owed d w' -> later w w' -> Q tt w') -> wps (put_chans (<[i := c']> l)) Q w.
Proof.
  intros H Hi Hs Hc HQ. apply wps_modify, HQ; [|by apply later_refl].
  eapply fx_put; [done|eapply list_ok_update; [apply H|done..|apply Hs]|by rewrite length_insert|].
  intros x [Hx|Hx]%elem_of_app _; left; [|exists x; split; [|done]; apply elem_of_app; by right].
  destruct (same_insert l i c c' x) as (x' & Hx' & Hsx); [done..|]. exists x'. split; [|done]. apply elem_of_app. by left.
Qed.

(** A channel is removed. *)
Lemma w_delete {B} l owed owed' d w i c (k : SF World B) (Q : B -> World -> Prop) : fx l owed d w -> l !! i = Some c ->
  (forall x, x ∈ owed -> x ∈ owed') ->
  (channelId c <> INVALID_CHANNEL_ID -> c ∈ owed' \/ told w c \/ q (channelId c) (pkg_of c) \/ fresh c) ->
  (forall w', fx (delete i l) owed' d w' -> later w w' -> wps k Q w') ->
  wps (put_chans (delete i l);; add_chanCnt (-1);; k) Q w.
Proof.
  intros H Hi Ho Hc HQ. apply wps_bind, wps_modify, wps_bind, wps_modify. apply HQ; [|by apply later_refl].
  assert (i < length l)%nat as Hlt by (apply lookup_lt_is_Some_1; eauto).
  replace d with ((d + 1) + - 1) by lia. apply fx_add. eapply fx_put; [done|eapply list_ok_sublist; [apply H|apply sublist_delete]| |].
  { rewrite length_delete by eauto. lia. }
  intros x [Hx|Hx]%elem_of_app Hid; [|left; exists x; split; [|done]; apply elem_of_app; right; by apply Ho].
  apply list_elem_of_lookup in Hx as [j Hj]. destruct (decide (j = i)) as [->|Hne].
  - rewrite Hi in Hj. injection Hj as <-. destruct (Hc Hid) as [?|?]; [left|by right]. exists c. split; [|done]. apply elem_of_app. by right.
  - left. exists x. split; [|done]. apply elem_of_app. left. rewrite delete_take_drop.
    apply elem_of_app. destruct (decide (j < i)%nat).
    + left. eapply list_elem_of_lookup_2. rewrite lookup_take_lt by done. done.
    + right. apply (list_elem_of_lookup_2 _ (j - S i)%nat). rewrite lookup_drop. rewrite <- Hj. f_equal. lia.
Qed.

(** ** Operations that leave the channels alone *)

Definition aside {B} (m : SF World B) : Prop :=
  forall l owed d w, fx l owed d w -> wps m (fun _ w' => fx l owed d w' /\ later w w') w.

Lemma later_self w : later w w.
Proof. by apply later_refl. Qed.
Lemma aside_ret {B} (b : B) : aside (sret b).
Proof. intros l owed d w H. apply wps_ret. split; [done|apply later_self]. Qed.
Lemma aside_gets {B} (f : World -> B) : aside (sgets f).
Proof. intros l owed d w H. apply wps_gets. split; [done|apply later_self]. Qed.
Lemma aside_bind {B C} (m : SF World B) (k : B -> SF World C) : aside m -> (forall b, aside (k b)) -> aside (sbind m k).
Proof.
  intros Hm Hk l owed d w H. apply wps_bind. eapply wps_mono; [by apply Hm|]. intros b w1 [H1 L1].
  eapply wps_mono; [by apply Hk|]. intros c w2 [H2 L2]. split; [done|by eapply later_trans].
Qed.
Lemma aside_ask : aside (ask env).
Proof. intros l owed d w H. by eapply w_ask. Qed.
Lemma aside_emit o : aside (emit o).
Proof. intros l owed d w H. by eapply w_emit. Qed.
Lemma aside_post m : msg_ok m -> aside (post env m).
Proof. intros Hm l owed d w H. by eapply w_post. Qed.
Lemma aside_modify (f : World -> World) :
  (forall w, chans (f w) = chans w /\ chanCnt (f w) = chanCnt w /\ myIdCount (f w) = myIdCount w /\ out (f w) = out w /\
             loop (f w) = loop w /\ netListener (f w) = netListener w) -> aside (smodify f).
Proof.
  intros Hf l owed d w H. destruct (Hf w) as (E1 & E2 & E3 & E4 & E5 & E6). apply wps_modify.
  assert (later w (f w)) by by apply later_refl. split; [|done]. pose proof H as [].
  eapply fx_frame; [exact H|done|done|by rewrite E3|by rewrite E5|done].
Qed.
Lemma aside_with_conns {B} (r : B) k : (forall m, aside (k m)) -> aside (with_conns env r k).
Proof.
  intros Hk. apply aside_bind; [apply aside_gets|]. intros [m|]; [|apply aside_ret]. apply aside_bind; [apply aside_ask|].
  intros e. destruct (negb _); [apply aside_ret|apply Hk].
Qed.

Ltac aside_step :=
  cbv beta zeta;
  lazymatch goal with
  | |- aside (sbind _ _) => apply aside_bind; [|intros ?]
  | |- aside (sret _) => apply aside_ret
  | |- aside (sgets _) => apply aside_gets
  | |- aside (ask _) => apply aside_ask
  | |- aside (emit _) => apply aside_emit
  | |- aside (post _ _) => apply aside_post; done
  | |- aside (with_conns _ _ _) => apply aside_with_conns; intros ?
  | |- aside (smodify _) => apply aside_modify; done
  | |- aside (put_conns _) => apply aside_modify; done
  | |- aside (add_connCnt _) => apply aside_modify; done
  | |- aside (if ?b then _ else _) => destruct b
  | |- aside (match ?x with _ => _ end) => destruct x
  end.
Ltac aside_steps := repeat (aside_step || (progress eauto)).

Lemma aside_del_req r : aside (TransDelConnByReqId env r).
Proof. unfold TransDelConnByReqId. aside_steps. Qed.
Lemma aside_del_conn n : aside (TransDelConnByConnId env n).
Proof. unfold TransDelConnByConnId. aside_steps. Qed.
Lemma aside_dec n : aside (TransDecConnRefByConnId env n).
Proof. unfold TransDecConnRefByConnId. aside_steps. Qed.
Lemma aside_ref n : aside (TransAddConnRefByConnId env n).
Proof. unfold TransAddConnRefByConnId. aside_steps. Qed.
Lemma aside_send n b p : aside (TransProxyTransSendMsg env n b p).
Proof. unfold TransProxyTransSendMsg. aside_steps. Qed.
Lemma aside_create n : aside (TransCreateConnByConnId env n).
Proof. unfold TransCreateConnByConnId. aside_steps. Qed.
Lemma aside_state r n st : aside (TransSetConnStateByReqId env r n st).
Proof. unfold TransSetConnStateByReqId. aside_steps. Qed.
Lemma aside_handshake_msg i : aside (TransProxyPostHandshakeMsgToLoop env i).
Proof. unfold TransProxyPostHandshakeMsgToLoop. aside_steps. Qed.
Hint Resolve aside_del_req aside_del_conn aside_dec aside_ref aside_send aside_create aside_state aside_handshake_msg : core.
Lemma aside_close n : aside (TransProxyCloseConnChannel env n).
Proof. unfold TransProxyCloseConnChannel. aside_steps. Qed.
Lemma aside_text ty n my peer p t : aside (send_text env hl el ty n my peer p t).
Proof. unfold send_text. aside_steps. Qed.
Lemma aside_message c b p : aside (TransProxySendMessage env hl el c b p).
Proof. unfold TransProxySendMessage. aside_steps. Qed.
Lemma aside_opened i t a s : aside (OnProxyChannelOpened env i t a s).
Proof. unfold OnProxyChannelOpened, NotifyNormalChannelOpened, NotifyNetworkingChannelOpened. aside_steps. Qed.
Lemma aside_received i t a b n : aside (OnProxyChannelMsgReceived i t a b n).
Proof. unfold OnProxyChannelMsgReceived, notify_networking. aside_steps. Qed.
Hint Resolve aside_close aside_text aside_message aside_opened aside_received : core.

(** Use of such an operation. *)
Lemma w_aside {B} (m : SF World B) l owed d w (Q : B -> World -> Prop) : aside m -> fx l owed d w ->
  (forall b w', fx l owed d w' -> later w w' -> Q b w') -> wps m Q w.
Proof. intros Hm H HQ. eapply wps_mono; [by apply Hm|]. intros b w' []. by apply HQ. Qed.

(** ** Notices *)

Lemma told_out l owed d w w' c o : fx l owed d w -> out w' = out w ++ [o] ->
  (forall x, owner (netListener w0) c = Some x -> o = ChannelOpenFailed x (channelId c) \/ o = ChannelClosed x (channelId c)) ->
  told w' c.
Proof.
  intros H E Ho x Hx. destruct (fx_later _ _ _ _ H) as ([ns En] & _). left. exists (ns ++ [o]). rewrite E, En, app_assoc. split; [done|].
  rewrite !elem_of_app, !list_elem_of_singleton. destruct (Ho x Hx) as [<-|<-]; tauto.
Qed.

Lemma told_loop l owed d w v w' c m : fx l owed d w -> later w v -> loop w' = loop v ++ [m] ->
  m = LOOP_OPENFAIL_MSG c \/ m = LOOP_OPENCLOSE_MSG c -> told w' c.
Proof.
  intros H ( _ & [ms Em] & _) E Hm x Hx. destruct (fx_later _ _ _ _ H) as (_ & [ms0 E0] & _). right. exists (ms0 ++ ms ++ [m]), c.
  rewrite E, Em, E0, !app_assoc. split_and!; [done| |done]. rewrite !elem_of_app, !list_elem_of_singleton. destruct Hm as [<-|<-]; tauto.
Qed.

(** A notice of either kind about [c]. *)
Lemma w_notify (mk : option string -> Z -> Out) l owed d w c (Q : unit -> World -> Prop) :
  (forall o i, mk o i = ChannelOpenFailed o i) \/ (forall o i, mk o i = ChannelClosed o i) -> fx l owed d w ->
  (forall w', fx l owed d w' -> later w w' -> told w' c -> Q tt w') ->
  wps (if appType c =? APP_TYPE_NORMAL then emit (mk (Some (pkgName (myData (appInfo c)))) (channelId c))
       else if appType c =? APP_TYPE_AUTH then sret tt
       else if appType c =? APP_TYPE_INNER then notify_networking (mk None (channelId c)) else sret tt) Q w.
Proof.
  intros Hmk H HQ. assert (netListener w = netListener w0) as En by apply (fx_later _ _ _ _ H).
  assert (forall x, mk x (channelId c) = ChannelOpenFailed x (channelId c) \/ mk x (channelId c) = ChannelClosed x (channelId c)) as Hx
    by (destruct Hmk as [Hm|Hm]; intros; rewrite Hm; tauto).
  destruct (appType c =? APP_TYPE_NORMAL) eqn:E1.
  { eapply w_emit; [done|]. intros w' H' L E. apply HQ; [done..|]. eapply told_out; [exact H|done|]. unfold owner. rewrite E1.
    intros x [= <-]. apply Hx. }
  destruct (appType c =? APP_TYPE_AUTH) eqn:E2.
  { apply wps_ret, HQ; [done|apply later_self|]. unfold told, owner. rewrite E1. replace (appType c =? APP_TYPE_INNER) with false; [done|].
    unfold APP_TYPE_AUTH, APP_TYPE_INNER in *. lia. }
  destruct (appType c =? APP_TYPE_INNER) eqn:E3.
  - unfold notify_networking. apply wps_bind, wps_gets. rewrite En. destruct (netListener w0) eqn:E4.
    + eapply w_emit; [done|]. intros w' H' L E. apply HQ; [done..|]. eapply told_out; [exact H|done|]. unfold owner. rewrite E1, E3, E4.
      intros x [= <-]. apply Hx.
    + apply wps_ret, HQ; [done|apply later_self|]. unfold told, owner. by rewrite E1, E3, E4.
  - apply wps_ret, HQ; [done|apply later_self|]. unfold told, owner. by rewrite E1, E3.
Qed.

Lemma w_failed l owed d w c (Q : unit -> World -> Prop) : fx l owed d w ->
  (forall w', fx l owed d w' -> later w w' -> told w' c -> Q tt w') ->
  wps (OnProxyChannelOpenFailed (channelId c) (appType c) (appInfo c)) Q w.
Proof. intros H HQ. eapply (w_notify ChannelOpenFailed); [by left|done..]. Qed.

Lemma w_closed l owed d w c (Q : unit -> World -> Prop) : fx l owed d w ->
  (forall w', fx l owed d w' -> later w w' -> told w' c -> Q tt w') ->
  wps (OnProxyChannelClosed (channelId c) (appType c) (appInfo c)) Q w.
Proof. intros H HQ. eapply (w_notify ChannelClosed); [by right|done..]. Qed.

Lemma w_tell l owed d w c m (Q : unit -> World -> Prop) : m = LOOP_OPENFAIL_MSG c \/ m = LOOP_OPENCLOSE_MSG c -> fx l owed d w ->
  (forall w', fx l owed d w' -> later w w' -> told w' c -> Q tt w') -> wps (post env m) Q w.
Proof.
  intros Hm H HQ. eapply w_post; [by destruct Hm; subst|done|]. intros w' H' L (v & Lv & E & _). apply HQ; [done..|].
  eapply told_loop; [exact H|exact Lv|exact E|done].
Qed.
(** ** New channels *)

Lemma w_new_id l owed d w n (Q : Z -> World -> Prop) : fx l owed d w ->
  (forall r w', fx l owed d w' -> int16 r -> r = INVALID_CHANNEL_ID \/ r ∉ (channelId <$> l) -> Q r w') -> wps (new_id env n) Q w.
Proof.
  intros H HQ. revert w H. induction n as [|n IH]; intros w H; cbn [new_id].
  { apply wps_ret, HQ; [done|unfold int16, INVALID_CHANNEL_ID; lia|by left]. }
  apply wps_bind, wps_modify, wps_bind, wps_gets, wps_bind. match goal with |- wps _ _ ?x => set (w1 := x) end.
  assert (fx l owed d w1) as H1.
  { pose proof H as []. eapply fx_frame; [exact H|done..| | |by apply later_refl]; [|done]. cbn. unfold int16. wrap_lia. }
  set (k := id_of _). assert (int16 k) as Hk by (unfold k, id_of, int16; wrap_lia). clearbody w1 k.
  unfold MyIdIsValid. eapply w_with; [done|]. intros w2 H2 _. apply wps_ret. destruct (existsb _ l) eqn:E; cbn [Z.eqb SOFTBUS_ERR SOFTBUS_OK].
  { by apply IH. }
  apply wps_ret, HQ; [done..|]. right. intros (c & Ec & Hc)%list_elem_of_fmap. apply not_true_iff_false in E. apply E.
  apply existsb_exists. exists c. split; [by apply list_elem_of_In|].
  pose proof (fx_ok _ _ _ _ H2) as [Hf _]. rewrite Forall_forall in Hf. destruct (Hf c Hc) as (Ei & _). lia.
Qed.

Lemma w_getid l owed d w (Q : Z -> World -> Prop) : fx l owed d w ->
  (forall r w', fx l owed d w' -> int16 r -> r = INVALID_CHANNEL_ID \/ r ∉ (channelId <$> l) -> Q r w') ->
  wps (TransProxyGetNewMyId env) Q w.
Proof.
  intros H HQ. unfold TransProxyGetNewMyId. apply wps_bind. eapply w_ask; [done|]. intros e w' (_ & Hl & _) H' _. rewrite Hl. cbn [negb].
  by eapply w_new_id.
Qed.

Lemma list_ok_cons l c : list_ok l -> chan_ok c -> channelId c = INVALID_CHANNEL_ID \/ channelId c ∉ (channelId <$> l) -> list_ok (c :: l).
Proof.
  intros [Hf Hn] Hc Hi. split; [by constructor|]. unfold ids in *. rewrite fmap_cons, filter_cons. case_decide as Hd; [|done].
  apply NoDup_cons. split; [|done]. rewrite list_elem_of_filter. destruct Hi; [done|tauto].
Qed.

Lemma w_add l w c (Q : bool -> World -> Prop) : fx l [] 0 w -> chan_ok c ->
  channelId c = INVALID_CHANNEL_ID \/ channelId c ∉ (channelId <$> l) ->
  (forall w', fx (c :: l) [] 0 w' -> Q true w') -> wps (TransProxyAddChanItem env c) Q w.
Proof.
  intros H Hc Hi HQ. unfold TransProxyAddChanItem. eapply w_with; [done|]. intros w1 H1 _.
  apply wps_bind, wps_modify, wps_bind, wps_modify, wps_ret, HQ. change 0 with (-1 + 1). apply fx_add.
  eapply fx_put; [done|apply list_ok_cons; [apply H1|done..]|cbn [length]; lia|].
  intros x Hx _. left. exists x. split; [|done]. rewrite app_nil_r in *. by right.
Qed.

Lemma fresh_id l c : chans w0 = Live l -> channelId c ∉ (channelId <$> l) -> fresh c.
Proof. intros H0 Hc l0 x E Hx (Ei & _). rewrite H0 in E. injection E as <-. apply Hc. rewrite Ei. by apply list_elem_of_fmap_2. Qed.

Lemma w_create l w c id t a (Q : Z -> World -> Prop) : fx l [] 0 w -> int16 id -> timed c ->
  id = INVALID_CHANNEL_ID \/ id ∉ (channelId <$> l) ->
  (forall w', fx l [] 0 w' -> Q SOFTBUS_ERR w') ->
  (forall c' w', fx (c' :: l) [] 0 w' -> channelId c' = id -> Q SOFTBUS_OK w') ->
  wps (TransProxyCreateChanInfo env c id t a) Q w.
Proof.
  intros H Hi Ht Hn HE HO. unfold TransProxyCreateChanInfo. apply wps_bind. eapply w_ask; [done|]. intros e w1 (Hm & _ & Hr) H1 _.
  assert (exists r s, Utils.GenerateRandomStr (e_mem e) (e_random e) (Some (repeat 0 33)) 33 = Some (r, s)) as (r & s & E).
  { unfold Utils.GenerateRandomStr. rewrite Hm. cbn [negb Z.ltb]. change (33 / Utils.HEXIFY_UNIT_LEN) with 16.
    change (33 <? Utils.HEXIFY_UNIT_LEN) with false. cbv iota. destruct (e_random e 16) as [r bs] eqn:Er.
    specialize (Hr 16 r bs ltac:(lia) Er). case_if; [eauto|]. change (i32 16) with 16. rewrite <- Hr.
    rewrite (Utils.ConvertBytesToHexString_ok bs (repeat 0 33) 33); [cbn; eauto|done|]. rewrite Hr. done. }
  apply wps_bind. eapply wps_lift; [exact E|]. cbv beta iota. destruct (negb (r =? SOFTBUS_OK)); [by apply wps_ret, HE|]. apply wps_bind. eapply w_ask; [done|].
  intros e2 w2 _ H2 _. destruct (e_key e2); [|by apply wps_ret, HE]. apply wps_bind. eapply w_add; [done| |done|].
  - split_and!; cbn [channelId myId]; [|unfold int16; wrap_lia|exact Ht]. unfold int16 in Hi. wrap_lia.
  - intros w3 H3. apply wps_ret. by eapply HO.
Qed.

(** ** Updates *)

Lemma chan_ok_at l owed d w i c : fx l owed d w -> l !! i = Some c -> chan_ok c.
Proof. intros H Hi. destruct (fx_ok _ _ _ _ H) as [Hf _]. rewrite Forall_lookup in Hf. eauto. Qed.

(** A channel that is found is replaced by another record of it. *)
Lemma w_found {B} l w f (g : ProxyChannelInfo -> ProxyChannelInfo) (r : B) (h : ProxyChannelInfo -> B) (Q : B -> World -> Prop) :
  fx l [] 0 w -> (forall c, chan_ok c -> same c (g c) /\ chan_ok (g c)) ->
  (forall i c w', fx (<[i := g c]> l) [] 0 w' -> l !! i = Some c -> f c = true -> Q (h c) w') ->
  (forall w', fx l [] 0 w' -> Q r w') ->
  wps (first_chan env f r (fun l i c => put_chans (<[i := g c]> l);; sret (h c))) Q w.
Proof.
  intros H Hg HQ Hr. eapply w_first; [done| |by intros; apply Hr]. intros i c w' Hi Hf _ H' _. apply wps_bind.
  destruct (Hg c) as [Hs Hc]; [by eapply chan_ok_at|]. eapply w_update; [done..|]. intros w2 H2 _. by eapply wps_ret, HQ.
Qed.

Lemma touch_ok c : chan_ok c -> same c (touch c) /\ chan_ok (touch c).
Proof.
  intros (H1 & H2 & H3). unfold touch. destruct (status c =? PROXY_CHANNEL_STATUS_COMPLETED) eqn:E; [|done].
  split; [done|]. split_and!; [done..|]. right. cbn. unfold PROXY_CHANNEL_BT_IDLE_TIMEOUT, PROXY_CHANNEL_STATUS_COMPLETED in *. lia.
Qed.

(** ** Sweeps *)

Lemma length_split (gone : ProxyChannelInfo -> bool) l :
  (length (filter (fun c => negb (gone c)) l) + length (filter (fun c => gone c) l) = length l)%nat.
Proof.
  induction l as [|c l IH]; [done|]. rewrite !filter_cons. destruct (gone c); cbn [negb]; repeat case_decide; try done; cbn [length]; lia.
Qed.

(** The loop that removes the channels with a property, each told or given up. *)
Lemma w_sweep {B} (gone : ProxyChannelInfo -> bool) (f : ProxyChannelInfo -> SF World B) l w (Q : unit -> World -> Prop) :
  fx l [] 0 w ->
  (forall c d w, c ∈ l -> fx l [] d w -> gone c = true ->
     wps (f c) (fun _ w' => fx l [] d w' /\ later w w' /\ (told w' c \/ q (channelId c) (pkg_of c))) w) ->
  (forall w', fin w' -> Q tt w') ->
  wps (sfor l (fun c => if gone c then f c;; add_chanCnt (-1) else sret tt);;
       put_chans (filter (fun c => negb (gone c)) l)) Q w.
Proof.
  intros H Hf HQ. apply wps_bind. pose (n pre := Z.of_nat (length (filter (fun c => gone c) pre))).
  eapply wps_mono; [apply (wps_for _ (fun rest w' => exists pre, l = pre ++ rest /\ fx l [] (- n pre) w' /\
    forall c, c ∈ pre -> gone c = true -> told w' c \/ q (channelId c) (pkg_of c)))|].
  - exists []. split_and!; [done..|]. by intros c ?%elem_of_nil.
  - intros c rest w1 (pre & El & H1 & Ht). assert (c ∈ l) as Hc by (rewrite El; apply elem_of_app; right; left).
    assert (n (pre ++ [c]) = n pre + if gone c then 1 else 0) as En.
    { unfold n. rewrite filter_app, length_app, filter_cons, filter_nil. destruct (gone c); case_decide; try done; cbn [length]; lia. }
    destruct (gone c) eqn:Eg.
    + apply wps_bind. eapply wps_mono; [by apply Hf|]. intros ? w2 (H2 & L2 & Ht2). apply wps_modify.
      exists (pre ++ [c]). rewrite <- app_assoc. split_and!; [done| |].
      * replace (- n (pre ++ [c])) with (- n pre + -1) by lia. by apply fx_add.
      * assert (later w2 (w2 <| chanCnt := u32 (chanCnt w2 + -1) |>)) as L3 by by apply later_refl.
        intros x [Hx|Hx%list_elem_of_singleton]%elem_of_app Hg; [|subst x].
        -- destruct (Ht x Hx Hg); [left|by right]. eapply told_later; [|done]. by eapply later_trans.
        -- destruct Ht2; [left|by right]. by eapply told_later.
    + apply wps_ret. exists (pre ++ [c]). rewrite <- app_assoc. split_and!; [done|by rewrite En, Z.add_0_r|].
      intros x [Hx|Hx%list_elem_of_singleton]%elem_of_app Hg; [by apply Ht|congruence].
  - intros [] w1 (pre & El & H1 & Ht). rewrite app_nil_r in El. subst pre. apply wps_modify, HQ. eexists.
    eapply fx_put; [done|eapply list_ok_sublist; [apply H1|apply sublist_filter]| |].
    + unfold n. pose proof (length_split gone l). lia.
    + intros c Hc _. rewrite app_nil_r in *. destruct (gone c) eqn:Eg; [destruct (Ht c Hc Eg); tauto|].
      left. exists c. split; [|done]. apply list_elem_of_filter. by rewrite Eg.
Qed.

(** Every channel is replaced by another record of it. *)
Lemma fx_map l l' w : fx l [] 0 w -> Forall2 (fun c c' => same c c' /\ chan_ok c') l l' -> fx l' [] 0 (w <| chans := Live l' |>).
Proof.
  intros H Hl. eapply fx_put; [done| |by rewrite (Forall2_length _ _ _ Hl)|].
  - pose proof (fx_ok _ _ _ _ H) as [_ Hn]. assert (channelId <$> l' = channelId <$> l) as E.
    { clear -Hl. induction Hl as [|c c' l l' [(E & _) _] _ IH]; [done|]. cbn. by rewrite E, IH. }
    split; [|by rewrite E]. clear -Hl. induction Hl as [|? ? ? ? [_ ?] _ IH]; by constructor.
  - intros c Hc _. left. rewrite app_nil_r in *. apply list_elem_of_lookup in Hc as [i Hi].
    destruct (Forall2_lookup_l _ _ _ _ _ Hl Hi) as (c' & Hi' & Hs & _). exists c'. split; [|done]. by eapply list_elem_of_lookup_2.
Qed.

(** ** The operations on the list *)

Definition fins {B} (m : SF World B) : Prop := forall w, fin w -> wps m (fun _ w' => fin w') w.

Lemma fins_aside {B} (m : SF World B) : aside m -> fins m.
Proof. intros Hm w [l H]. eapply w_aside; [done..|]. intros b w' H' _. by exists l. Qed.
Lemma fins_ret {B} (b : B) : fins (sret b).
Proof. intros w H. by apply wps_ret. Qed.
Lemma fins_bind {B C} (m : SF World B) (k : B -> SF World C) : fins m -> (forall b, fins (k b)) -> fins (sbind m k).
Proof. intros Hm Hk w H. apply wps_bind. eapply wps_mono; [by apply Hm|]. intros b w' H'. by apply Hk. Qed.

Lemma fins_found {B} f (g : ProxyChannelInfo -> ProxyChannelInfo) (r : B) (h : ProxyChannelInfo -> B) :
  (forall c, chan_ok c -> same c (g c) /\ chan_ok (g c)) ->
  fins (first_chan env f r (fun l i c => put_chans (<[i := g c]> l);; sret (h c))).
Proof. intros Hg w [l H]. eapply w_found; [done..| |]; [intros i c w' H' _ _|intros w' H']; by eexists. Qed.

Lemma fins_process req n : fins (TransProxyChanProcessByReqId env req n).
Proof.
  intros w [l H]. unfold TransProxyChanProcessByReqId. eapply w_with; [done|]. intros w1 H1 _. apply wps_bind.
  eapply wps_mono; [apply (wps_fold _ (fun rest l' w' => fx l [] 0 w' /\ exists pre, l = pre ++ rest /\
    Forall2 (fun c c' => same c c' /\ chan_ok c') pre l'))|].
  - split; [done|]. by exists [].
  - intros c rest l' w2 (H2 & pre & El & Hp). assert (chan_ok c) as Hc.
    { eapply (chan_ok_at l [] 0 w2 (length pre)); [done|]. by rewrite El, list_lookup_middle. }
    assert (forall c' w3, fx l [] 0 w3 -> same c c' -> chan_ok c' -> fx l [] 0 w3 /\ exists pre', l = pre' ++ rest /\
      Forall2 (fun c c' => same c c' /\ chan_ok c') pre' (l' ++ [c'])) as Hnext.
    { intros c' w3 H3 Hs Hk. split; [done|]. exists (pre ++ [c]). rewrite <- app_assoc. split; [done|]. apply Forall2_app; [done|].
      by constructor. }
    destruct ((reqId c =? req) && _) eqn:E; [|by apply wps_ret, Hnext].
    apply wps_bind. eapply w_aside; [apply aside_ref|done|]. intros ? w3 H3 _. apply wps_bind.
    eapply w_aside; [apply aside_handshake_msg|done|]. intros ? w4 H4 _. apply wps_ret, Hnext; [done..|].
    destruct Hc as (E1 & E2 & Ht). split_and!; [done..|]. left. split; [done|]. destruct Ht as [[_ Ht]|[Es _]]; [exact Ht|].
    unfold PROXY_CHANNEL_STATUS_COMPLETED, PROXY_CHANNEL_STATUS_PYH_CONNECTING in *. lia.
  - intros l' w2 (H2 & pre & El & Hp). rewrite app_nil_r in El. subst pre. apply wps_modify. eexists. by apply fx_map with (l := l).
Qed.

Lemma fins_del_req req : fins (TransProxyDelChanByReqId env req).
Proof.
  intros w [l H]. unfold TransProxyDelChanByReqId. eapply w_with; [done|]. intros w1 H1 _.
  apply (w_sweep (fun c => (reqId c =? req) && (status c =? PROXY_CHANNEL_STATUS_PYH_CONNECTING))); [done| |done].
  intros c d w2 Hc H2 _. eapply w_tell; [by left|done|]. auto.
Qed.

Lemma fins_del_conn n : fins (TransProxyDelByConnId env n).
Proof.
  intros w [l H]. unfold TransProxyDelByConnId. eapply w_with; [done|]. intros w1 H1 _.
  apply (w_sweep (fun c => connId c =? n)); [done| |done]. intros c d w2 Hc H2 _.
  destruct (is_opening c); [eapply w_failed|eapply w_closed]; [done|auto|done|auto].
Qed.

Lemma fins_death pkg : (forall i, q i pkg) -> fins (TransProxyDeathCallback env hl el pkg).
Proof.
  intros Hq w [l H]. unfold TransProxyDeathCallback. eapply w_with; [done|]. intros w1 H1 _.
  apply (w_sweep (fun c => String.eqb (pkgName (myData (appInfo c))) pkg)); [done| |done]. intros c d w2 Hc H2 E%String.eqb_eq.
  eapply (w_aside _ l [] d w2); [|done|]; [|intros ? w3 H3 L3; split_and!; [done..|right; unfold pkg_of; by rewrite E]].
  apply aside_bind; [apply aside_text|intros _; apply aside_close].
Qed.

(** A channel that is found is removed. *)
Lemma w_removed {B} l w f (r : B) (h : ProxyChannelInfo -> B) (Q : B -> World -> Prop)
    (debt : ProxyChannelInfo -> list ProxyChannelInfo) : fx l [] 0 w ->
  (forall c, c ∈ l -> f c = true -> channelId c <> INVALID_CHANNEL_ID -> c ∈ debt c \/ told w c \/ q (channelId c) (pkg_of c) \/ fresh c) ->
  (forall i c w', fx (delete i l) (debt c) 0 w' -> l !! i = Some c -> f c = true -> Q (h c) w') ->
  (forall w', fx l [] 0 w' -> Q r w') ->
  wps (first_chan env f r (fun l i c => put_chans (delete i l);; add_chanCnt (-1);; sret (h c))) Q w.
Proof.
  intros H Hc HQ Hr. eapply w_first; [done| |by intros; apply Hr]. intros i c w' Hi Hf _ H' L.
  eapply (w_delete l [] (debt c)); [done|done|by intros x ?%elem_of_nil| |].
  - intros Hid. destruct (Hc c) as [?|[?|?]]; [by eapply list_elem_of_lookup_2|done..|by left|right; left|by right; right].
    by eapply told_later.
  - intros w2 H2 _. by eapply wps_ret, HQ.
Qed.

Lemma w_del_chan l w id (Q : unit -> World -> Prop) : fx l [] 0 w ->
  (forall c, c ∈ l -> channelId c = id -> id <> INVALID_CHANNEL_ID -> told w c \/ q (channelId c) (pkg_of c) \/ fresh c) ->
  (forall w', fin w' -> Q tt w') -> wps (TransProxyDelChanByChanId env id) Q w.
Proof.
  intros H Hc HQ. unfold TransProxyDelChanByChanId. eapply w_first; [done| |by intros; apply HQ; exists l].
  intros i c w' Hi Hf _ H' L. assert (channelId c = id) as Ei by lia.
  assert (wps (put_chans (delete i l);; add_chanCnt (-1);; sret tt) Q w') as Hw; [|exact Hw].
  eapply (w_delete l [] []); [done|done|done| |].
  - intros Hid. right. destruct (Hc c) as [?|?]; [by eapply list_elem_of_lookup_2|done|congruence|left|by right]. by eapply told_later.
  - intros w2 H2 _. apply wps_ret, HQ. by eexists.
Qed.
End fx.

End ProxyChannelInv.
