(* ===== verification/ProxyChannelSteps.v ===== *)
(** * The steps of the proxy channels keep the invariant

    Every handler, callback and request, and the timer, from a world of the invariant;
    then the step of the whole component, and exactly which frames make it fault. *)

From S2P Require Import Prelude StateFault Utils OpenChannelMsg ProxyMessage ProxyHandshake ProxyChannel ProxyChannelInv.

Module ProxyChannelSteps.
Import OpenChannelMsg ProxyHandshake ProxyChannel ProxyChannelInv.
#[local] Open Scope sf_scope.
#[local] Open Scope Z_scope.

(** ** A tick of the timer *)

Lemma timer_chan_ok c : chan_ok c -> exists moved c', timer_chan c = (moved, c') /\ same c c' /\
  if moved : bool then status c' = PROXY_CHANNEL_STATUS_TIMEOUT \/ status c' = PROXY_CHANNEL_STATUS_HANDSHAKE_TIMEOUT else chan_ok c'.
Proof.
  intros (E1 & E2 & Ht). unfold timer_chan, timer_move, is_opening. cbn [status timeout].
  assert (u16 (timeout c + 1) = timeout c + 1) as Eu.
  { unfold timed, PROXY_CHANNEL_CONTROL_TIMEOUT, PROXY_CHANNEL_BT_IDLE_TIMEOUT in Ht. wrap_lia. }
  rewrite Eu. unfold timed, is_opening, PROXY_CHANNEL_CONTROL_TIMEOUT, PROXY_CHANNEL_BT_IDLE_TIMEOUT,
    PROXY_CHANNEL_STATUS_HANDSHAKEING, PROXY_CHANNEL_STATUS_PYH_CONNECTING, PROXY_CHANNEL_STATUS_COMPLETED,
    PROXY_CHANNEL_STATUS_KEEPLIVEING, PROXY_CHANNEL_STATUS_TIMEOUT, PROXY_CHANNEL_STATUS_HANDSHAKE_TIMEOUT in *.
  destruct (((status c =? 2) || (status c =? 1)) && (timeout c + 1 >=? 19)) eqn:Ea; cbn [status timeout].
  { eexists _, _. split; [reflexivity|]. split; [done|]. by right. }
  replace ((status c =? 3) && (timeout c + 1 >=? 19)) with false by lia. cbn [status timeout].
  destruct ((status c =? 6) && (timeout c + 1 >=? 240)) eqn:Ec; eexists _, _; (split; [reflexivity|]); (split; [done|]); [by left|].
  split_and!; [done..|]. unfold timed, is_opening, PROXY_CHANNEL_CONTROL_TIMEOUT, PROXY_CHANNEL_BT_IDLE_TIMEOUT,
    PROXY_CHANNEL_STATUS_HANDSHAKEING, PROXY_CHANNEL_STATUS_PYH_CONNECTING, PROXY_CHANNEL_STATUS_COMPLETED. cbn [status timeout].
  destruct Ht as [[Ho Ht]|[Ho Ht]]; [left|right]; (split; [done|lia]).
Qed.

Lemma stay_leave (l : list ProxyChannelInfo) : Forall chan_ok l -> Forall chan_ok (stay l) /\ (channelId <$> stay l) `sublist_of` (channelId <$> l) /\
  (length (stay l) + length (leave l) = length l)%nat /\
  (forall c, c ∈ l -> exists c', c' ∈ stay l ++ leave l /\ same c c') /\
  Forall (fun c => status c = PROXY_CHANNEL_STATUS_TIMEOUT \/ status c = PROXY_CHANNEL_STATUS_HANDSHAKE_TIMEOUT) (leave l).
Proof.
  unfold leave. set (g := fun c => let '(moved, c) := timer_chan c in if moved : bool then Some c else None).
  rewrite length_reverse. induction 1 as [|c l Hc Hl (I1 & I2 & I3 & I4 & I5)].
  { split_and!; [constructor|done|done|by intros c ?%elem_of_nil|constructor]. }
  destruct (timer_chan_ok c Hc) as (moved & c' & E & Hs & Hm). unfold stay in *. cbn [omap list_omap]. 
  assert (g c = if moved : bool then Some c' else None) as Eg by (unfold g; by rewrite E). rewrite Eg, E.
  destruct moved; cbn [fmap list_fmap length].
  - split_and!; [done|by constructor|lia| |rewrite reverse_cons; apply Forall_app; by split; [|constructor]].
    intros x [->|Hx]%elem_of_cons.
    + exists c'. split; [|done]. rewrite reverse_cons, !elem_of_app, list_elem_of_singleton. tauto.
    + destruct (I4 x Hx) as (x' & Hx' & Hsx). exists x'. split; [|done]. rewrite reverse_cons. rewrite !elem_of_app in *. tauto.
  - destruct Hs as (Ei & Hs). split_and!; [by constructor|rewrite Ei; by constructor|lia| |done].
    intros x [->|Hx]%elem_of_cons.
    + exists c'. split; [by left|done].
    + destruct (I4 x Hx) as (x' & Hx' & Hsx). exists x'. split; [by right|done].
Qed.

(** What stays is a tick older. *)
Lemma stay_older l c' : Forall chan_ok l -> c' ∈ stay l -> exists c, c ∈ l /\ c' = c <| timeout := timeout c + 1 |>.
Proof.
  intros Hf Hc. unfold stay in Hc. apply list_elem_of_omap in Hc as (c & Hc & E). exists c. split; [done|]. rewrite Forall_forall in Hf.
  destruct (Hf c Hc) as (_ & _ & Ht). unfold timer_chan, timer_move in E. revert E. repeat (case_if; cbn [status timeout] in * ); intros E; try discriminate E; injection E as <-.
  f_equal. unfold timed, PROXY_CHANNEL_CONTROL_TIMEOUT, PROXY_CHANNEL_BT_IDLE_TIMEOUT in Ht. wrap_lia.
Qed.

Section steps.
Context (env : nat -> Env) (hl el : nat) (Henv : forall n, env_fine (env n)).
Implicit Types (l : list ProxyChannelInfo) (c : ProxyChannelInfo) (w : World) (m : ProxyMessage.ProxyMessage).

Section handlers.
Context (q : Z -> string -> Prop) (w0 : World).
#[local] Abbreviation fx := (fx q w0).
#[local] Abbreviation fin := (fin q w0).
#[local] Abbreviation fins := (fins q w0).
#[local] Abbreviation aside := (aside q w0).

(** ** The timer *)

Lemma w_timer_items l owed w : fx l owed 0 w ->
  Forall (fun c => status c = PROXY_CHANNEL_STATUS_TIMEOUT \/ status c = PROXY_CHANNEL_STATUS_HANDSHAKE_TIMEOUT) owed ->
  wps (TransProxyTimerItemProc env owed) (fun _ w' => fx l [] 0 w') w.
Proof.
  intros H Hf. unfold TransProxyTimerItemProc. eapply wps_mono; [apply (wps_for _ (fun rest w' => fx l rest 0 w' /\
    Forall (fun c => status c = PROXY_CHANNEL_STATUS_TIMEOUT \/ status c = PROXY_CHANNEL_STATUS_HANDSHAKE_TIMEOUT) rest))|]; [done| |].
  2: by intros ? ? [].
  clear w owed H Hf. intros c rest w [H Hf]. apply Forall_cons in Hf as [Hs Hf].
  assert (forall w', fx l (c :: rest) 0 w' -> told w0 w' c -> wps (TransProxyPostDisConnectMsgToLoop env (connId c)) (fun _ w2 => fx l rest 0 w2) w') as Hd.
  { intros w' H' Ht. eapply (w_aside q w0); [apply aside_post; done|by eapply fx_paid|]. auto. }
  unfold PROXY_CHANNEL_STATUS_TIMEOUT, PROXY_CHANNEL_STATUS_HANDSHAKE_TIMEOUT, PROXY_CHANNEL_STATUS_KEEPLIVEING in *.
  apply wps_bind. destruct Hs as [-> | ->]; cbn [Z.eqb Pos.eqb].
  - apply wps_bind. eapply (w_ask q w0); [done..|]. intros e w1 (Hm & _) H1 _. rewrite Hm. apply wps_bind.
    eapply (w_aside q w0); [apply aside_post; done|done|]. intros ? w2 H2 _. apply wps_bind.
    eapply (w_tell q w0); [done|by right|done|]. intros w3 H3 _ Ht. eapply wps_mono; [by apply Hd|]. intros ? w4 H4.
    apply wps_bind, wps_ret, wps_ret. done.
  - apply wps_ret, wps_bind, wps_bind. eapply (w_tell q w0); [done|by left|done|]. intros w3 H3 _ Ht.
    eapply wps_mono; [by apply Hd|]. intros ? w4 H4. by apply wps_ret.
Qed.

(** The list after a tick; with the count at 0 nothing is done. *)
Lemma w_timer l w : fx l [] 0 w ->
  wps (TransProxyTimerProc env) (fun _ w' => fx (stay l) [] 0 w' \/ (chanCnt w = 0 /\ fx l [] 0 w')) w.
Proof.
  intros H. unfold TransProxyTimerProc. apply wps_bind, wps_gets, wps_bind, wps_gets. rewrite (fx_chans _ _ _ _ _ _ H).
  case_if; [apply wps_ret; right; split; [lia|done]|]. apply wps_bind. eapply (w_with q w0); [done..|]. intros w1 H1 _.
  destruct (fx_ok _ _ _ _ _ _ H1) as [Hf Hn]. destruct (stay_leave l Hf) as (S1 & S2 & S3 & S4 & S5).
  apply wps_bind, wps_modify, wps_bind, wps_modify, wps_ret.
  eapply wps_mono; [eapply (w_timer_items (stay l) (leave l))|]; [|done|by intros ? w2 H2; left].
  replace 0 with (Z.of_nat (length (leave l)) + - Z.of_nat (length (leave l))) by lia. apply fx_add.
  eapply fx_put; [done| |lia|].
  - split; [done|]. eapply sublist_NoDup; [done|]. by apply ids_sublist.
  - intros c Hc _. rewrite app_nil_r in Hc. left. by apply S4.
Qed.

Lemma fins_timer : fins (TransProxyTimerProc env).
Proof. intros w [l H]. eapply wps_mono; [by apply w_timer|]. intros ? w' [H'|[_ H']]; by eexists. Qed.

(** ** Messages *)

Definition readable m : Prop := exists t, text_read m = Some t.

Lemma w_parse l w m (Q : option json -> World -> Prop) : fx l [] 0 w -> readable m ->
  (forall j w', fx l [] 0 w' -> Q j w') -> wps (parse_json env m) Q w.
Proof.
  intros H [t Et] HQ. unfold parse_json. apply wps_bind. eapply wps_lift; [exact Et|]. apply wps_bind.
  eapply (w_ask q w0); [done..|]. intros e w' _ H' _. by apply wps_ret, HQ.
Qed.

Lemma acked_ok info c : chan_ok c -> same c (acked info c) /\ chan_ok (acked info c).
Proof.
  intros (H1 & H2 & H3). split; [done|]. split_and!; [done..|]. right. cbn. unfold PROXY_CHANNEL_BT_IDLE_TIMEOUT. lia.
Qed.

Lemma kept_alive_ok c : chan_ok c -> same c (kept_alive c) /\ chan_ok (kept_alive c).
Proof.
  intros (H1 & H2 & H3). unfold kept_alive. case_if; [|done]. split; [done|]. split_and!; [done..|]. right. cbn.
  unfold PROXY_CHANNEL_BT_IDLE_TIMEOUT. lia.
Qed.

Lemma fins_ack m : readable m -> fins (TransProxyProcessHandshakeAckMsg env m).
Proof.
  intros Hm w [l H]. unfold TransProxyProcessHandshakeAckMsg. apply wps_bind. eapply (w_ask q w0); [done..|].
  intros e w1 (Hmem & _) H1 _. rewrite Hmem. cbn [negb]. apply wps_bind. eapply w_parse; [done..|]. intros j w2 H2.
  destruct (TransProxyUnpackHandshakeAckMsg j zero_chan) as [info|]; [|by apply wps_ret; exists l]. apply wps_bind.
  unfold TransProxyUpdateAckInfo. eapply wps_mono; [eapply (fins_found q w0); [done|apply acked_ok|by exists l]|].
  intros [c|] w3 H3; [|by apply wps_ret]. revert w3 H3. apply fins_bind; [apply fins_aside, aside_opened; done|intros _; apply fins_ret].
Qed.

Lemma w_identity m k w : readable m -> fin w -> (forall info, fins (k info)) -> wps (with_identity env m k) (fun _ w' => fin w') w.
Proof.
  intros Hm [l H] Hk. unfold with_identity. apply wps_bind. eapply (w_ask q w0); [done..|]. intros e w1 (Hmem & _) H1 _.
  rewrite Hmem. cbn [negb]. apply wps_bind. eapply w_parse; [done..|]. intros j w2 H2.
  destruct (TransProxyUnpackIdentity j _); [|by apply wps_ret; exists l]. apply Hk. by exists l.
Qed.

Lemma fins_keepalive m : readable m -> fins (TransProxyProcessKeepAlive env hl el m).
Proof.
  intros Hm w H. apply w_identity; [done..|]. intros info. apply fins_bind; [apply (fins_found q w0); [done|apply kept_alive_ok]|].
  intros [c|]; [|apply fins_ret]. apply fins_bind; [apply fins_aside, aside_text; done|intros _; apply fins_ret].
Qed.

Lemma fins_keepalive_ack m : readable m -> fins (TransProxyProcessKeepAliveAck env m).
Proof.
  intros Hm w H. apply w_identity; [done..|]. intros info. apply fins_bind; [apply (fins_found q w0); [done|apply kept_alive_ok]|].
  intros _. apply fins_ret.
Qed.

Lemma fins_reset m : readable m -> fins (TransProxyProcessResetMsg env m).
Proof.
  intros Hm w H. apply w_identity; [done..|]. clear w H. intros info w [l H]. apply wps_bind. unfold TransProxyResetChan.
  eapply (w_removed q w0 env Henv l w _ None Some _ (fun c => [c])); [done|by intros; left; left| |].
  - intros i c w1 H1 _ _. assert (forall w2, fx (delete i l) [c] 0 w2 -> told w0 w2 c ->
      wps (TransProxyCloseConnChannel env (ProxyMessage.connId m);; sret tt) (fun _ w' => fin w') w2) as Hd.
    { intros w2 H2 Ht. apply wps_bind. eapply (w_aside q w0); [apply aside_close; done|by eapply fx_paid|].
      intros ? w3 H3 _. apply wps_ret. by exists (delete i l). }
    apply wps_bind. destruct (status c =? _); [eapply (w_failed q w0)|eapply (w_closed q w0)]; [done|auto|done|auto].
  - intros w1 H1. apply wps_ret. by exists l.
Qed.

Lemma fins_data m : fins (TransProxyProcessDataRecv env m).
Proof.
  intros w [l H]. unfold TransProxyProcessDataRecv. apply wps_bind. eapply (w_ask q w0); [done..|]. intros e w1 (Hmem & _) H1 _.
  rewrite Hmem. cbn [negb]. apply wps_bind.
  eapply wps_mono; [eapply (fins_found q w0); [done|apply touch_ok|by exists l]|]. intros [c|] w2 H2; [|by apply wps_ret].
  by apply (fins_aside q w0); [apply aside_received; done|].
Qed.

Lemma unpack_timeout dec j c c' : TransProxyUnpackHandshakeMsg dec j c = Some c' -> timeout c' = timeout c.
Proof.
  destruct j as [j|]; [|done]. unfold TransProxyUnpackHandshakeMsg. intros H. repeat case_match; try done; by injection H as <-.
Qed.

Lemma w_local l w c (Q : option ProxyChannelInfo -> World -> Prop) : fx l [] 0 w ->
  (forall w', fx l [] 0 w' -> Q None w') ->
  (forall c' w', fx l [] 0 w' -> timeout c' = timeout c -> Q (Some c') w') -> wps (TransProxyGetLocalInfo env c) Q w.
Proof.
  intros H HN HS. unfold TransProxyGetLocalInfo. apply wps_bind. eapply (w_ask q w0); [done..|]. intros e w1 _ H1 _.
  repeat case_match; apply wps_ret; auto.
Qed.

Lemma fins_handshake l w m : chans w0 = Live l -> fx l [] 0 w -> readable m ->
  wps (TransProxyProcessHandshakeMsg env hl el m) (fun _ w' => fin w') w.
Proof.
  intros H0 H Hm. unfold TransProxyProcessHandshakeMsg. apply wps_bind. eapply (w_ask q w0); [done..|].
  intros e w1 (Hmem & _) H1 _. rewrite Hmem. cbn [negb]. apply wps_bind. eapply w_parse; [done..|]. intros j w2 H2.
  apply wps_bind. eapply (w_ask q w0); [done..|]. intros e2 w3 _ H3 _.
  destruct (TransProxyUnpackHandshakeMsg _ j zero_chan) as [c|] eqn:Ec; [|by apply wps_ret; exists l].
  apply unpack_timeout in Ec. apply wps_bind. eapply w_local; [done|intros w4 H4; apply wps_ret; by exists l|]. intros c4 w4 H4 Et.
  rewrite Ec in Et. cbn [timeout zero_chan] in Et. apply wps_bind. eapply (w_getid q w0); [done..|]. intros id w5 H5 Hid Hfresh.
  apply wps_bind. eapply (w_aside q w0); [apply aside_opened; done|done|]. intros r w6 H6 _.
  destruct (negb (r =? SOFTBUS_OK)); [by apply wps_ret; exists l|].
  match goal with |- wps (let* there := TransProxyAddChanItem _ ?x in _) _ _ => set (new := x) end.
  assert (channelId new = id /\ chan_ok new) as [Ei Hok].
  { split; [done|]. split_and!; [done..|]. right. cbn. rewrite Et. unfold PROXY_CHANNEL_BT_IDLE_TIMEOUT. lia. }
  assert (appType new = appType c4 /\ appInfo new = appInfo c4) as [Ety Ea] by done. clearbody new.
  apply wps_bind. eapply (w_add q w0); [done..|by rewrite Ei|]. intros w7 H7. cbn [negb]. apply wps_bind.
  eapply (w_aside q w0); [apply aside_text; done|done|]. intros r2 w8 H8 _.
  destruct (negb (r2 =? SOFTBUS_OK)).
  - apply wps_bind. rewrite <- Ei. eapply (w_closed q w0); [done|]. intros w9 H9 _ Ht. eapply (w_del_chan q w0); [done|exact H9| |done].
    intros x Hx Ex Hne. right; right. apply elem_of_cons in Hx as [->|Hx].
    + destruct Hfresh as [?|Hfresh]; [congruence|]. eapply fresh_id; [done|]. by rewrite Ei.
    + destruct Hfresh as [?|Hfresh]; [congruence|]. destruct Hfresh. rewrite <- Ei, <- Ex. by apply list_elem_of_fmap_2.
  - eapply (w_aside q w0); [apply aside_create; done|done|]. intros ? w9 H9 _. by exists (new :: l).
Qed.

(** ** Opening *)

Lemma w_shake l w c : fx l [] 0 w -> c ∈ l ->
  wps (TransProxyHandshake env hl el c) (fun _ w' => exists l' c', fx l' [] 0 w' /\ c' ∈ l' /\ same c c') w.
Proof.
  intros H Hc. assert (forall w', fx l [] 0 w' -> exists l' c', fx l' [] 0 w' /\ c' ∈ l' /\ same c c') as Hend by (intros w' H'; by exists l, c).
  unfold TransProxyHandshake. apply wps_bind. eapply (w_ask q w0); [done..|]. intros e w1 _ H1 _.
  destruct (TransProxyPackHandshakeMsg _ _ _ _ c); [|by apply wps_ret, Hend]. cbv zeta. apply wps_bind.
  eapply (w_ask q w0); [done..|]. intros e2 w2 _ H2 _. destruct (pack _ _ _ _ _ _) as [buf|]; [|by apply wps_ret, Hend].
  apply wps_bind.
  assert (forall l' c' r w', fx l' [] 0 w' -> c' ∈ l' -> same c c' ->
    wps (if negb (r =? SOFTBUS_OK) then sret SOFTBUS_ERR else
         let* r := TransProxyTransSendMsg env (connId c) buf CONN_HIGH in
         if negb (r =? SOFTBUS_OK) then sret SOFTBUS_ERR else sret SOFTBUS_OK)
      (fun _ w' => exists l' c', fx l' [] 0 w' /\ c' ∈ l' /\ same c c') w') as Hsend.
  { intros l' c' r w' H' Hc' Hs. case_if; [apply wps_ret; by exists l', c'|]. apply wps_bind.
    eapply (w_aside q w0); [apply aside_send; done|done|]. intros r2 w3 H3 _. case_if; apply wps_ret; by exists l', c'. }
  destruct (server_side _ _ _); [|by apply wps_ret; eapply Hsend].
  unfold TransProxySetChiperSide. eapply (w_found q w0 env Henv l w2 _ (fun c => c <| chiperSide := ProxyMessage.SERVER_SIDE_FLAG |>)
    SOFTBUS_ERR (fun _ => SOFTBUS_OK)); [done|done| |].
  - intros i x w3 H3 Hi _. destruct (same_insert l i x (x <| chiperSide := ProxyMessage.SERVER_SIDE_FLAG |>) c) as (c' & Hc' & Hs); [done..|].
    by eapply Hsend.
  - intros w3 H3. by eapply Hsend.
Qed.

Lemma fins_success id : fins (TransProxyOpenProxyChannelSuccess env hl el id).
Proof.
  intros w [l H]. unfold TransProxyOpenProxyChannelSuccess. apply wps_bind. eapply (w_ask q w0); [done..|].
  intros e w1 (Hmem & _) H1 _. rewrite Hmem. cbn [negb]. apply wps_bind. unfold TransProxyGetChanByChanId.
  eapply (w_first q w0); [done|done| |].
  - intros i c w2 Hi Hf _ H2 _. apply wps_ret, wps_bind.
    eapply wps_mono; [eapply w_shake; [done|by eapply list_elem_of_lookup_2]|]. intros r w3 (l' & c' & H3 & Hc' & Hs).
    destruct (r =? SOFTBUS_ERR); [|apply wps_ret; by exists l']. apply wps_bind. eapply (w_aside q w0); [apply aside_close; done|done|].
    intros ? w4 H4 _. apply wps_bind. eapply (w_failed q w0); [done|]. intros w5 H5 _ Ht.
    eapply (w_del_chan q w0); [done|exact H5| |done]. intros x Hx Ex Hne. left. eapply told_same; [|done].
    pose proof Hs as (Ei & _). rewrite (list_ok_unique l' x c'); [by apply proxy_same_sym|apply H5|done|done|lia|lia].
  - intros w2 H2 _ _. apply wps_bind. eapply (w_aside q w0); [apply aside_close; done|done|]. intros ? w3 H3 _. apply wps_ret. by exists l.
Qed.

Lemma fins_exist l w conn t a id : fx l [] 0 w -> int16 id -> id = INVALID_CHANNEL_ID \/ id ∉ (channelId <$> l) ->
  wps (TransProxyConnExistProc env conn t a id) (fun _ w' => fin w') w.
Proof.
  intros H Hi Hn. unfold TransProxyConnExistProc. apply wps_bind. eapply (w_ask q w0); [done..|]. intros e w1 (Hmem & _) H1 _.
  rewrite Hmem. cbn [negb]. destruct (state conn =? _); apply wps_bind.
  - eapply (w_create q w0); [done|done|done| |done|..].
    + left. split; [done|cbn; unfold PROXY_CHANNEL_CONTROL_TIMEOUT; lia].
    + intros w2 H2. apply wps_ret. by exists l.
    + intros c w2 H2 _. apply wps_ret. by exists (c :: l).
  - eapply (w_create q w0); [done|done|done| |done|..].
    + left. split; [done|cbn; unfold PROXY_CHANNEL_CONTROL_TIMEOUT; lia].
    + intros w2 H2. apply wps_ret. by exists l.
    + intros c w2 H2 _. cbn [negb Z.eqb SOFTBUS_OK]. apply wps_bind. eapply (w_aside q w0); [apply aside_ref; done|done|].
      intros ? w3 H3 _. apply wps_bind. eapply (w_aside q w0); [apply aside_handshake_msg; done|done|]. intros ? w4 H4 _.
      apply wps_ret. by exists (c :: l).
Qed.

Lemma w_add_conn l w x (Q : Z -> World -> Prop) : fx l [] 0 w ->
  (forall w', fin w' -> Q SOFTBUS_ERR w') -> (forall w', fx l [] 0 w' -> Q SOFTBUS_OK w') -> wps (TransAddConnItem env x) Q w.
Proof.
  intros H HE HO. unfold TransAddConnItem, with_conns. apply wps_bind, wps_gets. destruct (conns w) as [cs|]; [|apply wps_ret, HE; by exists l].
  apply wps_bind. eapply (w_ask q w0); [done..|]. intros e w1 (_ & Hl & _) H1 _. rewrite Hl. cbn [negb].
  destruct (list_find _ cs) as [[i item]|].
  - apply wps_bind. destruct (state item =? _); [|apply wps_ret, wps_ret, HE; by exists l].
    eapply wps_mono; [apply (fins_process q w0); [done|by exists l]|]. intros ? w2 H2. by apply wps_ret, HE.
  - apply wps_bind. eapply (w_aside q w0); [apply aside_modify; done|done|]. intros ? w2 H2 _. apply wps_bind.
    eapply (w_aside q w0); [apply aside_modify; done|done|]. intros ? w3 H3 _. by apply wps_ret, HO.
Qed.

Lemma fresh_only l id c w : chans w0 = Live l -> fx (c :: l) [] 0 w -> channelId c = id ->
  id = INVALID_CHANNEL_ID \/ id ∉ (channelId <$> l) -> forall x, x ∈ c :: l -> channelId x = id -> id <> INVALID_CHANNEL_ID ->
  told w0 w x \/ q (channelId x) (pkg_of x) \/ fresh w0 x.
Proof.
  intros H0 H Ei [?|Hf] x Hx Ex Hne; [done|]. right; right. apply elem_of_cons in Hx as [->|Hx].
  - eapply fresh_id; [done|]. by rewrite Ei.
  - destruct Hf. rewrite <- Ex. by apply list_elem_of_fmap_2.
Qed.

Lemma fins_open l w t a o : chans w0 = Live l -> fx l [] 0 w ->
  wps (TransProxyOpenConnChannel env t a o) (fun _ w' => fin w') w.
Proof.
  intros H0 H. unfold TransProxyOpenConnChannel. apply wps_bind. eapply (w_ask q w0); [done..|]. intros e w1 _ H1 _. cbv zeta.
  apply wps_bind. eapply (w_getid q w0); [done..|]. intros id w2 H2 Hid Hn. apply wps_bind. unfold TransGetConn.
  eapply (w_aside q w0); [apply aside_with_conns; [done|]; intros; apply aside_ret|done|]. intros [conn|] w3 H3 _.
  { apply wps_bind. eapply wps_mono; [by eapply fins_exist|]. intros r w4 H4. case_if; by apply wps_ret. }
  apply wps_bind. eapply (w_ask q w0); [done..|]. intros e4 w4 (Hm4 & _) H4 _. rewrite Hm4. cbn [negb]. apply wps_bind.
  eapply (w_create q w0); [done|done|done| |done|..].
  { left. split; [done|cbn; unfold PROXY_CHANNEL_CONTROL_TIMEOUT; lia]. }
  { intros w5 H5. apply wps_ret. by exists l. }
  intros c w5 H5 Ec. cbn [negb Z.eqb SOFTBUS_OK]. apply wps_bind. eapply (w_ask q w0); [done..|].
  intros e6 w6 (Hm6 & _) H6 _. rewrite Hm6. cbn [negb]. apply wps_bind. eapply w_add_conn; [done| |].
  { intros w7 H7. cbn [negb Z.eqb SOFTBUS_ERR SOFTBUS_OK]. by apply wps_ret. }
  intros w7 H7. cbn [negb Z.eqb SOFTBUS_OK]. apply wps_bind. eapply (w_emit q w0); [done|]. intros w8 H8 _ _. apply wps_bind.
  eapply (w_ask q w0); [done..|]. intros e9 w9 _ H9 _. case_if; [|apply wps_ret; by exists (c :: l)].
  apply wps_bind. eapply (w_aside q w0); [apply aside_del_req; done|done|]. intros ? w10 H10 _. apply wps_bind.
  eapply (w_del_chan q w0); [done|exact H10|by eapply fresh_only|]. intros w11 H11. by apply wps_ret.
Qed.

(** ** Requests and callbacks *)

Lemma fins_close id : (forall p, q id p) -> fins (TransProxyCloseProxyChannel env id).
Proof.
  intros Hq w [l H]. unfold TransProxyCloseProxyChannel. apply wps_bind. eapply (w_ask q w0); [done..|]. intros e w1 (Hmem & _) H1 _.
  rewrite Hmem. cbn [negb]. apply wps_bind. unfold TransProxyDelByChannelId.
  eapply (w_removed q w0 env Henv l w1 _ None Some _ (fun _ => [])); [done| | |].
  - intros c _ Hf _. right; right; left. replace (channelId c) with id by lia. apply Hq.
  - intros i c w2 H2 _ _. apply wps_bind. eapply (w_aside q w0); [|done|].
    + unfold TransProxyCloseProxyOtherRes. 
      do 2 (apply aside_bind; [apply aside_emit|intros _]). apply aside_bind; [|intros _]; apply aside_post; done.
    + intros ? w3 H3 _. apply wps_ret. by exists (delete i l).
  - intros w2 H2. apply wps_ret. by exists l.
Qed.

Lemma fins_send id b p : fins (TransProxySendMsg env hl el id b p).
Proof.
  intros w [l H]. unfold TransProxySendMsg. apply wps_bind. eapply (w_ask q w0); [done..|]. intros e w1 (Hmem & _) H1 _.
  rewrite Hmem. cbn [negb]. apply wps_bind. eapply wps_mono; [eapply (fins_found q w0); [done|apply touch_ok|by exists l]|].
  intros [c|] w2 H2; [|by apply wps_ret]. destruct (_ && _); [by apply wps_ret|].
  apply (fins_aside q w0); [apply aside_message; done|done].
Qed.

Lemma fins_key id n : fins (TransProxyGetSessionKeyByChanId env id n).
Proof.
  intros w [l H]. unfold TransProxyGetSessionKeyByChanId. eapply (w_first q w0); [done|done| |by intros w1 H1 _ _; exists l].
  intros i c w1 Hi _ _ H1 _. apply wps_bind. destruct (touch_ok c) as [Hs Hc]; [by eapply chan_ok_at|].
  eapply (w_update q w0); [done..|]. intros w2 H2 _. case_if; apply wps_ret; by eexists.
Qed.

Lemma fins_loop x : msg_ok x -> fins (TransProxyLoopMsgHandler env hl el x).
Proof.
  destruct x as [i|n|c|c|c|c]; cbn [msg_ok TransProxyLoopMsgHandler]; intros Hx.
  - apply fins_success.
  - apply fins_bind; [apply fins_aside, aside_close; done|intros _; apply fins_ret].
  - intros w [l H]. eapply (w_failed q w0); [done|]. intros w' H' _ _. by exists l.
  - intros w [l H]. eapply (w_closed q w0); [done|]. intros w' H' _ _. by exists l.
  - done.
  - apply fins_bind; [apply fins_aside, aside_text; done|intros _; apply fins_ret].
Qed.

Lemma fins_message l w m : chans w0 = Live l -> fx l [] 0 w ->
  ProxyMessage.type (ProxyMessage.msgHead m) = ProxyMessage.PROXYCHANNEL_MSG_TYPE_NORMAL \/ readable m ->
  ProxyMessage.chiper (ProxyMessage.msgHead m) = 0 \/ is_encrypted m = true ->
  wps (TransProxyonMessageReceived env hl el m) (fun _ w' => fin w') w.
Proof.
  intros H0 H Hr Hc. unfold TransProxyonMessageReceived. cbv zeta. apply wps_bind.
  replace (negb (ProxyMessage.chiper (ProxyMessage.msgHead m) =? 0) && negb (is_encrypted m)) with false
    by (destruct Hc as [->| ->]; [done|by rewrite andb_false_r]).
  assert (fin w) as Hw by by exists l.
  eapply (wps_mono _ (fun _ w' => fin w')); [|intros ? w' H'; by apply wps_ret].
  destruct Hr as [-> |Hr]; [by apply fins_data|].
  repeat (case_if; [by first [eapply fins_handshake|apply fins_ack|apply fins_reset|apply fins_keepalive|apply fins_keepalive_ack|apply fins_data]|]).
  by apply wps_ret.
Qed.
End handlers.

(** ** The step *)

(** Between two steps. *)
Definition inv (w : World) : Prop :=
  exists l, chans w = Live l /\ list_ok l /\ chanCnt w = u32 (Z.of_nat (length l)) /\ int16 (myIdCount w) /\ Forall msg_ok (loop w).

Lemma inv_fx q w l : inv w -> chans w = Live l -> fx q w l [] 0 w.
Proof.
  intros (l' & E & Hok & Hc & Hi & Hm) El. rewrite El in E. injection E as <-. split; try done; [by rewrite Z.add_0_r|by apply later_refl|].
  intros l0 c E Hc0 _. left. exists c. rewrite El in E. injection E as <-. by rewrite app_nil_r.
Qed.

Lemma fin_inv q w0 w : fin q w0 w -> inv w.
Proof. intros [l []]. exists l. rewrite Z.add_0_r in *. by split_and!. Qed.

(** The channels a step may drop without a notice: the owner's own doing. *)
Definition gives_up (e : Event) (i : Z) (pkg : string) : Prop :=
  match e with
  | Close chanId => i = chanId
  | Death p => pkg = p
  | _ => False
  end.

(** The world a step is compared with: the message is taken, the listener is there. *)
Definition base (e : Event) (w : World) : World :=
  match e with
  | Take => w <| loop := tail (loop w) |>
  | Listen => w <| netListener := true |>
  | _ => w
  end.

(** A frame in the clear that claims to be encrypted by a flag other than the one for
    it, or whose text does not end. *)
Definition bad_frame (conn : Z) (data : list byte) : Prop :=
  exists m, 8 < Z.of_nat (length data) /\
    ProxyMessage.TransProxyParseMessageHead data (Z.of_nat (length data)) (zero_msg conn) = Some (SOFTBUS_OK, m) /\
    is_encrypted m = false /\
    (ProxyMessage.chiper (ProxyMessage.msgHead m) <> 0 \/
     (ProxyMessage.type (ProxyMessage.msgHead m) <> ProxyMessage.PROXYCHANNEL_MSG_TYPE_NORMAL /\ text_read m = None)).

Definition bad (e : Event) : Prop :=
  match e with
  | Data conn module (Some data) => module = MODULE_PROXY_CHANNEL /\ bad_frame conn data
  | _ => False
  end.

Lemma inv_base e w : inv w -> inv (base e w).
Proof.
  intros (l & E & Hok & Hc & Hi & Hm). destruct e; cbn [base]; try by exists l.
  exists l. split_and!; try done. cbn [loop]. destruct (loop w); [done|]. by apply Forall_cons in Hm as [_ ?].
Qed.

(** A frame is parsed, and what it is parsed to. *)
Lemma parse_cases e w conn data : exists r m, parse_frame e w conn data = Some (r, m) /\
  (r = SOFTBUS_OK -> is_encrypted m = true \/
     (8 < Z.of_nat (length data) /\
      ProxyMessage.TransProxyParseMessageHead data (Z.of_nat (length data)) (zero_msg conn) = Some (SOFTBUS_OK, m))).
Proof.
  unfold parse_frame, ProxyMessage.TransProxyParseMessage, ProxyMessage.PROXY_CHANNEL_HEAD_LEN.
  destruct (Z.leb_spec (Z.of_nat (length data)) 8) as [Hle|Hgt]; [by eexists _, _|].
  assert (exists r m, ProxyMessage.TransProxyParseMessageHead data (Z.of_nat (length data)) (zero_msg conn) = Some (r, m)) as (r & m & E).
  { do 8 (destruct data as [|? data]; [cbn in Hgt; lia|]). unfold ProxyMessage.TransProxyParseMessageHead. cbn. case_if; eauto. }
  rewrite E. cbn [mbind option_bind]. destruct (Z.eqb_spec r SOFTBUS_OK) as [-> |Hr]; cbn [negb]; [|by eexists _, _].
  destruct (Z.land (ProxyMessage.chiper (ProxyMessage.msgHead m)) ProxyMessage.ENCRYPTED =? 0) eqn:Ee.
  { eexists _, _. split; [done|]. intros _. by right. }
  destruct (ProxyMessage.ChiperSideProc _ m) as [? [side|]]; [|by eexists _, _].
  case_if; [by eexists _, _|]. case_if; [by eexists _, _|]. rewrite (proj2 (Nat.ltb_ge _ _)) by lia.
  destruct (e_decrypt e _ _ _); [|by eexists _, _]. eexists _, _. split; [done|]. intros _. left. unfold is_encrypted. cbn. by rewrite Ee.
Qed.

Lemma encrypted_readable m : is_encrypted m = true -> readable m.
Proof. intros E. unfold readable, text_read. rewrite E. cbn. eauto. Qed.

Lemma proxy_data_fin q w l conn module data : inv w -> chans w = Live l -> ~ bad (Data conn module data) ->
  wps (TransProxyOnDataReceived env hl el conn module data) (fun _ w' => fin q w w') w.
Proof.
  intros H El Hb. pose proof (inv_fx q w l H El) as Hf. unfold TransProxyOnDataReceived.
  destruct data as [data|]; [|apply wps_ret; by exists l]. destruct (Z.eqb_spec module MODULE_PROXY_CHANNEL) as [-> |]; cbn [negb];
    [|apply wps_ret; by exists l].
  apply wps_bind. eapply (w_ask q w); [done..|]. intros e w1 He H1 _. apply wps_bind, wps_gets, wps_bind.
  destruct (parse_cases e (id w1) conn data) as (r & m & Ep & Hm). eapply wps_lift; [exact Ep|]. cbv beta iota.
  destruct (Z.eqb_spec r SOFTBUS_OK) as [-> |]; cbn [negb]; [|apply wps_ret; by exists l].
  destruct (Hm eq_refl) as [Hc|[Hlen Eh]].
  - eapply fins_message; [done|done|right; by apply encrypted_readable|by right].
  - destruct (is_encrypted m) eqn:Ee; [eapply fins_message; [done|done|right; by apply encrypted_readable|by right]|].
    eapply fins_message; [done|done|..].
    + destruct (decide (ProxyMessage.type (ProxyMessage.msgHead m) = ProxyMessage.PROXYCHANNEL_MSG_TYPE_NORMAL)) as [|Hn]; [by left|right].
      unfold readable. destruct (text_read m) eqn:Et; [eauto|]. destruct Hb. split; [done|]. exists m. split_and!; [done..|]. by right.
    + left. destruct (decide (ProxyMessage.chiper (ProxyMessage.msgHead m) = 0)) as [|Hn]; [done|]. destruct Hb. split; [done|].
      exists m. split_and!; [done..|]. by left.
Qed.

Lemma proxy_step_fin e w : inv w -> ~ bad e -> wps (step env hl el e) (fun _ w' => fin (gives_up e) (base e w) w') w.
Proof.
  intros H Hb. destruct (inv_base e w H) as (l & El & _). pose proof (inv_fx (gives_up e) (base e w) l (inv_base e w H) El) as Hf.
  assert (fin (gives_up e) (base e w) (base e w)) as Hw by by exists l.
  destruct e; cbn [step base] in *.
  - unfold TransProxyOpenProxyChannel. destruct a as [[t a]|], o as [o|]; [|by apply wps_bind, wps_ret, wps_ret..].
    apply wps_bind. eapply wps_mono; [by eapply fins_open|]. intros ? w' H'. by apply wps_ret.
  - apply (fins_bind _ _ _ _ (fins_close _ _ _ (fun _ => eq_refl)) (fun _ => fins_ret _ _ _)). done.
  - apply (fins_bind _ _ _ _ (fins_send _ _ _ _ _) (fun _ => fins_ret _ _ _)). done.
  - apply wps_bind. unfold TransProxyGetNewChanSeq.
    eapply wps_mono; [eapply (fins_found _ _ env Henv _ (fun c => c <| seq := i32 (seq c + 1) |>) 0 seq); [|done]|]; [done|].
    intros ? w' H'. by apply wps_ret.
  - apply (fins_bind _ _ _ _ (fins_key _ _ _ _) (fun _ => fins_ret _ _ _)). done.
  - apply (fins_bind _ _ _ _ (fins_aside _ _ _ (aside_state _ _ env Henv _ _ _)) (fun _ => fins_process _ _ env Henv _ _)). done.
  - apply (fins_bind _ _ _ _ (fins_aside _ _ _ (aside_del_req _ _ env Henv _)) (fun _ => fins_del_req _ _ env Henv _)). done.
  - apply (fins_bind _ _ _ _ (fins_del_conn _ _ env Henv _) (fun _ => fins_aside _ _ _ (aside_del_conn _ _ env Henv _))). done.
  - by eapply proxy_data_fin.
  - by apply fins_timer.
  - by apply fins_death.
  - apply wps_bind, wps_bind, wps_modify, wps_ret, wps_ret. done.
  - apply wps_bind, wps_gets. destruct (loop w) as [|x ms] eqn:Eq.
    + apply wps_ret. destruct w. cbn in *. by subst.
    + apply wps_bind, wps_modify. cbn [tail] in Hw. apply fins_loop; [|done].
      destruct H as (? & _ & _ & _ & _ & Hm). rewrite Eq in Hm. by apply Forall_cons in Hm as [? _].
Qed.
End steps.
End ProxyChannelSteps.
