(* ===== verification/ProxyChannelMain.v ===== *)
(** * Theorems of the proxy channels

    The component from its start on, under any sequence of requests, callbacks of the
    connections, frames from the network, ticks of the timer and messages of the
    looper: the registry is well formed and exactly some frames make a step fault; a
    channel leaves only with a notice to its owner; unused channels end; ids are found. *)

From S2P Require Import Prelude StateFault Utils OpenChannelMsg ProxyMessage ProxyHandshake ProxyChannel ProxyChannelInv ProxyChannelSteps.

Module ProxyChannelMain.
Import OpenChannelMsg ProxyHandshake ProxyChannel ProxyChannelInv ProxyChannelSteps.
#[local] Open Scope sf_scope.
#[local] Open Scope Z_scope.

Section main.
Context (env : nat -> Env) (hl el : nat) (Henv : forall n, env_fine (env n)).
Implicit Types (l : list ProxyChannelInfo) (c : ProxyChannelInfo) (w : World).

(** The worlds that a history leads to from a start that succeeded. *)
Definition reaches w : Prop :=
  exists es w1, TransProxyManagerInit env true world0 = Some (SOFTBUS_OK, w1) /\ run env hl el es w1 = Some (tt, w).

(** ** Faults *)

Lemma ask_run w : exists e w', ask env w = Some (e, w') /\ env_fine e.
Proof. by exists (env (tick w)), (w <| tick := S (tick w) |>). Qed.

Lemma unreadable_faults m w : text_read m = None ->
  ProxyMessage.type (ProxyMessage.msgHead m) <> ProxyMessage.PROXYCHANNEL_MSG_TYPE_NORMAL ->
  0 <= ProxyMessage.type (ProxyMessage.msgHead m) < ProxyMessage.PROXYCHANNEL_MSG_TYPE_MAX ->
  TransProxyonMessageReceived env hl el m w = None.
Proof.
  intros Ht Hn Hr. unfold TransProxyonMessageReceived. cbv zeta. unfold sbind at 1.
  destruct (ask_run w) as (e & w1 & Ea & Hm & _).
  assert (forall {B} (k : option json -> SF World B), sbind (parse_json env m) k w1 = None) as Hp
    by (intros; unfold parse_json, sbind; cbn; by rewrite Ht).
  assert (forall k : ProxyChannelInfo -> SF World unit, with_identity env m k w = None) as Hi.
  { intros. unfold with_identity. unfold sbind at 1. rewrite Ea, Hm. cbn [negb]. apply Hp. }
  unfold ProxyMessage.PROXYCHANNEL_MSG_TYPE_NORMAL, ProxyMessage.PROXYCHANNEL_MSG_TYPE_MAX, ProxyMessage.PROXYCHANNEL_MSG_TYPE_HANDSHAKE,
    ProxyMessage.PROXYCHANNEL_MSG_TYPE_HANDSHAKE_ACK, ProxyMessage.PROXYCHANNEL_MSG_TYPE_RESET, ProxyMessage.PROXYCHANNEL_MSG_TYPE_KEEPALIVE,
    ProxyMessage.PROXYCHANNEL_MSG_TYPE_KEEPALIVE_ACK in *.
  case_if. { unfold TransProxyProcessHandshakeMsg. unfold sbind at 1. rewrite Ea, Hm. cbn [negb]. by rewrite Hp. }
  case_if. { unfold TransProxyProcessHandshakeAckMsg. unfold sbind at 1. rewrite Ea, Hm. cbn [negb]. by rewrite Hp. }
  case_if. { unfold TransProxyProcessResetMsg. by rewrite Hi. }
  case_if. { unfold TransProxyProcessKeepAlive. by rewrite Hi. }
  case_if. { unfold TransProxyProcessKeepAliveAck. by rewrite Hi. }
  lia.
Qed.

Lemma parsed_type data len conn m :
  ProxyMessage.TransProxyParseMessageHead data len (zero_msg conn) = Some (SOFTBUS_OK, m) ->
  0 <= ProxyMessage.type (ProxyMessage.msgHead m) < ProxyMessage.PROXYCHANNEL_MSG_TYPE_MAX.
Proof.
  unfold ProxyMessage.TransProxyParseMessageHead. destruct (ProxyMessage.byte_at data 0) as [b|]; [|done]. cbn [mbind option_bind].
  destruct (negb _ || _) eqn:E; [done|]. destruct (ProxyMessage.byte_at data 1); [|done]. cbn [mbind option_bind].
  destruct (ProxyMessage.int16_at data 2); [|done]. cbn [mbind option_bind]. destruct (ProxyMessage.int16_at data 4); [|done].
  cbn [mbind option_bind]. intros [= <-]. cbn. apply orb_false_iff in E as [_ E]. split; [apply Z.land_nonneg; by right|lia].
Qed.

Lemma then_fault {B C} (m : SF World B) w : sbind m (fun _ => @fault World C) w = None.
Proof. unfold sbind. by destruct (m w) as [[]|]. Qed.

Lemma bad_faults e w : bad e -> step env hl el e w = None.
Proof.
  destruct e as [| | | | | | | |conn module data| | | |]; try done. destruct data as [data|]; [|done].
  intros [-> (m & Hlen & Eh & Ee & Hm)]. cbn [step TransProxyOnDataReceived]. cbn [Z.eqb MODULE_PROXY_CHANNEL Pos.eqb negb].
  unfold sbind at 1. destruct (ask_run w) as (e & w1 & Ea & _). rewrite Ea. unfold sbind at 1. cbn [sgets]. unfold sbind at 1, slift.
  assert (parse_frame e (id w1) conn data = Some (SOFTBUS_OK, m)) as ->.
  { unfold parse_frame, ProxyMessage.TransProxyParseMessage, ProxyMessage.PROXY_CHANNEL_HEAD_LEN.
    rewrite (proj2 (Z.leb_gt _ _)) by lia. rewrite Eh. cbn [mbind option_bind Z.eqb SOFTBUS_OK negb].
    unfold is_encrypted in Ee. by apply negb_false_iff in Ee as ->. }
  cbn [mbind option_bind Z.eqb SOFTBUS_OK negb]. destruct Hm as [Hc|[Ht Hr]]; [|apply unreadable_faults; [done..|by eapply parsed_type]].
  unfold TransProxyonMessageReceived. cbv zeta. rewrite Ee, (proj2 (Z.eqb_neq (ProxyMessage.chiper (ProxyMessage.msgHead m)) 0)) by done. cbn [negb andb]. apply then_fault.
Qed.

Lemma bad_dec e : bad e \/ ~ bad e.
Proof.
  destruct e as [| | | | | | | |conn module data| | | |]; try (right; by intros ?). destruct data as [data|]; [|right; by intros ?]. cbn [bad].
  destruct (decide (module = MODULE_PROXY_CHANNEL)) as [E|]; [|right; by intros []].
  destruct (decide (8 < Z.of_nat (length data))) as [Hl|Hl]; [|right; by intros (_ & m & ? & _)].
  unfold bad_frame. destruct (ProxyMessage.TransProxyParseMessageHead data _ _) as [[r m]|]; [|right; by intros (_ & m & _ & ? & _)].
  destruct (decide (r = SOFTBUS_OK /\ is_encrypted m = false /\ (ProxyMessage.chiper (ProxyMessage.msgHead m) <> 0 \/
     (ProxyMessage.type (ProxyMessage.msgHead m) <> ProxyMessage.PROXYCHANNEL_MSG_TYPE_NORMAL /\ text_read m = None)))) as [(-> & He & Hb)|Hn].
  - left. split; [done|]. exists m. by split_and!.
  - right. intros (_ & m' & _ & [= -> ->] & Hb). by apply Hn.
Qed.

Lemma init_inv w : TransProxyManagerInit env true world0 = Some (SOFTBUS_OK, w) -> inv w.
Proof.
  unfold TransProxyManagerInit, TransProxyTransInit, sbind, ask, sret, put_chans, put_conns, smodify. cbn [world0 tick]. intros H.
  repeat (case_match; simplify_eq/=; try done). exists []. split_and!; try done; try by constructor.
  split; [constructor|]. constructor.
Qed.

Lemma run_inv es w w' : inv w -> run env hl el es w = Some (tt, w') -> inv w'.
Proof.
  revert w. induction es as [|e es IH]; intros w H Hr; cbn in Hr; [by injection Hr as <-|]. unfold sbind in Hr.
  destruct (step env hl el e w) as [[[] w1]|] eqn:E; [|done]. apply (IH w1); [|done]. eapply fin_inv.
  assert (~ bad e) as Hb by (intros Hb; by rewrite bad_faults in E).
  pose proof (proxy_step_fin env hl el Henv e w H Hb) as Hs. unfold wps in Hs. by rewrite E in Hs.
Qed.

Lemma proxy_reaches_inv w : reaches w -> inv w.
Proof. intros (es & w1 & H1 & Hr). eapply run_inv; [by apply init_inv|done]. Qed.


(** ** Notices *)

(** C16: the owner of a channel is told.  In a step from any world the component
    reaches, a channel with an id stays in the list, or a notice that it failed to open
    or was closed is sent or put in the looper for its owner (the application's package,
    or the networking while it listens), or the owner closed the channel or died in that
    step; and a notice in the looper is sent when the looper takes it. *)
Theorem owner_told w : reaches w ->
  (forall e w' l c, step env hl el e w = Some (tt, w') -> chans w = Live l -> c ∈ l -> channelId c <> INVALID_CHANNEL_ID ->
     (exists l' c', chans w' = Live l' /\ c' ∈ l' /\ same c c') \/ told (base e w) w' c \/ gives_up e (channelId c) (pkg_of c)) /\
  (forall c ms o, owner (netListener w) c = Some o ->
     (loop w = LOOP_OPENFAIL_MSG c :: ms ->
        exists w', step env hl el Take w = Some (tt, w') /\ out w' = out w ++ [ChannelOpenFailed o (channelId c)]) /\
     (loop w = LOOP_OPENCLOSE_MSG c :: ms ->
        exists w', step env hl el Take w = Some (tt, w') /\ out w' = out w ++ [ChannelClosed o (channelId c)])).
Proof.
  intros H%proxy_reaches_inv. split.
  - intros e w' l c Es El Hc Hi. destruct (bad_dec e) as [Hb|Hb]; [by rewrite bad_faults in Es|].
    pose proof (proxy_step_fin env hl el Henv e w H Hb) as Hs. unfold wps in Hs. rewrite Es in Hs. destruct Hs as [l' Hf].
    assert (chans (base e w) = Live l) as E0 by by destruct e.
    destruct (fx_kept _ _ _ _ _ _ Hf l c E0 Hc Hi) as [(c' & Hc' & Hs)|?]; [left|by right].
    rewrite app_nil_r in Hc'. exists l', c'. split_and!; [apply Hf|done..].
  - intros c ms o Ho. unfold owner in Ho. split; intros E; cbn [step]; unfold sbind; cbn [sgets]; rewrite E; cbn [smodify];
      cbn [TransProxyLoopMsgHandler]; unfold OnProxyChannelOpenFailed, OnProxyChannelClosed, notify_networking, emit, sbind, sgets, smodify.
    all: destruct (appType c =? APP_TYPE_NORMAL); [injection Ho as <-; by eexists|].
    all: destruct (Z.eqb_spec (appType c) APP_TYPE_INNER) as [Et|]; [|done]; destruct (netListener w) eqn:En; [|done]; injection Ho as <-.
    all: rewrite Et; cbn [APP_TYPE_INNER APP_TYPE_AUTH Z.eqb Pos.eqb netListener]; by eexists.
Qed.

(** ** Time *)

Fixpoint ticks (n : nat) l : list ProxyChannelInfo := match n with O => l | S n => ticks n (stay l) end.

Lemma ticks_older n l c' : Forall chan_ok l -> c' ∈ ticks n l ->
  chan_ok c' /\ exists c, c ∈ l /\ status c' = status c /\ timeout c' = timeout c + Z.of_nat n.
Proof.
  revert l. induction n as [|n IH]; intros l Hf Hc; cbn [ticks] in Hc.
  { rewrite Forall_forall in Hf. split; [by apply Hf|]. exists c'. split_and!; [done..|lia]. }
  destruct (stay_leave l Hf) as (Hs & _). destruct (IH (stay l) Hs Hc) as (Hk & c & Hc1 & Es & Et). split; [done|].
  destruct (stay_older l c Hf Hc1) as (x & Hx & ->). exists x. split_and!; [done..|]. cbn [timeout] in Et. lia.
Qed.

Lemma ticks_length n l : Forall chan_ok l -> (length (ticks n l) <= length l)%nat.
Proof.
  revert l. induction n as [|n IH]; intros l Hf; cbn [ticks]; [done|]. destruct (stay_leave l Hf) as (Hs & _ & Hl & _).
  specialize (IH (stay l) Hs). lia.
Qed.

Lemma run_ticks n w0 l w : fx (fun _ _ => False) w0 l [] 0 w -> Z.of_nat (length l) < 2 ^ 32 ->
  wps (run env hl el (replicate n Timer)) (fun _ w' => fx (fun _ _ => False) w0 (ticks n l) [] 0 w') w.
Proof.
  revert l w. induction n as [|n IH]; intros l w H Hl; cbn [replicate run sfor ticks]; [by apply wps_ret|]. apply wps_bind.
  eapply wps_mono; [by apply w_timer|]. pose proof (fx_ok _ _ _ _ _ _ H) as [Hf _]. destruct (stay_leave l Hf) as (_ & _ & Hs & _).
  intros [] w' [H'|[E H']].
  - apply IH; [done|lia].
  - rewrite (fx_cnt _ _ _ _ _ _ H), Z.add_0_r, u32_small in E by lia. destruct l; [|cbn in E; lia]. by apply IH.
Qed.

(** C17: channels that nobody uses end.  When only the timer runs, from any world the
    component reaches, after [n] ticks the channels that are left are old ones with their
    status and timers that advanced by [n], which is less than 19 for one that is not
    open yet and less than 240 for any: after 240 ticks there is none.  The owner of each
    one that is gone is told or is about to be. *)
Theorem unused_channels_end w l n : reaches w -> chans w = Live l -> Z.of_nat (length l) < 2 ^ 32 ->
  exists w' l', run env hl el (replicate n Timer) w = Some (tt, w') /\ chans w' = Live l' /\
    (forall c', c' ∈ l' -> exists c, c ∈ l /\ status c' = status c /\ timeout c' = timeout c + Z.of_nat n /\
       Z.of_nat n < if is_opening c then PROXY_CHANNEL_CONTROL_TIMEOUT else PROXY_CHANNEL_BT_IDLE_TIMEOUT) /\
    (forall c, c ∈ l -> channelId c <> INVALID_CHANNEL_ID -> (exists c', c' ∈ l' /\ same c c') \/ told w w' c) /\
    (PROXY_CHANNEL_BT_IDLE_TIMEOUT <= Z.of_nat n -> l' = []).
Proof.
  intros H%proxy_reaches_inv El Hl. pose proof (inv_fx (fun _ _ => False) w l H El) as Hf.
  destruct (proj1 (wps_run _ _ _) (run_ticks n w l w Hf Hl)) as ([] & w' & Er & Hw). pose proof (fx_ok _ _ _ _ _ _ Hf) as [Hok _].
  assert (forall c', c' ∈ ticks n l -> exists c, c ∈ l /\ status c' = status c /\ timeout c' = timeout c + Z.of_nat n /\
       Z.of_nat n < if is_opening c then PROXY_CHANNEL_CONTROL_TIMEOUT else PROXY_CHANNEL_BT_IDLE_TIMEOUT) as Hold.
  { intros c' Hc'. destruct (ticks_older n l c' Hok Hc') as ((_ & _ & Ht) & c & Hc & Es & Et). exists c. split_and!; [done..|].
    rewrite Forall_forall in Hok. destruct (Hok c Hc) as (_ & _ & Ht'). unfold timed, is_opening in *. rewrite Es, Et in Ht.
    unfold PROXY_CHANNEL_CONTROL_TIMEOUT, PROXY_CHANNEL_BT_IDLE_TIMEOUT, PROXY_CHANNEL_STATUS_COMPLETED,
      PROXY_CHANNEL_STATUS_HANDSHAKEING, PROXY_CHANNEL_STATUS_PYH_CONNECTING in *. destruct (_ || _) eqn:Eo; lia. }
  exists w', (ticks n l). split_and!; [done|apply Hw|done|..].
  - intros c Hc Hi. destruct (fx_kept _ _ _ _ _ _ Hw l c El Hc Hi) as [(c' & Hc' & Hs)|[?|[]]]; [left|by right].
    rewrite app_nil_r in Hc'. by exists c'.
  - intros Hn. destruct (ticks n l) as [|c' l'] eqn:E; [done|]. destruct (Hold c') as (c & _ & _ & _ & Hlt); [left|].
    unfold PROXY_CHANNEL_CONTROL_TIMEOUT, PROXY_CHANNEL_BT_IDLE_TIMEOUT in *. destruct (is_opening c); lia.
Qed.

(** ** What a call does exactly *)

(** The worlds agree on what the theorems look at. *)
Definition quiet w w' : Prop :=
  chans w' = chans w /\ out w' = out w /\ loop w' = loop w /\ myIdCount w' = myIdCount w.

Lemma quiet_trans w w' w'' : quiet w w' -> quiet w' w'' -> quiet w w''.
Proof. intros (? & ? & ? & ?) (? & ? & ? & ?). split_and!; congruence. Qed.

Lemma r_ask w (Q : Env -> World -> Prop) : (forall n w', quiet w w' -> Q (env n) w') -> wps (ask env) Q w.
Proof. intros HQ. apply (HQ (tick w)). done. Qed.

Lemma r_with {B} w l (r : B) k (Q : B -> World -> Prop) : chans w = Live l -> (forall w', quiet w w' -> wps (k l) Q w') ->
  wps (with_chans env r k) Q w.
Proof.
  intros El Hk. unfold with_chans. apply wps_bind, wps_gets. rewrite El. apply wps_bind, r_ask. intros n w' Hq.
  destruct (Henv n) as (_ & -> & _). by apply Hk.
Qed.

Lemma r_first {B} w l f i c (r : B) k (Q : B -> World -> Prop) : chans w = Live l -> l !! i = Some c -> f c = true ->
  (forall x, x ∈ l -> f x = true -> x = c) -> (forall i' w', l !! i' = Some c -> quiet w w' -> wps (k l i' c) Q w') ->
  wps (first_chan env f r k) Q w.
Proof.
  intros El Hi Hf Hu Hk. unfold first_chan. eapply r_with; [done|]. intros w' Hq.
  destruct (list_find _ l) as [[j x]|] eqn:E.
  - apply list_find_Some in E as (Hj & Hx & _). apply Is_true_eq_true in Hx.
    assert (x = c) as -> by (apply Hu; [by eapply list_elem_of_lookup_2|done]). by apply Hk.
  - apply list_find_None in E. rewrite Forall_lookup in E. destruct (E i c Hi). by apply Is_true_eq_left.
Qed.

(** C19: data reaches its channel.  In any world the component reaches, data for a
    channel of an application whose peer's id no other channel has is given to that
    application as that channel's. *)
Theorem data_delivered w l m c : reaches w -> chans w = Live l -> c ∈ l -> channelId c <> INVALID_CHANNEL_ID ->
  ProxyMessage.myId (ProxyMessage.msgHead m) = myId c -> ProxyMessage.peerId (ProxyMessage.msgHead m) = peerId c ->
  (forall x, x ∈ l -> peerId x = peerId c -> x = c) -> appType c = APP_TYPE_NORMAL -> u32 (ProxyMessage.dateLen m) <> 0 ->
  exists w', TransProxyProcessDataRecv env m w = Some (tt, w') /\
    out w' = out w ++ [MsgReceived (Some (pkg_of c)) (channelId c) (ProxyMessage.data m)].
Proof.
  intros H%proxy_reaches_inv El Hc Hi Em Ep Hu Ht Hn. destruct H as (l' & E & Hok & _). rewrite El in E. injection E as <-.
  cut (wps (TransProxyProcessDataRecv env m) (fun _ w' => out w' = out w ++ [MsgReceived (Some (pkg_of c)) (channelId c) (ProxyMessage.data m)]) w).
  { intros ([] & w' & E & Hw)%wps_run. by exists w'. }
  unfold TransProxyProcessDataRecv. apply wps_bind, r_ask. intros n w1 (E1 & O1 & _). destruct (Henv n) as (-> & _). cbn [negb].
  apply wps_bind. unfold TransProxyGetRecvMsgChanInfo. apply list_elem_of_lookup in Hc as [i Hc'].
  assert (forall x, x ∈ l -> channelId x = myId x) as Hid by (destruct Hok as [Hf _]; rewrite Forall_forall in Hf; intros x Hx; by apply Hf).
  assert (c ∈ l) as Hc by by eapply list_elem_of_lookup_2.
  eapply r_first; [by rewrite E1|done|lia| |].
  { intros x Hx Hxf. apply orb_true_iff in Hxf as [Hxf|Hxf]; [|apply Hu; [done|lia]].
    eapply list_ok_unique; [done..|rewrite !Hid by done; lia|rewrite Hid in * by done; lia]. }
  intros i' w2 _ (_ & O2 & _). apply wps_bind, wps_modify, wps_ret. cbv beta iota.
  unfold OnProxyChannelMsgReceived. rewrite (proj2 (Z.eqb_neq _ 0)) by done.
  assert (appType (touch c) = APP_TYPE_NORMAL /\ channelId (touch c) = channelId c /\ pkgName (myData (appInfo (touch c))) = pkg_of c)
    as (-> & -> & ->) by (unfold touch; case_if; done).
  apply wps_modify. cbn [out]. by rewrite O2, O1.
Qed.

(** ** Ids *)

Lemma id_of_small k : 0 <= k -> id_of k = (k mod 100 + 1) * 256.
Proof.
  intros Hk. unfold id_of, MYID_MAX_NUM. rewrite Z.rem_mod_nonneg by lia. pose proof (Z.mod_pos_bound k 100 ltac:(lia)) as Hr.
  assert (forallb (fun r => i16 (EndianSwap16 (u16 (i16 (r + 1)))) =? (r + 1) * 256) (seqZ 0 100) = true) as Hall by reflexivity.
  rewrite forallb_forall in Hall. apply Z.eqb_eq, Hall, list_elem_of_In, elem_of_seqZ. lia.
Qed.

Lemma ids_distinct k : 0 <= k -> NoDup (id_of <$> seqZ k 100).
Proof.
  intros Hk. apply NoDup_fmap_2_strong; [|apply NoDup_seqZ]. intros x y Hx%elem_of_seqZ Hy%elem_of_seqZ E.
  rewrite !id_of_small in E by lia. assert (x mod 100 = y mod 100) as Em by lia. Z.div_mod_to_equations. lia.
Qed.

(** The loop stops at the first id that is free. *)
Lemma r_new_id n w l (Q : Z -> World -> Prop) : chans w = Live l -> 0 <= myIdCount w -> myIdCount w + Z.of_nat n < 2 ^ 15 ->
  (forall k w', chans w' = chans w /\ out w' = out w /\ loop w' = loop w -> myIdCount w < k -> id_of k ∉ (myId <$> l) -> Q (id_of k) w') ->
  (forall w', (forall k, myIdCount w < k <= myIdCount w + Z.of_nat n -> id_of k ∈ (myId <$> l)) -> Q INVALID_CHANNEL_ID w') ->
  wps (new_id env n) Q w.
Proof.
  revert w. induction n as [|n IH]; intros w El H0 Hn HQ Hno; cbn [new_id]; [apply wps_ret, Hno; intros k; lia|].
  apply wps_bind, wps_modify, wps_bind, wps_gets. match goal with |- wps _ _ ?x => set (w1 := x) end.
  assert (myIdCount w1 = myIdCount w + 1) as Ec by (cbn; wrap_lia). assert (chans w1 = chans w /\ out w1 = out w /\ loop w1 = loop w) as E1 by done.
  clearbody w1. apply wps_bind. unfold MyIdIsValid. eapply r_with; [by rewrite (proj1 E1)|]. intros w2 (Q1 & Q2 & Q3 & Q4). apply wps_ret.
  assert (existsb (fun c => myId c =? id_of (myIdCount w1)) l = bool_decide (id_of (myIdCount w1) ∈ (myId <$> l))) as ->.
  { apply eq_true_iff_eq. rewrite bool_decide_eq_true, existsb_exists, list_elem_of_fmap. setoid_rewrite list_elem_of_In.
    split; intros (c & ? & ?); exists c; (split; [lia|]) || split; try done; lia. }
  case_bool_decide as Hin; cbn [Z.eqb SOFTBUS_ERR SOFTBUS_OK].
  - apply IH; [by rewrite Q1, (proj1 E1)|lia|lia| |].
    + intros k w' (? & ? & ?) Hk. apply HQ; [|lia]. destruct E1 as (? & ? & ?). split_and!; congruence.
    + intros w' Hall. apply Hno. intros k Hk. destruct (decide (k = myIdCount w1)) as [->|]; [done|]. apply Hall. lia.
  - apply wps_ret, HQ; [|lia|done]. destruct E1 as (? & ? & ?). split_and!; congruence.
Qed.

Lemma r_getid w l (Q : Z -> World -> Prop) : Forall chan_ok l -> chans w = Live l -> (length l < 100)%nat -> 0 <= myIdCount w <= 32667 ->
  (forall k w', chans w' = chans w /\ out w' = out w /\ loop w' = loop w -> 0 < k -> id_of k ∉ (channelId <$> l) -> Q (id_of k) w') ->
  wps (TransProxyGetNewMyId env) Q w.
Proof.
  intros Hok El Hl Hc HQ. unfold TransProxyGetNewMyId. apply wps_bind, r_ask. intros n w1 (E1 & E2 & E3 & E4).
  destruct (Henv n) as (_ & -> & _). cbn [negb].
  assert (channelId <$> l = myId <$> l) as Eid.
  { clear -Hok. induction Hok as [|c l (E & _) _ IH]; [done|]. cbn. by rewrite E, IH. }
  apply (r_new_id _ w1 l); [by rewrite E1|lia|unfold MYID_MAX_NUM; lia| |].
  - intros k w' (? & ? & ?) Hk Hn. apply HQ; [|lia|by rewrite Eid]. split_and!; congruence.
  - intros w' Hall. exfalso. assert (length (id_of <$> seqZ (myIdCount w1 + 1) 100) <= length (myId <$> l))%nat as Hle.
    { apply submseteq_length, NoDup_submseteq; [apply ids_distinct; lia|]. intros x (k & -> & Hk%elem_of_seqZ)%list_elem_of_fmap.
      apply Hall. unfold MYID_MAX_NUM. lia. }
    rewrite !length_fmap, length_seqZ in Hle. lia.
Qed.

(** C20: a new channel gets an id.  In any world the component reaches with fewer than
    100 channels, as long as the 16-bit counter of ids has not come near its end, the id
    that is given out is free and is one of the hundred ids, a number from 1 to 100 in
    the other byte order. *)
Theorem new_id_found w l : reaches w -> chans w = Live l -> (length l < 100)%nat -> 0 <= myIdCount w <= 32667 ->
  exists id w', TransProxyGetNewMyId env w = Some (id, w') /\ (id ∉ (channelId <$> l)) /\ chans w' = chans w /\
    exists k, 1 <= k <= 100 /\ id = 256 * k.
Proof.
  intros (l' & E & [Hok _] & _)%proxy_reaches_inv El Hl Hc. rewrite El in E. injection E as <-. apply wps_run. eapply r_getid; [done..|]. intros k w' (E & _) Hk Hn. split_and!; [done..|].
  exists (k mod 100 + 1). rewrite id_of_small by lia. pose proof (Z.mod_pos_bound k 100 ltac:(lia)). lia.
Qed.
End main.

(** ** A device

    Everything succeeds; a key is 32 zeros, encryption adds a byte, and an object is
    printed by the kind that its first field tells. *)

Definition first_key (j : json) : string := match j with (k, _) :: _ => k | [] => EmptyString end.
Definition print_kind (j : json) : option (list byte) :=
  Some [if String.eqb (first_key j) "TYPE" then Byte.x68 else Byte.x61].

Definition requesting (req : Z) (parse : list byte -> option json) : Env := {|
  e_mem := true; e_lock := true; e_ok := true; e_random := fun n => (SOFTBUS_OK, repeat 10 (Z.to_nat n));
  e_key := Some (zeros 32); e_reqId := req; e_connect := SOFTBUS_OK; e_post := 0; e_opened := SOFTBUS_OK;
  e_info := fun _ => Some (mkInfo 1 0 CONNECT_BR (zeros 52));
  e_encrypt := fun _ p => Some (ProxyMessage.CLIENT_SIDE_FLAG, p ++ [Byte.x01]);
  e_decrypt := fun _ _ y => Some (take (length y - 1) y);
  e_create := true; e_item := fun _ => true; e_print := print_kind; e_parse := parse;
  e_enc64 := fun _ => Some "k"; e_dec64 := fun _ => Some (zeros 32);
  e_pkgName := fun _ => Some "server"; e_udid := Some "u"; e_networkId := fun _ => Some "n" |}.

Definition device_env (parse : list byte -> option json) : Env := requesting 7 parse.

Lemma device_env_fine parse : env_fine (device_env parse).
Proof. split_and!; [done..|]. intros n r bs Hn [= <- <-]. rewrite repeat_length. lia. Qed.

Definition device_app : AppInfo :=
  mkApp "g" (zeros 32) 0 0 (zero_data <| deviceId := "a" |> <| pkgName := "client" |> <| sessionName := "s" |>)
    (zero_data <| sessionName := "t" |>).
Definition device_opt : ConnectOption := mkOption CONNECT_BR (Byte.x62 :: zeros 51).

(** The world after a start and some events. *)
Definition world_of (env : nat -> Env) (hl el : nat) (es : list Event) : World :=
  match TransProxyManagerInit env true world0 with
  | Some (_, w) => match run env hl el es w with Some (_, w) => w | None => world0 end
  | None => world0
  end.

(** A channel that waits to shake hands: it was requested, and the link is there. *)
Definition opening : list Event :=
  [Open (Some (APP_TYPE_NORMAL, device_app)) (Some device_opt); Connected 7 1].

Definition silent : nat -> Env := fun _ => device_env (fun _ => None).
Definition opening_world : World := Eval vm_compute in world_of silent 0 1 opening.
Definition opening_chan : ProxyChannelInfo :=
  match chans opening_world with Live (c :: _) => c | _ => zero_chan end.

Lemma opening_reached parse : reaches (fun _ => device_env parse) 0 1 opening_world.
Proof. exists opening. eexists. split; [vm_compute; reflexivity|]. vm_compute. reflexivity. Qed.


(** The link is lost while the channel waits. *)
Definition lost_world : World := Eval vm_compute in
  match step silent 0 1 (Disconnected 1) opening_world with Some (_, w) => w | None => world0 end.

Lemma owner_told_witness :
  (exists l' c', chans lost_world = Live l' /\ c' ∈ l' /\ same opening_chan c') \/ told opening_world lost_world opening_chan \/
  gives_up (Disconnected 1) (channelId opening_chan) (pkg_of opening_chan).
Proof.
  destruct (owner_told silent 0 1 (fun _ => device_env_fine _) opening_world (opening_reached _)) as [H _].
  specialize (H (Disconnected 1) lost_world [opening_chan] opening_chan). cbn [base] in H. apply H.
  - vm_compute. reflexivity.
  - vm_compute. reflexivity.
  - left.
  - vm_compute. discriminate.
Defined.

Lemma unused_channels_end_witness : exists w',
  run silent 0 1 (replicate 240 Timer) opening_world = Some (tt, w') /\ chans w' = Live [].
Proof.
  destruct (unused_channels_end silent 0 1 (fun _ => device_env_fine _) opening_world [opening_chan] 240) as (w' & l' & Hr & Hl & _ & _ & He).
  - apply opening_reached.
  - vm_compute. reflexivity.
  - reflexivity.
  - exists w'. split; [exact Hr|]. rewrite Hl, He; [reflexivity|]. unfold PROXY_CHANNEL_BT_IDLE_TIMEOUT. lia.
Defined.

(** Data for that channel. *)
Definition early_data : ProxyMessage.ProxyMessage :=
  ProxyMessage.mkProxyMessage (ProxyMessage.mkMessageHead 5 0 512 0 0) 1 [Byte.x07] 1 0.

Lemma data_delivered_witness : exists w',
  TransProxyProcessDataRecv silent early_data opening_world =
    Some (tt, w') /\ out w' = out opening_world ++ [MsgReceived (Some "client"%string) 512 [Byte.x07]].
Proof.
  apply (data_delivered silent 0 1 (fun _ => device_env_fine _) opening_world [opening_chan] early_data opening_chan).
  - apply opening_reached.
  - vm_compute. reflexivity.
  - left.
  - vm_compute. discriminate.
  - vm_compute. reflexivity.
  - vm_compute. reflexivity.
  - intros x Hx _. apply list_elem_of_singleton in Hx. exact Hx.
  - vm_compute. reflexivity.
  - vm_compute. discriminate.
Defined.

Lemma new_id_found_witness : exists id w', TransProxyGetNewMyId silent opening_world = Some (id, w') /\ (id ∉ (channelId <$> [opening_chan])) /\ chans w' = chans opening_world /\ exists k, 1 <= k <= 100 /\ id = 256 * k.
Proof.
  apply (new_id_found silent 0 1 (fun _ => device_env_fine _) opening_world [opening_chan]).
  - apply opening_reached.
  - vm_compute. reflexivity.
  - simpl. lia.
  - vm_compute. split; discriminate.
Defined.

(** ** What the code does not mean to do *)

(** A frame whose flags are 2, and one whose text has no end. *)
Example foreign_flag_faults : bad (Data 1 MODULE_PROXY_CHANNEL (Some [Byte.x15; Byte.x02; Byte.x00; Byte.x01; Byte.x00; Byte.x00; Byte.x00; Byte.x00; Byte.x07])).
Proof. split; [done|]. eexists. split_and!; [done|vm_compute; reflexivity|done|]. left. vm_compute. discriminate. Qed.

Example open_text_faults : bad (Data 1 MODULE_PROXY_CHANNEL (Some [Byte.x11; Byte.x00; Byte.x00; Byte.x00; Byte.x00; Byte.x00; Byte.x00; Byte.x00; Byte.x7b])).
Proof. split; [done|]. eexists. split_and!; [done|vm_compute; reflexivity|done|]. right. split; [vm_compute; discriminate|done]. Qed.

(** The channel is closed before the looper takes its handshake, while another device
    is being connected: the handshake closes the connection 0, which is none, and the
    other device's connection is forgotten. *)
Definition other_opt : ConnectOption := mkOption CONNECT_BR (Byte.x63 :: zeros 51).

Definition closing : list Event := opening ++ [Close 512; Open (Some (APP_TYPE_NORMAL, device_app)) (Some other_opt)].
Definition conn_states (w : World) : list (ConnectOption * Z) := (fun c => (connInfo c, state c)) <$> default [] (conns w).

Example late_handshake_forgets :
  conn_states (world_of silent 0 1 closing) =
    [(other_opt, PROXY_CHANNEL_STATUS_PYH_CONNECTING); (device_opt, PROXY_CHANNEL_STATUS_PYH_CONNECTED)] /\
  conn_states (world_of silent 0 1 (closing ++ [Take])) = [(device_opt, PROXY_CHANNEL_STATUS_PYH_CONNECTED)] /\
  out (world_of silent 0 1 (closing ++ [Take])) = out (world_of silent 0 1 closing) ++ [DisconnectDevice 0].
Proof. split_and!; vm_compute; reflexivity. Qed.

(** Two channels to one BLE device, the second requested while the device is being
    connected: the second waits for a request that nobody made. *)
Definition numbered : nat -> Env := fun n => requesting (Z.of_nat n) (fun _ => None).
Definition ble_opt : ConnectOption := mkOption CONNECT_BLE (Byte.x62 :: zeros 51).
Definition open_ble : Event := Open (Some (APP_TYPE_NORMAL, device_app)) (Some ble_opt).

Definition chan_states (w : World) : list (Z * Z * Z) :=
  match chans w with Live l => (fun c => (channelId c, connId c, status c)) <$> l | _ => [] end.

Example second_ble_waits :
  out (world_of numbered 0 1 [open_ble; open_ble]) = [ConnectDevice ble_opt 7] /\
  chan_states (world_of numbered 0 1 [open_ble; open_ble; Connected 7 1]) =
    [(768, 0, PROXY_CHANNEL_STATUS_PYH_CONNECTING); (512, 1, PROXY_CHANNEL_STATUS_HANDSHAKEING)].
Proof. split; vm_compute; reflexivity. Qed.

(** The counter of ids wraps to negative numbers, whose remainders give ids that stand
    for nothing. *)
Example negative_ids : id_of (-2) = INVALID_CHANNEL_ID /\ id_of (-1) = 0 /\ i16 (32767 + 1) = -32768.
Proof. split_and!; reflexivity. Qed.

End ProxyChannelMain.
