(* ===== verification/ProxyOpen.v ===== *)
(** * Opening a proxy channel between two devices

    The handshake from the message in the client's looper to the acknowledgement: the
    client sends its frame, the server makes its channel and answers, the client
    completes its own.  The frames, texts and registries are those of [ProxyMessage],
    [ProxyHandshake] and [ProxyChannel]. *)

From S2P Require Import Prelude StateFault Utils OpenChannelMsg ProxyMessage ProxyHandshake ProxyChannel ProxyChannelInv ProxyChannelSteps.
From S2P Require Import ProxyChannelMain.

Module ProxyOpen.
Import OpenChannelMsg ProxyHandshake ProxyChannel ProxyChannelInv ProxyChannelSteps ProxyChannelMain.
#[local] Open Scope sf_scope.
#[local] Open Scope Z_scope.

(** ** Frames *)

(** The head of an encrypted message as it is sent. *)
Definition sent_head (ty side my peer : Z) : ProxyMessage.ProxyMessageHead :=
  head ty (if side =? ProxyMessage.SERVER_SIDE_FLAG then 3 else 1) my peer.

Definition received (ty side my peer conn s : Z) (p : list byte) : ProxyMessage.ProxyMessage :=
  ProxyMessage.mkProxyMessage (ProxyMessage.mkMessageHead ty (if side =? ProxyMessage.SERVER_SIDE_FLAG then 3 else 1) peer my 0)
    (Z.of_nat (length p)) p conn s.

Lemma sent_head_ok ty side my peer : 0 <= ty < ProxyMessage.PROXYCHANNEL_MSG_TYPE_MAX -> int16 my -> int16 peer ->
  ProxyMessage.head_ok (sent_head ty side my peer).
Proof.
  intros Ht Hm Hp. split; [by exists ty|]. split; [cbn; case_if; lia|]. by split.
Qed.

Lemma pack_sends e hl el ty side conn my peer p y : e_mem e = true -> is_Some (TransProxyGetConnectOption e conn) ->
  e_encrypt e conn p = Some (side, y) -> (length y <= length p + el)%nat ->
  pack hl el e (head ty ProxyMessage.ENCRYPTED my peer) conn p =
    Some (repeat Byte.x00 hl ++ ProxyMessage.head_bytes (sent_head ty side my peer) ++ y).
Proof.
  intros Hm Ho He Hl. unfold pack, ProxyMessage.TransProxyPackMessage. cbn [ProxyMessage.chiper head].
  change (ProxyMessage.ENCRYPTED =? 0) with false. cbv iota. rewrite bool_decide_eq_true_2 by done. cbn [negb]. rewrite Hm. cbn [negb].
  rewrite He, (proj2 (Nat.ltb_ge _ _)) by done. cbn [snd]. unfold sent_head. by destruct (side =? ProxyMessage.SERVER_SIDE_FLAG).
Qed.

Lemma frame_parses e w conn ty side my peer y p s : e_mem e = true -> is_Some (TransProxyGetConnectOption e conn) ->
  0 <= ty < ProxyMessage.PROXYCHANNEL_MSG_TYPE_MAX -> int16 my -> int16 peer -> y <> [] -> Z.of_nat (length y) < 2 ^ 31 - 8 ->
  (if ty =? ProxyMessage.PROXYCHANNEL_MSG_TYPE_HANDSHAKE
   then s = if side =? ProxyMessage.SERVER_SIDE_FLAG then ProxyMessage.CLIENT_SIDE_FLAG else ProxyMessage.SERVER_SIDE_FLAG
   else TransProxyGetChiperSide e w peer = Some s) ->
  e_decrypt e conn s y = Some p ->
  parse_frame e w conn (ProxyMessage.head_bytes (sent_head ty side my peer) ++ y) = Some (SOFTBUS_OK, received ty side my peer conn s p).
Proof.
  intros Hm Ho Ht Hmy Hpe Hy Hl Hs Hd. unfold parse_frame, ProxyMessage.TransProxyParseMessage, ProxyMessage.PROXY_CHANNEL_HEAD_LEN.
  pose proof (ProxyMessage.length_head_bytes (sent_head ty side my peer)) as Lh.
  assert (length y <> 0%nat) by by destruct y. rewrite (proj2 (Z.leb_gt _ _)) by (rewrite length_app, Lh; lia).
  rewrite (ProxyMessage.parse_head_ok (fun _ => None) (fun _ => true) (e_encrypt e) (e_decrypt e)) by first [by apply sent_head_ok|done|rewrite length_app, Lh; lia].
  cbn [mbind option_bind Z.eqb SOFTBUS_OK negb].
  destruct (ProxyMessage.type_byte_fields ty) as (F1 & _ & _); [unfold ProxyMessage.PROXYCHANNEL_MSG_TYPE_MAX in Ht; lia|].
  set (hb := ProxyMessage.head_bytes (sent_head ty side my peer)) in *. clearbody hb.
  unfold ProxyMessage.ChiperSideProc, ProxyMessage.received_head, sent_head, head.
  cbn [ProxyMessage.msgHead ProxyMessage.chiper ProxyMessage.type ProxyMessage.myId ProxyMessage.peerId ProxyMessage.reserved
       ProxyMessage.connId zero_msg]. rewrite F1.
  replace (Z.land (if side =? ProxyMessage.SERVER_SIDE_FLAG then 3 else 1) ProxyMessage.ENCRYPTED =? 0) with false by (by case_if).
  assert (forall x, (if ty =? ProxyMessage.PROXYCHANNEL_MSG_TYPE_HANDSHAKE then
      (SOFTBUS_OK, Some (if negb (Z.land (if side =? ProxyMessage.SERVER_SIDE_FLAG then 3 else 1) ProxyMessage.AUTH_SERVER_SIDE =? 0)
        then ProxyMessage.CLIENT_SIDE_FLAG else ProxyMessage.SERVER_SIDE_FLAG))
      else match TransProxyGetChiperSide e w peer with None => (SOFTBUS_ERR, None) | Some s => (SOFTBUS_OK, Some s) end) = x ->
      x = (SOFTBUS_OK, Some s)) as Hside.
  { intros x <-. destruct (ty =? _); [|by rewrite Hs]. rewrite Hs. by destruct (side =? _). }
  erewrite (Hside _ eq_refl). rewrite bool_decide_eq_true_2 by done. cbn [negb]. rewrite Hm. cbn [negb].
  rewrite length_app, Lh, (proj2 (Nat.ltb_ge _ _)) by lia.
  replace (Z.to_nat (Z.of_nat (8 + length y) - 8)) with (length y) by lia.
  rewrite <- (app_nil_r y) at 2. rewrite slice_mid by (rewrite ?Lh; done). by rewrite Hd.
Qed.

(** ** The two devices *)

Section devices.
Context (envA envB : nat -> Env) (hl el : nat).
Context (print : json -> option (list byte)) (parse : list byte -> option json).
Context (enc64 : list byte -> option string) (dec64 : string -> option (list byte)).

(** A device with memory and mutexes, cJSON and base64, and a connection that sends. *)
Record device (env : nat -> Env) (conn : Z) : Prop := {
  d_fine : forall n, env_fine (env n);
  d_create : forall n, e_create (env n) = true;
  d_item : forall n, e_item (env n) = fun _ => true;
  d_print : forall n, e_print (env n) = print;
  d_parse : forall n, e_parse (env n) = parse;
  d_enc64 : forall n, e_enc64 (env n) = enc64;
  d_dec64 : forall n, e_dec64 (env n) = dec64;
  d_option : forall n, is_Some (TransProxyGetConnectOption (env n) conn);
  d_post : forall n, 0 <= e_post (env n) }.

(** What [env] encrypts on [conn] as [side] is decrypted by [env'] on [conn'] as [side']. *)
Definition cipher (env env' : nat -> Env) (conn conn' side side' : Z) : Prop :=
  forall n p, exists y, e_encrypt (env n) conn p = Some (side, y) /\ y <> [] /\ (length y <= length p + el)%nat /\
    forall n', e_decrypt (env' n') conn' side' y = Some p.

(** The text of an object is parsed to it, and is short. *)
Definition text_ok (j : json) : Prop :=
  exists t, print j = Some t /\ parse t = Some j /\ cstr (t ++ [Byte.x00]) = t /\ Z.of_nat (length t) + Z.of_nat el < 2 ^ 30.

Context (connA connB sA sB : Z) (DA : device envA connA) (DB : device envB connB).
Context (HsA : sA = ProxyMessage.CLIENT_SIDE_FLAG \/ sA = ProxyMessage.SERVER_SIDE_FLAG).
Context (HAB : cipher envA envB connA connB sA (1 - sA)) (HBA : cipher envB envA connB connA sB sA).

Implicit Types (l : list ProxyChannelInfo) (c : ProxyChannelInfo) (w : World).

Lemma r_send env conn n b p w (Q : Z -> World -> Prop) : device env conn ->
  (forall w' sq, chans w' = chans w -> loop w' = loop w -> out w' = out w ++ [PostBytes n sq b p] -> Q SOFTBUS_OK w') ->
  wps (TransProxyTransSendMsg env n b p) Q w.
Proof.
  intros D HQ. unfold TransProxyTransSendMsg. apply wps_bind, wps_gets, wps_bind, wps_modify, wps_bind, wps_modify, wps_bind, r_ask.
  intros m w' (E1 & E2 & E3 & _). rewrite (proj2 (Z.ltb_ge _ _)) by apply D. apply wps_ret. by eapply HQ.
Qed.

(** The frame of a text. *)
Definition frame (ty side my peer : Z) (y : list byte) : list byte :=
  repeat Byte.x00 hl ++ ProxyMessage.head_bytes (sent_head ty side my peer) ++ y.

Lemma drop_frame ty side my peer y : drop hl (frame ty side my peer y) = ProxyMessage.head_bytes (sent_head ty side my peer) ++ y.
Proof. unfold frame. by rewrite drop_app_length' by (by rewrite repeat_length). Qed.

(** The client's channel after its handshake, and the frame that left. *)
Definition sided c : ProxyChannelInfo := c <| chiperSide := if sA =? ProxyMessage.SERVER_SIDE_FLAG then ProxyMessage.SERVER_SIDE_FLAG else chiperSide c |>.
Definition shaken l c (j : json) w w' : Prop :=
  exists i sq y t, l !! i = Some c /\ chans w' = Live (<[i := sided c]> l) /\
    out w' = out w ++ [PostBytes (connId c) sq (frame ProxyMessage.PROXYCHANNEL_MSG_TYPE_HANDSHAKE sA (myId c) INVALID_CHANNEL_ID y) CONN_HIGH] /\
    parse t = Some j /\ cstr (t ++ [Byte.x00]) = t /\ y <> [] /\ Z.of_nat (length y) < 2 ^ 31 - 8 /\
    (forall n, e_decrypt (envB n) connB (1 - sA) y = Some (t ++ [Byte.x00])).

Lemma sided_id c : (sA =? ProxyMessage.SERVER_SIDE_FLAG) = false -> sided c = c.
Proof. unfold sided. intros ->. by destruct c. Qed.

(** The client's handshake leaves. *)
Lemma shake_sent l i c j w : chans w = Live l -> l !! i = Some c -> (forall x, x ∈ l -> channelId x = channelId c -> x = c) ->
  connId c = connA -> handshake_object true (fun _ => true) enc64 c = Some j -> text_ok j ->
  wps (TransProxyHandshake envA hl el c) (fun r w' => r = SOFTBUS_OK /\ shaken l c j w w') w.
Proof.
  intros El Hi Hu Hc Hj (t & Hp & Hparse & Ht & Hlen). unfold TransProxyHandshake. apply wps_bind, r_ask. intros n3 w3 (E3 & O3 & _).
  unfold TransProxyPackHandshakeMsg. rewrite (d_create _ _ DA), (d_item _ _ DA), (d_print _ _ DA), (d_enc64 _ _ DA), Hj.
  cbn [print_object]. rewrite Hp. cbv zeta. apply wps_bind, r_ask. intros n4 w4 (E4 & O4 & _).
  destruct (HAB n4 (t ++ [Byte.x00])) as (y & Hy & Hne & Hly & Hdec). rewrite <- Hc in Hy.
  erewrite pack_sends; [|apply DA|rewrite Hc; apply DA|done|done]. unfold server_side. rewrite Hy. apply wps_bind.
  rewrite length_app in Hly. cbn [length] in Hly.
  assert (forall i' w5, l !! i' = Some c -> out w5 = out w -> chans w5 = Live (<[i' := sided c]> l) ->
    wps (let* r := TransProxyTransSendMsg envA (connId c)
           (frame ProxyMessage.PROXYCHANNEL_MSG_TYPE_HANDSHAKE sA (myId c) INVALID_CHANNEL_ID y) CONN_HIGH in
         if negb (r =? SOFTBUS_OK) then sret SOFTBUS_ERR else sret SOFTBUS_OK)
      (fun r w' => r = SOFTBUS_OK /\ shaken l c j w w') w5) as Hsend.
  { intros i' w5 Hi' O5 E5. apply wps_bind. eapply r_send; [exact DA|]. intros w6 sq E6 _ O6. cbn [Z.eqb SOFTBUS_OK negb].
    apply wps_ret. split; [done|]. exists i', sq, y, t. rewrite E6, O6, O5, E5. split_and!; try done. lia. }
  destruct (sA =? ProxyMessage.SERVER_SIDE_FLAG) eqn:Es.
  - unfold TransProxySetChiperSide.
    eapply r_first; [apply DA|by rewrite E4, E3|done|lia|intros x Hx Hxc; apply Hu; [done|lia]|]. intros i5 w5 Hi5 (E5 & O5 & _).
    apply wps_bind, wps_modify, wps_ret. cbn [Z.eqb SOFTBUS_OK negb]. apply (Hsend i5); [done|cbn [out]; congruence|].
    unfold sided. by rewrite Es.
  - apply wps_ret. cbn [Z.eqb SOFTBUS_OK negb]. apply (Hsend i); [done|congruence|]. rewrite sided_id, list_insert_id by done. congruence.
Qed.

Lemma success_sent l i c j w : chans w = Live l -> l !! i = Some c -> (forall x, x ∈ l -> channelId x = channelId c -> x = c) ->
  connId c = connA -> handshake_object true (fun _ => true) enc64 c = Some j -> text_ok j ->
  wps (TransProxyOpenProxyChannelSuccess envA hl el (channelId c)) (fun _ w' => shaken l c j w w') w.
Proof.
  intros El Hi Hu Hc Hj Ht. unfold TransProxyOpenProxyChannelSuccess. apply wps_bind, r_ask.
  intros n w1 (E1 & O1 & _). destruct (d_fine _ _ DA n) as (-> & _). cbn [negb]. apply wps_bind. unfold TransProxyGetChanByChanId.
  eapply r_first; [apply DA|by rewrite E1|done|lia|intros x Hx Hxc; apply Hu; [done|lia]|].
  intros i2 w2 _ (E2 & O2 & _). apply wps_ret, wps_bind.
  eapply wps_mono; [eapply shake_sent; [by rewrite E2, E1|done..]|]. intros r w3 [-> (i3 & sq & y & t & H1 & H2 & H3 & H4)].
  cbn [Z.eqb SOFTBUS_OK SOFTBUS_ERR]. apply wps_ret. exists i3, sq, y, t. by rewrite H3, O2, O1.
Qed.

(** ** The server *)

(** The server's channel. *)
Definition server_chan c (pkg udid : string) (id conn : Z) : ProxyChannelInfo :=
  let r := handshake_received c in
  r <| appInfo := (appInfo r) <| myData := (myData (appInfo r)) <| pkgName := pkg |> <| deviceId := udid |> |> |>
    <| isServer := 1 |> <| status := PROXY_CHANNEL_STATUS_COMPLETED |> <| connId := conn |> <| myId := id |> <| channelId := id |>
    <| peerId := myId c |> <| chiperSide := 1 - sA |>.

Lemma r_text env conn ty my peer pr (tx : Env -> option (list byte)) t w (P : list byte -> Prop) (Q : Z -> World -> Prop) side :
  device env conn -> (forall m, tx (env m) = Some t) ->
  (forall m, exists y, e_encrypt (env m) conn (t ++ [Byte.x00]) = Some (side, y) /\ (length y <= length (t ++ [Byte.x00]) + el)%nat /\ P y) ->
  (forall w' sq y, P y -> chans w' = chans w -> out w' = out w ++ [PostBytes conn sq (frame ty side my peer y) pr] -> Q SOFTBUS_OK w') ->
  wps (send_text env hl el ty conn my peer pr tx) Q w.
Proof.
  intros D Ht He HQ. unfold send_text. apply wps_bind, r_ask. intros m1 w1 (E1 & O1 & _). rewrite Ht. apply wps_bind, r_ask.
  intros m2 w2 (E2 & O2 & _). destruct (He m2) as (y & Hy & Hl & HP). erewrite pack_sends; [|apply D|apply D|done|done].
  apply wps_bind. eapply r_send; [exact D|]. intros w3 sq E3 _ O3. cbn [Z.eqb SOFTBUS_OK negb].
  apply wps_ret, (HQ w3 sq y); [done|congruence|]. by rewrite O3, O2, O1.
Qed.

Lemma r_create_conn env n w (Q : unit -> World -> Prop) : (forall w', chans w' = chans w -> out w' = out w -> Q tt w') ->
  wps (TransCreateConnByConnId env n) Q w.
Proof.
  intros HQ. unfold TransCreateConnByConnId, with_conns. apply wps_bind, wps_gets. case_match; [|by apply wps_ret, HQ].
  apply wps_bind, r_ask. intros m1 w1 (E1 & O1 & _). case_match; [|apply wps_ret, HQ; congruence].
  apply wps_bind, wps_gets. case_match; [|apply wps_ret, HQ; congruence]. apply wps_bind, r_ask. intros m2 w2 (E2 & O2 & _).
  case_if; [apply wps_ret, HQ; congruence|]. case_match.
  - case_match. apply wps_modify, HQ; cbn [chans out]; congruence.
  - apply wps_bind, r_ask. intros m3 w3 (E3 & O3 & _). case_if; [apply wps_ret, HQ; congruence|].
    apply wps_bind, wps_modify, wps_modify, HQ; cbn [chans out]; congruence.
Qed.

(** The server makes its channel and answers. *)
Lemma handshake_answered l c j t w m pkg udid jk : Forall chan_ok l -> chans w = Live l -> (length l < 100)%nat -> 0 <= myIdCount w <= 32667 ->
  TransProxyUnpackHandshakeMsg dec64 (Some j) zero_chan = Some (handshake_received c) -> appType c = APP_TYPE_NORMAL ->
  text_read m = Some t -> parse t = Some j -> ProxyMessage.connId m = connB -> ProxyMessage.chiperSide m = 1 - sA ->
  ProxyMessage.peerId (ProxyMessage.msgHead m) = myId c ->
  (forall n, e_pkgName (envB n) (sessionName (peerData (appInfo c))) = Some pkg) -> (forall n, e_udid (envB n) = Some udid) ->
  (forall n, is_Some (e_networkId (envB n) (deviceId (myData (appInfo c))))) -> (forall n, e_opened (envB n) = SOFTBUS_OK) ->
  (forall id, ack_object true (fun _ => true) (server_chan c pkg udid id connB) = Some jk) -> text_ok jk ->
  wps (TransProxyProcessHandshakeMsg envB hl el m) (fun _ w' => exists k sq y tk a, 0 < k /\ (id_of k ∉ (channelId <$> l)) /\
    chans w' = Live (server_chan c pkg udid (id_of k) connB :: l) /\
    out w' = out w ++ [ChannelOpened (Some pkg) (id_of k) true a;
      PostBytes connB sq (frame ProxyMessage.PROXYCHANNEL_MSG_TYPE_HANDSHAKE_ACK sB (id_of k) (myId c) y) CONN_HIGH] /\
    parse tk = Some jk /\ cstr (tk ++ [Byte.x00]) = tk /\ y <> [] /\ Z.of_nat (length y) < 2 ^ 31 - 8 /\
    (forall n, e_decrypt (envA n) connA sA y = Some (tk ++ [Byte.x00]))) w.
Proof.
  intros H El Hlen Hcnt Hun Hty Htx Hparse Hconn Hside Hpeer Hpkg Hudid Hnet Hop Hack (tk & Hp & Hpk & Htk & Hlk).
  unfold TransProxyProcessHandshakeMsg. apply wps_bind, r_ask. intros n1 w1 Q1. destruct (d_fine _ _ DB n1) as (-> & _). cbn [negb].
  apply wps_bind. unfold parse_json. apply wps_bind. eapply wps_lift; [exact Htx|]. apply wps_bind, r_ask. intros n2 w2 Q2. apply wps_ret.
  rewrite (d_parse _ _ DB), Hparse. apply wps_bind, r_ask. intros n3 w3 Q3. rewrite (d_dec64 _ _ DB), Hun. apply wps_bind.
  unfold TransProxyGetLocalInfo. apply wps_bind, r_ask. intros n4 w4 Q4.
  assert (appType (handshake_received c) = APP_TYPE_NORMAL) as Et by done.
  replace (negb (appType (handshake_received c) =? APP_TYPE_INNER)) with true by (by rewrite Et).
  cbv iota. assert (sessionName (myData (appInfo (handshake_received c))) = sessionName (peerData (appInfo c))) as -> by done.
  rewrite Hpkg, Hudid. apply wps_ret, wps_bind.
  assert (quiet w w4) as (E & O & _ & C) by (repeat (eapply quiet_trans; [eassumption|]); done).
  eapply r_getid; [apply DB|exact H|by rewrite E|done|by rewrite C|]. intros k w5 (E5 & O5 & _) Hk Hfree. apply wps_bind.
  unfold OnProxyChannelOpened. cbn [appType].
  replace (appType (handshake_received c) =? APP_TYPE_NORMAL) with true by (by rewrite Et).
  unfold NotifyNormalChannelOpened. apply wps_bind, r_ask. intros n6 w6 (E6 & O6 & _).
  assert (deviceId (peerData (appInfo (handshake_received c))) = deviceId (myData (appInfo c))) as Ed
    by (unfold handshake_received; cbn; by rewrite Hty).
  cbn [appInfo peerData]. rewrite Ed. destruct (Hnet n6) as [nid ->]. apply wps_bind, wps_modify, wps_bind, r_ask. intros n7 w7 (E7 & O7 & _).
  apply wps_ret. rewrite Hop. cbn [negb Z.eqb SOFTBUS_OK]. apply wps_bind. unfold TransProxyAddChanItem.
  eapply r_with; [apply DB|rewrite E7; cbn [chans]; rewrite E6, E5, E; exact El|]. intros w8 (E8 & O8 & _).
  apply wps_bind, wps_modify, wps_bind, wps_modify, wps_ret. cbn [negb]. apply wps_bind. rewrite Hconn, Hside, Hpeer.
  match goal with |- wps (TransProxyAckHandshake _ _ _ _ ?x) _ _ => change x with (server_chan c pkg udid (id_of k) connB) end.
  unfold TransProxyAckHandshake.
  eapply (r_text envB connB _ _ _ _ _ tk _ (fun y => y <> [] /\ Z.of_nat (length y) < 2 ^ 31 - 8 /\
    forall n, e_decrypt (envA n) connA sA y = Some (tk ++ [Byte.x00])) _ sB); [done| | |].
  - intros n. unfold TransProxyPackHandshakeAckMsg. by rewrite (d_create _ _ DB), (d_item _ _ DB), (d_print _ _ DB), Hack.
  - intros n. destruct (HBA n (tk ++ [Byte.x00])) as (y & Hy & Hne & Hly & Hdec). exists y. split_and!; try done.
    rewrite length_app in Hly. cbn [length] in Hly. lia.
  - intros w9 sq y (Hne & Hly & Hdec) E9 O9. cbn [negb Z.eqb SOFTBUS_OK]. apply r_create_conn. intros w10 E10 O10.
    eexists k, sq, y, tk, _. rewrite E10, E9, O10, O9. cbn [chans out]. rewrite O8, O7. cbn [out]. rewrite O6, O5, O, <- app_assoc.
    split_and!; done.
Qed.

(** ** The client again *)

Lemma r_opened env i ty a s w (Q : Z -> World -> Prop) : (forall r w', chans w' = chans w -> Q r w') ->
  wps (OnProxyChannelOpened env i ty a s) Q w.
Proof.
  intros HQ. unfold OnProxyChannelOpened, NotifyNormalChannelOpened, NotifyNetworkingChannelOpened.
  case_if. { apply wps_bind, r_ask. intros n w1 (E1 & _). case_match; [|by apply wps_ret, HQ]. apply wps_bind, wps_modify, wps_bind, r_ask.
             intros n2 w2 (E2 & _). apply wps_ret, HQ. rewrite E2. cbn [chans]. congruence. }
  case_if; [by apply wps_ret, HQ|]. case_if; [|by apply wps_ret, HQ]. apply wps_bind, wps_gets. case_if; [by apply wps_ret, HQ|].
  apply wps_bind, wps_modify, wps_bind, r_ask. intros n w1 (E1 & _). case_if; by apply wps_ret, HQ.
Qed.

(** The acknowledgement completes the client's channel. *)
Lemma ack_completes l i c s j t w m : chans w = Live l -> l !! i = Some c -> (forall x, x ∈ l -> myId x = myId c -> x = c) ->
  text_read m = Some t -> parse t = Some j -> TransProxyUnpackHandshakeAckMsg (Some j) zero_chan = Some (ack_received s) ->
  identity s = identity c -> ProxyMessage.myId (ProxyMessage.msgHead m) = myId c ->
  wps (TransProxyProcessHandshakeAckMsg envA m) (fun _ w' => exists i' info, l !! i' = Some c /\
    chans w' = Live (<[i' := acked info c]> l) /\ peerId info = ProxyMessage.peerId (ProxyMessage.msgHead m) /\
    appInfo info = appInfo (ack_received s)) w.
Proof.
  intros El Hi Hu Htx Hparse Hun Hid Hmy. unfold TransProxyProcessHandshakeAckMsg. apply wps_bind, r_ask. intros n1 w1 (E1 & _).
  destruct (d_fine _ _ DA n1) as (-> & _). cbn [negb]. apply wps_bind. unfold parse_json. apply wps_bind. eapply wps_lift; [exact Htx|].
  apply wps_bind, r_ask. intros n2 w2 (E2 & _). apply wps_ret. rewrite (d_parse _ _ DA), Hparse, Hun. cbv zeta. apply wps_bind.
  match goal with |- wps (TransProxyUpdateAckInfo _ ?x) _ _ => set (info := x) end.
  assert (myId info = myId c /\ identity info = identity c /\ peerId info = ProxyMessage.peerId (ProxyMessage.msgHead m) /\
    appInfo info = appInfo (ack_received s)) as (F1 & F2 & F3 & F4) by done. clearbody info. unfold TransProxyUpdateAckInfo.
  eapply r_first; [apply DA|by rewrite E2, E1|done|by rewrite F1, F2, Z.eqb_refl, String.eqb_refl| |].
  { intros x Hx Hf. apply Hu; [done|]. apply andb_true_iff in Hf as [Hf _]. lia. }
  intros i' w3 Hi' (E3 & _). apply wps_bind, wps_modify, wps_ret. cbv beta iota. apply wps_bind, r_opened. intros r w4 E4.
  apply wps_ret. exists i', info. by rewrite E4.
Qed.

(** Both ends of a channel. *)
Record established c s : Prop := {
  es_status : status c = PROXY_CHANNEL_STATUS_COMPLETED /\ status s = PROXY_CHANNEL_STATUS_COMPLETED;
  es_ids : peerId c = channelId s /\ peerId s = channelId c /\ channelId c = myId c /\ channelId s = myId s;
  es_identity : identity c = identity s;
  es_key : sessionKey (appInfo c) = sessionKey (appInfo s);
  es_sides : chiperSide c + chiperSide s = 1;
  es_device : deviceId (peerData (appInfo c)) = deviceId (myData (appInfo s)) /\
              deviceId (peerData (appInfo s)) = deviceId (myData (appInfo c));
  es_package : pkgName (peerData (appInfo c)) = pkgName (myData (appInfo s)) /\
               pkgName (peerData (appInfo s)) = pkgName (myData (appInfo c)) }.

Lemma id_of_int16 k : int16 (id_of k).
Proof. unfold id_of, int16. wrap_lia. Qed.

Lemma unique_by_id l c : list_ok l -> c ∈ l -> channelId c <> INVALID_CHANNEL_ID -> forall x, x ∈ l -> channelId x = channelId c -> x = c.
Proof. intros Hl Hc Hi x Hx E. symmetry. by eapply list_ok_unique. Qed.

(** A message of a known frame. *)
Lemma data_step env conn ty side my peer y p s w (Q : unit -> World -> Prop) : device env conn ->
  0 <= ty < ProxyMessage.PROXYCHANNEL_MSG_TYPE_MAX -> int16 my -> int16 peer -> y <> [] -> Z.of_nat (length y) < 2 ^ 31 - 8 ->
  (forall n w', quiet w w' -> if ty =? ProxyMessage.PROXYCHANNEL_MSG_TYPE_HANDSHAKE
   then s = if side =? ProxyMessage.SERVER_SIDE_FLAG then ProxyMessage.CLIENT_SIDE_FLAG else ProxyMessage.SERVER_SIDE_FLAG
   else TransProxyGetChiperSide (env n) w' peer = Some s) ->
  (forall n, e_decrypt (env n) conn s y = Some p) ->
  (forall w', quiet w w' -> wps (TransProxyonMessageReceived env hl el (received ty side my peer conn s p)) Q w') ->
  wps (step env hl el (Data conn MODULE_PROXY_CHANNEL (Some (drop hl (frame ty side my peer y))))) Q w.
Proof.
  intros D Ht Hm Hp Hy Hl Hs Hd HQ. rewrite drop_frame. cbn [step TransProxyOnDataReceived]. change (negb (MODULE_PROXY_CHANNEL =? MODULE_PROXY_CHANNEL)) with false.
  cbv iota. apply wps_bind, r_ask. intros n w1 Hq. apply wps_bind, wps_gets, wps_bind.
  eapply wps_lift; [apply frame_parses; try done; [apply D|apply D|by apply Hs]|]. cbv beta iota.
  change (negb (SOFTBUS_OK =? SOFTBUS_OK)) with false. cbv iota. by apply HQ.
Qed.

Lemma received_read ty side my peer conn s t : cstr (t ++ [Byte.x00]) = t ->
  text_read (received ty side my peer conn s (t ++ [Byte.x00])) = Some t.
Proof.
  intros E. unfold text_read, is_encrypted, received. cbn [ProxyMessage.data ProxyMessage.msgHead ProxyMessage.chiper].
  replace (negb (Z.land (if side =? ProxyMessage.SERVER_SIDE_FLAG then 3 else 1) ProxyMessage.ENCRYPTED =? 0)) with true by (by case_if).
  cbn [orb]. by rewrite E.
Qed.

(** The handler of a type; an encrypted message is freed without a fault. *)
Lemma dispatch env ty side my peer conn s p w (Q : unit -> World -> Prop) :
  ty = ProxyMessage.PROXYCHANNEL_MSG_TYPE_HANDSHAKE \/ ty = ProxyMessage.PROXYCHANNEL_MSG_TYPE_HANDSHAKE_ACK ->
  wps (if ty =? ProxyMessage.PROXYCHANNEL_MSG_TYPE_HANDSHAKE then TransProxyProcessHandshakeMsg env hl el (received ty side my peer conn s p)
       else TransProxyProcessHandshakeAckMsg env (received ty side my peer conn s p)) Q w ->
  wps (TransProxyonMessageReceived env hl el (received ty side my peer conn s p)) Q w.
Proof.
  intros Ht H. unfold TransProxyonMessageReceived. cbv zeta.
  assert (negb (ProxyMessage.chiper (ProxyMessage.msgHead (received ty side my peer conn s p)) =? 0) &&
    negb (is_encrypted (received ty side my peer conn s p)) = false) as ->.
  { unfold is_encrypted, received. cbn [ProxyMessage.msgHead ProxyMessage.chiper]. by destruct (side =? _). }
  apply wps_bind. eapply (wps_mono _ Q); [|intros [] w' HQ; by apply wps_ret]. by destruct Ht as [-> | ->].
Qed.

Lemma list_ok_of env w l : (forall n, env_fine (env n)) -> reaches env hl el w -> chans w = Live l -> list_ok l.
Proof. intros He Hr El. destruct (proxy_reaches_inv env hl el He w Hr) as (l' & E & Hok & _). rewrite El in E. by injection E as <-. Qed.

(** The client's step. *)
Lemma client_sends w l i c ms j : list_ok l -> chans w = Live l -> l !! i = Some c -> loop w = LOOP_HANDSHAKE_MSG (channelId c) :: ms ->
  channelId c <> INVALID_CHANNEL_ID -> connId c = connA -> handshake_object true (fun _ => true) enc64 c = Some j -> text_ok j ->
  exists w', step envA hl el Take w = Some (tt, w') /\ shaken l c j w w'.
Proof.
  intros Hok El Hi Eloop Hid Hconn Hj Ht. assert (wps (step envA hl el Take) (fun _ w' => shaken l c j w w') w) as H.
  { cbn [step]. apply wps_bind, wps_gets. rewrite Eloop. apply wps_bind, wps_modify. cbn [TransProxyLoopMsgHandler].
    eapply wps_mono; [eapply (success_sent l i c j); [done|done| |done..]|done].
    apply unique_by_id; [done|by eapply list_elem_of_lookup_2|done]. }
  apply wps_run in H as ([] & w' & S & Hs). by exists w'.
Qed.

(** The server's answer: its channel [s] and the frame that carries the text [t]. *)
Definition answered l c s j w w' : Prop :=
  exists sq y t a, (channelId s ∉ (channelId <$> l)) /\ chans w' = Live (s :: l) /\
    out w' = out w ++ [ChannelOpened (Some (pkg_of s)) (channelId s) true a;
      PostBytes connB sq (frame ProxyMessage.PROXYCHANNEL_MSG_TYPE_HANDSHAKE_ACK sB (channelId s) (myId c) y) CONN_HIGH] /\
    parse t = Some j /\ cstr (t ++ [Byte.x00]) = t /\ y <> [] /\ Z.of_nat (length y) < 2 ^ 31 - 8 /\
    (forall n, e_decrypt (envA n) connA sA y = Some (t ++ [Byte.x00])).

Lemma server_answers w l c j t y pkg udid jk : Forall chan_ok l -> chans w = Live l -> (length l < 100)%nat -> 0 <= myIdCount w <= 32667 ->
  TransProxyUnpackHandshakeMsg dec64 (Some j) zero_chan = Some (handshake_received c) -> appType c = APP_TYPE_NORMAL -> int16 (myId c) ->
  parse t = Some j -> cstr (t ++ [Byte.x00]) = t -> y <> [] -> Z.of_nat (length y) < 2 ^ 31 - 8 ->
  (forall n, e_decrypt (envB n) connB (1 - sA) y = Some (t ++ [Byte.x00])) ->
  (forall n, e_pkgName (envB n) (sessionName (peerData (appInfo c))) = Some pkg) -> (forall n, e_udid (envB n) = Some udid) ->
  (forall n, is_Some (e_networkId (envB n) (deviceId (myData (appInfo c))))) -> (forall n, e_opened (envB n) = SOFTBUS_OK) ->
  (forall id, ack_object true (fun _ => true) (server_chan c pkg udid id connB) = Some jk) -> text_ok jk ->
  exists w' id, int16 id /\ answered l c (server_chan c pkg udid id connB) jk w w' /\
    step envB hl el (Data connB MODULE_PROXY_CHANNEL
      (Some (drop hl (frame ProxyMessage.PROXYCHANNEL_MSG_TYPE_HANDSHAKE sA (myId c) INVALID_CHANNEL_ID y)))) w = Some (tt, w').
Proof.
  intros Hok El Hl Hc Hun Hty Hmy P1 C1 N1 L1 D1 Hpkg Hudid Hnet Hop Hak Hjk.
  assert (wps (step envB hl el (Data connB MODULE_PROXY_CHANNEL
      (Some (drop hl (frame ProxyMessage.PROXYCHANNEL_MSG_TYPE_HANDSHAKE sA (myId c) INVALID_CHANNEL_ID y)))))
    (fun _ w' => exists id, int16 id /\ answered l c (server_chan c pkg udid id connB) jk w w') w) as H.
  { eapply (data_step envB connB _ _ _ _ _ (t ++ [Byte.x00]) (1 - sA)); try done.
    - intros n w' _. rewrite Z.eqb_refl. destruct HsA as [-> | ->]; done.
    - intros w' (E & O & _ & C). apply dispatch; [by left|]. rewrite Z.eqb_refl.
      eapply wps_mono; [eapply (handshake_answered l c j t w' _ pkg udid jk); try done; [by rewrite E|by rewrite C|by apply received_read]|].
      intros [] w2 (k & sq & yk & tk & a & _ & Hn & Ew & Ow & R1 & R2 & R3 & R4 & R5). exists (id_of k). split; [apply id_of_int16|].
      exists sq, yk, tk, a. rewrite <- O. by split_and!. }
  apply wps_run in H as ([] & w' & S & id & Hid & Ha). by exists w', id.
Qed.

Lemma first_side l i x side : l !! i = Some x -> (forall y, y ∈ l -> channelId y = channelId x -> y = x) -> chiperSide x = side ->
  chiperSide ∘ snd <$> list_find (fun c => channelId c =? channelId x) l = Some side.
Proof.
  intros Hi Hu Es. destruct (list_find _ l) as [[k y]|] eqn:E.
  - apply list_find_Some in E as (Hk & Hy & _). apply Is_true_eq_true in Hy. cbn. f_equal. rewrite (Hu y); [done|by eapply list_elem_of_lookup_2|lia].
  - apply list_find_None in E. rewrite Forall_lookup in E. destruct (E i x Hi). apply Is_true_eq_left. lia.
Qed.

(** The client's end. *)
Lemma client_completes w l i c s j t y : list_ok l -> chans w = Live l -> l !! i = Some c -> channelId c <> INVALID_CHANNEL_ID ->
  chiperSide c = sA -> parse t = Some j -> cstr (t ++ [Byte.x00]) = t -> y <> [] -> Z.of_nat (length y) < 2 ^ 31 - 8 ->
  (forall n, e_decrypt (envA n) connA sA y = Some (t ++ [Byte.x00])) -> int16 (channelId s) ->
  TransProxyUnpackHandshakeAckMsg (Some j) zero_chan = Some (ack_received s) -> identity s = identity c ->
  exists w' i' info, l !! i' = Some c /\ chans w' = Live (<[i' := acked info c]> l) /\ peerId info = channelId s /\
    appInfo info = appInfo (ack_received s) /\
    step envA hl el (Data connA MODULE_PROXY_CHANNEL
      (Some (drop hl (frame ProxyMessage.PROXYCHANNEL_MSG_TYPE_HANDSHAKE_ACK sB (channelId s) (myId c) y)))) w = Some (tt, w').
Proof.
  intros Hok El Hi Hid Hside P1 C1 N1 L1 D1 Hs Hun Hident. assert (c ∈ l) as Hc by by eapply list_elem_of_lookup_2.
  pose proof Hok as [Hf _]. rewrite Forall_forall in Hf. destruct (Hf c Hc) as (Eid & Hmy & _).
  pose proof (unique_by_id l c Hok Hc Hid) as Hu.
  assert (wps (step envA hl el (Data connA MODULE_PROXY_CHANNEL
      (Some (drop hl (frame ProxyMessage.PROXYCHANNEL_MSG_TYPE_HANDSHAKE_ACK sB (channelId s) (myId c) y)))))
    (fun _ w' => exists i' info, l !! i' = Some c /\ chans w' = Live (<[i' := acked info c]> l) /\ peerId info = channelId s /\
      appInfo info = appInfo (ack_received s)) w) as H.
  { eapply (data_step envA connA _ _ _ _ _ (t ++ [Byte.x00]) sA); try done.
    - intros n w' (E & _). cbn [Z.eqb ProxyMessage.PROXYCHANNEL_MSG_TYPE_HANDSHAKE ProxyMessage.PROXYCHANNEL_MSG_TYPE_HANDSHAKE_ACK Pos.eqb].
      unfold TransProxyGetChiperSide. rewrite E, El. destruct (d_fine _ _ DA n) as (_ & -> & _). rewrite <- Eid. by eapply first_side.
    - intros w' (E & _). apply dispatch; [by right|].
      cbn [Z.eqb ProxyMessage.PROXYCHANNEL_MSG_TYPE_HANDSHAKE ProxyMessage.PROXYCHANNEL_MSG_TYPE_HANDSHAKE_ACK Pos.eqb].
      eapply (ack_completes l i c s j t w'); try done; [by rewrite E| |by apply received_read].
      intros x Hx Ex. apply Hu; [done|]. destruct (Hf x Hx) as (Ex' & _). congruence. }
  apply wps_run in H as ([] & w' & S & i' & info & H). exists w', i', info. tauto.
Qed.

End devices.

(** ** Two devices *)

Definition object_of (j : option json) : json := default [] j.
Definition handshake_json : json := Eval vm_compute in
  object_of (handshake_object true (fun _ => true) (fun _ => Some "k"%string) opening_chan).
Definition ack_json : json := Eval vm_compute in
  object_of (ack_object true (fun _ => true) (server_chan 0 opening_chan "server" "u" 0 1)).

(** The two texts are parsed to what they were printed from. *)
Definition parse_kind (t : list byte) : option json :=
  match t with
  | [b] => if Byte.eqb b Byte.x68 then Some handshake_json else if Byte.eqb b Byte.x61 then Some ack_json else None
  | _ => None
  end.

Definition speaking : nat -> Env := fun _ => device_env parse_kind.
Definition idle_world : World := Eval vm_compute in world_of silent 0 1 [].

Lemma idle_reached : reaches speaking 0 1 idle_world.
Proof. exists []. eexists. split; [vm_compute; reflexivity|]. vm_compute. reflexivity. Qed.

Lemma speaking_device : device print_kind parse_kind (fun _ => Some "k"%string) (fun _ => Some (zeros 32)) speaking 1.
Proof. split; try (intros n; reflexivity); intros n; [apply device_env_fine|by eexists]. Qed.

Lemma speaking_cipher : cipher 1 speaking speaking 1 1 0 0 /\ cipher 1 speaking speaking 1 1 0 (1 - 0).
Proof.
  assert (forall s, cipher 1 speaking speaking 1 1 0 s); [|done]. intros s n p. exists (p ++ [Byte.x01]). split_and!; [done|by destruct p|by rewrite length_app|].
  intros n'. cbn. rewrite length_app. cbn [length]. f_equal. apply take_app_length'. lia.
Qed.


(** ** What the code does not mean to do *)

(** The handshake of a device's first channel. *)
Definition shake (conn : Z) : Event :=
  Data conn MODULE_PROXY_CHANNEL (Some (ProxyMessage.head_bytes (sent_head ProxyMessage.PROXYCHANNEL_MSG_TYPE_HANDSHAKE 0 512 (-1)) ++
    [Byte.x68; Byte.x00; Byte.x01])).

(** Two devices open their first channels to this one; what the first sends is given
    out as the second's. *)
Definition first_data : Event :=
  Data 1 MODULE_PROXY_CHANNEL (Some (ProxyMessage.head_bytes (head ProxyMessage.PROXYCHANNEL_MSG_TYPE_NORMAL 0 512 512) ++ [Byte.x07])).

Example data_misdelivered :
  chan_states (world_of speaking 0 1 [shake 1; shake 2]) =
    [(768, 2, PROXY_CHANNEL_STATUS_COMPLETED); (512, 1, PROXY_CHANNEL_STATUS_COMPLETED)] /\
  out (world_of speaking 0 1 [shake 1; shake 2; first_data]) =
    out (world_of speaking 0 1 [shake 1; shake 2]) ++ [MsgReceived (Some "server"%string) 768 [Byte.x07]].
Proof. split; vm_compute; reflexivity. Qed.

(** When all the ids are taken, a channel with the id that stands for none is opened. *)
Example id_missing_accepted :
  hd_error (chan_states (world_of speaking 0 1 (replicate 101 (shake 1)))) =
    Some (INVALID_CHANNEL_ID, 1, PROXY_CHANNEL_STATUS_COMPLETED).
Proof. vm_compute. reflexivity. Qed.

End ProxyOpen.
