(* ===== verification/DiscMedium.v ===== *)
(** * Discovery: the interface of the media (core/discovery/manager/include/disc_manager.h)

    The discovery manager drives its media (CoAP, BLE) through a table of
    functions, [DiscoveryFuncInterface].  The table is a class over the state of a
    medium, and what the manager relies on a class of laws: a medium counts, for
    each capability, the publications and the subscriptions it was asked for. *)

From S2P Require Import Prelude StateFault.

Module DiscMedium.

Definition CAPABILITY_NUM : Z := 1.
Definition CAPABILITY_MAX_BITNUM : Z := 8.
Definition MAX_CAPABILITYDATA_LEN : Z := 513.
Definition INT32_MAX_BIT_NUM : Z := 32.

Definition SOFTBUS_DISCOVER_ERR_BASE : Z := -3000.
Definition SOFTBUS_DISCOVER_MANAGER_NOT_INIT : Z := SOFTBUS_DISCOVER_ERR_BASE + 4.
Definition SOFTBUS_DISCOVER_MANAGER_ITEM_NOT_CREATE : Z := SOFTBUS_DISCOVER_ERR_BASE + 5.
Definition SOFTBUS_DISCOVER_MANAGER_INFO_NOT_CREATE : Z := SOFTBUS_DISCOVER_ERR_BASE + 6.
Definition SOFTBUS_DISCOVER_MANAGER_INFO_NOT_DELETE : Z := SOFTBUS_DISCOVER_ERR_BASE + 7.
Definition SOFTBUS_DISCOVER_MANAGER_INNERFUNCTION_FAIL : Z := SOFTBUS_DISCOVER_ERR_BASE + 8.
Definition SOFTBUS_DISCOVER_MANAGER_CAPABILITY_INVALID : Z := SOFTBUS_DISCOVER_ERR_BASE + 9.
Definition SOFTBUS_DISCOVER_MANAGER_DUPLICATE_PARAM : Z := SOFTBUS_DISCOVER_ERR_BASE + 10.
Definition SOFTBUS_DISCOVER_MANAGER_INVALID_MEDIUM : Z := SOFTBUS_DISCOVER_ERR_BASE + 12.
Definition SOFTBUS_DISCOVER_MANAGER_INVALID_PKGNAME : Z := SOFTBUS_DISCOVER_ERR_BASE + 13.
Definition SOFTBUS_DISCOVER_MANAGER_INVALID_MODULE : Z := SOFTBUS_DISCOVER_ERR_BASE + 14.
Definition SOFTBUS_DISCOVER_COAP_INIT_FAIL : Z := SOFTBUS_DISCOVER_ERR_BASE + 16.
Definition SOFTBUS_DISCOVER_COAP_MERGE_CAP_FAIL : Z := SOFTBUS_DISCOVER_ERR_BASE + 17.
Definition SOFTBUS_DISCOVER_COAP_CANCEL_CAP_FAIL : Z := SOFTBUS_DISCOVER_ERR_BASE + 18.
Definition SOFTBUS_DISCOVER_COAP_REGISTER_CAP_FAIL : Z := SOFTBUS_DISCOVER_ERR_BASE + 19.
Definition SOFTBUS_DISCOVER_COAP_SET_FILTER_CAP_FAIL : Z := SOFTBUS_DISCOVER_ERR_BASE + 20.
Definition SOFTBUS_DISCOVER_COAP_START_DISCOVER_FAIL : Z := SOFTBUS_DISCOVER_ERR_BASE + 24.
Definition SOFTBUS_DISCOVER_COAP_STOP_DISCOVER_FAIL : Z := SOFTBUS_DISCOVER_ERR_BASE + 25.
Definition SOFTBUS_LOCK_ERR : Z := SOFTBUS_COMMOM_ERR_BASE + 16.

Record PublishOption := mkPublishOption {
  p_freq : Z; p_capabilityBitmap : list Z; p_capabilityData : list byte; p_dataLen : Z }.
Record SubscribeOption := mkSubscribeOption {
  s_freq : Z; isSameAccount : bool; isWakeRemote : bool;
  s_capabilityBitmap : list Z; s_capabilityData : list byte; s_dataLen : Z }.

(** The functions of a medium with state [C]. *)
Record DiscoveryFuncInterface (C : Type) := mkInterface {
  Publish : PublishOption -> SF C Z;
  StartScan : PublishOption -> SF C Z;
  Unpublish : PublishOption -> SF C Z;
  StopScan : PublishOption -> SF C Z;
  StartAdvertise : SubscribeOption -> SF C Z;
  Subscribe : SubscribeOption -> SF C Z;
  Unsubscribe : SubscribeOption -> SF C Z;
  StopAdvertise : SubscribeOption -> SF C Z;
  LinkStatusChanged : Z -> SF C unit }.
#[global] Arguments Publish {C}.
#[global] Arguments StartScan {C}.
#[global] Arguments Unpublish {C}.
#[global] Arguments StopScan {C}.
#[global] Arguments StartAdvertise {C}.
#[global] Arguments Subscribe {C}.
#[global] Arguments Unsubscribe {C}.
#[global] Arguments StopAdvertise {C}.
#[global] Arguments LinkStatusChanged {C}.

(** ** What a medium promises *)

(** A bitmap of one word. *)
Definition bitmap_ok (l : list Z) : Prop := exists b, l = [b] /\ 0 <= b < 2 ^ 32.
Definition has_bit (l : list Z) (p : Z) : Z := Z.b2z (Z.testbit (default 0 (head l)) p).

(** The counts of the capabilities before and after a registration and its end.
    A count does not fall below zero. *)
Definition adds (l : list Z) (f f' : Z -> Z) : Prop := forall p, 0 <= p < 32 -> f' p = f p + has_bit l p.
Definition drops (l : list Z) (f f' : Z -> Z) : Prop := forall p, 0 <= p < 32 -> f' p = Z.max 0 (f p - has_bit l p).
Definition stays (f f' : Z -> Z) : Prop := forall p, 0 <= p < 32 -> f' p = f p.

(** [med_ok] is the invariant of the medium; [pubs] and [subs] are the numbers of
    publications and subscriptions of each capability; [in_sync]: what the medium
    told the outside agrees with them; [room] says that a count does not overflow. *)
Class Medium {C} (I : DiscoveryFuncInterface C) := {
  med_ok : C -> Prop;
  pubs : C -> Z -> Z;
  subs : C -> Z -> Z;
  in_sync : C -> Prop;
  room : (Z -> Z) -> Prop;
  law_publish o c : (let P f := wps (f o) (fun r c' => med_ok c' /\ (r = SOFTBUS_OK ->
      adds (p_capabilityBitmap o) (pubs c) (pubs c') /\ stays (subs c) (subs c') /\ (in_sync c -> in_sync c'))) c in
    med_ok c -> bitmap_ok (p_capabilityBitmap o) -> room (pubs c) -> P (Publish I) /\ P (StartScan I));
  law_unpublish o c : (let P f := wps (f o) (fun r c' => med_ok c' /\ (r = SOFTBUS_OK ->
      drops (p_capabilityBitmap o) (pubs c) (pubs c') /\ stays (subs c) (subs c') /\ (in_sync c -> in_sync c'))) c in
    med_ok c -> bitmap_ok (p_capabilityBitmap o) -> P (Unpublish I) /\ P (StopScan I));
  law_subscribe o c : (let P f := wps (f o) (fun r c' => med_ok c' /\ (r = SOFTBUS_OK ->
      adds (s_capabilityBitmap o) (subs c) (subs c') /\ stays (pubs c) (pubs c') /\ (in_sync c -> in_sync c'))) c in
    med_ok c -> bitmap_ok (s_capabilityBitmap o) -> room (subs c) -> P (StartAdvertise I) /\ P (Subscribe I));
  law_unsubscribe o c : (let P f := wps (f o) (fun r c' => med_ok c' /\ (r = SOFTBUS_OK ->
      drops (s_capabilityBitmap o) (subs c) (subs c') /\ stays (pubs c) (pubs c') /\ (in_sync c -> in_sync c'))) c in
    med_ok c -> bitmap_ok (s_capabilityBitmap o) -> P (StopAdvertise I) /\ P (Unsubscribe I));
  law_link st c : med_ok c -> wps (LinkStatusChanged I st) (fun _ c' => med_ok c' /\
    stays (pubs c) (pubs c') /\ stays (subs c) (subs c') /\ (in_sync c -> in_sync c')) c }.

(** Nothing is registered. *)
Definition idle {C} {I : DiscoveryFuncInterface C} `{!Medium I} (c : C) : Prop :=
  med_ok c /\ in_sync c /\ forall p, 0 <= p < 32 -> pubs c p = 0 /\ subs c p = 0.

(** Start and end of a medium, with what the environment answers as an argument;
    [base] is the state outside. *)
Class MediumLife {C F} (I : DiscoveryFuncInterface C) `{!Medium I} (init : F -> SF C bool) (deinit : SF C unit) := {
  base : C -> Prop;
  law_init f c : base c \/ idle c -> wps (init f) (fun ok c' => if ok then idle c' else base c') c;
  law_deinit c : base c \/ med_ok c -> wps deinit (fun _ c' => base c') c }.
End DiscMedium.
