(* ===== verification/DiscCoap.v ===== *)
(** * Discovery over CoAP (core/discovery/coap/src/disc_coap.c, disc_nstackx_adapter.c)

    The CoAP medium merges the capabilities of all publications and of all
    subscriptions into one bitmap each, with a counter for each bit, and hands the
    bitmaps to the device finder ([NSTACKX_*]), whose answers are the environment.
    The component implements the interface of [DiscMedium]. *)

From S2P Require Import Prelude StateFault DiscMedium.

Module DiscCoap.
Import DiscMedium.
#[local] Open Scope sf_scope.

Definition MAX_CAP_NUM : Z := CAPABILITY_NUM * INT32_MAX_BIT_NUM.

Record DiscCoapInfo := mkCoapInfo {
  allCap : list Z; capCount : list Z; isUpdate : bool; isEmpty : bool }.
#[export] Instance DiscCoapInfo_fields : Fields DiscCoapInfo :=
  {| ctor := mkCoapInfo; projs := (allCap, capCount, isUpdate, isEmpty) |}.

(** The calls of the device finder that succeeded. *)
Inductive NstackxCall :=
  | NSTACKX_RegisterCapability (capabilityBitmap : list Z)
  | NSTACKX_SetFilterCapability (capabilityBitmap : list Z)
  | NSTACKX_RegisterServiceData (authPort : Z)
  | NSTACKX_StartDeviceFindAn
  | NSTACKX_StartDeviceFind
  | NSTACKX_StopDeviceFind
  | NSTACKX_RegisterDevice (status : Z).

(** [localInfo]: the three buffers [InitLocalInfo] allocates together. *)
Record Coap := mkCoap {
  g_publishMgr : option DiscCoapInfo;
  g_subscribeMgr : option DiscCoapInfo;
  localInfo : bool;
  told : list NstackxCall;
  tick : nat }.
#[export] Instance Coap_fields : Fields Coap :=
  {| ctor := mkCoap; projs := (g_publishMgr, g_subscribeMgr, localInfo, told, tick) |}.

(** The answers to the [k]-th question. *)
Record CoapEnv := mkCoapEnv {
  nstackx : nat -> NstackxCall -> Z;
  lock : nat -> bool;
  LnnGetLocalAuthPort : nat -> option Z;
  SetLocalDeviceInfo : nat -> bool }.

(** ** Counting capabilities *)

(** One position of the loops over [pos]; [bm] is [inCapBitmap[i]]. *)
Definition register_pos (i : nat) (bm : Z) (info : DiscCoapInfo) (pos : Z) : option DiscCoapInfo :=
  if Z.land (Z.shiftr bm (pos mod INT32_MAX_BIT_NUM)) 1 =? 0 then Some info
  else
    count ← capCount info !! Z.to_nat pos;
    cap ← allCap info !! i;
    let info := if count =? 0
      then info <| allCap := <[i := Z.lor cap (u32 (Z.shiftl 1 (pos mod INT32_MAX_BIT_NUM)))]> (allCap info) |>
                <| isUpdate := true |>
      else info in
    Some (info <| capCount := <[Z.to_nat pos := i16 (count + 1)]> (capCount info) |>).

Definition unregister_pos (i : nat) (bm : Z) (info : DiscCoapInfo) (pos : Z) : option DiscCoapInfo :=
  if Z.land (Z.shiftr bm (pos mod INT32_MAX_BIT_NUM)) 1 =? 0 then Some info
  else
    count ← capCount info !! Z.to_nat pos;
    cap ← allCap info !! i;
    let count := i16 (count - 1) in
    if count <=? 0 then
      Some (info <| allCap := <[i := Z.land cap (u32 (Z.lnot (u32 (Z.shiftl 1 (pos mod INT32_MAX_BIT_NUM)))))]> (allCap info) |>
                 <| capCount := <[Z.to_nat pos := 0]> (capCount info) |> <| isUpdate := true |>)
    else Some (info <| capCount := <[Z.to_nat pos := count]> (capCount info) |>).

Definition not_empty (info : DiscCoapInfo) : DiscCoapInfo := info <| isEmpty := false |>.

Definition positions (count : Z) : list Z := seqZ 0 count.

(** The loop over the words of the bitmap, from word [i]. *)
Fixpoint register_words (i : nat) (bms : list Z) (count : Z) (info : DiscCoapInfo) : option DiscCoapInfo :=
  match bms with
  | [] => Some info
  | bm :: bms =>
      info ← foldl (fun o pos => info ← o; register_pos i bm info pos) (Some info) (positions count);
      register_words (S i) bms count info
  end.

Fixpoint unregister_words (i : nat) (bms : list Z) (count : Z) (info : DiscCoapInfo) : option DiscCoapInfo :=
  match bms with
  | [] => Some info
  | bm :: bms =>
      info ← foldl (fun o pos => info ← o; unregister_pos i bm info pos) (Some info) (positions count);
      cap ← allCap info !! i;
      unregister_words (S i) bms count (if negb (cap =? 0) then not_empty info else info)
  end.

(** [inCapBitmap] is an array of [CAPABILITY_NUM] words. *)
Definition RegisterAllCapBitmap (capBitmapNum : Z) (inCapBitmap : list Z) (info : option DiscCoapInfo) (count : Z)
    : option (Z * option DiscCoapInfo) :=
  match info with
  | None => Some (SOFTBUS_INVALID_PARAM, None)
  | Some i =>
      if (capBitmapNum =? 0) || (capBitmapNum >? CAPABILITY_NUM) || (count >? MAX_CAP_NUM)
      then Some (SOFTBUS_INVALID_PARAM, info)
      else if Z.of_nat (length inCapBitmap) <? capBitmapNum then None
      else
        let i := i <| isUpdate := false |> in
        r ← register_words 0 (take (Z.to_nat capBitmapNum) inCapBitmap) count i;
        Some (SOFTBUS_OK, Some r)
  end.

Definition UnregisterAllCapBitmap (capBitmapNum : Z) (inCapBitmap : list Z) (info : option DiscCoapInfo) (count : Z)
    : option (Z * option DiscCoapInfo) :=
  match info with
  | None => Some (SOFTBUS_INVALID_PARAM, None)
  | Some i =>
      if (capBitmapNum =? 0) || (capBitmapNum >? CAPABILITY_NUM) || (count >? MAX_CAP_NUM)
      then Some (SOFTBUS_INVALID_PARAM, info)
      else if Z.of_nat (length inCapBitmap) <? capBitmapNum then None
      else
        let i := i <| isEmpty := true |> <| isUpdate := false |> in
        r ← unregister_words 0 (take (Z.to_nat capBitmapNum) inCapBitmap) count i;
        Some (SOFTBUS_OK, Some r)
  end.

Section medium.
Context (ev : CoapEnv).

Definition ask {A} (f : nat -> A) : SF Coap A :=
  let* k := sgets tick in smodify (fun c : Coap => c <| tick := S (tick c) |>) ;; sret (f k).

(** A call of the device finder; what it was told is recorded when it succeeds. *)
Definition call (n : NstackxCall) : SF Coap Z :=
  let* r := ask (fun k => nstackx ev k n) in
  (if r =? SOFTBUS_OK then smodify (fun c : Coap => c <| told := told c ++ [n] |>) else sret tt) ;; sret r.

(** ** disc_nstackx_adapter.c *)

Definition DiscCoapRegisterCapability (num : Z) (bitmap : list Z) : SF Coap Z :=
  if num =? 0 then sret SOFTBUS_INVALID_PARAM
  else
    let* r := call (NSTACKX_RegisterCapability bitmap) in
    sret (if negb (r =? 0) then SOFTBUS_DISCOVER_COAP_REGISTER_CAP_FAIL else SOFTBUS_OK).

Definition DiscCoapSetFilterCapability (num : Z) (bitmap : list Z) : SF Coap Z :=
  if num =? 0 then sret SOFTBUS_INVALID_PARAM
  else
    let* r := call (NSTACKX_SetFilterCapability bitmap) in
    sret (if negb (r =? SOFTBUS_OK) then SOFTBUS_DISCOVER_COAP_SET_FILTER_CAP_FAIL else SOFTBUS_OK).

Definition DiscCoapRegisterServiceData (serviceData : list byte) (dataLen : Z) : SF Coap Z :=
  let* l := sgets localInfo in
  if negb l then sret SOFTBUS_DISCOVER_COAP_INIT_FAIL
  else
    let* port := ask (LnnGetLocalAuthPort ev) in
    match port with
    | None => sret SOFTBUS_ERR
    | Some authPort =>
        let* r := call (NSTACKX_RegisterServiceData authPort) in
        sret (if negb (r =? SOFTBUS_OK) then SOFTBUS_ERR else SOFTBUS_OK)
    end.

Inductive DiscCoapMode := ACTIVE_PUBLISH | ACTIVE_DISCOVERY.
Definition SOFTBUS_DISCOVER_COAP_START_PUBLISH_FAIL : Z := SOFTBUS_DISCOVER_ERR_BASE + 22.

Definition DiscCoapStartDiscovery (mode : DiscCoapMode) : SF Coap Z :=
  match mode with
  | ACTIVE_PUBLISH =>
      let* r := call NSTACKX_StartDeviceFindAn in
      sret (if negb (r =? SOFTBUS_OK) then SOFTBUS_DISCOVER_COAP_START_PUBLISH_FAIL else SOFTBUS_OK)
  | ACTIVE_DISCOVERY =>
      let* r := call NSTACKX_StartDeviceFind in
      sret (if negb (r =? SOFTBUS_OK) then SOFTBUS_DISCOVER_COAP_START_DISCOVER_FAIL else SOFTBUS_OK)
  end.

Definition DiscCoapStopDiscovery : SF Coap Z :=
  let* r := call NSTACKX_StopDeviceFind in
  sret (if negb (r =? SOFTBUS_OK) then SOFTBUS_DISCOVER_COAP_STOP_DISCOVER_FAIL else SOFTBUS_OK).

Definition LINK_STATUS_UP : Z := 0.
Definition LINK_STATUS_DOWN : Z := 1.

Definition DiscCoapUpdateLocalIp (status : Z) : SF Coap unit :=
  let* l := sgets localInfo in
  if status =? LINK_STATUS_UP then
    let* ok := ask (SetLocalDeviceInfo ev) in
    if negb (l && ok) then sret tt else let* _ := call (NSTACKX_RegisterDevice status) in sret tt
  else if status =? LINK_STATUS_DOWN then
    if negb l then fault else let* _ := call (NSTACKX_RegisterDevice status) in sret tt
  else sret tt.

(** ** disc_coap.c *)

(** The two managers. *)
Inductive side := Pub | Sub.
#[export] Instance side_eq_dec : EqDecision side.
Proof. solve_decision. Defined.
Definition mgr (d : side) (c : Coap) : option DiscCoapInfo :=
  match d with Pub => g_publishMgr c | Sub => g_subscribeMgr c end.
Definition set_mgr (d : side) (o : option DiscCoapInfo) (c : Coap) : Coap :=
  match d with Pub => c <| g_publishMgr := o |> | Sub => c <| g_subscribeMgr := o |> end.

Definition merge (d : side) (f : Z -> list Z -> option DiscCoapInfo -> Z -> option (Z * option DiscCoapInfo)) (bm : list Z) : SF Coap Z :=
  let* m := sgets (mgr d) in
  let! (r, m) := slift (f CAPABILITY_NUM bm m MAX_CAP_NUM) in
  smodify (set_mgr d m) ;; sret r.

(** [if (g_publishMgr->isUpdate)] with the call it guards, and its counterpart. *)
Definition update (d : side) : SF Coap Z :=
  let* m := sgets (mgr d) in
  let* i := slift m in
  if isUpdate i then
    match d with
    | Pub => DiscCoapRegisterCapability CAPABILITY_NUM (allCap i)
    | Sub => DiscCoapSetFilterCapability CAPABILITY_NUM (allCap i)
    end
  else sret SOFTBUS_OK.

(** The start of every function: the manager exists and its lock is taken. *)
Definition guard (d : side) (k : SF Coap Z) : SF Coap Z :=
  let* m := sgets (mgr d) in
  match m with
  | None => sret SOFTBUS_INVALID_PARAM
  | Some _ => let* ok := ask (lock ev) in if negb ok then sret SOFTBUS_LOCK_ERR else k
  end.

Definition CoapPublish (o : PublishOption) : SF Coap Z :=
  guard Pub (
    let* r := merge Pub RegisterAllCapBitmap (p_capabilityBitmap o) in
    if negb (r =? SOFTBUS_OK) then sret SOFTBUS_DISCOVER_COAP_MERGE_CAP_FAIL else
    let* r := update Pub in
    if negb (r =? SOFTBUS_OK) then sret SOFTBUS_DISCOVER_COAP_REGISTER_CAP_FAIL else
    let* r := DiscCoapRegisterServiceData (p_capabilityData o) (p_dataLen o) in
    if negb (r =? SOFTBUS_OK) then sret SOFTBUS_ERR else
    let* r := DiscCoapStartDiscovery ACTIVE_PUBLISH in
    if negb (r =? SOFTBUS_OK) then sret SOFTBUS_DISCOVER_COAP_START_DISCOVER_FAIL else sret SOFTBUS_OK).

Definition CoapUnPublish (o : PublishOption) : SF Coap Z :=
  guard Pub (
    let* r := merge Pub UnregisterAllCapBitmap (p_capabilityBitmap o) in
    if negb (r =? SOFTBUS_OK) then sret SOFTBUS_DISCOVER_COAP_CANCEL_CAP_FAIL else
    let* r := update Pub in
    if negb (r =? SOFTBUS_OK) then sret SOFTBUS_DISCOVER_COAP_REGISTER_CAP_FAIL else
    let* r := DiscCoapRegisterServiceData (p_capabilityData o) (p_dataLen o) in
    if negb (r =? SOFTBUS_OK) then sret SOFTBUS_ERR else
    let* m := sgets g_publishMgr in
    let* i := slift m in
    if isEmpty i then
      let* r := DiscCoapStopDiscovery in
      if negb (r =? SOFTBUS_OK) then sret SOFTBUS_DISCOVER_COAP_STOP_DISCOVER_FAIL else sret SOFTBUS_OK
    else sret SOFTBUS_OK).

Definition CoapStartScan (o : PublishOption) : SF Coap Z :=
  guard Pub (
    let* r := merge Pub RegisterAllCapBitmap (p_capabilityBitmap o) in
    if negb (r =? SOFTBUS_OK) then sret SOFTBUS_DISCOVER_COAP_MERGE_CAP_FAIL else
    let* r := update Pub in
    if negb (r =? SOFTBUS_OK) then sret SOFTBUS_DISCOVER_COAP_REGISTER_CAP_FAIL else
    let* r := DiscCoapRegisterServiceData (p_capabilityData o) (p_dataLen o) in
    if negb (r =? SOFTBUS_OK) then sret SOFTBUS_ERR else sret SOFTBUS_OK).

Definition CoapStoptScan (o : PublishOption) : SF Coap Z :=
  guard Pub (
    let* r := merge Pub UnregisterAllCapBitmap (p_capabilityBitmap o) in
    if negb (r =? SOFTBUS_OK) then sret SOFTBUS_DISCOVER_COAP_CANCEL_CAP_FAIL else
    let* r := update Pub in
    if negb (r =? SOFTBUS_OK) then sret SOFTBUS_DISCOVER_COAP_REGISTER_CAP_FAIL else
    let* r := DiscCoapRegisterServiceData (p_capabilityData o) (p_dataLen o) in
    if negb (r =? SOFTBUS_OK) then sret SOFTBUS_ERR else sret SOFTBUS_OK).

Definition CoapSubscribe (o : SubscribeOption) : SF Coap Z :=
  guard Sub (
    let* r := merge Sub RegisterAllCapBitmap (s_capabilityBitmap o) in
    if negb (r =? SOFTBUS_OK) then sret SOFTBUS_DISCOVER_COAP_MERGE_CAP_FAIL else
    let* r := update Sub in
    if negb (r =? SOFTBUS_OK) then sret SOFTBUS_DISCOVER_COAP_SET_FILTER_CAP_FAIL else sret SOFTBUS_OK).

Definition CoapUnsubscribe (o : SubscribeOption) : SF Coap Z :=
  guard Sub (
    let* r := merge Sub UnregisterAllCapBitmap (s_capabilityBitmap o) in
    if negb (r =? SOFTBUS_OK) then sret SOFTBUS_DISCOVER_COAP_CANCEL_CAP_FAIL else
    let* r := update Sub in
    if negb (r =? SOFTBUS_OK) then sret SOFTBUS_DISCOVER_COAP_SET_FILTER_CAP_FAIL else sret SOFTBUS_OK).

Definition CoapStartAdvertise (o : SubscribeOption) : SF Coap Z :=
  guard Sub (
    let* r := merge Sub RegisterAllCapBitmap (s_capabilityBitmap o) in
    if negb (r =? SOFTBUS_OK) then sret SOFTBUS_DISCOVER_COAP_MERGE_CAP_FAIL else
    let* r := update Sub in
    if negb (r =? SOFTBUS_OK) then sret SOFTBUS_DISCOVER_COAP_SET_FILTER_CAP_FAIL else
    let* r := DiscCoapStopDiscovery in
    if negb (r =? SOFTBUS_OK) then sret SOFTBUS_DISCOVER_COAP_STOP_DISCOVER_FAIL else
    let* r := DiscCoapStartDiscovery ACTIVE_DISCOVERY in
    if negb (r =? SOFTBUS_OK) then sret SOFTBUS_DISCOVER_COAP_START_DISCOVER_FAIL else sret SOFTBUS_OK).

Definition CoapStopAdvertise (o : SubscribeOption) : SF Coap Z :=
  guard Sub (
    let* r := merge Sub UnregisterAllCapBitmap (s_capabilityBitmap o) in
    if negb (r =? SOFTBUS_OK) then sret SOFTBUS_DISCOVER_COAP_CANCEL_CAP_FAIL else
    let* r := update Sub in
    if negb (r =? SOFTBUS_OK) then sret SOFTBUS_DISCOVER_COAP_SET_FILTER_CAP_FAIL else
    let* m := sgets g_subscribeMgr in
    let* i := slift m in
    if isEmpty i then
      let* r := DiscCoapStopDiscovery in
      if negb (r =? SOFTBUS_OK) then sret SOFTBUS_DISCOVER_COAP_STOP_DISCOVER_FAIL else sret SOFTBUS_OK
    else sret SOFTBUS_OK).

Definition CoapUpdateLocalIp (status : Z) : SF Coap unit := DiscCoapUpdateLocalIp status.

Definition g_discCoapFuncInterface : DiscoveryFuncInterface Coap :=
  mkInterface Coap CoapPublish CoapStartScan CoapUnPublish CoapStoptScan CoapStartAdvertise CoapSubscribe
    CoapUnsubscribe CoapStopAdvertise CoapUpdateLocalIp.
End medium.

(** ** Initialisation *)

Definition NewDiscCoapInfo (mem mutex : bool) : option DiscCoapInfo :=
  if negb mem then None
  else if negb mutex then None
  else Some (mkCoapInfo (replicate (Z.to_nat CAPABILITY_NUM) 0) (replicate (Z.to_nat MAX_CAP_NUM) 0) false false).

Definition DeinitCoapManager : SF Coap unit :=
  smodify (fun c : Coap => c <| g_publishMgr := @None DiscCoapInfo |> <| g_subscribeMgr := @None DiscCoapInfo |>).

Definition InitCoapManager (mem1 mem2 mutex1 mutex2 : bool) : SF Coap Z :=
  let* p := sgets g_publishMgr in
  (match p with None => smodify (set_mgr Pub (NewDiscCoapInfo mem1 mutex1)) | Some _ => sret tt end) ;;
  let* s := sgets g_subscribeMgr in
  (match s with None => smodify (set_mgr Sub (NewDiscCoapInfo mem2 mutex2)) | Some _ => sret tt end) ;;
  let* p := sgets g_publishMgr in
  let* s := sgets g_subscribeMgr in
  match p, s with
  | Some _, Some _ => sret SOFTBUS_OK
  | _, _ => DeinitCoapManager ;; sret SOFTBUS_DISCOVER_COAP_INIT_FAIL
  end.

Definition DeinitLocalInfo : SF Coap unit := smodify (fun c : Coap => c <| localInfo := false |>).
(** [mem]: all of the buffers that are missing can be allocated. *)
Definition InitLocalInfo (mem : bool) : SF Coap Z :=
  let* l := sgets localInfo in
  if l then sret SOFTBUS_OK
  else if mem then smodify (fun c : Coap => c <| localInfo := true |>) ;; sret SOFTBUS_OK
  else DeinitLocalInfo ;; sret SOFTBUS_MEM_ERR.

Definition DiscNstackxInit (mem nstackx_ok : bool) : SF Coap Z :=
  let* r := InitLocalInfo mem in
  if negb (r =? SOFTBUS_OK) then sret SOFTBUS_DISCOVER_COAP_INIT_FAIL
  else if negb nstackx_ok then DeinitLocalInfo ;; sret SOFTBUS_DISCOVER_COAP_INIT_FAIL
  else sret SOFTBUS_OK.

(** The device finder forgets what it was told. *)
Definition DiscNstackxDeinit : SF Coap unit := smodify (fun c : Coap => c <| told := @nil NstackxCall |>) ;; DeinitLocalInfo.

Definition DiscCoapDeinit : SF Coap unit := DeinitCoapManager ;; DiscNstackxDeinit.

(** Whether the interface is returned. *)
Definition DiscCoapRegisterCb (cb : option Z) : SF Coap Z :=
  let* l := sgets localInfo in
  match cb with
  | None => sret SOFTBUS_INVALID_PARAM
  | Some _ => sret (if negb l then SOFTBUS_INVALID_PARAM else SOFTBUS_OK)
  end.

(** What the environment answers during the initialisation. *)
Record InitEnv := mkInitEnv {
  mem_publish : bool; mem_subscribe : bool; mutex_publish : bool; mutex_subscribe : bool;
  mem_local : bool; nstackx_ok : bool; discInnerCb : option Z }.

Definition DiscCoapInit (e : InitEnv) : SF Coap bool :=
  let* r := InitCoapManager (mem_publish e) (mem_subscribe e) (mutex_publish e) (mutex_subscribe e) in
  if negb (r =? SOFTBUS_OK) then sret false else
  let* r := DiscNstackxInit (mem_local e) (nstackx_ok e) in
  if negb (r =? SOFTBUS_OK) then DeinitCoapManager ;; sret false else
  let* r := DiscCoapRegisterCb (discInnerCb e) in
  if negb (r =? SOFTBUS_OK) then DiscCoapDeinit ;; sret false else sret true.

(** ** The counters *)

(** The publications or subscriptions of capability [p]. *)
Definition cnt (i : DiscCoapInfo) (p : Z) : Z := default 0 (capCount i !! Z.to_nat p).

(** One word of capabilities: a bit is set exactly while its counter is positive. *)
Record wf_info (i : DiscCoapInfo) : Prop := {
  wi_cap : exists cap, allCap i = [cap] /\ 0 <= cap < 2 ^ 32 /\ forall p, 0 <= p < 32 -> Z.testbit cap p = (0 <? cnt i p);
  wi_len : length (capCount i) = 32%nat;
  wi_cnt : forall p, 0 <= p < 32 -> 0 <= cnt i p < 2 ^ 15 }.

Lemma cnt_lookup i p : wf_info i -> 0 <= p < 32 -> capCount i !! Z.to_nat p = Some (cnt i p).
Proof.
  intros Hw Hp. unfold cnt. destruct (capCount i !! Z.to_nat p) eqn:E; [done|].
  apply lookup_ge_None in E. rewrite (wi_len _ Hw) in E. lia.
Qed.

Lemma cnt_insert i p q v l : length (capCount i) = 32%nat -> 0 <= p < 32 -> 0 <= q < 32 -> l = <[Z.to_nat p := v]> (capCount i) ->
  default 0 (l !! Z.to_nat q) = if q =? p then v else cnt i q.
Proof.
  intros Hl Hp Hq ->. destruct (q =? p) eqn:E.
  - assert (q = p) as -> by lia. by rewrite list_lookup_insert_eq by lia.
  - unfold cnt. by rewrite list_lookup_insert_ne by lia.
Qed.

Lemma low_bit bm p : 0 <= p < 32 -> (Z.land (Z.shiftr bm (p mod INT32_MAX_BIT_NUM)) 1 =? 0) = negb (Z.testbit bm p).
Proof.
  intros Hp. unfold INT32_MAX_BIT_NUM. rewrite Z.mod_small by lia. change 1 with (Z.ones 1). rewrite Z.land_ones by lia.
  change (2 ^ 1) with 2. rewrite Zmod_odd, <- Z.bit0_odd, Z.shiftr_spec by lia. rewrite Z.add_0_l. by destruct (Z.testbit bm p).
Qed.

Lemma u32_bits z q : 0 <= q < 32 -> Z.testbit (u32 z) q = Z.testbit z q.
Proof. intros Hq. apply Z.mod_pow2_bits_low. lia. Qed.

(** The mask of a position. *)
Lemma mask_bits p q : 0 <= p < 32 -> 0 <= q < 32 -> Z.testbit (u32 (Z.shiftl 1 (p mod INT32_MAX_BIT_NUM))) q = (q =? p).
Proof.
  intros Hp Hq. unfold INT32_MAX_BIT_NUM. rewrite (Z.mod_small p), u32_bits by lia.
  rewrite Z.shiftl_1_l, Z.pow2_bits_eqb by lia. apply Z.eqb_sym.
Qed.

Lemma set_range cap m : 0 <= cap < 2 ^ 32 -> 0 <= Z.lor cap (u32 m) < 2 ^ 32.
Proof.
  intros Hc. pose proof (u32_range m) as Hm. split; [apply Z.lor_nonneg; lia|].
  destruct (decide (Z.lor cap (u32 m) = 0)) as [->|Hz]; [lia|].
  apply Z.log2_lt_pow2; [assert (0 <= Z.lor cap (u32 m)) by (apply Z.lor_nonneg; lia); lia|].
  rewrite Z.log2_lor by lia. destruct (decide (cap = 0)) as [->|], (decide (u32 m = 0)) as [->|]; simpl; try lia;
    repeat apply Z.max_lub_lt; try (apply Z.log2_lt_pow2; lia); simpl; lia.
Qed.

Lemma clear_range cap m : 0 <= cap < 2 ^ 32 -> 0 <= Z.land cap m < 2 ^ 32.
Proof.
  intros Hc. assert (0 <= Z.land cap m) as H by (apply Z.land_nonneg; lia). split; [done|].
  assert (Z.land cap m = Z.land (Z.land cap m) (Z.ones 32)) as ->.
  { rewrite <- Z.land_assoc, (Z.land_comm m), Z.land_assoc, Z.land_ones, (Z.mod_small cap) by lia. done. }
  rewrite Z.land_ones by lia. apply Z.mod_pos_bound. lia.
Qed.

(** What one position does: [v] is its new counter. *)
Definition moves (i : DiscCoapInfo) (p : Z) (v : Z) (i' : DiscCoapInfo) : Prop :=
  wf_info i' /\ (forall q, 0 <= q < 32 -> cnt i' q = if q =? p then v else cnt i q) /\
  isEmpty i' = isEmpty i /\ (isUpdate i' = true \/ isUpdate i' = isUpdate i /\ allCap i' = allCap i).

Lemma put_count i p v i' : wf_info i -> 0 <= p < 32 -> 0 <= v < 2 ^ 15 -> capCount i' = <[Z.to_nat p := v]> (capCount i) ->
  (forall q, 0 <= q < 32 -> cnt i' q = if q =? p then v else cnt i q) /\ length (capCount i') = 32%nat /\
  (forall q, 0 <= q < 32 -> 0 <= cnt i' q < 2 ^ 15).
Proof.
  intros Hw Hp Hv Hi'. pose proof (wi_len _ Hw) as Hlen.
  assert (forall q, 0 <= q < 32 -> cnt i' q = if q =? p then v else cnt i q) as Hq by (intros q Hq; by apply cnt_insert).
  split; [done|]. split; [by rewrite Hi', length_insert|]. intros q Hq'. rewrite Hq by done.
  pose proof (wi_cnt _ Hw q Hq'). case_if; lia.
Qed.

Lemma register_pos_spec i bm p : wf_info i -> 0 <= p < 32 -> cnt i p + 1 < 2 ^ 15 ->
  exists i', register_pos 0 bm i p = Some i' /\ moves i p (cnt i p + Z.b2z (Z.testbit bm p)) i'.
Proof.
  intros Hw Hp Hroom. pose proof (wi_cnt _ Hw p Hp) as Hc. pose proof (wi_len _ Hw) as Hlen.
  destruct (wi_cap _ Hw) as (cap & Hcap & Hr & Hb). unfold register_pos. rewrite low_bit by done.
  destruct (Z.testbit bm p) eqn:E; cbn [negb Z.b2z].
  2:{ exists i. split; [done|]. split_and!; try done; [|by right]. intros q Hq. case_if; [|done]. assert (q = p) as -> by lia. lia. }
  rewrite (cnt_lookup i p Hw Hp), Hcap. cbn [mbind option_bind lookup list_lookup]. eexists. split; [reflexivity|].
  assert (i16 (cnt i p + 1) = cnt i p + 1) as Hi by (apply swrap_small; lia). rewrite Hi.
  destruct (cnt i p =? 0) eqn:Ez.
  - match goal with |- moves _ _ _ ?x => destruct (put_count i p (cnt i p + 1) x) as (H1 & H2 & H3); [done|done|lia|done|] end.
    split_and!; [|done|done|by left]. constructor; [|done..]. eexists. split; [reflexivity|]. split; [by apply set_range|].
    intros q Hq. rewrite Z.lor_spec, mask_bits, Hb, H1 by done. destruct (q =? p) eqn:Eq; [rewrite orb_true_r; symmetry; lia|].
    by rewrite orb_false_r.
  - match goal with |- moves _ _ _ ?x => destruct (put_count i p (cnt i p + 1) x) as (H1 & H2 & H3); [done|done|lia|done|] end.
    split_and!; [|done|done|by right]. constructor; [|done..]. exists cap. split; [done|]. split; [done|].
    intros q Hq. rewrite Hb, H1 by done. case_if; [|done]. assert (q = p) as -> by lia. lia.
Qed.

Lemma unregister_pos_spec i bm p : wf_info i -> 0 <= p < 32 ->
  exists i', unregister_pos 0 bm i p = Some i' /\ moves i p (Z.max 0 (cnt i p - Z.b2z (Z.testbit bm p))) i'.
Proof.
  intros Hw Hp. pose proof (wi_cnt _ Hw p Hp) as Hc. pose proof (wi_len _ Hw) as Hlen.
  destruct (wi_cap _ Hw) as (cap & Hcap & Hr & Hb). unfold unregister_pos. rewrite low_bit by done.
  destruct (Z.testbit bm p) eqn:E; cbn [negb Z.b2z].
  2:{ exists i. split; [done|]. split_and!; try done; [|by right]. intros q Hq. case_if; [|done]. assert (q = p) as -> by lia. lia. }
  rewrite (cnt_lookup i p Hw Hp), Hcap. cbn [mbind option_bind lookup list_lookup].
  assert (i16 (cnt i p - 1) = cnt i p - 1) as -> by (apply swrap_small; lia).
  destruct (cnt i p - 1 <=? 0) eqn:Ez; (eexists; split; [reflexivity|]).
  - replace (Z.max 0 (cnt i p - 1)) with 0 by lia.
    match goal with |- moves _ _ _ ?x => destruct (put_count i p 0 x) as (H1 & H2 & H3); [done|done|lia|done|] end.
    split_and!; [|done|done|by left]. constructor; [|done..]. eexists. split; [reflexivity|]. split; [by apply clear_range|].
    intros q Hq. rewrite Z.land_spec, u32_bits, Z.lnot_spec, mask_bits, Hb, H1 by lia.
    destruct (q =? p); [by rewrite andb_false_r|by rewrite andb_true_r].
  - replace (Z.max 0 (cnt i p - 1)) with (cnt i p - 1) by lia.
    match goal with |- moves _ _ _ ?x => destruct (put_count i p (cnt i p - 1) x) as (H1 & H2 & H3); [done|done|lia|done|] end.
    split_and!; [|done|done|by right]. constructor; [|done..]. exists cap. split; [done|]. split; [done|].
    intros q Hq. rewrite Hb, H1 by done. case_if; [|done]. assert (q = p) as -> by lia. lia.
Qed.

(** The loop over the positions, for a step that moves each counter to [v]. *)
Lemma positions_spec (f : DiscCoapInfo -> Z -> option DiscCoapInfo) (v : Z -> Z -> Z) i n : 0 <= n <= 32 -> wf_info i ->
  (forall j p, wf_info j -> 0 <= p < n -> cnt j p = cnt i p -> exists j', f j p = Some j' /\ moves j p (v p (cnt j p)) j') ->
  exists i', foldl (fun o p => j ← o; f j p) (Some i) (seqZ 0 n) = Some i' /\ wf_info i' /\
    (forall p, 0 <= p < 32 -> cnt i' p = if p <? n then v p (cnt i p) else cnt i p) /\
    isEmpty i' = isEmpty i /\ (isUpdate i' = true \/ isUpdate i' = isUpdate i /\ allCap i' = allCap i).
Proof.
  intros Hn Hw Hf. assert (forall k, (k <= Z.to_nat n)%nat ->
    exists i', foldl (fun o p => j ← o; f j p) (Some i) (seqZ 0 (Z.of_nat k)) = Some i' /\ wf_info i' /\
      (forall p, 0 <= p < 32 -> cnt i' p = if p <? Z.of_nat k then v p (cnt i p) else cnt i p) /\
      isEmpty i' = isEmpty i /\ (isUpdate i' = true \/ isUpdate i' = isUpdate i /\ allCap i' = allCap i)) as H.
  { induction k as [|k IH]; intros Hk.
    - exists i. split_and!; try done; [|by right]. intros p Hp. by replace (p <? Z.of_nat 0) with false by bool_lia.
    - destruct IH as (j & Ej & Hwj & Hcj & Hej & Huj); [lia|].
      destruct (Hf j (Z.of_nat k)) as (j' & Ej' & Hw' & Hc' & He' & Hu'); [done|lia| |].
      { rewrite Hcj by lia. by replace (Z.of_nat k <? Z.of_nat k) with false by bool_lia. }
      exists j'. rewrite seqZ_S, Nat2Z.inj_succ, foldl_app, Ej. cbn [foldl mbind option_bind]. rewrite Z.add_0_l.
      split; [done|]. split; [done|]. split; [|split; [congruence|]].
      + intros p Hp. rewrite Hc', !Hcj by lia. destruct (p =? Z.of_nat k) eqn:E1.
        * assert (p = Z.of_nat k) as -> by lia. replace (Z.of_nat k <? Z.of_nat k) with false by bool_lia.
          by replace (Z.of_nat k <? Z.succ (Z.of_nat k)) with true by bool_lia.
        * assert ((p <? Z.succ (Z.of_nat k)) = (p <? Z.of_nat k)) as -> by (destruct (p <? Z.of_nat k) eqn:E2; bool_lia). done.
      + destruct Hu' as [Hu'|[Hu' Ha']]; [by left|]. rewrite Hu', Ha'. destruct Huj as [?|[? ?]]; auto. }
  destruct (H (Z.to_nat n)) as (i' & E & H'); [lia|]. rewrite Z2Nat.id in E, H' by lia. eauto.
Qed.

(** Register and unregister as a whole. *)
Definition merged (i i' : DiscCoapInfo) : Prop := wf_info i' /\ (isUpdate i' = false -> allCap i' = allCap i).

Lemma register_spec i b : wf_info i -> 0 <= b < 2 ^ 32 -> (forall p, 0 <= p < 32 -> cnt i p + 1 < 2 ^ 15) ->
  exists i', RegisterAllCapBitmap CAPABILITY_NUM [b] (Some i) MAX_CAP_NUM = Some (SOFTBUS_OK, Some i') /\ merged i i' /\
    adds [b] (cnt i) (cnt i').
Proof.
  intros Hw Hb Hroom. set (i0 := i <| isUpdate := false |>).
  assert (wf_info i0) as Hw0 by (destruct Hw; by constructor).
  destruct (positions_spec (register_pos 0 b) (fun p c => c + Z.b2z (Z.testbit b p)) i0 32) as (i' & E & Hw' & Hc & _ & Hu); [lia|done| |].
  { intros j p Hj Hp Hcj. apply register_pos_spec; [done|lia|]. rewrite Hcj. by apply Hroom. }
  exists i'. split; [|split; [split; [done|]|]].
  - cbn [RegisterAllCapBitmap register_words take CAPABILITY_NUM length]. change (positions MAX_CAP_NUM) with (seqZ 0 32). fold i0.
    change (Z.to_nat CAPABILITY_NUM) with 1%nat. simpl orb. cbn [take register_words]. change (positions MAX_CAP_NUM) with (seqZ 0 32).
    by rewrite E.
  - intros Hf. destruct Hu as [Hu|[_ Hu]]; [congruence|]. by rewrite Hu.
  - intros p Hp. rewrite Hc by done. by replace (p <? 32) with true by bool_lia.
Qed.

Lemma unregister_spec i b : wf_info i -> 0 <= b < 2 ^ 32 ->
  exists i', UnregisterAllCapBitmap CAPABILITY_NUM [b] (Some i) MAX_CAP_NUM = Some (SOFTBUS_OK, Some i') /\ merged i i' /\
    drops [b] (cnt i) (cnt i') /\ (isEmpty i' = true <-> allCap i' = [0]).
Proof.
  intros Hw Hb. set (i0 := (i <| isEmpty := true |>) <| isUpdate := false |>).
  assert (wf_info i0) as Hw0 by (destruct Hw; by constructor).
  destruct (positions_spec (unregister_pos 0 b) (fun p c => Z.max 0 (c - Z.b2z (Z.testbit b p))) i0 32) as (i' & E & Hw' & Hc & He & Hu); [lia|done| |].
  { intros j p Hj Hp Hcj. apply unregister_pos_spec; [done|lia]. }
  destruct (wi_cap _ Hw') as (cap & Hcap & _). set (i2 := if negb (cap =? 0) then not_empty i' else i').
  assert (allCap i2 = allCap i' /\ capCount i2 = capCount i' /\ isUpdate i2 = isUpdate i') as (Ha2 & Hc2 & Hu2) by (unfold i2; by case_if).
  exists i2. split; [|split; [split|split]].
  - unfold UnregisterAllCapBitmap. change (Z.to_nat CAPABILITY_NUM) with 1%nat. simpl orb. cbn [take unregister_words length].
    change (positions MAX_CAP_NUM) with (seqZ 0 32). fold i0. simpl (Z.of_nat 1 <? CAPABILITY_NUM). cbv iota. rewrite E.
    cbn [mbind option_bind]. by rewrite Hcap.
  - destruct Hw' as [W1 W2 W3]. unfold cnt in *. constructor; unfold cnt; by rewrite ?Ha2, ?Hc2.
  - rewrite Hu2, Ha2. intros Hf. destruct Hu as [Hu|[_ Hu]]; [congruence|]. by rewrite Hu.
  - intros p Hp. unfold cnt at 1. rewrite Hc2. fold (cnt i' p). rewrite Hc by done. by replace (p <? 32) with true by bool_lia.
  - rewrite Ha2, Hcap. unfold i2. destruct (cap =? 0) eqn:Ez; cbn [negb].
    + assert (cap = 0) as -> by lia. by rewrite He.
    + split; [done|]. intros [= ->]. done.
Qed.

(** ** The medium *)

(** The bitmaps the device finder was told last. *)
Definition caps_told (l : list NstackxCall) : list (list Z) :=
  omap (fun n => match n with NSTACKX_RegisterCapability b => Some b | _ => None end) l.
Definition filters_told (l : list NstackxCall) : list (list Z) :=
  omap (fun n => match n with NSTACKX_SetFilterCapability b => Some b | _ => None end) l.
Definition announced (c : Coap) : list Z := default [0] (last (caps_told (told c))).
Definition filtered (c : Coap) : list Z := default [0] (last (filters_told (told c))).

Definition other (d : side) : side := match d with Pub => Sub | Sub => Pub end.
(** The bitmap told for a side, and its counts. *)
Definition told_for (d : side) (c : Coap) : list Z := match d with Pub => announced c | Sub => filtered c end.
Definition count_of (d : side) (c : Coap) (p : Z) : Z := from_option (fun i => cnt i p) 0 (mgr d c).

Definition synced (c : Coap) : Prop := forall d, told_for d c = from_option allCap [0] (mgr d c).
Definition coap_ok (c : Coap) : Prop := (forall d i, mgr d c = Some i -> wf_info i) /\ localInfo c = true.
Definition coap_room (f : Z -> Z) : Prop := forall p, 0 <= p < 32 -> f p + 1 < 2 ^ 15.

(** Neither the managers nor the bitmaps of the device finder change. *)
Definition kept (c c' : Coap) : Prop :=
  (forall d, mgr d c' = mgr d c /\ told_for d c' = told_for d c) /\ localInfo c' = localInfo c.

Lemma kept_refl c : kept c c.
Proof. by split. Qed.
Lemma kept_trans a b c : kept a b -> kept b c -> kept a c.
Proof.
  intros [A1 A2] [B1 B2]. split; [|congruence]. intros d. destruct (A1 d), (B1 d). split; congruence.
Qed.
#[local] Hint Resolve kept_refl : core.

Section laws.
Context (ev : CoapEnv).

Lemma ask_kept {A} (f : nat -> A) c : wps (ask f) (fun _ c' => kept c c') c.
Proof. unfold ask. wps_steps. split; [|done]. by intros []. Qed.

(** A call records what it told; only two of the calls tell a bitmap. *)
Definition tells (d : side) (n : NstackxCall) : option (list Z) :=
  match d, n with
  | Pub, NSTACKX_RegisterCapability b => Some b
  | Sub, NSTACKX_SetFilterCapability b => Some b
  | _, _ => None
  end.

Lemma call_spec n c : wps (call ev n) (fun r c' => localInfo c' = localInfo c /\
  forall d, mgr d c' = mgr d c /\ told_for d c' = if r =? 0 then default (told_for d c) (tells d n) else told_for d c) c.
Proof.
  unfold call, ask. unfold SOFTBUS_OK. wps_steps; rewrite ?E; (split; [done|]); intros d; (split; [by destruct d|]); [|by destruct d].
  destruct d; unfold told_for, announced, filtered, caps_told, filters_told; cbn [told]; rewrite omap_app; destruct n;
    cbn [omap list_omap]; by rewrite ?app_nil_r, ?last_snoc.
Qed.

Lemma quiet_kept n (k : Z -> Z) c : (forall d, tells d n = None) ->
  wps (let* r := call ev n in sret (k r)) (fun _ c' => kept c c') c.
Proof.
  intros H1. wps_step. eapply wps_mono; [apply call_spec|]. intros r c' [A1 A2]. wps_step.
  split; [|done]. intros d. destruct (A2 d) as [B1 B2]. rewrite H1 in B2. split; [done|]. rewrite B2. by case_if.
Qed.

Lemma service_data_kept d l c : wps (DiscCoapRegisterServiceData ev d l) (fun _ c' => kept c c') c.
Proof.
  unfold DiscCoapRegisterServiceData. wps_step. wps_step. wps_step; [by wps_step|]. wps_step. eapply wps_mono; [apply ask_kept|].
  intros o c1 H1. destruct o; [|by wps_step]. eapply wps_mono; [apply quiet_kept; by intros []|]. intros ? c2 H2. exact (kept_trans _ _ _ H1 H2).
Qed.

Lemma start_kept m c : wps (DiscCoapStartDiscovery ev m) (fun _ c' => kept c c') c.
Proof. destruct m; apply quiet_kept; by intros []. Qed.
Lemma stop_kept c : wps (DiscCoapStopDiscovery ev) (fun _ c' => kept c c') c.
Proof. apply quiet_kept. by intros []. Qed.

Lemma set_mgr_same d o c : mgr d (set_mgr d o c) = o.
Proof. by destruct d. Qed.
Lemma set_mgr_other d o c : mgr (other d) (set_mgr d o c) = mgr (other d) c.
Proof. by destruct d. Qed.
Lemma set_mgr_kept d o c : localInfo (set_mgr d o c) = localInfo c /\ forall d', told_for d' (set_mgr d o c) = told_for d' c.
Proof. destruct d; (split; [done|]); by intros []. Qed.
Lemma side_cases d d' : d' = d \/ d' = other d.
Proof. destruct d, d'; auto. Qed.

(** The effect of a function on one side: [R] relates the counts. *)
Definition effect (d : side) (R : (Z -> Z) -> (Z -> Z) -> Prop) (c : Coap) (r : Z) (c' : Coap) : Prop :=
  coap_ok c' /\ (r = SOFTBUS_OK ->
    R (count_of d c) (count_of d c') /\ stays (count_of (other d) c) (count_of (other d) c') /\ (synced c -> synced c')).

(** When the bitmap was merged and told. *)
Lemma effect_ok d R c c' i i' : coap_ok c -> mgr d c = Some i -> merged i i' -> R (cnt i) (cnt i') ->
  mgr d c' = Some i' -> mgr (other d) c' = mgr (other d) c -> localInfo c' = localInfo c ->
  told_for d c' = (if isUpdate i' then allCap i' else told_for d c) -> told_for (other d) c' = told_for (other d) c ->
  forall r, effect d R c r c'.
Proof.
  intros [Hok Hl] Ei [Hw Hu] HR A1 A2 A3 A4 A5 r. split.
  - split; [|congruence]. intros d'; destruct (side_cases d d') as [->| ->]; [rewrite A1; by intros ? [= <-]|]. rewrite A2. apply Hok.
  - intros _. unfold count_of, stays. rewrite A1, A2, Ei. split; [exact HR|]. split; [done|].
    intros Hs. intros d'; destruct (side_cases d d') as [->| ->]; [rewrite A1, A4; cbn|rewrite A2, A5; apply Hs].
    destruct (isUpdate i'); [done|]. rewrite Hu by done. specialize (Hs d). by rewrite Ei in Hs.
Qed.

(** A function of the medium: merge the bitmap with [f], tell the device finder,
    and go on with [tail]. *)
Lemma op_effect d (f : Z -> list Z -> option DiscCoapInfo -> Z -> option (Z * option DiscCoapInfo)) R bm e1 e2 tail c :
  coap_ok c -> e1 <> SOFTBUS_OK -> e2 <> SOFTBUS_OK ->
  (forall i, mgr d c = Some i -> exists i', f CAPABILITY_NUM bm (Some i) MAX_CAP_NUM = Some (SOFTBUS_OK, Some i') /\ merged i i' /\
     R (cnt i) (cnt i')) ->
  (forall c1, mgr d c1 <> None -> wps tail (fun _ c' => kept c1 c') c1) ->
  wps (guard ev d (
    let* r := merge d f bm in
    if negb (r =? SOFTBUS_OK) then sret e1 else
    let* r := update ev d in
    if negb (r =? SOFTBUS_OK) then sret e2 else tail)) (effect d R c) c.
Proof.
  intros Hok He1 He2 Hf Htail. unfold guard. wps_step. wps_step. destruct (mgr d c) as [i|] eqn:Ei.
  2:{ wps_step. by split. }
  wps_step. eapply wps_mono; [apply ask_kept|]. intros ok c0 [K1 K2]. wps_step.
  { wps_step. split; [|done]. split; [intros d' j; rewrite (proj1 (K1 d')); apply Hok|by rewrite K2; apply Hok]. }
  destruct (Hf i eq_refl) as (i' & Ef & Hm & HR). unfold merge. wps_step. wps_step. wps_step. wps_step.
  eapply wps_lift; [rewrite (proj1 (K1 d)), Ei; exact Ef|]. wps_step. wps_step. wps_step. wps_step. wps_step.
  destruct (set_mgr_kept d (Some i') c0) as [L1 L2]. pose proof (set_mgr_same d (Some i') c0) as L3.
  pose proof (set_mgr_other d (Some i') c0) as L4. revert L1 L2 L3 L4. generalize (set_mgr d (Some i') c0). intros c1 L1 L2 L3 L4.
  assert (forall c2, mgr d c2 = Some i' -> mgr (other d) c2 = mgr (other d) c -> localInfo c2 = localInfo c ->
    told_for d c2 = (if isUpdate i' then allCap i' else told_for d c) -> told_for (other d) c2 = told_for (other d) c ->
    wps tail (effect d R c) c2) as Hrest.
  { intros c2 A1 A2 A3 A4 A5. eapply wps_mono; [apply Htail; by rewrite A1|]. intros r c3 [B1 B2].
    destruct (B1 d), (B1 (other d)). eapply (effect_ok d R c c3 i i'); try congruence; assumption. }
  unfold update. wps_step. wps_step. wps_step. eapply wps_lift; [exact L3|]. cbv beta.
  destruct (K1 d) as [_ T1], (K1 (other d)) as [T2 T3].
  destruct (isUpdate i') eqn:Eu.
  - eapply (wps_mono _ (fun r c2 => localInfo c2 = localInfo c1 /\ forall d', mgr d' c2 = mgr d' c1 /\ told_for d' c2 =
      if decide (d' = d) then (if r =? SOFTBUS_OK then allCap i' else told_for d' c1) else told_for d' c1)).
    { destruct d; unfold DiscCoapRegisterCapability, DiscCoapSetFilterCapability; cbn [Z.eqb CAPABILITY_NUM]; wps_step;
        (eapply wps_mono; [apply call_spec|]); intros r c2 [A1 A2]; wps_step; (split; [done|]); intros d'; destruct (A2 d') as [A3 A4];
        (split; [done|]); rewrite A4; destruct (r =? 0) eqn:Er; unfold SOFTBUS_OK; rewrite ?Er; cbn [negb];
        destruct d'; simpl; done. }
    intros r c2 [A1 A2]. destruct (A2 d) as [A3 A4], (A2 (other d)) as [A5 A6]. rewrite decide_True in A4 by done.
    rewrite decide_False in A6 by (by destruct d). wps_step.
    + wps_step. split; [|done]. split; [|rewrite A1, L1, K2; apply Hok].
      intros d'; destruct (side_cases d d') as [->| ->]; [rewrite A3, L3; intros ? [= <-]; apply Hm|rewrite A5, L4, T2; apply Hok].
    + match goal with H : negb (r =? _) = false |- _ => apply negb_false_iff in H; rewrite H in A4 end. apply Hrest; congruence.
  - wps_step. wps_step. apply Hrest; congruence.
Qed.

Lemma adds_effect d bm c e1 e2 tail : coap_ok c -> e1 <> SOFTBUS_OK -> e2 <> SOFTBUS_OK -> bitmap_ok bm -> coap_room (count_of d c) ->
  (forall c1, mgr d c1 <> None -> wps tail (fun _ c' => kept c1 c') c1) ->
  wps (guard ev d (
    let* r := merge d RegisterAllCapBitmap bm in
    if negb (r =? SOFTBUS_OK) then sret e1 else
    let* r := update ev d in
    if negb (r =? SOFTBUS_OK) then sret e2 else tail)) (effect d (adds bm) c) c.
Proof.
  intros Hok H1 H2 (b & -> & Hb) Hroom. apply op_effect; try done. intros i Ei. apply register_spec; [exact (proj1 Hok _ _ Ei)|done|].
  intros p Hp. specialize (Hroom p Hp). unfold count_of in Hroom. by rewrite Ei in Hroom.
Qed.

Lemma drops_effect d bm c e1 e2 tail : coap_ok c -> e1 <> SOFTBUS_OK -> e2 <> SOFTBUS_OK -> bitmap_ok bm ->
  (forall c1, mgr d c1 <> None -> wps tail (fun _ c' => kept c1 c') c1) ->
  wps (guard ev d (
    let* r := merge d UnregisterAllCapBitmap bm in
    if negb (r =? SOFTBUS_OK) then sret e1 else
    let* r := update ev d in
    if negb (r =? SOFTBUS_OK) then sret e2 else tail)) (effect d (drops bm) c) c.
Proof.
  intros Hok H1 H2 (b & -> & Hb). apply op_effect; try done. intros i Ei.
  destruct (unregister_spec i b) as (i' & E & Hm & Hd & _); [exact (proj1 Hok _ _ Ei)|done|]. eauto.
Qed.

Lemma then_kept (m : SF Coap Z) (k : Z -> SF Coap Z) c : wps m (fun _ c' => kept c c') c ->
  (forall r c1, mgr Pub c1 = mgr Pub c -> mgr Sub c1 = mgr Sub c -> wps (k r) (fun _ c' => kept c1 c') c1) ->
  wps (sbind m k) (fun _ c' => kept c c') c.
Proof.
  intros Hm Hk. wps_step. eapply wps_mono; [exact Hm|]. intros r c1 H1.
  eapply wps_mono; [apply Hk; apply H1|]. intros ? c2 H2. exact (kept_trans _ _ _ H1 H2).
Qed.

(** The calls after the bitmap was told. *)
Ltac tail_kept :=
  intros; repeat (cbv beta zeta iota; match goal with
  | |- wps (sbind (DiscCoapRegisterServiceData _ _ _) _) _ _ => apply then_kept; [apply service_data_kept|intros]
  | |- wps (sbind (DiscCoapStartDiscovery _ _) _) _ _ => apply then_kept; [apply start_kept|intros]
  | |- wps (sbind (DiscCoapStopDiscovery _) _) _ _ => apply then_kept; [apply stop_kept|intros]
  | |- wps (sbind (slift ?m) _) _ _ => destruct m eqn:?; [|exfalso; simpl in *; congruence]; apply wps_bind; eapply wps_lift; [reflexivity|]
  | |- wps (if _ then _ else _) _ _ => case_if
  | |- wps (sret _) _ _ => apply wps_ret; apply kept_refl
  | _ => wps_step
  end).

Lemma publish_effect o c : coap_ok c -> bitmap_ok (p_capabilityBitmap o) -> coap_room (count_of Pub c) ->
  wps (CoapPublish ev o) (effect Pub (adds (p_capabilityBitmap o)) c) c /\ wps (CoapStartScan ev o) (effect Pub (adds (p_capabilityBitmap o)) c) c.
Proof. intros Hok Hb Hroom. split; apply adds_effect; try done; tail_kept. Qed.

Lemma unpublish_effect o c : coap_ok c -> bitmap_ok (p_capabilityBitmap o) ->
  wps (CoapUnPublish ev o) (effect Pub (drops (p_capabilityBitmap o)) c) c /\ wps (CoapStoptScan ev o) (effect Pub (drops (p_capabilityBitmap o)) c) c.
Proof. intros Hok Hb. split; apply drops_effect; try done; tail_kept. Qed.

Lemma subscribe_effect o c : coap_ok c -> bitmap_ok (s_capabilityBitmap o) -> coap_room (count_of Sub c) ->
  wps (CoapStartAdvertise ev o) (effect Sub (adds (s_capabilityBitmap o)) c) c /\ wps (CoapSubscribe ev o) (effect Sub (adds (s_capabilityBitmap o)) c) c.
Proof. intros Hok Hb Hroom. split; apply adds_effect; try done; tail_kept. Qed.

Lemma unsubscribe_effect o c : coap_ok c -> bitmap_ok (s_capabilityBitmap o) ->
  wps (CoapStopAdvertise ev o) (effect Sub (drops (s_capabilityBitmap o)) c) c /\ wps (CoapUnsubscribe ev o) (effect Sub (drops (s_capabilityBitmap o)) c) c.
Proof. intros Hok Hb. split; apply drops_effect; try done; tail_kept. Qed.

Lemma link_kept st c : coap_ok c -> wps (CoapUpdateLocalIp ev st) (fun _ c' => kept c c') c.
Proof.
  intros [_ Hl]. unfold CoapUpdateLocalIp, DiscCoapUpdateLocalIp. wps_step. wps_step. rewrite Hl. cbn [negb andb].
  assert (forall c1, wps (let* _ := call ev (NSTACKX_RegisterDevice st) in sret tt) (fun _ c' => kept c1 c') c1) as H.
  { intros c1. wps_step. eapply wps_mono; [apply call_spec|]. intros r c' [A1 A2]. wps_step.
    split; [|done]. intros d. destruct (A2 d) as [B1 B2]. split; [done|]. rewrite B2. by destruct d, (r =? 0). }
  wps_step; [|wps_step; [apply H|by wps_step]].
  wps_step. eapply wps_mono; [apply ask_kept|]. intros ok c1 H1. wps_step; [by wps_step|].
  eapply wps_mono; [apply H|]. intros ? c2 H2. exact (kept_trans _ _ _ H1 H2).
Qed.
End laws.

(** CoAP keeps the promises of a medium. *)
#[export] Program Instance coap_medium (ev : CoapEnv) : Medium (g_discCoapFuncInterface ev) := {|
  med_ok := coap_ok;
  pubs := count_of Pub;
  subs := count_of Sub;
  in_sync := synced;
  room := coap_room |}.
Next Obligation.
  intros ev o c P Hok Hb Hroom. destruct (publish_effect ev o c Hok Hb Hroom) as [H1 H2].
  split; (eapply wps_mono; [eassumption|]); intros r c' [A1 A2]; (split; [done|]); intros Hr; destruct (A2 Hr) as (? & ? & ?); done.
Qed.
Next Obligation.
  intros ev o c P Hok Hb. destruct (unpublish_effect ev o c Hok Hb) as [H1 H2].
  split; (eapply wps_mono; [eassumption|]); intros r c' [A1 A2]; (split; [done|]); intros Hr; destruct (A2 Hr) as (? & ? & ?); done.
Qed.
Next Obligation.
  intros ev o c P Hok Hb Hroom. destruct (subscribe_effect ev o c Hok Hb Hroom) as [H1 H2].
  split; (eapply wps_mono; [eassumption|]); intros r c' [A1 A2]; (split; [done|]); intros Hr; destruct (A2 Hr) as (? & ? & ?); done.
Qed.
Next Obligation.
  intros ev o c P Hok Hb. destruct (unsubscribe_effect ev o c Hok Hb) as [H1 H2].
  split; (eapply wps_mono; [eassumption|]); intros r c' [A1 A2]; (split; [done|]); intros Hr; destruct (A2 Hr) as (? & ? & ?); done.
Qed.
Next Obligation.
  intros ev st c Hok. eapply wps_mono; [by apply link_kept|]. intros ? c' [A1 A2]. destruct (A1 Pub) as [B1 _], (A1 Sub) as [B2 _].
  unfold count_of, stays. rewrite B1, B2. split.
  2:{ do 2 (split; [done|]). intros Hs d. destruct (A1 d) as [-> ->]. apply Hs. }
  split; [|rewrite A2; apply Hok]. intros d. rewrite (proj1 (A1 d)). apply Hok.
Qed.

(** ** Start and end of the medium *)

Definition no_caps (i : DiscCoapInfo) : Prop := wf_info i /\ allCap i = [0] /\ forall p, 0 <= p < 32 -> cnt i p = 0.
Definition blank (c : Coap) : Prop := (forall d i, mgr d c = Some i -> no_caps i) /\ forall d, told_for d c = [0].
Definition coap_base (c : Coap) : Prop := (forall d, mgr d c = None) /\ forall d, told_for d c = [0].

Lemma base_blank c : coap_base c -> blank c.
Proof. intros [H1 H2]. split; [|done]. intros d i. by rewrite H1. Qed.

Lemma zero_caps i : wf_info i -> (forall p, 0 <= p < 32 -> cnt i p = 0) -> no_caps i.
Proof.
  intros Hw Hz. split; [done|]. split; [|done]. destruct (wi_cap _ Hw) as (cap & -> & Hr & Hb). f_equal.
  apply Z.bits_inj'. intros n Hn. rewrite Z.bits_0. destruct (decide (n < 32)) as [Hlt|Hge].
  - rewrite Hb by lia. rewrite Hz by lia. done.
  - apply (proj1 (Z.bounded_iff_bits_nonneg' 32 cap ltac:(lia) ltac:(lia))); lia.
Qed.

Lemma cnt_zero a n b c p : cnt (mkCoapInfo a (replicate n 0) b c) p = 0.
Proof. unfold cnt. cbn [capCount]. destruct (replicate n 0 !! Z.to_nat p) eqn:E; [|done]. by apply lookup_replicate_1 in E as [-> _]. Qed.

Lemma new_caps : forall a b i, NewDiscCoapInfo a b = Some i -> no_caps i.
Proof.
  intros a b i E. assert (i = mkCoapInfo (replicate (Z.to_nat CAPABILITY_NUM) 0) (replicate (Z.to_nat MAX_CAP_NUM) 0) false false) as ->.
  { unfold NewDiscCoapInfo in E. destruct a, b; cbn [negb] in E; congruence. }
  apply zero_caps; [split; [|done|]|]; intros; rewrite ?cnt_zero; try lia. exists 0. split; [done|]. split; [done|].
  intros p Hp. by rewrite Z.bits_0, cnt_zero.
Qed.

Lemma blank_set d o c : blank c -> (forall i, o = Some i -> no_caps i) -> blank (set_mgr d o c).
Proof.
  intros [H1 H2] Ho. split; [|intros d'; by rewrite (proj2 (set_mgr_kept _ _ _))].
  intros d'. destruct (side_cases d d') as [->| ->]; [by rewrite set_mgr_same|rewrite set_mgr_other; apply H1].
Qed.

(** Both managers, or none. *)
Lemma init_manager_spec m1 m2 x1 x2 c : blank c ->
  wps (InitCoapManager m1 m2 x1 x2) (fun r c' => if r =? SOFTBUS_OK then blank c' /\ forall d, is_Some (mgr d c') else coap_base c') c.
Proof.
  intros Hb. unfold InitCoapManager. do 3 wps_step.
  assert (forall d o c1, blank c1 -> (forall i, o = Some i -> no_caps i) ->
    wps (match mgr d c1 with None => smodify (set_mgr d o) | Some _ => sret tt end) (fun _ c' => blank c') c1) as H.
  { intros d o c1 H1 H2. destruct (mgr d c1); [by apply wps_ret|]. apply wps_modify. by apply blank_set. }
  eapply wps_mono; [apply (H Pub _ c Hb), new_caps|]. intros ? c1 H1. do 3 wps_step.
  eapply wps_mono; [apply (H Sub _ c1 H1), new_caps|]. intros ? c2 H2. do 4 wps_step.
  destruct (g_publishMgr c2) eqn:E1, (g_subscribeMgr c2) eqn:E2; unfold DeinitCoapManager; wps_steps; cbn [Z.eqb SOFTBUS_OK].
  1: { split; [done|]. intros []; cbn; rewrite ?E1, ?E2; eauto. }
  all: (split; [by intros []|apply H2]).
Qed.

Lemma nstackx_init_spec m ok c : wps (DiscNstackxInit m ok) (fun r c' => (forall d, mgr d c' = mgr d c /\ told_for d c' = told_for d c) /\
  (r = SOFTBUS_OK -> localInfo c' = true)) c.
Proof.
  unfold DiscNstackxInit, InitLocalInfo, DeinitLocalInfo. wps_steps; (split; [by intros []|]); try done; by intros ?%eq_sym.
Qed.

(** CoAP can be started and ended. *)
#[export] Program Instance coap_life (ev : CoapEnv) : MediumLife (g_discCoapFuncInterface ev) DiscCoapInit DiscCoapDeinit := {|
  base := coap_base |}.
Next Obligation.
  intros ev e c Hc. assert (blank c) as Hb.
  { destruct Hc as [Hc|[Hok [Hs Hz]]]; [by apply base_blank|]. assert (forall d i, mgr d c = Some i -> no_caps i) as Hn.
    { intros d i Hi. apply zero_caps; [by apply (proj1 Hok d)|]. intros p Hp. destruct (Hz p Hp) as [Hz1 Hz2]. change (count_of Pub c p = 0) in Hz1. change (count_of Sub c p = 0) in Hz2. unfold count_of in Hz1, Hz2.
      destruct d; [rewrite Hi in Hz1|rewrite Hi in Hz2]; done. }
    split; [done|]. intros d. rewrite (Hs d). destruct (mgr d c) as [i|] eqn:Ei; [|done]. by apply (Hn d i). }
  unfold DiscCoapInit. wps_step. eapply wps_mono; [by apply init_manager_spec|]. intros r c1 H1. cbv beta in H1. destruct (r =? SOFTBUS_OK); cbn [negb]; [|wps_step; exact H1].
  destruct H1 as [H1 Hm]. wps_step. eapply wps_mono; [apply nstackx_init_spec|]. intros r2 c2 [A1 A2].
  assert (blank c2) as H2. { destruct H1 as [B1 B2]. split; [intros d i; rewrite (proj1 (A1 d)); apply B1|intros d; rewrite (proj2 (A1 d)); apply B2]. }
  destruct (r2 =? SOFTBUS_OK) eqn:E2; cbn [negb].
  2:{ unfold DeinitCoapManager. wps_steps. split; [by intros []|apply H2]. }
  specialize (A2 ltac:(lia)). unfold DiscCoapRegisterCb. do 3 wps_step. rewrite A2. destruct (discInnerCb e); wps_step; cbn [negb Z.eqb SOFTBUS_OK].
  - wps_steps. split.
    + split; [|done]. intros d i Hi. by apply (proj1 H2 d i Hi).
    + split.
      * intros d. rewrite (proj2 H2 d). destruct (mgr d c2) as [i|] eqn:Ei; [|done]. symmetry. by apply (proj1 H2 d i Ei).
      * intros p Hp. change (count_of Pub c2 p = 0 /\ count_of Sub c2 p = 0). unfold count_of. split; destruct (mgr _ c2) as [i|] eqn:Ei; try done; by apply (proj1 H2 _ i Ei).
  - unfold DiscCoapDeinit, DeinitCoapManager, DiscNstackxDeinit, DeinitLocalInfo. wps_steps. split; by intros [].
Qed.
Next Obligation.
  intros ev c _. unfold DiscCoapDeinit, DeinitCoapManager, DiscNstackxDeinit, DeinitLocalInfo. wps_steps. split; by intros [].
Qed.
End DiscCoap.
