(* ===== verification/DiscManager.v ===== *)
(** * The discovery manager (core/discovery/manager/src/disc_manager.c)

    The manager keeps the publications and the subscriptions of all packages,
    drives the media and tells the subscribers about devices.  Objects live in
    heaps ([infos], [items]) under addresses that are never reused, and the lists
    of the source are lists of addresses, so that a use of a freed object is a
    fault.  A call of the interface is one computation: calls are serialised.
    The media are any implementation of [DiscMedium]. *)

From S2P Require Import Prelude StateFault DiscMedium.

Module DiscManager.
Import DiscMedium.
#[local] Open Scope sf_scope.

Definition PKG_NAME_SIZE_MAX : Z := 65.
Definition DISCOVER_MODE_PASSIVE : Z := 0x55.
Definition DISCOVER_MODE_ACTIVE : Z := 0xAA.
Definition AUTO : Z := 0.
Definition BLE : Z := 1.
Definition COAP : Z := 2.
Definition LOW : Z := 0.
Definition SUPER_HIGH : Z := 3.
Definition MODULE_MIN : Z := 1.
Definition MODULE_MAX : Z := 2.

Definition g_discModuleMap : list string := ["MODULE_LNN"; "MODULE_CONN"]%string.
(** The entries of [g_capabilityMap]; the bitmap value of an entry is its index. *)
Definition g_capabilityMap : list string :=
  ["hicall"; "profile"; "homevisionPic"; "castPlus"; "aaCapability"; "dvKit"; "ddmpCapability"; "osdCapability"]%string.

Inductive ServiceType := PUBLISH_SERVICE | PUBLISH_INNER_SERVICE | SUBSCRIBE_SERVICE | SUBSCRIBE_INNER_SERVICE.
Inductive InterfaceFuncType := PUBLISH_FUNC | UNPUBLISH_FUNC | STARTDISCOVERTY_FUNC | STOPDISCOVERY_FUNC.

(** ** Data *)

(** A union in the source; which member is set depends on the service type. *)
Inductive InnerOption :=
  | publishOption (o : PublishOption)
  | subscribeOption (o : SubscribeOption).

(** A pointer to a function; the two members of the union share it.  0 is NULL. *)
Abbreviation InnerCallback := Z (only parsing).

(** [item] is NULL until the information is in a list. *)
Record DiscInfo := mkInfo {
  id : Z; mode : Z; medium : Z; option : InnerOption; item : Datatypes.option nat }.
#[export] Instance DiscInfo_fields : Fields DiscInfo :=
  {| ctor := mkInfo; projs := (id, mode, medium, option, item) |}.

Record DiscItem := mkItem {
  packageName : string; callback : InnerCallback; infoNum : Z; InfoList : list nat }.
#[export] Instance DiscItem_fields : Fields DiscItem :=
  {| ctor := mkItem; projs := (packageName, callback, infoNum, InfoList) |}.

Record SoftBusList := mkList { elems : list nat; cnt : Z }.

(** The arguments of the interface.  A buffer is the bytes the caller owns. *)
Record PublishInfo := mkPublishInfo {
  publishId : Z; pi_mode : Z; pi_medium : Z; pi_freq : Z;
  pi_capability : string; pi_capabilityData : Datatypes.option (list byte); pi_dataLen : Z }.
Record PublishInnerInfo := mkPublishInnerInfo {
  pn_publishId : Z; pn_medium : Z; pn_freq : Z;
  pn_capability : string; pn_capabilityData : Datatypes.option (list byte); pn_dataLen : Z }.
Record SubscribeInfo := mkSubscribeInfo {
  subscribeId : Z; si_mode : Z; si_medium : Z; si_freq : Z; si_isSameAccount : bool; si_isWakeRemote : bool;
  si_capability : string; si_capabilityData : Datatypes.option (list byte); si_dataLen : Z }.
Record SubscribeInnerInfo := mkSubscribeInnerInfo {
  sn_subscribeId : Z; sn_medium : Z; sn_freq : Z; sn_isSameAccount : bool; sn_isWakeRemote : bool;
  sn_capability : string; sn_capabilityData : Datatypes.option (list byte); sn_dataLen : Z }.

(** What the manager does outside: calls of a medium with their results, and the
    callbacks for a device that was found, with the function that is called. *)
Inductive MediumCall := MCall (medium : Z) (type : InterfaceFuncType) (o : InnerOption) (result : Z).
Inductive Found :=
  | OnServerDeviceFound (f : Z) (packageName : string) (device : Z)
  | OnDeviceFound (f : Z) (device : Z).

Record Disc := mkDisc {
  g_isInited : bool;
  g_publishInfoList : Datatypes.option SoftBusList;
  g_discoveryInfoList : Datatypes.option SoftBusList;
  g_discCoapInterface : bool;
  g_discBleInterface : bool;
  g_capabilityList : list (list nat);
  infos : gmap nat DiscInfo;
  items : gmap nat DiscItem;
  next : nat;
  calls : list MediumCall;
  found : list Found }.
#[export] Instance Disc_fields : Fields Disc :=
  {| ctor := mkDisc; projs := (g_isInited, g_publishInfoList, g_discoveryInfoList, g_discCoapInterface, g_discBleInterface,
       g_capabilityList, infos, items, next, calls, found) |}.

Inductive which := PublishList | DiscoveryList.
Definition get_list (w : which) (s : Disc) : Datatypes.option SoftBusList :=
  match w with PublishList => g_publishInfoList s | DiscoveryList => g_discoveryInfoList s end.
Definition set_list (w : which) (l : Datatypes.option SoftBusList) (s : Disc) : Disc :=
  match w with PublishList => s <| g_publishInfoList := l |> | DiscoveryList => s <| g_discoveryInfoList := l |> end.

(** ** Memory *)

Definition get_info (a : nat) : SF Disc DiscInfo := let* h := sgets infos in slift (h !! a).
Definition get_item (a : nat) : SF Disc DiscItem := let* h := sgets items in slift (h !! a).
Definition put_info (a : nat) (i : DiscInfo) : SF Disc unit :=
  let* _ := get_info a in smodify (fun s => s <| infos := <[a := i]> (infos s) |>).
Definition put_item (a : nat) (i : DiscItem) : SF Disc unit :=
  let* _ := get_item a in smodify (fun s => s <| items := <[a := i]> (items s) |>).
Definition new_info (i : DiscInfo) : SF Disc nat :=
  let* a := sgets next in
  smodify (fun s => s <| infos := <[a := i]> (infos s) |> <| next := S a |>) ;; sret a.
Definition new_item (i : DiscItem) : SF Disc nat :=
  let* a := sgets next in
  smodify (fun s => s <| items := <[a := i]> (items s) |> <| next := S a |>) ;; sret a.
Definition free_item (a : nat) : SF Disc unit :=
  let* _ := get_item a in smodify (fun s => s <| items := delete a (items s) |>).
(** The data of an information is a part of it. *)
Definition ReleaseInfoNodeMem (a : nat) (type : ServiceType) : SF Disc unit :=
  let* _ := get_info a in smodify (fun s => s <| infos := delete a (infos s) |>).
Definition read_list (w : which) : SF Disc SoftBusList := let* l := sgets (get_list w) in slift l.

Definition remove (a : nat) (l : list nat) : list nat := filter (fun b => b <> a) l.

(** ** Capabilities *)

Definition BitmapSet (bitMap pos : Z) : Z :=
  if pos >? CAPABILITY_MAX_BITNUM then bitMap else Z.lor bitMap (u32 (Z.shiftl 1 pos)).
Definition IsBitmapSet (bitMap pos : Z) : bool :=
  if pos >? CAPABILITY_MAX_BITNUM then false else negb (Z.land (u32 (Z.shiftl 1 pos)) bitMap =? 0).

Fixpoint find_capability (capability : string) (l : list string) (i : Z) : Z :=
  match l with
  | [] => SOFTBUS_DISCOVER_MANAGER_CAPABILITY_INVALID
  | c :: l => if decide (capability = c) then i else find_capability capability l (i + 1)
  end.
Definition CapabilityStringToBimap (capability : string) : Z := find_capability capability g_capabilityMap 0.

(** The first position that is set, [CAPABILITY_MAX_BITNUM] if there is none. *)
Definition first_bit (bitMap : Z) : Z :=
  default CAPABILITY_MAX_BITNUM (list_find (fun p => IsBitmapSet bitMap p = true) (seqZ 0 CAPABILITY_MAX_BITNUM) ≫= fun '(_, p) => Some p).

Definition subscribes (type : ServiceType) : bool :=
  match type with SUBSCRIBE_SERVICE | SUBSCRIBE_INNER_SERVICE => true | _ => false end.

Definition AddInfoToCapability (a : nat) (type : ServiceType) : SF Disc unit :=
  if negb (subscribes type) then sret tt
  else
    let* i := get_info a in
    match option i with
    | publishOption _ => fault
    | subscribeOption o =>
        let* bitMap := slift (head (s_capabilityBitmap o)) in
        let tmp := first_bit bitMap in
        if tmp >=? CAPABILITY_MAX_BITNUM then sret tt
        else
          let* caps := sgets g_capabilityList in
          let* l := slift (caps !! Z.to_nat tmp) in
          let l := match type with SUBSCRIBE_INNER_SERVICE => a :: l | _ => l ++ [a] end in
          smodify (fun s => s <| g_capabilityList := <[Z.to_nat tmp := l]> caps |>)
    end.

(** [ListDelete] of a node that is in no list changes nothing. *)
Definition DeleteInfoFromCapability (a : nat) (type : ServiceType) : SF Disc unit :=
  if negb (subscribes type) then sret tt
  else
    let* _ := get_info a in
    smodify (fun s => s <| g_capabilityList := remove a <$> g_capabilityList s |>).

(** ** Checks of the arguments *)

(** [strlen] of a buffer; [None] when it has no terminator. *)
Fixpoint strlen (l : list byte) : Datatypes.option Z :=
  match l with
  | [] => None
  | b :: l => if decide (b = Byte.x00) then Some 0 else n ← strlen l; Some (n + 1)
  end.

(** The checks all four functions share. *)
Definition common_check (medium freq : Z) (data : Datatypes.option (list byte)) (dataLen : Z) : Datatypes.option Z :=
  if (medium <? AUTO) || (medium >? COAP) then Some SOFTBUS_DISCOVER_MANAGER_INVALID_MEDIUM
  else if (freq <? LOW) || (freq >? SUPER_HIGH) then Some SOFTBUS_INVALID_PARAM
  else
    match data with
    | None => Some (if negb (dataLen =? 0) then SOFTBUS_INVALID_PARAM else SOFTBUS_OK)
    | Some d =>
        if dataLen =? 0 then Some SOFTBUS_OK
        else if dataLen >? MAX_CAPABILITYDATA_LEN then Some SOFTBUS_INVALID_PARAM
        else n ← strlen d; Some (if n >=? MAX_CAPABILITYDATA_LEN then SOFTBUS_INVALID_PARAM else SOFTBUS_OK)
    end.

Definition name_check (packageName : string) (mode : Z) : Z :=
  if Z.of_nat (String.length packageName) >=? PKG_NAME_SIZE_MAX then SOFTBUS_INVALID_PARAM
  else if negb (mode =? DISCOVER_MODE_PASSIVE) && negb (mode =? DISCOVER_MODE_ACTIVE) then SOFTBUS_INVALID_PARAM
  else SOFTBUS_OK.

Definition PublishInfoCheck (packageName : string) (info : PublishInfo) : Datatypes.option Z :=
  let r := name_check packageName (pi_mode info) in
  if negb (r =? SOFTBUS_OK) then Some r
  else common_check (pi_medium info) (pi_freq info) (pi_capabilityData info) (pi_dataLen info).
Definition PublishInnerInfoCheck (info : PublishInnerInfo) : Datatypes.option Z :=
  common_check (pn_medium info) (pn_freq info) (pn_capabilityData info) (pn_dataLen info).
Definition SubscribeInfoCheck (packageName : string) (info : SubscribeInfo) : Datatypes.option Z :=
  let r := name_check packageName (si_mode info) in
  if negb (r =? SOFTBUS_OK) then Some r
  else common_check (si_medium info) (si_freq info) (si_capabilityData info) (si_dataLen info).
Definition SubscribeInnerInfoCheck (info : SubscribeInnerInfo) : Datatypes.option Z :=
  common_check (sn_medium info) (sn_freq info) (sn_capabilityData info) (sn_dataLen info).

(** The allocations and the locks of a call: whether they succeed. *)
Record Res := mkRes { lock_ok : bool; mem_name : bool; mem_info : bool; mem_data : bool; mem_item : bool }.

(** ** Creation of informations *)

(** The buffer of [MAX_CAPABILITYDATA_LEN] bytes with the data of the caller. *)
Definition copy_data (data : Datatypes.option (list byte)) (dataLen : Z) : Datatypes.option (bool * list byte) :=
  let buf := zeros (Z.to_nat MAX_CAPABILITYDATA_LEN) in
  if dataLen =? 0 then Some (true, buf)
  else
    d ← data;
    if Z.of_nat (length d) <? dataLen then None
    else memcpy_s buf 0 MAX_CAPABILITYDATA_LEN (take (Z.to_nat dataLen) d).

(** The tail of the four functions: the node, its data and its capability.  [mk]
    builds the option from the bitmap and the data. *)
Definition create_node (r : Res) (id mode medium : Z) (mk : list Z -> list byte -> InnerOption) (type : ServiceType)
    (data : Datatypes.option (list byte)) (dataLen : Z) (capability : string) : SF Disc (Datatypes.option nat) :=
  if negb (mem_info r) then sret None
  else if negb (mem_data r) then sret None
  else
    let* a := new_info (mkInfo id mode medium (mk [0] (zeros (Z.to_nat MAX_CAPABILITYDATA_LEN))) None) in
    let! (ok, buf) := slift (copy_data data dataLen) in
    if negb ok then ReleaseInfoNodeMem a type ;; sret None
    else
      let ret := CapabilityStringToBimap capability in
      if ret <? 0 then ReleaseInfoNodeMem a type ;; sret None
      else put_info a (mkInfo id mode medium (mk [BitmapSet 0 ret] buf) None) ;; sret (Some a).

Definition CreateNewPublishInfoNode (r : Res) (info : PublishInfo) : SF Disc (Datatypes.option nat) :=
  create_node r (publishId info) (pi_mode info) (pi_medium info)
    (fun bm buf => publishOption (mkPublishOption (pi_freq info) bm buf (pi_dataLen info))) PUBLISH_SERVICE
    (pi_capabilityData info) (pi_dataLen info) (pi_capability info).
Definition CreateNewSubscribeInfoNode (r : Res) (info : SubscribeInfo) : SF Disc (Datatypes.option nat) :=
  create_node r (subscribeId info) (si_mode info) (si_medium info)
    (fun bm buf => subscribeOption (mkSubscribeOption (si_freq info) (si_isSameAccount info) (si_isWakeRemote info) bm buf (si_dataLen info)))
    SUBSCRIBE_SERVICE (si_capabilityData info) (si_dataLen info) (si_capability info).
Definition CreateNewPublishInnerInfoNode (r : Res) (info : PublishInnerInfo) (mode : Z) : SF Disc (Datatypes.option nat) :=
  create_node r (pn_publishId info) mode (pn_medium info)
    (fun bm buf => publishOption (mkPublishOption (pn_freq info) bm buf (pn_dataLen info))) PUBLISH_SERVICE
    (pn_capabilityData info) (pn_dataLen info) (pn_capability info).
Definition CreateNewSubscribeInnerInfoNode (r : Res) (info : SubscribeInnerInfo) (mode : Z) : SF Disc (Datatypes.option nat) :=
  create_node r (sn_subscribeId info) mode (sn_medium info)
    (fun bm buf => subscribeOption (mkSubscribeOption (sn_freq info) (sn_isSameAccount info) (sn_isWakeRemote info) bm buf (sn_dataLen info)))
    SUBSCRIBE_SERVICE (sn_capabilityData info) (sn_dataLen info) (sn_capability info).

(** ** The lists *)

Definition AddCallbackToItem (a : nat) (cb : InnerCallback) (type : ServiceType) : SF Disc unit :=
  match type with
  | SUBSCRIBE_SERVICE => let* it := get_item a in put_item a (it <| callback := cb |>)
  | SUBSCRIBE_INNER_SERVICE =>
      let* it := get_item a in
      if negb (callback it =? 0) && (cb =? 0) then sret tt else put_item a (it <| callback := cb |>)
  | _ => sret tt
  end.

Definition CreateNewItem (r : Res) (w : which) (name : string) (cb : InnerCallback) (type : ServiceType) : SF Disc (Datatypes.option nat) :=
  if negb (mem_item r) then sret None
  else
    let* a := new_item (mkItem name 0 0 []) in
    let* l := read_list w in
    smodify (set_list w (Some (mkList
      (match type with PUBLISH_INNER_SERVICE | SUBSCRIBE_INNER_SERVICE => a :: elems l | _ => elems l ++ [a] end)
      (u32 (cnt l + 1))))) ;;
    AddCallbackToItem a cb type ;;
    sret (Some a).

(** The first item of a package. *)
Fixpoint find_item (name : string) (l : list nat) : SF Disc (Datatypes.option nat) :=
  match l with
  | [] => sret None
  | a :: l => let* it := get_item a in if decide (packageName it = name) then sret (Some a) else find_item name l
  end.
Fixpoint find_info (n : Z) (l : list nat) : SF Disc (Datatypes.option nat) :=
  match l with
  | [] => sret None
  | a :: l => let* i := get_info a in if id i =? n then sret (Some a) else find_info n l
  end.

(** The information [i] becomes the last one of item [a]. *)
Definition link (a i : nat) (type : ServiceType) : SF Disc unit :=
  let* it := get_item a in
  put_item a (it <| infoNum := u32 (infoNum it + 1) |> <| InfoList := InfoList it ++ [i] |>) ;;
  let* inf := get_info i in
  put_info i (inf <| item := Some a |>) ;;
  AddInfoToCapability i type.

Definition AddInfoToList (r : Res) (w : which) (name : string) (cb : InnerCallback) (i : nat) (type : ServiceType) : SF Disc Z :=
  if negb (lock_ok r) then sret SOFTBUS_LOCK_ERR
  else
    let* l := read_list w in
    let* o := find_item name (elems l) in
    match o with
    | Some a =>
        let* it := get_item a in
        let* inf := get_info i in
        let* dup := find_info (id inf) (InfoList it) in
        match dup with
        | Some _ => sret SOFTBUS_DISCOVER_MANAGER_DUPLICATE_PARAM
        | None => AddCallbackToItem a cb type ;; link a i type ;; sret SOFTBUS_OK
        end
    | None =>
        let* o := CreateNewItem r w name cb type in
        match o with
        | None => sret SOFTBUS_DISCOVER_MANAGER_ITEM_NOT_CREATE
        | Some a => link a i type ;; sret SOFTBUS_OK
        end
    end.

(** The information that was taken out. *)
Definition DeleteInfoFromList (r : Res) (w : which) (name : string) (n : Z) (type : ServiceType) : SF Disc (Datatypes.option nat) :=
  if negb (lock_ok r) then sret None
  else
    let* l := read_list w in
    let* o := find_item name (elems l) in
    match o with
    | None => sret None
    | Some a =>
        let* it := get_item a in
        let* o := find_info n (InfoList it) in
        match o with
        | None => sret None
        | Some i =>
            let num := u32 (infoNum it - 1) in
            DeleteInfoFromCapability i type ;;
            put_item a (it <| infoNum := num |> <| InfoList := remove i (InfoList it) |>) ;;
            (if num =? 0 then
               smodify (set_list w (Some (mkList (remove a (elems l)) (u32 (cnt l - 1))))) ;;
               free_item a
             else sret tt) ;;
            sret (Some i)
        end
    end.

(** ** Devices that were found *)

(** [lnn] is [GetCallLnnStatus()]. *)
Definition InnerDeviceFound (lnn : bool) (a : nat) (device : Z) : SF Disc unit :=
  let* i := get_info a in
  let* p := slift (item i) in
  let* it := get_item p in
  if negb (bool_decide (packageName it ∈ g_discModuleMap)) then
    if callback it =? 0 then fault
    else smodify (fun s => s <| found := found s ++ [OnServerDeviceFound (callback it) (packageName it) device] |>)
  else if callback it =? 0 then sret tt
  else if lnn then smodify (fun s => s <| found := found s ++ [OnDeviceFound (callback it) device] |>)
  else sret tt.

(** [lock_ok r] for every capability.  [bitMap] is [device->capabilityBitmap[0]]. *)
Definition DiscOnDeviceFound (r : Res) (lnn : bool) (bitMap device : Z) : SF Disc unit :=
  if negb (lock_ok r) then sret tt
  else
    sfor (seqZ 0 CAPABILITY_MAX_BITNUM) (fun tmp =>
      if negb (IsBitmapSet bitMap tmp) then sret tt
      else
        let* _ := read_list DiscoveryList in
        let* caps := sgets g_capabilityList in
        let* l := slift (caps !! Z.to_nat tmp) in
        sfor l (fun a => InnerDeviceFound lnn a device)).

Definition InnerSetDiscoverCallback (r : Res) (name : string) (f : InnerCallback) : SF Disc Z :=
  if negb (lock_ok r) then sret SOFTBUS_LOCK_ERR
  else
    let* l := read_list DiscoveryList in
    let* o := find_item name (elems l) in
    match o with
    | Some a => let* it := get_item a in put_item a (it <| callback := f |>) ;; sret SOFTBUS_OK
    | None =>
        let* o := CreateNewItem r DiscoveryList name f SUBSCRIBE_INNER_SERVICE in
        match o with None => sret SOFTBUS_DISCOVER_MANAGER_ITEM_NOT_CREATE | Some _ => sret SOFTBUS_OK end
    end.

(** ** Removal of everything of a package, or of all packages *)

Definition drop_info (a : nat) (type : ServiceType) (i : nat) : SF Disc unit :=
  let* it := get_item a in
  put_item a (it <| InfoList := remove i (InfoList it) |>) ;;
  DeleteInfoFromCapability i type ;;
  ReleaseInfoNodeMem i type.

Definition drop_item (w : which) (type : ServiceType) (pkgName : Datatypes.option string) (a : nat) : SF Disc unit :=
  let* it := get_item a in
  if match pkgName with None => false | Some n => negb (bool_decide (packageName it = n)) end then sret tt
  else
    sfor (InfoList it) (drop_info a type) ;;
    let* l := read_list w in
    smodify (set_list w (Some (mkList (remove a (elems l)) (u32 (cnt l - 1))))) ;;
    free_item a.

Definition DiscMgrInfoListDeinit (lock : bool) (w : which) (type : ServiceType) (pkgName : Datatypes.option string) : SF Disc unit :=
  let* l := read_list w in
  if negb lock then sret tt else sfor (elems l) (drop_item w type pkgName).

Definition DiscMgrDeathCallback (lock1 lock2 : bool) (pkgName : Datatypes.option string) : SF Disc unit :=
  let* b := sgets g_isInited in
  match pkgName with
  | None => sret tt
  | Some _ =>
      if negb b then sret tt
      else
        DiscMgrInfoListDeinit lock1 PublishList PUBLISH_SERVICE pkgName ;;
        DiscMgrInfoListDeinit lock2 DiscoveryList SUBSCRIBE_SERVICE pkgName
  end.

(** [None] when the allocation fails. *)
Definition ModuleIdToPackageName (r : Res) (moduleId : Z) : Datatypes.option string :=
  if negb (mem_name r) then None else g_discModuleMap !! Z.to_nat (moduleId - 1).
Definition module_ok (moduleId : Z) : bool := (MODULE_MIN <=? moduleId) && (moduleId <=? MODULE_MAX).

Definition DiscSetDiscoverCallback (r : Res) (moduleId : Z) (cb : Datatypes.option Z) : SF Disc Z :=
  match cb with
  | None => sret SOFTBUS_INVALID_PARAM
  | Some f =>
      if negb (module_ok moduleId) then sret SOFTBUS_INVALID_PARAM
      else
        let* b := sgets g_isInited in
        if negb b then sret SOFTBUS_DISCOVER_MANAGER_NOT_INIT
        else
          match ModuleIdToPackageName r moduleId with
          | None => sret SOFTBUS_DISCOVER_MANAGER_INVALID_MODULE
          | Some name => InnerSetDiscoverCallback r name f
          end
  end.

(** ** The media *)

Section media.
Context {C B Fc Fb : Type} (coapI : DiscoveryFuncInterface C) (bleI : DiscoveryFuncInterface B).
Context (DiscCoapInit : Fc -> SF C bool) (DiscCoapDeinit : SF C unit) (DiscBleInit : Fb -> SF B bool) (DiscBleDeinit : SF B unit).

(** The manager together with the states of its media. *)
Definition St : Type := Disc * C * B.
Definition on_disc {A} (m : SF Disc A) : SF St A := fun '(d, c, b) => '(a, d) ← m d; Some (a, (d, c, b)).
Definition on_coap {A} (m : SF C A) : SF St A := fun '(d, c, b) => '(a, c) ← m c; Some (a, (d, c, b)).
Definition on_ble {A} (m : SF B A) : SF St A := fun '(d, c, b) => '(a, b) ← m b; Some (a, (d, c, b)).

Definition DiscInterfaceProcess {D} (I : DiscoveryFuncInterface D) (mode : Z) (type : InterfaceFuncType) (o : InnerOption) : SF D Z :=
  match type, o with
  | PUBLISH_FUNC, publishOption o => if mode =? DISCOVER_MODE_ACTIVE then Publish I o else StartScan I o
  | UNPUBLISH_FUNC, publishOption o => if mode =? DISCOVER_MODE_ACTIVE then Unpublish I o else StopScan I o
  | STARTDISCOVERTY_FUNC, subscribeOption o => if mode =? DISCOVER_MODE_ACTIVE then StartAdvertise I o else Subscribe I o
  | STOPDISCOVERY_FUNC, subscribeOption o => if mode =? DISCOVER_MODE_ACTIVE then StopAdvertise I o else Unsubscribe I o
  | _, _ => fault
  end.

Definition coap_process (i : DiscInfo) (type : InterfaceFuncType) : SF St Z :=
  let* p := on_disc (sgets g_discCoapInterface) in
  if negb p then sret SOFTBUS_DISCOVER_MANAGER_INNERFUNCTION_FAIL
  else on_coap (DiscInterfaceProcess coapI (mode i) type (option i)).
Definition ble_process (i : DiscInfo) (type : InterfaceFuncType) : SF St Z :=
  let* p := on_disc (sgets g_discBleInterface) in
  if negb p then sret SOFTBUS_DISCOVER_MANAGER_INNERFUNCTION_FAIL
  else on_ble (DiscInterfaceProcess bleI (mode i) type (option i)).

Definition by_medium (i : DiscInfo) (type : InterfaceFuncType) : SF St Z :=
  if medium i =? COAP then coap_process i type
  else if medium i =? BLE then ble_process i type
  else if medium i =? AUTO then
    let* ret := coap_process i type in
    sret (if ret =? SOFTBUS_OK then SOFTBUS_OK else SOFTBUS_DISCOVER_MANAGER_INNERFUNCTION_FAIL)
  else sret SOFTBUS_DISCOVER_MANAGER_INNERFUNCTION_FAIL.

(** The result is recorded. *)
Definition DiscInterfaceByMedium (a : nat) (type : InterfaceFuncType) : SF St Z :=
  let* i := on_disc (get_info a) in
  let* r := by_medium i type in
  on_disc (smodify (fun s => s <| calls := calls s ++ [MCall (medium i) type (option i) r] |>)) ;;
  sret r.

Definition InnerPublishService (r : Res) (name : string) (i : nat) (type : ServiceType) : SF St Z :=
  let* ret := on_disc (AddInfoToList r PublishList name 0 i type) in
  if negb (ret =? SOFTBUS_OK) then sret ret else DiscInterfaceByMedium i PUBLISH_FUNC.

Definition InnerUnPublishService (r : Res) (name : string) (n : Z) (type : ServiceType) : SF St Z :=
  let* o := on_disc (DeleteInfoFromList r PublishList name n type) in
  match o with
  | None => sret SOFTBUS_DISCOVER_MANAGER_INFO_NOT_DELETE
  | Some i =>
      let* ret := DiscInterfaceByMedium i UNPUBLISH_FUNC in
      if negb (ret =? SOFTBUS_OK) then sret ret
      else on_disc (ReleaseInfoNodeMem i type) ;; sret SOFTBUS_OK
  end.

(** [cb] is [None] for a NULL argument. *)
Definition InnerStartDiscovery (r : Res) (name : string) (i : nat) (cb : Datatypes.option Z) (type : ServiceType) : SF St Z :=
  let* ret := on_disc (AddInfoToList r DiscoveryList name (default 0 cb) i type) in
  if negb (ret =? SOFTBUS_OK) then sret ret else DiscInterfaceByMedium i STARTDISCOVERTY_FUNC.

Definition InnerStopDiscovery (r : Res) (name : string) (n : Z) (type : ServiceType) : SF St Z :=
  let* o := on_disc (DeleteInfoFromList r DiscoveryList name n type) in
  match o with
  | None => sret SOFTBUS_DISCOVER_MANAGER_INFO_NOT_DELETE
  | Some i =>
      let* ret := DiscInterfaceByMedium i STOPDISCOVERY_FUNC in
      if negb (ret =? SOFTBUS_OK) then sret ret
      else on_disc (ReleaseInfoNodeMem i type) ;; sret SOFTBUS_OK
  end.

(** ** The interface for modules *)

Definition publish_inner (r : Res) (moduleId : Z) (info : Datatypes.option PublishInnerInfo) (mode : Z) : SF St Z :=
  match info with
  | None => sret SOFTBUS_INVALID_PARAM
  | Some info =>
      if negb (module_ok moduleId) then sret SOFTBUS_INVALID_PARAM
      else
        let* c := slift (PublishInnerInfoCheck info) in
        if negb (c =? SOFTBUS_OK) then sret SOFTBUS_INVALID_PARAM
        else
          let* b := on_disc (sgets g_isInited) in
          if negb b then sret SOFTBUS_DISCOVER_MANAGER_NOT_INIT
          else
            match ModuleIdToPackageName r moduleId with
            | None => sret SOFTBUS_DISCOVER_MANAGER_INVALID_MODULE
            | Some name =>
                let* o := on_disc (CreateNewPublishInnerInfoNode r info mode) in
                match o with
                | None => sret SOFTBUS_DISCOVER_MANAGER_INFO_NOT_CREATE
                | Some i =>
                    let* ret := InnerPublishService r name i PUBLISH_INNER_SERVICE in
                    if negb (ret =? SOFTBUS_OK) then on_disc (ReleaseInfoNodeMem i PUBLISH_INNER_SERVICE) ;; sret ret
                    else sret SOFTBUS_OK
                end
            end
  end.
Definition DiscPublish (r : Res) (moduleId : Z) (info : Datatypes.option PublishInnerInfo) : SF St Z :=
  publish_inner r moduleId info DISCOVER_MODE_ACTIVE.
Definition DiscStartScan (r : Res) (moduleId : Z) (info : Datatypes.option PublishInnerInfo) : SF St Z :=
  publish_inner r moduleId info DISCOVER_MODE_PASSIVE.

Definition DiscUnpublish (r : Res) (moduleId n : Z) : SF St Z :=
  if negb (module_ok moduleId) then sret SOFTBUS_INVALID_PARAM
  else
    let* b := on_disc (sgets g_isInited) in
    if negb b then sret SOFTBUS_DISCOVER_MANAGER_NOT_INIT
    else
      match ModuleIdToPackageName r moduleId with
      | None => sret SOFTBUS_DISCOVER_MANAGER_INVALID_MODULE
      | Some name => InnerUnPublishService r name n PUBLISH_INNER_SERVICE
      end.

Definition subscribe_inner (r : Res) (moduleId : Z) (info : Datatypes.option SubscribeInnerInfo) (mode no_name : Z) : SF St Z :=
  match info with
  | None => sret SOFTBUS_INVALID_PARAM
  | Some info =>
      if negb (module_ok moduleId) then sret SOFTBUS_INVALID_PARAM
      else
        let* c := slift (SubscribeInnerInfoCheck info) in
        if negb (c =? SOFTBUS_OK) then sret SOFTBUS_INVALID_PARAM
        else
          let* b := on_disc (sgets g_isInited) in
          if negb b then sret SOFTBUS_DISCOVER_MANAGER_NOT_INIT
          else
            match ModuleIdToPackageName r moduleId with
            | None => sret no_name
            | Some name =>
                let* o := on_disc (CreateNewSubscribeInnerInfoNode r info mode) in
                match o with
                | None => sret SOFTBUS_DISCOVER_MANAGER_INFO_NOT_CREATE
                | Some i =>
                    let* ret := InnerStartDiscovery r name i None SUBSCRIBE_INNER_SERVICE in
                    if negb (ret =? SOFTBUS_OK) then on_disc (ReleaseInfoNodeMem i SUBSCRIBE_INNER_SERVICE) ;; sret ret
                    else sret SOFTBUS_OK
                end
            end
  end.
Definition DiscStartAdvertise (r : Res) (moduleId : Z) (info : Datatypes.option SubscribeInnerInfo) : SF St Z :=
  subscribe_inner r moduleId info DISCOVER_MODE_ACTIVE SOFTBUS_DISCOVER_MANAGER_INVALID_MODULE.
Definition DiscSubscribe (r : Res) (moduleId : Z) (info : Datatypes.option SubscribeInnerInfo) : SF St Z :=
  subscribe_inner r moduleId info DISCOVER_MODE_PASSIVE SOFTBUS_DISCOVER_MANAGER_INVALID_PKGNAME.

Definition DiscStopAdvertise (r : Res) (moduleId n : Z) : SF St Z :=
  if negb (module_ok moduleId) then sret SOFTBUS_INVALID_PARAM
  else
    let* b := on_disc (sgets g_isInited) in
    if negb b then sret SOFTBUS_DISCOVER_MANAGER_NOT_INIT
    else
      match ModuleIdToPackageName r moduleId with
      | None => sret SOFTBUS_DISCOVER_MANAGER_INVALID_PKGNAME
      | Some name => InnerStopDiscovery r name n SUBSCRIBE_INNER_SERVICE
      end.

(** ** The interface for applications *)

Definition DiscPublishService (r : Res) (packageName : Datatypes.option string) (info : Datatypes.option PublishInfo) : SF St Z :=
  match packageName, info with
  | Some name, Some info =>
      let* ret := slift (PublishInfoCheck name info) in
      if negb (ret =? SOFTBUS_OK) then sret ret
      else
        let* b := on_disc (sgets g_isInited) in
        if negb b then sret SOFTBUS_DISCOVER_MANAGER_NOT_INIT
        else
          let* o := on_disc (CreateNewPublishInfoNode r info) in
          match o with
          | None => sret SOFTBUS_DISCOVER_MANAGER_INFO_NOT_CREATE
          | Some i =>
              let* ret := InnerPublishService r name i PUBLISH_SERVICE in
              if negb (ret =? SOFTBUS_OK) then on_disc (ReleaseInfoNodeMem i PUBLISH_SERVICE) ;; sret ret
              else sret SOFTBUS_OK
          end
  | _, _ => sret SOFTBUS_INVALID_PARAM
  end.

Definition name_fits (packageName : string) : bool := Z.of_nat (String.length packageName) <? PKG_NAME_SIZE_MAX.

Definition DiscUnPublishService (r : Res) (packageName : Datatypes.option string) (n : Z) : SF St Z :=
  match packageName with
  | None => sret SOFTBUS_INVALID_PARAM
  | Some name =>
      if negb (name_fits name) then sret SOFTBUS_INVALID_PARAM
      else
        let* b := on_disc (sgets g_isInited) in
        if negb b then sret SOFTBUS_DISCOVER_MANAGER_NOT_INIT
        else InnerUnPublishService r name n PUBLISH_SERVICE
  end.

Definition DiscStartDiscovery (r : Res) (packageName : Datatypes.option string) (info : Datatypes.option SubscribeInfo)
    (cb : Datatypes.option Z) : SF St Z :=
  match packageName, info, cb with
  | Some name, Some info, Some f =>
      let* ret := slift (SubscribeInfoCheck name info) in
      if negb (ret =? SOFTBUS_OK) then sret ret
      else
        let* b := on_disc (sgets g_isInited) in
        if negb b then sret SOFTBUS_DISCOVER_MANAGER_NOT_INIT
        else
          let* o := on_disc (CreateNewSubscribeInfoNode r info) in
          match o with
          | None => sret SOFTBUS_DISCOVER_MANAGER_INFO_NOT_CREATE
          | Some i =>
              let* ret := InnerStartDiscovery r name i (Some f) SUBSCRIBE_SERVICE in
              if negb (ret =? SOFTBUS_OK) then on_disc (ReleaseInfoNodeMem i SUBSCRIBE_SERVICE) ;; sret ret
              else sret SOFTBUS_OK
          end
  | _, _, _ => sret SOFTBUS_INVALID_PARAM
  end.

Definition DiscStopDiscovery (r : Res) (packageName : Datatypes.option string) (n : Z) : SF St Z :=
  match packageName with
  | None => sret SOFTBUS_INVALID_PARAM
  | Some name =>
      if negb (name_fits name) then sret SOFTBUS_INVALID_PARAM
      else
        let* b := on_disc (sgets g_isInited) in
        if negb b then sret SOFTBUS_DISCOVER_MANAGER_NOT_INIT
        else InnerStopDiscovery r name n SUBSCRIBE_SERVICE
  end.

Definition DiscLinkStatusChanged (status medium : Z) : SF St unit :=
  if medium =? COAP then
    let* p := on_disc (sgets g_discCoapInterface) in
    if negb p then sret tt else on_coap (LinkStatusChanged coapI status)
  else sret tt.

(** ** Start and end *)

(** [mem1], [mem2]: whether the two lists can be created. *)
Definition DiscMgrInit (fc : Fc) (fb : Fb) (mem1 mem2 : bool) : SF St Z :=
  let* b := on_disc (sgets g_isInited) in
  if b then sret SOFTBUS_OK
  else
    let* p := on_coap (DiscCoapInit fc) in
    on_disc (smodify (fun s => s <| g_discCoapInterface := p |>)) ;;
    let* q := on_ble (DiscBleInit fb) in
    on_disc (smodify (fun s => s <| g_discBleInterface := q |>)) ;;
    if negb p && negb q then sret SOFTBUS_ERR
    else
      on_disc (smodify (fun s => set_list DiscoveryList (if mem2 then Some (mkList [] 0) else None)
                                  (set_list PublishList (if mem1 then Some (mkList [] 0) else None) s))) ;;
      if negb mem1 || negb mem2 then sret SOFTBUS_ERR
      else
        on_disc (smodify (fun s => s <| g_capabilityList := replicate (Z.to_nat CAPABILITY_MAX_BITNUM) ([] : list nat) |>
                                    <| g_isInited := true |>)) ;;
        sret SOFTBUS_OK.

Definition DiscMgrDeinit (lock1 lock2 : bool) : SF St unit :=
  let* b := on_disc (sgets g_isInited) in
  if negb b then sret tt
  else
    on_disc (DiscMgrInfoListDeinit lock1 PublishList PUBLISH_SERVICE None) ;;
    on_disc (DiscMgrInfoListDeinit lock2 DiscoveryList SUBSCRIBE_SERVICE None) ;;
    on_disc (smodify (fun s => set_list DiscoveryList None (set_list PublishList None s))) ;;
    on_disc (smodify (fun s => s <| g_discCoapInterface := false |> <| g_discBleInterface := false |>)) ;;
    on_coap DiscCoapDeinit ;;
    on_ble DiscBleDeinit ;;
    on_disc (smodify (fun s => s <| g_isInited := false |>)).
End media.
End DiscManager.
