(* ===== verification/DiscRegistry.v ===== *)
(** * The discovery manager: the invariant of the registry

    Which objects are alive, which lists they are in, and that every operation on
    the lists of [DiscManager] keeps this, without touching a freed object. *)

From S2P Require Import Prelude StateFault DiscMedium DiscManager.

Module DiscRegistry.
Import DiscMedium DiscManager.
#[local] Open Scope sf_scope.

#[export] Instance which_eq_dec : EqDecision which.
Proof. solve_decision. Defined.

(** ** The invariant *)

Definition lst (w : which) (s : Disc) : list nat := from_option elems [] (get_list w s).
Definition cnt_of (w : which) (s : Disc) : Z := from_option cnt 0 (get_list w s).

(** Information [i] is in an item of list [w]. *)
Definition placed (w : which) (s : Disc) (i : nat) : Prop :=
  exists a it, a ∈ lst w s /\ items s !! a = Some it /\ i ∈ InfoList it.

Definition bitmap (i : DiscInfo) : list Z :=
  match option i with publishOption o => p_capabilityBitmap o | subscribeOption o => s_capabilityBitmap o end.
Definition kind (i : DiscInfo) : which := match option i with publishOption _ => PublishList | subscribeOption _ => DiscoveryList end.

(** An information carries exactly one capability. *)
Definition info_ok (i : DiscInfo) : Prop := exists p, bitmap i = [2 ^ p] /\ 0 <= p < 8.
(** Its position. *)
Definition position (i : DiscInfo) : Z := first_bit (default 0 (head (bitmap i))).

Definition names (s : Disc) (l : list nat) : list (Datatypes.option string) := (fun a => packageName <$> items s !! a) <$> l.
Definition ids (s : Disc) (l : list nat) : list (Datatypes.option Z) := (fun i => id <$> infos s !! i) <$> l.

(** [X] are the informations that are allocated but in no list; the counter of item
    [Y] is not kept up while the item is taken apart. *)
Record inv (X : gset nat) (Y : Datatypes.option nat) (s : Disc) : Prop := {
  v_list w : is_Some (get_list w s);
  v_names w : NoDup (names s (lst w s));
  v_cnt w : cnt_of w s = Z.of_nat (length (lst w s));
  v_items a : is_Some (items s !! a) <-> a ∈ lst PublishList s \/ a ∈ lst DiscoveryList s;
  v_disj a : a ∈ lst PublishList s -> a ∈ lst DiscoveryList s -> False;
  v_num a it : items s !! a = Some it -> Y <> Some a -> infoNum it = Z.of_nat (length (InfoList it));
  v_ids a it : items s !! a = Some it -> NoDup (ids s (InfoList it));
  v_info w a it i : a ∈ lst w s -> items s !! a = Some it -> i ∈ InfoList it ->
    exists inf, infos s !! i = Some inf /\ item inf = Some a /\ kind inf = w;
  v_infos i inf : infos s !! i = Some inf -> info_ok inf /\ (i ∈ X \/ placed (kind inf) s i);
  v_free i : i ∈ X -> is_Some (infos s !! i) /\ forall w, ~ placed w s i;
  v_caps : length (g_capabilityList s) = 8%nat;
  v_cap p l : g_capabilityList s !! Z.to_nat p = Some l -> 0 <= p -> NoDup l /\
    forall i, i ∈ l <-> placed DiscoveryList s i /\ exists inf, infos s !! i = Some inf /\ position inf = p;
  v_fresh a : is_Some (items s !! a) \/ is_Some (infos s !! a) -> (a < next s)%nat }.

(** The number of objects ever allocated stays below the counters' range. *)
Definition small (s : Disc) : Prop := Z.of_nat (next s) < 2 ^ 31.

(** ** First bits *)

Lemma bit_set p q : 0 <= p < 8 -> 0 <= q < 8 -> IsBitmapSet (2 ^ p) q = (q =? p).
Proof.
  intros Hp Hq. unfold IsBitmapSet, CAPABILITY_MAX_BITNUM. replace (q >? 8) with false by bool_lia.
  assert (0 < 2 ^ q < 2 ^ 32) as Hr by (split; [lia|apply Z.pow_lt_mono_r; lia]). rewrite Z.shiftl_1_l, u32_small by lia.
  destruct (q =? p) eqn:E.
  - assert (q = p) as -> by lia. rewrite Z.land_diag. lia.
  - apply negb_false_iff, Z.eqb_eq, Z.bits_inj'. intros n Hn. rewrite Z.land_spec, Z.bits_0, !Z.pow2_bits_eqb by lia. lia.
Qed.

Lemma first_bit_pow p : 0 <= p < 8 -> first_bit (2 ^ p) = p.
Proof.
  intros Hp. unfold first_bit, CAPABILITY_MAX_BITNUM.
  assert (list_find (fun q => IsBitmapSet (2 ^ p) q = true) (seqZ 0 8) = Some (Z.to_nat p, p)) as ->; [|done].
  apply list_find_Some. split_and!.
  - rewrite lookup_seqZ. lia.
  - rewrite bit_set by lia. lia.
  - intros j y [-> Hj]%lookup_seqZ Hlt. rewrite bit_set by lia. lia.
Qed.

Lemma position_ok i : info_ok i -> exists p, bitmap i = [2 ^ p] /\ 0 <= p < 8 /\ position i = p.
Proof. intros (p & E & Hp). exists p. unfold position. rewrite E. cbn. by rewrite first_bit_pow. Qed.

(** ** Lists of addresses *)

Lemma elem_of_remove a b l : b ∈ remove a l <-> b ∈ l /\ b <> a.
Proof. unfold remove. rewrite list_elem_of_filter. tauto. Qed.
Lemma NoDup_remove a l : NoDup l -> NoDup (remove a l).
Proof. apply NoDup_filter. Qed.
Lemma length_remove a l : NoDup l -> a ∈ l -> length l = S (length (remove a l)).
Proof.
  intros Hnd Ha. induction Hnd as [|x l Hx Hnd IH]; [by apply elem_of_nil in Ha|]. unfold remove. rewrite filter_cons.
  destruct (decide (x <> a)) as [Hne|He].
  - apply elem_of_cons in Ha as [->|Ha]; [done|]. simpl. by rewrite IH.
  - apply dec_stable in He as ->. simpl. rewrite filter_all; [done|]. intros y Hy. by intros ->.
Qed.


(** ** Changes the invariant does not see *)

Definition shape (it : DiscItem) := (packageName it, infoNum it, InfoList it).

(** Everything but callbacks, logs and the pointers to the media is the same. *)
Record same (s s' : Disc) : Prop := {
  e_list w : get_list w s' = get_list w s;
  e_items a : shape <$> items s' !! a = shape <$> items s !! a;
  e_infos : infos s' = infos s;
  e_caps : g_capabilityList s' = g_capabilityList s;
  e_next : next s' = next s }.

Lemma same_item s s' a it : same s s' -> items s' !! a = Some it -> exists it0, items s !! a = Some it0 /\ shape it0 = shape it.
Proof.
  intros He Hit. pose proof (e_items _ _ He a) as H. rewrite Hit in H. simpl in H. symmetry in H.
  apply fmap_Some in H as (it0 & H1 & H2). eauto.
Qed.

Lemma same_sym s s' : same s s' -> same s' s.
Proof. intros []. constructor; congruence. Qed.

Lemma same_lst s s' w : same s s' -> lst w s' = lst w s.
Proof. intros He. unfold lst. by rewrite (e_list _ _ He). Qed.

Lemma same_placed w s s' i : same s s' -> placed w s' i <-> placed w s i.
Proof.
  assert (forall s s', same s s' -> placed w s' i -> placed w s i) as H.
  { clear s s'. intros s s' He (a & it & Ha & Hit & Hi). destruct (same_item s s' a it He Hit) as (it0 & Hit0 & Hs).
    exists a, it0. rewrite <- (same_lst _ _ w He). split; [done|]. split; [done|]. injection Hs as _ _ E3. by rewrite E3. }
  intros He. split; apply H; [done|by apply same_sym].
Qed.

Lemma inv_same X Y s s' : same s s' -> inv X Y s -> inv X Y s'.
Proof.
  intros He []. assert (forall w, lst w s' = lst w s) as Hl by (intros w; by apply same_lst).
  assert (forall l, names s' l = names s l) as Hn.
  { intros l. unfold names. apply list_fmap_ext. intros k a _. pose proof (e_items _ _ He a) as H.
    destruct (items s' !! a), (items s !! a); unfold shape in H; simpl in *; congruence. }
  assert (forall l, ids s' l = ids s l) as Hi by (intros l; unfold ids; by rewrite (e_infos _ _ He)).
  assert (forall a, is_Some (items s' !! a) <-> is_Some (items s !! a)) as Hsome.
  { intros a. pose proof (e_items _ _ He a) as H. split; intros [it Hit]; rewrite Hit in H; simpl in H; [symmetry in H|];
      apply fmap_Some in H as (? & -> & _); eauto. }
  constructor.
  - intros w. by rewrite (e_list _ _ He).
  - intros w. by rewrite Hl, Hn.
  - intros w. unfold cnt_of. rewrite Hl, (e_list _ _ He). apply v_cnt0.
  - intros a. rewrite Hsome, !Hl. apply v_items0.
  - intros a. rewrite !Hl. apply v_disj0.
  - intros a it Hit HY. destruct (same_item _ _ _ _ He Hit) as (it0 & Hit0 & [= E1 E2 E3]). rewrite <- E2, <- E3. by eapply v_num0.
  - intros a it Hit. destruct (same_item _ _ _ _ He Hit) as (it0 & Hit0 & [= E1 E2 E3]). rewrite Hi, <- E3. by eapply v_ids0.
  - intros w a it i Ha Hit Hin. destruct (same_item _ _ _ _ He Hit) as (it0 & Hit0 & [= E1 E2 E3]). rewrite Hl in Ha. rewrite <- E3 in Hin.
    rewrite (e_infos _ _ He). by eapply v_info0.
  - intros i inf Hinf. rewrite (e_infos _ _ He) in Hinf. rewrite same_placed by done. by apply v_infos0.
  - intros i HX. rewrite (e_infos _ _ He). destruct (v_free0 i HX) as [H1 H2]. split; [done|]. intros w. by rewrite same_placed.
  - by rewrite (e_caps _ _ He).
  - intros p l Hl' Hp. rewrite (e_caps _ _ He) in Hl'. destruct (v_cap0 p l Hl' Hp) as [H1 H2]. split; [done|].
    intros i. rewrite same_placed, (e_infos _ _ He) by done. apply H2.
  - intros a. rewrite Hsome, (e_infos _ _ He), (e_next _ _ He). apply v_fresh0.
Qed.

(** ** Informations outside the lists *)

(** Only the heap of informations changes. *)
Record only_infos (s s' : Disc) : Prop := {
  o_list w : get_list w s' = get_list w s;
  o_items : items s' = items s;
  o_caps : g_capabilityList s' = g_capabilityList s;
  o_next : (next s <= next s')%nat }.

Lemma only_placed w s s' i : only_infos s s' -> placed w s' i <-> placed w s i.
Proof. intros []. unfold placed, lst. by rewrite o_list0, o_items0. Qed.

(** The informations that are in lists are the same. *)
Lemma inv_infos X X' Y s s' : only_infos s s' -> inv X Y s ->
  (forall w i, placed w s i -> infos s' !! i = infos s !! i) ->
  (forall i inf, infos s' !! i = Some inf -> info_ok inf /\ (i ∈ X' \/ placed (kind inf) s i)) ->
  (forall i, i ∈ X' -> is_Some (infos s' !! i) /\ forall w, ~ placed w s i) ->
  (forall i, is_Some (infos s' !! i) -> (i < next s')%nat) -> inv X' Y s'.
Proof.
  intros Ho [] Hsame Hall Hfree Hfresh. pose proof Ho as [Hlist Hitems Hcaps Hnext].
  assert (forall w, lst w s' = lst w s) as Hl by (intros w; unfold lst; by rewrite Hlist).
  constructor.
  - intros w. by rewrite Hlist.
  - intros w. rewrite Hl. unfold names. rewrite Hitems. apply v_names0.
  - intros w. unfold cnt_of. rewrite Hl, Hlist. apply v_cnt0.
  - intros a. rewrite Hitems, !Hl. apply v_items0.
  - intros a. rewrite !Hl. apply v_disj0.
  - rewrite Hitems. apply v_num0.
  - intros a it Hit. rewrite Hitems in Hit. unfold ids. erewrite (list_fmap_ext _ _ (InfoList it)); [by eapply v_ids0|].
    intros k i Hi%list_elem_of_lookup_2. assert (is_Some (items s !! a)) as Ha by eauto. apply v_items0 in Ha as [Ha|Ha];
      erewrite Hsame; try reflexivity; by exists a, it.
  - intros w a it i. rewrite Hl, Hitems. intros Ha Hit Hi. rewrite (Hsame w) by (by exists a, it). by eapply v_info0.
  - intros i inf Hi. rewrite only_placed by done. by apply Hall.
  - intros i Hi. destruct (Hfree i Hi) as [H1 H2]. split; [done|]. intros w. by rewrite only_placed.
  - by rewrite Hcaps.
  - intros p l Hp H0. rewrite Hcaps in Hp. destruct (v_cap0 p l Hp H0) as [H1 H2]. split; [done|]. intros i.
    rewrite only_placed, H2 by done. split; intros [H3 H4]; (split; [done|]).
    + by rewrite (Hsame _ _ H3).
    + by rewrite <- (Hsame _ _ H3).
  - intros a. rewrite Hitems. intros [Ha|Ha]; [|by apply Hfresh]. assert (a < next s)%nat by (apply v_fresh0; by left). lia.
Qed.

Lemma placed_info w s i X Y : inv X Y s -> placed w s i -> exists inf, infos s !! i = Some inf /\ kind inf = w.
Proof. intros [] (a & it & Ha & Hit & Hi). destruct (v_info0 w a it i Ha Hit Hi) as (inf & H1 & _ & H2). eauto. Qed.

Lemma inv_alloc X Y s s' a inf : only_infos s s' -> inv X Y s -> infos s' = <[a := inf]> (infos s) -> infos s !! a = None ->
  (a < next s')%nat -> info_ok inf -> inv ({[a]} ∪ X) Y s'.
Proof.
  intros Ho Hi E Hnone Ha Hok. assert (forall w, ~ placed w s a) as Hnp.
  { intros w Hp. destruct (placed_info _ _ _ _ _ Hi Hp) as (? & ? & _). congruence. }
  apply (inv_infos X _ _ s); try done; rewrite ?E.
  - intros w i Hp. rewrite lookup_insert_ne; [done|]. intros ->. by apply (Hnp w).
  - intros i inf' H. apply lookup_insert_Some in H as [[<- <-]|[Hne H]]; [split; [done|left; set_solver]|].
    destruct (v_infos _ _ _ Hi i inf' H) as [? [?|?]]; split; try done; [left; set_solver|by right].
  - intros i [->%elem_of_singleton|HX]%elem_of_union; [split; [by rewrite lookup_insert_eq|done]|].
    destruct (v_free _ _ _ Hi i HX) as [H1 H2]. split; [|done]. rewrite lookup_insert_ne; [done|]. intros ->. rewrite Hnone in H1. by destruct H1.
  - intros i [inf' H]. pose proof (o_next _ _ Ho). apply lookup_insert_Some in H as [[<- _]|[_ H]]; [done|].
    assert (i < next s)%nat by (apply (v_fresh _ _ _ Hi); right; eauto). lia.
Qed.

Lemma inv_release X Y s s' i : only_infos s s' -> inv X Y s -> i ∈ X -> infos s' = delete i (infos s) -> inv (X ∖ {[i]}) Y s'.
Proof.
  intros Ho Hi HX E. destruct (v_free _ _ _ Hi i HX) as [_ Hnp]. apply (inv_infos X _ _ s); try done; rewrite ?E.
  - intros w j Hp. rewrite lookup_delete_ne; [done|]. intros ->. by apply (Hnp w).
  - intros j inf H. apply lookup_delete_Some in H as [Hne H]. destruct (v_infos _ _ _ Hi j inf H) as [? [?|?]]; split; try done; [left; set_solver|by right].
  - intros j [HjX Hne]%elem_of_difference. destruct (v_free _ _ _ Hi j HjX) as [H1 H2]. split; [|done].
    rewrite lookup_delete_ne; [done|]. set_solver.
  - intros j [inf H]. pose proof (o_next _ _ Ho). apply lookup_delete_Some in H as [_ H].
    assert (j < next s)%nat by (apply (v_fresh _ _ _ Hi); right; eauto). lia.
Qed.

Lemma inv_nothing X Y s s' : only_infos s s' -> inv X Y s -> infos s' = infos s -> inv X Y s'.
Proof.
  intros Ho Hi E. apply (inv_infos X _ _ s); rewrite ?E; try done.
  - apply Hi.
  - apply Hi.
  - intros i H. pose proof (o_next _ _ Ho). assert (i < next s)%nat by (apply (v_fresh _ _ _ Hi); by right). lia.
Qed.

(** ** Items *)

Lemma lst_item X Y s w a : inv X Y s -> a ∈ lst w s -> exists it, items s !! a = Some it.
Proof. intros Hi Ha. destruct (proj2 (v_items _ _ _ Hi a)) as [it Hit]; [destruct w; auto|]. eauto. Qed.

(** An address is in at most one list. *)
Lemma lst_inj X Y s w w' a : inv X Y s -> a ∈ lst w s -> a ∈ lst w' s -> w = w'.
Proof. intros Hi H1 H2. pose proof (v_disj _ _ _ Hi a). destruct w, w'; tauto. Qed.

Lemma inv_lst_nodup X Y s w : inv X Y s -> NoDup (lst w s).
Proof. intros Hi. by eapply NoDup_fmap_1, (v_names _ _ _ Hi w). Qed.
Lemma inv_infolist_nodup X Y s a it : inv X Y s -> items s !! a = Some it -> NoDup (InfoList it).
Proof. intros Hi Hit. by eapply NoDup_fmap_1, (v_ids _ _ _ Hi a it). Qed.

(** List [w] and the heap of items change. *)
Record item_change (w : which) (s s' : Disc) : Prop := {
  c_list : is_Some (get_list w s');
  c_other w' : w' <> w -> get_list w' s' = get_list w' s;
  c_infos : infos s' = infos s;
  c_caps : g_capabilityList s' = g_capabilityList s;
  c_next : (next s <= next s')%nat }.

Lemma item_change_lst w w' s s' : item_change w s s' -> w' <> w -> lst w' s' = lst w' s /\ cnt_of w' s' = cnt_of w' s.
Proof. intros [] Hne. unfold lst, cnt_of. by rewrite c_other0. Qed.

Lemma inv_new_item X Y s s' w a it : item_change w s s' -> inv X Y s ->
  items s' = <[a := it]> (items s) -> items s !! a = None -> InfoList it = [] -> infoNum it = 0 -> (a < next s')%nat ->
  (forall b itb, b ∈ lst w s -> items s !! b = Some itb -> packageName itb <> packageName it) ->
  lst w s' ≡ₚ a :: lst w s -> cnt_of w s' = cnt_of w s + 1 -> inv X Y s'.
Proof.
  intros Hc Hi E Hnone Hil Hnum Ha Hname Hl Hcnt. pose proof Hc as [Hlist Hother Hinfos Hcaps Hnext].
  assert (forall w' b, b ∈ lst w' s' <-> b ∈ lst w' s \/ (b = a /\ w' = w)) as Hin.
  { intros w' b. destruct (decide (w' = w)) as [->|Hne].
    - rewrite Hl, elem_of_cons. tauto.
    - rewrite (proj1 (item_change_lst _ _ _ _ Hc Hne)). tauto. }
  assert (forall w', a ∉ lst w' s) as Hna by (intros w' Hin'; destruct (lst_item _ _ _ _ _ Hi Hin'); congruence).
  assert (forall w' i, placed w' s' i <-> placed w' s i) as Hp.
  { intros w' i. unfold placed. setoid_rewrite Hin. rewrite E. split.
    - intros (b & itb & Hb & Hit & Hi'). apply lookup_insert_Some in Hit as [[<- <-]|[Hne Hit]]; [rewrite Hil in Hi'; by apply elem_of_nil in Hi'|].
      destruct Hb as [Hb|[-> _]]; [|done]. by exists b, itb.
    - intros (b & itb & Hb & Hit & Hi'). exists b, itb. split; [by left|]. split; [|done]. rewrite lookup_insert_ne; [done|]. intros ->. congruence. }
  assert (forall w', names s' (lst w' s) = names s (lst w' s)) as Hnames.
  { intros w'. apply list_fmap_ext. intros k b Hb%list_elem_of_lookup_2. rewrite E, lookup_insert_ne; [done|]. intros ->. by apply (Hna w'). }
  destruct Hi as [? ? ? ? ? ? ? ? ? ? ? ? ?]. constructor.
  - intros w'. destruct (decide (w' = w)) as [->|Hne]; [done|]. by rewrite Hother.
  - intros w'. destruct (decide (w' = w)) as [->|Hne]; [|by rewrite (proj1 (item_change_lst _ _ _ _ Hc Hne)), Hnames].
    unfold names. rewrite Hl. fold (names s' (a :: lst w s)). unfold names at 1. rewrite fmap_cons. apply NoDup_cons. split.
    + rewrite E, lookup_insert_eq. simpl. intros (b & Hb & Hbw)%list_elem_of_fmap. rewrite lookup_insert_ne in Hb by (intros ->; by apply (Hna w)).
      symmetry in Hb. apply fmap_Some in Hb as (itb & Hitb & Heq). by apply (Hname b itb).
    + fold (names s' (lst w s)). by rewrite Hnames.
  - intros w'. destruct (decide (w' = w)) as [->|Hne].
    + rewrite Hcnt, v_cnt0, Hl. simpl. lia.
    + destruct (item_change_lst _ _ _ _ Hc Hne) as [-> ->]. apply v_cnt0.
  - intros b. rewrite !Hin, E. destruct (decide (b = a)) as [->|Hne].
    + rewrite lookup_insert_eq. split; [|done]. intros _. destruct w; tauto.
    + rewrite lookup_insert_ne, v_items0 by done. tauto.
  - intros b. rewrite !Hin. intros [H1|[E1 H1]] [H2|[E2 H2]]; [by eapply v_disj0|subst b; by apply Hna in H1|subst b; by apply Hna in H2|congruence].
  - intros b itb Hit HY. rewrite E in Hit. apply lookup_insert_Some in Hit as [[<- <-]|[Hne Hit]]; [by rewrite Hnum, Hil|by eapply v_num0].
  - intros b itb Hit. rewrite E in Hit. unfold ids. rewrite Hinfos. apply lookup_insert_Some in Hit as [[<- <-]|[Hne Hit]]; [rewrite Hil; by constructor|].
    by apply v_ids0 in Hit.
  - intros w' b itb i Hb Hit Hi'. rewrite Hinfos. rewrite E in Hit. apply lookup_insert_Some in Hit as [[<- <-]|[Hne Hit]]; [rewrite Hil in Hi'; by apply elem_of_nil in Hi'|].
    apply Hin in Hb as [Hb|[-> _]]; [|done]. by eapply v_info0.
  - intros i inf Hinf. rewrite Hinfos in Hinf. rewrite Hp. by apply v_infos0.
  - intros i HX. rewrite Hinfos. setoid_rewrite Hp. by apply v_free0.
  - by rewrite Hcaps.
  - intros p l Hpl H0. rewrite Hcaps in Hpl. rewrite Hinfos. setoid_rewrite Hp. by apply v_cap0.
  - intros b. rewrite E, Hinfos. intros [Hb|Hb].
    + destruct (decide (b = a)) as [->|Hne]; [done|]. rewrite lookup_insert_ne in Hb by done. assert (b < next s)%nat by (apply v_fresh0; by left). lia.
    + assert (b < next s)%nat by (apply v_fresh0; by right). lia.
Qed.

Lemma inv_drop_item X Y s s' w a it : item_change w s s' -> inv X Y s -> Y = None \/ Y = Some a ->
  a ∈ lst w s -> items s !! a = Some it -> InfoList it = [] -> items s' = delete a (items s) ->
  lst w s' = remove a (lst w s) -> cnt_of w s' = cnt_of w s - 1 -> inv X None s'.
Proof.
  intros Hc Hi HY Ha Hit Hil E Hl Hcnt. pose proof Hc as [Hlist Hother Hinfos Hcaps Hnext].
  assert (forall w' b, b ∈ lst w' s' <-> b ∈ lst w' s /\ b <> a) as Hin.
  { intros w' b. destruct (decide (w' = w)) as [->|Hne].
    - by rewrite Hl, elem_of_remove.
    - rewrite (proj1 (item_change_lst _ _ _ _ Hc Hne)). split; [|tauto]. intros Hb. split; [done|]. intros ->. by pose proof (lst_inj _ _ _ _ _ _ Hi Ha Hb). }
  assert (forall w' i, placed w' s' i <-> placed w' s i) as Hp.
  { intros w' i. unfold placed. setoid_rewrite Hin. rewrite E. split.
    - intros (b & itb & [Hb Hne] & Hitb & Hi'). rewrite lookup_delete_ne in Hitb by done. by exists b, itb.
    - intros (b & itb & Hb & Hitb & Hi'). assert (b <> a) as Hne. { intros ->. rewrite Hit in Hitb. simplify_eq. rewrite Hil in Hi'. by apply elem_of_nil in Hi'. }
      exists b, itb. split; [done|]. by rewrite lookup_delete_ne. }
  assert (forall l, a ∉ l -> names s' l = names s l) as Hnames.
  { intros l Hal. apply list_fmap_ext. intros k b Hb%list_elem_of_lookup_2. rewrite E, lookup_delete_ne; [done|]. by intros ->. }
  assert (forall b itb, items s' !! b = Some itb -> b <> a /\ items s !! b = Some itb) as Hold.
  { intros b itb H. rewrite E in H. apply lookup_delete_Some in H. split; [|tauto]. intros ->. tauto. }
  pose proof (inv_lst_nodup _ _ _ w Hi) as Hnd. destruct Hi as [? ? ? ? ? ? ? ? ? ? ? ? ?]. constructor.
  - intros w'. destruct (decide (w' = w)) as [->|Hne]; [done|]. by rewrite Hother.
  - intros w'. destruct (decide (w' = w)) as [->|Hne].
    + rewrite Hl, Hnames by (rewrite elem_of_remove; tauto). apply NoDup_fmap_filter, v_names0.
    + rewrite (proj1 (item_change_lst _ _ _ _ Hc Hne)), Hnames; [done|]. intros Hb. assert (a ∈ lst w' s') as Hb' by (by rewrite (proj1 (item_change_lst _ _ _ _ Hc Hne))).
      apply Hin in Hb'. tauto.
  - intros w'. destruct (decide (w' = w)) as [->|Hne].
    + rewrite Hcnt, v_cnt0, Hl, (length_remove a (lst w s)) by done. lia.
    + destruct (item_change_lst _ _ _ _ Hc Hne) as [-> ->]. apply v_cnt0.
  - intros b. rewrite !Hin, E. destruct (decide (b = a)) as [->|Hne].
    + rewrite lookup_delete_eq. split; [by intros []|tauto].
    + rewrite lookup_delete_ne, v_items0 by done. tauto.
  - intros b. rewrite !Hin. intros [H1 _] [H2 _]. by eapply v_disj0.
  - intros b itb [Hne Hitb]%Hold _. eapply v_num0; [done|]. destruct HY; congruence.
  - intros b itb [Hne Hitb]%Hold. unfold ids. rewrite Hinfos. by eapply v_ids0.
  - intros w' b itb i Hb [Hne Hitb]%Hold Hi'. rewrite Hinfos. apply Hin in Hb. by eapply v_info0; [apply Hb|..].
  - intros i inf Hinf. rewrite Hinfos in Hinf. rewrite Hp. by apply v_infos0.
  - intros i HX. rewrite Hinfos. setoid_rewrite Hp. by apply v_free0.
  - by rewrite Hcaps.
  - intros p l Hpl H0. rewrite Hcaps in Hpl. rewrite Hinfos. setoid_rewrite Hp. by apply v_cap0.
  - intros b. rewrite Hinfos. intros [[itb Hb]|Hb].
    + apply Hold in Hb as [_ Hb]. assert (b < next s)%nat by (apply v_fresh0; left; eauto). lia.
    + assert (b < next s)%nat by (apply v_fresh0; by right). lia.
Qed.

(** ** Informations of an item *)

Lemma placed_unique X Y s w w' a a' it it' i : inv X Y s -> a ∈ lst w s -> items s !! a = Some it -> i ∈ InfoList it ->
  a' ∈ lst w' s -> items s !! a' = Some it' -> i ∈ InfoList it' -> a' = a.
Proof.
  intros Hi Ha Hit Hin Ha' Hit' Hin'. destruct (v_info _ _ _ Hi w a it i Ha Hit Hin) as (inf & H1 & H2 & _).
  destruct (v_info _ _ _ Hi w' a' it' i Ha' Hit' Hin') as (inf' & H1' & H2' & _). congruence.
Qed.

(** The lists and the names stay; item [a] and information [i] change. *)
Record info_change (a i : nat) (it' : DiscItem) (s s' : Disc) : Prop := {
  n_list w : get_list w s' = get_list w s;
  n_items : items s' = <[a := it']> (items s);
  n_infos j : j <> i -> infos s' !! j = infos s !! j;
  n_some : is_Some (infos s' !! i) <-> is_Some (infos s !! i);
  n_next : next s' = next s }.

Lemma change_names a i it it' s s' l : info_change a i it' s s' -> items s !! a = Some it -> packageName it' = packageName it ->
  names s' l = names s l.
Proof.
  intros [] Hit Hn. apply list_fmap_ext. intros k b _. rewrite n_items0. destruct (decide (b = a)) as [->|Hne].
  - rewrite lookup_insert_eq, Hit. simpl. by rewrite Hn.
  - by rewrite lookup_insert_ne.
Qed.

Lemma change_lst a i it' s s' w : info_change a i it' s s' -> lst w s' = lst w s /\ cnt_of w s' = cnt_of w s.
Proof. intros []. unfold lst, cnt_of. by rewrite n_list0. Qed.

Lemma change_some a i it it' s s' b : info_change a i it' s s' -> items s !! a = Some it ->
  is_Some (items s' !! b) <-> is_Some (items s !! b).
Proof.
  intros [] Hit. rewrite n_items0. destruct (decide (b = a)) as [->|Hne]; [rewrite lookup_insert_eq, Hit|by rewrite lookup_insert_ne].
  split; eauto.
Qed.

Lemma change_fresh X Y a i it it' s s' b : inv X Y s -> info_change a i it' s s' -> items s !! a = Some it ->
  is_Some (items s' !! b) \/ is_Some (infos s' !! b) -> (b < next s')%nat.
Proof.
  intros Hi Hc Hit. rewrite (change_some _ _ _ _ _ _ b Hc Hit), (n_next _ _ _ _ _ Hc). intros [Hb|Hb]; apply (v_fresh _ _ _ Hi); [by left|right].
  destruct (decide (b = i)) as [->|Hne]; [by apply (n_some _ _ _ _ _ Hc)|by rewrite <- (n_infos _ _ _ _ _ Hc)].
Qed.

Lemma ids_other a i it' s s' l : info_change a i it' s s' -> i ∉ l -> ids s' l = ids s l.
Proof.
  intros [] Hl. apply list_fmap_ext. intros k j Hj%list_elem_of_lookup_2. rewrite n_infos0; [done|]. by intros ->.
Qed.

Lemma inv_link X Y s s' w a it it' i inf inf' : info_change a i it' s s' -> inv X Y s -> Y <> Some a ->
  a ∈ lst w s -> items s !! a = Some it -> packageName it' = packageName it -> InfoList it' = InfoList it ++ [i] ->
  infoNum it' = infoNum it + 1 -> i ∈ X -> infos s !! i = Some inf -> infos s' !! i = Some inf' ->
  id inf' = id inf -> option inf' = option inf -> item inf' = Some a -> kind inf = w ->
  (forall j jnf, j ∈ InfoList it -> infos s !! j = Some jnf -> id jnf <> id inf) ->
  (match w with
   | PublishList => g_capabilityList s' = g_capabilityList s
   | DiscoveryList => exists l l', g_capabilityList s !! Z.to_nat (position inf) = Some l /\
       g_capabilityList s' = <[Z.to_nat (position inf) := l']> (g_capabilityList s) /\ l' ≡ₚ i :: l
   end) -> inv (X ∖ {[i]}) Y s'.
Proof.
  intros Hc Hi HY Ha Hit Hn Hil Hnum HX Hinf Hinf' Eid Eopt Eitem Hk Hids Hcaps.
  destruct (v_free _ _ _ Hi i HX) as [_ Hnp]. assert (forall b itb, items s !! b = Some itb -> i ∉ InfoList itb) as Hni.
  { intros b itb Hb Hin. assert (is_Some (items s !! b)) as [Hl|Hl]%(v_items _ _ _ Hi) by eauto;
      [apply (Hnp PublishList)|apply (Hnp DiscoveryList)]; by exists b, itb. }
  assert (bitmap inf' = bitmap inf /\ kind inf' = kind inf) as [Eb Ek] by (unfold bitmap, kind; by rewrite Eopt).
  assert (position inf' = position inf) as Epos by (unfold position; by rewrite Eb).
  assert (forall w' j, placed w' s' j <-> placed w' s j \/ (w' = w /\ j = i)) as Hp.
  { intros w' j. unfold placed. rewrite (proj1 (change_lst _ _ _ _ _ w' Hc)), (n_items _ _ _ _ _ Hc). split.
    - intros (b & itb & Hb & Hitb & Hj). apply lookup_insert_Some in Hitb as [[<- <-]|[Hne Hitb]]; [|left; by exists b, itb].
      rewrite Hil in Hj. apply elem_of_app in Hj as [Hj|Hj%list_elem_of_singleton]; [left; by exists a, it|right].
      split; [by eapply lst_inj|done].
    - intros [(b & itb & Hb & Hitb & Hj)|[-> ->]].
      + destruct (decide (b = a)) as [->|Hne]; [|exists b, itb; by rewrite lookup_insert_ne].
        exists a, it'. rewrite lookup_insert_eq. split; [done|]. split; [done|]. rewrite Hil. simplify_eq. set_solver.
      + exists a, it'. rewrite lookup_insert_eq. split; [done|]. split; [done|]. rewrite Hil. set_solver. }
  assert (forall b itb, items s' !! b = Some itb -> (b = a /\ itb = it') \/ (b <> a /\ items s !! b = Some itb)) as Hold.
  { intros b itb H. rewrite (n_items _ _ _ _ _ Hc) in H. apply lookup_insert_Some in H as [[<- <-]|[? ?]]; auto. }
  constructor.
  - intros w'. rewrite (n_list _ _ _ _ _ Hc). apply Hi.
  - intros w'. rewrite (change_names _ _ _ _ _ _ _ Hc Hit Hn), (proj1 (change_lst _ _ _ _ _ w' Hc)). apply Hi.
  - intros w'. destruct (change_lst _ _ _ _ _ w' Hc) as [-> ->]. apply Hi.
  - intros b. rewrite (change_some _ _ _ _ _ _ b Hc Hit), !(proj1 (change_lst _ _ _ _ _ _ Hc)). apply Hi.
  - intros b. rewrite !(proj1 (change_lst _ _ _ _ _ _ Hc)). apply Hi.
  - intros b itb [[-> ->]|[Hne Hitb]]%Hold HYb; [|by apply (v_num _ _ _ Hi b)].
    rewrite Hnum, Hil, length_app, (v_num _ _ _ Hi a it Hit HY). simpl. lia.
  - intros b itb [[-> ->]|[Hne Hitb]]%Hold; [|rewrite (ids_other _ _ _ _ _ _ Hc) by eauto; by apply (v_ids _ _ _ Hi b)].
    rewrite Hil. unfold ids. rewrite fmap_app. fold (ids s' (InfoList it)). rewrite (ids_other _ _ _ _ _ _ Hc) by eauto. apply NoDup_app. split_and!.
    + by apply (v_ids _ _ _ Hi a).
    + intros x (j & -> & Hj)%list_elem_of_fmap Hx. cbn in Hx. apply list_elem_of_singleton in Hx. rewrite Hinf' in Hx. simpl in Hx.
      apply fmap_Some in Hx as (jnf & Hjnf & Heq). apply (Hids j jnf Hj Hjnf). congruence.
    + apply NoDup_singleton.
  - intros w' b itb j Hb Hitb Hj. rewrite (proj1 (change_lst _ _ _ _ _ _ Hc)) in Hb. apply Hold in Hitb as [[-> ->]|[Hne Hitb]].
    + rewrite Hil in Hj. apply elem_of_app in Hj as [Hj|Hj%list_elem_of_singleton].
      * rewrite (n_infos _ _ _ _ _ Hc) by (intros ->; by eapply Hni). by apply (v_info _ _ _ Hi w' a it).
      * subst j. exists inf'. split; [done|]. split; [done|]. rewrite Ek, Hk. by eapply lst_inj.
    + rewrite (n_infos _ _ _ _ _ Hc) by (intros ->; by eapply Hni). by apply (v_info _ _ _ Hi w' b itb).
  - intros j jnf Hj. rewrite Hp. destruct (decide (j = i)) as [->|Hne].
    + rewrite Hinf' in Hj. simplify_eq. split; [|right; right; split; congruence].
      destruct (v_infos _ _ _ Hi i inf Hinf) as [(p & ? & ?) _]. exists p. by rewrite Eb.
    + rewrite (n_infos _ _ _ _ _ Hc) in Hj by done. destruct (v_infos _ _ _ Hi j jnf Hj) as [? [?|?]]; split; try done; [left; set_solver|right; by left].
  - intros j [HjX Hne]%elem_of_difference. assert (j <> i) by set_solver. destruct (v_free _ _ _ Hi j HjX) as [H1 H2].
    rewrite (n_infos _ _ _ _ _ Hc) by done. split; [done|]. intros w'. rewrite Hp. intros [Hpl|[_ ?]]; [by eapply H2|done].
  - destruct w; [by rewrite Hcaps; apply Hi|]. destruct Hcaps as (l & l' & _ & -> & _). rewrite length_insert. apply Hi.
  - intros p l0 Hl0 Hp0. assert (forall l, g_capabilityList s !! Z.to_nat p = Some l -> forall j, j ∈ l <->
      placed DiscoveryList s j /\ exists jnf, infos s' !! j = Some jnf /\ position jnf = p) as Hold_cap.
    { intros l Hl j. destruct (v_cap _ _ _ Hi p l Hl Hp0) as [_ H]. rewrite H. split; intros [H1 H2]; (split; [done|]).
      - assert (j <> i) by (intros ->; by eapply Hnp). by rewrite (n_infos _ _ _ _ _ Hc).
      - assert (j <> i) by (intros ->; by eapply Hnp). by rewrite <- (n_infos _ _ _ _ _ Hc). }
    destruct (position_ok inf (proj1 (v_infos _ _ _ Hi i inf Hinf))) as (q & _ & Hq & Eq).
    destruct w.
    + rewrite Hcaps in Hl0. split; [by apply (v_cap _ _ _ Hi p l0)|]. intros j. rewrite Hp, (Hold_cap l0 Hl0).
      split; [tauto|]. intros [[?|[? _]] ?]; [tauto|done].
    + destruct Hcaps as (l & l' & Hl & Ec & Hperm). rewrite Ec in Hl0. destruct (decide (p = q)) as [->|Hne].
      * rewrite Eq in Hl0, Hl. rewrite list_lookup_insert_eq in Hl0 by (by eapply lookup_lt_Some). injection Hl0 as <-. split.
        { rewrite Hperm. apply NoDup_cons. split; [|by apply (v_cap _ _ _ Hi q l)]. rewrite (Hold_cap l Hl). intros [Hpl _]. by eapply Hnp. }
        intros j. rewrite Hperm, elem_of_cons, (Hold_cap l Hl), Hp. split.
        { intros [->|[? ?]]; [|tauto]. split; [by right|]. exists inf'. split; [done|]. congruence. }
        intros [[?|[_ ->]] ?]; [by right|by left].
      * rewrite list_lookup_insert_ne in Hl0 by (rewrite Eq; lia). split; [by apply (v_cap _ _ _ Hi p l0)|].
        intros j. rewrite (Hold_cap l0 Hl0), Hp. split; [tauto|]. intros [[?|[_ ->]] (jnf & Hj & Hpj)]; [eauto|].
        rewrite Hinf' in Hj. exfalso. apply Hne. injection Hj as <-. congruence.
  - intros b. by eapply change_fresh.
Qed.

(** Information [i] leaves item [a]; the counter may wait when [Y] is the item. *)
Lemma inv_unlink X Y s s' w a it it' i : info_change a i it' s s' -> inv X Y s -> infos s' = infos s ->
  a ∈ lst w s -> items s !! a = Some it -> packageName it' = packageName it -> i ∈ InfoList it -> InfoList it' = remove i (InfoList it) ->
  (Y <> Some a -> infoNum it' = infoNum it - 1) ->
  (match w with
   | PublishList => g_capabilityList s' = g_capabilityList s
   | DiscoveryList => g_capabilityList s' = remove i <$> g_capabilityList s
   end) -> inv ({[i]} ∪ X) Y s'.
Proof.
  intros Hc Hi Einf Ha Hit Hn Hin Hil Hnum Hcaps.
  pose proof (inv_infolist_nodup _ _ _ _ _ Hi Hit) as Hnd.
  assert (forall w' j, placed w' s' j <-> placed w' s j /\ j <> i) as Hp.
  { intros w' j. unfold placed. rewrite (proj1 (change_lst _ _ _ _ _ w' Hc)), (n_items _ _ _ _ _ Hc). split.
    - intros (b & itb & Hb & Hitb & Hj). apply lookup_insert_Some in Hitb as [[<- <-]|[Hne Hitb]].
      + rewrite Hil in Hj. apply elem_of_remove in Hj as [Hj Hji]. split; [by exists a, it|done].
      + split; [by exists b, itb|]. intros ->. apply Hne. symmetry. by eapply (placed_unique X Y s w w' a b).
    - intros [(b & itb & Hb & Hitb & Hj) Hji]. destruct (decide (b = a)) as [->|Hne]; [|exists b, itb; by rewrite lookup_insert_ne].
      exists a, it'. rewrite lookup_insert_eq. split; [done|]. split; [done|]. rewrite Hil, elem_of_remove. simplify_eq. done. }
  assert (forall b itb, items s' !! b = Some itb -> (b = a /\ itb = it') \/ (b <> a /\ items s !! b = Some itb)) as Hold.
  { intros b itb H. rewrite (n_items _ _ _ _ _ Hc) in H. apply lookup_insert_Some in H as [[<- <-]|[? ?]]; auto. }
  assert (forall l, ids s' l = ids s l) as Hids by (intros l; unfold ids; by rewrite Einf).
  constructor.
  - intros w'. rewrite (n_list _ _ _ _ _ Hc). apply Hi.
  - intros w'. rewrite (change_names _ _ _ _ _ _ _ Hc Hit Hn), (proj1 (change_lst _ _ _ _ _ w' Hc)). apply Hi.
  - intros w'. destruct (change_lst _ _ _ _ _ w' Hc) as [-> ->]. apply Hi.
  - intros b. rewrite (change_some _ _ _ _ _ _ b Hc Hit), !(proj1 (change_lst _ _ _ _ _ _ Hc)). apply Hi.
  - intros b. rewrite !(proj1 (change_lst _ _ _ _ _ _ Hc)). apply Hi.
  - intros b itb [[-> ->]|[Hne Hitb]]%Hold HYb; [|by apply (v_num _ _ _ Hi b)].
    rewrite Hnum, Hil, (v_num _ _ _ Hi a it Hit HYb), (length_remove i (InfoList it)) by done. lia.
  - intros b itb [[-> ->]|[Hne Hitb]]%Hold; rewrite Hids; [|by apply (v_ids _ _ _ Hi b)].
    rewrite Hil. apply NoDup_fmap_filter. by apply (v_ids _ _ _ Hi a).
  - intros w' b itb j Hb Hitb Hj. rewrite (proj1 (change_lst _ _ _ _ _ _ Hc)) in Hb. rewrite Einf. apply Hold in Hitb as [[-> ->]|[Hne Hitb]].
    + rewrite Hil in Hj. apply elem_of_remove in Hj as [Hj _]. by apply (v_info _ _ _ Hi w' a it).
    + by apply (v_info _ _ _ Hi w' b itb).
  - intros j jnf Hj. rewrite Hp. rewrite Einf in Hj. destruct (v_infos _ _ _ Hi j jnf Hj) as [? Hor]. split; [done|].
    destruct (decide (j = i)) as [->|Hne]; [left; set_solver|]. destruct Hor; [left; set_solver|by right].
  - intros j Hj. rewrite Einf. destruct (decide (j = i)) as [->|Hne].
    + destruct (v_info _ _ _ Hi w a it i Ha Hit Hin) as (inf & H1 & _). split; [by eauto|]. intros w'. rewrite Hp. tauto.
    + assert (j ∈ X) as HjX by set_solver. destruct (v_free _ _ _ Hi j HjX) as [H1 H2]. split; [done|]. intros w'. rewrite Hp.
      intros [? _]. by eapply H2.
  - destruct w; [by rewrite Hcaps; apply Hi|]. rewrite Hcaps, length_fmap. apply Hi.
  - intros p l0 Hl0 Hp0. rewrite Einf. destruct w.
    + rewrite Hcaps in Hl0. destruct (v_cap _ _ _ Hi p l0 Hl0 Hp0) as [H1 H2]. split; [done|]. intros j. rewrite H2, Hp. split; [|tauto].
      intros [H3 H4]. split; [|done]. split; [done|]. intros ->. destruct H3 as (b & itb & Hb & Hitb & Hj).
      assert (b = a) as -> by (by eapply (placed_unique X Y s PublishList DiscoveryList a b)). by apply (v_disj _ _ _ Hi a).
    + rewrite Hcaps, list_lookup_fmap in Hl0. apply fmap_Some in Hl0 as (l & Hl & ->).
      destruct (v_cap _ _ _ Hi p l Hl Hp0) as [H1 H2]. split; [by apply NoDup_remove|]. intros j. rewrite elem_of_remove, H2, Hp. tauto.
  - intros b. by eapply change_fresh.
Qed.
End DiscRegistry.
