(* ===== verification/DiscOps.v ===== *)
(** * The discovery manager: the operations on the registry

    Each operation of [DiscManager] on the lists, from a state that satisfies the
    invariant of [DiscRegistry]: it ends without touching a freed object, keeps the
    invariant, and changes the informations in the stated way only. *)

From S2P Require Import Prelude StateFault DiscMedium DiscManager DiscRegistry.

Module DiscOps.
Import DiscMedium DiscManager DiscRegistry.
#[local] Open Scope sf_scope.

(** The postcondition of the goal gets a name, and with it the states that reach it. *)
Ltac name_post p := match goal with |- wps _ ?Q _ => set (p := Q) end.

(** ** Accesses *)

Lemma wps_get_info a i (Q : DiscInfo -> Disc -> Prop) s : infos s !! a = Some i -> Q i s -> wps (get_info a) Q s.
Proof. intros E H. unfold wps, get_info, sbind, sgets, slift. by rewrite E. Qed.
Lemma wps_get_item a i (Q : DiscItem -> Disc -> Prop) s : items s !! a = Some i -> Q i s -> wps (get_item a) Q s.
Proof. intros E H. unfold wps, get_item, sbind, sgets, slift. by rewrite E. Qed.
Lemma wps_put_info a i (Q : unit -> Disc -> Prop) s : is_Some (infos s !! a) -> Q tt (s <| infos := <[a := i]> (infos s) |>) -> wps (put_info a i) Q s.
Proof. intros [j E] H. unfold put_info. apply wps_bind. by eapply wps_get_info. Qed.
Lemma wps_put_item a i (Q : unit -> Disc -> Prop) s : is_Some (items s !! a) -> Q tt (s <| items := <[a := i]> (items s) |>) -> wps (put_item a i) Q s.
Proof. intros [j E] H. unfold put_item. apply wps_bind. by eapply wps_get_item. Qed.
Lemma wps_read_list w l (Q : SoftBusList -> Disc -> Prop) s : get_list w s = Some l -> Q l s -> wps (read_list w) Q s.
Proof. intros E H. unfold wps, read_list, sbind, sgets, slift. by rewrite E. Qed.

Lemma wps_find_item name l s : (forall a, a ∈ l -> is_Some (items s !! a)) ->
  wps (find_item name l) (fun o s' => s' = s /\ match o with
    | None => forall a it, a ∈ l -> items s !! a = Some it -> packageName it <> name
    | Some a => a ∈ l /\ exists it, items s !! a = Some it /\ packageName it = name
    end) s.
Proof.
  induction l as [|a l IH]; intros Hl; cbn [find_item]; [apply wps_ret; split; [done|]; by intros ? ? ?%elem_of_nil|].
  apply wps_bind. destruct (Hl a) as [it Hit]; [set_solver|]. eapply wps_get_item; [done|]. destruct (decide _) as [<-|Hne].
  - apply wps_ret. split; [done|]. split; [set_solver|eauto].
  - eapply wps_mono; [apply IH; set_solver|]. intros [b|] s' [-> H]; (split; [done|]).
    + destruct H. split; [set_solver|done].
    + intros b itb [->|Hb]%elem_of_cons Hitb; [congruence|eauto].
Qed.

Lemma wps_find_info n l s : (forall i, i ∈ l -> is_Some (infos s !! i)) ->
  wps (find_info n l) (fun o s' => s' = s /\ match o with
    | None => forall i inf, i ∈ l -> infos s !! i = Some inf -> id inf <> n
    | Some i => i ∈ l /\ exists inf, infos s !! i = Some inf /\ id inf = n
    end) s.
Proof.
  induction l as [|a l IH]; intros Hl; cbn [find_info]; [apply wps_ret; split; [done|]; by intros ? ? ?%elem_of_nil|].
  apply wps_bind. destruct (Hl a) as [it Hit]; [set_solver|]. eapply wps_get_info; [done|]. destruct (id it =? n) eqn:E.
  - apply wps_ret. split; [done|]. split; [set_solver|]. exists it. split; [done|lia].
  - eapply wps_mono; [apply IH; set_solver|]. intros [b|] s' [-> H]; (split; [done|]).
    + destruct H. split; [set_solver|done].
    + intros b itb [->|Hb]%elem_of_cons Hitb; [assert (it = itb) as <- by congruence; lia|eauto].
Qed.

(** ** What operations keep *)

(** A package that is not a module and subscribes has a callback. *)
Definition served (s : Disc) : Prop := forall a it, a ∈ lst DiscoveryList s -> items s !! a = Some it ->
  packageName it ∈ g_discModuleMap \/ callback it <> 0.
Definition good (X : gset nat) (Y : Datatypes.option nat) (s : Disc) : Prop := inv X Y s /\ served s.

(** At most [n] objects are allocated; nothing outside the registry changes. *)
Record frame (n : nat) (s s' : Disc) : Prop := {
  f_next : (next s <= next s' <= next s + n)%nat;
  f_init : g_isInited s' = g_isInited s;
  f_coap : g_discCoapInterface s' = g_discCoapInterface s;
  f_ble : g_discBleInterface s' = g_discBleInterface s;
  f_calls : calls s' = calls s;
  f_found : found s' = found s }.

Lemma frame_refl n s : frame n s s.
Proof. constructor; (done || lia). Qed.
Lemma frame_trans n m k s s1 s2 : frame n s s1 -> frame m s1 s2 -> (n + m <= k)%nat -> frame k s s2.
Proof. intros [] [] ?. constructor; (congruence || lia). Qed.
Create HintDb disc.
#[export] Hint Resolve frame_refl : disc.

Lemma served_items s s' : served s -> (forall a, a ∈ lst DiscoveryList s' -> a ∈ lst DiscoveryList s) ->
  (forall a it', items s' !! a = Some it' -> exists it, items s !! a = Some it /\ packageName it' = packageName it /\ callback it' = callback it) ->
  served s'.
Proof. intros H Hl Hi a it' Ha Hit'. destruct (Hi a it' Hit') as (it & Hit & -> & ->). by eapply H; [apply Hl|]. Qed.

(** One item changes, and its callback is still right. *)
Lemma served_put s s' a it' : served s -> lst DiscoveryList s' = lst DiscoveryList s -> items s' = <[a := it']> (items s) ->
  (a ∈ lst DiscoveryList s -> packageName it' ∈ g_discModuleMap \/ callback it' <> 0) -> served s'.
Proof.
  intros H El Ei Ha b itb Hb Hit. rewrite El in Hb. rewrite Ei in Hit.
  apply lookup_insert_Some in Hit as [[<- <-]|[_ Hit]]; [by apply Ha|by eapply H].
Qed.

Lemma inv_list X Y s w : inv X Y s -> exists l, get_list w s = Some l /\ elems l = lst w s /\ cnt l = cnt_of w s.
Proof. intros Hi. destruct (v_list _ _ _ Hi w) as [l El]. exists l. unfold lst, cnt_of. by rewrite El. Qed.

(** ** Entries *)

(** Information [i] is registered in list [w] by package [name] under number [n]. *)
Definition entry (w : which) (s : Disc) (name : string) (n : Z) (i : nat) : Prop :=
  exists a it inf, a ∈ lst w s /\ items s !! a = Some it /\ packageName it = name /\ i ∈ InfoList it /\ infos s !! i = Some inf /\ id inf = n.
Definition same_entries (s s' : Disc) : Prop := forall w name n i, entry w s' name n i <-> entry w s name n i.

(** A package has one item, and an item one information for a number. *)
Lemma name_inj X Y s w a b ita itb : inv X Y s -> a ∈ lst w s -> b ∈ lst w s -> items s !! a = Some ita -> items s !! b = Some itb ->
  packageName ita = packageName itb -> a = b.
Proof.
  intros Hi Ha Hb Hia Hib E. pose proof (v_names _ _ _ Hi w) as Hnd. apply list_elem_of_lookup in Ha as [j Hj]. apply list_elem_of_lookup in Hb as [k Hk].
  assert (j = k) as ->; [|congruence]. eapply NoDup_lookup; [exact Hnd| |]; unfold names; rewrite list_lookup_fmap, ?Hj, ?Hk; cbn; rewrite ?Hia, ?Hib; cbn; [done|by rewrite E].
Qed.
Lemma id_inj X Y s a it i j inf jnf : inv X Y s -> items s !! a = Some it -> i ∈ InfoList it -> j ∈ InfoList it ->
  infos s !! i = Some inf -> infos s !! j = Some jnf -> id inf = id jnf -> i = j.
Proof.
  intros Hi Hit Ha Hb Hia Hib E. pose proof (v_ids _ _ _ Hi a it Hit) as Hnd. apply list_elem_of_lookup in Ha as [x Hx]. apply list_elem_of_lookup in Hb as [y Hy].
  assert (x = y) as ->; [|congruence]. eapply NoDup_lookup; [exact Hnd| |]; unfold ids; rewrite list_lookup_fmap, ?Hx, ?Hy; cbn; rewrite ?Hia, ?Hib; cbn; [done|by rewrite E].
Qed.

(** A package has at most one entry for a number. *)
Lemma entry_inj X Y s w name n i j : inv X Y s -> entry w s name n i -> entry w s name n j -> i = j.
Proof.
  intros Hi (a & ita & inf & A1 & A2 & A3 & A4 & A5 & A6) (b & itb & jnf & B1 & B2 & B3 & B4 & B5 & B6).
  assert (a = b) as -> by (eapply (name_inj X Y s w); try done; congruence). assert (ita = itb) as -> by congruence.
  eapply (id_inj X Y s b itb); try done. congruence.
Qed.

(** Changes of an item that do not touch its name and its informations. *)
Lemma entries_shape s s' : (forall w, lst w s' = lst w s) -> infos s' = infos s ->
  (forall a, (fun it => (packageName it, InfoList it)) <$> items s' !! a = (fun it => (packageName it, InfoList it)) <$> items s !! a) -> same_entries s s'.
Proof.
  assert (forall s s', (forall w, lst w s' = lst w s) -> infos s' = infos s ->
    (forall a, (fun it => (packageName it, InfoList it)) <$> items s' !! a = (fun it => (packageName it, InfoList it)) <$> items s !! a) ->
    forall w name n i, entry w s' name n i -> entry w s name n i) as H.
  { clear s s'. intros s s' Hl Hi He w name n i (a & it & inf & A1 & A2 & A3 & A4 & A5 & A6). specialize (He a). rewrite A2 in He. symmetry in He.
    apply fmap_Some in He as (it0 & E0 & [= E1 E2]). exists a, it0, inf. rewrite <- Hl, <- Hi, <- E1, <- E2. done. }
  intros Hl Hi He w name n i. split; apply H; try done; intros; by symmetry.
Qed.

(** ** Counters *)

(** Distinct addresses below [n] are at most [n]. *)
Lemma length_below (l : list nat) n : NoDup l -> (forall a, a ∈ l -> (a < n)%nat) -> (length l <= n)%nat.
Proof.
  intros Hnd Hl. rewrite <- (length_seq n 0). apply submseteq_length, NoDup_submseteq; [done|].
  intros a Ha%Hl. apply elem_of_seq. lia.
Qed.

Lemma list_small X Y s w : inv X Y s -> small s -> 0 <= cnt_of w s < 2 ^ 31.
Proof.
  intros Hi Hs. rewrite (v_cnt _ _ _ Hi). unfold small in Hs.
  assert (length (lst w s) <= next s)%nat; [|lia]. apply length_below; [by eapply inv_lst_nodup|].
  intros a Ha. apply (v_fresh _ _ _ Hi). left. destruct (lst_item _ _ _ _ _ Hi Ha) as [it ->]. eauto.
Qed.

Lemma infos_small X Y s a it : inv X Y s -> small s -> items s !! a = Some it -> (length (InfoList it) <= next s)%nat.
Proof.
  intros Hi Hs Hit. apply length_below; [by eapply inv_infolist_nodup|]. intros i Hin. apply (v_fresh _ _ _ Hi). right.
  assert (is_Some (items s !! a)) as [Ha|Ha]%(v_items _ _ _ Hi) by eauto;
    destruct (v_info _ _ _ Hi _ _ _ _ Ha Hit Hin) as (inf & -> & _); eauto.
Qed.

Lemma num_small X s a it : inv X None s -> small s -> items s !! a = Some it -> 0 <= infoNum it < 2 ^ 31.
Proof.
  intros Hi Hs Hit. rewrite (v_num _ _ _ Hi a it Hit) by done. pose proof (infos_small _ _ _ _ _ Hi Hs Hit). unfold small in Hs. lia.
Qed.

(** ** Additions *)

(** The callback of an item after [AddCallbackToItem]. *)
Definition new_callback (cb : Z) (type : ServiceType) (old : Z) : Z :=
  match type with
  | SUBSCRIBE_SERVICE => cb
  | SUBSCRIBE_INNER_SERVICE => if negb (old =? 0) && (cb =? 0) then old else cb
  | _ => old
  end.

Lemma item_eta (it : DiscItem) : it <| callback := callback it |> = it.
Proof. by destruct it. Qed.
Lemma put_same (s : Disc) a it : items s !! a = Some it -> s <| items := <[a := it]> (items s) |> = s.
Proof. intros H. rewrite insert_id by done. by destruct s. Qed.

Lemma wps_AddCallback a it cb type s (Q : unit -> Disc -> Prop) : items s !! a = Some it ->
  Q tt (s <| items := <[a := it <| callback := new_callback cb type (callback it) |>]> (items s) |>) ->
  wps (AddCallbackToItem a cb type) Q s.
Proof.
  intros Hit HQ. unfold AddCallbackToItem. destruct type; cbn [new_callback] in HQ;
    try (rewrite item_eta, put_same in HQ by done; by apply wps_ret).
  - apply wps_bind. eapply wps_get_item; [done|]. by apply wps_put_item; [eauto|].
  - apply wps_bind. eapply wps_get_item; [done|]. destruct (negb (callback it =? 0) && (cb =? 0)).
    + rewrite item_eta, put_same in HQ by done. by apply wps_ret.
    + by apply wps_put_item; [eauto|].
Qed.

(** Which list the service types use. *)
Definition type_list (type : ServiceType) : which := if subscribes type then DiscoveryList else PublishList.

Lemma new_callback_served cb type old name : type_list type = DiscoveryList -> name ∈ g_discModuleMap \/ cb <> 0 ->
  name ∈ g_discModuleMap \/ new_callback cb type old <> 0.
Proof. destruct type; try done; intros _ [?|?]; [by left|right]. simpl. destruct (old =? 0), (cb =? 0) eqn:E; simpl; lia. Qed.

Lemma set_list_fields w l (s : Disc) : get_list w (set_list w l s) = l /\ (forall w', w' <> w -> get_list w' (set_list w l s) = get_list w' s) /\
  infos (set_list w l s) = infos s /\ items (set_list w l s) = items s /\ next (set_list w l s) = next s /\
  g_capabilityList (set_list w l s) = g_capabilityList s.
Proof. destruct w; split_and!; try done; by intros []. Qed.

(** A package without an item gets one. *)
Lemma wps_CreateNewItem X s r name cb type : let w := type_list type in good X None s -> small s ->
  (forall a it, a ∈ lst w s -> items s !! a = Some it -> packageName it <> name) ->
  (w = DiscoveryList -> name ∈ g_discModuleMap \/ cb <> 0) ->
  wps (CreateNewItem r w name cb type) (fun o s' => match o with
    | None => s' = s /\ mem_item r = false
    | Some a => good X None s' /\ frame 1 s s' /\ infos s' = infos s /\ a ∈ lst w s' /\
        items s' !! a = Some (mkItem name (new_callback cb type 0) 0 []) /\ same_entries s s'
    end) s.
Proof.
  intros w [Hi Hsv] Hs Hname Hcb. name_post post. unfold CreateNewItem. destruct (mem_item r) eqn:Emem; cbn [negb]; [|by apply wps_ret].
  destruct (inv_list _ _ _ w Hi) as (l & El & Eel & Ecnt). pose proof (list_small _ _ _ w Hi Hs) as Hc.
  apply wps_bind. unfold new_item. wps_steps. eapply wps_read_list; [by destruct w|]. wps_steps.
  set (s1 := set_list w _ _). destruct (set_list_fields w (Some (mkList
      (match type with PUBLISH_INNER_SERVICE | SUBSCRIBE_INNER_SERVICE => next s :: elems l | _ => elems l ++ [next s] end)
      (u32 (cnt l + 1)))) (s <| items := <[next s := mkItem name 0 0 []]> (items s) |> <| next := S (next s) |>))
    as (G1 & G2 & G3 & G4 & G5 & G6). fold s1 in G1, G2, G3, G4, G5, G6.
  eapply wps_AddCallback; [rewrite G4; apply lookup_insert_eq|]. wps_steps. cbn [callback].
  assert (items s !! next s = None) as Hnone.
  { destruct (items s !! next s) eqn:E; [|done]. assert (next s < next s)%nat; [|lia]. apply (v_fresh _ _ _ Hi). left. by rewrite E. }
  set (s2 := s1 <| items := <[next s := mkItem name (new_callback cb type 0) 0 []]> (items s1) |>).
  change (post (Some (next s)) s2). subst post. cbv beta iota. assert (items s2 = <[next s := mkItem name (new_callback cb type 0) 0 []]> (items s)) as Ei.
  { change (items s2) with (<[next s := mkItem name (new_callback cb type 0) 0 []]> (items s1)). rewrite G4. apply insert_insert_eq. }
  assert (lst w s2 ≡ₚ next s :: lst w s) as El2.
  { unfold lst at 1. replace (get_list w s2) with (get_list w s1) by (by destruct w). rewrite G1. cbn [from_option elems].
    rewrite Eel. destruct type; try done; by rewrite <- Permutation_cons_append. }
  assert (forall w', w' <> w -> lst w' s2 = lst w' s) as El3.
  { intros w' Hne. unfold lst. replace (get_list w' s2) with (get_list w' s1) by (by destruct w'). rewrite G2 by done. by destruct w'. }
  assert (item_change w s s2) as Hch.
  { constructor; try done.
    change (next s2) with (next s1). rewrite G5. cbn. lia. }
  split_and!.
  - split.
    + eapply (inv_new_item X None s s2 w); [done|done|done|done|done|done| |done|done|].
      * change (next s2) with (next s1). rewrite G5. cbn. lia.
      * unfold cnt_of at 1. replace (get_list w s2) with (get_list w s1) by (by destruct w). rewrite G1. cbn [from_option cnt].
        rewrite Ecnt, u32_small by lia. lia.
    + intros b itb Hb Hitb. rewrite Ei in Hitb. apply lookup_insert_Some in Hitb as [[<- <-]|[Hne Hitb]]; cbn [packageName callback].
      * assert (w = DiscoveryList) as Ew. { destruct (decide (w = DiscoveryList)); [done|]. rewrite El3 in Hb by done.
          destruct (lst_item _ _ _ _ _ Hi Hb); congruence. }
        by apply new_callback_served; [|apply Hcb].
      * eapply Hsv; [|done]. destruct (decide (w = DiscoveryList)) as [Ew|Hw]; [|by rewrite <- El3].
        rewrite <- Ew in Hb |- *. rewrite El2 in Hb. set_solver.
  - constructor; try (by destruct w). change (next s2) with (next s1). rewrite G5. cbn. lia.
  - change (infos s2) with (infos s1). by rewrite G3.
  - rewrite El2. set_solver.
  - rewrite Ei. apply lookup_insert_eq.
  - intros w' nm n i. unfold entry. change (infos s2) with (infos s1). rewrite G3, Ei. cbn [infos]. assert (forall b, b ∈ lst w' s2 <-> b ∈ lst w' s \/ (w' = w /\ b = next s)) as Hin.
    { intros b. destruct (decide (w' = w)) as [->|Hne]; [rewrite El2, elem_of_cons|rewrite El3 by done]; tauto. }
    split; intros (b & itb & inf & A1 & A2 & A3).
    + apply lookup_insert_Some in A2 as [[<- <-]|[Hne A2]]; [destruct A3 as (_ & A3 & _); by apply elem_of_nil in A3|].
      apply Hin in A1 as [A1|[_ ->]]; [by exists b, itb, inf|done].
    + exists b, itb, inf. rewrite Hin, lookup_insert_ne by (intros <-; congruence). split; [by left|done].
Qed.

(** The capability lists after [AddInfoToCapability]. *)
Lemma wps_AddInfoToCapability s i inf type (Q : unit -> Disc -> Prop) : length (g_capabilityList s) = 8%nat ->
  infos s !! i = Some inf -> info_ok inf -> kind inf = type_list type ->
  (forall s', match kind inf with
    | PublishList => s' = s
    | DiscoveryList => exists l l', g_capabilityList s !! Z.to_nat (position inf) = Some l /\ l' ≡ₚ i :: l /\
        s' = s <| g_capabilityList := <[Z.to_nat (position inf) := l']> (g_capabilityList s) |>
    end -> Q tt s') -> wps (AddInfoToCapability i type) Q s.
Proof.
  intros H8 Hinf Hok Hk HQ. unfold AddInfoToCapability. unfold type_list in Hk.
  destruct (subscribes type) eqn:Et; cbn [negb]; [|apply wps_ret, HQ; by rewrite Hk].
  wps_step. eapply wps_get_info; [done|]. destruct (option inf) as [o|o] eqn:Eo; [unfold kind in Hk; by rewrite Eo in Hk|].
  destruct (position_ok inf Hok) as (p & Eb & Hp & Ep). unfold position, bitmap in Eb, Ep. rewrite Eo in Eb, Ep.
  wps_step. apply (wps_lift _ (2 ^ p)); [by rewrite Eb|]. rewrite Eb in Ep. cbn [head default from_option] in Ep. cbv zeta.
  rewrite Hk in HQ. unfold position, bitmap in HQ. rewrite Eo, Eb in HQ. cbn [head default from_option] in HQ. unfold id, Datatypes.id in Ep, HQ. rewrite Ep in *.
  unfold CAPABILITY_MAX_BITNUM. replace (p >=? 8) with false by lia. do 2 wps_step.
  destruct (lookup_lt_is_Some_2 (g_capabilityList s) (Z.to_nat p)) as [l Hl]; [lia|].
  wps_step. apply (wps_lift _ l); [done|]. wps_steps. apply HQ. eexists l, _. split; [done|]. split; [|done].
  destruct type; try done; by rewrite <- Permutation_cons_append.
Qed.

(** A new information is a new entry. *)
Lemma entry_link X Y s s' w a it it' i inf inf' : inv X Y s -> a ∈ lst w s -> items s !! a = Some it -> i ∈ X -> infos s !! i = Some inf ->
  (forall w, get_list w s' = get_list w s) -> items s' = <[a := it']> (items s) -> infos s' = <[i := inf']> (infos s) ->
  packageName it' = packageName it -> InfoList it' = InfoList it ++ [i] -> id inf' = id inf ->
  forall w' name n j, entry w' s' name n j <-> entry w' s name n j \/ (w' = w /\ name = packageName it /\ n = id inf /\ j = i).
Proof.
  intros Hi Ha Hit HX Hinf El Ei Einf En Eil Eid w' name n j. assert (forall w, lst w s' = lst w s) as Hl by (intros w1; unfold lst; by rewrite El).
  destruct (v_free _ _ _ Hi i HX) as [_ Hnp]. unfold entry. rewrite Hl, Ei, Einf. split.
  - intros (b & itb & jnf & A1 & A2 & A3 & A4 & A5 & A6). assert (j = i -> infos s !! j = Some inf /\ jnf = inf') as Hj.
    { intros ->. rewrite lookup_insert_eq in A5. split; congruence. }
    apply lookup_insert_Some in A2 as [[<- <-]|[Hne A2]].
    + assert (w' = w) as -> by (by eapply lst_inj). rewrite Eil in A4. apply elem_of_app in A4 as [A4|A4%list_elem_of_singleton].
      * left. assert (j <> i) by (intros ->; apply (Hnp w); by exists a, it). rewrite lookup_insert_ne in A5 by done. exists a, it, jnf. by rewrite <- En.
      * right. subst j. destruct (Hj eq_refl) as [_ ->]. by rewrite <- A3, <- A6, En, Eid.
    + left. assert (j <> i) by (intros ->; apply (Hnp w'); by exists b, itb). rewrite lookup_insert_ne in A5 by done. by exists b, itb, jnf.
  - intros [(b & itb & jnf & A1 & A2 & A3 & A4 & A5 & A6)|(-> & -> & -> & ->)].
    + assert (j <> i) by (intros ->; apply (Hnp w'); by exists b, itb). destruct (decide (b = a)) as [->|Hne].
      * exists a, it', jnf. rewrite lookup_insert_eq, lookup_insert_ne by done. assert (itb = it) as -> by congruence. rewrite En, Eil. split_and!; try done. set_solver.
      * exists b, itb, jnf. rewrite !lookup_insert_ne by done. done.
    + exists a, it', inf'. rewrite !lookup_insert_eq, Eil. split_and!; try done. set_solver.
Qed.

Lemma wps_link X s a it i inf type : let w := type_list type in good X None s -> small s ->
  a ∈ lst w s -> items s !! a = Some it -> i ∈ X -> infos s !! i = Some inf -> kind inf = w ->
  (forall j jnf, j ∈ InfoList it -> infos s !! j = Some jnf -> id jnf <> id inf) ->
  wps (link a i type) (fun _ s' => good (X ∖ {[i]}) None s' /\ frame 0 s s' /\
    infos s' = <[i := inf <| item := Some a |>]> (infos s) /\
    forall w' name n j, entry w' s' name n j <-> entry w' s name n j \/ (w' = w /\ name = packageName it /\ n = id inf /\ j = i)) s.
Proof.
  intros w [Hi Hsv] Hs Ha Hit HX Hinf Hk Hids. name_post post. unfold link. pose proof (num_small _ _ _ _ Hi Hs Hit) as Hn.
  wps_step. eapply wps_get_item; [done|]. wps_step. apply wps_put_item; [by eauto|]. wps_step.
  eapply wps_get_info; [done|]. wps_step. apply wps_put_info; [by eauto|].
  set (inf' := inf <| item := Some a |>). set (it' := it <| infoNum := u32 (infoNum it + 1) |> <| InfoList := InfoList it ++ [i] |>).
  set (s1 := s <| items := <[a := it']> (items s) |> <| infos := <[i := inf']> (infos s) |>).
  change (wps (AddInfoToCapability i type) post s1). eapply (wps_AddInfoToCapability _ _ inf'); [apply Hi|apply lookup_insert_eq| |done|].
  { destruct (v_infos _ _ _ Hi i inf Hinf) as [(p & ? & ?) _]. by exists p. }
  intros s' Hs'. assert (get_list PublishList s' = get_list PublishList s /\ get_list DiscoveryList s' = get_list DiscoveryList s /\
    items s' = <[a := it']> (items s) /\ infos s' = <[i := inf']> (infos s) /\ next s' = next s /\ frame 0 s s') as (E1 & E2 & E3 & E4 & E5 & E6).
  { assert (frame 0 s s1) by (constructor; (done || simpl; lia)).
    destruct (kind inf'); [by subst s'|]. destruct Hs' as (l & l' & _ & _ & ->). split_and!; try done. constructor; (done || simpl; lia). }
  assert (forall w', get_list w' s' = get_list w' s) as El by (by intros []).
  split; [|split; [done|]; split; [done|by eapply (entry_link X None s s' w a it it' i inf inf')]]. split.
  - apply (inv_link X None s s' w a it it' i inf inf'); try done.
    + constructor; try done.
      * intros j Hj. by rewrite E4, lookup_insert_ne.
      * rewrite E4, lookup_insert_eq, Hinf. split; eauto.
    + cbn. rewrite u32_small; lia.
    + rewrite E4. apply lookup_insert_eq.
    + change (kind inf') with (kind inf) in Hs'. rewrite Hk in Hs'. clearbody w. destruct w; [by subst s'|].
      destruct Hs' as (l & l' & H1 & H2 & ->). by exists l, l'.
  - apply (served_put s s' a it'); [done| |done|]; [by unfold lst; rewrite El|]. intros Hd. by apply (Hsv a it).
Qed.

Lemma small_frame n s s' : frame n s s' -> Z.of_nat (next s) + Z.of_nat n < 2 ^ 31 -> small s'.
Proof. intros [] H. unfold small. lia. Qed.

(** The callback of an item changes. *)
Lemma good_callback X Y (s s' : Disc) (a : nat) (it : DiscItem) (f : Z) : s' = s <| items := <[a := it <| callback := f |>]> (items s) |> -> good X Y s -> items s !! a = Some it ->
  (a ∈ lst DiscoveryList s -> packageName it ∈ g_discModuleMap \/ f <> 0) ->
  good X Y s' /\ frame 0 s s' /\ infos s' = infos s /\ (forall w, lst w s' = lst w s) /\ items s' !! a = Some (it <| callback := f |>) /\
  same_entries s s'.
Proof.
  intros E [Hi Hsv] Hit Hf. assert (forall w, lst w s' = lst w s) as Hl by (subst s'; by intros []).
  split_and!; [split| |by subst s'|done|subst s'; apply lookup_insert_eq|].
  - eapply (inv_same _ _ s); [|done]. subst s'. constructor; try done. intros b. cbn.
    destruct (decide (b = a)) as [->|Hne]; [by rewrite lookup_insert_eq, Hit|by rewrite lookup_insert_ne].
  - eapply (served_put s s' a); [done|apply Hl|by rewrite E|done].
  - subst s'. constructor; (done || simpl; lia).
  - apply entries_shape; [done|by subst s'|]. intros b. subst s'. cbn.
    destruct (decide (b = a)) as [->|Hne]; [by rewrite lookup_insert_eq, Hit|by rewrite lookup_insert_ne].
Qed.

(** Room for the objects one call allocates. *)
Definition roomy (s : Disc) : Prop := Z.of_nat (next s) + 2 < 2 ^ 31.
Lemma roomy_small s : roomy s -> small s.
Proof. unfold roomy, small. lia. Qed.

Lemma wps_AddInfoToList X s r name cb i inf type : let w := type_list type in good X None s -> Z.of_nat (next s) + 1 < 2 ^ 31 ->
  i ∈ X -> infos s !! i = Some inf -> kind inf = w -> (w = DiscoveryList -> name ∈ g_discModuleMap \/ cb <> 0) ->
  wps (AddInfoToList r w name cb i type) (fun ret s' =>
    if ret =? SOFTBUS_OK then good (X ∖ {[i]}) None s' /\ frame 1 s s' /\
      (exists a, infos s' = <[i := inf <| item := Some a |>]> (infos s)) /\ (forall j, ~ entry w s name (id inf) j) /\
      (forall w' nm n j, entry w' s' nm n j <-> entry w' s nm n j \/ (w' = w /\ nm = name /\ n = id inf /\ j = i))
    else s' = s /\ (lock_ok r = true -> mem_item r = true ->
      ret = SOFTBUS_DISCOVER_MANAGER_DUPLICATE_PARAM /\ exists j, entry w s name (id inf) j)) s.
Proof.
  intros w Hg Hs HX Hinf Hk Hcb. assert (small s) as Hsm by (unfold small; lia). pose proof Hg as [Hi Hsv].
  unfold AddInfoToList. destruct (lock_ok r); cbn [negb]; [|by apply wps_ret].
  destruct (inv_list _ _ _ w Hi) as (l & El & Eel & _). wps_step. eapply wps_read_list; [done|]. wps_step.
  eapply wps_mono; [apply wps_find_item|].
  { intros a Ha. rewrite Eel in Ha. destruct (lst_item _ _ _ _ _ Hi Ha) as [it ->]. eauto. }
  intros [a|] s0 [-> Ho]; rewrite Eel in Ho.
  - destruct Ho as (Ha & it & Hit & Hname). wps_step. eapply wps_get_item; [done|]. wps_step. eapply wps_get_info; [done|].
    wps_step. eapply wps_mono; [apply wps_find_info|].
    { intros j Hj. destruct (v_info _ _ _ Hi w a it j Ha Hit Hj) as (jnf & -> & _). eauto. }
    intros [j|] s0 [-> Hd].
    { apply wps_ret. split; [done|]. intros _ _. split; [done|]. destruct Hd as (? & jnf & ? & ?). exists j, a, it, jnf. done. }
    assert (forall j, ~ entry w s name (id inf) j) as Hnew.
    { intros j (b & itb & jnf & A1 & A2 & A3 & A4 & A5 & A6). assert (b = a) as -> by (eapply (name_inj X None s w); try done; congruence).
      assert (itb = it) as -> by congruence. by eapply (Hd j). }
    wps_step. eapply wps_AddCallback; [done|]. wps_step.
    edestruct (good_callback X None s) as (Hg1 & Hf1 & Ei & Hl1 & Hit1 & He1); [reflexivity|done|done| |].
    { intros Hdl. rewrite Hname. apply (new_callback_served cb type (callback it)); [|apply Hcb]; by eapply lst_inj. }
    eapply wps_mono; [eapply (wps_link X _ a _ i inf); [done|apply (small_frame 0 s); [done|lia]|by rewrite Hl1|done|done|done|done|done]|].
    intros ? s' (H1 & H2 & H3 & H4). apply wps_ret. cbn [Z.eqb SOFTBUS_OK]. split; [done|]. split; [apply (frame_trans _ _ _ _ _ _ Hf1 H2); lia|].
    split; [by eauto|]. split; [done|]. intros w' nm n j. pose proof (H4 w' nm n j) as K4. pose proof (He1 w' nm n j) as K1. cbn [packageName] in K4. subst name. tauto.
  - wps_step. eapply wps_mono; [by apply (wps_CreateNewItem X)|]. intros [a|] s1 Hc.
    2:{ destruct Hc as [-> Hmem]. apply wps_ret. split; [done|]. by rewrite Hmem. }
    destruct Hc as (Hg1 & Hf1 & Ei & Ha & Hit & He1). wps_step.
    eapply wps_mono; [eapply (wps_link X _ a _ i inf); [done|by apply (small_frame 1 s)|done|done|done|by rewrite Ei|done|]|].
    { intros j jnf Hj. by apply elem_of_nil in Hj. }
    intros ? s' (H1 & H2 & H3 & H4). apply wps_ret. cbn [Z.eqb SOFTBUS_OK]. split; [done|]. split; [apply (frame_trans _ _ _ _ _ _ Hf1 H2); lia|].
    split; [rewrite <- Ei; by eauto|]. split; [|intros w' nm n j; pose proof (H4 w' nm n j) as K4; pose proof (He1 w' nm n j) as K1; cbn [packageName] in K4; tauto].
    intros j (b & itb & jnf & A1 & A2 & A3 & _). by apply (Ho b itb).
Qed.

(** ** Removals *)

(** The capability lists without information [i]. *)
Definition caps_without (w : which) (i : nat) (s : Disc) : Disc :=
  match w with PublishList => s | DiscoveryList => s <| g_capabilityList := remove i <$> g_capabilityList s |> end.

Lemma wps_DeleteInfoFromCapability s i type (Q : unit -> Disc -> Prop) : is_Some (infos s !! i) -> Q tt (caps_without (type_list type) i s) ->
  wps (DeleteInfoFromCapability i type) Q s.
Proof.
  intros [inf Hinf] HQ. unfold DeleteInfoFromCapability, type_list in *. destruct (subscribes type); [|by apply wps_ret].
  cbn [negb]. wps_step. eapply wps_get_info; [done|]. by apply wps_modify.
Qed.

(** Item [a] loses information [i]. *)
Definition without (w : which) (a i : nat) (it' : DiscItem) (s : Disc) : Disc :=
  caps_without w i (s <| items := <[a := it']> (items s) |>).

Lemma good_without X Y s w a it it' i : good X Y s -> a ∈ lst w s -> items s !! a = Some it -> i ∈ InfoList it ->
  packageName it' = packageName it -> callback it' = callback it -> InfoList it' = remove i (InfoList it) ->
  (Y <> Some a -> infoNum it' = infoNum it - 1) ->
  let s' := without w a i it' s in good ({[i]} ∪ X) Y s' /\ frame 0 s s' /\ infos s' = infos s /\
    items s' = <[a := it']> (items s) /\ (forall w', get_list w' s' = get_list w' s) /\
    (forall w' nm n j, entry w' s' nm n j <-> entry w' s nm n j /\ j <> i).
Proof.
  intros [Hi Hsv] Ha Hit Hin En Ec Eil Enum s'. assert (infos s' = infos s) as Einf by (by destruct w).
  assert (items s' = <[a := it']> (items s)) as Eit by (by destruct w).
  assert (forall w', get_list w' s' = get_list w' s) as El by (destruct w; by intros []).
  split_and!; try done; [split| |].
  - apply (inv_unlink X Y s s' w a it it' i); try done; [|by destruct w].
    constructor; try done; [by rewrite Einf|by rewrite Einf|by destruct w].
  - apply (served_put s s' a it'); [done|by unfold lst; rewrite El|done|]. rewrite En, Ec. intros Hd. by apply (Hsv a).
  - destruct w; constructor; (done || simpl; lia).
  - assert (forall w, lst w s' = lst w s) as Hl by (intros w1; unfold lst; by rewrite El).
    intros w' nm n j. unfold entry. rewrite Hl, Eit, Einf. split.
    + intros (b & itb & jnf & A1 & A2 & A3 & A4 & A5 & A6). apply lookup_insert_Some in A2 as [[<- <-]|[Hne A2]].
      * rewrite Eil in A4. apply elem_of_remove in A4 as [A4 Hne]. split; [|done]. exists a, it, jnf. by rewrite <- En.
      * split; [by exists b, itb, jnf|]. intros ->. apply Hne. symmetry. by eapply (placed_unique X Y s w w' a b).
    + intros [(b & itb & jnf & A1 & A2 & A3 & A4 & A5 & A6) Hne]. destruct (decide (b = a)) as [->|Hb].
      * assert (itb = it) as -> by congruence. exists a, it', jnf. rewrite lookup_insert_eq, En, Eil, elem_of_remove. done.
      * exists b, itb, jnf. by rewrite lookup_insert_ne.
Qed.

(** An empty item leaves its list and is freed. *)
Definition without_item (w : which) (a : nat) (l : SoftBusList) (s : Disc) : Disc :=
  let s1 := set_list w (Some (mkList (remove a (elems l)) (u32 (cnt l - 1)))) s in s1 <| items := delete a (items s1) |>.

Lemma good_without_item X Y s w a it l : good X Y s -> small s -> Y = None \/ Y = Some a -> get_list w s = Some l ->
  a ∈ lst w s -> items s !! a = Some it -> InfoList it = [] ->
  let s' := without_item w a l s in good X None s' /\ frame 0 s s' /\ infos s' = infos s /\ lst w s' = remove a (lst w s) /\ same_entries s s'.
Proof.
  intros [Hi Hsv] Hs HY El Ha Hit Hil s'. destruct (set_list_fields w (Some (mkList (remove a (elems l)) (u32 (cnt l - 1)))) s)
    as (G1 & G2 & G3 & G4 & G5 & G6). pose proof (list_small _ _ _ w Hi Hs) as Hc. unfold cnt_of in Hc. rewrite El in Hc. cbn in Hc.
  assert (1 <= cnt l) as Hpos.
  { pose proof (v_cnt _ _ _ Hi w) as Hv. unfold cnt_of in Hv. rewrite El in Hv. cbn in Hv. destruct (lst w s) as [|b t]; [by apply elem_of_nil in Ha|]. cbn in Hv. lia. }
  assert (forall w', get_list w' s' = get_list w' (set_list w (Some (mkList (remove a (elems l)) (u32 (cnt l - 1)))) s)) as El' by (by intros []).
  assert (lst w s' = remove a (lst w s)) as Ew. { unfold lst. by rewrite El', G1, El. }
  assert (items s' = delete a (items s)) as Ei by (unfold s', without_item; cbn; by rewrite G4).
  split_and!.
  - split.
    + apply (inv_drop_item X Y s s' w a it); try done.
      * constructor; [rewrite El', G1; by eauto|intros w' Hne; by rewrite El', G2|by destruct w|by destruct w|by destruct w].
      * unfold cnt_of. rewrite El', G1, El. cbn. rewrite u32_small; lia.
    + intros b itb Hb Hitb. rewrite Ei in Hitb. apply lookup_delete_Some in Hitb as [_ Hitb]. eapply Hsv; [|done].
      destruct (decide (w = DiscoveryList)) as [->|Hne]; [rewrite Ew in Hb; by apply elem_of_remove in Hb as [? _]|].
      unfold lst in *. rewrite El', G2 in Hb; congruence.
  - destruct w; constructor; (done || simpl; lia).
  - by destruct w.
  - done.
  - assert (infos s' = infos s) as Einf by (by destruct w). intros w' nm n j. unfold entry. rewrite Ei, Einf.
    assert (forall b, b <> a -> b ∈ lst w' s' <-> b ∈ lst w' s) as Hin.
    { intros b Hb. destruct (decide (w' = w)) as [->|Hne]; [rewrite Ew, elem_of_remove; tauto|]. unfold lst. by rewrite El', G2. }
    split; intros (b & itb & jnf & A1 & A2 & A3).
    + apply lookup_delete_Some in A2 as [Hne A2]. exists b, itb, jnf. by rewrite <- Hin.
    + assert (b <> a) as Hne. { intros ->. assert (itb = it) as -> by congruence. rewrite Hil in A3. destruct A3 as (_ & A3 & _). by apply elem_of_nil in A3. }
      exists b, itb, jnf. by rewrite Hin, lookup_delete_ne.
Qed.

Lemma wps_drop_item w a l s (Q : unit -> Disc -> Prop) : is_Some (items s !! a) -> Q tt (without_item w a l s) ->
  wps (sbind (smodify (set_list w (Some (mkList (remove a (elems l)) (u32 (cnt l - 1)))))) (fun _ => free_item a)) Q s.
Proof.
  intros [it Hit] HQ. wps_steps. unfold free_item. wps_step. eapply wps_get_item; [by destruct w|]. by apply wps_modify.
Qed.

Lemma wps_DeleteInfoFromList X s r name n type : let w := type_list type in good X None s -> small s ->
  wps (DeleteInfoFromList r w name n type) (fun o s' => match o with
    | None => s' = s /\ (lock_ok r = true -> forall i, ~ entry w s name n i)
    | Some i => good ({[i]} ∪ X) None s' /\ frame 0 s s' /\ infos s' = infos s /\ (i ∉ X) /\
        (exists inf, infos s !! i = Some inf /\ kind inf = w) /\ entry w s name n i /\
        (forall w' nm m j, entry w' s' nm m j <-> entry w' s nm m j /\ j <> i)
    end) s.
Proof.
  intros w Hg Hs. pose proof Hg as [Hi Hsv].
  unfold DeleteInfoFromList. destruct (lock_ok r); cbn [negb]; [|by apply wps_ret].
  destruct (inv_list _ _ _ w Hi) as (l & El & Eel & _). wps_step. eapply wps_read_list; [done|]. wps_step.
  eapply wps_mono; [apply wps_find_item|].
  { intros a Ha. rewrite Eel in Ha. destruct (lst_item _ _ _ _ _ Hi Ha) as [it ->]. eauto. }
  intros [a|] s0 [-> Ho]; rewrite Eel in Ho.
  2:{ apply wps_ret. split; [done|]. intros _ i (b & itb & jnf & A1 & A2 & A3 & _). by apply (Ho b itb). }
  destruct Ho as (Ha & it & Hit & Hname). wps_step. eapply wps_get_item; [done|]. wps_step. eapply wps_mono; [apply wps_find_info|].
  { intros j Hj. destruct (v_info _ _ _ Hi w a it j Ha Hit Hj) as (jnf & -> & _). eauto. }
  intros [i|] s0 [-> Hd].
  2:{ apply wps_ret. split; [done|]. intros _ i (b & itb & jnf & A1 & A2 & A3 & A4 & A5 & A6).
      assert (b = a) as -> by (eapply (name_inj X None s w); try done; congruence). assert (itb = it) as -> by congruence. by eapply (Hd i). }
  destruct Hd as (Hin & inf & Hinf & Hid). assert (entry w s name n i) as Hent by (by exists a, it, inf).
  pose proof (num_small _ _ _ _ Hi Hs Hit) as Hn. pose proof (v_num _ _ _ Hi a it Hit ltac:(done)) as Hv.
  pose proof (length_remove i (InfoList it) (inv_infolist_nodup _ _ _ _ _ Hi Hit) Hin) as Hlen.
  wps_step. apply wps_DeleteInfoFromCapability; [by eauto|]. wps_step. apply wps_put_item; [destruct (type_list type); by eauto|].
  set (it' := it <| infoNum := u32 (infoNum it - 1) |> <| InfoList := remove i (InfoList it) |>).
  assert (infoNum it' = infoNum it - 1) as En by (cbn; rewrite u32_small; lia).
  destruct (good_without X None s w a it it' i) as (Hg1 & Hf1 & Ei & Eit & El1 & He1); try done.
  assert ((i ∉ X) /\ exists inf, infos s !! i = Some inf /\ kind inf = w) as HiX.
  { split; [|destruct (v_info _ _ _ Hi w a it i Ha Hit Hin) as (? & ? & ? & ?); eauto].
    intros HX. destruct (v_free _ _ _ Hi i HX) as [_ Hp]. apply (Hp w). by exists a, it. }
  set (s1 := without w a i it' s) in *.
  match goal with |- wps _ ?Q ?s' => replace s' with s1 by (unfold s1, without; fold w; by destruct w) end.
  wps_step. change (u32 (infoNum it - 1)) with (infoNum it'). rewrite En. destruct (infoNum it - 1 =? 0) eqn:E0.
  - apply wps_drop_item; [rewrite Eit, lookup_insert_eq; by eauto|]. wps_steps.
    destruct (good_without_item ({[i]} ∪ X) None s1 w a it' l) as (Hg2 & Hf2 & Ei2 & _ & He2); try done.
    + apply (small_frame 0 s); [done|unfold small in Hs; lia].
    + by left.
    + by rewrite El1.
    + unfold lst. by rewrite El1.
    + by rewrite Eit, lookup_insert_eq.
    + apply nil_length_inv. cbn. lia.
    + split; [done|]. split; [apply (frame_trans _ _ _ _ _ _ Hf1 Hf2); lia|]. split; [congruence|].
      destruct HiX as [HX Hkind]. do 3 (split; [done|]). intros w' nm m j. pose proof (He2 w' nm m j). pose proof (He1 w' nm m j). tauto.
  - wps_steps. destruct HiX. done.
Qed.

(** ** Informations outside the lists *)

Lemma wps_Release X Y s i type : good X Y s -> i ∈ X ->
  wps (ReleaseInfoNodeMem i type) (fun _ s' => good (X ∖ {[i]}) Y s' /\ frame 0 s s' /\ infos s' = delete i (infos s) /\
    items s' = items s /\ forall w, get_list w s' = get_list w s) s.
Proof.
  intros [Hi Hsv] HX. destruct (v_free _ _ _ Hi i HX) as [[inf Hinf] _]. unfold ReleaseInfoNodeMem. wps_step.
  eapply wps_get_info; [done|]. apply wps_modify. split_and!; [split| |done|done|by intros []].
  - eapply inv_release; [|done|done|done]. constructor; try done; by intros [].
  - done.
  - constructor; (done || simpl; lia).
Qed.

(** What the caller of the interface owns: a string of at least [dataLen] bytes. *)
Definition buffer_ok (data : Datatypes.option (list byte)) (dataLen : Z) : Prop :=
  0 <= dataLen /\ match data with None => True | Some d => dataLen <= Z.of_nat (length d) /\ Byte.x00 ∈ d end.

Lemma strlen_some d : Byte.x00 ∈ d -> is_Some (strlen d).
Proof.
  induction d as [|b d IH]; intros Hd; [by apply elem_of_nil in Hd|]. cbn [strlen]. destruct (decide _); [eauto|].
  destruct IH as [k ->]; [set_solver|]. cbn. eauto.
Qed.

Lemma common_check_total medium freq data dataLen : buffer_ok data dataLen -> is_Some (common_check medium freq data dataLen).
Proof.
  intros [_ H]. unfold common_check. destruct (_ || _); [by eauto|]. destruct (_ || _); [by eauto|]. destruct data as [d|]; [|by eauto].
  destruct (_ =? 0); [by eauto|]. destruct (_ >? _); [by eauto|]. destruct H as [_ H]. destruct (strlen_some d H) as [k ->]. cbn. eauto.
Qed.

Lemma common_check_ok medium freq data dataLen : buffer_ok data dataLen -> common_check medium freq data dataLen = Some SOFTBUS_OK ->
  AUTO <= medium <= COAP /\ exists buf, copy_data data dataLen = Some (true, buf).
Proof.
  intros [H0 H]. unfold common_check, copy_data. destruct ((medium <? AUTO) || _) eqn:E1; [intros Hc; by vm_compute in Hc|].
  destruct ((freq <? LOW) || _); [intros Hc; by vm_compute in Hc|]. destruct (dataLen =? 0) eqn:E3.
  { intros _. split; [unfold AUTO, COAP in *; bool_lia|by eauto]. }
  destruct data as [d|]; [|intros Hc; by vm_compute in Hc]. destruct (dataLen >? _) eqn:E4; [intros Hc; by vm_compute in Hc|].
  intros _. split; [unfold AUTO, COAP in *; bool_lia|].
  destruct H as [H _]. cbn [mbind option_bind]. replace (Z.of_nat (length d) <? dataLen) with false by lia.
  unfold MAX_CAPABILITYDATA_LEN in *. rewrite memcpy_s_ok by (rewrite ?length_take; unfold zeros; rewrite ?length_replicate; lia). eauto.
Qed.

Lemma capability_range c l k : 0 <= k -> let p := find_capability c l k in 0 <= p -> k <= p < k + Z.of_nat (length l).
Proof.
  intros Hk. revert k Hk. induction l as [|x l IH]; intros k Hk; cbn [find_capability length]; [done|].
  case_decide; [lia|]. intros Hp. specialize (IH (k + 1) ltac:(lia) Hp). lia.
Qed.

(** A new information is outside the lists. *)
Lemma wps_create_node X s r n mode medium mk type data dataLen capability buf w :
  good X None s -> copy_data data dataLen = Some (true, buf) ->
  (forall bm b, kind (mkInfo n mode medium (mk bm b) None) = w /\ bitmap (mkInfo n mode medium (mk bm b) None) = bm) ->
  wps (create_node r n mode medium mk type data dataLen capability) (fun o s' => frame 1 s s' /\ match o with
    | None => good X None s' /\ infos s' = infos s
    | Some a => good ({[a]} ∪ X) None s' /\ (a ∉ X) /\ exists bm, infos s !! a = None /\
        infos s' = <[a := mkInfo n mode medium (mk bm buf) None]> (infos s)
    end) s.
Proof.
  intros [Hi Hsv] Hcopy Hmk. name_post post. unfold create_node. destruct (mem_info r); cbn [negb]; [|apply wps_ret; split; [apply frame_refl|done]].
  destruct (mem_data r); cbn [negb]; [|apply wps_ret; split; [apply frame_refl|done]].
  assert (infos s !! next s = None) as Hnone.
  { destruct (infos s !! next s) eqn:E; [|done]. assert (next s < next s)%nat; [|lia]. apply (v_fresh _ _ _ Hi). right. by rewrite E. }
  assert (next s ∉ X) as HX. { intros [[? ?] _]%(v_free _ _ _ Hi). congruence. }
  assert (forall i, info_ok i -> let s' := s <| infos := <[next s := i]> (infos s) |> <| next := S (next s) |> in
    good ({[next s]} ∪ X) None s' /\ frame 1 s s') as Hnew.
  { intros i Hok s'. split; [split|constructor; (done || simpl; lia)]; [|done].
    eapply (inv_alloc X None s); try done; [|simpl; lia]. constructor; try done; simpl; lia. }
  assert (let s' := s <| next := S (next s) |> in good X None s' /\ frame 1 s s') as Hrel.
  { split; [split|constructor; (done || simpl; lia)]; [|done]. apply (inv_nothing X None s); try done. constructor; try done; simpl; lia. }
  wps_step. unfold new_info. wps_steps. apply (wps_lift _ _ _ _ Hcopy). cbv beta iota. cbn [negb].
  set (i0 := mkInfo n mode medium (mk [0] _) None). destruct (CapabilityStringToBimap capability <? 0) eqn:Ec.
  - unfold ReleaseInfoNodeMem. wps_steps. eapply wps_get_info; [apply lookup_insert_eq|]. wps_steps. unfold post.
    match goal with |- frame _ _ ?s' /\ _ => replace s' with (s <| next := S (next s) |>) end; [by destruct Hrel|].
    cbn. by rewrite delete_insert_id.
  - pose proof (capability_range capability g_capabilityMap 0 ltac:(lia)) as Hr. cbv zeta in Hr. change (find_capability capability g_capabilityMap 0) with (CapabilityStringToBimap capability) in Hr.
    set (p := CapabilityStringToBimap capability) in *. specialize (Hr ltac:(lia)). change (Z.of_nat (length g_capabilityMap)) with 8 in Hr. clearbody p.
    set (bm := [BitmapSet 0 p]). set (i := mkInfo n mode medium (mk bm buf) None).
    assert (info_ok i) as Hok.
    { exists p. split; [|lia]. unfold i. rewrite (proj2 (Hmk _ _)). unfold bm, BitmapSet, CAPABILITY_MAX_BITNUM. replace (p >? 8) with false by bool_lia.
      rewrite Z.shiftl_1_l, Z.lor_0_l, u32_small; [done|]. split; [lia|]. apply Z.pow_lt_mono_r; lia. }
    wps_step. apply wps_put_info; [cbn; rewrite lookup_insert_eq; by eauto|]. wps_steps. destruct (Hnew i Hok) as [H1 H2]. unfold post.
    match goal with |- frame _ _ ?s' /\ _ => replace s' with (s <| infos := <[next s := i]> (infos s) |> <| next := S (next s) |>) end.
    + split; [done|]. split; [done|]. split; [done|]. by exists bm.
    + cbn. by rewrite insert_insert_eq.
Qed.

(** ** Removal of packages *)

Lemma inv_weaken X a s : inv X None s -> inv X (Some a) s.
Proof. intros []. constructor; try done. intros b it Hit _. by eapply v_num0. Qed.

Lemma remove_head i l : NoDup (i :: l) -> remove i (i :: l) = l.
Proof.
  intros [Hi Hnd]%NoDup_cons. unfold remove. rewrite filter_cons. rewrite decide_False by tauto. apply filter_all. intros j Hj. by intros ->.
Qed.

Lemma wps_drop_info X s a it i rest type : let w := type_list type in good X (Some a) s -> a ∈ lst w s ->
  items s !! a = Some it -> InfoList it = i :: rest ->
  wps (drop_info a type i) (fun _ s' => good X (Some a) s' /\ frame 0 s s' /\ infos s' = delete i (infos s) /\
    items s' = <[a := it <| InfoList := rest |>]> (items s) /\ forall w', get_list w' s' = get_list w' s) s.
Proof.
  intros w Hg Ha Hit Hil. pose proof Hg as [Hi Hsv]. assert (i ∈ InfoList it) as Hin by (rewrite Hil; set_solver).
  destruct (v_info _ _ _ Hi w a it i Ha Hit Hin) as (inf & Hinf & _).
  assert (i ∉ X) as HX. { intros HX. destruct (v_free _ _ _ Hi i HX) as [_ Hp]. apply (Hp w). by exists a, it. }
  pose proof (inv_infolist_nodup _ _ _ _ _ Hi Hit) as Hnd. rewrite Hil in Hnd.
  unfold drop_info. wps_step. eapply wps_get_item; [done|]. wps_step. apply wps_put_item; [by eauto|]. wps_step.
  apply wps_DeleteInfoFromCapability; [by eauto|]. rewrite Hil, (remove_head _ _ Hnd). set (it' := it <| InfoList := rest |>). fold w.
  destruct (good_without X (Some a) s w a it it' i) as (Hg1 & Hf1 & Ei & Eit & El1 & _); try done.
  { cbn. by rewrite Hil, remove_head. }
  change (wps (ReleaseInfoNodeMem i type) (fun _ s' => good X (Some a) s' /\ frame 0 s s' /\ infos s' = delete i (infos s) /\
    items s' = <[a := it']> (items s) /\ forall w', get_list w' s' = get_list w' s) (without w a i it' s)).
  eapply wps_mono; [eapply wps_Release; [done|set_solver]|]. intros ? s' (H1 & H2 & H3 & H4 & H5).
  replace (({[i]} ∪ X) ∖ {[i]}) with X in H1 by set_solver. split; [done|]. split; [apply (frame_trans _ _ _ _ _ _ Hf1 H2); lia|].
  split; [congruence|]. split; [congruence|]. intros w'. by rewrite H5.
Qed.

(** The informations an operation leaves are those that were there. *)
Definition fewer (w : which) (s s' : Disc) : Prop := infos s' ⊆ infos s /\ items s' ⊆ items s /\
  forall w', w' <> w -> lst w' s' = lst w' s.
Lemma fewer_trans w s s1 s2 : fewer w s s1 -> fewer w s1 s2 -> fewer w s s2.
Proof. intros (H1 & H2 & H3) (H4 & H5 & H6). split; [by etrans|]. split; [by etrans|]. intros w' Hw. by rewrite H6, H3. Qed.

Definition of_package (pkgName : Datatypes.option string) (name : string) : bool :=
  match pkgName with None => true | Some n => bool_decide (name = n) end.

Lemma wps_drop_item_all X s a type pkgName : let w := type_list type in good X None s -> small s -> a ∈ lst w s ->
  wps (drop_item w type pkgName a) (fun _ s' => good X None s' /\ frame 0 s s' /\ fewer w s s' /\
    exists it, items s !! a = Some it /\ lst w s' = if of_package pkgName (packageName it) then remove a (lst w s) else lst w s) s.
Proof.
  intros w Hg Hs Ha. pose proof Hg as [Hi Hsv]. destruct (lst_item _ _ _ _ _ Hi Ha) as [it Hit].
  unfold drop_item. wps_step. eapply wps_get_item; [done|].
  replace (match pkgName with None => false | Some n => negb (bool_decide (packageName it = n)) end)
    with (negb (of_package pkgName (packageName it))) by (by destruct pkgName). destruct (of_package _ _) eqn:Eof; cbn [negb].
  2:{ apply wps_ret. split; [done|]. split; [apply frame_refl|]. split; [done|]. exists it. by rewrite Eof. }
  wps_step. eapply wps_mono; [eapply (wps_for _ (fun l s' => good X (Some a) s' /\ frame 0 s s' /\ infos s' ⊆ infos s /\ delete a (items s') = delete a (items s) /\
    (forall w', get_list w' s' = get_list w' s) /\ exists it', items s' !! a = Some it' /\ InfoList it' = l))|].
  - split; [split; [by apply inv_weaken|done]|]. split; [apply frame_refl|]. split; [done|]. split; [done|]. split; [done|]. eauto.
  - intros i l s' (H1 & H2 & H3 & H7 & H4 & it' & H5 & H6).
    eapply wps_mono; [eapply (wps_drop_info X s' a it' i l); [done| |done|done]; unfold lst; by rewrite H4|].
    intros ? s2 (G1 & G2 & G3 & G4 & G5). split; [done|]. split; [apply (frame_trans _ _ _ _ _ _ H2 G2); lia|].
    split; [rewrite G3; etrans; [apply delete_subseteq|done]|].
    split; [by rewrite G4, delete_insert_eq|]. split; [intros w'; by rewrite G5|]. eexists. rewrite G4. split; [apply lookup_insert_eq|done].
  - intros ? s' (H1 & H2 & H3 & H7 & H4 & it' & H5 & H6). destruct (inv_list _ _ _ w Hi) as (l & El & Eel & _). wps_step.
    eapply wps_read_list; [by rewrite H4|]. apply wps_drop_item; [by eauto|].
    destruct (good_without_item X (Some a) s' w a it' l) as (G1 & G2 & G3 & G4 & _); try done; [|by right|by rewrite H4|unfold lst; by rewrite H4|].
    { apply (small_frame 0 s); [done|unfold small in Hs; lia]. }
    split; [done|]. split; [apply (frame_trans _ _ _ _ _ _ H2 G2); lia|]. split.
    + destruct (set_list_fields w (Some (mkList (remove a (elems l)) (u32 (cnt l - 1)))) s') as (_ & K & _ & K' & _).
      split; [by rewrite G3|]. split; [unfold without_item; cbn; rewrite K', H7; apply delete_subseteq|]. intros w' Hw. unfold lst, without_item.
      specialize (K w' Hw). rewrite <- H4, <- K. by destruct w'.
    + exists it. split; [done|]. rewrite Eof, G4. unfold lst. by rewrite H4.
Qed.

(** After [DiscMgrInfoListDeinit] nothing of the package is left. *)
Lemma wps_DiscMgrInfoListDeinit X s lock type pkgName : let w := type_list type in good X None s -> small s ->
  wps (DiscMgrInfoListDeinit lock w type pkgName) (fun _ s' => good X None s' /\ frame 0 s s' /\ fewer w s s' /\
    (lock = true -> forall a it, a ∈ lst w s' -> items s' !! a = Some it -> of_package pkgName (packageName it) = false)) s.
Proof.
  intros w Hg Hs. pose proof Hg as [Hi Hsv]. unfold DiscMgrInfoListDeinit. destruct (inv_list _ _ _ w Hi) as (l & El & Eel & _).
  wps_step. eapply wps_read_list; [done|]. destruct lock; cbn [negb].
  2:{ apply wps_ret. split; [done|]. split; [apply frame_refl|]. split; [done|]. done. }
  eapply wps_mono; [eapply (wps_for _ (fun l s' => good X None s' /\ frame 0 s s' /\ fewer w s s' /\ NoDup l /\ (forall a, a ∈ l -> a ∈ lst w s') /\
    forall a it, a ∈ lst w s' -> items s' !! a = Some it -> a ∈ l \/ of_package pkgName (packageName it) = false))|].
  - rewrite Eel. split; [done|]. split; [apply frame_refl|]. split; [done|]. split; [by eapply inv_lst_nodup|]. split; [done|by left].
  - intros a l' s1 (H1 & H2 & H3 & [H4 H5]%NoDup_cons & H6 & H7).
    eapply wps_mono; [apply (wps_drop_item_all X s1 a type pkgName); [done|apply (small_frame 0 s); [done|unfold small in Hs; lia]|apply H6; set_solver]|].
    intros ? s2 (G1 & G2 & G3 & it & Hit & G4). split; [done|]. split; [apply (frame_trans _ _ _ _ _ _ H2 G2); lia|].
    split; [by eapply fewer_trans|]. split; [done|]. fold w in G4. rewrite G4. destruct (of_package pkgName (packageName it)) eqn:Eof.
    + split; [intros b Hb; apply elem_of_remove; split; [apply H6; set_solver|by intros ->]|]. intros b itb [Hb Hne]%elem_of_remove Hitb.
      destruct (H7 b itb Hb) as [?|?]; [by eapply lookup_weaken; [|apply G3]|set_solver|by right].
    + split; [intros b Hb; apply H6; set_solver|]. intros b itb Hb Hitb. assert (items s1 !! b = Some itb) as Hitb1 by (by eapply lookup_weaken; [|apply G3]).
      destruct (H7 b itb Hb Hitb1) as [[->|?]%elem_of_cons|?]; [right; congruence|by left|by right].
  - intros ? s' (H1 & H2 & H3 & _ & _ & H7). split; [done|]. split; [done|]. split; [done|]. intros _ b it Hb Hit.
    by destruct (H7 b it Hb Hit) as [?%elem_of_nil|?].
Qed.

(** ** The callback of a module *)

Lemma wps_InnerSetDiscoverCallback X s r name f : good X None s -> small s -> name ∈ g_discModuleMap ->
  wps (InnerSetDiscoverCallback r name f) (fun ret s' => good X None s' /\ frame 1 s s' /\ infos s' = infos s /\
    (ret = SOFTBUS_OK -> exists a it, a ∈ lst DiscoveryList s' /\ items s' !! a = Some it /\ packageName it = name /\ callback it = f)) s.
Proof.
  intros Hg Hs Hname. pose proof Hg as [Hi Hsv]. unfold InnerSetDiscoverCallback.
  destruct (lock_ok r); cbn [negb]; [|apply wps_ret; split; [done|]; split; [apply frame_refl|]; done].
  destruct (inv_list _ _ _ DiscoveryList Hi) as (l & El & Eel & _). wps_step. eapply wps_read_list; [done|]. wps_step.
  eapply wps_mono; [apply wps_find_item|].
  { intros a Ha. rewrite Eel in Ha. destruct (lst_item _ _ _ _ _ Hi Ha) as [it ->]. eauto. }
  intros [a|] s0 [-> Ho]; rewrite Eel in Ho.
  - destruct Ho as (Ha & it & Hit & Hn). wps_step. eapply wps_get_item; [done|]. wps_step. apply wps_put_item; [by eauto|]. wps_steps.
    edestruct (good_callback X None s) as (Hg1 & Hf1 & Ei & Hl1 & Hit1 & He1); [reflexivity|done|done|left; by rewrite Hn|].
    split; [done|]. split; [apply (frame_trans _ _ _ _ _ _ Hf1 (frame_refl 0 _)); lia|]. split; [done|]. intros _. eexists a, _. by rewrite Hl1.
  - wps_step. eapply wps_mono; [apply (wps_CreateNewItem X s r name f SUBSCRIBE_INNER_SERVICE); [done|done|done|by left]|].
    intros [a|] s1 Hc; apply wps_ret; [|destruct Hc as [-> _]; split; [done|]; split; [apply frame_refl|]; done].
    destruct Hc as (H1 & H2 & H3 & H4 & H5 & _). do 3 (split; [done|]). intros _. eexists a, _. do 3 (split; [done|]).
    cbn. by destruct (f =? 0).
Qed.

(** ** Devices *)

(** The item an information belongs to. *)
Definition owner (s : Disc) (i : nat) : Datatypes.option DiscItem :=
  inf ← infos s !! i; a ← item inf; items s !! a.

(** What the owner of information [i] is told. *)
Definition notice (s : Disc) (lnn : bool) (device : Z) (i : nat) : list Found :=
  match owner s i with
  | None => []
  | Some it =>
      if bool_decide (packageName it ∈ g_discModuleMap)
      then if negb (callback it =? 0) && lnn then [OnDeviceFound (callback it) device] else []
      else [OnServerDeviceFound (callback it) (packageName it) device]
  end.

Lemma wps_InnerDeviceFound X s lnn i device fs (Q : unit -> Disc -> Prop) : good X None s -> placed DiscoveryList s i ->
  Q tt (s <| found := found s ++ fs ++ notice s lnn device i |>) ->
  wps (InnerDeviceFound lnn i device) Q (s <| found := found s ++ fs |>).
Proof.
  intros [Hi Hsv] (a & it & Ha & Hit & Hin) HQ. destruct (v_info _ _ _ Hi _ _ _ _ Ha Hit Hin) as (inf & Hinf & Hitem & _).
  unfold InnerDeviceFound. wps_step. eapply wps_get_info; [done|]. wps_step. apply (wps_lift _ _ _ _ Hitem). wps_step. eapply wps_get_item; [done|].
  unfold notice, owner in HQ. rewrite Hinf in HQ. cbn in HQ. rewrite Hitem in HQ. cbn in HQ. rewrite Hit in HQ.
  specialize (Hsv a it Ha Hit). rewrite app_assoc in HQ. case_bool_decide as Hmod; cbn [negb].
  - destruct (callback it =? 0); [rewrite app_nil_r in HQ; by apply wps_ret|].
    destruct lnn; [by apply wps_modify|rewrite app_nil_r in HQ; by apply wps_ret].
  - destruct (callback it =? 0) eqn:E; [destruct Hsv as [?|?]; [done|lia]|]. by apply wps_modify.
Qed.

Lemma wps_notify_all X s lnn device l fs (Q : unit -> Disc -> Prop) : good X None s -> (forall i, i ∈ l -> placed DiscoveryList s i) ->
  Q tt (s <| found := found s ++ fs ++ (l ≫= notice s lnn device) |>) ->
  wps (sfor l (fun i => InnerDeviceFound lnn i device)) Q (s <| found := found s ++ fs |>).
Proof.
  intros Hg. revert fs. induction l as [|i l IH]; intros fs Hl HQ; cbn [sfor]; [by rewrite app_nil_r in HQ; apply wps_ret|].
  apply wps_bind. eapply wps_InnerDeviceFound; [done|apply Hl; set_solver|]. apply IH; [set_solver|]. rewrite <- (app_assoc fs). apply HQ.
Qed.

(** The informations of the capabilities in [bitMap], capability by capability. *)
Definition subscribers (bitMap : Z) (ps : list Z) (s : Disc) : list nat :=
  ps ≫= fun p => if IsBitmapSet bitMap p then default [] (g_capabilityList s !! Z.to_nat p) else [].

Lemma wps_DiscOnDeviceFound X s r lnn bitMap device : good X None s -> lock_ok r = true ->
  wps (DiscOnDeviceFound r lnn bitMap device) (fun _ s' =>
    s' = s <| found := found s ++ (subscribers bitMap (seqZ 0 CAPABILITY_MAX_BITNUM) s ≫= notice s lnn device) |>) s.
Proof.
  intros Hg Hlock. pose proof Hg as [Hi _]. unfold DiscOnDeviceFound. rewrite Hlock. cbn [negb].
  assert (forall p, p ∈ seqZ 0 CAPABILITY_MAX_BITNUM -> 0 <= p < 8) as Hps by (intros p; rewrite elem_of_seqZ; unfold CAPABILITY_MAX_BITNUM; lia).
  match goal with |- wps (sfor _ ?f) _ _ => set (body := f) end.
  assert (forall ps fs, (forall p, p ∈ ps -> 0 <= p < 8) -> wps (sfor ps body) (fun _ s' =>
    s' = s <| found := found s ++ fs ++ (subscribers bitMap ps s ≫= notice s lnn device) |>) (s <| found := found s ++ fs |>)) as H.
  2:{ specialize (H _ [] Hps). replace (s <| found := found s ++ [] |>) with s in H by (destruct s; cbn; by rewrite app_nil_r). apply H. }
  clear Hps. intros ps. induction ps as [|p ps IH]; intros fs Hps; cbn [sfor]; [apply wps_ret; cbn; by rewrite app_nil_r|].
  apply wps_bind. unfold body at 1. unfold subscribers. rewrite bind_cons, bind_app. fold (subscribers bitMap ps s). destruct (IsBitmapSet bitMap p); cbn [negb].
  - assert (0 <= p < 8) as Hp by (apply Hps; set_solver). destruct (lookup_lt_is_Some_2 (g_capabilityList s) (Z.to_nat p)) as [l Hl]; [rewrite (v_caps _ _ _ Hi); lia|].
    destruct (inv_list _ _ _ DiscoveryList Hi) as (L & El & _). wps_step. eapply wps_read_list; [done|]. do 2 wps_step. wps_step. apply (wps_lift _ l); [done|].
    rewrite Hl. cbn [default from_option]. apply (wps_notify_all X); [done| |].
    { intros i Hin. destruct (v_cap _ _ _ Hi p l Hl ltac:(lia)) as [_ H]. by apply H in Hin as [? _]. }
    eapply wps_mono; [apply IH; intros q Hq; apply Hps; set_solver|]. intros ? s' ->. by rewrite <- app_assoc.
  - apply wps_ret. cbn [app]. apply IH. intros q Hq. apply Hps. set_solver.
Qed.
End DiscOps.
