(* ===== verification/DiscSystem.v ===== *)
(** * Discovery: the manager together with its media

    Sequences of calls of the interface of [DiscManager] over any two media that
    keep the promises of [DiscMedium].  As long as the media accept what they are
    asked for, no call uses a freed object, the registry keeps its invariant, and
    each medium counts exactly the registrations the registry holds. *)

From S2P Require Import Prelude StateFault DiscMedium DiscManager DiscRegistry DiscOps.

Module DiscSystem.
Import DiscMedium DiscManager DiscRegistry DiscOps.
#[local] Open Scope sf_scope.

(** ** Counting informations *)

Inductive medium_of := OnCoap | OnBle.
(** Which medium carries an information. *)
Definition carrier (i : DiscInfo) : medium_of := if medium i =? BLE then OnBle else OnCoap.
#[export] Instance medium_of_eq_dec : EqDecision medium_of.
Proof. solve_decision. Defined.

Definition counts (m : medium_of) (w : which) (p : Z) (x : nat * DiscInfo) : Prop :=
  carrier x.2 = m /\ kind x.2 = w /\ position x.2 = p.
#[export] Instance counts_dec m w p x : Decision (counts m w p x).
Proof. unfold counts. apply _. Defined.

(** The informations for capability [p] on medium [m]. *)
Definition tally (m : medium_of) (w : which) (p : Z) (h : gmap nat DiscInfo) : Z := Z.of_nat (size (filter (counts m w p) h)).
Definition weight (m : medium_of) (w : which) (p : Z) (i : DiscInfo) : Z := Z.b2z (bool_decide (counts m w p (0%nat, i))).

Lemma tally_split m w p h i inf : h !! i = Some inf -> tally m w p h = weight m w p inf + tally m w p (delete i h).
Proof.
  intros Hi. unfold tally, weight. rewrite map_filter_delete, map_size_delete. case_bool_decide as Hc.
  - assert (filter (counts m w p) h !! i = Some inf) as Hf by (by apply map_lookup_filter_Some).
    rewrite Hf. cbn [Z.b2z]. assert (size (filter (counts m w p) h) <> 0%nat); [|lia].
    intros H0%map_size_empty_inv. by rewrite H0 in Hf.
  - assert (filter (counts m w p) h !! i = None) as ->; [|cbn; lia]. apply map_lookup_filter_None. right. intros x Hx. by simplify_eq.
Qed.

Lemma tally_insert m w p h i inf : h !! i = None -> tally m w p (<[i := inf]> h) = weight m w p inf + tally m w p h.
Proof. intros Hi. rewrite (tally_split _ _ _ _ i inf) by apply lookup_insert_eq. by rewrite delete_insert_id. Qed.

(** Changing the pointer to the item does not change the count. *)
Lemma tally_update m w p h i inf inf' : h !! i = Some inf -> weight m w p inf' = weight m w p inf ->
  tally m w p (<[i := inf']> h) = tally m w p h.
Proof.
  intros Hi Hw. rewrite (tally_split _ _ _ _ i inf') by apply lookup_insert_eq. rewrite (tally_split _ _ _ h i inf) by done.
  by rewrite delete_insert_eq, Hw.
Qed.

Lemma tally_mono m w p h h' : h' ⊆ h -> tally m w p h' <= tally m w p h.
Proof. intros H. unfold tally. apply inj_le, map_subseteq_size, map_subseteq_spec. intros i x. rewrite !map_lookup_filter_Some. intros [Hi Hx]. split; [by eapply lookup_weaken|done]. Qed.

Lemma tally_pos m w p h : 0 < tally m w p h <-> exists i inf, h !! i = Some inf /\ counts m w p (i, inf).
Proof.
  unfold tally. split.
  - intros H. destruct (map_choose (filter (counts m w p) h)) as (i & inf & Hi).
    { intros E. rewrite E, map_size_empty in H. lia. }
    exists i, inf. by apply map_lookup_filter_Some in Hi.
  - intros (i & inf & Hi). assert (filter (counts m w p) h !! i = Some inf) as Hf by (by apply map_lookup_filter_Some). assert (size (filter (counts m w p) h) <> 0%nat); [|lia].
    intros H0%map_size_empty_inv. by rewrite H0 in Hf.
Qed.

Lemma weight_range m w p i : 0 <= weight m w p i <= 1.
Proof. unfold weight. by case_bool_decide. Qed.

(** ** The state of the system *)

Section system.
Context {C B Fc Fb : Type} {coapI : DiscoveryFuncInterface C} {bleI : DiscoveryFuncInterface B}.
Context {DiscCoapInit : Fc -> SF C bool} {DiscCoapDeinit : SF C unit} {DiscBleInit : Fb -> SF B bool} {DiscBleDeinit : SF B unit}.
Context `{!Medium coapI, !MediumLife coapI DiscCoapInit DiscCoapDeinit, !Medium bleI, !MediumLife bleI DiscBleInit DiscBleDeinit}.

Abbreviation St := (Disc * C * B)%type.
Implicit Types (d : Disc) (c : C) (b : B) (s : St).

(** The counts of a medium for a list. *)
Definition number {D} {I : DiscoveryFuncInterface D} `{!Medium I} (w : which) (x : D) (p : Z) : Z :=
  match w with PublishList => pubs x p | DiscoveryList => subs x p end.

(** The medium [m] with state [x] counts the informations [h]: all of them, and when
    [exact] nothing else. *)
Definition counted {D} {I : DiscoveryFuncInterface D} `{!Medium I} (exact : bool) (m : medium_of) (h : gmap nat DiscInfo) (x : D) : Prop :=
  forall w p, 0 <= p < 32 -> tally m w p h <= number w x p /\ (exact = true -> number w x p = tally m w p h).

(** A medium that is in use, or not. *)
Definition medium_inv {D F} {I : DiscoveryFuncInterface D} `{!Medium I} {init : F -> SF D bool} {deinit} `{!MediumLife I init deinit}
    (exact : bool) (m : medium_of) (on : bool) (h : gmap nat DiscInfo) (x : D) : Prop :=
  if on then med_ok x /\ in_sync x /\ counted exact m h x
  else base x /\ forall i inf, h !! i = Some inf -> carrier inf <> m.

(** Every call of a medium succeeded. *)
Definition accepted (l : list MediumCall) : Prop := forall m t o r, MCall m t o r ∈ l -> r = SOFTBUS_OK.

(** ** Rules for the parts of the state *)

Lemma wps_disc {A} (m : SF Disc A) (Q : A -> St -> Prop) d c b : wps m (fun a d' => Q a (d', c, b)) d -> wps (on_disc m) Q (d, c, b).
Proof. unfold wps, on_disc. by destruct (m d) as [[a d']|]. Qed.
Lemma wps_coap {A} (m : SF C A) (Q : A -> St -> Prop) d c b : wps m (fun a c' => Q a (d, c', b)) c -> wps (on_coap m) Q (d, c, b).
Proof. unfold wps, on_coap. by destruct (m c) as [[a c']|]. Qed.
Lemma wps_ble {A} (m : SF B A) (Q : A -> St -> Prop) d c b : wps m (fun a b' => Q a (d, c, b')) b -> wps (on_ble m) Q (d, c, b).
Proof. unfold wps, on_ble. by destruct (m b) as [[a b']|]. Qed.

(** ** One call of a medium *)

Definition adding (type : InterfaceFuncType) : bool := match type with PUBLISH_FUNC | STARTDISCOVERTY_FUNC => true | _ => false end.
Definition func_list (type : InterfaceFuncType) : which :=
  match type with PUBLISH_FUNC | UNPUBLISH_FUNC => PublishList | _ => DiscoveryList end.
Definition sign (type : InterfaceFuncType) : Z := if adding type then 1 else -1.

Lemma has_bit_weight m w p i : info_ok i -> carrier i = m -> 0 <= p < 32 ->
  weight m w p i = if decide (kind i = w) then has_bit (bitmap i) p else 0.
Proof.
  intros Hok Hm Hp. destruct (position_ok i Hok) as (q & Eb & Hq & Epos). unfold weight, counts, has_bit. cbn [snd].
  rewrite Eb. cbn. unfold Datatypes.id. rewrite Z.pow2_bits_eqb by lia. case_decide; case_bool_decide as Hc; simpl.
  - destruct Hc as (_ & _ & Hc). replace (q =? p) with true by lia. done.
  - destruct (q =? p) eqn:E; [|done]. exfalso. apply Hc. split; [done|]. split; [done|lia].
  - by destruct Hc as (_ & ? & _).
  - done.
Qed.

Lemma weight_other m w p i : carrier i <> m -> weight m w p i = 0.
Proof. intros Hm. unfold weight. case_bool_decide as Hc; [by destruct Hc|done]. Qed.

Lemma process_spec {D} {I : DiscoveryFuncInterface D} `{!Medium I} (x : D) i type : med_ok x -> info_ok i -> kind i = func_list type ->
  (adding type = true -> room (I := I) (number (func_list type) x)) ->
  (adding type = false -> forall w p, 0 <= p < 32 -> weight (carrier i) w p i <= number w x p) ->
  wps (DiscInterfaceProcess I (mode i) type (option i)) (fun r x' => med_ok x' /\ (r = SOFTBUS_OK -> (in_sync x -> in_sync x') /\
    forall w p, 0 <= p < 32 -> number w x' p = number w x p + sign type * weight (carrier i) w p i)) x.
Proof.
  intros Hok Hi Hk Hroom Hpos. destruct (position_ok i Hi) as (q & Eb & Hq & _).
  assert (forall w p, 0 <= p < 32 -> weight (carrier i) w p i = if decide (kind i = w) then has_bit (bitmap i) p else 0) as Hw
    by (intros; by apply has_bit_weight).
  assert (bitmap_ok (bitmap i)) as Hb. { exists (2 ^ q). split; [done|]. split; [lia|apply Z.pow_lt_mono_r; lia]. }
  unfold DiscInterfaceProcess. unfold kind, bitmap in *. destruct type, (option i) as [o|o]; try done; cbn [func_list adding number] in *.
  all: [> destruct (law_publish o x Hok Hb (Hroom eq_refl)) as [H1 H2] | destruct (law_unpublish o x Hok Hb) as [H1 H2]
        | destruct (law_subscribe o x Hok Hb (Hroom eq_refl)) as [H1 H2] | destruct (law_unsubscribe o x Hok Hb) as [H1 H2] ].
  all: destruct (mode i =? DISCOVER_MODE_ACTIVE); (eapply wps_mono; [eassumption|]); intros r x' [A1 A2]; (split; [done|]); intros Hr;
    destruct (A2 Hr) as (B1 & B2 & B3); (split; [done|]); intros w p Hp; specialize (B1 p Hp); specialize (B2 p Hp);
    specialize (Hw w p Hp); try specialize (Hpos eq_refl w p Hp); destruct w; cbn [number] in *; first [rewrite decide_True in Hw by done | rewrite decide_False in Hw by done];
    unfold sign; cbn [adding]; lia.
Qed.

(** The informations [h] with or without information [i]. *)
Definition held (in_ : bool) (i : nat) (h : gmap nat DiscInfo) : gmap nat DiscInfo := if in_ then h else delete i h.

Lemma tally_held m w p h i inf type : h !! i = Some inf ->
  tally m w p (held (adding type) i h) = tally m w p (held (negb (adding type)) i h) + sign type * weight m w p inf.
Proof. intros Hi. unfold held, sign. destruct (adding type); cbn [negb]; rewrite (tally_split m w p h i inf) by done; lia. Qed.

(** The counts follow the informations. *)
Lemma counted_move {D} {I : DiscoveryFuncInterface D} `{!Medium I} e m h i inf type (x x' : D) : h !! i = Some inf ->
  (forall w p, 0 <= p < 32 -> number w x' p = number w x p + sign type * weight m w p inf) ->
  counted e m (held (negb (adding type)) i h) x -> counted e m (held (adding type) i h) x'.
Proof.
  intros Hi Hn Hc w p Hp. destruct (Hc w p Hp) as [H1 H2]. rewrite Hn, (tally_held m w p h i inf type Hi) by done.
  split; [lia|]. intros He. rewrite H2 by done. lia.
Qed.

Lemma held_lookup a i h j inf : held a i h !! j = Some inf -> h !! j = Some inf.
Proof. destruct a; [done|]. unfold held. intros H. by apply lookup_delete_Some in H as [_ H]. Qed.

(** A medium that does not carry the information. *)
Lemma medium_other {D F} {I : DiscoveryFuncInterface D} `{!Medium I} {init : F -> SF D bool} {deinit} `{!MediumLife I init deinit}
    e m on h i inf type (x : D) : h !! i = Some inf -> carrier inf <> m ->
  medium_inv (init := init) e m on (held (negb (adding type)) i h) x -> medium_inv (init := init) e m on (held (adding type) i h) x.
Proof.
  intros Hi Hm. unfold medium_inv. destruct on.
  - intros (H1 & H2 & H3). split; [done|]. split; [done|]. eapply counted_move; [done| |done].
    intros w p _. rewrite weight_other by done. lia.
  - intros [H1 H2]. split; [done|]. intros j jnf Hj%held_lookup. destruct (decide (j = i)) as [->|Hne]; [congruence|].
    apply (H2 j). unfold held. destruct (negb _); [done|]. by rewrite lookup_delete_ne.
Qed.

(** A medium that carries it, and is in use. *)
Lemma medium_process {D F} {I : DiscoveryFuncInterface D} `{!Medium I} {init : F -> SF D bool} {deinit} `{!MediumLife I init deinit}
    e m h i inf type (x : D) : h !! i = Some inf -> info_ok inf -> kind inf = func_list type -> carrier inf = m ->
  (adding type = true -> room (I := I) (number (func_list type) x)) ->
  medium_inv (init := init) e m true (held (negb (adding type)) i h) x ->
  wps (DiscInterfaceProcess I (mode inf) type (option inf)) (fun r x' =>
    r = SOFTBUS_OK -> medium_inv (init := init) e m true (held (adding type) i h) x') x.
Proof.
  intros Hi Hok Hk Hm Hroom (H1 & H2 & H3). eapply wps_mono; [apply (process_spec x inf type); try done|].
  - intros Ha w p Hp. destruct (H3 w p Hp) as [H4 _]. rewrite Ha in H4. cbn [negb held] in H4. rewrite (tally_split m w p h i inf) in H4 by done.
    rewrite Hm. unfold tally in H4. lia.
  - intros r x' [A1 A2] Hr. destruct (A2 Hr) as [B1 B2]. split; [done|]. split; [by apply B1|].
    eapply counted_move; [done| |done]. by rewrite <- Hm.
Qed.

(** The counters of the media that are in use have room. *)
Definition rooms (s : St) : Prop :=
  (g_discCoapInterface s.1.1 = true -> room (I := coapI) (pubs s.1.2) /\ room (I := coapI) (subs s.1.2)) /\
  (g_discBleInterface s.1.1 = true -> room (I := bleI) (pubs s.2) /\ room (I := bleI) (subs s.2)).

Definition media_inv (e : bool) (h : gmap nat DiscInfo) (s : St) : Prop :=
  medium_inv (init := DiscCoapInit) e OnCoap (g_discCoapInterface s.1.1) h s.1.2 /\
  medium_inv (init := DiscBleInit) e OnBle (g_discBleInterface s.1.1) h s.2.

Definition log_call (call : MediumCall) (d : Disc) : Disc := d <| calls := calls d ++ [call] |>.

Lemma by_medium_spec e d c b i inf type : infos d !! i = Some inf -> info_ok inf -> kind inf = func_list type ->
  (adding type = true -> rooms (d, c, b)) -> media_inv e (held (negb (adding type)) i (infos d)) (d, c, b) ->
  wps (by_medium coapI bleI inf type) (fun r s' => s'.1.1 = d /\
    (r = SOFTBUS_OK -> media_inv e (held (adding type) i (infos d)) s')) (d, c, b).
Proof.
  intros Hi Hok Hk Hrooms [Hmc Hmb]. cbn [fst snd] in Hmc, Hmb.
  assert (carrier inf = OnCoap -> wps (coap_process coapI inf type) (fun r s' => s'.1.1 = d /\
    (r = SOFTBUS_OK -> media_inv e (held (adding type) i (infos d)) s')) (d, c, b)) as Hcoap.
  { intros Hm. unfold coap_process. wps_step. apply wps_disc. wps_steps; [by split|]. apply wps_coap.
    destruct (g_discCoapInterface d) eqn:Eg; [|done]. 
    assert (adding type = true -> room (I := coapI) (number (func_list type) c)) as Hroom by (intros Ha; destruct (proj1 (Hrooms Ha) Eg); by destruct type).
    eapply wps_mono; [by eapply (medium_process (init := DiscCoapInit) e OnCoap (infos d) i inf type c)|].
    intros r c' H. split; [done|]. intros Hr. split; [cbn [fst snd]; rewrite Eg; by apply H|].
    cbn [fst snd]. eapply medium_other; [done| |done]. by rewrite Hm. }
  assert (carrier inf = OnBle -> wps (ble_process bleI inf type) (fun r s' => s'.1.1 = d /\
    (r = SOFTBUS_OK -> media_inv e (held (adding type) i (infos d)) s')) (d, c, b)) as Hble.
  { intros Hm. unfold ble_process. wps_step. apply wps_disc. wps_steps; [by split|]. apply wps_ble.
    destruct (g_discBleInterface d) eqn:Eg; [|done]. 
    assert (adding type = true -> room (I := bleI) (number (func_list type) b)) as Hroom by (intros Ha; destruct (proj2 (Hrooms Ha) Eg); by destruct type).
    eapply wps_mono; [by eapply (medium_process (init := DiscBleInit) e OnBle (infos d) i inf type b)|].
    intros r c' H. split; [done|]. intros Hr. split; [|cbn [fst snd]; rewrite Eg; by apply H].
    cbn [fst snd]. eapply medium_other; [done| |done]. by rewrite Hm. }
  unfold by_medium. unfold carrier in *. destruct (medium inf =? COAP) eqn:E1.
  - apply Hcoap. replace (medium inf =? BLE) with false; [done|]. unfold BLE, COAP in *. lia.
  - destruct (medium inf =? BLE) eqn:E2; [by apply Hble|]. destruct (medium inf =? AUTO); [|by wps_step].
    wps_step. eapply wps_mono; [by apply Hcoap|]. intros r s' [H1 H2]. wps_step. split; [done|].
    destruct (r =? SOFTBUS_OK) eqn:Er; [|done]. intros _. apply H2. lia.
Qed.

Lemma wps_ByMedium e d c b i inf type : infos d !! i = Some inf -> info_ok inf -> kind inf = func_list type ->
  (adding type = true -> rooms (d, c, b)) -> media_inv e (held (negb (adding type)) i (infos d)) (d, c, b) ->
  wps (DiscInterfaceByMedium coapI bleI i type) (fun r s' => s'.1.1 = log_call (MCall (medium inf) type (option inf) r) d /\
    (r = SOFTBUS_OK -> media_inv e (held (adding type) i (infos d)) s')) (d, c, b).
Proof.
  intros Hi Hok Hk Hrooms Hm. unfold DiscInterfaceByMedium. wps_step. apply wps_disc. eapply wps_get_info; [done|]. wps_step.
  eapply wps_mono; [by eapply by_medium_spec|]. intros r [[d' c'] b'] [Hd H]. cbn in Hd. subst d'. wps_step. apply wps_disc. wps_steps.
  split; [done|]. intros Hr. by apply H.
Qed.

(** ** Between two calls *)

(** The manager is up; if the media accepted everything, the invariant holds. *)
Definition up (e : bool) (s : St) : Prop := g_isInited s.1.1 = true /\
  (accepted (calls s.1.1) -> good ∅ None s.1.1 /\ media_inv e (infos s.1.1) s).

Lemma good_log X Y k d : good X Y d -> good X Y (log_call k d).
Proof. intros [Hi Hs]. split; [|done]. eapply inv_same; [|done]. by constructor. Qed.

Lemma media_frame e h d d' c b n : frame n d d' -> media_inv e h (d, c, b) -> media_inv e h (d', c, b).
Proof. intros []. unfold media_inv. cbn. by rewrite f_coap0, f_ble0. Qed.

Lemma accepted_log m t o r d : accepted (calls (log_call (MCall m t o r) d)) -> r = SOFTBUS_OK.
Proof. intros H. apply (H m t o r). cbn. set_solver. Qed.

Lemma up_init e d c b : up e (d, c, b) -> g_isInited d = true.
Proof. by intros []. Qed.

(** An information that was created is registered, or released. *)
Lemma wps_register e d c b r name cb i inf type f : let w := type_list type in good {[i]} None d -> g_isInited d = true ->
  Z.of_nat (next d) + 1 < 2 ^ 31 -> infos d !! i = Some inf -> kind inf = w -> func_list f = w -> adding f = true ->
  (w = DiscoveryList -> name ∈ g_discModuleMap \/ cb <> 0) -> rooms (d, c, b) -> media_inv e (delete i (infos d)) (d, c, b) ->
  wps (sbind (let* ret := on_disc (AddInfoToList r w name cb i type) in
              if negb (ret =? SOFTBUS_OK) then sret ret else DiscInterfaceByMedium coapI bleI i f)
        (fun ret => if negb (ret =? SOFTBUS_OK) then on_disc (ReleaseInfoNodeMem i type) ;; sret ret else sret SOFTBUS_OK))
    (fun _ s' => up e s') (d, c, b).
Proof.
  intros w Hg Hinit Hs Hi Hk Hf Ha Hcb Hrooms Hm. do 2 wps_step. apply wps_disc.
  eapply wps_mono; [by apply (wps_AddInfoToList {[i]} d r name cb i inf type); [..|set_solver| | |]|].
  intros ret d1 H. cbv beta in H. destruct (ret =? SOFTBUS_OK) eqn:Er; cbn [negb].
  - destruct H as (Hg1 & Hf1 & (a & Ei) & _). set (inf' := inf <| item := Some a |>) in *. replace ({[i]} ∖ {[i]}) with (∅ : gset nat) in Hg1 by set_solver.
    assert (infos d1 !! i = Some inf') as Hi1 by (rewrite Ei; apply lookup_insert_eq).
    eapply wps_mono; [eapply (wps_ByMedium e d1 c b i inf' f); [done|by apply (v_infos _ _ _ (proj1 Hg1) i)|by rewrite Hf|intros _|]|].
    + unfold rooms in *. cbn in *. by rewrite (f_coap _ _ _ Hf1), (f_ble _ _ _ Hf1).
    + rewrite Ha. cbn [negb held]. rewrite Ei, delete_insert_eq. by eapply media_frame.
    + intros r2 [[d2 c2] b2] [Hd2 H2]. cbn in Hd2. rewrite Ha in H2. cbn [held] in H2.
      assert (g_isInited d2 = true) as Hinit2 by (rewrite Hd2; cbn; by rewrite (f_init _ _ _ Hf1)).
      destruct (r2 =? SOFTBUS_OK) eqn:Er2; cbn [negb].
      * wps_step. split; [done|]. intros _. cbn. split; [rewrite Hd2; by apply good_log|]. rewrite Hd2 at 1. apply H2. lia.
      * wps_step. apply wps_disc. unfold ReleaseInfoNodeMem. wps_step. eapply wps_get_info; [by rewrite Hd2|]. wps_steps.
        split; [done|]. intros Hacc. exfalso. rewrite Hd2 in Hacc. cbn [fst snd] in Hacc. assert (r2 = SOFTBUS_OK); [|lia]. by eapply accepted_log.
  - destruct H as [-> _]. wps_step. rewrite Er. cbn [negb]. wps_step. apply wps_disc. eapply wps_mono; [apply wps_Release; [done|set_solver]|].
    intros ? d2 (G1 & G2 & G3 & _). wps_steps. split; [cbn; by rewrite (f_init _ _ _ G2)|]. intros _. cbn.
    replace ({[i]} ∖ {[i]}) with (∅ : gset nat) in G1 by set_solver. split; [done|]. rewrite G3. by eapply media_frame.
Qed.

(** A registration is taken back. *)
Lemma wps_unregister e d c b r name n type f : let w := type_list type in good ∅ None d -> g_isInited d = true -> small d ->
  func_list f = w -> adding f = false -> media_inv e (infos d) (d, c, b) ->
  wps (let* o := on_disc (DeleteInfoFromList r w name n type) in
       match o with
       | None => sret SOFTBUS_DISCOVER_MANAGER_INFO_NOT_DELETE
       | Some i =>
           let* ret := DiscInterfaceByMedium coapI bleI i f in
           if negb (ret =? SOFTBUS_OK) then sret ret
           else on_disc (ReleaseInfoNodeMem i type) ;; sret SOFTBUS_OK
       end) (fun _ s' => up e s') (d, c, b).
Proof.
  intros w Hg Hinit Hs Hf Ha Hm. wps_step. apply wps_disc. eapply wps_mono; [by apply (wps_DeleteInfoFromList ∅ d r name n type)|].
  intros [i|] d1 H; [|destruct H as [-> _]; by wps_step]. destruct H as (Hg1 & Hf1 & Ei & _ & (inf & Hi & Hk) & _).
  rewrite union_empty_r_L in Hg1. wps_step.
  eapply wps_mono; [eapply (wps_ByMedium e d1 c b i inf f); [by rewrite Ei|apply (v_infos _ _ _ (proj1 Hg1) i); by rewrite Ei|by rewrite Hf|by rewrite Ha|]|].
  - rewrite Ha. cbn [negb held]. rewrite Ei. by eapply media_frame.
  - intros r2 [[d2 c2] b2] [Hd2 H2]. cbn in Hd2. rewrite Ha in H2. cbn [held] in H2.
    assert (g_isInited d2 = true) as Hinit2 by (rewrite Hd2; cbn; by rewrite (f_init _ _ _ Hf1)).
    destruct (r2 =? SOFTBUS_OK) eqn:Er2; cbn [negb].
    + assert (good {[i]} None d2) as Hg2 by (rewrite Hd2; by apply good_log). wps_step. apply wps_disc.
      eapply wps_mono; [apply wps_Release; [done|set_solver]|]. intros ? d3 (G1 & G2 & G3 & _). wps_step.
      split; [cbn; by rewrite (f_init _ _ _ G2)|]. intros _. cbn. replace ({[i]} ∖ {[i]}) with (∅ : gset nat) in G1 by set_solver.
      split; [done|]. rewrite G3. assert (infos d2 = infos d1) as -> by (by rewrite Hd2). eapply media_frame; [done|]. apply H2. lia.
    + wps_step. split; [done|]. intros Hacc. exfalso. rewrite Hd2 in Hacc. cbn [fst snd] in Hacc. assert (r2 = SOFTBUS_OK); [|lia]. by eapply accepted_log.
Qed.

(** An information is created and registered. *)
Lemma wps_create_register e d c b r n md mdm mk data dataLen capability buf name cb ctype type f err : let w := type_list type in
  good ∅ None d -> g_isInited d = true -> roomy d -> rooms (d, c, b) -> media_inv e (infos d) (d, c, b) ->
  copy_data data dataLen = Some (true, buf) ->
  (forall bm x, kind (mkInfo n md mdm (mk bm x) None) = w /\ bitmap (mkInfo n md mdm (mk bm x) None) = bm) ->
  func_list f = w -> adding f = true -> (w = DiscoveryList -> name ∈ g_discModuleMap \/ cb <> 0) ->
  wps (let* o := on_disc (create_node r n md mdm mk ctype data dataLen capability) in
       match o with
       | None => sret err
       | Some i =>
           sbind (let* ret := on_disc (AddInfoToList r w name cb i type) in
                  if negb (ret =? SOFTBUS_OK) then sret ret else DiscInterfaceByMedium coapI bleI i f)
             (fun ret => if negb (ret =? SOFTBUS_OK) then on_disc (ReleaseInfoNodeMem i type) ;; sret ret else sret SOFTBUS_OK)
       end) (fun _ s' => up e s') (d, c, b).
Proof.
  intros w Hg Hinit Hroomy Hrooms Hm Hcopy Hmk Hf Ha Hcb. wps_step. apply wps_disc.
  eapply wps_mono; [by eapply (wps_create_node ∅ d r n md mdm mk ctype data dataLen capability buf w)|]. intros [i|] d1 [Hf1 H].
  - destruct H as (Hg1 & _ & bm & Hnone & Ei). rewrite union_empty_r_L in Hg1. pose proof (f_next _ _ _ Hf1). unfold roomy in Hroomy.
    eapply (wps_register e d1 c b r name cb i); try done.
    + by rewrite (f_init _ _ _ Hf1).
    + lia.
    + rewrite Ei. apply lookup_insert_eq.
    + apply Hmk.
    + unfold rooms in *. cbn in *. by rewrite (f_coap _ _ _ Hf1), (f_ble _ _ _ Hf1).
    + rewrite Ei, delete_insert_id by done. by eapply media_frame.
  - destruct H as [Hg1 Ei]. wps_step. split; [cbn; by rewrite (f_init _ _ _ Hf1)|]. intros _. split; [done|]. cbn. rewrite Ei. by eapply media_frame.
Qed.

(** The invariant between two calls. *)
Record sys_inv (e : bool) (s : St) : Prop := {
  y_up : g_isInited s.1.1 = true -> good ∅ None s.1.1 /\ media_inv e (infos s.1.1) s;
  y_down : g_isInited s.1.1 = false -> infos s.1.1 = ∅ /\ items s.1.1 = ∅ /\ media_inv true ∅ s }.

Lemma up_sys e s : up e s -> accepted (calls s.1.1) -> sys_inv e s.
Proof. intros [H1 H2] Ha. split; [by intros _; apply H2|congruence]. Qed.

Lemma medium_weaken {D F} {I : DiscoveryFuncInterface D} `{!Medium I} {init : F -> SF D bool} {deinit} `{!MediumLife I init deinit}
    e e' m on h h' (x : D) : (e' = true -> e = true /\ h' = h) -> h' ⊆ h ->
  medium_inv (init := init) e m on h x -> medium_inv (init := init) e' m on h' x.
Proof.
  intros He Hh. unfold medium_inv. destruct on.
  - intros (H1 & H2 & H3). split; [done|]. split; [done|]. intros w p Hp. destruct (H3 w p Hp) as [H4 H5].
    split; [etrans; [by apply tally_mono|done]|]. intros [E1 ->]%He. by apply H5.
  - intros [H1 H2]. split; [done|]. intros i inf Hi. apply (H2 i). by eapply lookup_weaken.
Qed.

Lemma media_weaken e e' h h' s : (e' = true -> e = true /\ h' = h) -> h' ⊆ h -> media_inv e h s -> media_inv e' h' s.
Proof. intros He Hh [H1 H2]. split; (eapply medium_weaken; [exact He|exact Hh|done]). Qed.

(** ** The calls of the interface *)

Inductive op :=
  | OInit (fc : Fc) (fb : Fb) (mem1 mem2 : bool)
  | ODeinit (lock1 lock2 : bool)
  | OPublish (r : Res) (moduleId : Z) (info : Datatypes.option PublishInnerInfo)
  | OStartScan (r : Res) (moduleId : Z) (info : Datatypes.option PublishInnerInfo)
  | OUnpublish (r : Res) (moduleId n : Z)
  | OStartAdvertise (r : Res) (moduleId : Z) (info : Datatypes.option SubscribeInnerInfo)
  | OSubscribe (r : Res) (moduleId : Z) (info : Datatypes.option SubscribeInnerInfo)
  | OStopAdvertise (r : Res) (moduleId n : Z)
  | OPublishService (r : Res) (name : Datatypes.option string) (info : Datatypes.option PublishInfo)
  | OUnPublishService (r : Res) (name : Datatypes.option string) (n : Z)
  | OStartDiscovery (r : Res) (name : Datatypes.option string) (info : Datatypes.option SubscribeInfo) (cb : Datatypes.option Z)
  | OStopDiscovery (r : Res) (name : Datatypes.option string) (n : Z)
  | OSetCallback (r : Res) (moduleId : Z) (cb : Datatypes.option Z)
  | OLink (status medium : Z)
  | ODeath (lock1 lock2 : bool) (name : Datatypes.option string)
  | OFound (r : Res) (lnn : bool) (bitMap device : Z).

(** The functions without a result answer 0. *)
Definition exec (o : op) : SF St Z :=
  match o with
  | OInit fc fb mem1 mem2 => DiscMgrInit DiscCoapInit DiscBleInit fc fb mem1 mem2
  | ODeinit lock1 lock2 => DiscMgrDeinit DiscCoapDeinit DiscBleDeinit lock1 lock2 ;; sret 0
  | OPublish r moduleId info => DiscPublish coapI bleI r moduleId info
  | OStartScan r moduleId info => DiscStartScan coapI bleI r moduleId info
  | OUnpublish r moduleId n => DiscUnpublish coapI bleI r moduleId n
  | OStartAdvertise r moduleId info => DiscStartAdvertise coapI bleI r moduleId info
  | OSubscribe r moduleId info => DiscSubscribe coapI bleI r moduleId info
  | OStopAdvertise r moduleId n => DiscStopAdvertise coapI bleI r moduleId n
  | OPublishService r name info => DiscPublishService coapI bleI r name info
  | OUnPublishService r name n => DiscUnPublishService coapI bleI r name n
  | OStartDiscovery r name info cb => DiscStartDiscovery coapI bleI r name info cb
  | OStopDiscovery r name n => DiscStopDiscovery coapI bleI r name n
  | OSetCallback r moduleId cb => on_disc (DiscSetDiscoverCallback r moduleId cb)
  | OLink status medium => DiscLinkStatusChanged coapI status medium ;; sret 0
  | ODeath lock1 lock2 name => on_disc (DiscMgrDeathCallback lock1 lock2 name) ;; sret 0
  | OFound r lnn bitMap device => on_disc (DiscOnDeviceFound r lnn bitMap device) ;; sret 0
  end.

(** What a caller has to keep: the data is a string of the stated length, the
    callback of an application is a function, the locks can be taken at the end,
    and a device is found while the manager is up. *)
Definition allowed (o : op) (s : St) : Prop :=
  match o with
  | ODeinit lock1 lock2 => lock1 = true /\ lock2 = true
  | OPublish _ _ (Some info) | OStartScan _ _ (Some info) => buffer_ok (pn_capabilityData info) (pn_dataLen info)
  | OStartAdvertise _ _ (Some info) | OSubscribe _ _ (Some info) => buffer_ok (sn_capabilityData info) (sn_dataLen info)
  | OPublishService _ _ (Some info) => buffer_ok (pi_capabilityData info) (pi_dataLen info)
  | OStartDiscovery _ _ (Some info) cb => buffer_ok (si_capabilityData info) (si_dataLen info) /\ cb <> Some 0
  | OFound _ _ _ _ => g_isInited s.1.1 = true
  | _ => True
  end.

(** A dying package leaves its registrations in the counts of the media. *)
Definition next_exact (o : op) (e : bool) : bool := match o with ODeath _ _ _ => false | ODeinit _ _ => true | _ => e end.

(** There is room for what one call allocates and counts. *)
Definition fits (s : St) : Prop := roomy s.1.1 /\ rooms s.

(** ** Every call keeps the invariant *)

Definition keeps (e : bool) (s : St) : Prop := accepted (calls s.1.1) -> sys_inv e s.

Lemma keeps_up {A} e (m : SF St A) s : wps m (fun _ s' => up e s') s -> wps m (fun _ s' => keeps e s') s.
Proof. intros H. eapply wps_mono; [exact H|]. intros ? s' Hu Ha. by apply up_sys. Qed.

(** An early return changes nothing. *)
Ltac stays_put := wps_step; (intros ?; assumption).

(** The part of a call that runs when the manager is up. *)
Lemma if_up e d c b err (m : SF St Z) : sys_inv e (d, c, b) ->
  (g_isInited d = true -> good ∅ None d -> media_inv e (infos d) (d, c, b) -> wps m (fun _ s' => keeps e s') (d, c, b)) ->
  wps (let* i := on_disc (sgets g_isInited) in if negb i then sret err else m) (fun _ s' => keeps e s') (d, c, b).
Proof.
  intros Hs Hm. wps_step. apply wps_disc. wps_step. destruct (g_isInited d) eqn:Ei; cbn [negb]; [|stays_put].
  destruct (y_up _ _ Hs Ei). by apply Hm.
Qed.

Lemma module_name r moduleId name : ModuleIdToPackageName r moduleId = Some name -> name ∈ g_discModuleMap.
Proof. unfold ModuleIdToPackageName. destruct (mem_name r); cbn [negb]; [|done]. apply list_elem_of_lookup_2. Qed.

Lemma publish_inner_keeps e d c b r moduleId info md : sys_inv e (d, c, b) -> fits (d, c, b) ->
  (forall i, info = Some i -> buffer_ok (pn_capabilityData i) (pn_dataLen i)) ->
  wps (publish_inner coapI bleI r moduleId info md) (fun _ s' => keeps e s') (d, c, b).
Proof.
  intros Hs [Hroomy Hrooms] Hb. unfold publish_inner. destruct info as [i|]; [|stays_put]. specialize (Hb i eq_refl).
  destruct (module_ok moduleId); cbn [negb]; [|stays_put]. wps_step. destruct (common_check_total (pn_medium i) (pn_freq i) _ _ Hb) as [k Hk].
  apply (wps_lift _ k); [done|]. destruct (k =? SOFTBUS_OK) eqn:Ek; cbn [negb]; [|stays_put].
  apply if_up; [done|]. intros Ei Hg Hm. destruct (ModuleIdToPackageName r moduleId) as [name|] eqn:En; [|stays_put]. destruct (common_check_ok (pn_medium i) (pn_freq i) _ _ Hb) as (_ & buf & Hcopy); [rewrite Hk; f_equal; lia|].
  apply keeps_up. by eapply (wps_create_register e d c b _ _ _ _ _ _ _ _ buf name 0 PUBLISH_SERVICE PUBLISH_INNER_SERVICE PUBLISH_FUNC).
Qed.

Lemma subscribe_inner_keeps e d c b r moduleId info md err : sys_inv e (d, c, b) -> fits (d, c, b) ->
  (forall i, info = Some i -> buffer_ok (sn_capabilityData i) (sn_dataLen i)) ->
  wps (subscribe_inner coapI bleI r moduleId info md err) (fun _ s' => keeps e s') (d, c, b).
Proof.
  intros Hs [Hroomy Hrooms] Hb. unfold subscribe_inner. destruct info as [i|]; [|stays_put]. specialize (Hb i eq_refl).
  destruct (module_ok moduleId); cbn [negb]; [|stays_put]. wps_step. destruct (common_check_total (sn_medium i) (sn_freq i) _ _ Hb) as [k Hk].
  apply (wps_lift _ k); [done|]. destruct (k =? SOFTBUS_OK) eqn:Ek; cbn [negb]; [|stays_put].
  apply if_up; [done|]. intros Ei Hg Hm. destruct (ModuleIdToPackageName r moduleId) as [name|] eqn:En; [|stays_put]. destruct (common_check_ok (sn_medium i) (sn_freq i) _ _ Hb) as (_ & buf & Hcopy); [rewrite Hk; f_equal; lia|].
  apply keeps_up. eapply (wps_create_register e d c b _ _ _ _ _ _ _ _ buf name 0 SUBSCRIBE_SERVICE SUBSCRIBE_INNER_SERVICE STARTDISCOVERTY_FUNC); try done.
  intros _. left. by eapply module_name.
Qed.

Lemma publish_service_keeps e d c b r name info : sys_inv e (d, c, b) -> fits (d, c, b) ->
  (forall i, info = Some i -> buffer_ok (pi_capabilityData i) (pi_dataLen i)) ->
  wps (DiscPublishService coapI bleI r name info) (fun _ s' => keeps e s') (d, c, b).
Proof.
  intros Hs [Hroomy Hrooms] Hb. unfold DiscPublishService. destruct name as [name|]; [|stays_put]. destruct info as [i|]; [|stays_put]. specialize (Hb i eq_refl).
  wps_step. destruct (common_check_total (pi_medium i) (pi_freq i) _ _ Hb) as [k Hk].
  assert (exists k', PublishInfoCheck name i = Some k' /\ (k' = SOFTBUS_OK -> k = SOFTBUS_OK)) as (k' & Hk' & Hkk).
  { unfold PublishInfoCheck. destruct (name_check _ _ =? SOFTBUS_OK) eqn:En; cbn [negb]; [by eauto|]. eexists. split; [done|]. lia. }
  apply (wps_lift _ k'); [done|]. destruct (k' =? SOFTBUS_OK) eqn:Ek; cbn [negb]; [|stays_put].
  apply if_up; [done|]. intros Ei Hg Hm. destruct (common_check_ok (pi_medium i) (pi_freq i) _ _ Hb) as (_ & buf & Hcopy); [rewrite Hk; f_equal; apply Hkk; lia|].
  apply keeps_up. by eapply (wps_create_register e d c b _ _ _ _ _ _ _ _ buf name 0 PUBLISH_SERVICE PUBLISH_SERVICE PUBLISH_FUNC).
Qed.

Lemma start_discovery_keeps e d c b r name info cb : sys_inv e (d, c, b) -> fits (d, c, b) ->
  (forall i, info = Some i -> buffer_ok (si_capabilityData i) (si_dataLen i)) -> cb <> Some 0 ->
  wps (DiscStartDiscovery coapI bleI r name info cb) (fun _ s' => keeps e s') (d, c, b).
Proof.
  intros Hs [Hroomy Hrooms] Hb Hcb. unfold DiscStartDiscovery. destruct name as [name|]; [|stays_put]. destruct info as [i|]; [|stays_put].
  destruct cb as [f|]; [|stays_put]. specialize (Hb i eq_refl).
  wps_step. destruct (common_check_total (si_medium i) (si_freq i) _ _ Hb) as [k Hk].
  assert (exists k', SubscribeInfoCheck name i = Some k' /\ (k' = SOFTBUS_OK -> k = SOFTBUS_OK)) as (k' & Hk' & Hkk).
  { unfold SubscribeInfoCheck. destruct (name_check _ _ =? SOFTBUS_OK) eqn:En; cbn [negb]; [by eauto|]. eexists. split; [done|]. lia. }
  apply (wps_lift _ k'); [done|]. destruct (k' =? SOFTBUS_OK) eqn:Ek; cbn [negb]; [|stays_put].
  apply if_up; [done|]. intros Ei Hg Hm. destruct (common_check_ok (si_medium i) (si_freq i) _ _ Hb) as (_ & buf & Hcopy); [rewrite Hk; f_equal; apply Hkk; lia|].
  apply keeps_up. eapply (wps_create_register e d c b _ _ _ _ _ _ _ _ buf name f SUBSCRIBE_SERVICE SUBSCRIBE_SERVICE STARTDISCOVERTY_FUNC); try done.
  intros _. right. congruence.
Qed.

Lemma unregister_keeps e d c b r name n type f : sys_inv e (d, c, b) -> roomy d -> func_list f = type_list type -> adding f = false ->
  g_isInited d = true -> good ∅ None d -> media_inv e (infos d) (d, c, b) ->
  wps (let* o := on_disc (DeleteInfoFromList r (type_list type) name n type) in
       match o with
       | None => sret SOFTBUS_DISCOVER_MANAGER_INFO_NOT_DELETE
       | Some i =>
           let* ret := DiscInterfaceByMedium coapI bleI i f in
           if negb (ret =? SOFTBUS_OK) then sret ret
           else on_disc (ReleaseInfoNodeMem i type) ;; sret SOFTBUS_OK
       end) (fun _ s' => keeps e s') (d, c, b).
Proof. intros Hs Hr Hf Ha Hi Hg Hm. apply keeps_up. apply wps_unregister; try done. by apply roomy_small. Qed.

Lemma module_stop_keeps e d c b r moduleId err1 err2 (m : string -> SF St Z) : sys_inv e (d, c, b) ->
  (forall name, g_isInited d = true -> good ∅ None d -> media_inv e (infos d) (d, c, b) -> wps (m name) (fun _ s' => keeps e s') (d, c, b)) ->
  wps (if negb (module_ok moduleId) then sret SOFTBUS_INVALID_PARAM
       else let* i := on_disc (sgets g_isInited) in
            if negb i then sret err1
            else match ModuleIdToPackageName r moduleId with None => sret err2 | Some name => m name end)
    (fun _ s' => keeps e s') (d, c, b).
Proof.
  intros Hs Hm. destruct (module_ok moduleId); cbn [negb]; [|stays_put]. apply if_up; [done|]. intros Hi Hg Hmed.
  destruct (ModuleIdToPackageName r moduleId); [by apply Hm|stays_put].
Qed.

Lemma service_stop_keeps e d c b name err (m : string -> SF St Z) : sys_inv e (d, c, b) ->
  (forall name, g_isInited d = true -> good ∅ None d -> media_inv e (infos d) (d, c, b) -> wps (m name) (fun _ s' => keeps e s') (d, c, b)) ->
  wps (match name with
       | None => sret SOFTBUS_INVALID_PARAM
       | Some name => if negb (name_fits name) then sret SOFTBUS_INVALID_PARAM
           else let* i := on_disc (sgets g_isInited) in if negb i then sret err else m name
       end) (fun _ s' => keeps e s') (d, c, b).
Proof.
  intros Hs Hm. destruct name as [name|]; [|stays_put]. destruct (name_fits name); cbn [negb]; [|stays_put].
  apply if_up; [done|]. intros Hi Hg Hmed. by apply Hm.
Qed.

Lemma set_callback_keeps e d c b r moduleId cb : sys_inv e (d, c, b) -> roomy d ->
  wps (on_disc (DiscSetDiscoverCallback r moduleId cb)) (fun _ s' => keeps e s') (d, c, b).
Proof.
  intros Hs Hr. apply wps_disc. unfold DiscSetDiscoverCallback. destruct cb as [f|]; [|stays_put].
  destruct (module_ok moduleId); cbn [negb]; [|stays_put]. do 2 wps_step. destruct (g_isInited d) eqn:Ei; cbn [negb]; [|stays_put].
  destruct (ModuleIdToPackageName r moduleId) as [name|] eqn:En; [|stays_put]. destruct (y_up _ _ Hs Ei) as [Hg Hm]. cbn in Hg, Hm.
  eapply wps_mono; [apply (wps_InnerSetDiscoverCallback ∅); [done|by apply roomy_small|by eapply module_name]|].
  intros ret d' (G1 & G2 & G3 & _) _. split; cbn; [|rewrite (f_init _ _ _ G2); congruence]. intros _. split; [done|].
  rewrite G3. by eapply media_frame.
Qed.

Lemma link_keeps e d c b status md : sys_inv e (d, c, b) ->
  wps (DiscLinkStatusChanged coapI status md ;; sret 0) (fun _ s' => keeps e s') (d, c, b).
Proof.
  intros Hs. unfold DiscLinkStatusChanged. wps_step. destruct (md =? COAP); [|do 2 wps_step; by intros ?].
  wps_step. apply wps_disc. wps_step. destruct (g_discCoapInterface d) eqn:Eg; cbn [negb]; [|do 2 wps_step; by intros ?]. apply wps_coap.
  assert (forall e h, media_inv e h (d, c, b) -> med_ok c /\ in_sync c /\ counted e OnCoap h c) as Hon.
  { intros e' h [H _]. unfold medium_inv in H. cbn in H. by rewrite Eg in H. }
  assert (med_ok c) as Hok. { destruct (g_isInited d) eqn:Ei; [destruct (y_up _ _ Hs Ei) as [_ H]|destruct (y_down _ _ Hs Ei) as (_ & _ & H)]; by apply Hon in H as [? _]. }
  eapply wps_mono; [by apply law_link|]. intros ? c' (H1 & H2 & H3 & H4). wps_step. intros _.
  assert (forall e h, media_inv e h (d, c, b) -> media_inv e h (d, c', b)) as Hmove.
  { intros e' h H. destruct (Hon _ _ H) as (_ & Hsy & Hc). destruct H as [_ H]. split; [|done]. cbn. rewrite Eg. split; [done|]. split; [by apply H4|].
    intros w p Hp. destruct (Hc w p Hp) as [K1 K2]. assert (number w c' p = number w c p) as -> by (destruct w; cbn; auto). done. }
  destruct Hs as [Hu Hd]. cbn in Hu, Hd. split; cbn; [intros Hi; destruct (Hu Hi); split; auto|intros Hi; destruct (Hd Hi) as (? & ? & ?); auto].
Qed.

Lemma good_found X Y d l : good X Y d -> good X Y (d <| found := l |>).
Proof. intros [Hi Hs]. split; [|done]. eapply inv_same; [|done]. by constructor. Qed.

Lemma found_keeps e d c b r lnn bitMap device : sys_inv e (d, c, b) -> g_isInited d = true ->
  wps (on_disc (DiscOnDeviceFound r lnn bitMap device) ;; sret 0) (fun _ s' => keeps e s') (d, c, b).
Proof.
  intros Hs Hi. destruct (y_up _ _ Hs Hi) as [Hg Hm]. wps_step. apply wps_disc. destruct (lock_ok r) eqn:El.
  - eapply wps_mono; [by apply (wps_DiscOnDeviceFound ∅)|]. intros ? d' ->. wps_step. intros _.
    split; cbn; [|congruence]. intros _. split; [by apply good_found|done].
  - unfold DiscOnDeviceFound. rewrite El. cbn [negb]. wps_step. stays_put.
Qed.

Lemma death_keeps e d c b lock1 lock2 name : sys_inv e (d, c, b) -> roomy d ->
  wps (on_disc (DiscMgrDeathCallback lock1 lock2 name) ;; sret 0) (fun _ s' => keeps false s') (d, c, b).
Proof.
  intros Hs Hr. assert (sys_inv false (d, c, b)) as Hs'.
  { destruct Hs as [H1 H2]. split; [|done]. intros Hi. destruct (H1 Hi) as [? ?]. split; [done|]. by eapply media_weaken. }
  wps_step. apply wps_disc. unfold DiscMgrDeathCallback. do 2 wps_step. destruct name as [name|]; [|wps_step; stays_put].
  destruct (g_isInited d) eqn:Ei; cbn [negb]; [|wps_step; stays_put]. destruct (y_up _ _ Hs Ei) as [Hg Hm]. cbn in Hg, Hm.
  wps_step. eapply wps_mono; [by apply (wps_DiscMgrInfoListDeinit ∅ d lock1 PUBLISH_SERVICE (Some name)); [|by apply roomy_small]|].
  intros ? d1 (G1 & G2 & G3 & _). eapply wps_mono; [apply (wps_DiscMgrInfoListDeinit ∅ d1 lock2 SUBSCRIBE_SERVICE (Some name)); [done|]|].
  { apply (small_frame 0 d); [done|]. unfold roomy in Hr. lia. }
  intros ? d2 (K1 & K2 & K3 & _). wps_step. intros _. pose proof (frame_trans _ _ 0 _ _ _ G2 K2 ltac:(lia)) as Hf.
  split; cbn; [|rewrite (f_init _ _ _ Hf); congruence]. intros _. split; [done|]. eapply media_frame; [done|].
  eapply media_weaken; [| |done]; [done|]. destruct G3 as [? _], K3 as [? _]. by etrans.
Qed.

(** Nothing is left when no package is. *)
Lemma lists_empty d : inv ∅ None d -> (forall w, lst w d = []) -> infos d = ∅ /\ items d = ∅.
Proof.
  intros Hi Hl. split; apply map_empty; intros a.
  - destruct (infos d !! a) as [inf|] eqn:Ea; [|done]. destruct (v_infos _ _ _ Hi a inf Ea) as [_ [H|(k & it & Hk & _)]]; [set_solver|].
    rewrite Hl in Hk. by apply elem_of_nil in Hk.
  - destruct (items d !! a) as [it|] eqn:Ea; [|done]. assert (is_Some (items d !! a)) as H by eauto.
    apply (v_items _ _ _ Hi) in H. rewrite !Hl in H. by destruct H as [?%elem_of_nil|?%elem_of_nil].
Qed.

Lemma wps_drop_all X d type : good X None d -> small d ->
  wps (DiscMgrInfoListDeinit true (type_list type) type None) (fun _ d' => good X None d' /\ frame 0 d d' /\
    lst (type_list type) d' = [] /\ forall w, w <> type_list type -> lst w d' = lst w d) d.
Proof.
  intros Hg Hs. eapply wps_mono; [by apply (wps_DiscMgrInfoListDeinit X d true type None)|].
  intros ? d' (G1 & G2 & (_ & _ & G3) & G4). split; [done|]. split; [done|]. split; [|done].
  destruct (lst _ d') as [|k l] eqn:El; [done|]. destruct (lst_item _ _ _ (type_list type) k (proj1 G1)) as [it Hit]; [rewrite El; set_solver|].
  by pose proof (G4 eq_refl k it ltac:(set_solver) Hit).
Qed.

Lemma deinit_keeps e d c b : sys_inv e (d, c, b) -> roomy d ->
  wps (DiscMgrDeinit DiscCoapDeinit DiscBleDeinit true true ;; sret 0) (fun _ s' => keeps true s') (d, c, b).
Proof.
  intros Hs Hr. wps_step. unfold DiscMgrDeinit. wps_step. apply wps_disc. wps_step. destruct (g_isInited d) eqn:Ei; cbn [negb].
  2:{ do 2 wps_step. intros _. destruct (y_down _ _ Hs Ei) as (? & ? & ?). split; [cbn; congruence|]. auto. }
  destruct (y_up _ _ Hs Ei) as [Hg Hm]. cbn in Hg, Hm. wps_step. apply wps_disc.
  eapply wps_mono; [apply (wps_drop_all ∅ d PUBLISH_SERVICE); [done|by apply roomy_small]|]. intros ? d1 (G1 & G2 & G3 & G4).
  wps_step. apply wps_disc. eapply wps_mono; [apply (wps_drop_all ∅ d1 SUBSCRIBE_SERVICE); [done|]|].
  { apply (small_frame 0 d); [done|]. unfold roomy in Hr. lia. }
  intros ? d2 (K1 & K2 & K3 & K4). wps_step. apply wps_disc. wps_steps. apply wps_disc. wps_steps. apply wps_coap.
  assert (forall e h, media_inv e h (d, c, b) -> (base c \/ med_ok c) /\ (base b \/ med_ok b)) as Hbase.
  { intros e' h [H1 H2]. unfold medium_inv in H1, H2. cbn in H1, H2. split.
    - destruct (g_discCoapInterface d); [right; apply H1|left; apply H1].
    - destruct (g_discBleInterface d); [right; apply H2|left; apply H2]. }
  destruct (Hbase _ _ Hm) as [Hbc Hbb]. eapply wps_mono; [by apply law_deinit|]. intros ? c' Hc'. wps_step. apply wps_ble.
  eapply wps_mono; [by apply law_deinit|]. intros ? b' Hb'. apply wps_disc. wps_steps. intros _. split; [done|]. intros _. cbn.
  destruct (lists_empty d2) as [E1 E2]; [apply K1| |].
  { intros []; [|done]. rewrite (K4 PublishList) by done. done. }
  rewrite E1, E2. split; [done|]. split; [done|]. split; (split; [done|by intros ? ?]).
Qed.

Lemma tally_empty m w p : tally m w p ∅ = 0.
Proof. unfold tally. by rewrite map_filter_empty, map_size_empty. Qed.

(** A medium before and after its initialisation. *)
Lemma medium_init {D F} {I : DiscoveryFuncInterface D} `{!Medium I} {init : F -> SF D bool} {deinit} `{!MediumLife I init deinit}
    m on f (x : D) : medium_inv (init := init) true m on ∅ x -> wps (init f) (fun ok x' => medium_inv (init := init) true m ok ∅ x') x.
Proof.
  intros H. eapply wps_mono; [apply (law_init f)|].
  - unfold medium_inv in H. destruct on; [right|left; apply H]. destruct H as (H1 & H2 & H3). split; [done|]. split; [done|].
    intros p Hp. destruct (H3 PublishList p Hp) as [_ K1], (H3 DiscoveryList p Hp) as [_ K2]. rewrite tally_empty in K1, K2. cbn in K1, K2. auto.
  - intros ok x' Hx. unfold medium_inv. destruct ok; [|split; [done|by intros ? ?]]. destruct Hx as (H1 & H2 & H3). split; [done|]. split; [done|].
    intros w p Hp. destruct (H3 p Hp) as [K1 K2]. rewrite tally_empty. destruct w; cbn; rewrite ?K1, ?K2; (split; [lia|done]).
Qed.

(** The empty registry. *)
Lemma empty_good d : infos d = ∅ -> items d = ∅ -> (forall w, get_list w d = Some (mkList [] 0)) ->
  g_capabilityList d = replicate 8 [] -> good ∅ None d.
Proof.
  intros Ei Ea El Ec. assert (forall w, lst w d = []) as Hl by (intros w; unfold lst; by rewrite El).
  assert (forall w i, ~ placed w d i) as Hp by (intros w i (a & it & Ha & _); rewrite Hl in Ha; by apply elem_of_nil in Ha).
  split; [constructor|].
  - intros w. rewrite El. eauto.
  - intros w. rewrite Hl. constructor.
  - intros w. unfold cnt_of. by rewrite El, Hl.
  - intros a. rewrite Ea, lookup_empty, !Hl. split; [by intros []|]. by intros [?%elem_of_nil|?%elem_of_nil].
  - intros a. rewrite Hl. by intros ?%elem_of_nil.
  - intros a it. by rewrite Ea, lookup_empty.
  - intros a it. by rewrite Ea, lookup_empty.
  - intros w a it i. rewrite Hl. by intros ?%elem_of_nil.
  - intros i inf. by rewrite Ei, lookup_empty.
  - intros i. set_solver.
  - by rewrite Ec, length_replicate.
  - intros p l. rewrite Ec. intros [-> _]%lookup_replicate_1 _. split; [constructor|]. intros i. split; [by intros ?%elem_of_nil|]. intros [H _]. by apply Hp in H.
  - intros a. rewrite Ea, Ei, !lookup_empty. by intros [[]|[]].
  - intros a it Ha. rewrite Hl in Ha. by apply elem_of_nil in Ha.
Qed.

Lemma init_keeps e d c b fc fb mem1 mem2 : sys_inv e (d, c, b) ->
  wps (DiscMgrInit DiscCoapInit DiscBleInit fc fb mem1 mem2) (fun _ s' => keeps e s') (d, c, b).
Proof.
  intros Hs. unfold DiscMgrInit. wps_step. apply wps_disc. wps_step. destruct (g_isInited d) eqn:Ei; [stays_put|].
  destruct (y_down _ _ Hs Ei) as (E1 & E2 & [Hmc Hmb]). cbn in E1, E2, Hmc, Hmb. wps_step. apply wps_coap.
  eapply wps_mono; [by eapply medium_init|]. intros p c' Hc. wps_step. apply wps_disc. wps_steps. apply wps_ble.
  eapply wps_mono; [by eapply medium_init|]. intros q b' Hb. wps_step. apply wps_disc. wps_step.
  destruct (negb p && negb q).
  { wps_step. intros _. split; cbn; [congruence|]. intros _. split; [done|]. split; [done|]. split; done. }
  wps_step. apply wps_disc. wps_step. destruct (negb mem1 || negb mem2) eqn:Em.
  { wps_step. intros _. split; cbn; [congruence|]. intros _. split; [done|]. split; [done|]. split; done. }
  destruct mem1, mem2; try done. wps_step. apply wps_disc. wps_steps. intros _. split; cbn; [|done]. intros _. split.
  - by apply empty_good; [..|intros []|].
  - eapply (media_weaken true _ ∅); cbn; rewrite ?E1; [done|done|]. split; done.
Qed.

(** A call from a state with the invariant ends without a fault. *)
Lemma exec_keeps e o s : sys_inv e s -> allowed o s -> fits s ->
  wps (exec o) (fun _ s' => keeps (next_exact o e) s') s.
Proof.
  destruct s as [[d c] b]. intros Hs Ha Hf. pose proof Hf as [Hr _]. cbn in Hr.
  destruct o; cbn [exec next_exact allowed] in *.
  - by apply init_keeps.
  - destruct Ha as [-> ->]. by eapply deinit_keeps.
  - apply publish_inner_keeps; [done..|]. by intros i ->.
  - apply publish_inner_keeps; [done..|]. by intros i ->.
  - apply module_stop_keeps; [done|]. intros name ???. by apply (unregister_keeps e d c b r name n PUBLISH_INNER_SERVICE UNPUBLISH_FUNC).
  - apply subscribe_inner_keeps; [done..|]. by intros i ->.
  - apply subscribe_inner_keeps; [done..|]. by intros i ->.
  - apply module_stop_keeps; [done|]. intros name ???. by apply (unregister_keeps e d c b r name n SUBSCRIBE_INNER_SERVICE STOPDISCOVERY_FUNC).
  - apply publish_service_keeps; [done..|]. by intros i ->.
  - apply service_stop_keeps; [done|]. intros nm ???. by apply (unregister_keeps e d c b r nm n PUBLISH_SERVICE UNPUBLISH_FUNC).
  - destruct info as [i|]; [|unfold DiscStartDiscovery; destruct name; stays_put]. destruct Ha as [Ha Hcb].
    apply start_discovery_keeps; [done..| |done]. by intros ? [= <-].
  - apply service_stop_keeps; [done|]. intros nm ???. by apply (unregister_keeps e d c b r nm n SUBSCRIBE_SERVICE STOPDISCOVERY_FUNC).
  - by apply set_callback_keeps.
  - by apply link_keeps.
  - by eapply death_keeps.
  - by apply found_keeps.
Qed.

(** ** Reachable states *)

(** Before the first initialisation. *)
Record start (s : St) : Prop := {
  st_init : g_isInited s.1.1 = false;
  st_infos : infos s.1.1 = ∅;
  st_items : items s.1.1 = ∅;
  st_ptr : g_discCoapInterface s.1.1 = false /\ g_discBleInterface s.1.1 = false;
  st_base : base (MediumLife := MediumLife0) s.1.2 /\ base (MediumLife := MediumLife1) s.2 }.

(** Sequences of calls during which every medium accepted what it was asked for,
    with whether the counts of the media are exact. *)
Inductive reach : bool -> St -> Prop :=
  | reach_start s : start s -> reach true s
  | reach_step e o s r s' : reach e s -> accepted (calls s.1.1) -> allowed o s -> fits s -> exec o s = Some (r, s') ->
      reach (next_exact o e) s'.

Lemma start_inv s : start s -> sys_inv true s.
Proof.
  intros [H1 H2 H3 [H4 H5] [H6 H7]]. split; [congruence|]. intros _. split; [done|]. split; [done|].
  unfold media_inv. rewrite H4, H5. split; (split; [done|by intros ? ?]).
Qed.

Lemma reach_inv e s : reach e s -> accepted (calls s.1.1) -> sys_inv e s.
Proof.
  induction 1 as [s Hs|e o s r s' Hr IH Ha Hal Hf He]; intros Hacc; [by apply start_inv|].
  pose proof (exec_keeps e o s (IH Ha) Hal Hf) as Hk. unfold wps in Hk. rewrite He in Hk. by apply Hk.
Qed.

(** C7: the discovery manager with any media that keep the promises of the interface: after any sequence of calls in which
    the media accepted every request, no further call touches a freed or missing object (it ends with a result, even when a
    medium refuses in that very call), and the registry is consistent: package names are unique in each list, identifiers in each
    package, the counters are the lengths of the lists, every information is in exactly one package, the capability
    lists hold exactly the subscriptions of their capability. *)
Theorem disc_registry_safe e s : reach e s -> accepted (calls s.1.1) ->
  (g_isInited s.1.1 = true -> inv ∅ None s.1.1) /\ forall o, allowed o s -> fits s -> is_Some (exec o s).
Proof.
  intros Hr Ha. pose proof (reach_inv e s Hr Ha) as Hs. split; [intros Hi; apply (y_up _ _ Hs Hi)|].
  intros o Hal Hf. pose proof (exec_keeps e o s Hs Hal Hf) as Hk. apply wps_run in Hk as (a & s' & -> & _). eauto.
Qed.

(** The medium CoAP counts what is registered. *)
Lemma reach_counts e s : reach e s -> accepted (calls s.1.1) -> g_isInited s.1.1 = true -> g_discCoapInterface s.1.1 = true ->
  med_ok s.1.2 /\ in_sync s.1.2 /\ counted e OnCoap (infos s.1.1) s.1.2.
Proof.
  intros Hr Ha Hi Hc. destruct (y_up _ _ (reach_inv e s Hr Ha) Hi) as [_ [H _]]. unfold medium_inv in H. by rewrite Hc in H.
Qed.
End system.

(** ** Devices that are found *)

(** The subscriptions for a capability in [bitMap]. *)
Definition interested (bitMap : Z) (h : gmap nat DiscInfo) : list nat :=
  (filter (fun x => kind x.2 = DiscoveryList /\ Z.testbit bitMap (position x.2) = true) (map_to_list h)).*1.

Lemma bit_testbit b p : 0 <= p < 8 -> IsBitmapSet b p = Z.testbit b p.
Proof.
  intros Hp. unfold IsBitmapSet, CAPABILITY_MAX_BITNUM. replace (p >? 8) with false by bool_lia.
  rewrite Z.shiftl_1_l, u32_small by (split; [lia|apply Z.pow_lt_mono_r; lia]). destruct (Z.testbit b p) eqn:E.
  - apply negb_true_iff, Z.eqb_neq. intros H0. assert (Z.testbit (Z.land (2 ^ p) b) p = false) as H by (by rewrite H0, Z.bits_0).
    rewrite Z.land_spec, Z.pow2_bits_true, E in H by lia. done.
  - apply negb_false_iff, Z.eqb_eq, Z.bits_inj'. intros n Hn. rewrite Z.land_spec, Z.bits_0, Z.pow2_bits_eqb by lia.
    destruct (p =? n) eqn:En; [|done]. assert (n = p) as -> by lia. by rewrite E.
Qed.

Lemma elem_of_subscribers bitMap ps s i : i ∈ subscribers bitMap ps s <-> exists p l, p ∈ ps /\ IsBitmapSet bitMap p = true /\
  g_capabilityList s !! Z.to_nat p = Some l /\ i ∈ l.
Proof.
  unfold subscribers. rewrite list_elem_of_bind. split.
  - intros (p & Hi & Hp). destruct (IsBitmapSet bitMap p) eqn:E; [|by apply elem_of_nil in Hi].
    destruct (g_capabilityList s !! Z.to_nat p) as [l|] eqn:El; [|by apply elem_of_nil in Hi]. by exists p, l.
  - intros (p & l & Hp & E & El & Hi). exists p. by rewrite E, El.
Qed.

(** An information is in one capability list, once. *)
Lemma subscribers_nodup X Y bitMap s ps : inv X Y s -> NoDup ps -> (forall p, p ∈ ps -> 0 <= p < 8) -> NoDup (subscribers bitMap ps s).
Proof.
  intros Hi Hnd Hps. induction Hnd as [|p ps Hp Hnd IH]; [constructor|]. unfold subscribers. rewrite bind_cons. fold (subscribers bitMap ps s).
  assert (0 <= p < 8) as Hr by (apply Hps; set_solver). apply NoDup_app. split_and!; [| |apply IH; set_solver].
  - destruct (IsBitmapSet bitMap p); [|constructor]. destruct (g_capabilityList s !! Z.to_nat p) as [l|] eqn:El; [|constructor].
    apply (v_cap _ _ _ Hi p l El). lia.
  - intros i Hin (q & l' & Hq & _ & Eq & Hin')%elem_of_subscribers. assert (0 <= q < 8) by (apply Hps; set_solver).
    destruct (IsBitmapSet bitMap p); [|by apply elem_of_nil in Hin]. destruct (g_capabilityList s !! Z.to_nat p) as [l|] eqn:El; [|by apply elem_of_nil in Hin].
    apply (v_cap _ _ _ Hi p l El) in Hin as (_ & inf & H1 & H2); [|lia]. apply (v_cap _ _ _ Hi q l' Eq) in Hin' as (_ & inf' & H3 & H4); [|lia].
    assert (p = q) by congruence. set_solver.
Qed.

Lemma subscribers_interested s bitMap : inv ∅ None s -> subscribers bitMap (seqZ 0 CAPABILITY_MAX_BITNUM) s ≡ₚ interested bitMap (infos s).
Proof.
  intros Hi. assert (forall p, p ∈ seqZ 0 CAPABILITY_MAX_BITNUM <-> 0 <= p < 8) as Hps by (intros p; rewrite elem_of_seqZ; unfold CAPABILITY_MAX_BITNUM; lia).
  apply NoDup_Permutation.
  - eapply subscribers_nodup; [done|apply NoDup_seqZ|]. intros p. by rewrite Hps.
  - unfold interested. apply NoDup_fmap_filter, NoDup_fst_map_to_list.
  - intros i. rewrite elem_of_subscribers. unfold interested. rewrite list_elem_of_fmap. split.
    + intros (p & l & Hp & E & El & Hin). apply Hps in Hp. apply (v_cap _ _ _ Hi p l El) in Hin as (Hpl & inf & H1 & H2); [|lia].
      exists (i, inf). split; [done|]. apply list_elem_of_filter. split; [|by apply elem_of_map_to_list].
      destruct (placed_info _ _ _ _ _ Hi Hpl) as (inf' & H3 & H4). cbn. rewrite bit_testbit in E by lia. split; congruence.
    + intros ([j inf] & -> & [[Hk Hb] Hin%elem_of_map_to_list]%list_elem_of_filter). cbn in *.
      destruct (v_infos _ _ _ Hi j inf Hin) as [Hok [?|Hpl]]; [set_solver|]. destruct (position_ok inf Hok) as (p & _ & Hp & Ep).
      destruct (lookup_lt_is_Some_2 (g_capabilityList s) (Z.to_nat p)) as [l El]; [rewrite (v_caps _ _ _ Hi); lia|].
      exists p, l. split; [by apply Hps|]. split; [rewrite bit_testbit by lia; congruence|]. split; [done|].
      apply (v_cap _ _ _ Hi p l El); [lia|]. rewrite Hk in Hpl. split; [done|]. eauto.
Qed.


(** ** The lists as a map *)

(** An allocated information that is in no list is no entry. *)
Lemma alloc_entries X s inf : good X None s -> info_ok inf -> let s0 := s <| infos := <[next s := inf]> (infos s) |> <| next := S (next s) |> in
  good ({[next s]} ∪ X) None s0 /\ same_entries s s0 /\ infos s0 !! next s = Some inf.
Proof.
  intros [Hi Hsv] Hok s0. assert (infos s !! next s = None) as Hnone.
  { destruct (infos s !! next s) eqn:E; [|done]. assert (next s < next s)%nat; [|lia]. apply (v_fresh _ _ _ Hi). right. by rewrite E. }
  split; [split; [|done]|split; [|apply lookup_insert_eq]].
  - eapply (inv_alloc X None s); try done; [|simpl; lia]. constructor; try done. simpl. lia.
  - intros w nm n i. unfold entry. change (items s0) with (items s). change (infos s0) with (<[next s := inf]> (infos s)).
    assert (lst w s0 = lst w s) as -> by (by destruct w). split; intros (a & it & jnf & A1 & A2 & A3 & A4 & A5 & A6).
    + destruct (v_info _ _ _ Hi w a it i A1 A2 A4) as (jnf' & B & _). rewrite lookup_insert_ne in A5 by congruence. by exists a, it, jnf.
    + exists a, it, jnf. rewrite lookup_insert_ne by congruence. done.
Qed.

Lemma entry_key X Y s w w' nm nm' n n' i : inv X Y s -> entry w s nm n i -> entry w' s nm' n' i -> (w', nm', n') = (w, nm, n).
Proof.
  intros Hi (a & it & inf & A1 & A2 & A3 & A4 & A5 & A6) (b & itb & jnf & B1 & B2 & B3 & B4 & B5 & B6).
  assert (b = a) as -> by (by eapply (placed_unique X Y s w w' a b)). assert (w' = w) as -> by (by eapply lst_inj). congruence.
Qed.

(** C14: each of the two lists of the manager behaves as a finite map from a package name and a number to an information:
    adding fails exactly when the package already uses the number, and otherwise adds this one entry; deleting finds the entry of
    a package and a number exactly when there is one, and removes this one entry; the other list keeps its entries. *)
Theorem disc_lists_refine_map s type r name cb inf n : let w := type_list type in good ∅ None s -> roomy s ->
  lock_ok r = true -> mem_item r = true -> info_ok inf -> kind inf = w -> (w = DiscoveryList -> name ∈ g_discModuleMap \/ cb <> 0) ->
  let i := next s in let s0 := s <| infos := <[i := inf]> (infos s) |> <| next := S i |> in
  (exists ret s', AddInfoToList r w name cb i type s0 = Some (ret, s') /\
    ((ret = SOFTBUS_OK /\ (forall j, ~ entry w s name (id inf) j) /\
      forall w' nm m j, entry w' s' nm m j <-> entry w' s nm m j \/ (w', nm, m, j) = (w, name, id inf, i)) \/
     (ret = SOFTBUS_DISCOVER_MANAGER_DUPLICATE_PARAM /\ s' = s0 /\ exists j, entry w s name (id inf) j))) /\
  (exists o s', DeleteInfoFromList r w name n type s = Some (o, s') /\
    match o with
    | Some j => entry w s name n j /\ forall w' nm m k, entry w' s' nm m k <-> entry w' s nm m k /\ (w', nm, m) <> (w, name, n)
    | None => s' = s /\ forall j, ~ entry w s name n j
    end).
Proof.
  intros w Hg Hr Hl Hmem Hok Hk Hcb i s0. split.
  - destruct (alloc_entries ∅ s inf Hg Hok) as (Hg0 & He0 & Hi0). fold i s0 in Hg0, He0, Hi0. rewrite union_empty_r_L in Hg0.
    assert (Z.of_nat (next s0) + 1 < 2 ^ 31) as Hr0 by (unfold roomy in Hr; cbn; lia).
    pose proof (wps_AddInfoToList {[i]} s0 r name cb i inf type Hg0 Hr0 ltac:(set_solver) Hi0 Hk Hcb) as Hw. fold w in Hw.
    apply wps_run in Hw as (ret & s' & E & Hw). exists ret, s'. split; [done|]. destruct (ret =? SOFTBUS_OK) eqn:Er.
    + destruct Hw as (_ & _ & _ & H1 & H2). left. split; [lia|]. split; [intros j; rewrite <- (He0 w name (id inf) j); apply H1|].
      intros w' nm m j. pose proof (H2 w' nm m j) as [K1 K2]. pose proof (He0 w' nm m j) as [L1 L2]. split.
      * intros K. destruct (K1 K) as [K3|(-> & -> & -> & ->)]; [left; by apply L1|by right].
      * intros [K|[= -> -> -> ->]]; apply K2; [left; by apply L2|by right].
    + destruct Hw as [-> H]. destruct (H Hl Hmem) as [-> (j & Hj)]. right. split; [done|]. split; [done|]. exists j. by apply He0.
  - pose proof (wps_DeleteInfoFromList ∅ s r name n type Hg (roomy_small _ Hr)) as Hw. fold w in Hw. apply wps_run in Hw as (o & s' & E & Hw).
    exists o, s'. split; [done|]. destruct o as [j|]; [|destruct Hw as [-> H]; split; [done|by apply H]].
    destruct Hw as (_ & _ & _ & _ & _ & H1 & H2). split; [done|]. intros w' nm m k. rewrite H2. split; intros [H3 H4]; (split; [done|]).
    + intros [= -> -> ->]. apply H4. by eapply (entry_inj ∅ None s w name n); [apply Hg|..].
    + intros ->. apply H4. by eapply (entry_key ∅ None s w w' name nm); [apply Hg|..].
Qed.
End DiscSystem.
