(* ===== verification/DiscNet.v ===== *)
(** * Discovery over CoAP

    The manager of [DiscManager] with the medium of [DiscCoap], on a system without
    BLE (disc_ble_virtual.c): what the device finder announces and filters for is
    what the packages registered. *)

From S2P Require Import Prelude StateFault DiscMedium DiscCoap DiscManager DiscRegistry DiscOps DiscSystem.

Module DiscNet.
Import DiscMedium DiscCoap DiscManager DiscRegistry DiscOps DiscSystem.
#[local] Open Scope sf_scope.

(** ** No BLE *)

(** The virtual medium has no functions: its initialisation returns NULL. *)
Definition no_interface : DiscoveryFuncInterface unit :=
  mkInterface unit (fun _ => fault) (fun _ => fault) (fun _ => fault) (fun _ => fault) (fun _ => fault) (fun _ => fault)
    (fun _ => fault) (fun _ => fault) (fun _ => fault).
Definition DiscBleInit (discInnerCb : Z) : SF unit bool := sret false.
Definition DiscBleDeinit : SF unit unit := sret tt.

#[export] Program Instance no_medium : Medium no_interface := {|
  med_ok _ := False; pubs _ _ := 0; subs _ _ := 0; in_sync _ := True; room _ := True |}.
Solve All Obligations with done.
#[export] Program Instance no_life : MediumLife no_interface DiscBleInit DiscBleDeinit := {| base _ := True |}.
Solve All Obligations with done.

(** ** The system *)

Abbreviation Sys := (Disc * Coap * unit)%type.

Section coap.
Context (ev : CoapEnv).

Definition disc_reach : bool -> Sys -> Prop :=
  reach (coapI := g_discCoapFuncInterface ev) (bleI := no_interface) (DiscCoapInit := DiscCoapInit) (DiscCoapDeinit := DiscCoapDeinit)
    (DiscBleInit := DiscBleInit) (DiscBleDeinit := DiscBleDeinit).

Definition side_of (w : which) : side := match w with PublishList => Pub | DiscoveryList => Sub end.

(** Someone registered capability [p] on the network. *)
Definition registered (w : which) (p : Z) (s : Sys) : Prop :=
  exists i inf, infos s.1.1 !! i = Some inf /\ kind inf = w /\ medium inf <> BLE /\ position inf = p.

Lemma registered_tally w p s : registered w p s <-> 0 < tally OnCoap w p (infos s.1.1).
Proof.
  rewrite tally_pos. split; intros (i & inf & Hi & H); exists i, inf; (split; [done|]); unfold counts, carrier in *; cbn in *.
  - destruct H as (H1 & H2 & H3). by replace (medium inf =? BLE) with false by lia.
  - destruct H as (H1 & H2 & H3). split; [done|]. split; [|done]. destruct (medium inf =? BLE) eqn:E; [done|lia].
Qed.

(** C6: what the device finder is told: after any sequence of calls of the discovery manager in which the medium accepted
    every request, the bitmap announced (for publications) and the bitmap filtered for (for subscriptions) has the bit of every
    capability for which a package holds a registration on CoAP; and unless a package died since the manager was initialised, no
    other bit. *)
Theorem disc_announces_registered e s : disc_reach e s -> accepted (calls s.1.1) -> g_isInited s.1.1 = true ->
  g_discCoapInterface s.1.1 = true ->
  forall w, exists cap, told_for (side_of w) s.1.2 = [cap] /\ forall p, 0 <= p < 32 ->
    (registered w p s -> Z.testbit cap p = true) /\ (e = true -> Z.testbit cap p = true -> registered w p s).
Proof.
  intros Hr Ha Hi Hc w. destruct (reach_counts e s Hr Ha Hi Hc) as ([Hok _] & Hsync & Hcnt).
  assert (forall p, number (I := g_discCoapFuncInterface ev) w s.1.2 p = count_of (side_of w) s.1.2 p) as Hn by (intros p; by destruct w).
  assert (exists cap, told_for (side_of w) s.1.2 = [cap] /\ forall p, 0 <= p < 32 -> Z.testbit cap p = (0 <? number (I := g_discCoapFuncInterface ev) w s.1.2 p)) as (cap & Ht & Hb).
  { setoid_rewrite Hn. unfold count_of. rewrite (Hsync (side_of w)). destruct (mgr (side_of w) s.1.2) as [i|] eqn:Em.
    - destruct (wi_cap i (Hok _ _ Em)) as (cap & H1 & _ & H2). by exists cap.
    - exists 0. split; [done|]. intros p Hp. by rewrite Z.bits_0. }
  exists cap. split; [done|]. intros p Hp. rewrite Hb, registered_tally by done. destruct (Hcnt w p Hp) as [H1 H2].
  split; [intros; lia|]. intros He. rewrite H2 by done. lia.
Qed.
End coap.

(** ** A run *)

(** Every call of the device finder succeeds. *)
Definition env0 : CoapEnv := mkCoapEnv (fun _ _ => 0) (fun _ => true) (fun _ => Some 5684) (fun _ => true).
Definition init_env0 : InitEnv := mkInitEnv true true true true true true (Some 1).
Definition res0 : Res := mkRes true true true true true.
Definition state0 : Sys := (mkDisc false None None false false [] ∅ ∅ 0 [] [], mkCoap None None false [] 0, tt).

Definition exec0 : op (Fc := InitEnv) (Fb := Z) -> SF Sys Z :=
  exec (coapI := g_discCoapFuncInterface env0) (bleI := no_interface) (DiscCoapInit := DiscCoapInit) (DiscCoapDeinit := DiscCoapDeinit)
    (DiscBleInit := DiscBleInit) (DiscBleDeinit := DiscBleDeinit).

Abbreviation op0 := (@op InitEnv Z).

(** A package publishes "hicall" and another one subscribes to it, on medium [m]. *)
Definition op_init : op0 := OInit init_env0 0 true true.
Definition op_publish (m : Z) : op0 :=
  OPublishService res0 (Some "phone"%string) (Some (mkPublishInfo 1 DISCOVER_MODE_ACTIVE m LOW "hicall" None 0)).
Definition op_subscribe (m : Z) : op0 :=
  OStartDiscovery res0 (Some "watch"%string) (Some (mkSubscribeInfo 2 DISCOVER_MODE_ACTIVE m LOW true false "hicall" None 0)) (Some 77).

Fixpoint run0 (os : list op0) (s : Sys) : Datatypes.option Sys :=
  match os with [] => Some s | o :: os => '(_, s) ← exec0 o s; run0 os s end.

(** The conditions of a step as a test. *)
Definition accepted_b (l : list MediumCall) : bool := forallb (fun '(MCall _ _ _ r) => r =? SOFTBUS_OK) l.
Definition room_b (f : Z -> Z) : bool := forallb (fun p => f p + 1 <? 2 ^ 15) (seqZ 0 32).
Definition step_b (s : Sys) : bool :=
  accepted_b (calls s.1.1) && (Z.of_nat (next s.1.1) + 2 <? 2 ^ 31) && room_b (count_of Pub s.1.2) && room_b (count_of Sub s.1.2) &&
  negb (g_discBleInterface s.1.1).

Lemma accepted_b_ok l : accepted_b l = true -> accepted l.
Proof.
  intros H m t o r Hin. unfold accepted_b in H. rewrite forallb_forall in H. specialize (H _ (proj1 (list_elem_of_In _ _) Hin)). cbn in H. lia.
Qed.
Lemma room_b_ok f : room_b f = true -> coap_room f.
Proof.
  intros H p Hp. unfold room_b in H. rewrite forallb_forall in H. specialize (H p). cbv beta in H.
  assert (p ∈ seqZ 0 32) as Hin by (apply elem_of_seqZ; lia). apply list_elem_of_In in Hin. specialize (H Hin). lia.
Qed.

(** Steps from tested states. *)
Fixpoint tested (os : list op0) (s : Sys) : bool :=
  match os with [] => true | o :: os => step_b s && match exec0 o s with Some (_, s') => tested os s' | None => false end end.

Lemma run_reach os e s s' : disc_reach env0 e s -> tested os s = true -> run0 os s = Some s' -> Forall (fun o => forall s : Sys, allowed o s) os ->
  Forall (fun o => forall e, next_exact o e = e) os -> disc_reach env0 e s'.
Proof.
  revert s. induction os as [|o os IH]; intros s Hr Ht Hrun Hall Hex; cbn in Hrun, Ht; [by simplify_eq|].
  apply andb_true_iff in Ht as [Hstep Ht]. destruct (exec0 o s) as [[r s1]|] eqn:Eo; [|done]. cbn in Hrun.
  apply Forall_cons in Hall as [Ho Hall]. apply Forall_cons in Hex as [Hx Hex]. apply (IH s1); try done. rewrite <- (Hx e).
  unfold step_b in Hstep. rewrite !andb_true_iff in Hstep. destruct Hstep as ((((H1 & H2) & H3) & H4) & H5).
  eapply reach_step; [done|by apply accepted_b_ok|by apply Ho| |done]. split; [unfold roomy; lia|]. split; [|intros K; by rewrite K in H5].
  intros _. split; by apply room_b_ok.
Qed.

Lemma start0 : disc_reach env0 true state0.
Proof. apply reach_start. split; try done. split; [|done]. split; by intros []. Qed.

Definition ops_ok : list op0 := [op_init; op_publish AUTO; op_subscribe COAP].
Definition state_ok : Sys := default state0 (run0 ops_ok state0).
Lemma reach_ok : disc_reach env0 true state_ok.
Proof.
  eapply (run_reach ops_ok); [apply start0|by vm_compute|by vm_compute| |].
  - repeat constructor; done.
  - repeat constructor; done.
Qed.

Lemma accepted_ok : accepted (calls state_ok.1.1).
Proof. apply accepted_b_ok. by vm_compute. Qed.

Lemma disc_announces_registered_witness : registered PublishList 0 state_ok /\ exists cap, told_for Pub state_ok.1.2 = [cap] /\ Z.testbit cap 0 = true.
Proof.
  assert (registered PublishList 0 state_ok) as Hp by (exists 0%nat; eexists; split; [vm_compute; reflexivity|]; done).
  split; [exact Hp|].
  destruct (disc_announces_registered env0 true state_ok reach_ok accepted_ok ltac:(by vm_compute) ltac:(by vm_compute) PublishList) as (cap & H1 & H2).
  exists cap. split; [exact H1|]. apply (H2 0); [lia|exact Hp].
Defined.

Lemma fits_ok : fits (coapI := g_discCoapFuncInterface env0) (bleI := no_interface) state_ok.
Proof. split; [by vm_compute|]. split; [|done]. intros _. split; apply room_b_ok; by vm_compute. Qed.

Lemma disc_registry_safe_witness : inv ∅ None state_ok.1.1 /\ is_Some (exec0 (OUnPublishService res0 (Some "phone"%string) 1) state_ok).
Proof.
  destruct (disc_registry_safe (coapI := g_discCoapFuncInterface env0) (bleI := no_interface) (DiscCoapInit := DiscCoapInit)
    (DiscCoapDeinit := DiscCoapDeinit) (DiscBleInit := DiscBleInit) (DiscBleDeinit := DiscBleDeinit) true state_ok reach_ok accepted_ok) as [H1 H2].
  split; [apply H1; vm_compute; reflexivity|]. apply H2; [exact I|apply fits_ok].
Defined.

Lemma good_ok : good ∅ None state_ok.1.1.
Proof. eapply y_up; [eapply reach_inv; [apply reach_ok|apply accepted_ok]|by vm_compute]. Qed.


(** A second publication under a number that is in use is refused, and the first one can be taken back. *)
Definition info_again : DiscInfo := mkInfo 1 DISCOVER_MODE_ACTIVE AUTO (publishOption (mkPublishOption LOW [2] [] 0)) None.
Lemma disc_lists_refine_map_witness :
  (exists s', AddInfoToList res0 PublishList "phone" 0 (next state_ok.1.1) PUBLISH_SERVICE
     (state_ok.1.1 <| infos := <[next state_ok.1.1 := info_again]> (infos state_ok.1.1) |> <| next := S (next state_ok.1.1) |>) =
     Some (SOFTBUS_DISCOVER_MANAGER_DUPLICATE_PARAM, s')) /\
  exists j s', DeleteInfoFromList res0 PublishList "phone" 1 PUBLISH_SERVICE state_ok.1.1 = Some (Some j, s') /\
    forall k, ~ entry PublishList s' "phone" 1 k.
Proof.
  destruct (disc_lists_refine_map state_ok.1.1 PUBLISH_SERVICE res0 "phone" 0 info_again 1 good_ok) as [(ret & s1 & E1 & H1) (o & s2 & E2 & H2)].
  - vm_compute. reflexivity.
  - reflexivity.
  - reflexivity.
  - exists 1. split; [reflexivity|lia].
  - reflexivity.
  - discriminate.
  - assert (exists j, entry PublishList state_ok.1.1 "phone" 1 j) as [j Hj].
    { exists 0%nat. eexists 1%nat, _, _. split_and!; [apply list_elem_of_lookup_2 with (i := 0%nat); vm_compute; reflexivity|vm_compute; reflexivity| | |vm_compute; reflexivity|];
        [reflexivity|apply list_elem_of_lookup_2 with (i := 0%nat); reflexivity|reflexivity]. }
    split.
    + destruct H1 as [(_ & H1 & _)|(-> & _ & _)]; [exfalso; exact (H1 j Hj)|]. exists s1. exact E1.
    + destruct o as [j'|]; [|exfalso; destruct H2 as [_ H2]; exact (H2 j Hj)]. exists j', s2. split; [exact E2|]. destruct H2 as [_ H2].
      intros k Hk. destruct (proj1 (H2 _ _ _ _) Hk) as [_ H3]. apply H3. reflexivity.
Defined.

(** ** What the conditions exclude *)

(** A medium that is not there refuses a publication: the call fails and frees the information, which stays in its
    package; the next call for the package uses it after it was freed. *)
Definition state_refused : Datatypes.option Sys := run0 [op_init; op_publish BLE] state0.
Lemma refused_publication_is_freed_but_listed :
  is_Some state_refused /\ state_refused ≫= exec0 (OUnPublishService res0 (Some "phone"%string) 1) = None.
Proof. split; [by vm_compute; eexists|by vm_compute]. Qed.

(** A package that dies leaves its capability announced. *)
Definition state_dead : Datatypes.option Sys := run0 [op_init; op_publish AUTO; ODeath true true (Some "phone"%string)] state0.
Lemma dead_package_stays_announced :
  (fun s : Sys => (map_to_list (infos s.1.1), announced s.1.2)) <$> state_dead = Some ([], [1]).
Proof. by vm_compute. Qed.
End DiscNet.
