(* ===== verification/LnnNodeInfo.v ===== *)
(** * Node information of the net ledgers (core/bus_center/lnn/net_ledger/common)

    The records of [lnn_node_info.h], [lnn_device_info.h] and
    [lnn_connect_info.h], the accessors of [lnn_node_info.c] and
    [lnn_device_info.c], the capability bits of [lnn_net_capability.c], and the
    memory image of a [NodeInfo], which is what the ledgers' hash tables store.

    A character array that holds a text is the text before its terminator; a
    pointer to a record is an [option] of it.  The image is the one of a
    little-endian target with natural alignment; bytes the program never reads
    (padding, the rest of an array after the terminator) are 0. *)

From S2P Require Import Prelude.

Module LnnNodeInfo.

(** The characters of a literal. *)
Definition text (s : string) : list Z := (fun a => Z.of_N (Ascii.N_of_ascii a)) <$> String.list_ascii_of_string s.

(** ** Data *)

Definition VERSION_MAX_LEN : Z := 16.
Definition UUID_BUF_LEN : Z := 65.
Definition NETWORK_ID_BUF_LEN : Z := 65.
Definition UDID_BUF_LEN : Z := 65.
Definition ID_MAX_LEN : Z := 72.
Definition DEVICE_NAME_BUF_LEN : Z := 128.
Definition NET_IF_NAME_LEN : Z := 20.
Definition IP_MAX_LEN : Z := 46.
Definition MAC_LEN : Z := 18.
Definition DEFAULT_IP : list Z := [].
Definition DEFAULT_MAC : list Z := [].

Definition STATUS_OFFLINE : Z := 0.
Definition STATUS_ONLINE : Z := 1.

Definition DISCOVERY_TYPE_UNKNOWN : Z := 0.
Definition DISCOVERY_TYPE_WIFI : Z := 1.
Definition DISCOVERY_TYPE_BLE : Z := 2.
Definition DISCOVERY_TYPE_BR : Z := 3.
Definition DISCOVERY_TYPE_P2P : Z := 4.
Definition DISCOVERY_TYPE_COUNT : Z := 5.

Record DeviceBasicInfo := mkDevice { deviceName : list Z; deviceUdid : list Z; deviceTypeId : Z }.
#[export] Instance DeviceBasicInfo_fields : Fields DeviceBasicInfo :=
  {| ctor := mkDevice; projs := (deviceName, deviceUdid, deviceTypeId) |}.

Record ConnectInfo := mkConnect {
  netIfName : list Z; deviceIp : list Z; macAddr : list Z; authPort : Z; proxyPort : Z; sessionPort : Z }.
#[export] Instance ConnectInfo_fields : Fields ConnectInfo :=
  {| ctor := mkConnect; projs := (netIfName, deviceIp, macAddr, authPort, proxyPort, sessionPort) |}.

Record NodeInfo := mkNodeInfo {
  softBusVersion : list Z; versionType : list Z; uuid : list Z; networkId : list Z;
  publicId : list Z; parentId : list Z; masterUdid : list Z; masterWeight : Z;
  role : Z; status : Z; netCapacity : Z; discoveryType : Z;
  deviceInfo : DeviceBasicInfo; connectInfo : ConnectInfo; authSeqNum : Z; authChannelId : Z }.
#[export] Instance NodeInfo_fields : Fields NodeInfo :=
  {| ctor := mkNodeInfo; projs := (softBusVersion, versionType, uuid, networkId, publicId, parentId,
       masterUdid, masterWeight, role, status, netCapacity, discoveryType, deviceInfo, connectInfo,
       authSeqNum, authChannelId) |}.

#[export] Instance DeviceBasicInfo_eq_dec : EqDecision DeviceBasicInfo.
Proof. solve_decision. Defined.
#[export] Instance ConnectInfo_eq_dec : EqDecision ConnectInfo.
Proof. solve_decision. Defined.
#[export] Instance NodeInfo_eq_dec : EqDecision NodeInfo.
Proof. solve_decision. Defined.

(** ** Bounded copies *)

Definition SECUREC_STRING_MAX_LEN : Z := 0x7fffffff.

(** [strncpy_s(dst, destMax, src, strlen(src))]: whether it returned [EOK], and
    the text of [dst] after it.  A [destMax] of 0 (or above the library's limit)
    leaves [dst] alone; a source that does not fit empties it. *)
Definition strncpy_s (dst : list Z) (destMax : Z) (src : list Z) : bool * list Z :=
  if (destMax =? 0) || (destMax >? SECUREC_STRING_MAX_LEN) then (false, dst)
  else if Z.of_nat (length src) >=? destMax then (false, [])
  else (true, src).

(** [memset_s(dst, destMax, c, count)] on the bytes of an array: a [count] above
    [destMax] fills [destMax] bytes and is an error. *)
Definition memset_s (dst : list Z) (destMax c count : Z) : bool * list Z :=
  if destMax =? 0 then (false, dst)
  else
    let n := Z.to_nat (Z.min destMax count) in
    (count <=? destMax, replicate n c ++ drop n dst).

(** ** Accessors of a node (lnn_node_info.c) *)

Definition LnnHasDiscoveryType (info : option NodeInfo) (type : Z) : bool :=
  match info with
  | None => false
  | Some i =>
      if type >=? DISCOVERY_TYPE_COUNT then false
      else negb (Z.land (discoveryType i) (Z.shiftl 1 type) =? 0)
  end.

Definition LnnGetDeviceUdid (info : option NodeInfo) : option (list Z) :=
  i ← info; Some (deviceUdid (deviceInfo i)).

Definition LnnSetDeviceUdid (info : option NodeInfo) (udid : option (list Z)) : Z * option NodeInfo :=
  match info, udid with
  | Some i, Some u =>
      let '(ok, u') := strncpy_s (deviceUdid (deviceInfo i)) UDID_BUF_LEN u in
      let i' := i <| deviceInfo := (deviceInfo i) <| deviceUdid := u' |> |> in
      (if ok then SOFTBUS_OK else SOFTBUS_MEM_ERR, Some i')
  | _, _ => (SOFTBUS_INVALID_PARAM, info)
  end.

Definition LnnSetDiscoveryType (info : option NodeInfo) (type : Z) : Z * option NodeInfo :=
  match info with
  | None => (SOFTBUS_INVALID_PARAM, info)
  | Some i =>
      if type >=? DISCOVERY_TYPE_COUNT then (SOFTBUS_INVALID_PARAM, info)
      else (SOFTBUS_OK, Some (i <| discoveryType := Z.lor (discoveryType i) (Z.shiftl 1 type) |>))
  end.

Definition LnnIsNodeOnline (info : option NodeInfo) : bool :=
  match info with None => false | Some i => status i =? STATUS_ONLINE end.

Definition LnnSetNodeConnStatus (info : option NodeInfo) (st : Z) : option NodeInfo :=
  match info with None => None | Some i => Some (i <| status := st |>) end.

Definition LnnGetBtMac (info : option NodeInfo) : option (list Z) :=
  match info with None => Some DEFAULT_MAC | Some i => Some (macAddr (connectInfo i)) end.

Definition LnnSetBtMac (info : option NodeInfo) (mac : option (list Z)) : option NodeInfo :=
  match info, mac with
  | Some i, Some m =>
      let m' := (strncpy_s (macAddr (connectInfo i)) MAC_LEN m).2 in
      Some (i <| connectInfo := (connectInfo i) <| macAddr := m' |> |>)
  | _, _ => info
  end.

Definition LnnGetNetIfName (info : option NodeInfo) : option (list Z) :=
  match info with None => Some DEFAULT_MAC | Some i => Some (netIfName (connectInfo i)) end.

Definition LnnSetNetIfName (info : option NodeInfo) (name : option (list Z)) : option NodeInfo :=
  match info, name with
  | Some i, Some n =>
      let n' := (strncpy_s (netIfName (connectInfo i)) NET_IF_NAME_LEN n).2 in
      Some (i <| connectInfo := (connectInfo i) <| netIfName := n' |> |>)
  | _, _ => info
  end.

Definition LnnGetWiFiIp (info : option NodeInfo) : option (list Z) :=
  match info with None => Some DEFAULT_IP | Some i => Some (deviceIp (connectInfo i)) end.

Definition LnnSetWiFiIp (info : option NodeInfo) (ip : option (list Z)) : option NodeInfo :=
  match info, ip with
  | Some i, Some a =>
      let a' := (strncpy_s (deviceIp (connectInfo i)) IP_MAX_LEN a).2 in
      Some (i <| connectInfo := (connectInfo i) <| deviceIp := a' |> |>)
  | _, _ => info
  end.

Definition LnnGetMasterUdid (info : option NodeInfo) : option (list Z) := masterUdid <$> info.

Definition LnnSetMasterUdid (info : option NodeInfo) (udid : option (list Z)) : Z * option NodeInfo :=
  match info, udid with
  | Some i, Some u =>
      let '(ok, u') := strncpy_s (masterUdid i) UDID_BUF_LEN u in
      (if ok then SOFTBUS_OK else SOFTBUS_ERR, Some (i <| masterUdid := u' |>))
  | _, _ => (SOFTBUS_INVALID_PARAM, info)
  end.

Definition LnnGetAuthPort (info : option NodeInfo) : Z :=
  match info with None => SOFTBUS_INVALID_PARAM | Some i => authPort (connectInfo i) end.

Definition LnnSetAuthPort (info : option NodeInfo) (port : Z) : Z * option NodeInfo :=
  match info with
  | None => (SOFTBUS_INVALID_PARAM, info)
  | Some i => (SOFTBUS_OK, Some (i <| connectInfo := (connectInfo i) <| authPort := port |> |>))
  end.

Definition LnnGetSessionPort (info : option NodeInfo) : Z :=
  match info with None => SOFTBUS_INVALID_PARAM | Some i => sessionPort (connectInfo i) end.

Definition LnnSetSessionPort (info : option NodeInfo) (port : Z) : Z * option NodeInfo :=
  match info with
  | None => (SOFTBUS_INVALID_PARAM, info)
  | Some i => (SOFTBUS_OK, Some (i <| connectInfo := (connectInfo i) <| sessionPort := port |> |>))
  end.

Definition LnnGetProxyPort (info : option NodeInfo) : Z :=
  match info with None => SOFTBUS_INVALID_PARAM | Some i => proxyPort (connectInfo i) end.

(** Unlike its siblings it returns [SOFTBUS_OK] for NULL. *)
Definition LnnSetProxyPort (info : option NodeInfo) (port : Z) : Z * option NodeInfo :=
  match info with
  | None => (SOFTBUS_OK, info)
  | Some i => (SOFTBUS_OK, Some (i <| connectInfo := (connectInfo i) <| proxyPort := port |> |>))
  end.

(** ** Device names and types (lnn_device_info.c) *)

Definition DEVICE_TYPE_MAX_LENGTH : Z := 3.
Definition LEFT_SHIFT_DEVICE_TYPE_LENGTH : Z := DEVICE_TYPE_MAX_LENGTH * 4.
Definition HEX_OF_BINARY_BITS : Z := 4.
Definition LAST_FOUR_BINARY_DIGITS : Z := 16.
Definition DIVIDE_NUMBER_AND_LETTERS : Z := 10.
Definition ONE_BIT_MAX_HEX : Z := 15.

Definition TYPE_UNKNOW_ID : Z := 0x00.
Definition TYPE_PHONE_ID : Z := 0x0E.
Definition TYPE_PAD_ID : Z := 0x11.
Definition TYPE_TV_ID : Z := 0x9C.
Definition TYPE_PC_ID : Z := 0x0C.
Definition TYPE_CAR_ID : Z := 0x83.
Definition TYPE_WATCH_ID : Z := 0x6D.
Definition TYPE_IPCAMERA_ID : Z := 0x08.

Definition g_typeToIdMap : list (list Z * Z) :=
  [ (text "UNKNOWN", TYPE_UNKNOW_ID);
    (text "PHONE", TYPE_PHONE_ID);
    (text "PAD", TYPE_PAD_ID);
    (text "TV", TYPE_TV_ID);
    (text "PC", TYPE_PC_ID);
    (text "CAR", TYPE_CAR_ID);
    (text "WATCH", TYPE_WATCH_ID);
    (text "WiFiCamara", TYPE_IPCAMERA_ID) ].

(** The text in a character array: up to its terminator. *)
Fixpoint str_of (buf : list Z) : list Z :=
  match buf with
  | [] => []
  | c :: buf => if c =? 0 then [] else c :: str_of buf
  end.

Definition LnnGetDeviceName (info : option DeviceBasicInfo) : option (list Z) := deviceName <$> info.

Definition LnnSetDeviceName (info : option DeviceBasicInfo) (name : option (list Z)) : Z * option DeviceBasicInfo :=
  match info, name with
  | Some i, Some n =>
      if Z.of_nat (length n) >? DEVICE_NAME_BUF_LEN - 1 then (SOFTBUS_INVALID_PARAM, info)
      else
        let '(ok, n') := strncpy_s (deviceName i) DEVICE_NAME_BUF_LEN n in
        (if ok then SOFTBUS_OK else SOFTBUS_MEM_ERR, Some (i <| deviceName := n' |>))
  | _, _ => (SOFTBUS_INVALID_PARAM, info)
  end.

(** [None] for the id when [*typeId] is not written. *)
Definition LnnGetDeviceTypeId (info : option DeviceBasicInfo) (typeId : bool) : Z * option Z :=
  match info with
  | None => (SOFTBUS_INVALID_PARAM, None)
  | Some i => if negb typeId then (SOFTBUS_INVALID_PARAM, None) else (SOFTBUS_OK, Some (deviceTypeId i))
  end.

(** The digit of a hexadecimal character. *)
Definition hex_value (c : Z) : option Z :=
  if (c <=? 57) && (c >=? 48) then Some (c - 48)
  else if (c <=? 70) && (c >=? 65) then Some (c - 65 + DIVIDE_NUMBER_AND_LETTERS)
  else if (c <=? 102) && (c >=? 97) then Some (c - 97 + DIVIDE_NUMBER_AND_LETTERS)
  else None.

Fixpoint convert_digits (deviceType : list Z) (typeId : Z) : Z :=
  match deviceType with
  | [] => Z.shiftr typeId HEX_OF_BINARY_BITS
  | c :: rest =>
      match hex_value c with
      | Some d => convert_digits rest (u16 (Z.shiftl (Z.lor typeId d) HEX_OF_BINARY_BITS))
      | None => TYPE_UNKNOW_ID
      end
  end.

Definition ConvertStringToInt (deviceType : list Z) : Z := convert_digits deviceType 0.

Definition InterceptTypeId (typeId i : Z) : Z :=
  Z.shiftr typeId (HEX_OF_BINARY_BITS * i) mod LAST_FOUR_BINARY_DIGITS.

(** One digit into [g_stringTypeId[j]]; leading zeros are skipped. *)
Definition put_digit (typeId : Z) (st : nat * list Z) (i : Z) : nat * list Z :=
  let '(j, buf) := st in
  let d := InterceptTypeId typeId i in
  if (j =? 0)%nat && (d =? 0) then (j, buf)
  else (S j, <[j := if d <? DIVIDE_NUMBER_AND_LETTERS then d + 48 else d - DIVIDE_NUMBER_AND_LETTERS + 65]> buf).

(** The static buffer [g_stringTypeId] after the call; the result points to it. *)
Definition ConvertIntToHexString (buf : list Z) (typeId : Z) : list Z :=
  let '(j, buf) := foldl (put_digit typeId) (O, buf) [2; 1; 0] in
  <[j := 0]> buf.

(** The result code, [*typeId], and [g_stringTypeId] after the call. *)
Definition LnnConvertDeviceTypeToId (buf : list Z) (deviceType : option (list Z)) (typeId : bool)
    : Z * option Z * list Z :=
  match deviceType with
  | None => (SOFTBUS_INVALID_PARAM, None, buf)
  | Some s =>
      if negb typeId then (SOFTBUS_INVALID_PARAM, None, buf)
      else match list_find (fun e => e.1 = s) g_typeToIdMap with
           | Some (_, e) => (SOFTBUS_OK, Some e.2, buf)
           | None =>
               if Z.of_nat (length s) <=? DEVICE_TYPE_MAX_LENGTH then
                 let buf := (memset_s buf (Z.of_nat (length (str_of buf))) 48 DEVICE_TYPE_MAX_LENGTH).2 in
                 let id := ConvertStringToInt s in
                 if negb (id =? TYPE_UNKNOW_ID) then (SOFTBUS_OK, Some id, buf)
                 else (SOFTBUS_ERR, Some TYPE_UNKNOW_ID, buf)
               else (SOFTBUS_ERR, Some TYPE_UNKNOW_ID, buf)
           end
  end.

(** What a returned type name points to: a literal, or the static buffer. *)
Inductive TypeName := Literal (s : list Z) | Static.

Definition type_text (buf : list Z) (p : TypeName) : list Z :=
  match p with Literal s => s | Static => str_of buf end.

Definition LnnConvertIdToDeviceType (buf : list Z) (typeId : Z) : option TypeName * list Z :=
  match list_find (fun e => e.2 = typeId) g_typeToIdMap with
  | Some (_, e) => (Some (Literal e.1), buf)
  | None =>
      if (typeId <=? Z.shiftl ONE_BIT_MAX_HEX LEFT_SHIFT_DEVICE_TYPE_LENGTH) && (typeId >? 0)
      then (Some Static, ConvertIntToHexString buf typeId)
      else (None, buf)
  end.

(** ** Capabilities (lnn_net_capability.c) *)

Definition BIT_BLE : Z := 0.
Definition BIT_BR : Z := 1.
Definition BIT_WIFI : Z := 2.
Definition BIT_WIFI_P2P : Z := 3.
Definition BIT_WIFI_24G : Z := 4.
Definition BIT_WIFI_5G : Z := 5.
Definition BIT_ETH : Z := 6.
Definition BIT_COUNT : Z := 7.
Definition DEFAUTL_LNN_CAPBILITY : Z := 0x16.

Definition LnnSetNetCapability (capability : option Z) (type : Z) : Z * option Z :=
  match capability with
  | None => (SOFTBUS_INVALID_PARAM, None)
  | Some c =>
      if type >=? BIT_COUNT then (SOFTBUS_INVALID_PARAM, capability)
      else (SOFTBUS_OK, Some (Z.lor c (Z.shiftl 1 type)))
  end.

(** One of the six tests of [LnnGetNetCapabilty]. *)
Definition copy_bit (configValue capability type : Z) : Z :=
  if negb (Z.land configValue (Z.shiftl 1 type) =? 0)
  then default capability (LnnSetNetCapability (Some capability) type).2
  else capability.

(** [config] is what [SoftbusGetConfig] reads, [None] when it fails. *)
Definition LnnGetNetCapabilty (config : option Z) : Z :=
  let configValue := default DEFAUTL_LNN_CAPBILITY config in
  foldl (copy_bit configValue) 0 [BIT_BLE; BIT_BR; BIT_WIFI; BIT_WIFI_24G; BIT_WIFI_5G; BIT_ETH].

(** ** Memory images

    A codec of a type: its image, of a fixed size, and the reader that takes it
    off the front of the memory.  The laws are fields, so that the codec of a
    structure comes with them. *)

Record codec (A : Type) := Codec {
  c_size : nat;
  c_fits : A -> bool;
  c_put : A -> list Z;
  c_get : list Z -> A * list Z;
  c_len : forall a, c_fits a = true -> length (c_put a) = c_size;
  c_law : forall a rest, c_fits a = true -> c_get (c_put a ++ rest) = (a, rest);
}.
Arguments c_size {A}. Arguments c_fits {A}. Arguments c_put {A}. Arguments c_get {A}.
Arguments c_len {A}. Arguments c_law {A}.

(** A text fits an array when it leaves room for the terminator and holds none. *)
Definition fits (n : Z) (s : list Z) : bool :=
  (Z.of_nat (length s) <? n) && forallb (fun c => (0 <? c) && (c <? 256)) s.

Lemma str_of_app s rest : forallb (fun c => (0 <? c) && (c <? 256)) s = true -> str_of (s ++ 0 :: rest) = s.
Proof. induction s as [|c s IH]; [done|]. cbn. intros [Hc Hs]%andb_true_iff. rewrite IH by done. by case_if; [lia|]. Qed.

Definition put_text (n : Z) (s : list Z) : list Z := s ++ replicate (Z.to_nat n - length s) 0.

Program Definition text_codec (n : Z) : codec (list Z) := {|
  c_size := Z.to_nat n; c_fits := fits n; c_put := put_text n;
  c_get := fun l => (str_of (take (Z.to_nat n) l), drop (Z.to_nat n) l) |}.
Next Obligation.
  intros n s [Hl _]%andb_true_iff. unfold put_text. rewrite length_app, length_replicate. lia.
Qed.
Next Obligation.
  intros n s rest [Hl Hs]%andb_true_iff. cbn beta.
  assert (length (put_text n s) = Z.to_nat n) as Hn by (unfold put_text; rewrite length_app, length_replicate; lia).
  rewrite <- Hn, take_app_length, drop_app_length. f_equal. unfold put_text.
  replace (Z.to_nat n - length s)%nat with (S (Z.to_nat n - length s - 1)) by lia. by apply str_of_app.
Qed.

Fixpoint put_le (n : nat) (z : Z) : list Z :=
  match n with O => [] | S n => z mod 256 :: put_le n (z / 256) end.
Fixpoint get_le (l : list Z) : Z :=
  match l with [] => 0 | b :: l => b + 256 * get_le l end.

Lemma get_put_le n z : get_le (put_le n z) = z mod 256 ^ Z.of_nat n.
Proof.
  revert z. induction n as [|n IH]; intros z; [by rewrite Z.mod_1_r|]. cbn [put_le get_le]. rewrite IH.
  rewrite Nat2Z.inj_succ, Z.pow_succ_r by lia. rewrite Z.rem_mul_r by lia. done.
Qed.
Lemma length_put_le n z : length (put_le n z) = n.
Proof. revert z. induction n as [|n IH]; intros z; cbn; by rewrite ?IH. Qed.

(** An unsigned integer of [n] bytes. *)
Program Definition uint_codec (n : nat) : codec Z := {|
  c_size := n; c_fits := fun z => (0 <=? z) && (z <? 256 ^ Z.of_nat n); c_put := put_le n;
  c_get := fun l => (get_le (take n l), drop n l) |}.
Next Obligation. intros n z _. apply length_put_le. Qed.
Next Obligation.
  intros n z rest [H0 H1]%andb_true_iff. apply Z.leb_le in H0. apply Z.ltb_lt in H1. cbn beta.
  rewrite (take_app_length' (put_le n z)), (drop_app_length' (put_le n z)), get_put_le by (symmetry; apply length_put_le).
  rewrite Z.mod_small by lia. done.
Qed.

(** A signed integer of [n] bytes. *)
Program Definition sint_codec (n : nat) : codec Z := {|
  c_size := n; c_fits := fun z => (- (256 ^ Z.of_nat n / 2) <=? z) && (z <? 256 ^ Z.of_nat n / 2); c_put := put_le n;
  c_get := fun l => let z := get_le (take n l) in (if z <? 256 ^ Z.of_nat n / 2 then z else z - 256 ^ Z.of_nat n, drop n l) |}.
Next Obligation. intros n z _. apply length_put_le. Qed.
Next Obligation.
  intros n z rest [H0 H1]%andb_true_iff. apply Z.leb_le in H0. apply Z.ltb_lt in H1. cbn beta zeta.
  rewrite (take_app_length' (put_le n z)), (drop_app_length' (put_le n z)), get_put_le by (symmetry; apply length_put_le).
  f_equal. set (M := 256 ^ Z.of_nat n) in *.
  assert (0 < M) by (apply Z.pow_pos_nonneg; lia). destruct (Z.ltb_spec z 0) as [Hz0|Hz0].
  - assert (z mod M = z + M) as -> by (symmetry; apply (Z.mod_unique _ _ (-1)); Z.div_mod_to_equations; lia).
    case_if; Z.div_mod_to_equations; lia.
  - rewrite Z.mod_small by (Z.div_mod_to_equations; lia). case_if; lia.
Qed.

(** Padding the program does not read. *)
Program Definition pad_codec (n : nat) : codec unit := {|
  c_size := n; c_fits := fun _ => true; c_put := fun _ => replicate n 0; c_get := fun l => (tt, drop n l) |}.
Next Obligation. intros n []. by rewrite length_replicate. Qed.
Next Obligation. intros n [] rest _. cbn beta. rewrite <- (length_replicate n 0) at 1. by rewrite drop_app_length. Qed.

Program Definition pair_codec {A B} (ca : codec A) (cb : codec B) : codec (A * B) := {|
  c_size := c_size ca + c_size cb; c_fits := fun p => c_fits ca p.1 && c_fits cb p.2;
  c_put := fun p => c_put ca p.1 ++ c_put cb p.2;
  c_get := fun l => let '(a, l) := c_get ca l in let '(b, l) := c_get cb l in ((a, b), l) |}.
Next Obligation. intros A B ca cb [a b] [Ha Hb]%andb_true_iff. rewrite length_app, !c_len by done. done. Qed.
Next Obligation.
  intros A B ca cb [a b] rest [Ha Hb]%andb_true_iff. cbn in *. rewrite <- app_assoc. by rewrite !c_law.
Qed.

(** A structure through the tuple of its members. *)
Program Definition iso_codec {A B} (c : codec A) (f : B -> A) (g : A -> B) (H : forall b, g (f b) = b) : codec B := {|
  c_size := c_size c; c_fits := fun b => c_fits c (f b); c_put := fun b => c_put c (f b);
  c_get := fun l => let '(a, l) := c_get c l in (g a, l) |}.
Next Obligation. intros A B c f g H b Hb. by apply c_len. Qed.
Next Obligation. intros A B c f g H b rest Hb. cbn in *. by rewrite c_law, H. Qed.

#[local] Infix "⊠" := pair_codec (at level 60, right associativity).

Program Definition device_codec : codec DeviceBasicInfo :=
  iso_codec (text_codec DEVICE_NAME_BUF_LEN ⊠ text_codec UDID_BUF_LEN ⊠ pad_codec 1 ⊠ uint_codec 2)
    (fun d => (deviceName d, (deviceUdid d, (tt, deviceTypeId d))))
    (fun '(n, (u, (_, t))) => mkDevice n u t) _.
Next Obligation. by intros []. Qed.

Program Definition connect_codec : codec ConnectInfo :=
  iso_codec (text_codec NET_IF_NAME_LEN ⊠ text_codec IP_MAX_LEN ⊠ text_codec MAC_LEN ⊠
             sint_codec 4 ⊠ sint_codec 4 ⊠ sint_codec 4)
    (fun c => (netIfName c, (deviceIp c, (macAddr c, (authPort c, (proxyPort c, sessionPort c))))))
    (fun '(n, (i, (m, (a, (p, s))))) => mkConnect n i m a p s) _.
Next Obligation. by intros []. Qed.

(** 704 bytes: one byte of padding before [masterWeight], four before
    [authSeqNum] and four at the end. *)
Program Definition node_codec : codec NodeInfo :=
  iso_codec (text_codec VERSION_MAX_LEN ⊠ text_codec VERSION_MAX_LEN ⊠ text_codec UUID_BUF_LEN ⊠
             text_codec NETWORK_ID_BUF_LEN ⊠ text_codec ID_MAX_LEN ⊠ text_codec ID_MAX_LEN ⊠ text_codec UDID_BUF_LEN ⊠
             pad_codec 1 ⊠ sint_codec 4 ⊠ uint_codec 4 ⊠ uint_codec 4 ⊠ uint_codec 4 ⊠ uint_codec 4 ⊠
             device_codec ⊠ connect_codec ⊠ pad_codec 4 ⊠ sint_codec 8 ⊠ sint_codec 4 ⊠ pad_codec 4)
    (fun n => (softBusVersion n, (versionType n, (uuid n, (networkId n, (publicId n, (parentId n, (masterUdid n,
       (tt, (masterWeight n, (role n, (status n, (netCapacity n, (discoveryType n, (deviceInfo n, (connectInfo n,
       (tt, (authSeqNum n, (authChannelId n, tt)))))))))))))))))))
    (fun '(v, (vt, (u, (ni, (pu, (pa, (mu, (_, (mw, (r, (st, (nc, (dt, (di, (ci, (_, (s, (c, _)))))))))))))))))) =>
       mkNodeInfo v vt u ni pu pa mu mw r st nc dt di ci s c) _.
Next Obligation. by intros []. Qed.

(** The image of a node, and the node a stored image holds. *)
Definition sizeof_NodeInfo : nat := c_size node_codec.
Definition node_image (n : NodeInfo) : list Z := c_put node_codec n.
Definition node_at (mem : list Z) : NodeInfo := (c_get node_codec mem).1.

#[global] Arguments node_image : simpl never.
#[global] Arguments node_at : simpl never.
#[global] Arguments strncpy_s : simpl never.

(** A value of type [NodeInfo]: texts are terminated inside their arrays, numbers
    are in the range of their type. *)
Definition node_typed (n : NodeInfo) : bool := c_fits node_codec n.

Lemma node_image_length n : node_typed n = true -> length (node_image n) = sizeof_NodeInfo.
Proof. apply c_len. Qed.
Lemma node_at_image n : node_typed n = true -> node_at (node_image n) = n.
Proof. intros H. unfold node_at, node_image. pose proof (c_law node_codec n [] H) as E. rewrite app_nil_r in E. by rewrite E. Qed.

(** ** Copies inside a typed node *)

Lemma strncpy_s_fits n dst src : 0 < n <= SECUREC_STRING_MAX_LEN -> fits n src = true -> strncpy_s dst n src = (true, src).
Proof.
  unfold strncpy_s. intros Hn [Hl _]%andb_true_iff. repeat (case_if; [lia|]). done.
Qed.

Lemma strncpy_s_result n dst src : fits n dst = true -> forallb (fun c => (0 <? c) && (c <? 256)) src = true ->
  0 < n -> fits n (strncpy_s dst n src).2 = true.
Proof.
  unfold strncpy_s. intros Hd Hs Hn. case_if; [done|]. case_if; cbn [snd]; apply andb_true_iff; (split; [|done]); apply Z.ltb_lt; cbn [length]; lia.
Qed.

(** The same, member by member. *)
Record typed_node (n : NodeInfo) : Prop := {
  ty_version : fits VERSION_MAX_LEN (softBusVersion n) = true;
  ty_versionType : fits VERSION_MAX_LEN (versionType n) = true;
  typed_uuid : fits UUID_BUF_LEN (uuid n) = true;
  typed_networkId : fits NETWORK_ID_BUF_LEN (networkId n) = true;
  ty_publicId : fits ID_MAX_LEN (publicId n) = true;
  ty_parentId : fits ID_MAX_LEN (parentId n) = true;
  ty_masterUdid : fits UDID_BUF_LEN (masterUdid n) = true;
  ty_masterWeight : - 2 ^ 31 <= masterWeight n < 2 ^ 31;
  ty_role : 0 <= role n < 2 ^ 32;
  ty_status : 0 <= status n < 2 ^ 32;
  ty_netCapacity : 0 <= netCapacity n < 2 ^ 32;
  ty_discovery : 0 <= discoveryType n < 2 ^ 32;
  typed_name : fits DEVICE_NAME_BUF_LEN (deviceName (deviceInfo n)) = true;
  typed_udid : fits UDID_BUF_LEN (deviceUdid (deviceInfo n)) = true;
  typed_type : 0 <= deviceTypeId (deviceInfo n) < 2 ^ 16;
  ty_netIf : fits NET_IF_NAME_LEN (netIfName (connectInfo n)) = true;
  ty_ip : fits IP_MAX_LEN (deviceIp (connectInfo n)) = true;
  ty_mac : fits MAC_LEN (macAddr (connectInfo n)) = true;
  ty_authPort : - 2 ^ 31 <= authPort (connectInfo n) < 2 ^ 31;
  ty_proxyPort : - 2 ^ 31 <= proxyPort (connectInfo n) < 2 ^ 31;
  ty_sessionPort : - 2 ^ 31 <= sessionPort (connectInfo n) < 2 ^ 31;
  ty_authSeq : - 2 ^ 63 <= authSeqNum n < 2 ^ 63;
  ty_authChannel : - 2 ^ 31 <= authChannelId n < 2 ^ 31;
}.

Lemma range_bools a b z : (a <=? z) = true /\ (z <? b) = true <-> a <= z < b.
Proof. lia. Qed.

Lemma node_typed_iff n : node_typed n = true <-> typed_node n.
Proof.
  unfold node_typed. cbn -[fits Z.pow Z.div]. rewrite !andb_true_iff, !range_bools.
  change (256 ^ Z.of_nat 4 / 2) with (2 ^ 31). change (256 ^ Z.of_nat 8 / 2) with (2 ^ 63).
  change (256 ^ Z.of_nat 4) with (2 ^ 32). change (256 ^ Z.of_nat 2) with (2 ^ 16). split.
  - intros H. repeat (match goal with H : _ /\ _ |- _ => destruct H end). constructor; first [assumption | by split].
  - intros []. repeat (match goal with |- _ /\ _ => split end); first [assumption | reflexivity | lia].
Qed.

Lemma typed_status n st : typed_node n -> 0 <= st < 2 ^ 32 -> typed_node (n <| status := st |>).
Proof. intros [] ?. by constructor. Qed.
Lemma typed_setname n nm : typed_node n -> fits DEVICE_NAME_BUF_LEN nm = true ->
  typed_node (n <| deviceInfo := (deviceInfo n) <| deviceName := nm |> |>).
Proof. intros [] ?. by constructor. Qed.

Lemma lor_range a b k : 0 <= k -> 0 <= a < 2 ^ k -> 0 <= b < 2 ^ k -> 0 <= Z.lor a b < 2 ^ k.
Proof.
  intros Hk [Ha0 Ha] [Hb0 Hb]. assert (0 <= Z.lor a b) by (apply Z.lor_nonneg; lia).
  apply Z.bounded_iff_bits_nonneg'; [done|done|]. intros l Hl.
  rewrite Z.bounded_iff_bits_nonneg in Ha by done. rewrite Z.bounded_iff_bits_nonneg in Hb by done.
  by rewrite Z.lor_spec, Ha, Hb.
Qed.

Lemma typed_discovery n o : typed_node n -> typed_node o ->
  typed_node (n <| discoveryType := Z.lor (discoveryType n) (discoveryType o) |>).
Proof. intros [] []. constructor; try done. by apply lor_range. Qed.
Lemma typed_mac n o : typed_node n -> typed_node o ->
  typed_node (n <| connectInfo := (connectInfo n) <| macAddr := macAddr (connectInfo o) |> |>).
Proof. intros [] []. by constructor. Qed.
Lemma typed_ip n o : typed_node n -> typed_node o ->
  typed_node (n <| connectInfo := (connectInfo n) <| deviceIp := deviceIp (connectInfo o) |> |>).
Proof. intros [] []. by constructor. Qed.

(** The copies of the setters succeed. *)
Lemma set_mac n o : typed_node o -> LnnSetBtMac (Some n) (LnnGetBtMac (Some o)) =
  Some (n <| connectInfo := (connectInfo n) <| macAddr := macAddr (connectInfo o) |> |>).
Proof. intros []. cbn -[strncpy_s]. by rewrite strncpy_s_fits. Qed.
Lemma set_ip n o : typed_node o -> LnnSetWiFiIp (Some n) (LnnGetWiFiIp (Some o)) =
  Some (n <| connectInfo := (connectInfo n) <| deviceIp := deviceIp (connectInfo o) |> |>).
Proof. intros []. cbn -[strncpy_s]. by rewrite strncpy_s_fits. Qed.

(** ** Capabilities *)

Lemma land_bit_if c t : 0 <= t -> Z.land c (Z.shiftl 1 t) = if Z.testbit c t then Z.shiftl 1 t else 0.
Proof.
  intros Ht. rewrite Z.shiftl_1_l. apply Z.bits_inj'. intros n Hn. rewrite Z.land_spec, Z.pow2_bits_eqb by done.
  destruct (Z.eqb_spec t n) as [->|Hne].
  - destruct (Z.testbit c n); [by rewrite Z.pow2_bits_true|by rewrite Z.bits_0].
  - rewrite andb_false_r. destruct (Z.testbit c t); [by rewrite Z.pow2_bits_false|by rewrite Z.bits_0].
Qed.

Lemma copy_bit_lor c a t : 0 <= t < BIT_COUNT -> copy_bit c a t = Z.lor a (Z.land c (Z.shiftl 1 t)).
Proof.
  intros Ht. unfold copy_bit, LnnSetNetCapability, BIT_COUNT in *. rewrite land_bit_if by lia.
  replace (t >=? 7) with false by lia. destruct (Z.testbit c t); cbn [negb].
  - rewrite Z.shiftl_1_l. replace (2 ^ t =? 0) with false by (symmetry; apply Z.eqb_neq; lia). done.
  - by rewrite Z.lor_0_r.
Qed.

(** The capabilities are those of the configuration without the P2P bit and the
    unassigned bits. *)
Theorem net_capability_masks c : LnnGetNetCapabilty (Some c) = Z.land c 0x77.
Proof.
  unfold LnnGetNetCapabilty. cbn [default foldl id]. rewrite !copy_bit_lor by done.
  rewrite Z.lor_0_l, <- !Z.land_lor_distr_r. done.
Qed.

(** ** Device types *)

(** The name of a type id, and the id of that name read back. *)
Definition id_of_name (buf : list Z) (id : Z) : option (Z * option Z) :=
  '(p, buf') ← Some (LnnConvertIdToDeviceType buf id);
  p ← p;
  Some (LnnConvertDeviceTypeToId buf' (Some (type_text buf' p)) true).1.

Lemma id_of_name_all b0 b1 b2 b3 :
  forallb (fun id => bool_decide (id_of_name [b0; b1; b2; b3] id = Some (SOFTBUS_OK, Some id))) (seqZ 0 0x1000) = true.
Proof. vm_compute. reflexivity. Qed.

(** a device type survives its name.  For every type id of at most three
    hexadecimal digits and whatever the static buffer holds, the id has a name
    (the name of the table or its hexadecimal digits), and the id read from the
    name is the id. *)
Theorem device_type_roundtrip buf id : length buf = 4%nat -> 0 <= id < 0x1000 ->
  exists p buf', LnnConvertIdToDeviceType buf id = (Some p, buf') /\
    (LnnConvertDeviceTypeToId buf' (Some (type_text buf' p)) true).1 = (SOFTBUS_OK, Some id).
Proof.
  intros Hb Hid. destruct buf as [|b0 [|b1 [|b2 [|b3 [|]]]]]; try done.
  pose proof (id_of_name_all b0 b1 b2 b3) as Hall. rewrite forallb_forall in Hall.
  specialize (Hall id). rewrite bool_decide_eq_true in Hall.
  assert (id_of_name [b0; b1; b2; b3] id = Some (SOFTBUS_OK, Some id)) as E.
  { apply Hall, list_elem_of_In, elem_of_seqZ. lia. }
  unfold id_of_name in E. cbn [mbind option_bind] in E.
  destruct (LnnConvertIdToDeviceType _ id) as [[p|] buf']; [|done]. exists p, buf'. split; [done|]. by injection E.
Qed.

Lemma device_type_roundtrip_witness :
  exists p buf', LnnConvertIdToDeviceType [0; 0; 0; 0] 0xA5 = (Some p, buf') /\
    (LnnConvertDeviceTypeToId buf' (Some (type_text buf' p)) true).1 = (SOFTBUS_OK, Some 0xA5).
Proof. apply (device_type_roundtrip [0; 0; 0; 0] 0xA5); [reflexivity|lia]. Defined.

(** The bound [ONE_BIT_MAX_HEX << 12] lets ids of four digits through, whose first
    digit the name loses: 0x10A5 is named A5. *)
Theorem long_type_id_loses_digit :
  LnnConvertIdToDeviceType [0; 0; 0; 0] 0x10A5 = (Some Static, text "A5" ++ [0; 0]) /\
  id_of_name [0; 0; 0; 0] 0x10A5 = Some (SOFTBUS_OK, Some 0xA5).
Proof. split; reflexivity. Qed.

(** Reading any hexadecimal name overwrites the name that an earlier
    [LnnConvertIdToDeviceType] returned. *)
Theorem type_name_clobbered :
  let '(p, buf) := LnnConvertIdToDeviceType [0; 0; 0; 0] 0xA5 in
  let '(_, buf') := LnnConvertDeviceTypeToId buf (Some (text "B")) true in
  p = Some Static /\ type_text buf Static = text "A5" /\ type_text buf' Static = text "00".
Proof. split_and!; reflexivity. Qed.

End LnnNodeInfo.
