(* ===== verification/LnnLedger.v ===== *)
(** * The distributed net ledger (lnn_distributed_net_ledger.c) and its clients

    The ledger of the nodes of the network: hash tables ([LnnMap]) from the
    device id to the memory image of a [NodeInfo], and from a connection key to
    the code of a BR connection.  A [NodeInfo *] into a table is the table and the
    key, so that a use of a removed entry is a fault; [load] and [store] are the
    accesses through it.  An operation is one computation on the ledger ([SF]);
    the success of allocations and of the mutex are its [Env] argument.

    The clients are the two functions of [lnn_connection_fsm.c] through which the
    connection state machine changes the ledger and reports the changes. *)

From stdpp Require Import pretty.
From S2P Require Import Prelude StateFault LnnMap LnnNodeInfo Utils.

Module LnnLedger.
Import LnnMap LnnNodeInfo.
#[local] Open Scope sf_scope.

Definition NUM_BUF_SIZE : Z := 4.
Definition INT_TO_STR_SIZE : Z := 12.
Definition INVALID_CONNECTION_CODE_VALUE : Z := -1.

Definition DL_INIT_UNKNOWN : Z := 0.
Definition DL_INIT_FAIL : Z := 1.
Definition DL_INIT_SUCCESS : Z := 2.

Definition CATEGORY_UDID : Z := 0.
Definition CATEGORY_UUID : Z := 1.
Definition CATEGORY_NETWORK_ID : Z := 2.

Inductive ReportCategory := REPORT_NONE | REPORT_CHANGE | REPORT_ONLINE | REPORT_OFFLINE.

Definition STRING_KEY_HICE_VERSION : Z := 0.
Definition STRING_KEY_DEV_UDID : Z := 1.
Definition STRING_KEY_NETWORKID : Z := 2.
Definition STRING_KEY_UUID : Z := 3.
Definition STRING_KEY_DEV_TYPE : Z := 4.
Definition STRING_KEY_DEV_NAME : Z := 5.
Definition STRING_KEY_BT_MAC : Z := 6.
Definition STRING_KEY_WLAN_IP : Z := 7.
Definition STRING_KEY_NET_IF_NAME : Z := 8.
Definition STRING_KEY_MASTER_NODE_UDID : Z := 9.
Definition STRING_KEY_END : Z := 10.
Definition NUM_KEY_BEGIN : Z := 100.
Definition NUM_KEY_SESSION_PORT : Z := 100.
Definition NUM_KEY_AUTH_PORT : Z := 101.
Definition NUM_KEY_PROXY_PORT : Z := 102.
Definition NUM_KEY_NET_CAP : Z := 103.
Definition NUM_KEY_DEV_TYPE_ID : Z := 104.
Definition NUM_KEY_MASTER_NODE_WEIGHT : Z := 105.
Definition NUM_KEY_END : Z := 106.

(** [g_distributedNetLedger], and the static buffer of [lnn_device_info.c]. *)
Record Ledger := mkLedger {
  udidMap : Map; ipMap : Map; macMap : Map; connectionCode : Map; dl_status : Z; g_stringTypeId : list Z }.
#[export] Instance Ledger_fields : Fields Ledger :=
  {| ctor := mkLedger; projs := (udidMap, ipMap, macMap, connectionCode, dl_status, g_stringTypeId) |}.

(** Zero initialised static data. *)
Definition g_distributedNetLedger : Ledger :=
  mkLedger LnnMapInit LnnMapInit LnnMapInit LnnMapInit DL_INIT_UNKNOWN [0; 0; 0; 0].

Record NodeBasicInfo := mkBasic { b_networkId : list Z; b_deviceName : list Z; b_deviceTypeId : Z }.
#[export] Instance NodeBasicInfo_fields : Fields NodeBasicInfo :=
  {| ctor := mkBasic; projs := (b_networkId, b_deviceName, b_deviceTypeId) |}.
#[export] Instance NodeBasicInfo_eq_dec : EqDecision NodeBasicInfo.
Proof. solve_decision. Defined.
Definition zero_basic : NodeBasicInfo := mkBasic [] [] 0.

(** What can fail in a call: the mutex, the key of a connection code, the node
    and the bucket array of an insertion into the table of codes and of nodes, an
    iterator, and the array of a result. *)
Record Env := mkEnv {
  e_lock : bool; e_key : bool; e_code_node : bool; e_code_resize : bool; e_node : bool; e_resize : bool;
  e_iter : bool; e_iter2 : bool; e_array : bool }.

(** What a [void *] buffer points to. *)
Inductive Buf := BStr (s : list Z) | BInt (z : Z).

(** A getter of a value: memory for the iterator, network id, buffer and its length. *)
Abbreviation Getter := (bool -> option (list Z) -> option Buf -> Z -> SF Ledger (Z * option Buf)).

Section ledger.
Context (signed_char : bool).

(** ** Tables *)

Inductive MapId := UDID_MAP | IP_MAP | MAC_MAP.
Definition NodePtr : Type := MapId * list Z.

Definition the_map (L : Ledger) (m : MapId) : Map :=
  match m with UDID_MAP => udidMap L | IP_MAP => ipMap L | MAC_MAP => macMap L end.
Definition set_map (m : MapId) (t : Map) (L : Ledger) : Ledger :=
  match m with
  | UDID_MAP => L <| udidMap := t |>
  | IP_MAP => L <| ipMap := t |>
  | MAC_MAP => L <| macMap := t |>
  end.

(** The result of [LnnMapGet(map, id)] as a pointer to a node. *)
Definition get_ptr (m : MapId) (id : option (list Z)) : SF Ledger (option NodePtr) := fun L =>
  v ← LnnMapGet signed_char (the_map L m) id;
  Some (match v, id with Some _, Some k => Some (m, k) | _, _ => None end, L).

Definition load (p : NodePtr) : SF Ledger NodeInfo := fun L =>
  v ← LnnMapGet signed_char (the_map L p.1) (Some p.2);
  img ← v;
  Some (node_at img, L).

Definition store (p : NodePtr) (i : NodeInfo) : SF Ledger unit :=
  load p;;
  fun L =>
    '(r, t) ← LnnMapSet signed_char true true (the_map L p.1) (Some p.2) (Some (node_image i));
    if r =? SOFTBUS_OK then Some (tt, set_map p.1 t L) else None.

(** A loop over the table with an iterator: the condition beside
    [LnnMapHasNext], and the body, which also tells whether it leaves the loop. *)
Fixpoint walk {A} (cond : A -> bool) (body : MapNode -> A -> option (A * bool)) (fuel : nat) (it : MapIterator) (a : A)
    : option A :=
  match fuel with
  | O => None
  | S fuel =>
      if LnnMapHasNext it && cond a then
        it1 ← LnnMapNext it;
        n ← head (it_node it1);
        '(a, stop) ← body n a;
        if stop : bool then Some a else walk cond body fuel it1 a
      else Some a
  end.

Definition walk_udids {A} (mem : bool) (cond : A -> bool) (body : MapNode -> A -> option (A * bool)) (a : A)
    : SF Ledger (option A) := fun L =>
  match LnnMapInitIterator mem (Some (udidMap L)) with
  | None => Some (None, L)
  | Some it => a ← walk cond body (S (Z.to_nat (nodeSize (udidMap L)))) it a; Some (Some a, L)
  end.

Definition GetNodeInfoFromMap (id : option (list Z)) : SF Ledger (option NodePtr) :=
  match id with
  | None => sret None
  | Some _ =>
      let* p := get_ptr UDID_MAP id in
      match p with
      | Some _ => sret p
      | None =>
          let* p := get_ptr MAC_MAP id in
          match p with
          | Some _ => sret p
          | None => get_ptr IP_MAP id
          end
      end
  end.

(** ** Life cycle *)

Definition InitDistributedInfo : SF Ledger Z :=
  smodify (fun L : Ledger => L <| udidMap := LnnMapInit |>);;
  smodify (fun L : Ledger => L <| ipMap := LnnMapInit |>);;
  smodify (fun L : Ledger => L <| macMap := LnnMapInit |>);;
  sret SOFTBUS_OK.

Definition DeinitDistributedInfo : SF Ledger unit :=
  smodify (fun L : Ledger => L <| udidMap := (LnnMapDelete (udidMap L)).2 |>);;
  smodify (fun L : Ledger => L <| ipMap := (LnnMapDelete (ipMap L)).2 |>);;
  smodify (fun L : Ledger => L <| macMap := (LnnMapDelete (macMap L)).2 |>).

Definition InitConnectionCode : SF Ledger Z :=
  smodify (fun L : Ledger => L <| connectionCode := LnnMapInit |>);;
  sret SOFTBUS_OK.

Definition DeinitConnectionCode : SF Ledger unit :=
  smodify (fun L : Ledger => L <| connectionCode := (LnnMapDelete (connectionCode L)).2 |>).

Definition set_status (st : Z) : SF Ledger unit := smodify (fun L : Ledger => L <| dl_status := st |>).

(** [mutex]: whether the mutex can be created. *)
Definition LnnInitDistributedLedger (mutex : bool) : SF Ledger Z :=
  let* st := sgets dl_status in
  if st =? DL_INIT_SUCCESS then sret SOFTBUS_OK
  else
    let* r := InitDistributedInfo in
    if negb (r =? SOFTBUS_OK) then set_status DL_INIT_FAIL;; sret SOFTBUS_ERR
    else
      let* r := InitConnectionCode in
      if negb (r =? SOFTBUS_OK) then set_status DL_INIT_FAIL;; sret SOFTBUS_ERR
      else if negb mutex then set_status DL_INIT_FAIL;; sret SOFTBUS_ERR
      else set_status DL_INIT_SUCCESS;; sret SOFTBUS_OK.

Definition LnnDeinitDistributedLedger (lock : bool) : SF Ledger unit :=
  if negb lock then sret tt
  else set_status DL_INIT_UNKNOWN;; DeinitDistributedInfo;; DeinitConnectionCode.

(** ** Nodes *)

(** The new node takes over what the old one has: [None] is NULL. *)
Definition NewWifiDiscovered (oldInfo newInfo : option NodeInfo) : option NodeInfo :=
  match oldInfo, newInfo with
  | Some o, Some n =>
      let n := n <| discoveryType := Z.lor (discoveryType n) (discoveryType o) |> in
      match LnnGetBtMac (Some n) with
      | None => Some n
      | Some mac => if bool_decide (mac = DEFAULT_MAC) then LnnSetBtMac (Some n) (LnnGetBtMac (Some o)) else Some n
      end
  | _, _ => newInfo
  end.

Definition NewBrBleDiscovered (oldInfo newInfo : option NodeInfo) : option NodeInfo :=
  match oldInfo, newInfo with
  | Some o, Some n =>
      let n := n <| discoveryType := Z.lor (discoveryType n) (discoveryType o) |> in
      match LnnGetWiFiIp (Some n) with
      | None => Some n
      | Some ip => if bool_decide (ip = DEFAULT_IP) then LnnSetWiFiIp (Some n) (LnnGetWiFiIp (Some o)) else Some n
      end
  | _, _ => newInfo
  end.

Definition ConvertNodeInfoToBasicInfo (info : option NodeInfo) (basic : option NodeBasicInfo) : Z * option NodeBasicInfo :=
  match info, basic with
  | Some i, Some b =>
      let '(ok, name) := strncpy_s (b_deviceName b) DEVICE_NAME_BUF_LEN (deviceName (deviceInfo i)) in
      let b := b <| b_deviceName := name |> in
      if negb ok then (SOFTBUS_MEM_ERR, Some b)
      else
        let '(ok, id) := strncpy_s (b_networkId b) NETWORK_ID_BUF_LEN (networkId i) in
        let b := b <| b_networkId := id |> in
        if negb ok then (SOFTBUS_MEM_ERR, Some b)
        else (SOFTBUS_OK, Some (b <| b_deviceTypeId := deviceTypeId (deviceInfo i) |>))
  | _, _ => (SOFTBUS_INVALID_PARAM, basic)
  end.

(** The bodies of the three loops below. *)
Definition count_online (n : MapNode) (num : Z) : option (Z * bool) :=
  Some (if LnnIsNodeOnline (Some (node_at (value n))) then i32 (num + 1) else num, false).
Definition fill_online (n : MapNode) (st : Z * list NodeBasicInfo) : option (Z * list NodeBasicInfo * bool) :=
  let '(i, arr) := st in
  let node := node_at (value n) in
  if LnnIsNodeOnline (Some node) then
    b ← arr !! Z.to_nat i;
    b ← (ConvertNodeInfoToBasicInfo (Some node) (Some b)).2;
    Some ((i32 (i + 1), <[Z.to_nat i := b]> arr), false)
  else Some ((i, arr), false).
Definition post_online (n : MapNode) (st : NodeBasicInfo * list NodeBasicInfo) : option (NodeBasicInfo * list NodeBasicInfo * bool) :=
  let '(basic, out) := st in
  let node := node_at (value n) in
  if LnnIsNodeOnline (Some node) then
    b ← (ConvertNodeInfoToBasicInfo (Some node) (Some basic)).2;
    Some ((b, out ++ [b]), false)
  else Some ((basic, out), false).

(** The number that [*infoNum] holds is [None] when it is not written. *)
Definition GetDLOnlineNodeNumLocked (mem : bool) : SF Ledger (Z * option Z) :=
  let* r := walk_udids mem (fun _ => true) count_online 0 in
  match r with
  | None => sret (SOFTBUS_ERR, None)
  | Some num => sret (SOFTBUS_OK, Some num)
  end.

(** [info] is the array, [infoNum] its length. *)
Definition FillDLOnlineNodeInfoLocked (mem : bool) (info : list NodeBasicInfo) (infoNum : Z)
    : SF Ledger (Z * list NodeBasicInfo) :=
  let* r := walk_udids mem (fun st => st.1 <? infoNum) fill_online (0, info) in
  match r with
  | None => sret (SOFTBUS_ERR, info)
  | Some (_, arr) => sret (SOFTBUS_OK, arr)
  end.

Definition IsNetworkIdChanged (newInfo oldInfo : option NodeInfo) : bool :=
  match newInfo, oldInfo with
  | Some n, Some o => negb (bool_decide (networkId n = networkId o))
  | _, _ => false
  end.

(** The records the callback is called with, in order; [cb]: there is a callback. *)
Definition PostOnlineNodesToCb (mem cb : bool) : SF Ledger (list NodeBasicInfo) :=
  if negb cb then sret []
  else
    let* r := walk_udids mem (fun _ => true) post_online (zero_basic, []) in
    sret (match r with None => [] | Some (_, out) => out end).

Definition LnnGetNodeInfoById (mem : bool) (id : option (list Z)) (type : Z) : SF Ledger (option NodePtr) :=
  match id with
  | None => sret None
  | Some s =>
      if type =? CATEGORY_UDID then GetNodeInfoFromMap id
      else
        let* r := walk_udids mem (fun _ => true)
          (fun n _ =>
             let info := node_at (value n) in
             if type =? CATEGORY_NETWORK_ID then
               if bool_decide (networkId info = s) then Some (Some (UDID_MAP, key n), true) else Some (None, false)
             else if type =? CATEGORY_UUID then
               if bool_decide (uuid info = s) then Some (Some (UDID_MAP, key n), true) else Some (None, false)
             else Some (None, false)) None in
        sret (match r with None => None | Some p => p end)
  end.

(** ** Queries by key *)

(** The macro: the rest of the getter, [k], gets the node and the buffer. *)
Definition RETURN_IF_GET_NODE_VALID (mem : bool) (networkId : option (list Z)) (buf : option Buf)
    (k : NodeInfo -> Buf -> SF Ledger (Z * Buf)) : SF Ledger (Z * option Buf) :=
  match networkId, buf with
  | Some _, Some b =>
      let* info := LnnGetNodeInfoById mem networkId CATEGORY_NETWORK_ID in
      match info with
      | None => sret (SOFTBUS_ERR, buf)
      | Some p => let* i := load p in let! (r, b) := k i b in sret (r, Some b)
      end
  | _, _ => sret (SOFTBUS_INVALID_PARAM, buf)
  end.

(** The copy of a text that ends a getter; NULL is an error. *)
Definition give_text (len : Z) (s : option (list Z)) (b : Buf) : SF Ledger (Z * Buf) :=
  match s, b with
  | None, _ => sret (SOFTBUS_ERR, b)
  | Some s, BStr d =>
      let '(ok, d) := strncpy_s d len s in
      sret (if ok then SOFTBUS_OK else SOFTBUS_MEM_ERR, BStr d)
  | Some _, BInt _ => fault
  end.

(** The store of a number into the buffer. *)
Definition give_int (z : Z) (b : Buf) : SF Ledger (Z * Buf) :=
  match b with BInt _ => sret (SOFTBUS_OK, BInt (i32 z)) | BStr _ => fault end.

Definition DlGetDeviceUuid : Getter := fun mem networkId buf len =>
  RETURN_IF_GET_NODE_VALID mem networkId buf (fun i => give_text len (Some (uuid i))).
Definition DlGetDeviceUdid : Getter := fun mem networkId buf len =>
  RETURN_IF_GET_NODE_VALID mem networkId buf (fun i => give_text len (LnnGetDeviceUdid (Some i))).
Definition DlGetNodeSoftBusVersion : Getter := fun mem networkId buf len =>
  RETURN_IF_GET_NODE_VALID mem networkId buf (fun i => give_text len (Some (softBusVersion i))).
Definition DlGetDeviceType : Getter := fun mem networkId buf len =>
  RETURN_IF_GET_NODE_VALID mem networkId buf (fun i b =>
    let* t := sgets g_stringTypeId in
    let '(p, t) := LnnConvertIdToDeviceType t (deviceTypeId (deviceInfo i)) in
    smodify (fun L : Ledger => L <| g_stringTypeId := t |>);;
    give_text len (type_text t <$> p) b).
Definition DlGetDeviceName : Getter := fun mem networkId buf len =>
  RETURN_IF_GET_NODE_VALID mem networkId buf (fun i => give_text len (LnnGetDeviceName (Some (deviceInfo i)))).
Definition DlGetBtMac : Getter := fun mem networkId buf len =>
  RETURN_IF_GET_NODE_VALID mem networkId buf (fun i => give_text len (LnnGetBtMac (Some i))).
Definition DlGetWlanIp : Getter := fun mem networkId buf len =>
  RETURN_IF_GET_NODE_VALID mem networkId buf (fun i => give_text len (LnnGetWiFiIp (Some i))).
Definition DlGetMasterUdid : Getter := fun mem networkId buf len =>
  RETURN_IF_GET_NODE_VALID mem networkId buf (fun i b =>
    if negb (LnnIsNodeOnline (Some i)) then sret (SOFTBUS_ERR, b)
    else give_text len (LnnGetMasterUdid (Some i)) b).

Definition DlGetAuthPort : Getter := fun mem networkId buf len =>
  if negb (len =? NUM_BUF_SIZE) then sret (SOFTBUS_INVALID_PARAM, buf)
  else RETURN_IF_GET_NODE_VALID mem networkId buf (fun i => give_int (LnnGetAuthPort (Some i))).
Definition DlGetSessionPort : Getter := fun mem networkId buf len =>
  if negb (len =? NUM_BUF_SIZE) then sret (SOFTBUS_INVALID_PARAM, buf)
  else RETURN_IF_GET_NODE_VALID mem networkId buf (fun i => give_int (LnnGetSessionPort (Some i))).
Definition DlGetProxyPort : Getter := fun mem networkId buf len =>
  if negb (len =? NUM_BUF_SIZE) then sret (SOFTBUS_INVALID_PARAM, buf)
  else RETURN_IF_GET_NODE_VALID mem networkId buf (fun i => give_int (LnnGetProxyPort (Some i))).
Definition DlGetNetCap : Getter := fun mem networkId buf len =>
  if negb (len =? NUM_BUF_SIZE) then sret (SOFTBUS_INVALID_PARAM, buf)
  else RETURN_IF_GET_NODE_VALID mem networkId buf (fun i => give_int (netCapacity i)).
Definition DlGetMasterWeight : Getter := fun mem networkId buf len =>
  if negb (len =? NUM_BUF_SIZE) then sret (SOFTBUS_INVALID_PARAM, buf)
  else RETURN_IF_GET_NODE_VALID mem networkId buf (fun i => give_int (masterWeight i)).

Definition g_dlKeyTable : list (Z * Getter) :=
  [ (STRING_KEY_HICE_VERSION, DlGetNodeSoftBusVersion);
    (STRING_KEY_DEV_UDID, DlGetDeviceUdid);
    (STRING_KEY_UUID, DlGetDeviceUuid);
    (STRING_KEY_DEV_TYPE, DlGetDeviceType);
    (STRING_KEY_DEV_NAME, DlGetDeviceName);
    (STRING_KEY_BT_MAC, DlGetBtMac);
    (STRING_KEY_WLAN_IP, DlGetWlanIp);
    (STRING_KEY_MASTER_NODE_UDID, DlGetMasterUdid);
    (NUM_KEY_SESSION_PORT, DlGetSessionPort);
    (NUM_KEY_AUTH_PORT, DlGetAuthPort);
    (NUM_KEY_PROXY_PORT, DlGetProxyPort);
    (NUM_KEY_NET_CAP, DlGetNetCap);
    (NUM_KEY_MASTER_NODE_WEIGHT, DlGetMasterWeight) ].

(** The search of the table (no getter of it is NULL). *)
Definition find_getter (k : Z) : option Getter :=
  (fun e => e.2.2) <$> list_find (fun e => e.1 = k) g_dlKeyTable.

(** ** Connection codes *)

(** [sprintf_s] with the format of a number followed by a text: [None] when the
    text and its terminator do not fit. *)
Definition sprintf_ds (destMax : Z) (d : Z) (s : list Z) : option (list Z) :=
  let out := text (pretty d) ++ s in
  if Z.of_nat (length out) >=? destMax then None else Some out.

Definition CreateCnnCodeKey (mem : bool) (uuid : option (list Z)) (type : Z) : option (list Z) :=
  match uuid with
  | None => None
  | Some u =>
      if Z.of_nat (length u) >=? UUID_BUF_LEN then None
      else if negb mem then None
      else sprintf_ds (INT_TO_STR_SIZE + UUID_BUF_LEN) type u
  end.

(** The image of a [short], and the [short] of an image. *)
Definition short_image (z : Z) : list Z := c_put (sint_codec 2) z.
Definition short_at (mem : list Z) : Z := (c_get (sint_codec 2) mem).1.

#[global] Arguments short_image : simpl never.
#[global] Arguments short_at : simpl never.

Definition AddCnnCode (env : Env) (uuid : option (list Z)) (type authSeqNum : Z) : SF Ledger Z :=
  let seq := i16 authSeqNum in
  match CreateCnnCodeKey (e_key env) uuid type with
  | None => sret SOFTBUS_ERR
  | Some key => fun L =>
      '(r, t) ← LnnMapSet signed_char (e_code_resize env) (e_code_node env) (connectionCode L) (Some key)
                 (Some (short_image seq));
      Some (if r =? SOFTBUS_OK then SOFTBUS_OK else SOFTBUS_ERR, L <| connectionCode := t |>)
  end.

Definition RemoveCnnCode (env : Env) (uuid : option (list Z)) (type : Z) : SF Ledger unit :=
  match CreateCnnCodeKey (e_key env) uuid type with
  | None => sret tt
  | Some key => fun L =>
      '(_, t) ← LnnMapErase signed_char (connectionCode L) (Some key);
      Some (tt, L <| connectionCode := t |>)
  end.

Definition LnnGetCnnCode (env : Env) (uuid : option (list Z)) (type : Z) : SF Ledger Z :=
  match CreateCnnCodeKey (e_key env) uuid type with
  | None => sret INVALID_CONNECTION_CODE_VALUE
  | Some key => fun L =>
      v ← LnnMapGet signed_char (connectionCode L) (Some key);
      Some (match v with None => INVALID_CONNECTION_CODE_VALUE | Some v => short_at v end, L)
  end.

(** ** Changes of nodes *)

(** What an online old node means for the new one: whether it was offline before,
    whether the network id changed, and the merged node. *)
Definition merge_online (info oldInfo : option NodeInfo) : bool * bool * option NodeInfo :=
  if LnnIsNodeOnline oldInfo then
    let newWifiFlag := LnnHasDiscoveryType info DISCOVERY_TYPE_WIFI in
    let newBleBrFlag := LnnHasDiscoveryType info DISCOVERY_TYPE_BLE || LnnHasDiscoveryType info DISCOVERY_TYPE_BR in
    let isChanged := IsNetworkIdChanged info oldInfo in
    let oldWifiFlag := LnnHasDiscoveryType oldInfo DISCOVERY_TYPE_WIFI in
    let oldBleFlag := LnnHasDiscoveryType oldInfo DISCOVERY_TYPE_BLE in
    let oldBrFlag := LnnHasDiscoveryType oldInfo DISCOVERY_TYPE_BR in
    if (oldBleFlag || oldBrFlag) && newWifiFlag then (false, isChanged, NewWifiDiscovered oldInfo info)
    else if oldWifiFlag && newBleBrFlag then (false, isChanged, NewBrBleDiscovered oldInfo info)
    else (false, isChanged, info)
  else (true, false, info).

(** The report, and the caller's record after the call. *)
Definition LnnAddOnlineNode (env : Env) (info : option NodeInfo) : SF Ledger (ReportCategory * option NodeInfo) :=
  (if LnnHasDiscoveryType info DISCOVERY_TYPE_BR
   then AddCnnCode env (uuid <$> info) DISCOVERY_TYPE_BR (default 0 (authSeqNum <$> info));; sret tt
   else sret tt);;
  let deviceId := LnnGetDeviceUdid info in
  if negb (e_lock env) then sret (REPORT_NONE, info)
  else
    let* p := get_ptr UDID_MAP deviceId in
    let* oldInfo := match p with None => sret None | Some p => let* i := load p in sret (Some i) end in
    let '(isOffline, isChanged, info) := merge_online info oldInfo in
    let info := LnnSetNodeConnStatus info STATUS_ONLINE in
    (fun L : Ledger =>
      '(_, t) ← LnnMapSet signed_char (e_resize env) (e_node env) (udidMap L) deviceId (node_image <$> info);
      Some (tt, L <| udidMap := t |>));;
    sret (if isOffline then REPORT_ONLINE else if isChanged then REPORT_CHANGE else REPORT_NONE, info).

Definition LnnSetNodeOffline (env : Env) (udid : option (list Z)) (authId : Z) : SF Ledger ReportCategory :=
  if negb (e_lock env) then sret REPORT_NONE
  else
    let* p := get_ptr UDID_MAP udid in
    match p with
    | None => sret REPORT_NONE
    | Some p =>
        let* info := load p in
        (if LnnHasDiscoveryType (Some info) DISCOVERY_TYPE_BR
         then RemoveCnnCode env (Some (uuid info)) DISCOVERY_TYPE_BR else sret tt);;
        if LnnHasDiscoveryType (Some info) DISCOVERY_TYPE_WIFI && negb (authChannelId info =? authId)
        then sret REPORT_NONE
        else store p (info <| status := STATUS_OFFLINE |>);; sret REPORT_OFFLINE
    end.

Definition LnnGetBasicInfoByUdid (env : Env) (udid : option (list Z)) (basicInfo : option NodeBasicInfo)
    : SF Ledger (Z * option NodeBasicInfo) :=
  match udid, basicInfo with
  | Some _, Some _ =>
      if negb (e_lock env) then sret (SOFTBUS_ERR, basicInfo)
      else
        let* p := get_ptr UDID_MAP udid in
        let* info := match p with None => sret None | Some p => let* i := load p in sret (Some i) end in
        sret (ConvertNodeInfoToBasicInfo info basicInfo)
  | _, _ => sret (SOFTBUS_INVALID_PARAM, basicInfo)
  end.

Definition LnnRemoveNode (env : Env) (udid : option (list Z)) : SF Ledger unit :=
  match udid with
  | None => sret tt
  | Some _ =>
      if negb (e_lock env) then sret tt
      else fun L =>
        '(_, t) ← LnnMapErase signed_char (udidMap L) udid;
        Some (tt, L <| udidMap := t |>)
  end.

Definition LnnConvertDLidToUdid (env : Env) (id : option (list Z)) (type : Z) : SF Ledger (option (list Z)) :=
  match id with
  | None => sret None
  | Some _ =>
      let* p := LnnGetNodeInfoById (e_iter env) id type in
      match p with
      | None => sret None
      | Some p => let* i := load p in sret (LnnGetDeviceUdid (Some i))
      end
  end.

Definition LnnSetDLDeviceInfoName (env : Env) (udid name : option (list Z)) : SF Ledger bool :=
  match udid, name with
  | Some _, Some nm =>
      if negb (e_lock env) then sret false
      else
        let* p := GetNodeInfoFromMap udid in
        match p with
        | None => sret false
        | Some p =>
            let* info := load p in
            if bool_decide (LnnGetDeviceName (Some (deviceInfo info)) = Some nm) then sret true
            else
              let '(r, d) := LnnSetDeviceName (Some (deviceInfo info)) name in
              store p (info <| deviceInfo := default (deviceInfo info) d |>);;
              sret (r =? SOFTBUS_OK)
        end
  | _, _ => sret false
  end.

(** ** Queries *)

(** An [InfoKey] is an enumerator, so not negative. *)
Definition LnnGetDLStrInfo (env : Env) (networkId : option (list Z)) (key : Z) (info : option (list Z)) (len : Z)
    : SF Ledger (Z * option Buf) :=
  match networkId, info with
  | Some _, Some _ =>
      if key >=? STRING_KEY_END then sret (SOFTBUS_INVALID_PARAM, BStr <$> info)
      else if negb (e_lock env) then sret (SOFTBUS_ERR, BStr <$> info)
      else match find_getter key with
           | Some getInfo => getInfo (e_iter env) networkId (BStr <$> info) len
           | None => sret (SOFTBUS_ERR, BStr <$> info)
           end
  | _, _ => sret (SOFTBUS_INVALID_PARAM, BStr <$> info)
  end.

Definition LnnGetDLNumInfo (env : Env) (networkId : option (list Z)) (key : Z) (info : option Z)
    : SF Ledger (Z * option Buf) :=
  match networkId, info with
  | Some _, Some _ =>
      if (key <? NUM_KEY_BEGIN) || (key >=? NUM_KEY_END) then sret (SOFTBUS_INVALID_PARAM, BInt <$> info)
      else if negb (e_lock env) then sret (SOFTBUS_ERR, BInt <$> info)
      else match find_getter key with
           | Some getInfo => getInfo (e_iter env) networkId (BInt <$> info) NUM_BUF_SIZE
           | None => sret (SOFTBUS_ERR, BInt <$> info)
           end
  | _, _ => sret (SOFTBUS_INVALID_PARAM, BInt <$> info)
  end.

(** What [*info] is after [LnnGetDistributedNodeInfo]: not written, NULL, an array
    the caller owns, or the address of an array that was freed again. *)
Inductive InfoArray := Unwritten | Null | Owned (arr : list NodeBasicInfo) | Dangling.

(** [junk] is what fresh memory holds; [args]: both arguments are there.  A
    failed lock is only logged. *)
Definition LnnGetDistributedNodeInfo (env : Env) (junk : NodeBasicInfo) (args : bool)
    : SF Ledger (Z * InfoArray * option Z) :=
  if negb args then sret (SOFTBUS_ERR, Unwritten, None)
  else
    let! (r, infoNum) := GetDLOnlineNodeNumLocked (e_iter env) in
    match infoNum with
    | None => sret (SOFTBUS_ERR, Null, None)
    | Some num =>
        if negb (r =? SOFTBUS_OK) then sret (SOFTBUS_ERR, Null, infoNum)
        else if num =? 0 then sret (SOFTBUS_OK, Null, infoNum)
        else if negb (e_array env) then sret (SOFTBUS_ERR, Null, infoNum)
        else
          let! (r, arr) := FillDLOnlineNodeInfoLocked (e_iter2 env) (replicate (Z.to_nat num) junk) num in
          if negb (r =? SOFTBUS_OK) then sret (SOFTBUS_ERR, Dangling, infoNum)
          else sret (SOFTBUS_OK, Owned arr, infoNum)
    end.

(** The last text is [buf] after the call. *)
Definition LnnGetNetworkIdByUuid (env : Env) (uuid : option (list Z)) (buf : list Z) (len : Z) : SF Ledger (Z * list Z) :=
  let* valid := slift (Utils.IsValidString ((fun u => u ++ [0]) <$> uuid) ID_MAX_LEN) in
  if negb valid then sret (SOFTBUS_INVALID_PARAM, buf)
  else if negb (e_lock env) then sret (SOFTBUS_ERR, buf)
  else
    let* p := LnnGetNodeInfoById (e_iter env) uuid CATEGORY_UUID in
    match p with
    | None => sret (SOFTBUS_ERR, buf)
    | Some p =>
        let* info := load p in
        let '(ok, buf) := strncpy_s buf len (networkId info) in
        sret (if ok then SOFTBUS_OK else SOFTBUS_MEM_ERR, buf)
    end.

(** ** The connection state machine's use of the ledger (lnn_connection_fsm.c) *)

(** A notification of the clients of the bus centre. *)
Inductive Notice := NodeOnline (b : NodeBasicInfo) | NodeOffline (b : NodeBasicInfo) | NetworkIdChanged (b : NodeBasicInfo).

Definition ReportResult (env : Env) (udid : option (list Z)) (report : ReportCategory) : SF Ledger (list Notice) :=
  let! (r, basic) := LnnGetBasicInfoByUdid env udid (Some zero_basic) in
  match basic with
  | None => sret []
  | Some b =>
      if negb (r =? SOFTBUS_OK) then sret []
      else sret (match report with
                 | REPORT_CHANGE => [NetworkIdChanged b]
                 | REPORT_ONLINE => [NodeOnline b]
                 | _ => []
                 end)
  end.

(** The part of a successful [CompleteJoinLNN] that concerns the ledger. *)
Definition join_ledger (env env' : Env) (nodeInfo : NodeInfo) : SF Ledger (list Notice) :=
  let! (report, nodeInfo) := LnnAddOnlineNode env (Some nodeInfo) in
  ReportResult env' (LnnGetDeviceUdid nodeInfo) report.

(** [udid] is a pointer into the node in the table; [passive] is the flag
    [LNN_CONN_INFO_FLAG_LEAVE_PASSIVE].  The result is the record to report. *)
Definition UpdateLeaveToLedger (mem : bool) (env env' : Env) (networkId : option (list Z)) (authId : Z) (passive : bool)
    : SF Ledger (option NodeBasicInfo) :=
  let* p := LnnGetNodeInfoById mem networkId CATEGORY_NETWORK_ID in
  match p with
  | None => sret None
  | Some p =>
      let* info := load p in
      let udid := LnnGetDeviceUdid (Some info) in
      let* report := LnnSetNodeOffline env udid authId in
      match report with
      | REPORT_OFFLINE =>
          let! (r, basic) := LnnGetBasicInfoByUdid env' udid (Some zero_basic) in
          (if passive then LnnRemoveNode env' udid else sret tt);;
          sret (if negb (r =? SOFTBUS_OK) then None else basic)
      | _ => sret None
      end
  end.

(** The part of a successful [CompleteLeaveLNN] that concerns the ledger. *)
Definition leave_ledger (mem : bool) (env env' : Env) (networkId : option (list Z)) (authId : Z) (passive : bool)
    : SF Ledger (list Notice) :=
  let* basic := UpdateLeaveToLedger mem env env' networkId authId passive in
  sret (match basic with None => [] | Some b => [NodeOffline b] end).

(** The same with the device each notice is about, which the notice itself does
    not carry: for statements about what a listener knows. *)
Definition join_told (env env' : Env) (i : NodeInfo) : SF Ledger (list (list Z * Notice)) :=
  let* ns := join_ledger env env' i in sret (pair (deviceUdid (deviceInfo i)) <$> ns).
Definition leave_told (mem : bool) (env env' : Env) (networkId : option (list Z)) (authId : Z) (passive : bool)
    : SF Ledger (list (list Z * Notice)) :=
  let* p := LnnGetNodeInfoById mem networkId CATEGORY_NETWORK_ID in
  let* ns := leave_ledger mem env env' networkId authId passive in
  sret (pair (default [] (snd <$> p)) <$> ns).

End ledger.
End LnnLedger.
