(* ===== verification/LnnLedgerRel.v ===== *)
(** * What the tables of the distributed ledger represent

    The abstract ledger is two finite maps: the nodes by device id and the codes of
    the BR connections by key.  [ledger_rel] relates it to the hash tables of
    [LnnLedger]; the lemmas give the effect of each access in the logic of
    [StateFault], so that the operations are proved without the tables. *)

From S2P Require Import Prelude StateFault LnnMap LnnNodeInfo LnnLedger.

Module LnnLedgerRel.
Import LnnMap LnnNodeInfo LnnLedger.

Record ALedger := mkA { nodes : gmap (list Z) NodeInfo; codes : gmap (list Z) Z }.
#[export] Instance ALedger_fields : Fields ALedger := {| ctor := mkA; projs := (nodes, codes) |}.

Definition udid_of (n : NodeInfo) : list Z := deviceUdid (deviceInfo n).

Section rel.
Context (sc : bool).

Record ledger_rel (L : Ledger) (A : ALedger) : Prop := {
  lr_udid : map_rel sc (udidMap L) (node_image <$> nodes A);
  lr_ip : map_rel sc (ipMap L) ∅;
  lr_mac : map_rel sc (macMap L) ∅;
  lr_code : map_rel sc (connectionCode L) (short_image <$> codes A);
  lr_typed : map_Forall (fun u n => typed_node n /\ udid_of n = u) (nodes A);
  lr_short : map_Forall (fun _ c => - 2 ^ 15 <= c < 2 ^ 15) (codes A);
  lr_buf : length (g_stringTypeId L) = 4%nat;
}.

(** Room for more entries in both tables. *)
Definition room (A : ALedger) (k : nat) : Prop :=
  Z.of_nat (size (nodes A) + k) < 2 ^ 30 /\ Z.of_nat (size (codes A) + k) < 2 ^ 30.

Lemma room_le A k k' : (k' <= k)%nat -> room A k -> room A k'.
Proof. unfold room. lia. Qed.

Implicit Types (L : Ledger) (A : ALedger) (u : list Z).

Lemma node_at_typed n : typed_node n -> node_at (node_image n) = n.
Proof. intros H%node_typed_iff. by apply node_at_image. Qed.
Lemma short_at_image z : - 2 ^ 15 <= z < 2 ^ 15 -> short_at (short_image z) = z.
Proof.
  intros Hz. unfold short_at, short_image. pose proof (c_law (sint_codec 2) z []) as E. rewrite app_nil_r in E.
  rewrite E; [done|]. apply andb_true_iff, range_bools. exact Hz.
Qed.
Lemma i16_range z : - 2 ^ 15 <= i16 z < 2 ^ 15.
Proof. wrap_lia. Qed.
Lemma fits_short n s : fits n s = true -> Z.of_nat (length s) < n.
Proof. unfold fits. intros [H _]%andb_true_iff. lia. Qed.

(** ** Storing a node *)

Definition put_node (A : ALedger) u (n : NodeInfo) : ALedger := A <| nodes := <[u := n]> (nodes A) |>.

(** A node is stored when it is there already or when memory can be had. *)
Definition stores (mem : bool) (A : ALedger) u : bool := mem || bool_decide (is_Some (nodes A !! u)).

Lemma put_node_rel L A u n t : ledger_rel L A -> typed_node n -> udid_of n = u ->
  map_rel sc t (<[u := node_image n]> (node_image <$> nodes A)) -> ledger_rel (L <| udidMap := t |>) (put_node A u n).
Proof.
  intros [] Hn Hu Ht. split; try done; cbn.
  - by rewrite fmap_insert.
  - by apply map_Forall_insert_2.
Qed.

Lemma set_udidMap_rel L A t : ledger_rel L A -> map_rel sc t (node_image <$> nodes A) -> ledger_rel (L <| udidMap := t |>) A.
Proof. intros [] Ht. by split. Qed.

Lemma udid_set L A mem n : ledger_rel L A -> room A 0 -> typed_node n ->
  exists r t, LnnMapSet sc true mem (udidMap L) (Some (udid_of n)) (Some (node_image n)) = Some (r, t) /\
    (r = SOFTBUS_OK <-> stores mem A (udid_of n) = true) /\
    ledger_rel (L <| udidMap := t |>) (if stores mem A (udid_of n) then put_node A (udid_of n) n else A).
Proof.
  intros HR [Hroom _] Hn. pose proof HR as [Hu _ _ _ Hty _ _].
  destruct (set_refines sc (udidMap L) _ mem (udid_of n) (node_image n) Hu) as (r & t & E & Er & Ht).
  { rewrite map_size_fmap. lia. }
  exists r, t. split; [done|]. unfold stores, spec_op in *. clear E.
  pose proof (typed_udid n Hn) as Hl%fits_short. fold (udid_of n) in Hl. unfold UDID_BUF_LEN in Hl.
  assert (forall x, typed_node x -> length (node_image x) = 704%nat) as Himg.
  { intros x Hx%node_typed_iff. by apply node_image_length. }
  rewrite !(Himg n Hn) in Er, Ht. replace (1000 <? length (udid_of n))%nat with false in Er, Ht
    by (symmetry; apply Nat.ltb_ge; lia). cbn [Nat.eqb Nat.ltb Nat.leb orb] in Er, Ht.
  change (1000 <? 704)%nat with false in *. cbn [orb] in *. rewrite lookup_fmap in Er, Ht.
  destruct (nodes A !! udid_of n) as [old|] eqn:Eo; cbn [fmap option_fmap option_map] in Er, Ht.
  - destruct (Hty _ _ Eo) as [Hold _]. rewrite (Himg old Hold) in Er, Ht. cbn in Er, Ht.
    rewrite bool_decide_eq_true_2, orb_true_r by eauto. injection Er as <-. split; [done|]. by apply put_node_rel.
  - rewrite bool_decide_eq_false_2, orb_false_r by (by intros []). destruct mem; cbn in Er, Ht; injection Er as <-.
    + split; [done|]. by apply put_node_rel.
    + split; [done|]. by apply set_udidMap_rel.
Qed.

(** ** Accesses *)

Lemma the_map_rel L A m : ledger_rel L A -> map_rel sc (the_map L m) (match m with UDID_MAP => node_image <$> nodes A | _ => ∅ end).
Proof. intros []. by destruct m. Qed.

Lemma wps_get_ptr L A id Q : ledger_rel L A ->
  Q (u ← id; _ ← nodes A !! u; Some (UDID_MAP, u)) L -> wps (get_ptr sc UDID_MAP id) Q L.
Proof.
  intros HR HQ. unfold wps, get_ptr. destruct id as [u|].
  - rewrite (get_refines sc _ _ u (the_map_rel L A UDID_MAP HR)). cbn in *. rewrite lookup_fmap.
    by destruct (nodes A !! u).
  - unfold LnnMapGet. cbn in *. done.
Qed.

Lemma wps_get_ptr_other L A m u Q : ledger_rel L A -> m <> UDID_MAP -> Q None L -> wps (get_ptr sc m (Some u)) Q L.
Proof.
  intros HR Hm HQ. unfold wps, get_ptr. rewrite (get_refines sc _ _ u (the_map_rel L A m HR)).
  by destruct m; cbn.
Qed.

Lemma wps_load L A u n Q : ledger_rel L A -> nodes A !! u = Some n -> Q n L -> wps (load sc (UDID_MAP, u)) Q L.
Proof.
  intros HR Hu HQ. unfold wps, load. cbn [fst snd]. rewrite (get_refines sc _ _ u (the_map_rel L A UDID_MAP HR)). cbn.
  rewrite lookup_fmap, Hu. cbn. rewrite node_at_typed; [done|]. by apply (lr_typed L A HR u).
Qed.

Lemma wps_store L A u n i Q : ledger_rel L A -> room A 0 -> nodes A !! u = Some n -> typed_node i -> udid_of i = u ->
  (forall L', ledger_rel L' (put_node A u i) -> Q tt L') -> wps (store sc (UDID_MAP, u) i) Q L.
Proof.
  intros HR Hroom Hu Hi Hui HQ. unfold store. apply wps_bind. eapply wps_load; [done|done|]. unfold wps.
  cbn [fst snd the_map]. subst u. destruct (udid_set L A true i HR Hroom Hi) as (r & t & -> & Hr & HR').
  cbn [mbind option_bind]. cbn [stores orb] in *. rewrite (proj2 Hr) by done. by apply HQ.
Qed.

(** The search of the three tables is the search of the first. *)
Lemma wps_GetNodeInfoFromMap L A id Q : ledger_rel L A ->
  Q (u ← id; _ ← nodes A !! u; Some (UDID_MAP, u)) L -> wps (GetNodeInfoFromMap sc id) Q L.
Proof.
  intros HR HQ. unfold GetNodeInfoFromMap. destruct id as [u|]; [|by apply wps_ret]. apply wps_bind.
  eapply wps_get_ptr; [done|]. cbn in HQ |- *. destruct (nodes A !! u); cbn in *; [by apply wps_ret|].
  apply wps_bind. eapply wps_get_ptr_other; [done|done|]. by eapply wps_get_ptr_other.
Qed.

Lemma udid_erase L A u : ledger_rel L A -> room A 0 ->
  exists r t, LnnMapErase sc (udidMap L) (Some u) = Some (r, t) /\
    ledger_rel (L <| udidMap := t |>) (A <| nodes := delete u (nodes A) |>).
Proof.
  intros HR [Hroom _]. pose proof HR as [Hu Hi Hm Hc Hty Hs Hb].
  destruct (erase_refines sc (udidMap L) _ u Hu) as (r & t & E & _ & Ht); [rewrite map_size_fmap; lia|].
  exists r, t. split; [done|]. split; try done; cbn.
  - rewrite fmap_delete. cbn in Ht. case_decide as Hz.
    + rewrite Hz in *. by rewrite delete_empty.
    + destruct ((node_image <$> nodes A) !! u) eqn:El; cbn in Ht; [done|]. by rewrite delete_id.
  - by apply map_Forall_delete.
Qed.

(** ** Connection codes *)

Definition put_code (A : ALedger) k (c : Z) : ALedger := A <| codes := <[k := c]> (codes A) |>.
Definition stores_code (mem : bool) (A : ALedger) k : bool := mem || bool_decide (is_Some (codes A !! k)).

Lemma set_codes_rel L A t c : ledger_rel L A -> map_rel sc t (short_image <$> c) -> map_Forall (fun _ c => - 2 ^ 15 <= c < 2 ^ 15) c ->
  ledger_rel (L <| connectionCode := t |>) (A <| codes := c |>).
Proof. intros [] Ht Hc. by split. Qed.

Lemma code_set L A mem k z : ledger_rel L A -> room A 0 -> (length k <= 1000)%nat ->
  exists r t, LnnMapSet sc true mem (connectionCode L) (Some k) (Some (short_image (i16 z))) = Some (r, t) /\
    ledger_rel (L <| connectionCode := t |>) (if stores_code mem A k then put_code A k (i16 z) else A).
Proof.
  intros HR [_ Hroom] Hk. pose proof HR as [_ _ _ Hc _ Hs _].
  destruct (set_refines sc (connectionCode L) _ mem k (short_image (i16 z)) Hc) as (r & t & E & _ & Ht).
  { rewrite map_size_fmap. lia. }
  exists r, t. split; [done|]. clear E. assert (A = A <| codes := codes A |>) as EA by (by destruct A).
  unfold stores_code, put_code, spec_op in *.
  replace (1000 <? length k)%nat with false in Ht by (symmetry; apply Nat.ltb_ge; lia).
  assert (forall x, length (short_image x) = 2%nat) as Hl by (intros x; apply (length_put_le 2)). rewrite !Hl in Ht.
  change (1000 <? 2)%nat with false in Ht. cbn [Nat.eqb orb] in Ht. rewrite lookup_fmap in Ht.
  destruct (codes A !! k) as [old|] eqn:Eo; cbn [fmap option_fmap option_map] in Ht.
  - rewrite Hl in Ht. cbn in Ht. rewrite bool_decide_eq_true_2, orb_true_r by eauto.
    apply set_codes_rel; [done|by rewrite fmap_insert|]. apply map_Forall_insert_2; [apply i16_range|done].
  - rewrite bool_decide_eq_false_2, orb_false_r by (by intros []). destruct mem; cbn in Ht.
    + apply set_codes_rel; [done|by rewrite fmap_insert|]. apply map_Forall_insert_2; [apply i16_range|done].
    + rewrite EA. by apply set_codes_rel.
Qed.

Lemma code_erase L A k : ledger_rel L A -> room A 0 ->
  exists r t, LnnMapErase sc (connectionCode L) (Some k) = Some (r, t) /\
    ledger_rel (L <| connectionCode := t |>) (A <| codes := delete k (codes A) |>).
Proof.
  intros HR [_ Hroom]. pose proof HR as [_ _ _ Hc _ Hs _].
  destruct (erase_refines sc (connectionCode L) _ k Hc) as (r & t & E & _ & Ht); [rewrite map_size_fmap; lia|].
  exists r, t. split; [done|]. apply set_codes_rel; [done| |by apply map_Forall_delete].
  rewrite fmap_delete. cbn in Ht. case_decide as Hz.
  - rewrite Hz in *. by rewrite delete_empty.
  - destruct ((short_image <$> codes A) !! k) eqn:El; cbn in Ht; [done|]. by rewrite delete_id.
Qed.

Lemma code_get L A k : ledger_rel L A ->
  LnnMapGet sc (connectionCode L) (Some k) = Some (short_image <$> (codes A !! k)).
Proof. intros HR. rewrite (get_refines sc _ _ k (lr_code L A HR)). by rewrite lookup_fmap. Qed.

(** ** Loops over the nodes *)

(** The loop on the list of the nodes it meets. *)
Fixpoint walk_list {B} (cond : B -> bool) (body : MapNode -> B -> option (B * bool)) (ns : list MapNode) (b : B) : option B :=
  match ns with
  | [] => Some b
  | n :: ns =>
      if cond b then '(b, stop) ← body n b; if stop : bool then Some b else walk_list cond body ns b else Some b
  end.

Lemma walk_iterate {B} (cond : B -> bool) body fuel it ns (b : B) :
  iterate fuel it = Some ns -> walk cond body fuel it b = walk_list cond body ns b.
Proof.
  revert it ns b. induction fuel as [|fuel IH]; intros it ns b E; [done|]. cbn [iterate walk] in *.
  destruct (LnnMapHasNext it); [|by injection E as <-]. cbn [andb].
  destruct (LnnMapNext it) as [it1|]; [|done]. cbn in E. destruct (head (it_node it1)) as [n|] eqn:Eh; [|done].
  cbn in E. destruct (iterate fuel it1) as [ns'|] eqn:Ei; [|done]. injection E as <-. cbn.
  destruct (cond b); [|done]. rewrite Eh. cbn. destruct (body n b) as [[b' []]|]; [done| |done]. cbn. by apply IH.
Qed.

(** A walk meets the nodes of the ledger, each once and in some order. *)
Lemma wps_walk {B} mem (cond : B -> bool) body (b : B) L A (Q : option B -> Ledger -> Prop) :
  ledger_rel L A -> room A 0 ->
  (mem = false -> Q None L) ->
  (forall ns, mem = true -> (forall n, n ∈ ns -> nodes A !! key n = Some (node_at (value n))) ->
     (fun n => (key n, node_at (value n))) <$> ns ≡ₚ map_to_list (nodes A) ->
     exists b', walk_list cond body ns b = Some b' /\ Q (Some b') L) ->
  wps (walk_udids mem cond body b) Q L.
Proof.
  intros HR [Hroom _] HN HS. unfold wps, walk_udids. destruct mem; [|cbn; by apply HN].
  destruct (iterator_enumerates sc (udidMap L) _ (lr_udid L A HR)) as (it & ns & Ei & Et & Hp).
  { rewrite map_size_fmap. lia. }
  rewrite Ei. rewrite (map_rel_size sc _ _ (lr_udid L A HR)), Nat2Z.id. rewrite (walk_iterate _ _ _ _ ns) by done.
  assert (forall n, n ∈ ns -> nodes A !! key n = Some (node_at (value n))) as Hns.
  { intros n Hn. assert (kv n ∈ map_to_list (node_image <$> nodes A)) as Hk by (rewrite <- Hp; by apply list_elem_of_fmap_2).
    apply elem_of_map_to_list in Hk. rewrite lookup_fmap in Hk. destruct (nodes A !! key n) as [x|] eqn:Ex; [|done].
    cbn [fmap option_fmap option_map] in Hk. injection Hk as <-. f_equal. symmetry. apply node_at_typed. by apply (lr_typed L A HR (key n)). }
  assert ((fun n => (key n, node_at (value n))) <$> ns ≡ₚ map_to_list (nodes A)) as Hl.
  { apply (Permutation_trans (l' := prod_map id node_at <$> (kv <$> ns))).
    - by rewrite <- list_fmap_compose.
    - rewrite Hp, map_to_list_fmap, <- list_fmap_compose.
      rewrite (list_fmap_ext _ id); [by rewrite list_fmap_id|].
      intros i [k x] Hx%list_elem_of_lookup_2%elem_of_map_to_list. cbn [compose prod_map fst snd].
      unfold prod_map. cbn. rewrite node_at_typed; [done|]. by apply (lr_typed L A HR k). }
  destruct (HS ns eq_refl Hns Hl) as (b' & Eb & HQ). by rewrite Eb.
Qed.

End rel.
End LnnLedgerRel.
