(* ===== verification/LnnLedgerSpec.v ===== *)
(** * The contract of the distributed ledger

    The operations of the ledger on the abstract state: finite maps instead of hash
    tables, no pointers, iterators or memory images.  Where the order of the
    tables decides (which of several nodes a search returns, the order of a
    listing) the contract is a relation. *)

From stdpp Require Import pretty.
From S2P Require Import Prelude StateFault LnnMap LnnNodeInfo LnnLedger LnnLedgerRel.

Module LnnLedgerSpec.
Import LnnMap LnnNodeInfo LnnLedger LnnLedgerRel.
#[local] Open Scope sf_scope.

(** ** Operations and results *)

Inductive lop :=
  | OAdd (env : Env) (info : option NodeInfo)
  | OOffline (env : Env) (udid : option (list Z)) (authId : Z)
  | ORemove (env : Env) (udid : option (list Z))
  | OSetName (env : Env) (udid name : option (list Z))
  | OBasic (env : Env) (udid : option (list Z)) (basic : option NodeBasicInfo)
  | OCode (env : Env) (uuid : option (list Z)) (type : Z)
  | OUdidOf (env : Env) (id : option (list Z)) (type : Z)
  | OStr (env : Env) (networkId : option (list Z)) (key : Z) (info : option (list Z)) (len : Z)
  | ONum (env : Env) (networkId : option (list Z)) (key : Z) (info : option Z)
  | OOnline (env : Env) (junk : NodeBasicInfo) (args : bool)
  | ONetId (env : Env) (uuid : option (list Z)) (buf : list Z) (len : Z)
  | OPost (mem cb : bool).

Inductive lres :=
  | ResReport (r : ReportCategory) (info : option NodeInfo)
  | ResUnit
  | ResBool (b : bool)
  | ResBasic (r : Z) (b : option NodeBasicInfo)
  | ResCode (c : Z)
  | ResText (s : option (list Z))
  | ResBuf (r : Z) (b : option Buf)
  | ResOnline (r : Z) (arr : InfoArray) (num : option Z)
  | ResId (r : Z) (buf : list Z)
  | ResPosted (bs : list NodeBasicInfo).

Definition run_op (sc : bool) (op : lop) : SF Ledger lres :=
  match op with
  | OAdd env info => let! (r, i) := LnnAddOnlineNode sc env info in sret (ResReport r i)
  | OOffline env u a => let* r := LnnSetNodeOffline sc env u a in sret (ResReport r None)
  | ORemove env u => LnnRemoveNode sc env u;; sret ResUnit
  | OSetName env u nm => let* b := LnnSetDLDeviceInfoName sc env u nm in sret (ResBool b)
  | OBasic env u b => let! (r, b) := LnnGetBasicInfoByUdid sc env u b in sret (ResBasic r b)
  | OCode env u t => let* c := LnnGetCnnCode sc env u t in sret (ResCode c)
  | OUdidOf env id t => let* s := LnnConvertDLidToUdid sc env id t in sret (ResText s)
  | OStr env id k s len => let! (r, b) := LnnGetDLStrInfo sc env id k s len in sret (ResBuf r b)
  | ONum env id k z => let! (r, b) := LnnGetDLNumInfo sc env id k z in sret (ResBuf r b)
  | OOnline env junk args => let! (r, arr, num) := LnnGetDistributedNodeInfo env junk args in sret (ResOnline r arr num)
  | ONetId env u buf len => let! (r, b) := LnnGetNetworkIdByUuid sc env u buf len in sret (ResId r b)
  | OPost mem cb => let* bs := PostOnlineNodesToCb mem cb in sret (ResPosted bs)
  end.

Fixpoint run_ops (sc : bool) (ops : list lop) : SF Ledger (list lres) :=
  match ops with
  | [] => sret []
  | op :: ops => let* r := run_op sc op in let* rs := run_ops sc ops in sret (r :: rs)
  end.

(** ** The contract *)

Definition online (n : NodeInfo) : bool := status n =? STATUS_ONLINE.
Definition found_by (n : NodeInfo) (type : Z) : bool := negb (Z.land (discoveryType n) (Z.shiftl 1 type) =? 0).

Definition basic_of (n : NodeInfo) : NodeBasicInfo :=
  mkBasic (networkId n) (deviceName (deviceInfo n)) (deviceTypeId (deviceInfo n)).

(** A node that is added again while online keeps what the other medium found. *)
Definition merged (old : option NodeInfo) (i : NodeInfo) : NodeInfo :=
  match old with
  | Some o =>
      let both := i <| discoveryType := Z.lor (discoveryType i) (discoveryType o) |> in
      if negb (online o) then i
      else if (found_by o DISCOVERY_TYPE_BLE || found_by o DISCOVERY_TYPE_BR) && found_by i DISCOVERY_TYPE_WIFI then
        if bool_decide (macAddr (connectInfo i) = [])
        then both <| connectInfo := (connectInfo i) <| macAddr := macAddr (connectInfo o) |> |> else both
      else if found_by o DISCOVERY_TYPE_WIFI && (found_by i DISCOVERY_TYPE_BLE || found_by i DISCOVERY_TYPE_BR) then
        if bool_decide (deviceIp (connectInfo i) = [])
        then both <| connectInfo := (connectInfo i) <| deviceIp := deviceIp (connectInfo o) |> |> else both
      else i
  | None => i
  end.
Definition added (old : option NodeInfo) (i : NodeInfo) : NodeInfo := (merged old i) <| status := STATUS_ONLINE |>.

Definition was_online (old : option NodeInfo) : bool := match old with Some o => online o | None => false end.
Definition add_report (old : option NodeInfo) (i : NodeInfo) : ReportCategory :=
  match old with
  | Some o => if negb (online o) then REPORT_ONLINE
              else if bool_decide (networkId i = networkId o) then REPORT_NONE else REPORT_CHANGE
  | None => REPORT_ONLINE
  end.

Definition code_key (type : Z) (uuid : list Z) : list Z := text (pretty type) ++ uuid.

(** The code of a BR connection is entered, when memory can be had, even if the
    mutex then fails. *)
Definition with_code (env : Env) (A : ALedger) (i : NodeInfo) : ALedger :=
  let k := code_key DISCOVERY_TYPE_BR (uuid i) in
  if found_by i DISCOVERY_TYPE_BR && e_key env && stores_code (e_code_node env) A k
  then put_code A k (i16 (authSeqNum i)) else A.
Definition without_code (env : Env) (A : ALedger) (n : NodeInfo) : ALedger :=
  if found_by n DISCOVERY_TYPE_BR && e_key env
  then A <| codes := delete (code_key DISCOVERY_TYPE_BR (uuid n)) (codes A) |> else A.

(** A search by identifier; one by network id or UUID needs memory for its iterator. *)
Definition matches (type : Z) (s u : list Z) (n : NodeInfo) : Prop :=
  (type = CATEGORY_UDID /\ u = s) \/ (type = CATEGORY_NETWORK_ID /\ networkId n = s) \/ (type = CATEGORY_UUID /\ uuid n = s).
#[export] Instance matches_dec type s u n : Decision (matches type s u n).
Proof. unfold matches. apply _. Defined.
Definition finds (A : ALedger) (mem : bool) (s : list Z) (type : Z) (r : option (list Z)) : Prop :=
  if negb (type =? CATEGORY_UDID) && negb mem then r = None
  else match r with
       | Some u => exists n, nodes A !! u = Some n /\ matches type s u n
       | None => forall u n, nodes A !! u = Some n -> ~ matches type s u n
       end.

Definition type_name (id : Z) : option (list Z) :=
  let '(p, buf) := LnnConvertIdToDeviceType [0; 0; 0; 0] id in type_text buf <$> p.

(** The values behind the keys: [None] when the key has no getter, [Some None]
    when the node has no such value. *)
Definition str_field (k : Z) (n : NodeInfo) : option (option (list Z)) :=
  if k =? STRING_KEY_HICE_VERSION then Some (Some (softBusVersion n))
  else if k =? STRING_KEY_DEV_UDID then Some (Some (udid_of n))
  else if k =? STRING_KEY_UUID then Some (Some (uuid n))
  else if k =? STRING_KEY_DEV_TYPE then Some (type_name (deviceTypeId (deviceInfo n)))
  else if k =? STRING_KEY_DEV_NAME then Some (Some (deviceName (deviceInfo n)))
  else if k =? STRING_KEY_BT_MAC then Some (Some (macAddr (connectInfo n)))
  else if k =? STRING_KEY_WLAN_IP then Some (Some (deviceIp (connectInfo n)))
  else if k =? STRING_KEY_MASTER_NODE_UDID then Some (if online n then Some (masterUdid n) else None)
  else None.
Definition num_field (k : Z) (n : NodeInfo) : option Z :=
  if k =? NUM_KEY_SESSION_PORT then Some (sessionPort (connectInfo n))
  else if k =? NUM_KEY_AUTH_PORT then Some (authPort (connectInfo n))
  else if k =? NUM_KEY_PROXY_PORT then Some (proxyPort (connectInfo n))
  else if k =? NUM_KEY_NET_CAP then Some (netCapacity n)
  else if k =? NUM_KEY_MASTER_NODE_WEIGHT then Some (masterWeight n)
  else None.

(** The nodes that are online, as the listings show them. *)
Definition online_nodes (A : ALedger) : list NodeBasicInfo :=
  (fun p => basic_of p.2) <$> filter (fun p => online p.2 = true) (map_to_list (nodes A)).

Definition copied (buf : list Z) (len : Z) (s : list Z) : Z * list Z :=
  let '(ok, d) := strncpy_s buf len s in (if ok then SOFTBUS_OK else SOFTBUS_MEM_ERR, d).

(** What an operation may return and do on the abstract ledger. *)
Definition spec_op (A : ALedger) (op : lop) (r : lres) (A' : ALedger) : Prop :=
  match op with
  | OAdd env None => A' = A /\ r = ResReport (if e_lock env then REPORT_ONLINE else REPORT_NONE) None
  | OAdd env (Some i) =>
      let A1 := with_code env A i in
      if negb (e_lock env) then A' = A1 /\ r = ResReport REPORT_NONE (Some i)
      else
        let old := nodes A !! udid_of i in
        r = ResReport (add_report old i) (Some (added old i)) /\
        A' = if stores (e_node env) A (udid_of i) then put_node A1 (udid_of i) (added old i) else A1
  | OOffline env u a =>
      match (if e_lock env then u ← u; n ← nodes A !! u; Some (u, n) else None) with
      | None => A' = A /\ r = ResReport REPORT_NONE None
      | Some (u, n) =>
          let A1 := without_code env A n in
          if found_by n DISCOVERY_TYPE_WIFI && negb (authChannelId n =? a)
          then A' = A1 /\ r = ResReport REPORT_NONE None
          else A' = put_node A1 u (n <| status := STATUS_OFFLINE |>) /\ r = ResReport REPORT_OFFLINE None
      end
  | ORemove env u =>
      r = ResUnit /\ A' = match u with
                          | Some u => if e_lock env then A <| nodes := delete u (nodes A) |> else A
                          | None => A
                          end
  | OSetName env u nm =>
      match nm, (if e_lock env then u ← u; n ← nodes A !! u; Some (u, n) else None) with
      | Some nm, Some (u, n) =>
          if bool_decide (deviceName (deviceInfo n) = nm) then A' = A /\ r = ResBool true
          else if Z.of_nat (length nm) <? DEVICE_NAME_BUF_LEN
          then A' = put_node A u (n <| deviceInfo := (deviceInfo n) <| deviceName := nm |> |>) /\ r = ResBool true
          else A' = A /\ r = ResBool false
      | _, _ => A' = A /\ r = ResBool false
      end
  | OBasic env u b =>
      A' = A /\
      match u, b with
      | Some u, Some _ =>
          if negb (e_lock env) then r = ResBasic SOFTBUS_ERR b
          else match nodes A !! u with
               | Some n => r = ResBasic SOFTBUS_OK (Some (basic_of n))
               | None => r = ResBasic SOFTBUS_INVALID_PARAM b
               end
      | _, _ => r = ResBasic SOFTBUS_INVALID_PARAM b
      end
  | OCode env u t =>
      A' = A /\ r = ResCode (default INVALID_CONNECTION_CODE_VALUE
        (u ← u; if e_key env && (Z.of_nat (length u) <? UUID_BUF_LEN) then codes A !! code_key t u else None))
  | OUdidOf env id t =>
      A' = A /\ exists u, r = ResText u /\ match id with None => u = None | Some s => finds A (e_iter env) s t u end
  | OStr env id k s len =>
      A' = A /\
      match id, s with
      | Some id, Some d =>
          if k >=? STRING_KEY_END then r = ResBuf SOFTBUS_INVALID_PARAM (Some (BStr d))
          else if negb (e_lock env) then r = ResBuf SOFTBUS_ERR (Some (BStr d))
          else exists u, finds A (e_iter env) id CATEGORY_NETWORK_ID u /\
            match (u ← u; n ← nodes A !! u; v ← str_field k n; v) with
            | Some v => r = ResBuf (copied d len v).1 (Some (BStr (copied d len v).2))
            | None => r = ResBuf SOFTBUS_ERR (Some (BStr d))
            end
      | _, _ => r = ResBuf SOFTBUS_INVALID_PARAM (BStr <$> s)
      end
  | ONum env id k z =>
      A' = A /\
      match id, z with
      | Some id, Some z =>
          if (k <? NUM_KEY_BEGIN) || (k >=? NUM_KEY_END) then r = ResBuf SOFTBUS_INVALID_PARAM (Some (BInt z))
          else if negb (e_lock env) then r = ResBuf SOFTBUS_ERR (Some (BInt z))
          else exists u, finds A (e_iter env) id CATEGORY_NETWORK_ID u /\
            match (u ← u; n ← nodes A !! u; num_field k n) with
            | Some v => r = ResBuf SOFTBUS_OK (Some (BInt (i32 v)))
            | None => r = ResBuf SOFTBUS_ERR (Some (BInt z))
            end
      | _, _ => r = ResBuf SOFTBUS_INVALID_PARAM (BInt <$> z)
      end
  | OOnline env junk args =>
      A' = A /\
      let num := length (online_nodes A) in
      if negb args then r = ResOnline SOFTBUS_ERR Unwritten None
      else if negb (e_iter env) then r = ResOnline SOFTBUS_ERR Null None
      else if (num =? 0)%nat then r = ResOnline SOFTBUS_OK Null (Some 0)
      else if negb (e_array env) then r = ResOnline SOFTBUS_ERR Null (Some (Z.of_nat num))
      else if negb (e_iter2 env) then r = ResOnline SOFTBUS_ERR Dangling (Some (Z.of_nat num))
      else exists arr, r = ResOnline SOFTBUS_OK (Owned arr) (Some (Z.of_nat num)) /\ arr ≡ₚ online_nodes A
  | ONetId env u buf len =>
      A' = A /\
      match u with
      | Some s =>
          if (length s =? 0)%nat || (Z.of_nat (length s) >=? ID_MAX_LEN) then r = ResId SOFTBUS_INVALID_PARAM buf
          else if negb (e_lock env) then r = ResId SOFTBUS_ERR buf
          else exists u, finds A (e_iter env) s CATEGORY_UUID u /\
            match (u ← u; nodes A !! u) with
            | Some n => r = ResId (copied buf len (networkId n)).1 (copied buf len (networkId n)).2
            | None => r = ResId SOFTBUS_ERR buf
            end
      | None => r = ResId SOFTBUS_INVALID_PARAM buf
      end
  | OPost mem cb =>
      A' = A /\ exists bs, r = ResPosted bs /\ if mem && cb then bs ≡ₚ online_nodes A else bs = []
  end.

(** The arguments a caller may give: values of their types; the bucket arrays of the
    tables can be allocated. *)
Definition chars (s : list Z) : bool := forallb (fun c => (0 <? c) && (c <? 256)) s.
Definition op_ok (op : lop) : Prop :=
  match op with
  | OAdd env info => e_resize env = true /\ e_code_resize env = true /\ match info with Some i => node_typed i = true | None => True end
  | OSetName _ _ nm => match nm with Some nm => chars nm = true | None => True end
  | OCode _ _ t => 0 <= t < DISCOVERY_TYPE_COUNT
  | OStr _ _ k _ _ => 0 <= k
  | ONetId _ u _ _ => match u with Some u => chars u = true /\ Z.of_nat (length u) < 2 ^ 32 | None => True end
  | _ => True
  end.

End LnnLedgerSpec.
