(* ===== verification/LnnLedgerOps.v ===== *)
(** * The operations of the distributed ledger meet their contract

    One lemma per operation of [LnnLedger]: from a ledger that represents an
    abstract one it ends without a fault in a result and a ledger that the
    contract of [LnnLedgerSpec] allows. *)

From stdpp Require Import pretty.
From S2P Require Import Prelude StateFault LnnMap LnnNodeInfo LnnLedger LnnLedgerRel LnnLedgerSpec Utils.

Module LnnLedgerOps.
Import LnnMap LnnNodeInfo LnnLedger LnnLedgerRel LnnLedgerSpec.

(** ** Nodes *)

Lemma ConvertNodeInfoToBasicInfo_typed n b : typed_node n ->
  ConvertNodeInfoToBasicInfo (Some n) (Some b) = (SOFTBUS_OK, Some (basic_of n)).
Proof.
  intros Hn. unfold ConvertNodeInfoToBasicInfo. rewrite (strncpy_s_fits DEVICE_NAME_BUF_LEN) by (done || by apply typed_name).
  cbn. rewrite (strncpy_s_fits NETWORK_ID_BUF_LEN) by (done || by apply typed_networkId). done.
Qed.

Lemma has_type n t : t < DISCOVERY_TYPE_COUNT -> LnnHasDiscoveryType (Some n) t = found_by n t.
Proof. intros Ht. unfold LnnHasDiscoveryType. by replace (t >=? DISCOVERY_TYPE_COUNT) with false by lia. Qed.

Lemma merge_online_spec i old : (forall o, old = Some o -> typed_node o) ->
  merge_online (Some i) old = (negb (was_online old), was_online old && negb (bool_decide (Some (networkId i) = networkId <$> old)),
                               Some (merged old i)).
Proof.
  intros Ho. unfold merge_online, was_online, merged. destruct old as [o|]; [|done]. specialize (Ho o eq_refl).
  cbn [LnnIsNodeOnline fmap option_fmap option_map]. fold (online o). destruct (online o); [|done]. cbn [negb andb].
  rewrite !has_type by done. unfold IsNetworkIdChanged, NewWifiDiscovered, NewBrBleDiscovered.
  replace (bool_decide (Some (networkId i) = Some (networkId o))) with (bool_decide (networkId i = networkId o))
    by (apply bool_decide_ext; split; [by intros ->|by intros [= ?]]).
  rewrite set_mac, set_ip by done. cbn [LnnGetBtMac LnnGetWiFiIp connectInfo]. unfold DEFAULT_MAC, DEFAULT_IP.
  by repeat case_if.
Qed.

Lemma merged_typed i old : typed_node i -> (forall o, old = Some o -> typed_node o) -> typed_node (merged old i).
Proof.
  intros Hi Ho. unfold merged. destruct old as [o|]; [|done]. specialize (Ho o eq_refl). cbv zeta.
  pose proof (typed_discovery i o Hi Ho) as Hd. repeat case_if; try done.
  - apply (typed_mac _ o Hd Ho).
  - apply (typed_ip _ o Hd Ho).
Qed.
Lemma added_typed i old : typed_node i -> (forall o, old = Some o -> typed_node o) -> typed_node (added old i).
Proof. intros Hi Ho. apply typed_status; [by apply merged_typed|done]. Qed.
Lemma added_udid i old : udid_of (added old i) = udid_of i.
Proof. unfold added, merged. destruct old; [|done]. cbv zeta. by repeat case_if. Qed.

Lemma report_of i old :
  (if negb (was_online old) then REPORT_ONLINE
   else if was_online old && negb (bool_decide (Some (networkId i) = networkId <$> old)) then REPORT_CHANGE else REPORT_NONE) =
  add_report old i.
Proof.
  unfold was_online, add_report. destruct old as [o|]; [|done]. cbn. destruct (online o); [|done]. cbn.
  by repeat case_bool_decide; cbn; try congruence.
Qed.

(** ** Connection codes *)

Lemma CreateCnnCodeKey_spec mem u t : 0 <= t < DISCOVERY_TYPE_COUNT -> Z.of_nat (length u) < UUID_BUF_LEN ->
  CreateCnnCodeKey mem (Some u) t = (if mem then Some (code_key t u) else None) /\ (length (code_key t u) <= 1000)%nat.
Proof.
  intros Ht Hu. unfold CreateCnnCodeKey, sprintf_ds. fold (code_key t u).
  replace (Z.of_nat (length u) >=? UUID_BUF_LEN) with false by bool_lia.
  assert (length (code_key t u) = S (length u)) as Hl.
  { unfold code_key. rewrite length_app. unfold DISCOVERY_TYPE_COUNT in Ht.
    assert (t = 0 \/ t = 1 \/ t = 2 \/ t = 3 \/ t = 4) as Ht' by lia. by destruct_or!; subst t. }
  rewrite Hl. unfold UUID_BUF_LEN, INT_TO_STR_SIZE in *.
  replace (Z.of_nat (S (length u)) >=? 12 + 65) with false by bool_lia. split; [by destruct mem|lia].
Qed.

Section ops.
Context (sc : bool).
Implicit Types (L : Ledger) (A : ALedger).

#[local] Abbreviation rel := (ledger_rel sc).

Lemma typed_at L A u n : rel L A -> nodes A !! u = Some n -> typed_node n /\ udid_of n = u.
Proof. intros HR. apply (lr_typed sc L A HR). Qed.

Lemma wps_add_code env L A i Q : rel L A -> room A 0 -> typed_node i -> e_code_resize env = true ->
  (forall L', rel L' (with_code env A i) -> Q tt L') ->
  wps (if LnnHasDiscoveryType (Some i) DISCOVERY_TYPE_BR
       then sbind (AddCnnCode sc env (uuid <$> Some i) DISCOVERY_TYPE_BR (default 0 (authSeqNum <$> Some i))) (fun _ => sret tt)
       else sret tt) Q L.
Proof.
  intros HR Hroom Hi Hre HQ. unfold with_code in HQ. rewrite has_type by done.
  destruct (found_by i DISCOVERY_TYPE_BR); cbn [andb] in HQ; [|apply wps_ret; auto].
  apply wps_bind. unfold AddCnnCode. cbn [fmap option_fmap option_map default id].
  destruct (CreateCnnCodeKey_spec (e_key env) (uuid i) DISCOVERY_TYPE_BR) as [-> Hk];
    [done|apply fits_short, (typed_uuid i Hi)|].
  destruct (e_key env); cbn [andb] in HQ; [|apply wps_ret, wps_ret; auto]. rewrite Hre.
  destruct (code_set sc L A (e_code_node env) (code_key DISCOVERY_TYPE_BR (uuid i)) (authSeqNum i)) as (r & t & E & HR'); [done..|].
  unfold wps at 1. cbv beta. rewrite E. cbn [mbind option_bind]. apply wps_ret, HQ, HR'.
Qed.

Lemma wps_remove_code env L A n Q : rel L A -> room A 0 -> typed_node n ->
  (forall L', rel L' (without_code env A n) -> Q tt L') ->
  wps (if LnnHasDiscoveryType (Some n) DISCOVERY_TYPE_BR
       then RemoveCnnCode sc env (Some (uuid n)) DISCOVERY_TYPE_BR else sret tt) Q L.
Proof.
  intros HR Hroom Hn HQ. unfold without_code in HQ. rewrite has_type by done.
  destruct (found_by n DISCOVERY_TYPE_BR); cbn [andb] in HQ; [|apply wps_ret; auto].
  unfold RemoveCnnCode. destruct (CreateCnnCodeKey_spec (e_key env) (uuid n) DISCOVERY_TYPE_BR) as [-> Hk];
    [done|apply fits_short, (typed_uuid n Hn)|].
  destruct (e_key env); cbn [andb] in HQ; [|apply wps_ret; auto].
  destruct (code_erase sc L A (code_key DISCOVERY_TYPE_BR (uuid n))) as (r & t & E & HR'); [done..|].
  unfold wps. rewrite E. cbn. by apply HQ.
Qed.

Lemma with_code_nodes env A i : nodes (with_code env A i) = nodes A.
Proof. unfold with_code. by case_if. Qed.
Lemma without_code_nodes env A n : nodes (without_code env A n) = nodes A.
Proof. unfold without_code. by case_if. Qed.

(** ** Changes *)

(** The node behind the result of a lookup. *)
Lemma wps_load_opt L A u Q : rel L A -> Q (nodes A !! u) L ->
  wps (match (_ ← nodes A !! u; Some (UDID_MAP, u)) with
       | None => sret None
       | Some p => sbind (load sc p) (fun i => sret (Some i))
       end) Q L.
Proof.
  intros HR HQ. destruct (nodes A !! u) as [n|] eqn:Hn; cbn; [|by apply wps_ret].
  apply wps_bind. eapply wps_load; [done|done|]. by apply wps_ret.
Qed.

Lemma room_with_code env A i : room A 1 -> room (with_code env A i) 0.
Proof.
  unfold with_code, room. case_if; cbn; [|lia]. rewrite map_size_insert. destruct (codes A !! _); cbn; lia.
Qed.
Lemma room_without_code env A n k : room A k -> room (without_code env A n) k.
Proof.
  unfold without_code, room. case_if; cbn; [|lia]. rewrite map_size_delete. destruct (codes A !! _); cbn; lia.
Qed.

(** An operation meets the contract. *)
Definition meets (L : Ledger) (A : ALedger) (op : lop) : Prop :=
  wps (run_op sc op) (fun r L' => exists A', spec_op A op r A' /\ rel L' A') L.

Lemma meets_add L A env info : rel L A -> room A 1 -> op_ok (OAdd env info) -> meets L A (OAdd env info).
Proof.
  intros HR Hroom (Hre & Hrc & Hi). unfold meets. cbn [run_op]. apply wps_bind. unfold LnnAddOnlineNode. apply wps_bind.
  destruct info as [i|].
  - apply node_typed_iff in Hi. eapply wps_add_code; [done|by eapply room_le, Hroom; lia|done|done|].
    intros L1 HR1. cbn [spec_op]. set (A1 := with_code env A i) in *. pose proof (with_code_nodes env A i) as EA1. fold A1 in EA1.
    destruct (e_lock env); cbn [negb]; [|by do 2 apply wps_ret; exists A1].
    apply wps_bind. eapply wps_get_ptr; [done|]. cbn [mbind option_bind LnnGetDeviceUdid].
    fold (udid_of i). rewrite EA1. set (old := nodes A !! udid_of i).
    apply wps_bind. unfold old. rewrite <- EA1. eapply wps_load_opt; [done|]. rewrite EA1. fold old.
    assert (forall o, old = Some o -> typed_node o) as Ho by (intros o Eo; by apply (typed_at L A (udid_of i))).
    rewrite merge_online_spec by done. cbn [LnnSetNodeConnStatus fmap option_fmap option_map]. fold (added old i).
    destruct (udid_set sc L1 A1 (e_node env) (added old i)) as (r & t & E & _ & HR2);
      [done|by eapply room_with_code|by apply added_typed|].
    rewrite added_udid in E, HR2. apply wps_bind. unfold wps at 1. rewrite Hre, E. cbn [mbind option_bind].
    do 2 apply wps_ret. eexists. split; [split; [by rewrite report_of|done]|].
    unfold stores in *. rewrite EA1 in HR2. by case_if.
  - apply wps_ret. cbn [spec_op]. destruct (e_lock env); cbn [negb]; [|by do 2 apply wps_ret; exists A].
    apply wps_bind. eapply wps_get_ptr; [done|]. apply wps_bind, wps_ret, wps_bind. unfold wps at 1. cbn.
    exists A. split; [done|]. by destruct L.
Qed.

Lemma meets_offline L A env u a : rel L A -> room A 1 -> meets L A (OOffline env u a).
Proof.
  intros HR Hroom. unfold meets. cbn [run_op]. apply wps_bind. unfold LnnSetNodeOffline. cbn [spec_op].
  destruct (e_lock env); cbn [negb]; [|by do 2 apply wps_ret; exists A].
  apply wps_bind. eapply wps_get_ptr; [done|]. destruct u as [u|]; cbn [mbind option_bind]; [|by do 2 apply wps_ret; exists A].
  destruct (nodes A !! u) as [n|] eqn:En; cbn [mbind option_bind]; [|by do 2 apply wps_ret; exists A].
  destruct (typed_at L A u n HR En) as [Hn Hu].
  apply wps_bind. eapply wps_load; [done|done|]. apply wps_bind. eapply wps_remove_code; [done|by eapply room_le, Hroom; lia|done|].
  intros L1 HR1. set (A1 := without_code env A n) in *. rewrite has_type by done. case_if; [by do 2 apply wps_ret; exists A1|].
  apply wps_bind. eapply wps_store; [done| | | | |].
  - apply room_without_code. by eapply room_le, Hroom; lia.
  - unfold A1. by rewrite without_code_nodes.
  - by apply typed_status.
  - done.
  - intros L2 HR2. do 2 apply wps_ret. eauto.
Qed.

Lemma meets_remove L A env u : rel L A -> room A 1 -> meets L A (ORemove env u).
Proof.
  intros HR Hroom. unfold meets. cbn [run_op]. apply wps_bind. unfold LnnRemoveNode. cbn [spec_op].
  destruct u as [u|]; [|by do 2 apply wps_ret; exists A]. destruct (e_lock env); cbn [negb]; [|by do 2 apply wps_ret; exists A].
  destruct (udid_erase sc L A u) as (r & t & E & HR'); [done|by eapply room_le, Hroom; lia|].
  unfold wps at 1. rewrite E. cbn [mbind option_bind]. apply wps_ret. eauto.
Qed.

Lemma meets_setname L A env u nm : rel L A -> room A 1 -> op_ok (OSetName env u nm) -> meets L A (OSetName env u nm).
Proof.
  intros HR Hroom Hok. unfold meets. cbn [run_op]. apply wps_bind. unfold LnnSetDLDeviceInfoName. cbn [spec_op op_ok] in *.
  destruct nm as [nm|]; [|by destruct u; do 2 apply wps_ret; exists A].
  destruct (e_lock env); cbn [negb]; [|by destruct u; do 2 apply wps_ret; exists A].
  destruct u as [u|]; cbn [mbind option_bind]; [|by do 2 apply wps_ret; exists A].
  apply wps_bind. eapply wps_GetNodeInfoFromMap; [done|]. cbn [mbind option_bind].
  destruct (nodes A !! u) as [n|] eqn:En; cbn [mbind option_bind]; [|by do 2 apply wps_ret; exists A].
  destruct (typed_at L A u n HR En) as [Hn Hu]. apply wps_bind. eapply wps_load; [done|done|].
  cbn [LnnGetDeviceName fmap option_fmap option_map].
  replace (bool_decide (Some (deviceName (deviceInfo n)) = Some nm)) with (bool_decide (deviceName (deviceInfo n) = nm))
    by (apply bool_decide_ext; split; [by intros ->|by intros [= ?]]).
  case_if; [by do 2 apply wps_ret; exists A|]. unfold LnnSetDeviceName.
  assert (room A 0) as Hroom0 by (by eapply room_le, Hroom; lia).
  destruct (Z.ltb_spec (Z.of_nat (length nm)) DEVICE_NAME_BUF_LEN) as [Hl|Hl].
  - replace (_ >? _) with false by (unfold DEVICE_NAME_BUF_LEN in *; bool_lia).
    assert (fits DEVICE_NAME_BUF_LEN nm = true) as Hf by (apply andb_true_iff; split; [bool_lia|done]).
    rewrite strncpy_s_fits by done. cbn [default id]. apply wps_bind.
    eapply wps_store; [done|done|done|by apply typed_setname|done|]. intros L2 HR2. do 2 apply wps_ret. eauto.
  - replace (_ >? _) with true by (unfold DEVICE_NAME_BUF_LEN in *; bool_lia). cbn [default id]. apply wps_bind.
    replace (mkNodeInfo _ _ _ _ _ _ _ _ _ _ _ _ _ _ _ _) with n by (by destruct n).
    eapply wps_store; [done|done|done|done|done|]. intros L2 HR2. do 2 apply wps_ret. exists A. split; [done|].
    unfold put_node in HR2. rewrite insert_id in HR2 by done. by destruct A.
Qed.

Lemma meets_basic L A env u b : rel L A -> room A 1 -> meets L A (OBasic env u b).
Proof.
  intros HR Hroom. unfold meets. cbn [run_op]. apply wps_bind. unfold LnnGetBasicInfoByUdid. cbn [spec_op].
  destruct u as [u|]; [|by do 2 apply wps_ret; exists A]. destruct b as [b|]; [|by do 2 apply wps_ret; exists A].
  destruct (e_lock env); cbn [negb]; [|by do 2 apply wps_ret; exists A].
  apply wps_bind. eapply wps_get_ptr; [done|]. cbn [mbind option_bind]. apply wps_bind. eapply wps_load_opt; [done|].
  destruct (nodes A !! u) as [n|] eqn:En.
  - destruct (typed_at L A u n HR En) as [Hn Hu]. rewrite ConvertNodeInfoToBasicInfo_typed by done.
    do 2 apply wps_ret. by exists A.
  - do 2 apply wps_ret. by exists A.
Qed.

Lemma meets_code L A env u t : rel L A -> op_ok (OCode env u t) -> meets L A (OCode env u t).
Proof.
  intros HR Ht. unfold meets. cbn [run_op]. apply wps_bind. unfold LnnGetCnnCode. cbn [spec_op op_ok] in *.
  destruct u as [u|]; [|by do 2 apply wps_ret; exists A]. cbn [mbind option_bind].
  destruct (Z.ltb_spec (Z.of_nat (length u)) UUID_BUF_LEN) as [Hl|Hl].
  - destruct (CreateCnnCodeKey_spec (e_key env) u t) as [-> _]; [done|done|]. rewrite andb_true_r.
    destruct (e_key env); [|by do 2 apply wps_ret; exists A]. unfold wps at 1. rewrite (code_get sc L A) by done.
    cbn [mbind option_bind]. apply wps_ret. exists A. split; [|done]. split; [done|]. f_equal.
    destruct (codes A !! code_key t u) as [c|] eqn:Ec; cbn [fmap option_fmap option_map default id]; [|done].
    apply short_at_image. by apply (lr_short sc L A HR (code_key t u)).
  - rewrite andb_false_r. unfold CreateCnnCodeKey. replace (_ >=? _) with true by bool_lia. by do 2 apply wps_ret; exists A.
Qed.

(** ** Searches *)

Lemma walk_find (body : MapNode -> option NodePtr -> option (option NodePtr * bool)) (test : MapNode -> bool) ns :
  (forall n a, body n a = Some (if test n then (Some (UDID_MAP, key n), true) else (None, false))) ->
  exists r, walk_list (fun _ => true) body ns None = Some ((fun u => (UDID_MAP, u)) <$> r) /\
    match r with
    | Some u => exists n, n ∈ ns /\ test n = true /\ key n = u
    | None => forall n, n ∈ ns -> test n = false
    end.
Proof.
  intros Hb. induction ns as [|n ns IH].
  - exists None. split; [done|]. by intros n Hn%elem_of_nil.
  - cbn [walk_list]. rewrite Hb. cbn [mbind option_bind]. destruct (test n) eqn:Et.
    + exists (Some (key n)). split; [done|]. exists n. split_and!; [by left|done|done].
    + destruct IH as (r & E & Hr). exists r. split; [done|]. destruct r as [u|].
      * destruct Hr as (x & Hx & ? & ?). exists x. split_and!; [by right|done|done].
      * intros x [->|Hx]%elem_of_cons; [done|auto].
Qed.

Lemma wps_find L A mem s type Q : rel L A -> room A 0 ->
  (forall r, finds A mem s type r -> Q ((fun u => (UDID_MAP, u)) <$> r) L) ->
  wps (LnnGetNodeInfoById sc mem (Some s) type) Q L.
Proof.
  intros HR Hroom HQ. unfold LnnGetNodeInfoById, finds in *. destruct (Z.eqb_spec type CATEGORY_UDID) as [->|Ht]; cbn [negb andb] in HQ.
  - eapply wps_GetNodeInfoFromMap; [done|]. cbn [mbind option_bind].
    destruct (nodes A !! s) as [n|] eqn:En; cbn [mbind option_bind].
    + apply (HQ (Some s)). exists n. split; [done|]. by left.
    + apply (HQ None). intros u n Hu [[_ ->]|[[? _]|[? _]]]; [congruence|done|done].
  - apply wps_bind. eapply wps_walk; [done|done| |].
    + intros ->. apply wps_ret. by apply (HQ None).
    + intros ns -> Hns Hp. cbn [negb] in HQ.
      lazymatch goal with |- context [walk_list _ ?body _ _] =>
        destruct (walk_find body (fun n => bool_decide (matches type s (key n) (node_at (value n)))) ns) as (r & E & Hr) end;
        [|eexists; split; [exact E|]; apply wps_ret, HQ].
      * intros n a. cbv beta zeta. unfold matches.
        destruct (Z.eqb_spec type CATEGORY_NETWORK_ID); [|destruct (Z.eqb_spec type CATEGORY_UUID)]; repeat case_bool_decide; naive_solver.
      * destruct r as [u|].
        -- destruct Hr as (n & Hn & Hm%bool_decide_eq_true & <-). eauto.
        -- intros u n Hu Hm. assert ((u, n) ∈ map_to_list (nodes A)) as Hin by (by apply elem_of_map_to_list).
           rewrite <- Hp in Hin. apply list_elem_of_fmap in Hin as (x & [= -> ->] & Hx).
           specialize (Hr x Hx). by apply bool_decide_eq_false in Hr.
Qed.

Lemma finds_some L A mem s type u : finds A mem s type (Some u) -> exists n, nodes A !! u = Some n.
Proof. unfold finds. case_if; [done|]. by intros (n & Hn & _); exists n. Qed.

Lemma meets_udid L A env id t : rel L A -> room A 1 -> meets L A (OUdidOf env id t).
Proof.
  intros HR Hroom. unfold meets. cbn [run_op]. apply wps_bind. unfold LnnConvertDLidToUdid. cbn [spec_op].
  destruct id as [s|]; [|do 2 apply wps_ret; exists A; split; [eauto|done]].
  apply wps_bind. eapply wps_find; [done|by eapply room_le, Hroom; lia|]. intros r Hr.
  destruct r as [u|]; cbn [fmap option_fmap option_map]; [|do 2 apply wps_ret; exists A; split; [eauto|done]].
  destruct (finds_some L A _ _ _ _ Hr) as [n Hn]. apply wps_bind. eapply wps_load; [done|done|]. do 2 apply wps_ret.
  destruct (typed_at L A u n HR Hn) as [_ Hu]. exists A. split; [|done]. split; [done|]. exists (Some u).
  split; [|done]. cbn. fold (udid_of n). by rewrite Hu.
Qed.

(** ** Queries by key *)

Lemma hex_string_length buf id : length (ConvertIntToHexString buf id) = length buf.
Proof.
  unfold ConvertIntToHexString. cbn [foldl put_digit]. unfold put_digit.
  repeat (case_if; cbv beta iota zeta); by rewrite !length_insert.
Qed.

(** The digits are written in front of the terminator, whatever the buffer held. *)
Lemma hex_string_fresh buf id : length buf = 4%nat ->
  str_of (ConvertIntToHexString buf id) = str_of (ConvertIntToHexString [0; 0; 0; 0] id).
Proof.
  intros Hb. destruct buf as [|b0 [|b1 [|b2 [|b3 [|]]]]]; try done.
  unfold ConvertIntToHexString. cbn [foldl]. unfold put_digit.
  assert (forall i, 0 <= InterceptTypeId id i < 16) as Hd by (intros i; apply Z.mod_pos_bound; done).
  set (c := fun d => if d <? DIVIDE_NUMBER_AND_LETTERS then d + 48 else d - DIVIDE_NUMBER_AND_LETTERS + 65).
  assert (forall i, (c (InterceptTypeId id i) =? 0) = false) as Hc.
  { intros i. specialize (Hd i). unfold c, DIVIDE_NUMBER_AND_LETTERS. case_if; bool_lia. }
  pose proof (Hc 0) as H0. pose proof (Hc 1) as H1. pose proof (Hc 2) as H2. unfold c in *.
  destruct (InterceptTypeId id 2 =? 0), (InterceptTypeId id 1 =? 0), (InterceptTypeId id 0 =? 0);
    cbn -[InterceptTypeId Z.eqb Z.ltb]; by rewrite ?H0, ?H1, ?H2.
Qed.

(** The name of a type does not depend on what the static buffer held. *)
Lemma type_name_spec buf id : length buf = 4%nat ->
  exists p t, LnnConvertIdToDeviceType buf id = (p, t) /\ type_text t <$> p = type_name id /\ length t = 4%nat.
Proof.
  intros Hb. unfold type_name, LnnConvertIdToDeviceType. destruct (list_find _ _) as [[k e]|]; [by eexists _, _|].
  case_if; eexists _, _; (split; [done|]); (split; [|by rewrite ?hex_string_length]); [|done].
  cbn [fmap option_fmap option_map type_text]. f_equal. by apply hex_string_fresh.
Qed.

(** A getter of the value [f] of a node, into a text buffer. *)
Definition gives_text (g : Getter) (f : NodeInfo -> option (list Z)) : Prop := forall L A mem id d len, rel L A -> room A 0 ->
  wps (g mem (Some id) (Some (BStr d)) len) (fun r L' => rel L' A /\
    exists u, finds A mem id CATEGORY_NETWORK_ID u /\
      match (u ← u; n ← nodes A !! u; f n) with
      | Some v => r = ((copied d len v).1, Some (BStr (copied d len v).2))
      | None => r = (SOFTBUS_ERR, Some (BStr d))
      end) L.

Lemma wps_give_text len d v L Q : Q ((copied d len v).1, BStr (copied d len v).2) L -> wps (give_text len (Some v) (BStr d)) Q L.
Proof. unfold copied, give_text. destruct (strncpy_s d len v). by destruct b. Qed.

Lemma gives_text_valid (k : Z -> NodeInfo -> Buf -> SF Ledger (Z * Buf)) f :
  (forall L A len n d, rel L A -> typed_node n -> wps (k len n (BStr d)) (fun r L' => rel L' A /\
     match f n with
     | Some v => r = ((copied d len v).1, BStr (copied d len v).2)
     | None => r = (SOFTBUS_ERR, BStr d)
     end) L) ->
  gives_text (fun mem id buf len => RETURN_IF_GET_NODE_VALID sc mem id buf (k len)) f.
Proof.
  intros Hk L A mem id d len HR Hroom. unfold RETURN_IF_GET_NODE_VALID. apply wps_bind.
  eapply wps_find; [done|done|]. intros r Hr. destruct r as [u|]; cbn [fmap option_fmap option_map].
  - destruct (finds_some L A _ _ _ _ Hr) as [n Hn]. apply wps_bind. eapply wps_load; [done|done|]. apply wps_bind.
    eapply wps_mono; [by apply (Hk L A len n d HR), (typed_at L A u n HR)|]. intros [r b] L' [HR' Hb]. apply wps_ret.
    split; [done|]. exists (Some u). split; [done|]. cbn [mbind option_bind]. rewrite Hn. cbn [mbind option_bind].
    by destruct (f n); simplify_eq.
  - apply wps_ret. split; [done|]. by exists None.
Qed.

Lemma gives_text_field (f : NodeInfo -> list Z) :
  gives_text (fun mem id buf len => RETURN_IF_GET_NODE_VALID sc mem id buf (fun i => give_text len (Some (f i)))) (fun n => Some (f n)).
Proof. apply (gives_text_valid (fun len i => give_text len (Some (f i)))). intros L A len n d HR Hn. by apply wps_give_text. Qed.

Lemma gives_text_type : gives_text (DlGetDeviceType sc) (fun n => type_name (deviceTypeId (deviceInfo n))).
Proof.
  unfold DlGetDeviceType. apply (gives_text_valid (fun len i b => _)). intros L A len n d HR Hn. apply wps_bind, wps_gets.
  destruct (type_name_spec (g_stringTypeId L) (deviceTypeId (deviceInfo n)) (lr_buf sc L A HR)) as (p & t & -> & <- & Ht).
  apply wps_bind, wps_modify.
  assert (rel (L <| g_stringTypeId := t |>) A) as HR' by (destruct HR; by split).
  destruct p as [p|]; cbn [fmap option_fmap option_map]; [by apply wps_give_text|]. by apply wps_ret.
Qed.

Lemma gives_text_master : gives_text (DlGetMasterUdid sc) (fun n => if online n then Some (masterUdid n) else None).
Proof.
  unfold DlGetMasterUdid. apply (gives_text_valid (fun len i b => _)). intros L A len n d HR Hn. cbn [LnnIsNodeOnline].
  fold (online n). destruct (online n); cbn [negb]; [by apply wps_give_text|by apply wps_ret].
Qed.

Lemma str_getter k : 0 <= k < STRING_KEY_END ->
  match find_getter sc k with
  | Some g => gives_text g (fun n => v ← str_field k n; v)
  | None => forall n, str_field k n = None
  end.
Proof.
  intros Hk. unfold STRING_KEY_END in Hk.
  assert (k = 0 \/ k = 1 \/ k = 2 \/ k = 3 \/ k = 4 \/ k = 5 \/ k = 6 \/ k = 7 \/ k = 8 \/ k = 9) as Hk' by lia.
  destruct_or!; subst k; cbn [find_getter]; try done.
  - apply (gives_text_field softBusVersion).
  - apply (gives_text_field udid_of).
  - apply (gives_text_field uuid).
  - apply gives_text_type.
  - apply (gives_text_field (fun n => deviceName (deviceInfo n))).
  - apply (gives_text_field (fun n => macAddr (connectInfo n))).
  - apply (gives_text_field (fun n => deviceIp (connectInfo n))).
  - apply gives_text_master.
Qed.

Lemma finds_exists A mem s type : exists u, finds A mem s type u.
Proof.
  unfold finds. case_if; [by exists None|].
  destruct (decide (map_Exists (fun u n => matches type s u n) (nodes A))) as [(u & n & Hu & Hm)%map_Exists_lookup|Hn].
  - exists (Some u). eauto.
  - exists None. intros u n Hu Hm. apply Hn, map_Exists_lookup. eauto.
Qed.

Lemma meets_str L A env id k d len : rel L A -> room A 1 -> op_ok (OStr env id k d len) -> meets L A (OStr env id k d len).
Proof.
  intros HR Hroom Hk. unfold meets. cbn [run_op]. apply wps_bind. unfold LnnGetDLStrInfo. cbn [spec_op op_ok] in *.
  destruct id as [id|]; [|by do 2 apply wps_ret; exists A]. destruct d as [d|]; [|by do 2 apply wps_ret; exists A].
  destruct (k >=? STRING_KEY_END) eqn:Ek; [by do 2 apply wps_ret; exists A|].
  destruct (e_lock env); cbn [negb]; [|by do 2 apply wps_ret; exists A].
  pose proof (str_getter k ltac:(unfold STRING_KEY_END in *; lia)) as Hg. destruct (find_getter sc k) as [g|].
  - eapply wps_mono; [by apply Hg; [|eapply room_le, Hroom; lia]|]. intros [r b] L' (HR' & u & Hu & E). apply wps_ret.
    exists A. split; [|done]. split; [done|]. exists u. split; [done|]. by destruct (u ≫= _); simplify_eq.
  - do 2 apply wps_ret. exists A. split; [|done]. split; [done|].
    destruct (finds_exists A (e_iter env) id CATEGORY_NETWORK_ID) as [u Hu]. exists u. split; [done|].
    destruct u as [u|]; [|done]. cbn [mbind option_bind]. destruct (nodes A !! u) as [n|]; [|done].
    cbn [mbind option_bind]. by rewrite Hg.
Qed.

Definition gives_int (g : Getter) (f : NodeInfo -> Z) : Prop := forall L A mem id z, rel L A -> room A 0 ->
  wps (g mem (Some id) (Some (BInt z)) NUM_BUF_SIZE) (fun r L' => rel L' A /\
    exists u, finds A mem id CATEGORY_NETWORK_ID u /\
      match (u ← u; nodes A !! u) with
      | Some n => r = (SOFTBUS_OK, Some (BInt (i32 (f n))))
      | None => r = (SOFTBUS_ERR, Some (BInt z))
      end) L.

Lemma gives_int_field (f : NodeInfo -> Z) :
  gives_int (fun mem id buf len => if negb (len =? NUM_BUF_SIZE) then sret (SOFTBUS_INVALID_PARAM, buf)
             else RETURN_IF_GET_NODE_VALID sc mem id buf (fun i => give_int (f i))) f.
Proof.
  intros L A mem id z HR Hroom. cbv beta. cbn [negb Z.eqb NUM_BUF_SIZE Pos.eqb]. unfold RETURN_IF_GET_NODE_VALID. apply wps_bind.
  eapply wps_find; [done|done|]. intros r Hr. destruct r as [u|]; cbn [fmap option_fmap option_map].
  - destruct (finds_some L A _ _ _ _ Hr) as [n Hn]. apply wps_bind. eapply wps_load; [done|done|]. apply wps_bind.
    unfold give_int. do 2 apply wps_ret. split; [done|]. exists (Some u). split; [done|]. cbn [mbind option_bind]. by rewrite Hn.
  - apply wps_ret. split; [done|]. by exists None.
Qed.

Lemma num_getter k : NUM_KEY_BEGIN <= k < NUM_KEY_END ->
  match find_getter sc k with
  | Some g => exists f, gives_int g f /\ forall n, num_field k n = Some (f n)
  | None => forall n, num_field k n = None
  end.
Proof.
  intros Hk. unfold NUM_KEY_BEGIN, NUM_KEY_END in Hk.
  assert (k = 100 \/ k = 101 \/ k = 102 \/ k = 103 \/ k = 104 \/ k = 105) as Hk' by lia.
  destruct_or!; subst k; cbn [find_getter]; try done.
  - exists (fun n => sessionPort (connectInfo n)). split; [apply gives_int_field|done].
  - exists (fun n => authPort (connectInfo n)). split; [apply gives_int_field|done].
  - exists (fun n => proxyPort (connectInfo n)). split; [apply gives_int_field|done].
  - exists netCapacity. split; [apply gives_int_field|done].
  - exists masterWeight. split; [apply gives_int_field|done].
Qed.

Lemma meets_num L A env id k z : rel L A -> room A 1 -> meets L A (ONum env id k z).
Proof.
  intros HR Hroom. unfold meets. cbn [run_op]. apply wps_bind. unfold LnnGetDLNumInfo. cbn [spec_op].
  destruct id as [id|]; [|by do 2 apply wps_ret; exists A]. destruct z as [z|]; [|by do 2 apply wps_ret; exists A].
  destruct ((k <? NUM_KEY_BEGIN) || (k >=? NUM_KEY_END)) eqn:Ek; [by do 2 apply wps_ret; exists A|].
  destruct (e_lock env); cbn [negb]; [|by do 2 apply wps_ret; exists A].
  pose proof (num_getter k ltac:(unfold NUM_KEY_BEGIN, NUM_KEY_END in *; lia)) as Hg. destruct (find_getter sc k) as [g|].
  - destruct Hg as (f & Hg & Hf). eapply wps_mono; [by apply Hg; [|eapply room_le, Hroom; lia]|].
    intros [r b] L' (HR' & u & Hu & E). apply wps_ret.
    exists A. split; [|done]. split; [done|]. exists u. split; [done|]. destruct u as [u|]; cbn [mbind option_bind] in *; [|by simplify_eq].
    destruct (nodes A !! u) as [n|]; cbn [mbind option_bind]; rewrite ?Hf; by simplify_eq.
  - do 2 apply wps_ret. exists A. split; [|done]. split; [done|].
    destruct (finds_exists A (e_iter env) id CATEGORY_NETWORK_ID) as [u Hu]. exists u. split; [done|].
    destruct u as [u|]; [|done]. cbn [mbind option_bind]. destruct (nodes A !! u) as [n|]; [|done].
    cbn [mbind option_bind]. by rewrite Hg.
Qed.

(** ** Listings *)

(** The records of the online nodes among those a loop meets. *)
Definition online_of (ns : list MapNode) : list NodeBasicInfo :=
  (fun n => basic_of (node_at (value n))) <$> filter (fun n => online (node_at (value n)) = true) ns.

Lemma online_of_cons n ns : online_of (n :: ns) =
  (if online (node_at (value n)) then [basic_of (node_at (value n))] else []) ++ online_of ns.
Proof. unfold online_of. rewrite filter_cons. case_decide as H; [by rewrite H|]. by destruct (online _). Qed.

Lemma online_of_perm A ns : (fun n => (key n, node_at (value n))) <$> ns ≡ₚ map_to_list (nodes A) -> online_of ns ≡ₚ online_nodes A.
Proof.
  intros Hp. unfold online_nodes. rewrite <- Hp. clear Hp. induction ns as [|n ns IH]; [done|].
  rewrite online_of_cons, fmap_cons, filter_cons. cbn [snd]. case_decide as H; [rewrite H|destruct (online _); [done|]].
  - cbn [app]. by rewrite fmap_cons, IH.
  - done.
Qed.

Lemma count_step n acc : count_online n acc = Some (if online (node_at (value n)) then i32 (acc + 1) else acc, false).
Proof. done. Qed.
Lemma walk_count ns acc : 0 <= acc -> acc + Z.of_nat (length ns) < 2 ^ 31 ->
  walk_list (fun _ => true) count_online ns acc = Some (acc + Z.of_nat (length (online_of ns))).
Proof.
  revert acc. induction ns as [|n ns IH]; intros acc Ha Hl; [cbn; f_equal; lia|].
  rewrite online_of_cons. cbn [walk_list]. rewrite count_step. cbn [mbind option_bind].
  rewrite length_cons in Hl. destruct (online (node_at (value n))).
  - rewrite i32_small by lia. rewrite IH by lia. cbn [app]. rewrite length_cons. f_equal. lia.
  - rewrite IH by lia. done.
Qed.

(** One more record behind the ones already filled in. *)
Lemma fill_online_step n done rest junk : typed_node (node_at (value n)) -> Z.of_nat (length done) + 1 < 2 ^ 31 ->
  online (node_at (value n)) = true ->
  fill_online n (Z.of_nat (length done), done ++ junk :: rest) =
  Some ((Z.of_nat (length (done ++ [basic_of (node_at (value n))])), (done ++ [basic_of (node_at (value n))]) ++ rest), false).
Proof.
  intros Hn Hl Ho. unfold fill_online. cbn [LnnIsNodeOnline]. fold (online (node_at (value n))). rewrite Ho, Nat2Z.id.
  rewrite list_lookup_middle by done. cbn [mbind option_bind]. rewrite ConvertNodeInfoToBasicInfo_typed by done.
  cbn [mbind option_bind snd]. rewrite i32_small by lia. rewrite insert_app_r_alt, Nat.sub_diag by lia.
  rewrite length_app, <- app_assoc. cbn. do 3 f_equal. lia.
Qed.
Lemma fill_offline n st : online (node_at (value n)) = false -> fill_online n st = Some (st, false).
Proof. intros Ho. destruct st as [i arr]. unfold fill_online. cbn [LnnIsNodeOnline]. fold (online (node_at (value n))). by rewrite Ho. Qed.

Lemma walk_fill ns num done junk : Forall (fun n => typed_node (node_at (value n))) ns ->
  num = Z.of_nat (length done + length (online_of ns)) -> num < 2 ^ 31 ->
  exists i, walk_list (fun st => st.1 <? num) fill_online ns
      (Z.of_nat (length done), done ++ replicate (length (online_of ns)) junk) = Some (i, done ++ online_of ns).
Proof.
  revert done. induction ns as [|n ns IH]; intros done Hty Hnum Hb; [cbn; by eexists|].
  rewrite online_of_cons in *. apply Forall_cons in Hty as [Hn Hty]. cbn [walk_list fst].
  destruct (online (node_at (value n))) eqn:Eo; cbn [app length] in *.
  - replace (_ <? num) with true by bool_lia. cbn [replicate]. rewrite fill_online_step by (done || lia). cbn [mbind option_bind].
    destruct (IH (done ++ [basic_of (node_at (value n))]) Hty) as [i Ei]; [rewrite length_app; cbn; lia|done|].
    exists i. rewrite Ei. by rewrite <- app_assoc.
  - destruct (_ <? num) eqn:El.
    + rewrite fill_offline by done. cbn [mbind option_bind]. by apply IH.
    + destruct (online_of ns); [|cbn in *; lia]. by eexists.
Qed.

Lemma post_step n basic out : typed_node (node_at (value n)) ->
  post_online n (basic, out) = Some (if online (node_at (value n))
    then (basic_of (node_at (value n)), out ++ [basic_of (node_at (value n))]) else (basic, out), false).
Proof.
  intros Hn. unfold post_online. cbn [LnnIsNodeOnline]. fold (online (node_at (value n))).
  destruct (online (node_at (value n))); [|done]. by rewrite ConvertNodeInfoToBasicInfo_typed.
Qed.
Lemma walk_post ns basic out : Forall (fun n => typed_node (node_at (value n))) ns ->
  exists b, walk_list (fun _ => true) post_online ns (basic, out) = Some (b, out ++ online_of ns).
Proof.
  revert basic out. induction ns as [|n ns IH]; intros basic out Hty.
  { exists basic. cbn. by rewrite app_nil_r. }
  rewrite online_of_cons. apply Forall_cons in Hty as [Hn Hty]. cbn [walk_list]. rewrite post_step by done. cbn [mbind option_bind].
  destruct (online (node_at (value n))).
  - destruct (IH (basic_of (node_at (value n))) (out ++ [basic_of (node_at (value n))]) Hty) as [b Eb].
    exists b. rewrite Eb. by rewrite <- app_assoc.
  - apply IH, Hty.
Qed.

Lemma walk_typed L A ns : rel L A -> (forall n, n ∈ ns -> nodes A !! key n = Some (node_at (value n))) ->
  Forall (fun n => typed_node (node_at (value n))) ns.
Proof. intros HR Hns. apply Forall_forall. intros n Hn. by apply (typed_at L A (key n)), Hns. Qed.

Lemma meets_post L A mem cb : rel L A -> room A 1 -> meets L A (OPost mem cb).
Proof.
  intros HR Hroom. unfold meets. cbn [run_op]. apply wps_bind. unfold PostOnlineNodesToCb. cbn [spec_op].
  destruct cb; cbn [negb]; [|do 2 apply wps_ret; exists A; rewrite andb_false_r; eauto]. rewrite andb_true_r.
  apply wps_bind. eapply wps_walk; [done|by eapply room_le, Hroom; lia| |].
  - intros ->. do 2 apply wps_ret. exists A. eauto.
  - intros ns -> Hns Hp. destruct (walk_post ns zero_basic [] (walk_typed L A ns HR Hns)) as [b Eb]. eexists. split; [exact Eb|].
    do 2 apply wps_ret. exists A. split; [|done]. split; [done|]. eexists. split; [done|]. by apply online_of_perm.
Qed.

Lemma meets_online L A env junk args : rel L A -> room A 1 -> meets L A (OOnline env junk args).
Proof.
  intros HR Hroom. unfold meets. cbn [run_op]. apply wps_bind. unfold LnnGetDistributedNodeInfo. cbn [spec_op].
  destruct args; cbn [negb]; [|by do 2 apply wps_ret; exists A].
  assert (room A 0) as Hroom0 by (by eapply room_le, Hroom; lia).
  apply wps_bind. unfold GetDLOnlineNodeNumLocked. apply wps_bind. eapply wps_walk; [done|done| |].
  { intros ->. do 3 apply wps_ret. by exists A. }
  intros ns -> Hns Hp. cbn [negb]. assert (length (online_of ns) <= length ns)%nat as Hle.
  { unfold online_of. rewrite length_fmap. apply length_filter. }
  assert (length ns = size (nodes A)) as Hsz by (rewrite <- length_map_to_list, <- Hp; by rewrite length_fmap).
  destruct Hroom0 as [Hsmall ?]. rewrite walk_count, Z.add_0_l by lia. eexists. split; [done|]. apply wps_ret.
  cbn [negb Z.eqb SOFTBUS_OK]. rewrite <- (Permutation_length (online_of_perm A ns Hp)).
  destruct (length (online_of ns)) as [|k] eqn:El; [by do 2 apply wps_ret; exists A|].
  replace (Z.of_nat (S k) =? 0) with false by bool_lia. cbn [Nat.eqb].
  destruct (e_array env); cbn [negb]; [|by do 2 apply wps_ret; exists A].
  apply wps_bind. unfold FillDLOnlineNodeInfoLocked. apply wps_bind. eapply wps_walk; [done|by split| |].
  { intros ->. do 3 apply wps_ret. by exists A. }
  intros ns' -> Hns' Hp'. cbn [negb]. assert (length (online_of ns') = S k) as El'.
  { rewrite <- El. apply Permutation_length. by rewrite !(online_of_perm A). }
  destruct (walk_fill ns' (Z.of_nat (S k)) [] junk (walk_typed L A ns' HR Hns')) as [i Ei];
    [cbn [length]; lia|lia|]. rewrite El' in Ei. rewrite Nat2Z.id. eexists. split; [exact Ei|].
  do 3 apply wps_ret. exists A. split; [|done]. split; [done|]. eexists. split; [done|]. by apply online_of_perm.
Qed.

Lemma IsValidString_text s n : chars s = true -> Z.of_nat (length s) < 2 ^ 32 ->
  Utils.IsValidString (Some (s ++ [0])) n = Some (negb ((length s =? 0)%nat || (Z.of_nat (length s) >=? n))).
Proof.
  intros Hs Hl. unfold Utils.IsValidString. assert (Utils.strlen (s ++ [0]) = Some (length s)) as ->.
  { clear Hl. induction s as [|c s IH]; [done|]. cbn in *. apply andb_true_iff in Hs as [Hc Hs].
    replace (c =? 0) with false by lia. by rewrite (IH Hs). }
  cbn [mbind option_bind]. rewrite u32_small by lia. do 3 f_equal. by destruct s.
Qed.

Lemma meets_netid L A env u buf len : rel L A -> room A 1 -> op_ok (ONetId env u buf len) -> meets L A (ONetId env u buf len).
Proof.
  intros HR Hroom Hok. unfold meets. cbn [run_op]. apply wps_bind. unfold LnnGetNetworkIdByUuid. cbn [spec_op op_ok] in *.
  apply wps_bind. destruct u as [s|]; [destruct Hok as [Hs Hl]|by unfold wps; cbn; exists A].
  eapply wps_lift; [by apply (IsValidString_text s ID_MAX_LEN)|]. rewrite negb_involutive. case_if; [by do 2 apply wps_ret; exists A|].
  destruct (e_lock env); cbn [negb]; [|by do 2 apply wps_ret; exists A].
  apply wps_bind. eapply wps_find; [done|by eapply room_le, Hroom; lia|]. intros r Hr.
  destruct r as [u|]; cbn [fmap option_fmap option_map]; [|do 2 apply wps_ret; exists A; split; [|done]; split; [done|by exists None]].
  destruct (finds_some L A _ _ _ _ Hr) as [n Hn]. apply wps_bind. eapply wps_load; [done|done|].
  assert (exists u, finds A (e_iter env) s CATEGORY_UUID u /\ (u ← u; nodes A !! u) = Some n) as (u' & Hu' & En).
  { exists (Some u). split; [done|]. cbn. done. }
  destruct (strncpy_s buf len (networkId n)) as [ok d] eqn:Ed. do 2 apply wps_ret. exists A. split; [|done]. split; [done|].
  exists u'. split; [done|]. rewrite En. unfold copied. by rewrite Ed.
Qed.

End ops.
End LnnLedgerOps.
