(* ===== verification/LnnLedgerMain.v ===== *)
(** * Theorems of the distributed ledger

    The refinement of the contract by every sequence of operations, the type of
    the stored data, and what the connection state machine reports about the
    nodes of the ledger. *)

From S2P Require Import Prelude StateFault LnnMap LnnNodeInfo LnnLedger LnnLedgerRel LnnLedgerSpec LnnLedgerOps.

Module LnnLedgerMain.
Import LnnMap LnnNodeInfo LnnLedger LnnLedgerRel LnnLedgerSpec LnnLedgerOps.
#[local] Open Scope sf_scope.

(** A history of the contract. *)
Inductive spec_run : ALedger -> list lop -> list lres -> ALedger -> Prop :=
  | spec_nil A : spec_run A [] [] A
  | spec_cons A op r A1 ops rs A2 : spec_op A op r A1 -> spec_run A1 ops rs A2 -> spec_run A (op :: ops) (r :: rs) A2.

(** The ledger from its initialisation on. *)
Definition ledger_run (sc : bool) (ops : list lop) : option (list lres * Ledger) :=
  (LnnInitDistributedLedger true;; run_ops sc ops) g_distributedNetLedger.

Definition empty_ledger : ALedger := mkA ∅ ∅.

Section main.
Context (sc : bool).
Implicit Types (L : Ledger) (A : ALedger).

Lemma op_meets L A op : ledger_rel sc L A -> room A 1 -> op_ok op -> meets sc L A op.
Proof.
  intros HR Hroom Hok. destruct op.
  - by apply meets_add.
  - by apply meets_offline.
  - by apply meets_remove.
  - by apply meets_setname.
  - by apply meets_basic.
  - by apply meets_code.
  - by apply meets_udid.
  - by apply meets_str.
  - by apply meets_num.
  - by apply meets_online.
  - by apply meets_netid.
  - by apply meets_post.
Qed.

(** ** Room *)

(** At most one entry more in each table. *)
Definition grows (A A' : ALedger) : Prop :=
  (size (nodes A') <= S (size (nodes A)))%nat /\ (size (codes A') <= S (size (codes A)))%nat.

Lemma grows_room A A' k : grows A A' -> room A (S k) -> room A' k.
Proof. unfold grows, room. lia. Qed.
Lemma ledger_grows_refl A : grows A A.
Proof. unfold grows. lia. Qed.
Lemma size_insert_le {V} (m : gmap (list Z) V) k v : (size (<[k := v]> m) <= S (size m))%nat.
Proof. rewrite map_size_insert. destruct (m !! k); cbn; lia. Qed.
Lemma size_delete_le {V} (m : gmap (list Z) V) k : (size (delete k m) <= size m)%nat.
Proof. rewrite map_size_delete. destruct (m !! k); cbn; lia. Qed.

Lemma grows_with_code env A i : grows A (with_code env A i).
Proof. unfold grows, with_code. case_if; cbn; [|lia]. pose proof (size_insert_le (codes A)). split; [lia|auto]. Qed.
Lemma grows_without_code env A n : grows A (without_code env A n).
Proof. unfold grows, without_code. case_if; cbn; [|lia]. pose proof (size_delete_le (codes A)). split; [lia|]. by apply le_S. Qed.
Lemma grows_put_node A A1 u n : grows A A1 -> nodes A1 = nodes A -> grows A (put_node A1 u n).
Proof. unfold grows. intros [_ ?] E. cbn. rewrite E. by split; [apply size_insert_le|]. Qed.

Lemma spec_grows A op r A' : spec_op A op r A' -> grows A A'.
Proof.
  assert (forall A', A' = A -> grows A A') as Hrefl by (intros ? ->; apply ledger_grows_refl).
  intros H. destruct op; cbn in H.
  - destruct info as [i|]; [|by apply Hrefl, H]. pose proof (grows_with_code env A i).
    case_if_in H; destruct H as [H1 H2]; subst; [done|]. case_if; [|done].
    apply grows_put_node; [done|apply with_code_nodes].
  - destruct (if e_lock env then _ else _) as [[u n]|]; [|by apply Hrefl, H].
    case_if_in H; destruct H as [-> _]; [apply grows_without_code|].
    apply grows_put_node; [apply grows_without_code|apply without_code_nodes].
  - destruct H as [_ ->]. repeat case_match; try apply ledger_grows_refl. unfold grows. cbn.
    pose proof (size_delete_le (nodes A)). split; [by apply le_S|lia].
  - destruct name as [nm|]; [|by apply Hrefl, H].
    destruct (if e_lock env then _ else _) as [[u n]|]; [|by apply Hrefl, H].
    repeat case_if_in H; destruct H as [-> _]; [apply ledger_grows_refl| |apply ledger_grows_refl].
    apply grows_put_node; [apply ledger_grows_refl|done].
  - by apply Hrefl, H.
  - by apply Hrefl, H.
  - by apply Hrefl, H.
  - by apply Hrefl, H.
  - by apply Hrefl, H.
  - by apply Hrefl, H.
  - by apply Hrefl, H.
  - by apply Hrefl, H.
Qed.

(** ** Histories *)

Lemma run_ops_refines ops L A : ledger_rel sc L A -> room A (length ops) -> Forall op_ok ops ->
  wps (run_ops sc ops) (fun rs L' => exists A', spec_run A ops rs A' /\ ledger_rel sc L' A') L.
Proof.
  revert L A. induction ops as [|op ops IH]; intros L A HR Hroom Hok; cbn [run_ops].
  { apply wps_ret. exists A. split; [constructor|done]. }
  apply Forall_cons in Hok as [Hop Hok]. apply wps_bind.
  eapply wps_mono; [apply (op_meets L A op HR)|].
  { by eapply room_le, Hroom; cbn; lia. }
  { done. }
  intros r L1 (A1 & Hs & HR1). apply wps_bind.
  eapply wps_mono; [apply (IH L1 A1 HR1); [by eapply grows_room, Hroom; eapply spec_grows|done]|].
  intros rs L2 (A2 & Hr & HR2). apply wps_ret. exists A2. split; [by econstructor|done].
Qed.

Lemma wps_init L (Q : Z -> Ledger -> Prop) : dl_status L <> DL_INIT_SUCCESS -> length (g_stringTypeId L) = 4%nat ->
  (forall L', ledger_rel sc L' empty_ledger -> dl_status L' = DL_INIT_SUCCESS -> Q SOFTBUS_OK L') ->
  wps (LnnInitDistributedLedger true) Q L.
Proof.
  intros Hst Hb HQ. unfold LnnInitDistributedLedger, InitDistributedInfo, InitConnectionCode, set_status.
  apply wps_bind, wps_gets. case_if; [lia|]. unfold wps. cbn. apply HQ; [|done].
  split; cbn; rewrite ?fmap_empty; try (apply LnnMapInit_rel); done.
Qed.

Lemma ledger_run_refines ops : Forall op_ok ops -> Z.of_nat (length ops) < 2 ^ 30 ->
  exists rs L A, ledger_run sc ops = Some (rs, L) /\ spec_run empty_ledger ops rs A /\ ledger_rel sc L A.
Proof.
  intros Hok Hl. assert (wps (LnnInitDistributedLedger true;; run_ops sc ops)
    (fun rs L' => exists A', spec_run empty_ledger ops rs A' /\ ledger_rel sc L' A') g_distributedNetLedger) as H.
  { apply wps_bind, wps_init; [done|done|]. intros L HR _. by apply run_ops_refines. }
  apply wps_run in H as (rs & L & E & A & Hs & HR). by exists rs, L, A.
Qed.

(** C5: the distributed ledger refines its contract.  From its initialisation on,
    every sequence of (fewer than 2^30) calls of the ledger's interface, with any
    failures of the mutex and of the allocations other than of bucket arrays,
    runs without a fault: no use of a freed or absent entry, no access outside an
    array, no walk that does not end.  The results are those of the contract on
    finite maps, error codes included, and the tables go on representing them. *)
Theorem ledger_refines ops : Forall op_ok ops -> Z.of_nat (length ops) < 2 ^ 30 ->
  exists rs L A, ledger_run sc ops = Some (rs, L) /\ spec_run empty_ledger ops rs A /\ ledger_rel sc L A.
Proof. apply ledger_run_refines. Qed.


(** ** What the connection state machine reports *)

(** The device ids of the online nodes. *)
Definition online_ids (A : ALedger) : gset (list Z) := dom (filter (fun p => online p.2 = true) (nodes A)).

Lemma online_ids_spec A u : u ∈ online_ids A <-> exists n, nodes A !! u = Some n /\ online n = true.
Proof.
  unfold online_ids. rewrite elem_of_dom. split.
  - intros [n Hn]. apply map_lookup_filter_Some in Hn. eauto.
  - intros (n & Hn & Ho). exists n. by apply map_lookup_filter_Some.
Qed.

(** A step of the system: a device joins, a device leaves, or another call of the
    ledger's interface that neither adds nor removes a node. *)
Inductive hop :=
  | HJoin (env env' : Env) (i : NodeInfo)
  | HLeave (mem : bool) (env env' : Env) (networkId : option (list Z)) (authId : Z) (passive : bool)
  | HOther (op : lop).

(** The notices of a step, with the device each is about. *)
Definition run_hop (h : hop) : SF Ledger (list (list Z * Notice)) :=
  match h with
  | HJoin env env' i => join_told sc env env' i
  | HLeave mem env env' id a passive => leave_told sc mem env env' id a passive
  | HOther op => let* r := run_op sc op in sret []
  end.

Fixpoint run_hops (hs : list hop) : SF Ledger (list (list Z * Notice)) :=
  match hs with
  | [] => sret []
  | h :: hs => let* ns := run_hop h in let* ms := run_hops hs in sret (ns ++ ms)
  end.

Definition quiet (op : lop) : bool :=
  match op with OAdd _ _ | OOffline _ _ _ | ORemove _ _ => false | _ => true end.
Definition hop_ok (h : hop) : Prop :=
  match h with
  | HJoin env env' i => e_lock env = true /\ e_lock env' = true /\ op_ok (OAdd env (Some i))
  | HLeave _ env env' _ _ _ => e_lock env = true /\ e_lock env' = true
  | HOther op => op_ok op /\ quiet op = true
  end.

(** What a listener that hears the notices believes to be online. *)
Definition hear (S : gset (list Z)) (x : list Z * Notice) : gset (list Z) :=
  match x.2 with
  | NodeOnline _ => S ∪ {[x.1]}
  | NodeOffline _ => S ∖ {[x.1]}
  | NetworkIdChanged _ => S
  end.
Definition heard (S : gset (list Z)) (xs : list (list Z * Notice)) : gset (list Z) := foldl hear S xs.

Lemma wps_bind_inv {B C} (m : SF Ledger B) (k : B -> SF Ledger C) Q L :
  wps (sbind m k) Q L -> wps m (fun b L' => wps (k b) Q L') L.
Proof. unfold wps, sbind. by destruct (m L) as [[b L']|]. Qed.

Lemma wps_add L A env i Q : ledger_rel sc L A -> room A 1 -> op_ok (OAdd env (Some i)) -> e_lock env = true ->
  (forall L' A', ledger_rel sc L' A' -> grows A A' ->
     nodes A' = (if stores (e_node env) A (udid_of i) then <[udid_of i := added (nodes A !! udid_of i) i]> (nodes A) else nodes A) ->
     Q (add_report (nodes A !! udid_of i) i, Some (added (nodes A !! udid_of i) i)) L') ->
  wps (LnnAddOnlineNode sc env (Some i)) Q L.
Proof.
  intros HR Hroom Hok Hl HQ. pose proof (meets_add sc L A env (Some i) HR Hroom Hok) as H.
  apply wps_bind_inv in H. eapply wps_mono; [exact H|]. intros [r i'] L' H'. cbv beta iota in H'.
  destruct H' as (A' & Hs & HR'). pose proof (spec_grows _ _ _ _ Hs) as Hg. cbn [spec_op] in Hs. rewrite Hl in Hs. cbn [negb] in Hs.
  destruct Hs as [[= -> ->] EA]. apply (HQ L' A'); [done|done|]. subst A'. case_if; cbn; by rewrite with_code_nodes.
Qed.

Lemma wps_basic L A env u Q : ledger_rel sc L A -> room A 1 -> e_lock env = true ->
  Q (match nodes A !! u with Some n => (SOFTBUS_OK, Some (basic_of n)) | None => (SOFTBUS_INVALID_PARAM, Some zero_basic) end) L ->
  wps (LnnGetBasicInfoByUdid sc env (Some u) (Some zero_basic)) Q L.
Proof.
  intros HR Hroom Hl HQ. unfold LnnGetBasicInfoByUdid. rewrite Hl. cbn [negb]. apply wps_bind.
  eapply wps_get_ptr; [done|]. cbn [mbind option_bind]. apply wps_bind. eapply wps_load_opt; [done|]. apply wps_ret.
  destruct (nodes A !! u) as [n|] eqn:En; [|done]. rewrite ConvertNodeInfoToBasicInfo_typed; [done|].
  by apply (lr_typed sc L A HR u).
Qed.

Lemma online_ids_insert A A' u n : nodes A' = <[u := n]> (nodes A) ->
  online_ids A' = if online n then online_ids A ∪ {[u]} else online_ids A ∖ {[u]}.
Proof.
  intros E. apply set_eq. intros v. rewrite online_ids_spec, E. setoid_rewrite lookup_insert_Some.
  destruct (online n) eqn:Eo; rewrite ?elem_of_union, ?elem_of_difference, elem_of_singleton, online_ids_spec.
  - destruct (decide (u = v)) as [->|]; naive_solver.
  - split.
    + intros (x & [[<- ->]|[Hne Hx]] & Ho'); [congruence|]. split; [eauto|congruence].
    + intros [(x & Hx & Ho') Hne]. exists x. split; [right; split; [congruence|done]|done].
Qed.
Lemma online_ids_same A A' : nodes A' = nodes A -> online_ids A' = online_ids A.
Proof. intros E. unfold online_ids. by rewrite E. Qed.

Lemma heard_join A A' i : online (added (nodes A !! udid_of i) i) = true ->
  nodes A' = <[udid_of i := added (nodes A !! udid_of i) i]> (nodes A) ->
  forall b, heard (online_ids A) (pair (udid_of i) <$> match add_report (nodes A !! udid_of i) i with
    | REPORT_CHANGE => [NetworkIdChanged b] | REPORT_ONLINE => [NodeOnline b] | _ => [] end) = online_ids A'.
Proof.
  intros Ho E b. rewrite (online_ids_insert A A' _ _ E), Ho.
  assert (was_online (nodes A !! udid_of i) = true -> online_ids A = online_ids A ∪ {[udid_of i]}) as Hin.
  { intros Hw. assert (udid_of i ∈ online_ids A); [|set_solver]. apply online_ids_spec.
    destruct (nodes A !! udid_of i) as [o|]; [|done]. eauto. }
  unfold add_report in *. destruct (nodes A !! udid_of i) as [o|]; [|done]. cbn in Hin.
  destruct (online o); [|done]. cbn [negb]. case_bool_decide; cbn; auto.
Qed.

Definition shrinks (A A' : ALedger) : Prop :=
  (size (nodes A') <= size (nodes A))%nat /\ (size (codes A') <= size (codes A))%nat.

Lemma shrinks_grows A A' : shrinks A A' -> grows A A'.
Proof. unfold shrinks, grows. lia. Qed.

Lemma shrinks_without_code env A n : shrinks A (without_code env A n).
Proof. unfold shrinks, without_code. case_if; cbn; [|lia]. split; [lia|apply size_delete_le]. Qed.
Lemma size_update (m : gmap (list Z) NodeInfo) u n n' : m !! u = Some n -> size (<[u := n']> m) = size m.
Proof. intros E. rewrite map_size_insert. by rewrite E. Qed.

Lemma wps_offline L A env u a (n : NodeInfo) Q : ledger_rel sc L A -> room A 1 -> e_lock env = true -> nodes A !! u = Some n ->
  (forall L' A' r, ledger_rel sc L' A' -> shrinks A A' ->
     (r = REPORT_NONE /\ nodes A' = nodes A) \/
     (r = REPORT_OFFLINE /\ nodes A' = <[u := n <| status := STATUS_OFFLINE |>]> (nodes A)) -> Q r L') ->
  wps (LnnSetNodeOffline sc env (Some u) a) Q L.
Proof.
  intros HR Hroom Hl Hn HQ. pose proof (meets_offline sc L A env (Some u) a HR Hroom) as H.
  apply wps_bind_inv in H. eapply wps_mono; [exact H|]. intros r L' H'. cbv beta in H'. destruct H' as (A' & Hs & HR').
  pose proof (shrinks_without_code env A n) as Hsh.
  cbn [spec_op] in Hs. rewrite Hl in Hs. cbn [mbind option_bind] in Hs. rewrite Hn in Hs. cbn [mbind option_bind] in Hs.
  apply (HQ L' A' r HR'); case_if_in Hs; destruct Hs as [-> [= ->]]; try done.
  - unfold shrinks. cbn. rewrite (size_update _ u n); rewrite without_code_nodes; [|done]. split; [lia|apply Hsh].
  - left. split; [done|apply without_code_nodes].
  - right. split; [done|]. cbn. by rewrite without_code_nodes.
Qed.

Lemma wps_remove L A env u Q : ledger_rel sc L A -> room A 1 -> e_lock env = true ->
  (forall L', ledger_rel sc L' (A <| nodes := delete u (nodes A) |>) -> Q tt L') -> wps (LnnRemoveNode sc env (Some u)) Q L.
Proof.
  intros HR Hroom Hl HQ. unfold LnnRemoveNode. rewrite Hl. cbn [negb].
  destruct (udid_erase sc L A u) as (r & t & E & HR'); [done|by eapply room_le, Hroom; lia|].
  unfold wps. rewrite E. cbn. auto.
Qed.

Lemma online_ids_delete A A' u : nodes A' = delete u (nodes A) -> online_ids A' = online_ids A ∖ {[u]}.
Proof.
  intros E. apply set_eq. intros v. rewrite online_ids_spec, E, elem_of_difference, elem_of_singleton, online_ids_spec.
  setoid_rewrite lookup_delete_Some. split.
  - intros (x & [Hne Hx] & Ho). split; [eauto|congruence].
  - intros [(x & Hx & Ho) Hne]. exists x. split_and!; [congruence|done|done].
Qed.

(** A new record with the same status. *)
Lemma online_ids_update A A' u n n' : nodes A !! u = Some n -> nodes A' = <[u := n']> (nodes A) -> online n' = online n ->
  online_ids A' = online_ids A.
Proof.
  intros Hn E Eo. rewrite (online_ids_insert A A' u n' E), Eo.
  apply set_eq. intros v. destruct (online n) eqn:Eon.
  - rewrite elem_of_union, elem_of_singleton. split; [|by left]. intros [H| ->]; [done|]. apply online_ids_spec. eauto.
  - rewrite elem_of_difference, elem_of_singleton. split; [by intros []|]. intros H. split; [done|]. intros ->.
    apply online_ids_spec in H as (x & Hx & Ho). congruence.
Qed.

(** What a step does to the ledger and what is heard of it. *)
Definition tracks (A : ALedger) (xs : list (list Z * Notice)) (L' : Ledger) : Prop :=
  exists A', ledger_rel sc L' A' /\ grows A A' /\ heard (online_ids A) xs = online_ids A'.

(** The report after a node was added. *)
Lemma report_tracks L' A A' env' i mem : ledger_rel sc L' A' -> room A' 1 -> e_lock env' = true ->
  nodes A' = (if stores mem A (udid_of i) then <[udid_of i := added (nodes A !! udid_of i) i]> (nodes A) else nodes A) ->
  wps (ReportResult sc env' (LnnGetDeviceUdid (Some (added (nodes A !! udid_of i) i))) (add_report (nodes A !! udid_of i) i))
    (fun ns L2 => L2 = L' /\ heard (online_ids A) (pair (udid_of i) <$> ns) = online_ids A') L'.
Proof.
  intros HR' Hroom Hl' EA. unfold ReportResult. apply wps_bind.
  cbn [LnnGetDeviceUdid mbind option_bind]. fold (udid_of (added (nodes A !! udid_of i) i)). rewrite added_udid.
  eapply wps_basic; [done|done|done|]. rewrite EA. unfold stores.
  destruct (mem || bool_decide (is_Some (nodes A !! udid_of i))) eqn:Es; unfold stores in EA; rewrite Es in EA.
  - rewrite lookup_insert_eq. cbn [negb Z.eqb SOFTBUS_OK]. apply wps_ret. split; [done|]. by apply heard_join.
  - apply orb_false_iff in Es as [_ Es]. apply bool_decide_eq_false in Es.
    destruct (nodes A !! udid_of i) as [o|] eqn:Eo; [by destruct Es; eauto|]. cbn [negb Z.eqb SOFTBUS_INVALID_PARAM].
    apply wps_ret. split; [done|]. symmetry. by apply online_ids_same.
Qed.

Lemma join_tracks L A env env' i : ledger_rel sc L A -> room A 2 -> hop_ok (HJoin env env' i) ->
  wps (run_hop (HJoin env env' i)) (tracks A) L.
Proof.
  intros HR Hroom (Hl & Hl' & Hok). cbn [run_hop]. unfold join_told. fold (udid_of i). do 2 apply wps_bind.
  eapply wps_add; [done|by eapply room_le, Hroom; lia|done|done|]. intros L' A' HR' Hg EA.
  eapply wps_mono; [by eapply report_tracks; [done|eapply grows_room|done|]|].
  intros ns L2 [-> E]. apply wps_ret. by exists A'.
Qed.

Lemma find_run L A mem s type : ledger_rel sc L A -> room A 0 ->
  exists r, LnnGetNodeInfoById sc mem (Some s) type L = Some ((fun u => (UDID_MAP, u)) <$> r, L) /\ finds A mem s type r.
Proof.
  intros HR Hroom. assert (wps (LnnGetNodeInfoById sc mem (Some s) type)
    (fun p L' => exists r, p = (fun u => (UDID_MAP, u)) <$> r /\ L' = L /\ finds A mem s type r) L) as H.
  { eapply wps_find; [done|done|]. intros r Hr. eauto. }
  apply wps_run in H as (p & L' & E & r & -> & -> & Hr). eauto.
Qed.

Lemma wps_step_run {B C} (m : SF Ledger B) b (k : B -> SF Ledger C) Q L : m L = Some (b, L) -> wps (k b) Q L -> wps (sbind m k) Q L.
Proof. unfold wps, sbind. by intros ->. Qed.

(** The end of a leave: the node goes offline and perhaps away. *)
Lemma leave_tracks L A mem env env' id a passive : ledger_rel sc L A -> room A 2 -> hop_ok (HLeave mem env env' id a passive) ->
  wps (run_hop (HLeave mem env env' id a passive)) (tracks A) L.
Proof.
  intros HR Hroom [Hl Hl']. cbn [run_hop]. unfold leave_told, leave_ledger, UpdateLeaveToLedger.
  destruct id as [s|]; [|by unfold wps; cbn; exists A; split_and!; [done|apply ledger_grows_refl|]].
  destruct (find_run L A mem s CATEGORY_NETWORK_ID HR) as (r & E & Hr); [by eapply room_le, Hroom; lia|].
  eapply wps_step_run; [exact E|]. do 2 apply wps_bind. eapply wps_step_run; [exact E|].
  destruct r as [u|]; cbn [fmap option_fmap option_map]; [|do 3 apply wps_ret; exists A; split_and!; [done|apply ledger_grows_refl|done]].
  destruct (finds_some L A _ _ _ _ Hr) as [n Hn]. destruct (typed_at sc L A u n HR Hn) as [_ Hu].
  apply wps_bind. eapply wps_load; [done|done|]. cbn [LnnGetDeviceUdid mbind option_bind]. fold (udid_of n). rewrite Hu.
  apply wps_bind. eapply wps_offline; [done|by eapply room_le, Hroom; lia|done|done|].
  intros L1 A1 rep HR1 Hsh [[-> EA]|[-> EA]].
  { do 3 apply wps_ret. exists A1. split_and!; [done|by apply shrinks_grows|]. symmetry. by apply online_ids_same. }
  pose proof (grows_room A A1 1 (shrinks_grows _ _ Hsh) Hroom) as Hroom1.
  apply wps_bind. eapply wps_basic; [done|done|done|]. rewrite EA, lookup_insert_eq. apply wps_bind.
  pose proof (online_ids_insert A A1 u _ EA) as Eon. cbn [online status] in Eon. destruct passive.
  - eapply wps_remove; [done|done|done|]. intros L2 HR2. do 3 apply wps_ret. eexists. split; [exact HR2|]. split.
    + apply shrinks_grows. destruct Hsh as [H1 H2]. unfold shrinks. cbn. pose proof (size_delete_le (nodes A1) u). lia.
    + transitivity (online_ids A1 ∖ {[u]}); [rewrite Eon; cbn; set_solver|]. symmetry. by apply online_ids_delete.
  - do 4 apply wps_ret. exists A1. split_and!; [done|by apply shrinks_grows|]. by rewrite Eon.
Qed.

Lemma other_tracks L A op : ledger_rel sc L A -> room A 2 -> hop_ok (HOther op) -> wps (run_hop (HOther op)) (tracks A) L.
Proof.
  intros HR Hroom [Hok Hq]. cbn [run_hop]. apply wps_bind.
  eapply wps_mono; [apply (op_meets L A op HR); [by eapply room_le, Hroom; lia|done]|].
  intros r L' (A' & Hs & HR'). apply wps_ret. exists A'. split_and!; [done|by eapply spec_grows|]. cbn. symmetry.
  assert (A' = A -> online_ids A' = online_ids A) as Hsame by (by intros ->).
  destruct op; try done; cbn in Hs; try (by apply Hsame, Hs). destruct name as [nm|]; [|by apply Hsame, Hs].
  destruct (if e_lock env then _ else _) as [[u n]|] eqn:Eu; [|by apply Hsame, Hs].
  repeat case_if_in Hs; destruct Hs as [-> _]; try done.
  destruct (e_lock env); [|done]. destruct udid as [u'|]; [|done]. cbn in Eu.
  destruct (nodes A !! u') as [n'|] eqn:En; [|done]. cbn in Eu. injection Eu as -> ->.
  by eapply online_ids_update.
Qed.

Lemma hop_tracks L A h : ledger_rel sc L A -> room A 2 -> hop_ok h -> wps (run_hop h) (tracks A) L.
Proof. destruct h; [apply join_tracks|apply leave_tracks|apply other_tracks]. Qed.

Lemma hops_track hs L A : ledger_rel sc L A -> room A (S (length hs)) -> Forall hop_ok hs ->
  wps (run_hops hs) (fun xs L' => exists A', ledger_rel sc L' A' /\ room A' 1 /\ heard (online_ids A) xs = online_ids A') L.
Proof.
  revert L A. induction hs as [|h hs IH]; intros L A HR Hroom Hok; cbn [run_hops].
  { apply wps_ret. by exists A. }
  apply Forall_cons in Hok as [Hh Hok]. rewrite length_cons in Hroom. apply wps_bind.
  eapply wps_mono; [apply (hop_tracks L A h HR); [by eapply room_le, Hroom; lia|done]|].
  intros xs L1 (A1 & HR1 & Hg & Ex). apply wps_bind.
  eapply wps_mono; [apply (IH L1 A1 HR1); [by eapply grows_room|done]|].
  intros ys L2 (A2 & HR2 & Hr2 & Ey). apply wps_ret. exists A2. split_and!; [done|done|].
  unfold heard in *. by rewrite foldl_app, Ex, Ey.
Qed.

Lemma length_online_nodes A : length (online_nodes A) = size (online_ids A).
Proof.
  unfold online_nodes, online_ids. rewrite length_fmap, size_dom, <- length_map_to_list.
  apply Permutation_length. symmetry. apply NoDup_Permutation.
  - apply NoDup_map_to_list.
  - apply NoDup_filter, NoDup_map_to_list.
  - intros [u n]. rewrite list_elem_of_filter, !elem_of_map_to_list, map_lookup_filter_Some. naive_solver.
Qed.

(** The listing of a ledger when nothing fails. *)
Lemma listing L A junk : ledger_rel sc L A -> room A 1 ->
  exists arr L', LnnGetDistributedNodeInfo (mkEnv true true true true true true true true true) junk true L =
      Some (SOFTBUS_OK, arr, Some (Z.of_nat (length (online_nodes A))), L') /\
    match arr with Owned l => l ≡ₚ online_nodes A | Null => online_nodes A = [] | _ => False end.
Proof.
  intros HR Hroom. pose proof (meets_online sc L A (mkEnv true true true true true true true true true) junk true HR Hroom) as H.
  apply wps_bind_inv, wps_run in H as ([[r arr] num] & L' & E & H'). destruct H' as (A' & (_ & H') & _). cbn in H'.
  exists arr, L'. rewrite E. destruct (Nat.eqb_spec (length (online_nodes A)) 0) as [E0|E0].
  - injection H' as -> -> ->. rewrite E0. split; [done|]. by apply nil_length_inv.
  - destruct H' as (l & [= -> -> ->] & Hl). done.
Qed.

(** C8: who is online is announced.  Let devices join and leave in any order (with
    the removal of a node on a passive leave, repeated joins over several media,
    allocation failures), between any other calls of the ledger that do not add or
    remove nodes.  A listener that takes a device for online from its online notice
    to its offline notice believes exactly the devices that the ledger holds as
    online, and the list that [LnnGetDistributedNodeInfo] returns has one record
    for each of them, with the node's own data. *)
Theorem online_notified hs junk : Forall hop_ok hs -> Z.of_nat (length hs) < 2 ^ 30 - 1 ->
  exists xs L A arr L', (LnnInitDistributedLedger true;; run_hops hs) g_distributedNetLedger = Some (xs, L) /\
    ledger_rel sc L A /\ heard ∅ xs = online_ids A /\
    LnnGetDistributedNodeInfo (mkEnv true true true true true true true true true) junk true L =
      Some (SOFTBUS_OK, arr, Some (Z.of_nat (size (heard ∅ xs))), L') /\
    match arr with Owned l => l ≡ₚ online_nodes A | Null => heard ∅ xs = ∅ | _ => False end.
Proof.
  intros Hok Hl. assert (wps (LnnInitDistributedLedger true;; run_hops hs)
    (fun xs L' => exists A', ledger_rel sc L' A' /\ room A' 1 /\ heard (online_ids empty_ledger) xs = online_ids A')
    g_distributedNetLedger) as H.
  { apply wps_bind, wps_init; [done|done|]. intros L HR _. apply hops_track; [done| |done]. split; cbn; rewrite map_size_empty; lia. }
  apply wps_run in H as (xs & L & E & A & HR & Hroom & Ex). change (online_ids empty_ledger) with (∅ : gset (list Z)) in Ex.
  destruct (listing L A junk HR Hroom) as (arr & L' & El & Hl'). exists xs, L, A, arr, L'.
  rewrite Ex, <- length_online_nodes. split_and!; try done. destruct arr; try done.
  apply leibniz_equiv, (size_empty_inv (C := gset (list Z))). by rewrite <- length_online_nodes, Hl'.
Qed.

End main.

(** ** Witnesses and consequences *)

Definition env1 : Env := mkEnv true true true true true true true true true.

(** A phone found over WiFi, or over BR with a code. *)
Definition phone (disc seq : Z) : NodeInfo :=
  mkNodeInfo [] [] (text "uu") (text "net") [] [] (text "master") 3 0 0 4 disc
    (mkDevice (text "phone") (text "ud") TYPE_PHONE_ID) (mkConnect [] (if disc =? 2 then text "10.0.0.1" else []) [] 1 2 3) seq 7.

Definition ops1 : list lop :=
  [ OAdd env1 (Some (phone 2 0)); OAdd env1 (Some (phone 8 70000)); OCode env1 (Some (text "uu")) DISCOVERY_TYPE_BR;
    OStr env1 (Some (text "net")) STRING_KEY_WLAN_IP (Some []) 46; ONum env1 (Some (text "net")) NUM_KEY_PROXY_PORT (Some 0);
    OSetName env1 (Some (text "ud")) (Some (text "new")); OOnline env1 zero_basic true; OOffline env1 (Some (text "ud")) 7;
    ORemove env1 (Some (text "ud")); OUdidOf env1 (Some (text "net")) CATEGORY_NETWORK_ID ].

Lemma ops1_ok : Forall op_ok ops1.
Proof. repeat constructor; try done; vm_compute; congruence. Qed.

Lemma ledger_refines_witness :
  exists rs L A, ledger_run true ops1 = Some (rs, L) /\ spec_run empty_ledger ops1 rs A /\ ledger_rel true L A.
Proof. apply (ledger_refines true ops1); [exact ops1_ok|reflexivity]. Defined.


Definition hs1 : list hop :=
  [ HJoin env1 env1 (phone 2 0); HJoin env1 env1 (phone 8 1); HOther (OSetName env1 (Some (text "ud")) (Some (text "new")));
    HLeave true env1 env1 (Some (text "net")) 7 false; HJoin env1 env1 (phone 2 0) ].

Lemma hs1_ok : Forall hop_ok hs1.
Proof. repeat constructor; try done; vm_compute; congruence. Qed.

Lemma online_notified_witness :
  exists xs L A arr L', (LnnInitDistributedLedger true;; run_hops true hs1) g_distributedNetLedger = Some (xs, L) /\
    ledger_rel true L A /\ heard ∅ xs = online_ids A /\
    LnnGetDistributedNodeInfo (mkEnv true true true true true true true true true) zero_basic true L =
      Some (SOFTBUS_OK, arr, Some (Z.of_nat (size (heard ∅ xs))), L') /\
    match arr with Owned l => l ≡ₚ online_nodes A | Null => heard ∅ xs = ∅ | _ => False end.
Proof. apply (online_notified true hs1 zero_basic); [exact hs1_ok|reflexivity]. Defined.

(** The results of the first history: the second join is merged (no report), the
    code is the low half of the sequence number, the address is the one found
    over WiFi. *)
Example ops1_results : fst <$> ledger_run true ops1 =
  Some [ ResReport REPORT_ONLINE (Some ((phone 2 0) <| status := STATUS_ONLINE |>));
         ResReport REPORT_NONE (Some (added (Some ((phone 2 0) <| status := STATUS_ONLINE |>)) (phone 8 70000)));
         ResCode 4464; ResBuf SOFTBUS_OK (Some (BStr (text "10.0.0.1"))); ResBuf SOFTBUS_OK (Some (BInt 2));
         ResBool true; ResOnline SOFTBUS_OK (Owned [mkBasic (text "net") (text "new") TYPE_PHONE_ID]) (Some 1);
         ResReport REPORT_OFFLINE None; ResUnit; ResText None ].
Proof. vm_compute. reflexivity. Qed.

(** ** Behaviours a caller has to know *)

(** An insertion that fails for lack of memory is reported as [REPORT_ONLINE], and so
    is NULL; the node is not in the ledger. *)
Theorem failed_insertion_reported_online :
  (fun r => r.1) <$> ledger_run true
    [ OAdd (mkEnv true true true true false true true true true) (Some (phone 2 0)); OAdd env1 None;
      OUdidOf env1 (Some (text "ud")) CATEGORY_UDID ] =
  Some [ ResReport REPORT_ONLINE (Some ((phone 2 0) <| status := STATUS_ONLINE |>)); ResReport REPORT_ONLINE None; ResText None ].
Proof. vm_compute. reflexivity. Qed.

(** A node that is offline already is reported as going offline again, and its
    second leave notifies the listeners again. *)
Theorem offline_reported_again :
  (fun r => r.1) <$> ledger_run true
    [ OAdd env1 (Some (phone 2 0)); OOffline env1 (Some (text "ud")) 7; OOffline env1 (Some (text "ud")) 7 ] =
  Some [ ResReport REPORT_ONLINE (Some ((phone 2 0) <| status := STATUS_ONLINE |>)); ResReport REPORT_OFFLINE None;
         ResReport REPORT_OFFLINE None ].
Proof. vm_compute. reflexivity. Qed.

(** The end of another connection of a node found over WiFi and BR leaves the node
    online but takes its BR connection code away. *)
Theorem code_lost_while_online :
  (fun r => drop 2 r.1) <$> ledger_run true
    [ OAdd env1 (Some (phone 2 0)); OAdd env1 (Some (phone 8 5)); OCode env1 (Some (text "uu")) DISCOVERY_TYPE_BR;
      OOffline env1 (Some (text "ud")) 99; OCode env1 (Some (text "uu")) DISCOVERY_TYPE_BR; OOnline env1 zero_basic true ] =
  Some [ ResCode 5; ResReport REPORT_NONE None; ResCode INVALID_CONNECTION_CODE_VALUE;
         ResOnline SOFTBUS_OK (Owned [mkBasic (text "net") (text "phone") TYPE_PHONE_ID]) (Some 1) ].
Proof. vm_compute. reflexivity. Qed.

(** When the second iterator cannot be allocated, the caller of
    [LnnGetDistributedNodeInfo] is left with the address of the freed array. *)
Theorem listing_leaves_dangling_pointer :
  (fun r => drop 1 r.1) <$> ledger_run true
    [ OAdd env1 (Some (phone 2 0)); OOnline (mkEnv true true true true true true true false true) zero_basic true ] =
  Some [ ResOnline SOFTBUS_ERR Dangling (Some 1) ].
Proof. vm_compute. reflexivity. Qed.

End LnnLedgerMain.
