(* ===== verification/LnnNet.v ===== *)
(** * The looper, the state machines and the state of the net builder

    The net builder and the machines of its connections run on the thread of the
    default looper: a step of the system is the handling of one message.  [World]
    is what they share: the ledger of nodes, the machines by address (a use of a
    destroyed one is a fault), the list of the net builder, the messages that wait
    in the looper in their order, the timers (delayed messages, which may fire at any
    time), and the calls made of other parts ([out]).  Of the local ledger it keeps
    the elected master, and [localWeight] is the weight of this device once it is drawn.

    The data is that of [lnn_connection_fsm.h], [lnn_net_builder.c] and
    [softbus_common.h]; the operations are the address functions of
    [lnn_connection_addr_utils.c], the posting functions of [lnn_net_builder.c],
    and what the connection machines use of the engine, whose own model is
    [LnnStateMachine]. *)

From S2P Require Import Prelude StateFault LnnNodeInfo LnnLedger.

Module LnnNet.
Import LnnNodeInfo LnnLedger.
#[local] Open Scope sf_scope.

(** ** Addresses (softbus_common.h, lnn_connection_addr_utils.c) *)

Definition CONNECTION_ADDR_WLAN : Z := 0.
Definition CONNECTION_ADDR_BR : Z := 1.
Definition CONNECTION_ADDR_BLE : Z := 2.
Definition CONNECTION_ADDR_ETH : Z := 3.
Definition CONNECTION_ADDR_MIX : Z := 4.
Definition CONNECTION_ADDR_MAX : Z := 5.
Definition BT_MAC_LEN : Z := 18.
Definition IP_LEN : Z := 46.

(** The members of the union all start with a text: the MAC or the IP address. *)
Record ConnectionAddr := mkAddr { a_type : Z; a_text : list Z; a_port : Z }.
#[export] Instance ConnectionAddr_eq_dec : EqDecision ConnectionAddr.
Proof. solve_decision. Defined.

(** [strncmp] of two texts is 0. *)
Definition strncmp_eq (s t : list Z) (n : Z) : bool := bool_decide (take (Z.to_nat n) s = take (Z.to_nat n) t).

Definition LnnIsSameConnectionAddr (addr1 addr2 : ConnectionAddr) : bool :=
  if negb (a_type addr1 =? a_type addr2) then false
  else if a_type addr1 =? CONNECTION_ADDR_BR then strncmp_eq (a_text addr1) (a_text addr2) BT_MAC_LEN
  else if a_type addr1 =? CONNECTION_ADDR_BLE then strncmp_eq (a_text addr1) (a_text addr2) BT_MAC_LEN
  else if (a_type addr1 =? CONNECTION_ADDR_WLAN) || (a_type addr1 =? CONNECTION_ADDR_ETH) then
    strncmp_eq (a_text addr1) (a_text addr2) (Z.of_nat (length (a_text addr1))) && (a_port addr1 =? a_port addr2)
  else false.

Inductive ConnectType := CONNECT_TCP | CONNECT_BR | CONNECT_BLE.
Record ConnectOption := mkOption { o_type : ConnectType; o_text : list Z; o_port : Z }.

(** The text before the copy does not matter; [None] when the source returns false. *)
Definition LnnConvertAddrToOption (addr : ConnectionAddr) : option ConnectOption :=
  if a_type addr =? CONNECTION_ADDR_BR then
    let '(ok, s) := strncpy_s [] BT_MAC_LEN (a_text addr) in if ok : bool then Some (mkOption CONNECT_BR s 0) else None
  else if a_type addr =? CONNECTION_ADDR_BLE then
    let '(ok, s) := strncpy_s [] BT_MAC_LEN (a_text addr) in if ok : bool then Some (mkOption CONNECT_BLE s 0) else None
  else if (a_type addr =? CONNECTION_ADDR_ETH) || (a_type addr =? CONNECTION_ADDR_WLAN) then
    let '(ok, s) := strncpy_s [] IP_LEN (a_text addr) in if ok : bool then Some (mkOption CONNECT_TCP s (a_port addr)) else None
  else None.

Definition LnnConvertOptionToAddr (o : ConnectOption) (hintType : Z) : option ConnectionAddr :=
  match o_type o with
  | CONNECT_BR => let '(ok, s) := strncpy_s [] BT_MAC_LEN (o_text o) in if ok : bool then Some (mkAddr CONNECTION_ADDR_BR s 0) else None
  | CONNECT_BLE => let '(ok, s) := strncpy_s [] BT_MAC_LEN (o_text o) in if ok : bool then Some (mkAddr CONNECTION_ADDR_BLE s 0) else None
  | CONNECT_TCP => let '(ok, s) := strncpy_s [] IP_LEN (o_text o) in if ok : bool then Some (mkAddr hintType s (u16 (o_port o))) else None
  end.

(** ** Connections (lnn_connection_fsm.h) *)

Definition LNN_CONN_INFO_FLAG_JOIN_REQUEST : Z := 0x01.
Definition LNN_CONN_INFO_FLAG_JOIN_AUTO : Z := 0x02.
Definition LNN_CONN_INFO_FLAG_JOIN_PASSIVE : Z := 0x04.
Definition LNN_CONN_INFO_FLAG_LEAVE_REQUEST : Z := 0x08.
Definition LNN_CONN_INFO_FLAG_LEAVE_AUTO : Z := 0x10.
Definition LNN_CONN_INFO_FLAG_LEAVE_PASSIVE : Z := 0x20.
Definition LNN_CONN_INFO_FLAG_INITIATE_ONLINE : Z := 0x40.
Definition LNN_CONN_INFO_FLAG_ONLINE : Z := 0x80.
Definition LNN_CONN_INFO_FLAG_JOIN_ACTIVE : Z := Z.lor LNN_CONN_INFO_FLAG_JOIN_REQUEST LNN_CONN_INFO_FLAG_JOIN_AUTO.
Definition LNN_CONN_INFO_FLAG_LEAVE_ACTIVE : Z := Z.lor LNN_CONN_INFO_FLAG_LEAVE_REQUEST LNN_CONN_INFO_FLAG_LEAVE_AUTO.

Record LnnInvalidCleanInfo := mkClean { addrType : Z; clean_networkId : list Z }.

(** The states of [g_states], in the order of their indices. *)
Inductive ConnState :=
  STATE_AUTH | STATE_SYNC_DEVICE_INFO | STATE_CLEAN_INVALID_CONN | STATE_ONLINE | STATE_LEAVING.
#[export] Instance ConnState_eq_dec : EqDecision ConnState.
Proof. solve_decision. Defined.

(** [curState] and [running] are those of the machine inside; [stopCallback] tells
    whether the callback is set. *)
Record LnnConnectionFsm := mkConn {
  id : Z; curState : option ConnState; running : bool; addr : ConnectionAddr; nodeInfo : option NodeInfo;
  peerNetworkId : list Z; cleanInfo : option LnnInvalidCleanInfo; authId : Z; peerVersion : Z; flag : Z;
  stopCallback : bool; isDead : bool }.
#[export] Instance LnnConnectionFsm_fields : Fields LnnConnectionFsm :=
  {| ctor := mkConn; projs := (id, curState, running, addr, nodeInfo, peerNetworkId, cleanInfo, authId, peerVersion, flag,
       stopCallback, isDead) |}.

Definition has_flag (c : LnnConnectionFsm) (f : Z) : bool := negb (Z.land (flag c) f =? 0).
Definition set_flag (f : Z) (c : LnnConnectionFsm) : LnnConnectionFsm := c <| flag := Z.lor (flag c) f |>.
Definition clear_flag (f : Z) (c : LnnConnectionFsm) : LnnConnectionFsm := c <| flag := Z.ldiff (flag c) f |>.

(** The data received from the peer is parsed by [lnn_exchange_device_info.c]: what that
    gives is an argument of the step, so [data] is not kept. *)
Record LnnRecvDeviceInfoMsgPara := mkRecv { r_authId : Z; r_uuid : list Z }.

Inductive StateMessageType :=
  | FSM_MSG_TYPE_JOIN_LNN | FSM_MSG_TYPE_AUTH_KEY_GENERATED | FSM_MSG_TYPE_AUTH_DONE | FSM_MSG_TYPE_SYNC_DEVICE_INFO
  | FSM_MSG_TYPE_SYNC_DEVICE_INFO_DONE | FSM_MSG_TYPE_LEAVE_INVALID_CONN | FSM_MSG_TYPE_LEAVE_LNN | FSM_MSG_TYPE_NOT_TRUSTED
  | FSM_MSG_TYPE_DISCONNECT | FSM_MSG_TYPE_JOIN_LNN_TIMEOUT | FSM_MSG_TYPE_SYNC_OFFLINE_DONE | FSM_MSG_TYPE_LEAVE_LNN_TIMEOUT
  | FSM_MSG_TYPE_INITIATE_ONLINE.
#[export] Instance StateMessageType_eq_dec : EqDecision StateMessageType.
Proof. solve_decision. Defined.

(** What a message of a machine carries. *)
Inductive Para := PNull | PAuth (isSuccess : bool) | PInfo (p : LnnRecvDeviceInfoMsgPara).

Record AuthKeyGeneratedMsgPara := mkKeyGen { k_addr : ConnectionAddr; k_authId : Z; k_peerVersion : Z }.
Record LeaveInvalidConnMsgPara := mkLeaveInvalid { oldNetworkId : list Z; l_addrType : Z; newNetworkId : list Z }.
Record ElectMsgPara := mkElect { e_udid : list Z; e_masterUdid : list Z; e_masterWeight : Z }.

(** The messages of the net builder, by type, with their data. *)
Inductive NetBuilderMessageType :=
  | MSG_TYPE_JOIN_LNN (a : ConnectionAddr)
  | MSG_TYPE_DISCOVERY_DEVICE (a : ConnectionAddr)
  | MSG_TYPE_CLEAN_CONN_FSM (connFsmId : Z)
  | MSG_TYPE_AUTH_KEY_GENERATED (p : AuthKeyGeneratedMsgPara)
  | MSG_TYPE_AUTH_DONE (isSuccess : bool) (aid : Z)
  | MSG_TYPE_SYNC_DEVICE_INFO_DONE (p : LnnRecvDeviceInfoMsgPara)
  | MSG_TYPE_NOT_TRUSTED (udid : list Z)
  | MSG_TYPE_DISCONNECT (aid : Z)
  | MSG_TYPE_LEAVE_LNN (networkId : list Z)
  | MSG_TYPE_SYNC_OFFLINE_FINISH (networkId : list Z)
  | MSG_TYPE_NODE_STATE_CHANGED (a : ConnectionAddr)
  | MSG_TYPE_MASTER_ELECT (p : ElectMsgPara)
  | MSG_TYPE_LEAVE_INVALID_CONN (p : LeaveInvalidConnMsgPara)
  | MSG_TYPE_LEAVE_BY_ADDR_TYPE (type : Z).

(** A message in the looper: for the machine at an address (its start, a message of
    its states, its stop and its end) or for the net builder. *)
Inductive Msg :=
  | MStart (p : nat) (st : ConnState)
  | MData (p : nat) (type : StateMessageType) (para : Para)
  | MStop (p : nat)
  | MDeinit (p : nat)
  | MBuilder (m : NetBuilderMessageType).

(** Calls of other parts.  [Told] is a notice about a device to the listeners. *)
Inductive Out :=
  | JoinResult (a : ConnectionAddr) (networkId : option (list Z)) (ret : Z)
  | LeaveResult (networkId : option (list Z)) (ret : Z)
  | Told (u : list Z) (n : Notice)
  | AuthVerifyDevice (a : ConnectionAddr)
  | AuthPostData (aid : Z)
  | AuthHandleLeaveLNN (aid : Z)
  | SyncLedgerItem (networkId : list Z) (type : Z) (info : Z)
  | DisconnectAllConn (o : ConnectOption)
  | AllTypeOffline (type : Z).

Definition INFO_TYPE_OFFLINE : Z := 5.
Definition INFO_TYPE_MASTER_ELECT : Z := 7.

Record World := mkWorld {
  ledger : Ledger; heap : gmap nat LnnConnectionFsm; next : nat; fsmList : list nat; connCount : Z; maxConnCount : Z;
  isInit : bool; connFsmId : Z; queue : list Msg; timers : list (nat * StateMessageType);
  masterUdid : list Z; masterWeight : Z; localWeight : option Z; tick : nat; out : list Out }.
#[export] Instance World_fields : Fields World :=
  {| ctor := mkWorld; projs := (ledger, heap, next, fsmList, connCount, maxConnCount, isInit, connFsmId, queue, timers,
       masterUdid, masterWeight, localWeight, tick, out) |}.

(** What the outside decides: [mem n] the success of an allocation for a message
    or a machine when [n] such questions were asked before, [coin n] of another call,
    [lenv n] of the mutex and the allocations inside a call of a ledger. *)
Section net.
Context (signed_char : bool) (mem coin : nat -> bool) (lenv : nat -> Env).

(** ** Primitives *)

Definition ask {A} (f : nat -> A) : SF World A := fun w => Some (f (tick w), w <| tick := S (tick w) |>).
Definition emit (o : Out) : SF World unit := smodify (fun w : World => w <| out := out w ++ [o] |>).
Definition on_ledger {A} (m : SF Ledger A) : SF World A := fun w =>
  '(a, L) ← m (ledger w); Some (a, w <| ledger := L |>).

(** The copy of the node that a search by an identifier finds. *)
Definition node_by_id (it : bool) (key : option (list Z)) (type : Z) : SF World (option NodeInfo) :=
  on_ledger (let* q := LnnGetNodeInfoById signed_char it key type in
             match q with None => sret None | Some q => let* i := load signed_char q in sret (Some i) end).

(** A machine through its address. *)
Definition conn (p : nat) : SF World LnnConnectionFsm := fun w => c ← heap w !! p; Some (c, w).
Definition upd (p : nat) (f : LnnConnectionFsm -> LnnConnectionFsm) : SF World unit := fun w =>
  c ← heap w !! p; Some (tt, w <| heap := <[p := f c]> (heap w) |>).

(** The looper takes a message, or drops it when it has no memory for its entry. *)
Definition looper_post (m : Msg) : SF World unit :=
  let* ok := ask mem in
  if ok : bool then smodify (fun w : World => w <| queue := queue w ++ [m] |>) else sret tt.

(** ** What the machines use of the engine (lnn_state_machine.c) *)

(** The message cannot be created, or it is handed to the looper. *)
Definition PostMessageToFsm (m : Msg) : SF World Z :=
  let* ok := ask mem in
  if negb ok then sret SOFTBUS_ERR else looper_post m;; sret SOFTBUS_OK.

Definition LnnFsmPostMessage (p : nat) (type : StateMessageType) (para : Para) : SF World Z :=
  conn p;; PostMessageToFsm (MData p type para).

(** The messages that are delayed in this program carry no data. *)
Definition LnnFsmPostMessageDelay (p : nat) (type : StateMessageType) : SF World Z :=
  conn p;;
  let* ok := ask mem in
  if negb ok then sret SOFTBUS_ERR
  else
    let* ok := ask mem in
    (if ok : bool then smodify (fun w : World => w <| timers := timers w ++ [(p, type)] |>) else sret tt);;
    sret SOFTBUS_OK.

(** A message of this machine and type. *)
Definition is_data (p : nat) (type : StateMessageType) (m : Msg) : bool :=
  match m with MData q t _ => bool_decide (p = q) && bool_decide (type = t) | _ => false end.

(** The matching function takes the first type, whose number is 0, for a missing
    argument: then nothing is removed. *)
Definition LnnFsmRemoveMessage (p : nat) (type : StateMessageType) : SF World unit :=
  conn p;;
  if bool_decide (type = FSM_MSG_TYPE_JOIN_LNN) then sret tt
  else
    smodify (fun w : World => w <| queue := filter (fun m => is_data p type m = false) (queue w) |>);;
    smodify (fun w : World => w <| timers := filter (fun t => t <> (p, type)) (timers w) |>).

(** ** Requests to the net builder (lnn_net_builder.c) *)

Definition PostMessageToHandler (m : NetBuilderMessageType) : SF World Z :=
  let* ok := ask mem in
  if negb ok then sret SOFTBUS_ERR else looper_post (MBuilder m);; sret SOFTBUS_OK.

(** The common shape of the requests: [m] is the message once its data is allocated. *)
Definition request (m : NetBuilderMessageType) (no_mem : Z) : SF World Z :=
  let* init := sgets isInit in
  if negb init then sret SOFTBUS_ERR
  else
    let* ok := ask mem in
    if negb ok then sret no_mem else PostMessageToHandler m.

Definition LnnRequestCleanConnFsm (connFsmId : Z) : SF World Z :=
  request (MSG_TYPE_CLEAN_CONN_FSM connFsmId) SOFTBUS_MALLOC_ERR.

Definition LnnRequestLeaveInvalidConn (old : list Z) (type : Z) (new : list Z) : SF World Z :=
  let* init := sgets isInit in
  if negb init then sret SOFTBUS_ERR
  else
    let* ok := ask mem in
    if negb ok then sret SOFTBUS_MALLOC_ERR
    else
      let '(ok1, old) := strncpy_s [] NETWORK_ID_BUF_LEN old in
      let '(ok2, new) := strncpy_s [] NETWORK_ID_BUF_LEN new in
      if negb ok1 || negb ok2 then sret SOFTBUS_MALLOC_ERR
      else PostMessageToHandler (MSG_TYPE_LEAVE_INVALID_CONN (mkLeaveInvalid old type new)).

End net.
End LnnNet.
