(* ===== verification/LnnConnFsm.v ===== *)
(** * The machine of a connection (lnn_connection_fsm.c)

    Joining a device: authentication, exchange of the device information, cleaning
    of connections that became invalid, online; then leaving.  A machine is its
    address [p] in the world of [LnnNet].  The results of other parts that a step
    needs are its [Ext] argument: the id of a new authentication, and the node the
    data of the peer is parsed to. *)

From S2P Require Import Prelude StateFault LnnNodeInfo LnnLedger LnnNet.

Module LnnConnFsm.
Import LnnNodeInfo LnnLedger LnnNet.
#[local] Open Scope sf_scope.

Record Ext := mkExt { x_verify : Z; x_parse : option NodeInfo }.

(** What [SoftBusCalloc] gives. *)
Definition zero_node : NodeInfo :=
  mkNodeInfo [] [] [] [] [] [] [] 0 0 0 0 0 (mkDevice [] [] 0) (mkConnect [] [] [] 0 0 0) 0 0.

Section fsm.
Context (signed_char : bool) (mem coin : nat -> bool) (lenv : nat -> Env).

(** ** Helpers *)

Definition CheckDeadFlag (c : LnnConnectionFsm) (expectDeadFlag : bool) : bool := Bool.eqb (isDead c) expectDeadFlag.

Definition CheckInterfaceCommonArgs (p : nat) (needCheckDead : bool) : SF World bool :=
  let* c := conn p in sret (negb (needCheckDead && isDead c)).

Definition NotifyJoinResult (p : nat) (networkId : option (list Z)) (retCode : Z) : SF World unit :=
  let* c := conn p in
  (if has_flag c LNN_CONN_INFO_FLAG_JOIN_REQUEST then emit (JoinResult (addr c) networkId retCode) else sret tt);;
  upd p (clear_flag LNN_CONN_INFO_FLAG_JOIN_ACTIVE).

Definition NotifyLeaveResult (p : nat) (networkId : option (list Z)) (retCode : Z) : SF World unit :=
  let* c := conn p in
  (if has_flag c LNN_CONN_INFO_FLAG_LEAVE_REQUEST then emit (LeaveResult networkId retCode) else sret tt);;
  upd p (clear_flag LNN_CONN_INFO_FLAG_LEAVE_ACTIVE).

(** The notices to the listeners, each with the device it is about. *)
Definition tell (xs : list (list Z * Notice)) : SF World unit := sfor xs (fun x => emit (Told x.1 x.2)).

(** The end of a join that succeeded: the node of the connection must be there. *)
Definition join_online (p : nat) (networkId : option (list Z)) (retCode : Z) : SF World unit :=
  let* c := conn p in
  match nodeInfo c with
  | None => fault
  | Some i =>
      let* env := ask lenv in
      let! (report, i') := on_ledger (LnnAddOnlineNode signed_char env (Some i)) in
      upd p (fun c => c <| nodeInfo := i' |>);;
      NotifyJoinResult p networkId retCode;;
      let* env := ask lenv in
      let* ns := on_ledger (ReportResult signed_char env (LnnGetDeviceUdid i') report) in
      tell (pair (deviceUdid (deviceInfo i)) <$> ns);;
      upd p (set_flag LNN_CONN_INFO_FLAG_ONLINE)
  end.

Definition CompleteJoinLNN (p : nat) (networkId : option (list Z)) (retCode : Z) : SF World unit :=
  LnnFsmRemoveMessage p FSM_MSG_TYPE_JOIN_LNN_TIMEOUT;;
  (if retCode =? SOFTBUS_OK then join_online p networkId retCode
   else
     NotifyJoinResult p networkId retCode;;
     let* c := conn p in emit (AuthHandleLeaveLNN (authId c)));;
  upd p (fun c => c <| nodeInfo := @None NodeInfo |>);;
  upd p (clear_flag LNN_CONN_INFO_FLAG_JOIN_PASSIVE);;
  if negb (retCode =? SOFTBUS_OK) then
    upd p (fun c => c <| isDead := true |>);;
    let* c := conn p in
    LnnRequestCleanConnFsm mem (id c);; sret tt
  else sret tt.

Definition CompleteLeaveLNN (p : nat) (networkId : option (list Z)) (retCode : Z) : SF World unit :=
  let* c := conn p in
  if CheckDeadFlag c true then sret tt
  else
    LnnFsmRemoveMessage p FSM_MSG_TYPE_LEAVE_LNN_TIMEOUT;;
    let* xs := (if retCode =? SOFTBUS_OK then
                  let* it := ask coin in let* env := ask lenv in let* env' := ask lenv in
                  on_ledger (leave_told signed_char it env env' networkId (i32 (authId c))
                               (has_flag c LNN_CONN_INFO_FLAG_LEAVE_PASSIVE))
                else sret []) in
    NotifyLeaveResult p networkId retCode;;
    tell xs;;
    upd p (clear_flag LNN_CONN_INFO_FLAG_LEAVE_PASSIVE);;
    emit (AuthHandleLeaveLNN (authId c));;
    upd p (fun c => c <| isDead := true |>);;
    upd p (clear_flag LNN_CONN_INFO_FLAG_ONLINE);;
    LnnRequestCleanConnFsm mem (id c);; sret tt.

Definition OnJoinFail (p : nat) : SF World Z :=
  let* c := conn p in
  if CheckDeadFlag c true then sret SOFTBUS_ERR
  else CompleteJoinLNN p None SOFTBUS_ERR;; sret SOFTBUS_OK.

Definition TryCancelJoinProcedure (p : nat) : SF World unit :=
  let* c := conn p in
  if has_flag c LNN_CONN_INFO_FLAG_LEAVE_AUTO then CompleteJoinLNN p None SOFTBUS_ERR
  else NotifyJoinResult p (Some (peerNetworkId c)) SOFTBUS_ERR.

(** ** Entering a state *)

Definition GetDiscoveryType (type : Z) : Z :=
  if (type =? CONNECTION_ADDR_WLAN) || (type =? CONNECTION_ADDR_ETH) then DISCOVERY_TYPE_WIFI
  else if type =? CONNECTION_ADDR_BR then DISCOVERY_TYPE_BR
  else if type =? CONNECTION_ADDR_BLE then DISCOVERY_TYPE_BLE
  else DISCOVERY_TYPE_COUNT.

Definition OnlineStateEnter (p : nat) : SF World unit :=
  let* c := conn p in
  if CheckDeadFlag c true then sret tt
  else CompleteJoinLNN p (Some (peerNetworkId c)) SOFTBUS_OK.

(** [LnnSyncLedgerItemInfo] is a call of another part that may fail. *)
Definition LnnSyncLedgerItemInfo (networkId : list Z) (type info : Z) : SF World Z :=
  emit (SyncLedgerItem networkId type info);;
  let* ok := ask coin in sret (if ok : bool then SOFTBUS_OK else SOFTBUS_ERR).

Definition LeavingStateEnter (p : nat) : SF World unit :=
  let* c := conn p in
  if CheckDeadFlag c true then sret tt
  else
    let* rc := LnnSyncLedgerItemInfo (peerNetworkId c) (GetDiscoveryType (a_type (addr c))) INFO_TYPE_OFFLINE in
    if rc =? SOFTBUS_OK then LnnFsmPostMessageDelay mem p FSM_MSG_TYPE_LEAVE_LNN_TIMEOUT;; sret tt
    else CompleteLeaveLNN p (Some (peerNetworkId c)) SOFTBUS_OK.

(** The [enter] callbacks of [g_states]. *)
Definition state_enter (p : nat) (st : ConnState) : SF World unit :=
  match st with
  | STATE_ONLINE => OnlineStateEnter p
  | STATE_LEAVING => LeavingStateEnter p
  | _ => sret tt
  end.

(** [LnnFsmTransactState] to a state that is registered; no state has an [exit]. *)
Definition LnnFsmTransactState (p : nat) (st : ConnState) : SF World Z :=
  let* c := conn p in
  match curState c with
  | None => sret SOFTBUS_ERR
  | Some _ =>
      if negb (running c) then sret SOFTBUS_ERR
      else upd p (fun c => c <| curState := Some st |>);; state_enter p st;; sret SOFTBUS_OK
  end.

(** ** Authentication *)

Definition OnJoinLNNInAuth (x : Ext) (p : nat) : SF World Z :=
  let* c := conn p in
  if CheckDeadFlag c true then NotifyJoinResult p None SOFTBUS_ERR;; sret SOFTBUS_ERR
  else if authId c >? 0 then sret SOFTBUS_OK
  else
    emit (AuthVerifyDevice (addr c));;
    upd p (fun c => c <| authId := x_verify x |>);;
    if x_verify x <=? 0 then CompleteJoinLNN p None SOFTBUS_ERR;; sret SOFTBUS_ERR
    else LnnFsmPostMessageDelay mem p FSM_MSG_TYPE_JOIN_LNN_TIMEOUT;; sret SOFTBUS_OK.

Definition OnAuthKeyGeneratedInAuth (p : nat) : SF World Z :=
  let* c := conn p in
  if CheckDeadFlag c true then sret SOFTBUS_ERR
  else if has_flag c LNN_CONN_INFO_FLAG_JOIN_ACTIVE then
    LnnFsmTransactState p STATE_SYNC_DEVICE_INFO;;
    LnnFsmPostMessage mem p FSM_MSG_TYPE_SYNC_DEVICE_INFO PNull;;
    sret SOFTBUS_OK
  else
    LnnFsmTransactState p STATE_SYNC_DEVICE_INFO;;
    LnnFsmPostMessage mem p FSM_MSG_TYPE_SYNC_DEVICE_INFO PNull;;
    LnnFsmPostMessageDelay mem p FSM_MSG_TYPE_JOIN_LNN_TIMEOUT;;
    sret SOFTBUS_OK.

Definition OnAuthDoneInAuth (p : nat) (para : Para) : SF World Z :=
  let* c := conn p in
  if CheckDeadFlag c true then sret SOFTBUS_ERR
  else match para with
       | PAuth true => sret SOFTBUS_ERR
       | PAuth false => CompleteJoinLNN p None SOFTBUS_ERR;; sret SOFTBUS_OK
       | _ => sret SOFTBUS_INVALID_PARAM
       end.

Definition AuthStateProcess (x : Ext) (p : nat) (type : StateMessageType) (para : Para) : SF World bool :=
  match type with
  | FSM_MSG_TYPE_JOIN_LNN => OnJoinLNNInAuth x p;; sret true
  | FSM_MSG_TYPE_AUTH_KEY_GENERATED => OnAuthKeyGeneratedInAuth p;; sret true
  | FSM_MSG_TYPE_AUTH_DONE => OnAuthDoneInAuth p para;; sret true
  | FSM_MSG_TYPE_DISCONNECT | FSM_MSG_TYPE_JOIN_LNN_TIMEOUT => OnJoinFail p;; sret true
  | FSM_MSG_TYPE_LEAVE_LNN => TryCancelJoinProcedure p;; sret true
  | _ => sret false
  end.

(** ** Exchange of the device information *)

(** [LnnGetExchangeNodeInfo] and [AuthPostData] may fail. *)
Definition OnSyncDeviceInfo (p : nat) : SF World Z :=
  let* c := conn p in
  if CheckDeadFlag c true then sret SOFTBUS_ERR
  else match LnnConvertAddrToOption (addr c) with
       | None => sret SOFTBUS_ERR
       | Some _ =>
           let* buf := ask coin in
           if negb buf then CompleteJoinLNN p None SOFTBUS_ERR;; sret SOFTBUS_ERR
           else
             emit (AuthPostData (authId c));;
             let* ok := ask coin in
             if negb ok then CompleteJoinLNN p None SOFTBUS_ERR;; sret SOFTBUS_ERR else sret SOFTBUS_OK
       end.

(** The parsed node, completed with what the connection knows; [None] when the
    source leaves the block with an error. *)
Definition complete_node (c : LnnConnectionFsm) (o : ConnectOption) (para : LnnRecvDeviceInfoMsgPara) (i : NodeInfo)
    : option NodeInfo :=
  let i := i <| discoveryType := Z.shiftl 1 (GetDiscoveryType (a_type (addr c))) |> in
  let i := i <| authSeqNum := authId c |> in
  let i := i <| authChannelId := i32 (authId c) |> in
  let '(ok, u) := strncpy_s (uuid i) UUID_BUF_LEN (r_uuid para) in
  let i := i <| uuid := u |> in
  if negb ok then None
  else match o_type o with
       | CONNECT_TCP =>
           let '(ok, a) := strncpy_s (deviceIp (connectInfo i)) IP_LEN (a_text (addr c)) in
           if negb ok then None else Some (i <| connectInfo := (connectInfo i) <| deviceIp := a |> |>)
       | _ => Some i
       end.

Definition ParsePeerNodeInfo (x : Ext) (p : nat) (para : LnnRecvDeviceInfoMsgPara) : SF World bool :=
  let* c := conn p in
  let* ok := (match nodeInfo c with Some _ => sret true | None => ask mem end) in
  let node := (if negb ok then None
               else o ← LnnConvertAddrToOption (addr c); i ← x_parse x; complete_node c o para i) in
  upd p (fun c => c <| nodeInfo := node |>);;
  sret (bool_decide (is_Some node)).

Definition OnSyncDeviceInfoDone (x : Ext) (p : nat) (para : Para) : SF World Z :=
  match para with
  | PInfo r =>
      let* c := conn p in
      if CheckDeadFlag c true then sret SOFTBUS_ERR
      else
        let* ok := ParsePeerNodeInfo x p r in
        let* c := conn p in
        match nodeInfo c with
        | Some i =>
            let '(copied, nid) := strncpy_s (peerNetworkId c) NETWORK_ID_BUF_LEN (networkId i) in
            if negb ok then CompleteJoinLNN p None SOFTBUS_ERR;; sret SOFTBUS_ERR
            else
              upd p (fun c => c <| peerNetworkId := nid |>);;
              if negb copied then CompleteJoinLNN p None SOFTBUS_ERR;; sret SOFTBUS_ERR else sret SOFTBUS_OK
        | None => CompleteJoinLNN p None SOFTBUS_ERR;; sret SOFTBUS_ERR
        end
  | _ => sret SOFTBUS_ERR
  end.

Definition OnAuthDoneInSyncInfo (p : nat) (para : Para) : SF World Z :=
  match para with
  | PAuth isSuccess =>
      let* c := conn p in
      if CheckDeadFlag c true then sret SOFTBUS_ERR
      else
        (if isSuccess : bool then
           LnnFsmTransactState p STATE_CLEAN_INVALID_CONN;;
           LnnFsmPostMessage mem p FSM_MSG_TYPE_LEAVE_INVALID_CONN PNull;; sret tt
         else CompleteJoinLNN p None SOFTBUS_ERR);;
        sret SOFTBUS_OK
  | _ => sret SOFTBUS_INVALID_PARAM
  end.

Definition SyncDeviceInfoStateProcess (x : Ext) (p : nat) (type : StateMessageType) (para : Para) : SF World bool :=
  match type with
  | FSM_MSG_TYPE_SYNC_DEVICE_INFO => OnSyncDeviceInfo p;; sret true
  | FSM_MSG_TYPE_SYNC_DEVICE_INFO_DONE => OnSyncDeviceInfoDone x p para;; sret true
  | FSM_MSG_TYPE_AUTH_DONE => OnAuthDoneInSyncInfo p para;; sret true
  | FSM_MSG_TYPE_LEAVE_LNN => TryCancelJoinProcedure p;; sret true
  | FSM_MSG_TYPE_NOT_TRUSTED | FSM_MSG_TYPE_DISCONNECT | FSM_MSG_TYPE_JOIN_LNN_TIMEOUT => OnJoinFail p;; sret true
  | _ => sret false
  end.

(** ** Cleaning of invalid connections *)

(** The type of the connections to clean, or [None] when nothing changed. *)
Definition IsNodeInfoChanged (c : LnnConnectionFsm) (old new : NodeInfo) : option Z :=
  if negb (bool_decide (networkId new = networkId old)) then Some CONNECTION_ADDR_MAX
  else if negb (bool_decide (deviceIp (connectInfo new) = deviceIp (connectInfo old))) then Some (a_type (addr c))
  else if negb (authPort (connectInfo new) =? authPort (connectInfo old)) then Some (a_type (addr c))
  else if negb (proxyPort (connectInfo new) =? proxyPort (connectInfo old)) then Some (a_type (addr c))
  else if negb (sessionPort (connectInfo new) =? sessionPort (connectInfo old)) then Some (a_type (addr c))
  else None.

(** The node of the connection is read before it is checked that the connection
    is not dead. *)
Definition OnLeaveInvalidConn (p : nat) : SF World unit :=
  let* c := conn p in
  match nodeInfo c with
  | None => fault
  | Some new =>
      let* old := node_by_id signed_char true (LnnGetDeviceUdid (Some new)) CATEGORY_UDID in
      if CheckDeadFlag c true then sret tt
      else match (if LnnIsNodeOnline old then o ← old; t ← IsNodeInfoChanged c o new; Some (o, t) else None) with
           | Some (o, t) => LnnRequestLeaveInvalidConn mem (networkId o) t (networkId new);; sret tt
           | None => LnnFsmTransactState p STATE_ONLINE;; sret tt
           end
  end.

Definition CleanInvalidConnStateProcess (p : nat) (type : StateMessageType) (para : Para) : SF World bool :=
  match type with
  | FSM_MSG_TYPE_LEAVE_LNN => TryCancelJoinProcedure p;; sret true
  | FSM_MSG_TYPE_NOT_TRUSTED | FSM_MSG_TYPE_DISCONNECT => OnJoinFail p;; sret true
  | FSM_MSG_TYPE_LEAVE_INVALID_CONN => OnLeaveInvalidConn p;; sret true
  | FSM_MSG_TYPE_INITIATE_ONLINE => LnnFsmTransactState p STATE_ONLINE;; sret true
  | _ => sret false
  end.

(** ** Online and leaving *)

Definition OnJoinLNNInOnline (p : nat) : SF World unit :=
  let* c := conn p in NotifyJoinResult p (Some (peerNetworkId c)) SOFTBUS_OK.

Definition LeaveLNNInOnline (p : nat) : SF World unit :=
  let* c := conn p in
  if CheckDeadFlag c true then sret tt else LnnFsmTransactState p STATE_LEAVING;; sret tt.

Definition OnlineStateProcess (p : nat) (type : StateMessageType) (para : Para) : SF World bool :=
  match type with
  | FSM_MSG_TYPE_JOIN_LNN => OnJoinLNNInOnline p;; sret true
  | FSM_MSG_TYPE_LEAVE_LNN | FSM_MSG_TYPE_NOT_TRUSTED | FSM_MSG_TYPE_DISCONNECT => LeaveLNNInOnline p;; sret true
  | _ => sret false
  end.

Definition LeavingStateProcess (p : nat) (type : StateMessageType) (para : Para) : SF World bool :=
  match type with
  | FSM_MSG_TYPE_JOIN_LNN => NotifyJoinResult p None SOFTBUS_ERR;; sret true
  | FSM_MSG_TYPE_SYNC_OFFLINE_DONE | FSM_MSG_TYPE_LEAVE_LNN_TIMEOUT =>
      let* c := conn p in CompleteLeaveLNN p (Some (peerNetworkId c)) SOFTBUS_OK;; sret true
  | _ => sret false
  end.

(** The [process] callbacks of [g_states]. *)
Definition state_process (x : Ext) (p : nat) (st : ConnState) (type : StateMessageType) (para : Para) : SF World bool :=
  match st with
  | STATE_AUTH => AuthStateProcess x p type para
  | STATE_SYNC_DEVICE_INFO => SyncDeviceInfoStateProcess x p type para
  | STATE_CLEAN_INVALID_CONN => CleanInvalidConnStateProcess p type para
  | STATE_ONLINE => OnlineStateProcess p type para
  | STATE_LEAVING => LeavingStateProcess p type para
  end.

(** ** Life of a machine *)

Definition GetNextConnectionFsmId : SF World Z := fun w =>
  let n := u16 (connFsmId w + 1) in Some (n, w <| connFsmId := n |>).

(** [init] is [LnnFsmInit], which fails without a looper. *)
Definition LnnCreateConnectionFsm (target : ConnectionAddr) : SF World (option nat) :=
  let* ok := ask mem in
  if negb ok then sret None
  else
    let* n := GetNextConnectionFsmId in
    let* init := ask mem in
    if negb init then sret None
    else
      let* p := sgets next in
      smodify (fun w : World => w <| heap := <[p := mkConn n None false target None [] None 0 0 0 false false]> (heap w) |>);;
      smodify (fun w : World => w <| next := S p |>);;
      sret (Some p).

Definition LnnDestroyConnectionFsm (p : nat) : SF World unit :=
  conn p;; smodify (fun w : World => w <| heap := delete p (heap w) |>).

Definition ConnectionFsmDinitCallback (p : nat) : SF World unit :=
  let* c := conn p in if stopCallback c then LnnDestroyConnectionFsm p else sret tt.

Definition LnnStartConnectionFsm (p : nat) : SF World Z :=
  conn p;;
  let* r := PostMessageToFsm mem (MStart p STATE_AUTH) in
  if negb (r =? SOFTBUS_OK) then sret SOFTBUS_ERR else sret SOFTBUS_OK.

Definition LnnStopConnectionFsm (p : nat) : SF World Z :=
  upd p (fun c => c <| stopCallback := true |>);;
  let* r := PostMessageToFsm mem (MStop p) in
  if negb (r =? SOFTBUS_OK) then sret SOFTBUS_ERR else PostMessageToFsm mem (MDeinit p).

(** The common shape of the functions below: dead machines get no messages. *)
Definition send (p : nat) (type : StateMessageType) (para : Para) : SF World Z :=
  let* ok := CheckInterfaceCommonArgs p true in
  if negb ok then sret SOFTBUS_ERR else LnnFsmPostMessage mem p type para.

Definition LnnSendJoinRequestToConnFsm (p : nat) : SF World Z := send p FSM_MSG_TYPE_JOIN_LNN PNull.
Definition LnnSendAuthKeyGenMsgToConnFsm (p : nat) : SF World Z := send p FSM_MSG_TYPE_AUTH_KEY_GENERATED PNull.
Definition LnnSendAuthResultMsgToConnFsm (p : nat) (isSuccess : bool) : SF World Z :=
  let* ok := CheckInterfaceCommonArgs p true in
  if negb ok then sret SOFTBUS_ERR
  else
    let* m := ask mem in
    if negb m then sret SOFTBUS_MALLOC_ERR else LnnFsmPostMessage mem p FSM_MSG_TYPE_AUTH_DONE (PAuth isSuccess).
Definition LnnSendPeerDevInfoToConnFsm (p : nat) (para : LnnRecvDeviceInfoMsgPara) : SF World Z :=
  send p FSM_MSG_TYPE_SYNC_DEVICE_INFO_DONE (PInfo para).
Definition LnnSendNotTrustedToConnFsm (p : nat) : SF World Z := send p FSM_MSG_TYPE_NOT_TRUSTED PNull.
Definition LnnSendDisconnectMsgToConnFsm (p : nat) : SF World Z := send p FSM_MSG_TYPE_DISCONNECT PNull.
Definition LnnSendLeaveRequestToConnFsm (p : nat) : SF World Z := send p FSM_MSG_TYPE_LEAVE_LNN PNull.
Definition LnnSendSyncOfflineFinishToConnFsm (p : nat) : SF World Z := send p FSM_MSG_TYPE_SYNC_OFFLINE_DONE PNull.
Definition LnnSendNewNetworkOnlineToConnFsm (p : nat) : SF World Z := send p FSM_MSG_TYPE_INITIATE_ONLINE PNull.

(** ** Messages of a machine taken from the looper (lnn_state_machine.c) *)

Definition ProcessStartMessage (p : nat) (st : ConnState) : SF World unit :=
  let* c := conn p in
  if bool_decide (is_Some (curState c)) || running c then sret tt
  else
    upd p (fun c => c <| curState := Some st |>);;
    state_enter p st;;
    upd p (fun c => c <| running := true |>).

Definition ProcessDataMessage (x : Ext) (p : nat) (type : StateMessageType) (para : Para) : SF World unit :=
  let* c := conn p in
  match curState c with
  | None => sret tt
  | Some st => if negb (running c) then sret tt else state_process x p st type para;; sret tt
  end.

Definition ProcessStopMessage (p : nat) : SF World unit :=
  let* c := conn p in
  if negb (bool_decide (is_Some (curState c))) || negb (running c) then sret tt
  else upd p (fun c => c <| curState := @None ConnState |>);; upd p (fun c => c <| running := false |>).

End fsm.
End LnnConnFsm.
