(* ===== verification/LnnNetBuilder.v ===== *)
(** * The net builder (lnn_net_builder.c, lnn_node_weight.c)

    The net builder keeps the list of the connections of this device and turns the
    requests of the bus centre and the callbacks of the authentication into messages
    of their machines.  Its functions are here in the order of the source, on the
    world of [LnnNet], then the step of the whole system: a call from outside, a
    timer that runs out, or the message the looper takes next. *)

From S2P Require Import Prelude StateFault Utils LnnNodeInfo LnnLedger LnnNet LnnConnFsm.

Module LnnNetBuilder.
Import LnnNodeInfo LnnLedger LnnNet LnnConnFsm.
#[local] Open Scope sf_scope.

Definition DEFAULT_MAX_LNN_CONNECTION_COUNT : Z := 10.
Definition SOFT_BUS_NEW_V1 : Z := 100.
Definition MAX_WEIGHT_VALUE : Z := 1000.
Definition UINT8_MAX : Z := 255.

(** What the local ledger holds of this device: its udid and the name of the
    interface in use. *)
Record Local := mkLocal { l_udid : list Z; l_ifName : list Z }.

(** [strcmp] of two texts, whose characters are compared as unsigned. *)
Fixpoint strcmp (s t : list Z) : Z :=
  match s, t with
  | [], [] => 0
  | [], y :: _ => - (u8 y)
  | x :: _, [] => u8 x
  | x :: s, y :: t => if x =? y then strcmp s t else u8 x - u8 y
  end.

Definition LnnCompareNodeWeight (weight1 : Z) (masterUdid1 : list Z) (weight2 : Z) (masterUdid2 : list Z) : Z :=
  if negb (weight1 =? weight2) then i32 (weight1 - weight2) else strcmp masterUdid1 masterUdid2.

(** The text starts with the prefix. *)
Definition starts_with (prefix s : list Z) : bool :=
  (Z.of_nat (length s) >=? Z.of_nat (length prefix)) && bool_decide (take (length prefix) s = prefix).
Definition LNN_WLAN_IF_NAME_PREFIX : list Z := [119; 108; 97; 110].
Definition LNN_ETH_IF_NAME_PREFIX : list Z := [101; 116; 104].

Section builder.
Context (signed_char : bool) (mem coin : nat -> bool) (lenv : nat -> Env) (rand : nat -> option Z) (local : Local).

(** ** The weight of this device (lnn_node_weight.c) *)

Definition LnnGetLocalWeight : SF World Z :=
  let* w := sgets localWeight in
  match w with
  | Some weight => sret weight
  | None =>
      let* r := ask rand in
      match r with
      | None => sret 0
      | Some v =>
          let weight := u8 v * MAX_WEIGHT_VALUE ÷ UINT8_MAX in
          smodify (fun w : World => w <| localWeight := Some weight |>);; sret weight
      end
  end.

(** ** The local ledger (lnn_local_net_ledger.c) *)

(** The mutex of the local ledger. *)
Definition local_lock : SF World bool := let* env := ask lenv in sret (e_lock env).

(** [LnnSetLocalStrInfo(STRING_KEY_MASTER_NODE_UDID, udid)]; the role of this
    device, which it also sets, is not kept. *)
Definition SetLocalMasterUdid (udid : list Z) : SF World Z :=
  let* lock := local_lock in
  if negb lock then sret SOFTBUS_ERR
  else
    let* valid := slift (Utils.IsValidString (Some (udid ++ [0])) UDID_BUF_LEN) in
    if negb valid then sret SOFTBUS_INVALID_PARAM
    else
      let* u := sgets masterUdid in
      let '(ok, u) := strncpy_s u UDID_BUF_LEN udid in
      smodify (fun w : World => w <| masterUdid := u |>);;
      sret (if ok : bool then SOFTBUS_OK else SOFTBUS_ERR).

Definition SetLocalMasterWeight (weight : Z) : SF World Z :=
  let* lock := local_lock in
  if negb lock then sret SOFTBUS_ERR
  else smodify (fun w : World => w <| masterWeight := weight |>);; sret SOFTBUS_OK.

(** The getters, [None] when they fail. *)
Definition GetLocalMasterUdid : SF World (option (list Z)) :=
  let* lock := local_lock in
  if negb lock then sret None
  else let* u := sgets masterUdid in let '(ok, s) := strncpy_s [] UDID_BUF_LEN u in sret (if ok : bool then Some s else None).
Definition GetLocalMasterWeight : SF World (option Z) :=
  let* lock := local_lock in if negb lock then sret None else let* x := sgets masterWeight in sret (Some x).
Definition GetLocalUdid : SF World (option (list Z)) :=
  let* lock := local_lock in
  let '(ok, s) := strncpy_s [] UDID_BUF_LEN (l_udid local) in
  sret (if lock && ok then Some s else None).

(** ** Searches in the list of connections *)

Fixpoint find_in (l : list nat) (f : LnnConnectionFsm -> bool) : SF World (option nat) :=
  match l with
  | [] => sret None
  | p :: l => let* c := conn p in if f c then sret (Some p) else find_in l f
  end.

Definition find_conn (f : LnnConnectionFsm -> bool) : SF World (option nat) :=
  let* l := sgets fsmList in find_in l f.

Definition FindConnectionFsmByAddr (a : ConnectionAddr) : SF World (option nat) :=
  find_conn (fun c => LnnIsSameConnectionAddr a (addr c)).
Definition FindConnectionFsmByAuthId (aid : Z) : SF World (option nat) := find_conn (fun c => authId c =? aid).
Definition FindConnectionFsmByNetworkId (networkId : list Z) : SF World (option nat) :=
  find_conn (fun c => bool_decide (networkId = peerNetworkId c)).
Definition FindConnectionFsmByUdid (targetUdid : list Z) : SF World (option nat) :=
  let* r := find_conn (fun c => match nodeInfo c with
                                | None => false
                                | Some i => bool_decide (LnnGetDeviceUdid (Some i) = Some targetUdid)
                                end) in
  match r with
  | Some p => sret (Some p)
  | None =>
      let* info := node_by_id signed_char true (Some targetUdid) CATEGORY_UDID in
      match info with Some i => FindConnectionFsmByNetworkId (networkId i) | None => sret None end
  end.
Definition FindConnectionFsmByConnFsmId (connFsmId : Z) : SF World (option nat) := find_conn (fun c => connFsmId =? id c).

(** The connection a search found, unless it is dead. *)
Definition alive (r : option nat) : SF World (option nat) :=
  match r with
  | None => sret None
  | Some p => let* c := conn p in sret (if isDead c then None else Some p)
  end.

(** ** Connections *)

Definition StartNewConnectionFsm (a : ConnectionAddr) : SF World (option nat) :=
  let* n := sgets connCount in
  let* max := sgets maxConnCount in
  if n >=? max then sret None
  else
    let* r := LnnCreateConnectionFsm mem a in
    match r with
    | None => sret None
    | Some p =>
        let* rc := LnnStartConnectionFsm mem p in
        if negb (rc =? SOFTBUS_OK) then LnnDestroyConnectionFsm p;; sret None
        else
          smodify (fun w : World => w <| fsmList := p :: fsmList w |>);;
          smodify (fun w : World => w <| connCount := i32 (connCount w + 1) |>);;
          sret (Some p)
    end.

Definition StopConnectionFsm (p : nat) : SF World unit :=
  LnnStopConnectionFsm mem p;;
  smodify (fun w : World => w <| fsmList := filter (fun q => q <> p) (fsmList w) |>);;
  smodify (fun w : World => w <| connCount := i32 (connCount w - 1) |>).

Definition IsNodeOnline (networkId : list Z) : SF World bool :=
  let* it := ask coin in
  let* info := node_by_id signed_char it (Some networkId) CATEGORY_NETWORK_ID in
  sret (LnnIsNodeOnline info).

Definition UpdateLocalMasterNode (udid : list Z) (weight : Z) : SF World unit :=
  let* r := SetLocalMasterUdid udid in
  if negb (r =? SOFTBUS_OK) then sret tt else SetLocalMasterWeight weight;; sret tt.

Definition SendElectMessageToAll (skipNetworkId : option (list Z)) : SF World unit :=
  let* l := sgets fsmList in
  sfor l (fun p =>
    let* c := conn p in
    if bool_decide (skipNetworkId = Some (peerNetworkId c)) then sret tt
    else
      let* online := IsNodeOnline (peerNetworkId c) in
      if negb online then sret tt
      else LnnSyncLedgerItemInfo coin (peerNetworkId c) DISCOVERY_TYPE_UNKNOWN INFO_TYPE_MASTER_ELECT;; sret tt).

(** ** Requests to join *)

Definition TrySendJoinLNNRequest (a : ConnectionAddr) (needReportFailure : bool) : SF World Z :=
  let* found := FindConnectionFsmByAddr a in
  let* found := alive found in
  let* r := (match found with Some p => sret (Some p) | None => StartNewConnectionFsm a end) in
  let isCreate := negb (bool_decide (is_Some found)) in
  let* rc := (match r with Some p => LnnSendJoinRequestToConnFsm mem p | None => sret SOFTBUS_ERR end) in
  match r with
  | Some p =>
      if rc =? SOFTBUS_OK then
        upd p (set_flag (if needReportFailure : bool then LNN_CONN_INFO_FLAG_JOIN_REQUEST else LNN_CONN_INFO_FLAG_JOIN_AUTO));;
        sret SOFTBUS_OK
      else
        (if needReportFailure : bool then emit (JoinResult a None SOFTBUS_ERR) else sret tt);;
        (if isCreate : bool then LnnDestroyConnectionFsm p else sret tt);;
        sret SOFTBUS_ERR
  | None =>
      (if needReportFailure : bool then emit (JoinResult a None SOFTBUS_ERR) else sret tt);;
      sret SOFTBUS_ERR
  end.

Definition ProcessJoinLNNRequest (a : ConnectionAddr) : SF World Z := TrySendJoinLNNRequest a true.
Definition ProcessDevDiscoveryRequest (a : ConnectionAddr) : SF World Z := TrySendJoinLNNRequest a false.

(** ** A connection is cleaned *)

(** The copy [c] is the machine that was taken from the list. *)
Definition tryInitiateNewNetworkOnline (p : nat) : SF World unit :=
  let* c := conn p in
  if negb (has_flag c LNN_CONN_INFO_FLAG_INITIATE_ONLINE) then sret tt
  else
    let* waits := find_conn (fun item => bool_decide (peerNetworkId c = peerNetworkId item) &&
                                         has_flag item LNN_CONN_INFO_FLAG_INITIATE_ONLINE) in
    match waits with
    | Some _ => sret tt
    | None =>
        let* l := sgets fsmList in
        sfor l (fun q =>
          let* item := conn q in
          match cleanInfo c with
          | None => fault
          | Some i =>
              if negb (bool_decide (clean_networkId i = peerNetworkId item)) then sret tt
              else if isDead item then sret tt
              else if negb (addrType i =? CONNECTION_ADDR_MAX) && negb (addrType i =? a_type (addr item)) then sret tt
              else LnnSendNewNetworkOnlineToConnFsm mem q;; sret tt
          end)
    end.

(** For Bluetooth the address of the connection in the list is compared with
    itself. *)
Definition tryDisconnectAllConnection (p : nat) : SF World unit :=
  let* c := conn p in
  let addr1 := addr c in
  let* same := find_conn (fun item =>
    let addr2 := addr item in
    if negb (a_type addr1 =? a_type addr2) then false
    else if (a_type addr1 =? CONNECTION_ADDR_BR) || (a_type addr1 =? CONNECTION_ADDR_BLE)
      then strncmp_eq (a_text (addr item)) (a_text addr2) BT_MAC_LEN
    else if (a_type addr1 =? CONNECTION_ADDR_WLAN) || (a_type addr1 =? CONNECTION_ADDR_ETH)
      then strncmp_eq (a_text addr1) (a_text addr2) (Z.of_nat (length (a_text addr1)))
    else false) in
  match same with
  | Some _ => sret tt
  | None => match LnnConvertAddrToOption addr1 with Some o => emit (DisconnectAllConn o) | None => sret tt end
  end.

Definition tryNotifyAllTypeOffline (p : nat) : SF World unit :=
  let* c := conn p in
  let* same := find_conn (fun item => a_type (addr c) =? a_type (addr item)) in
  match same with Some _ => sret tt | None => emit (AllTypeOffline (a_type (addr c))) end.

Definition ProcessCleanConnectionFsm (connFsmId : Z) : SF World Z :=
  let* r := FindConnectionFsmByConnFsmId connFsmId in
  match r with
  | None => sret SOFTBUS_ERR
  | Some p =>
      StopConnectionFsm p;; tryInitiateNewNetworkOnline p;; tryDisconnectAllConnection p;; tryNotifyAllTypeOffline p;;
      sret SOFTBUS_OK
  end.

(** ** Results of the authentication *)

Definition ProcessAuthKeyGenerated (para : AuthKeyGeneratedMsgPara) : SF World Z :=
  let* found := FindConnectionFsmByAuthId (k_authId para) in
  let* found := alive found in
  let* r := (match found with
             | Some p => sret (Some p)
             | None =>
                 let* r := StartNewConnectionFsm (k_addr para) in
                 match r with
                 | None => sret None
                 | Some p =>
                     upd p (fun c => c <| authId := k_authId para |>);;
                     upd p (set_flag LNN_CONN_INFO_FLAG_JOIN_PASSIVE);;
                     sret (Some p)
                 end
             end) in
  match r with
  | None => sret SOFTBUS_ERR
  | Some p =>
      upd p (fun c => c <| peerVersion := k_peerVersion para |>);;
      let* rc := LnnSendAuthKeyGenMsgToConnFsm mem p in
      if rc =? SOFTBUS_OK then sret SOFTBUS_OK
      else (if negb (bool_decide (is_Some found)) then StopConnectionFsm p else sret tt);; conn p;; sret SOFTBUS_ERR
  end.

Definition ProcessAuthDone (isSuccess : bool) (aid : Z) : SF World Z :=
  let* found := FindConnectionFsmByAuthId aid in
  let* r := alive found in
  match r with
  | None => sret SOFTBUS_ERR
  | Some p =>
      let* rc := LnnSendAuthResultMsgToConnFsm mem p isSuccess in
      sret (if rc =? SOFTBUS_OK then SOFTBUS_OK else SOFTBUS_ERR)
  end.

Definition ProcessSyncDeviceInfoDone (para : LnnRecvDeviceInfoMsgPara) : SF World Z :=
  let* found := FindConnectionFsmByAuthId (r_authId para) in
  let* r := alive found in
  match r with None => sret SOFTBUS_ERR | Some p => LnnSendPeerDevInfoToConnFsm mem p para end.

Definition ProcessDeviceNotTrusted (peerUdid : list Z) : SF World Z :=
  let* found := FindConnectionFsmByUdid peerUdid in
  let* r := alive found in
  match r with None => sret SOFTBUS_OK | Some p => LnnSendNotTrustedToConnFsm mem p end.

Definition ProcessAuthDisconnect (aid : Z) : SF World Z :=
  let* found := FindConnectionFsmByAuthId aid in
  let* r := alive found in
  match r with
  | None => sret SOFTBUS_OK
  | Some p => LnnSendDisconnectMsgToConnFsm mem p;; sret SOFTBUS_OK
  end.

(** ** Requests to leave *)

Definition ProcessLeaveLNNRequest (networkId : list Z) : SF World Z :=
  let* l := sgets fsmList in
  let* rc := sfold l SOFTBUS_ERR (fun rc p =>
    let* c := conn p in
    if negb (bool_decide (networkId = peerNetworkId c)) || isDead c then sret rc
    else
      let* r := LnnSendLeaveRequestToConnFsm mem p in
      if negb (r =? SOFTBUS_OK) then sret rc
      else upd p (set_flag LNN_CONN_INFO_FLAG_LEAVE_REQUEST);; sret SOFTBUS_OK) in
  (if negb (rc =? SOFTBUS_OK) then emit (LeaveResult (Some networkId) SOFTBUS_ERR) else sret tt);;
  sret rc.

Definition ProcessSyncOfflineFinish (networkId : list Z) : SF World Z :=
  let* l := sgets fsmList in
  sfold l SOFTBUS_OK (fun rc p =>
    let* c := conn p in
    if negb (bool_decide (networkId = peerNetworkId c)) || isDead c then sret rc
    else LnnSendSyncOfflineFinishToConnFsm mem p).

Definition IsInvalidConnectionFsm (c : LnnConnectionFsm) (msgPara : LeaveInvalidConnMsgPara) : bool :=
  if negb (bool_decide (oldNetworkId msgPara = peerNetworkId c)) || isDead c then false
  else if negb (l_addrType msgPara =? CONNECTION_ADDR_MAX) && negb (l_addrType msgPara =? a_type (addr c)) then false
  else if negb (has_flag c LNN_CONN_INFO_FLAG_ONLINE) then false
  else if has_flag c LNN_CONN_INFO_FLAG_INITIATE_ONLINE then false
  else true.

Definition ProcessLeaveInvalidConn (msgPara : LeaveInvalidConnMsgPara) : SF World Z :=
  let* l := sgets fsmList in
  sfold l SOFTBUS_OK (fun rc p =>
    let* c := conn p in
    if negb (IsInvalidConnectionFsm c msgPara) then sret rc
    else
      let* ok := ask mem in
      if negb ok then upd p (fun c => c <| cleanInfo := @None LnnInvalidCleanInfo |>);; sret rc
      else
        let '(copied, nid) := strncpy_s [] NETWORK_ID_BUF_LEN (newNetworkId msgPara) in
        if negb copied then upd p (fun c => c <| cleanInfo := @None LnnInvalidCleanInfo |>);; sret SOFTBUS_ERR
        else
          upd p (fun c => c <| cleanInfo := Some (mkClean (l_addrType msgPara) nid) |>);;
          let* rc := LnnSendLeaveRequestToConnFsm mem p in
          (if rc =? SOFTBUS_OK then
             upd p (set_flag LNN_CONN_INFO_FLAG_INITIATE_ONLINE);; upd p (set_flag LNN_CONN_INFO_FLAG_LEAVE_AUTO)
           else upd p (fun c => c <| cleanInfo := @None LnnInvalidCleanInfo |>));;
          sret rc).

Definition ProcessLeaveByAddrType (type : Z) : SF World Z :=
  let* l := sgets fsmList in
  let* notify := sfold l true (fun notify p =>
    let* c := conn p in
    if negb (a_type (addr c) =? type) then sret notify
    else if isDead c then sret false
    else
      let* rc := LnnSendLeaveRequestToConnFsm mem p in
      (if rc =? SOFTBUS_OK then upd p (set_flag LNN_CONN_INFO_FLAG_LEAVE_AUTO) else sret tt);;
      sret false) in
  (if notify : bool then emit (AllTypeOffline type) else sret tt);;
  sret SOFTBUS_OK.

(** ** Election of the master *)

Definition TryElectMasterNodeOnline (p : nat) : SF World Z :=
  let* localUdid := GetLocalMasterUdid in
  match localUdid with
  | None => sret SOFTBUS_ERR
  | Some localMasterUdid =>
      let* localW := GetLocalMasterWeight in
      match localW with
      | None => sret SOFTBUS_ERR
      | Some localMasterWeight =>
          let* c := conn p in
          let* env := ask lenv in
          let! (r1, b1) := on_ledger (LnnGetDLStrInfo signed_char env (Some (peerNetworkId c)) STRING_KEY_MASTER_NODE_UDID
                                        (Some []) UDID_BUF_LEN) in
          if negb (r1 =? SOFTBUS_OK) then sret SOFTBUS_ERR
          else
            let* env := ask lenv in
            let! (r2, b2) := on_ledger (LnnGetDLNumInfo signed_char env (Some (peerNetworkId c)) NUM_KEY_MASTER_NODE_WEIGHT
                                          (Some 0)) in
            if negb (r2 =? SOFTBUS_OK) then sret SOFTBUS_ERR
            else match b1, b2 with
                 | Some (BStr peerMasterUdid), Some (BInt peerMasterWeight) =>
                     if LnnCompareNodeWeight localMasterWeight localMasterUdid peerMasterWeight peerMasterUdid >=? 0
                     then sret SOFTBUS_OK
                     else
                       UpdateLocalMasterNode peerMasterUdid peerMasterWeight;;
                       SendElectMessageToAll (Some (peerNetworkId c));; sret SOFTBUS_OK
                 | _, _ => fault
                 end
      end
  end.

Definition TryElectMasterNodeOffline (p : nat) : SF World Z :=
  let* localMaster := GetLocalMasterUdid in
  match localMaster with
  | None => sret SOFTBUS_ERR
  | Some localMasterUdid =>
      let* u := GetLocalUdid in
      let localUdid := default [] u in
      if bool_decide (localMasterUdid = localUdid) then sret SOFTBUS_OK
      else
        let* c := conn p in
        let* weight := LnnGetLocalWeight in
        UpdateLocalMasterNode localUdid weight;;
        SendElectMessageToAll (Some (peerNetworkId c));; sret SOFTBUS_OK
  end.

Definition ProcessNodeStateChanged (a : ConnectionAddr) : SF World Z :=
  let* r := FindConnectionFsmByAddr a in
  match r with
  | None => sret SOFTBUS_ERR
  | Some p =>
      let* c := conn p in
      if peerVersion c <? SOFT_BUS_NEW_V1 then sret SOFTBUS_OK
      else
        let* isOnline := IsNodeOnline (peerNetworkId c) in
        if isOnline : bool then TryElectMasterNodeOnline p else TryElectMasterNodeOffline p
  end.

(** An election message of a node that is online is dropped. *)
Definition ProcessMasterElect (msgPara : ElectMsgPara) : SF World Z :=
  let* found := FindConnectionFsmByUdid (e_udid msgPara) in
  let* r := alive found in
  match r with
  | None => sret SOFTBUS_ERR
  | Some p =>
      let* c := conn p in
      let* online := IsNodeOnline (peerNetworkId c) in
      if online : bool then sret SOFTBUS_ERR
      else
        let* localUdid := GetLocalMasterUdid in
        match localUdid with
        | None => sret SOFTBUS_ERR
        | Some localMasterUdid =>
            let* localW := GetLocalMasterWeight in
            match localW with
            | None => sret SOFTBUS_ERR
            | Some localMasterWeight =>
                (if LnnCompareNodeWeight localMasterWeight localMasterUdid (e_masterWeight msgPara) (e_masterUdid msgPara) <? 0
                 then
                   UpdateLocalMasterNode (e_masterUdid msgPara) (e_masterWeight msgPara);;
                   SendElectMessageToAll (Some (peerNetworkId c))
                 else
                   LnnSyncLedgerItemInfo coin (peerNetworkId c) DISCOVERY_TYPE_UNKNOWN INFO_TYPE_MASTER_ELECT;; sret tt);;
                sret SOFTBUS_OK
            end
        end
  end.

(** [g_messageProcessor]. *)
Definition NetBuilderMessageHandler (m : NetBuilderMessageType) : SF World Z :=
  match m with
  | MSG_TYPE_JOIN_LNN a => ProcessJoinLNNRequest a
  | MSG_TYPE_DISCOVERY_DEVICE a => ProcessDevDiscoveryRequest a
  | MSG_TYPE_CLEAN_CONN_FSM n => ProcessCleanConnectionFsm n
  | MSG_TYPE_AUTH_KEY_GENERATED para => ProcessAuthKeyGenerated para
  | MSG_TYPE_AUTH_DONE ok aid => ProcessAuthDone ok aid
  | MSG_TYPE_SYNC_DEVICE_INFO_DONE para => ProcessSyncDeviceInfoDone para
  | MSG_TYPE_NOT_TRUSTED u => ProcessDeviceNotTrusted u
  | MSG_TYPE_DISCONNECT aid => ProcessAuthDisconnect aid
  | MSG_TYPE_LEAVE_LNN nid => ProcessLeaveLNNRequest nid
  | MSG_TYPE_SYNC_OFFLINE_FINISH nid => ProcessSyncOfflineFinish nid
  | MSG_TYPE_NODE_STATE_CHANGED a => ProcessNodeStateChanged a
  | MSG_TYPE_MASTER_ELECT para => ProcessMasterElect para
  | MSG_TYPE_LEAVE_INVALID_CONN para => ProcessLeaveInvalidConn para
  | MSG_TYPE_LEAVE_BY_ADDR_TYPE type => ProcessLeaveByAddrType type
  end.

(** ** Callbacks of the authentication ([g_verifyCb]) *)

(** Allocation of the data of a message, then its post. *)
Definition post_para (m : NetBuilderMessageType) : SF World unit :=
  let* ok := ask mem in
  if negb ok then sret tt else PostMessageToHandler mem m;; sret tt.

Definition GetCurrentConnectType : SF World (option Z) :=
  let* lock := local_lock in
  if negb lock then sret None
  else if starts_with LNN_WLAN_IF_NAME_PREFIX (l_ifName local) then sret (Some CONNECTION_ADDR_WLAN)
  else if starts_with LNN_ETH_IF_NAME_PREFIX (l_ifName local) then sret (Some CONNECTION_ADDR_ETH)
  else sret None.

Definition OnAuthKeyGenerated (aid : Z) (o : ConnectOption) (version : Z) : SF World unit :=
  let* ok := ask mem in
  if negb ok then sret tt
  else
    let* type := GetCurrentConnectType in
    match t ← type; LnnConvertOptionToAddr o t with
    | None => sret tt
    | Some a => PostMessageToHandler mem (MSG_TYPE_AUTH_KEY_GENERATED (mkKeyGen a aid version));; sret tt
    end.

Definition OnAuthFailed (aid : Z) : SF World unit := post_para (MSG_TYPE_AUTH_DONE false aid).
Definition OnAuthPassed (aid : Z) : SF World unit := post_para (MSG_TYPE_AUTH_DONE true aid).

(** [data] tells whether data was passed. *)
Definition OnRecvPeerDeviceInfo (aid : Z) (peerUuid : option (list Z)) (data : bool) : SF World unit :=
  match peerUuid with
  | None => sret tt
  | Some u =>
      if negb data then sret tt
      else
        let* ok := ask mem in
        if negb ok then sret tt
        else
          let '(copied, u) := strncpy_s [] UUID_BUF_LEN u in
          if negb copied then sret tt
          else PostMessageToHandler mem (MSG_TYPE_SYNC_DEVICE_INFO_DONE (mkRecv aid u));; sret tt
  end.

(** The buffer is as long as the text. *)
Definition OnDeviceNotTrusted (peerUdid : option (list Z)) : SF World unit :=
  match peerUdid with
  | None => sret tt
  | Some u =>
      let udidLen := i32 (Z.of_nat (length u) + 1) in
      let* ok := ask mem in
      if negb ok then sret tt
      else
        let '(copied, u) := strncpy_s [] udidLen u in
        if negb copied then sret tt else PostMessageToHandler mem (MSG_TYPE_NOT_TRUSTED u);; sret tt
  end.

Definition OnDisconnect (aid : Z) : SF World unit := post_para (MSG_TYPE_DISCONNECT aid).

(** ** Requests of the bus centre *)

(** [CreateConnectionAddrMsgPara] and [CreateNetworkIdMsgPara], and the post. *)
Definition request_addr (a : option ConnectionAddr) (m : ConnectionAddr -> NetBuilderMessageType) : SF World Z :=
  let* init := sgets isInit in
  if negb init then sret SOFTBUS_ERR
  else match a with None => sret SOFTBUS_MALLOC_ERR | Some a => request mem (m a) SOFTBUS_MALLOC_ERR end.
Definition request_networkId (n : option (list Z)) (m : list Z -> NetBuilderMessageType) : SF World Z :=
  let* init := sgets isInit in
  if negb init then sret SOFTBUS_ERR
  else match n with
       | None => sret SOFTBUS_MALLOC_ERR
       | Some n =>
           let* ok := ask mem in
           if negb ok then sret SOFTBUS_MALLOC_ERR
           else
             let '(copied, n) := strncpy_s [] NETWORK_ID_BUF_LEN n in
             if negb copied then sret SOFTBUS_MALLOC_ERR else PostMessageToHandler mem (m n)
       end.

Definition LnnServerJoin (a : option ConnectionAddr) : SF World Z := request_addr a MSG_TYPE_JOIN_LNN.
Definition LnnServerLeave (n : option (list Z)) : SF World Z := request_networkId n MSG_TYPE_LEAVE_LNN.
Definition LnnNotifyDiscoveryDevice (a : option ConnectionAddr) : SF World Z := request_addr a MSG_TYPE_DISCOVERY_DEVICE.
Definition LnnNotifySyncOfflineFinish (n : option (list Z)) : SF World Z := request_networkId n MSG_TYPE_SYNC_OFFLINE_FINISH.
Definition LnnNotifyNodeStateChanged (a : option ConnectionAddr) : SF World Z := request_addr a MSG_TYPE_NODE_STATE_CHANGED.

Definition LnnNotifyMasterElect (udid master : option (list Z)) (weight : Z) : SF World Z :=
  let* init := sgets isInit in
  if negb init then sret SOFTBUS_ERR
  else match udid, master with
       | Some u, Some m =>
           let* ok := ask mem in
           if negb ok then sret SOFTBUS_MEM_ERR
           else
             let '(ok1, u) := strncpy_s [] UDID_BUF_LEN u in
             let '(ok2, m) := strncpy_s [] UDID_BUF_LEN m in
             if negb ok1 || negb ok2 then sret SOFTBUS_ERR
             else PostMessageToHandler mem (MSG_TYPE_MASTER_ELECT (mkElect u m weight))
       | _, _ => sret SOFTBUS_INVALID_PARAM
       end.

Definition LnnRequestLeaveByAddrType (type : Z) : SF World Z := request mem (MSG_TYPE_LEAVE_BY_ADDR_TYPE type) SOFTBUS_MEM_ERR.

(** ** Start and end of the net builder *)

(** The uuid and the network id, which it also sets, are not kept; [LnnGenLocalNetworkId]
    and [LnnGenLocalUuid] are calls of another part. *)
Definition ConifgLocalLedger : SF World Z :=
  let* ok := ask coin in
  if negb ok then sret SOFTBUS_ERR
  else
    let* u := GetLocalUdid in
    SetLocalMasterUdid (default [] u);;
    let* weight := LnnGetLocalWeight in
    SetLocalMasterWeight weight;; sret SOFTBUS_OK.

(** [config] is the configured count of connections, if there is one. *)
Definition NetBuilderConfigInit (config : option Z) : SF World unit :=
  smodify (fun w : World => w <| maxConnCount := default DEFAULT_MAX_LNN_CONNECTION_COUNT config |>).

(** [AuthRegCallback] is a call of another part. *)
Definition RegisterAuthCallback : SF World Z :=
  let* ok := ask coin in sret (if ok : bool then SOFTBUS_OK else SOFTBUS_ERR).

Definition LnnInitNetBuilder (config : option Z) : SF World Z :=
  let* init := sgets isInit in
  if init : bool then sret SOFTBUS_OK
  else
    NetBuilderConfigInit config;;
    let* reg := RegisterAuthCallback in
    if negb (reg =? SOFTBUS_OK) then sret SOFTBUS_ERR
    else
      let* rc := ConifgLocalLedger in
      if negb (rc =? SOFTBUS_OK) then sret SOFTBUS_ERR
      else
        smodify (fun w : World => w <| fsmList := @nil nat |>);;
        let* looper := ask coin in
        if negb looper then sret SOFTBUS_ERR
        else smodify (fun w : World => w <| isInit := true |>);; sret SOFTBUS_OK.

Definition LnnDeinitNetBuilder : SF World unit :=
  let* init := sgets isInit in
  if negb init then sret tt
  else
    let* l := sgets fsmList in
    sfor l StopConnectionFsm;;
    smodify (fun w : World => w <| isInit := false |>).

(** ** Steps of the system *)

(** One message of the looper is handled. *)
Definition handle (x : Ext) (m : Msg) : SF World unit :=
  match m with
  | MStart p st => ProcessStartMessage signed_char mem coin lenv p st
  | MData p type para => ProcessDataMessage signed_char mem coin lenv x p type para
  | MStop p => ProcessStopMessage p
  | MDeinit p => ConnectionFsmDinitCallback p
  | MBuilder m => NetBuilderMessageHandler m;; sret tt
  end.

Inductive Event :=
  | Join (a : option ConnectionAddr)
  | Leave (networkId : option (list Z))
  | Discovery (a : option ConnectionAddr)
  | SyncOfflineFinish (networkId : option (list Z))
  | NodeStateChanged (a : option ConnectionAddr)
  | MasterElect (udid master : option (list Z)) (weight : Z)
  | LeaveByAddrType (type : Z)
  | KeyGenerated (aid : Z) (o : ConnectOption) (version : Z)
  | AuthFailed (aid : Z)
  | AuthPassed (aid : Z)
  | RecvPeerDeviceInfo (aid : Z) (peerUuid : option (list Z)) (data : bool)
  | NotTrusted (udid : option (list Z))
  | Disconnect (aid : Z)
  | Take (x : Ext)
  | Fire (n : nat).

(** [Take]: the looper takes its first message.  [Fire n]: the time of the [n]-th
    delayed message has come, and it is the last of those that wait. *)
Definition step (e : Event) : SF World unit :=
  match e with
  | Join a => LnnServerJoin a;; sret tt
  | Leave n => LnnServerLeave n;; sret tt
  | Discovery a => LnnNotifyDiscoveryDevice a;; sret tt
  | SyncOfflineFinish n => LnnNotifySyncOfflineFinish n;; sret tt
  | NodeStateChanged a => LnnNotifyNodeStateChanged a;; sret tt
  | MasterElect u m weight => LnnNotifyMasterElect u m weight;; sret tt
  | LeaveByAddrType type => LnnRequestLeaveByAddrType type;; sret tt
  | KeyGenerated aid o version => OnAuthKeyGenerated aid o version
  | AuthFailed aid => OnAuthFailed aid
  | AuthPassed aid => OnAuthPassed aid
  | RecvPeerDeviceInfo aid u data => OnRecvPeerDeviceInfo aid u data
  | NotTrusted u => OnDeviceNotTrusted u
  | Disconnect aid => OnDisconnect aid
  | Take x =>
      let* q := sgets queue in
      match q with
      | [] => sret tt
      | m :: q => smodify (fun w : World => w <| queue := q |>);; handle x m
      end
  | Fire n =>
      let* ts := sgets timers in
      match ts !! n with
      | None => sret tt
      | Some (p, type) =>
          smodify (fun w : World => w <| timers := delete n ts |>);;
          smodify (fun w : World => w <| queue := queue w ++ [MData p type PNull] |>)
      end
  end.

Definition run (es : list Event) : SF World unit := sfor es step.

End builder.

(** The state before [LnnInitNetBuilder]; the ledger was initialised before. *)
Definition world0 (L : Ledger) : World :=
  mkWorld L ∅ 1 [] 0 0 false 0 [] [] [] 0 None 0 [].

End LnnNetBuilder.
