(* ===== verification/LnnNetInv.v ===== *)
(** * The invariant of the net builder and its machines

    What holds of the world between two steps of the looper ([inv]), with the parts
    of the state that a statement follows as a ghost: the abstract ledger, what a
    listener has heard, the elected master and the list of connections.  While a
    machine runs, the invariant is open at it ([At]): its record and the timers it
    may have are known.  Every primitive of [LnnNet] has a rule on [At]. *)

From S2P Require Import Prelude StateFault LnnMap LnnNodeInfo LnnLedger LnnLedgerRel LnnLedgerSpec LnnLedgerOps LnnLedgerMain.
From S2P Require Import LnnNet LnnConnFsm.

Module LnnNetInv.
Import LnnNodeInfo LnnLedger LnnLedgerRel LnnLedgerSpec LnnLedgerOps LnnLedgerMain LnnNet LnnConnFsm.
#[local] Open Scope sf_scope.

(** ** Types of the data *)

Definition int64 (z : Z) : Prop := - 2 ^ 63 <= z < 2 ^ 63.

(** A record of a connection: its numbers and texts have their types, and clean
    information is there when the flag says so. *)
Record conn_ok (c : LnnConnectionFsm) : Prop := {
  co_auth : int64 (authId c);
  co_addr : chars (a_text (addr c)) = true;
  co_node : forall i, nodeInfo c = Some i -> typed_node i;
  co_clean : has_flag c LNN_CONN_INFO_FLAG_INITIATE_ONLINE = true -> is_Some (cleanInfo c) }.

Definition para_ok (a : Para) : Prop := match a with PInfo r => chars (r_uuid r) = true | _ => True end.
Definition builder_ok (m : NetBuilderMessageType) : Prop :=
  match m with
  | MSG_TYPE_JOIN_LNN a | MSG_TYPE_DISCOVERY_DEVICE a => chars (a_text a) = true
  | MSG_TYPE_AUTH_KEY_GENERATED p => chars (a_text (k_addr p)) = true /\ int64 (k_authId p)
  | MSG_TYPE_SYNC_DEVICE_INFO_DONE r => chars (r_uuid r) = true
  | MSG_TYPE_MASTER_ELECT e => fits UDID_BUF_LEN (e_masterUdid e) = true
  | _ => True
  end.
Definition msg_ok (m : Msg) : Prop :=
  match m with
  | MStart _ st => st = STATE_AUTH
  | MData _ _ a => para_ok a
  | MBuilder m => builder_ok m
  | _ => True
  end.
Definition ext_ok (x : Ext) : Prop :=
  int64 (x_verify x) /\ match x_parse x with Some i => node_typed i = true | None => True end.

(** ** The invariant *)

(** The machine a message is for. *)
Definition about (m : Msg) : option nat :=
  match m with MStart p _ | MData p _ _ | MStop p | MDeinit p => Some p | MBuilder _ => None end.

(** The end of a machine is the last message for it. *)
Definition ends (p : nat) (q : list Msg) : Prop :=
  exists l1 l2, q = l1 ++ (MDeinit p :: l2) /\ (MDeinit p ∉ l1) /\ Forall (fun m => about m <> Some p) l2.

(** The timers a machine may have. *)
Definition allowed (c : LnnConnectionFsm) : list StateMessageType :=
  if isDead c then []
  else match curState c with
       | Some STATE_AUTH | Some STATE_SYNC_DEVICE_INFO | Some STATE_CLEAN_INVALID_CONN => [FSM_MSG_TYPE_JOIN_LNN_TIMEOUT]
       | Some STATE_LEAVING => [FSM_MSG_TYPE_LEAVE_LNN_TIMEOUT]
       | _ => []
       end.

Definition told (o : Out) : option (list Z * Notice) := match o with Told u n => Some (u, n) | _ => None end.

Record Ghost := mkG { gA : ALedger; gH : gset (list Z); gU : list Z; gW : Z; gL : list nat }.
#[export] Instance Ghost_fields : Fields Ghost := {| ctor := mkG; projs := (gA, gH, gU, gW, gL) |}.

(** [k] more steps can be made before the identifiers of the machines wrap around;
    [x] is the machine whose timers are not as they must be yet. *)
Section inv.
Context (sc : bool).

Record inv (k : nat) (G : Ghost) (x : option nat) (w : World) : Prop := {
  i_rel : ledger_rel sc (ledger w) (gA G);
  i_room : room (gA G) (S k);
  i_heard : heard ∅ (omap told (out w)) = gH G;
  i_udid : masterUdid w = gU G;
  i_weight : masterWeight w = gW G;
  i_list : fsmList w = gL G;
  i_local : forall v, localWeight w = Some v -> 0 <= v <= 1000;
  i_ids : 0 <= connFsmId w /\ connFsmId w + Z.of_nat k < 2 ^ 16;
  i_count : connCount w = Z.of_nat (length (fsmList w)) /\ connCount w <= maxConnCount w < 2 ^ 31;
  i_nodup : NoDup (fsmList w);
  i_in : forall p, p ∈ fsmList w -> is_Some (heap w !! p);
  i_next : forall p c, heap w !! p = Some c -> (p < next w)%nat;
  i_conn : forall p c, heap w !! p = Some c -> conn_ok c;
  i_id : forall p c, heap w !! p = Some c -> 0 < id c <= connFsmId w;
  i_uniq : forall p q c d, heap w !! p = Some c -> heap w !! q = Some d -> id c = id d -> p = q;
  i_out : forall p c, heap w !! p = Some c -> p ∉ fsmList w -> isDead c = true /\ stopCallback c = true /\ ends p (queue w);
  i_about : forall m p, m ∈ queue w -> about m = Some p -> is_Some (heap w !! p);
  i_noend : forall p m, p ∈ fsmList w -> m ∈ queue w -> m <> MDeinit p /\ m <> MStop p;
  i_msgs : forall m, m ∈ queue w -> msg_ok m;
  i_clean : forall n, MBuilder (MSG_TYPE_CLEAN_CONN_FSM n) ∈ queue w ->
    n <= connFsmId w /\ forall p c, heap w !! p = Some c -> id c = n -> isDead c = true;
  i_timer : forall p t, (p, t) ∈ timers w -> exists c, heap w !! p = Some c /\ (x = Some p \/ t ∈ allowed c);
}.

(** A machine with [c] in its record runs, and its timers are among [ts]. *)
Record At (k : nat) (G : Ghost) (p : nat) (c : LnnConnectionFsm) (ts : list StateMessageType) (w : World) : Prop := {
  at_inv : inv k G (Some p) w;
  at_conn : heap w !! p = Some c;
  at_timer : forall t, (p, t) ∈ timers w -> t ∈ ts;
}.

Implicit Types (k : nat) (G : Ghost) (w : World) (p : nat) (c : LnnConnectionFsm) (ts : list StateMessageType).

Lemma at_open k G p c w : inv k G None w -> heap w !! p = Some c -> At k G p c (allowed c) w.
Proof.
  intros H Hc. split; [|done|].
  - destruct H. split; try done. intros q t Hq. destruct (i_timer0 q t Hq) as (d & Hd & [?|?]); [done|]. eauto.
  - intros t Ht. destruct (i_timer _ _ _ _ H p t Ht) as (d & Hd & [?|?]); [done|]. congruence.
Qed.

Lemma at_close k G p c ts w : At k G p c ts w -> ts ⊆ allowed c -> inv k G None w.
Proof.
  intros [H Hc Ht] Hts. destruct H. split; try done. intros q t Hq. destruct (i_timer0 q t Hq) as (d & Hd & [E|?]); [|eauto].
  injection E as <-. exists d. split; [done|right]. replace d with c by congruence. auto.
Qed.

Lemma at_ok k G p c ts w : At k G p c ts w -> conn_ok c.
Proof. intros [H Hc _]. by eapply i_conn. Qed.
Lemma at_alive k G p c ts w : At k G p c ts w -> isDead c = false -> p ∈ gL G.
Proof.
  intros [H Hc _] Hd. rewrite <- (i_list _ _ _ _ H). destruct (decide (p ∈ fsmList w)) as [|Hn]; [done|].
  destruct (i_out _ _ _ _ H p c Hc Hn). congruence.
Qed.
Lemma inv_le k k' G x w : (k' <= k)%nat -> inv k G x w -> inv k' G x w.
Proof. intros Hk []. split; try done; [by eapply room_le, i_room0; lia|lia]. Qed.
Lemma at_le k k' G p c ts w : (k' <= k)%nat -> At k G p c ts w -> At k' G p c ts w.
Proof. intros Hk []. split; try done. by eapply inv_le. Qed.

(** ** Parts of the world that the invariant does not see, and the outputs *)

Lemma inv_tick k G x w n : inv k G x w -> inv k G x (w <| tick := n |>).
Proof. intros []. by split. Qed.
Lemma at_tick k G p c ts w n : At k G p c ts w -> At k G p c ts (w <| tick := n |>).
Proof. intros []. split; try done. by apply inv_tick. Qed.

Lemma inv_emit k G x w o : told o = None -> inv k G x w -> inv k G x (w <| out := out w ++ [o] |>).
Proof. intros Ho []. split; try done. cbn [out]. rewrite omap_app. cbn [omap list_omap]. by rewrite Ho, app_nil_r. Qed.
Lemma inv_told k G x w u n : inv k G x w -> inv k (G <| gH := hear (gH G) (u, n) |>) x (w <| out := out w ++ [Told u n] |>).
Proof.
  intros []. split; try done. cbn [out gH]. rewrite omap_app. cbn [omap list_omap told]. unfold heard in *.
  by rewrite foldl_app, i_heard0.
Qed.

(** ** The ledger *)

Lemma inv_ledger k G x w L' A' k' : inv k G x w -> (k' <= k)%nat -> ledger_rel sc L' A' -> room A' (S k') ->
  inv k' (G <| gA := A' |>) x (w <| ledger := L' |>).
Proof. intros [] Hk HR Hr. split; try done; cbn. lia. Qed.

(** ** Machines *)

(** What a change of the record of a machine keeps. *)
Definition keeps (c c' : LnnConnectionFsm) : Prop :=
  conn_ok c' /\ id c' = id c /\ stopCallback c' = stopCallback c /\ (isDead c = true -> isDead c' = true).

Lemma inv_upd k G w p c c' : inv k G (Some p) w -> heap w !! p = Some c -> keeps c c' ->
  inv k G (Some p) (w <| heap := <[p := c']> (heap w) |>).
Proof.
  intros H Hc (Hok & Hid & Hst & Hd).
  assert (forall q d', <[p := c']> (heap w) !! q = Some d' -> exists d, heap w !! q = Some d /\ keeps d d') as Hl.
  { intros q d'. rewrite lookup_insert_Some. intros [[<- <-]|[_ Hq]]; [by exists c|]. exists d'. split; [done|].
    split; [by eapply i_conn|done]. }
  destruct H. split; try done; cbn.
  - intros q Hq. destruct (i_in0 q Hq). by apply lookup_insert_is_Some'; right.
  - intros q d' (d & Hq & _)%Hl. by eapply i_next0.
  - by intros q d' (d & Hq & Hk & _)%Hl.
  - intros q d' (d & Hq & _ & E & _)%Hl. rewrite E. by eapply i_id0.
  - intros q q' d d' (e & He & _ & E & _)%Hl (e' & He' & _ & E' & _)%Hl Hi. apply (i_uniq0 q q' e e'); congruence.
  - intros q d' (d & Hq & _ & _ & E & Hdd)%Hl Hn. destruct (i_out0 q d Hq Hn) as (? & ? & ?). rewrite E. auto.
  - intros m q Hm Hq. apply lookup_insert_is_Some'. right. by eapply i_about0.
  - intros n Hn. destruct (i_clean0 n Hn) as [? Hdead]. split; [done|]. intros q d' (d & Hq & _ & E & _ & Hdd)%Hl Hi.
    apply Hdd, (Hdead q d Hq). congruence.
  - intros q t Hq. destruct (i_timer0 q t Hq) as (d & Hd' & Hx). destruct (decide (q = p)) as [->|Hne].
    + exists c'. rewrite lookup_insert_eq. auto.
    + exists d. by rewrite lookup_insert_ne.
Qed.

Lemma at_upd k G p c c' ts w : At k G p c ts w -> keeps c c' -> At k G p c' ts (w <| heap := <[p := c']> (heap w) |>).
Proof. intros [] Hk. split; [by eapply inv_upd|by apply lookup_insert_eq|done]. Qed.

Lemma flag_cleared a f g : (Z.land a g =? 0) = true -> (Z.land (Z.ldiff a f) g =? 0) = true.
Proof.
  rewrite !Z.eqb_eq. intros H. rewrite Z.ldiff_land, <- Z.land_assoc, (Z.land_comm (Z.lnot f)), Z.land_assoc, H.
  apply Z.land_0_l.
Qed.
Lemma flag_set a f g : Z.land f g = 0 -> Z.land (Z.lor a f) g = Z.land a g.
Proof. intros H. by rewrite Z.land_lor_distr_l, H, Z.lor_0_r. Qed.

Lemma keeps_clear f c : conn_ok c -> keeps c (clear_flag f c).
Proof.
  intros []. split_and!; try done. split; try done. unfold has_flag in *. cbn [flag clear_flag cleanInfo].
  intros H. apply co_clean0. destruct (Z.land (flag c) _ =? 0) eqn:E; [|done]. apply (flag_cleared _ f) in E.
  cbn in H. by rewrite E in H.
Qed.
Lemma keeps_set f c : Z.land f LNN_CONN_INFO_FLAG_INITIATE_ONLINE = 0 -> conn_ok c -> keeps c (set_flag f c).
Proof. intros Hf []. split_and!; try done. split; try done. unfold has_flag, set_flag in *. cbn [flag cleanInfo]. by rewrite flag_set. Qed.
Lemma keeps_state st c : conn_ok c -> keeps c (c <| curState := st |>).
Proof. intros []. by split_and!. Qed.
Lemma keeps_running b c : conn_ok c -> keeps c (c <| running := b |>).
Proof. intros []. by split_and!. Qed.
Lemma keeps_dead c : conn_ok c -> keeps c (c <| isDead := true |>).
Proof. intros []. by split_and!. Qed.
Lemma keeps_node i c : conn_ok c -> (forall n, i = Some n -> typed_node n) -> keeps c (c <| nodeInfo := i |>).
Proof. intros [] Hi. by split_and!. Qed.
Lemma keeps_nonode c : conn_ok c -> keeps c (c <| nodeInfo := @None NodeInfo |>).
Proof. intros H. by apply keeps_node. Qed.
Lemma keeps_auth a c : conn_ok c -> int64 a -> keeps c (c <| authId := a |>).
Proof. intros [] Hi. by split_and!. Qed.
Lemma keeps_netid n c : conn_ok c -> keeps c (c <| peerNetworkId := n |>).
Proof. intros []. by split_and!. Qed.
Lemma keeps_version n c : conn_ok c -> keeps c (c <| peerVersion := n |>).
Proof. intros []. by split_and!. Qed.

(** ** Messages and timers *)

Lemma ends_app p q m : ends p q -> about m <> Some p -> ends p (q ++ [m]).
Proof.
  intros (l1 & l2 & -> & H1 & H2) Hm. exists l1, (l2 ++ [m]). split_and!; [by rewrite <- app_assoc|done|].
  apply Forall_app. by split; [|constructor].
Qed.

(** A message is posted: to a machine that is not dead, or to the net builder. *)
Definition post_ok (w : World) (m : Msg) : Prop :=
  msg_ok m /\
  match m with
  | MStart p _ | MData p _ _ => exists c, heap w !! p = Some c /\ isDead c = false
  | MBuilder (MSG_TYPE_CLEAN_CONN_FSM n) => exists p c, heap w !! p = Some c /\ id c = n /\ isDead c = true
  | MBuilder _ => True
  | _ => False
  end.

Lemma inv_post k G x w m : inv k G x w -> post_ok w m -> inv k G x (w <| queue := queue w ++ [m] |>).
Proof.
  intros H [Hm Hp]. pose proof H as []. split; try done; cbn [queue heap fsmList connFsmId timers].
  - intros p c Hc Hn. destruct (i_out0 p c Hc Hn) as (Hd & Hs & He). split_and!; [done|done|]. apply ends_app; [done|].
    destruct m; cbn in *; try done; intros [= ->]; destruct Hp as (? & ? & ?); congruence.
  - intros m' p [Hin|Hin]%elem_of_app Ha; [by eapply i_about0|]. apply list_elem_of_singleton in Hin as ->.
    destruct m; cbn in Ha; try done; injection Ha as ->; destruct Hp as (? & ? & ?); eauto.
  - intros p m' Hq [Hin|Hin]%elem_of_app; [by eapply i_noend0|]. apply list_elem_of_singleton in Hin as ->. by destruct m.
  - intros m' [Hin|Hin]%elem_of_app; [by apply i_msgs0|]. by apply list_elem_of_singleton in Hin as ->.
  - intros n [Hin|Hin]%elem_of_app; [by apply i_clean0|]. apply list_elem_of_singleton in Hin as <-.
    destruct Hp as (p & c & Hc & <- & Hd). split; [by eapply i_id0|]. intros q d Hq E.
    assert (q = p) as -> by (by eapply i_uniq0). congruence.
Qed.

Lemma at_post k G p c ts w m : At k G p c ts w -> post_ok w m -> At k G p c ts (w <| queue := queue w ++ [m] |>).
Proof. intros [] Hk. split; try done. by apply inv_post. Qed.

Lemma at_delay k G p c ts w t : At k G p c ts w -> At k G p c (t :: ts) (w <| timers := timers w ++ [(p, t)] |>).
Proof.
  intros [H Hc Ht]. split; [|done|].
  - pose proof H as []. split; try done. cbn [timers heap]. intros q t' [Hq|Hq]%elem_of_app; [by apply i_timer0|].
    apply list_elem_of_singleton in Hq as [= -> ->]. eauto.
  - cbn [timers]. intros t' [Hq|Hq]%elem_of_app; [by right; apply Ht|]. apply list_elem_of_singleton in Hq as [= ->]. left.
Qed.

Lemma ends_filter p q (f : Msg -> bool) : (forall m, f m = true -> exists r t a, m = MData r t a) -> ends p q ->
  ends p (filter (fun m => f m = false) q).
Proof.
  intros Hf (l1 & l2 & -> & H1 & H2). exists (filter (fun m => f m = false) l1), (filter (fun m => f m = false) l2). split_and!.
  - rewrite filter_app, filter_cons, decide_True; [done|]. destruct (f (MDeinit p)) eqn:E; [|done].
    by destruct (Hf _ E) as (? & ? & ? & ?).
  - by intros [_ ?]%list_elem_of_filter.
  - apply Forall_forall. intros m [_ Hm]%list_elem_of_filter. by eapply Forall_forall in H2.
Qed.

Lemma at_remove k G p c ts w t : At k G p c ts w ->
  At k G p c (filter (fun t' => t' <> t) ts)
    (w <| queue := filter (fun m => is_data p t m = false) (queue w) |> <| timers := filter (fun x => x <> (p, t)) (timers w) |>).
Proof.
  intros [H Hc Ht]. split; [|done|].
  - pose proof H as []. split; try done; cbn [queue heap fsmList connFsmId timers].
    + intros q d Hd Hn. destruct (i_out0 q d Hd Hn) as (? & ? & ?). split_and!; [done|done|]. apply ends_filter; [|done].
      intros m. destruct m; try done. eauto.
    + intros m q [_ Hm]%list_elem_of_filter. by apply i_about0.
    + intros q m Hq [_ Hm]%list_elem_of_filter. by eapply i_noend0.
    + intros m [_ Hm]%list_elem_of_filter. by apply i_msgs0.
    + intros n [_ Hm]%list_elem_of_filter. by apply i_clean0.
    + intros q t' [_ Hq]%list_elem_of_filter. by apply i_timer0.
  - cbn [timers]. intros t' [Hne Hq]%list_elem_of_filter. apply list_elem_of_filter. split; [congruence|auto].
Qed.

(** ** Rules for the primitives *)

Context (mem : nat -> bool) (Hmem : forall n, mem n = true).

Lemma wps_ask {B} (f : nat -> B) (Q : B -> World -> Prop) w : Q (f (tick w)) (w <| tick := S (tick w) |>) -> wps (ask f) Q w.
Proof. done. Qed.

Lemma wat_conn k G p c ts w (Q : LnnConnectionFsm -> World -> Prop) : At k G p c ts w -> Q c w -> wps (conn p) Q w.
Proof. intros [_ Hc _] HQ. unfold wps, conn. by rewrite Hc. Qed.
Lemma wat_upd k G p c ts w f (Q : unit -> World -> Prop) : At k G p c ts w -> keeps c (f c) ->
  (forall w', At k G p (f c) ts w' -> Q tt w') -> wps (upd p f) Q w.
Proof. intros H Hk HQ. unfold wps, upd. rewrite (at_conn _ _ _ _ _ _ H). cbn. apply HQ. by eapply at_upd. Qed.
Lemma wat_ask {B} k G p c ts w (f : nat -> B) (Q : B -> World -> Prop) : At k G p c ts w ->
  (forall n w', At k G p c ts w' -> Q (f n) w') -> wps (ask f) Q w.
Proof. intros H HQ. apply wps_ask, HQ. by apply at_tick. Qed.
Lemma wat_emit k G p c ts w o (Q : unit -> World -> Prop) : At k G p c ts w -> told o = None ->
  (forall w', At k G p c ts w' -> Q tt w') -> wps (emit o) Q w.
Proof. intros [] Ho HQ. apply wps_modify, HQ. split; try done. by apply inv_emit. Qed.

(** What a machine posts: messages for itself while it is not dead, and requests. *)
Definition may_post (p : nat) (c : LnnConnectionFsm) (m : Msg) : Prop :=
  msg_ok m /\
  match m with
  | MStart q _ | MData q _ _ => q = p /\ isDead c = false
  | MBuilder (MSG_TYPE_CLEAN_CONN_FSM n) => n = id c /\ isDead c = true
  | MBuilder _ => True
  | _ => False
  end.
Lemma may_post_ok k G p c ts w m : At k G p c ts w -> may_post p c m -> post_ok w m.
Proof.
  intros [_ Hc _] [Hm Hp]. split; [done|]. destruct m as [q| | | |[]]; try done; destruct Hp as [-> ?]; eauto.
Qed.

Lemma wat_looper k G p c ts w m (Q : unit -> World -> Prop) : At k G p c ts w -> may_post p c m ->
  (forall w', At k G p c ts w' -> Q tt w') -> wps (looper_post mem m) Q w.
Proof.
  intros H Hm HQ. unfold looper_post. apply wps_bind. eapply wat_ask; [done|]. intros n w' H'. cbv beta. rewrite Hmem.
  apply wps_modify, HQ. apply at_post; [done|]. by eapply may_post_ok.
Qed.
Lemma wat_post k G p c ts w m (Q : Z -> World -> Prop) : At k G p c ts w -> may_post p c m ->
  (forall w', At k G p c ts w' -> Q SOFTBUS_OK w') -> wps (PostMessageToFsm mem m) Q w.
Proof.
  intros H Hm HQ. unfold PostMessageToFsm. apply wps_bind. eapply wat_ask; [done|]. intros n w' H'. cbv beta. rewrite Hmem.
  apply wps_bind. eapply wat_looper; [done|done|]. intros w2 H2. by apply wps_ret, HQ.
Qed.
Lemma wat_post_self k G p c ts w t a (Q : Z -> World -> Prop) : At k G p c ts w -> isDead c = false -> para_ok a ->
  (forall w', At k G p c ts w' -> Q SOFTBUS_OK w') -> wps (LnnFsmPostMessage mem p t a) Q w.
Proof. intros H Hd Ha HQ. unfold LnnFsmPostMessage. apply wps_bind. eapply wat_conn; [done|]. by eapply wat_post. Qed.
Lemma wat_handler k G p c ts w m (Q : Z -> World -> Prop) : At k G p c ts w -> may_post p c (MBuilder m) ->
  (forall w', At k G p c ts w' -> Q SOFTBUS_OK w') -> wps (PostMessageToHandler mem m) Q w.
Proof.
  intros H Hm HQ. unfold PostMessageToHandler. apply wps_bind. eapply wat_ask; [done|]. intros n w' H'. cbv beta. rewrite Hmem.
  apply wps_bind. eapply wat_looper; [done|done|]. intros w2 H2. by apply wps_ret, HQ.
Qed.
Lemma wat_clean k G p c ts w n (Q : Z -> World -> Prop) : At k G p c ts w -> isDead c = true -> n = id c ->
  (forall r w', At k G p c ts w' -> Q r w') -> wps (LnnRequestCleanConnFsm mem n) Q w.
Proof.
  intros H Hd -> HQ. unfold LnnRequestCleanConnFsm, request. apply wps_bind, wps_gets. case_if; [by apply wps_ret, HQ|].
  apply wps_bind. eapply wat_ask; [done|]. intros n w' H'. cbv beta. rewrite Hmem. eapply wat_handler; [done|done|auto].
Qed.
Lemma wat_invalid k G p c ts w old t new (Q : Z -> World -> Prop) : At k G p c ts w ->
  (forall r w', At k G p c ts w' -> Q r w') -> wps (LnnRequestLeaveInvalidConn mem old t new) Q w.
Proof.
  intros H HQ. unfold LnnRequestLeaveInvalidConn. apply wps_bind, wps_gets. case_if; [by apply wps_ret, HQ|].
  apply wps_bind. eapply wat_ask; [done|]. intros n w' H'. cbv beta. rewrite Hmem. cbn [negb].
  destruct (strncpy_s [] _ old) as [? ?], (strncpy_s [] _ new) as [? ?]. case_if; [by apply wps_ret, HQ|].
  eapply wat_handler; [done|done|auto].
Qed.
Lemma wat_delay k G p c ts w t (Q : Z -> World -> Prop) : At k G p c ts w ->
  (forall w', At k G p c (t :: ts) w' -> Q SOFTBUS_OK w') -> wps (LnnFsmPostMessageDelay mem p t) Q w.
Proof.
  intros H HQ. unfold LnnFsmPostMessageDelay. apply wps_bind. eapply wat_conn; [done|]. apply wps_bind.
  eapply wat_ask; [done|]. intros n w' H'. cbv beta. rewrite Hmem. cbn [negb]. apply wps_bind.
  eapply wat_ask; [done|]. intros n' w2 H2. cbv beta. rewrite Hmem. apply wps_bind, wps_modify, wps_ret, HQ. by apply at_delay.
Qed.
Lemma wat_remove k G p c ts w t (Q : unit -> World -> Prop) : At k G p c ts w -> t <> FSM_MSG_TYPE_JOIN_LNN ->
  (forall w', At k G p c (filter (fun t' => t' <> t) ts) w' -> Q tt w') -> wps (LnnFsmRemoveMessage p t) Q w.
Proof.
  intros H Ht HQ. unfold LnnFsmRemoveMessage. apply wps_bind. eapply wat_conn; [done|]. rewrite bool_decide_eq_false_2 by done.
  apply wps_bind, wps_modify, wps_modify, HQ. exact (at_remove k G p c ts w t H).
Qed.

(** A computation on the ledger. *)
Lemma wps_on_ledger {B} (m : SF Ledger B) (Q : B -> World -> Prop) w :
  wps m (fun b L => Q b (w <| ledger := L |>)) (ledger w) -> wps (on_ledger m) Q w.
Proof. unfold wps, on_ledger. by destruct (m (ledger w)) as [[b L]|]. Qed.
Lemma wps_read_ledger {B} (m : SF Ledger B) (P : B -> Prop) (Q : B -> World -> Prop) w :
  wps m (fun b L => L = ledger w /\ P b) (ledger w) -> (forall b, P b -> Q b w) -> wps (on_ledger m) Q w.
Proof.
  intros H HQ. apply wps_on_ledger. eapply wps_mono; [exact H|]. intros b L [-> Hb]. destruct w. by apply HQ.
Qed.
Lemma wat_ledger k k' G p c ts w L' A' : At k G p c ts w -> (k' <= k)%nat -> ledger_rel sc L' A' -> room A' (S k') ->
  At k' (G <| gA := A' |>) p c ts (w <| ledger := L' |>).
Proof. intros [] Hk HR Hr. split; try done. by eapply inv_ledger. Qed.

Lemma wps_tell k G p c ts w xs (Q : unit -> World -> Prop) : At k G p c ts w ->
  (forall w', At k (G <| gH := heard (gH G) xs |>) p c ts w' -> Q tt w') -> wps (tell xs) Q w.
Proof.
  unfold tell. revert G w. induction xs as [|[u n] xs IH]; intros G w H HQ; cbn [sfor].
  - apply wps_ret, HQ. by destruct G.
  - apply wps_bind, wps_modify. cbn [fst snd]. eapply (IH (G <| gH := hear (gH G) (u, n) |>)); [|exact HQ].
    destruct H. split; try done. by apply inv_told.
Qed.

(** A search by identifier reads only. *)
Lemma wps_node_by_id k G x w it s t (Q : option NodeInfo -> World -> Prop) : inv k G x w ->
  (forall r, (forall i, r = Some i -> typed_node i) -> Q r w) -> wps (node_by_id sc it (Some s) t) Q w.
Proof.
  intros H HQ. unfold node_by_id. eapply wps_read_ledger; [|exact HQ]. apply wps_bind. pose proof (i_rel _ _ _ _ H) as HR.
  eapply wps_find; [done|by eapply room_le, i_room; [lia|done]|]. intros r Hr. destruct r as [u|]; cbn; [|by apply wps_ret].
  destruct (finds_some (ledger w) _ _ _ _ _ Hr) as [n Hn]. apply wps_bind. eapply wps_load; [done|done|]. apply wps_ret.
  split; [done|]. intros i [= <-]. by apply (lr_typed _ _ _ HR u).
Qed.

End inv.
End LnnNetInv.
