(* ===== verification/LnnNetFsm.v ===== *)
(** * The machines of the connections keep the invariant

    Every message of a machine, in every state, ends without a fault in a world that
    satisfies the invariant again, with the listeners told of every change of the
    ledger.  The one exception is a node that is not there when a connection is
    cleaned of invalid ones or goes online, which [has_node] excludes. *)

From S2P Require Import Prelude StateFault LnnMap LnnNodeInfo LnnLedger LnnLedgerRel LnnLedgerSpec LnnLedgerOps LnnLedgerMain.
From S2P Require Import LnnNet LnnConnFsm LnnNetInv.

Module LnnNetFsm.
Import LnnNodeInfo LnnLedger LnnLedgerRel LnnLedgerSpec LnnLedgerOps LnnLedgerMain LnnNet LnnConnFsm LnnNetInv.
#[local] Open Scope sf_scope.

(** What a listener believes is what the ledger holds. *)
Definition good (G : Ghost) : Prop := gH G = online_ids (gA G).
(** The master and the list of connections are as before. *)
Definition stays (G G' : Ghost) : Prop := gU G' = gU G /\ gW G' = gW G /\ gL G' = gL G.

(** The environment of a ledger call: the mutex can be taken, and bucket arrays grow. *)
Definition env_ok (e : Env) : Prop := e_lock e = true /\ e_resize e = true /\ e_code_resize e = true.

(** The node that the message needs. *)
Definition has_node (c : LnnConnectionFsm) (t : StateMessageType) : Prop :=
  curState c = Some STATE_CLEAN_INVALID_CONN ->
  (t = FSM_MSG_TYPE_LEAVE_INVALID_CONN \/ (t = FSM_MSG_TYPE_INITIATE_ONLINE /\ isDead c = false)) -> is_Some (nodeInfo c).

Section fsm.
Context (sc : bool) (mem coin : nat -> bool) (lenv : nat -> Env).
Context (Hmem : forall n, mem n = true) (Henv : forall n, env_ok (lenv n)).

Implicit Types (k : nat) (G : Ghost) (w : World) (p : nat) (c : LnnConnectionFsm) (ts : list StateMessageType).

Definition fin k G w : Prop := exists G', inv sc k G' None w /\ good G' /\ stays G G'.

Lemma stays_refl G : stays G G.
Proof. done. Qed.
Lemma fin_at k G p c ts w : At sc (S k) G p c ts w -> good G -> ts ⊆ allowed c -> fin k G w.
Proof. intros H HG Hts. exists G. split_and!; try done. eapply inv_le, at_close; [|done|done]. lia. Qed.
Lemma fin_at_k k G p c ts w : At sc k G p c ts w -> good G -> ts ⊆ allowed c -> fin k G w.
Proof. intros H HG Hts. exists G. split_and!; try done. by eapply at_close. Qed.
Lemma fin_stays k G G' w : fin k G' w -> stays G G' -> fin k G w.
Proof. intros (G2 & H & HG & ? & ? & ?) (? & ? & ?). exists G2. split_and!; try done. split_and!; congruence. Qed.

Lemma at_ts k G p c ts ts' w : At sc k G p c ts w -> ts ⊆ ts' -> At sc k G p c ts' w.
Proof. intros [] Ht. split; auto. Qed.

(** One rule for the head of the computation of a machine. *)
#[local] Hint Resolve keeps_clear keeps_state keeps_running keeps_dead keeps_netid keeps_version keeps_nonode at_ok : core.
Ltac at_step :=
  cbv beta zeta;
  lazymatch goal with
  | |- wps (sbind _ _) _ _ => apply wps_bind
  | |- wps (sret _) _ _ => apply wps_ret
  | |- wps (conn _) _ _ => eapply wat_conn; [eassumption|]
  | |- wps (emit _) _ _ => eapply wat_emit; [eassumption|reflexivity|]; intros
  | |- wps (ask _) _ _ => eapply wat_ask; [eassumption|]; intros
  | |- wps (upd _ _) _ _ => eapply wat_upd; [eassumption|solve [eauto]|]; intros
  | |- wps (LnnFsmPostMessageDelay _ _ _) _ _ => eapply wat_delay; [exact Hmem|eassumption|]; intros
  | |- wps (LnnFsmRemoveMessage _ _) _ _ => eapply wat_remove; [eassumption|discriminate|]; intros
  end.

Ltac at_steps := repeat at_step.

Lemma check_dead c : CheckDeadFlag c true = isDead c.
Proof. unfold CheckDeadFlag. by destruct (isDead c). Qed.

Lemma wat_join_result k G p c ts w nid r (Q : unit -> World -> Prop) : At sc k G p c ts w ->
  (forall w', At sc k G p (clear_flag LNN_CONN_INFO_FLAG_JOIN_ACTIVE c) ts w' -> Q tt w') ->
  wps (NotifyJoinResult p nid r) Q w.
Proof.
  intros H HQ. unfold NotifyJoinResult. do 2 at_step. apply wps_bind.
  assert (forall w', At sc k G p c ts w' -> wps (upd p (clear_flag LNN_CONN_INFO_FLAG_JOIN_ACTIVE)) Q w') as Hu.
  { intros w' H'. eapply wat_upd; [done|eauto|done]. }
  case_if; at_step; auto.
Qed.
Lemma wat_leave_result k G p c ts w nid r (Q : unit -> World -> Prop) : At sc k G p c ts w ->
  (forall w', At sc k G p (clear_flag LNN_CONN_INFO_FLAG_LEAVE_ACTIVE c) ts w' -> Q tt w') ->
  wps (NotifyLeaveResult p nid r) Q w.
Proof.
  intros H HQ. unfold NotifyLeaveResult. do 2 at_step. apply wps_bind.
  assert (forall w', At sc k G p c ts w' -> wps (upd p (clear_flag LNN_CONN_INFO_FLAG_LEAVE_ACTIVE)) Q w') as Hu.
  { intros w' H'. eapply wat_upd; [done|eauto|done]. }
  case_if; at_step; auto.
Qed.

Lemma filter_gone (t : StateMessageType) ts : ts ⊆ [t] -> filter (fun t' => t' <> t) ts = [].
Proof.
  intros H. destruct (filter _ ts) as [|x l] eqn:E; [done|].
  assert (x ∈ filter (fun t' => t' <> t) ts) as [Hx Hin]%list_elem_of_filter by (rewrite E; left).
  apply H, list_elem_of_singleton in Hin. done.
Qed.

(** A join that fails leaves a dead machine without timers. *)
Lemma wat_join_fails k G p c ts w nid (Q : unit -> World -> Prop) : At sc k G p c ts w -> ts ⊆ [FSM_MSG_TYPE_JOIN_LNN_TIMEOUT] ->
  (forall w' c', At sc k G p c' [] w' -> isDead c' = true -> Q tt w') ->
  wps (CompleteJoinLNN sc mem lenv p nid SOFTBUS_ERR) Q w.
Proof.
  intros H Hts HQ. unfold CompleteJoinLNN. do 2 at_step. rewrite (filter_gone _ _ Hts) in *. cbn [Z.eqb SOFTBUS_ERR SOFTBUS_OK].
  do 2 apply wps_bind. eapply wat_join_result; [done|]. intros w1 H1. at_steps. cbn [negb]. at_steps.
  eapply wat_clean; [exact Hmem|eassumption|done|done|]. intros r w6 H6. at_step. by eapply HQ.
Qed.

(** A join that succeeds leaves no timers and tells the listeners what it changed. *)
Lemma wat_online k G p c ts w i nid (Q : unit -> World -> Prop) : At sc (S k) G p c ts w -> good G ->
  ts ⊆ [FSM_MSG_TYPE_JOIN_LNN_TIMEOUT] -> nodeInfo c = Some i ->
  (forall w' G' c', At sc k G' p c' [] w' -> good G' -> stays G G' -> Q tt w') ->
  wps (CompleteJoinLNN sc mem lenv p nid SOFTBUS_OK) Q w.
Proof.
  intros H HG Hts Hi HQ. pose proof (co_node _ (at_ok _ _ _ _ _ _ _ H) i Hi) as Hty.
  unfold CompleteJoinLNN. do 2 at_step. rewrite (filter_gone _ _ Hts) in *. cbn [Z.eqb SOFTBUS_OK negb].
  apply wps_bind. unfold join_online. do 2 at_step. rewrite Hi. do 2 at_step. apply wps_bind, wps_on_ledger.
  destruct (Henv n) as (Hl & Hr & Hcr). pose proof (i_rel _ _ _ _ _ (at_inv _ _ _ _ _ _ _ H1)) as HR.
  pose proof (i_room _ _ _ _ _ (at_inv _ _ _ _ _ _ _ H1)) as Hroom.
  eapply wps_add; [done|by eapply room_le, Hroom; lia|split_and!; [done|done|by apply node_typed_iff]|done|].
  intros L' A' HR' Hg EA. apply (wat_ledger _ _ k _ _ _ _ _ L' A') in H1; [|lia|done|by eapply grows_room].
  apply wps_bind. eapply wat_upd; [exact H1|apply keeps_node; [eauto|]|].
  { intros m [= <-]. apply added_typed; [done|]. intros o Ho. by apply (lr_typed _ _ _ HR (udid_of i)). }
  intros w2 H2. apply wps_bind. eapply wat_join_result; [exact H2|]. intros w3 H3. do 2 at_step. apply wps_bind. eapply wps_read_ledger.
  { eapply report_tracks; [exact (i_rel _ _ _ _ _ (at_inv _ _ _ _ _ _ _ H4))| |by apply (Henv n0)|exact EA].
    eapply room_le, (i_room _ _ _ _ _ (at_inv _ _ _ _ _ _ _ H4)). lia. }
  intros ns Eh. cbv beta in *. apply wps_bind. fold (udid_of i). eapply wps_tell; [exact H4|]. intros w5 H5.
  eapply wat_upd; [exact H5|by apply keeps_set; eauto|]. intros w6 H6. at_steps. eapply HQ; [eassumption| |done]. unfold good in *. cbn. by rewrite HG.
Qed.

(** The end of a leave: a dead machine without timers, the listeners told. *)
Lemma wat_leaves k G p c ts w nid (Q : unit -> World -> Prop) : At sc (S k) G p c ts w -> good G ->
  ts ⊆ [FSM_MSG_TYPE_LEAVE_LNN_TIMEOUT] -> (isDead c = true -> Q tt w) ->
  (forall w' G' c', At sc k G' p c' [] w' -> good G' -> stays G G' -> Q tt w') ->
  wps (CompleteLeaveLNN sc mem coin lenv p (Some nid) SOFTBUS_OK) Q w.
Proof.
  intros H HG Hts Hdead HQ. unfold CompleteLeaveLNN. do 2 at_step. rewrite check_dead. case_if; [by at_step; auto|].
  do 2 at_step. rewrite (filter_gone _ _ Hts) in *. cbn [Z.eqb SOFTBUS_OK]. at_steps. apply wps_on_ledger.
  match goal with H : At _ _ _ _ _ _ ?x |- wps _ _ (ledger ?x) => rename H into Hx end.
  pose proof (at_inv _ _ _ _ _ _ _ Hx) as Hinv.
  eapply wps_mono.
  { eapply (leave_tracks sc _ (gA G) (coin n) (lenv n0) (lenv n1) (Some nid)); [apply (i_rel _ _ _ _ _ Hinv)| |].
    - eapply room_le, (i_room _ _ _ _ _ Hinv). lia.
    - by split; apply Henv. }
  intros xs L' (A' & HR' & Hg & Eh). cbv beta.
  apply (wat_ledger _ _ k _ _ _ _ _ L' A') in Hx; [|lia|done|eapply grows_room; [done|apply (i_room _ _ _ _ _ Hinv)]].
  apply wps_bind. eapply wat_leave_result; [exact Hx|]. intros w1 H1'. apply wps_bind. eapply wps_tell; [exact H1'|].
  intros w2 H2'. at_steps. eapply wat_clean; [exact Hmem|eassumption|done|done|]. intros r w3 H3'. at_step.
  eapply HQ; [exact H3'| |done]. unfold good in *. cbn. by rewrite HG.
Qed.

(** ** Messages that end a join *)

Lemma nil_sub {A} (l : list A) : [] ⊆ l.
Proof. by intros x ?%elem_of_nil. Qed.
#[local] Hint Resolve nil_sub : core.

Lemma allowed_join c : curState c <> Some STATE_LEAVING -> allowed c ⊆ [FSM_MSG_TYPE_JOIN_LNN_TIMEOUT].
Proof. unfold allowed. intros H. destruct (isDead c); [auto|]. destruct (curState c) as [[]|]; auto; done. Qed.
Lemma allowed_leave c : curState c = Some STATE_LEAVING -> allowed c ⊆ [FSM_MSG_TYPE_LEAVE_LNN_TIMEOUT].
Proof. unfold allowed. intros ->. destruct (isDead c); auto. Qed.
Lemma allowed_dead c : isDead c = true -> allowed c = [].
Proof. unfold allowed. by intros ->. Qed.

Lemma fin_fails k G p c ts w nid : At sc (S k) G p c ts w -> good G -> ts ⊆ [FSM_MSG_TYPE_JOIN_LNN_TIMEOUT] ->
  wps (CompleteJoinLNN sc mem lenv p nid SOFTBUS_ERR) (fun _ w' => fin k G w') w.
Proof. intros H HG Hts. eapply wat_join_fails; [done|done|]. intros w' c' H' _. by eapply fin_at. Qed.

Lemma OnJoinFail_fin k G p c w : At sc (S k) G p c (allowed c) w -> good G -> curState c <> Some STATE_LEAVING ->
  wps (OnJoinFail sc mem lenv p) (fun _ w' => fin k G w') w.
Proof.
  intros H HG Hs. unfold OnJoinFail. do 2 at_step. rewrite check_dead. case_if; [by at_step; eapply fin_at|]. apply wps_bind.
  eapply wps_mono; [by eapply fin_fails, allowed_join|]. intros ? w' Hw. by at_step.
Qed.

Lemma allowed_clear f c : allowed (clear_flag f c) = allowed c.
Proof. done. Qed.

Lemma TryCancel_fin k G p c w : At sc (S k) G p c (allowed c) w -> good G -> curState c <> Some STATE_LEAVING ->
  wps (TryCancelJoinProcedure sc mem lenv p) (fun _ w' => fin k G w') w.
Proof.
  intros H HG Hs. unfold TryCancelJoinProcedure. do 2 at_step. case_if; [by eapply fin_fails, allowed_join|].
  eapply wat_join_result; [done|]. intros w' H'. by eapply fin_at.
Qed.

(** ** Changes of state *)

Lemma LnnFsmTransactState_early k G p c ts w st (Q : Z -> World -> Prop) : At sc k G p c ts w -> is_Some (curState c) ->
  running c = true -> st <> STATE_ONLINE -> st <> STATE_LEAVING ->
  (forall w', At sc k G p (c <| curState := Some st |>) ts w' -> Q SOFTBUS_OK w') ->
  wps (LnnFsmTransactState sc mem coin lenv p st) Q w.
Proof.
  intros H [s Hs] Hr Hst Hst' HQ. unfold LnnFsmTransactState. do 2 at_step. rewrite Hs, Hr. cbn [negb]. at_steps.
  destruct st; try done; at_steps; by apply HQ.
Qed.

Lemma enter_online_fin k G p c w : At sc (S k) G p c (allowed c) w -> good G -> curState c = Some STATE_CLEAN_INVALID_CONN ->
  running c = true -> (isDead c = false -> is_Some (nodeInfo c)) ->
  wps (LnnFsmTransactState sc mem coin lenv p STATE_ONLINE) (fun _ w' => fin k G w') w.
Proof.
  intros H HG Hs Hr Hn. unfold LnnFsmTransactState. do 2 at_step. rewrite Hs, Hr. cbn [negb]. at_steps.
  cbn [state_enter]. unfold OnlineStateEnter. at_steps. rewrite check_dead. cbn [isDead].
  destruct (isDead c) eqn:Ed.
  - at_steps. eapply fin_at; [done|done|]. rewrite !allowed_dead by done. done.
  - destruct (Hn eq_refl) as [i Hi]. eapply wat_online; [done|done|apply allowed_join; by rewrite Hs|done|].
    intros w1 G' c' H1 HG' Hst. at_step. eapply fin_stays; [|done]. by eapply fin_at_k.
Qed.

Lemma enter_leaving_fin k G p c w : At sc (S k) G p c (allowed c) w -> good G -> curState c = Some STATE_ONLINE ->
  running c = true -> wps (LnnFsmTransactState sc mem coin lenv p STATE_LEAVING) (fun _ w' => fin k G w') w.
Proof.
  intros H HG Hs Hr. unfold LnnFsmTransactState. do 2 at_step. rewrite Hs, Hr. cbn [negb]. at_steps.
  cbn [state_enter]. unfold LeavingStateEnter. at_steps. rewrite check_dead. cbn [isDead].
  destruct (isDead c) eqn:Ed.
  - at_steps. eapply fin_at; [done|done|]. rewrite !allowed_dead by done. done.
  - assert (allowed c = []) as Ea by (unfold allowed; by rewrite Ed, Hs). rewrite Ea in *. unfold LnnSyncLedgerItemInfo.
    at_steps. destruct (coin n); cbn [Z.eqb SOFTBUS_OK SOFTBUS_ERR].
    + at_steps. by eapply fin_at.
    + eapply wat_leaves; [done|done|auto|done|]. intros w1 G' c' Hw HG' Hst. at_step.
      eapply fin_stays; [|done]. by eapply fin_at_k.
Qed.

(** ** Authentication *)

Lemma OnJoinLNNInAuth_fin k G p c w x : At sc (S k) G p c (allowed c) w -> good G -> curState c = Some STATE_AUTH -> ext_ok x ->
  wps (OnJoinLNNInAuth sc mem lenv x p) (fun _ w' => fin k G w') w.
Proof.
  intros H HG Hs [Hx _]. unfold OnJoinLNNInAuth. do 2 at_step. rewrite check_dead. destruct (isDead c) eqn:Ed.
  - apply wps_bind. eapply wat_join_result; [done|]. intros w' H'. at_step. by eapply fin_at.
  - case_if; [by at_step; eapply fin_at|]. do 3 at_step. eapply wat_upd; [eassumption|apply keeps_auth; eauto|]. intros w1 H1.
    assert (allowed c = [FSM_MSG_TYPE_JOIN_LNN_TIMEOUT]) as Ea by (unfold allowed; by rewrite Ed, Hs). rewrite Ea in H1.
    case_if; [apply wps_bind; eapply wps_mono; [by eapply fin_fails|]; intros ? w2 H2; by at_step|].
    at_steps. eapply fin_at; [done|done|]. change (allowed (c <| authId := x_verify x |>)) with (allowed c). rewrite Ea. set_solver.
Qed.

Lemma OnAuthKeyGeneratedInAuth_fin k G p c w : At sc (S k) G p c (allowed c) w -> good G -> curState c = Some STATE_AUTH ->
  running c = true -> wps (OnAuthKeyGeneratedInAuth sc mem coin lenv p) (fun _ w' => fin k G w') w.
Proof.
  intros H HG Hs Hr. unfold OnAuthKeyGeneratedInAuth. do 2 at_step. rewrite check_dead. destruct (isDead c) eqn:Ed; [by at_step; eapply fin_at|].
  assert (allowed c = [FSM_MSG_TYPE_JOIN_LNN_TIMEOUT]) as Ea by (unfold allowed; by rewrite Ed, Hs). rewrite Ea in H.
  assert (allowed (c <| curState := Some STATE_SYNC_DEVICE_INFO |>) = [FSM_MSG_TYPE_JOIN_LNN_TIMEOUT]) as Ea'
    by (unfold allowed; cbn; by rewrite Ed).
  case_if; apply wps_bind; (eapply LnnFsmTransactState_early; [done|by eauto|done|done|done|]); intros w1 H1; apply wps_bind;
    (eapply wat_post_self; [exact Hmem|done|done|done|]); intros w2 H2; at_steps; (eapply fin_at; [done|done|]); rewrite Ea'; set_solver.
Qed.

Lemma OnAuthDoneInAuth_fin k G p c w a : At sc (S k) G p c (allowed c) w -> good G -> curState c = Some STATE_AUTH ->
  wps (OnAuthDoneInAuth sc mem lenv p a) (fun _ w' => fin k G w') w.
Proof.
  intros H HG Hs. unfold OnAuthDoneInAuth. do 2 at_step. case_if; [by at_step; eapply fin_at|].
  destruct a as [|[]|]; try (by at_step; eapply fin_at). apply wps_bind.
  eapply wps_mono; [eapply fin_fails; [done|done|apply allowed_join; by rewrite Hs]|]. intros ? w' Hw. by at_step.
Qed.

(** ** Exchange of the device information *)

Lemma OnSyncDeviceInfo_fin k G p c w : At sc (S k) G p c (allowed c) w -> good G -> curState c = Some STATE_SYNC_DEVICE_INFO ->
  wps (OnSyncDeviceInfo sc mem coin lenv p) (fun _ w' => fin k G w') w.
Proof.
  intros H HG Hs. unfold OnSyncDeviceInfo. do 2 at_step. case_if; [by at_step; eapply fin_at|].
  assert (forall w', At sc (S k) G p c (allowed c) w' ->
    wps (CompleteJoinLNN sc mem lenv p None SOFTBUS_ERR;; sret SOFTBUS_ERR) (fun _ w2 => fin k G w2) w') as Hf.
  { intros w' H'. apply wps_bind. eapply wps_mono; [eapply fin_fails; [done|done|apply allowed_join; by rewrite Hs]|].
    intros ? w2 H2. by at_step. }
  case_match; [|by at_step; eapply fin_at]. at_steps. case_if; [auto|]. at_steps. case_if; [auto|]. at_step. by eapply fin_at.
Qed.

Lemma discovery_range t : 0 <= Z.shiftl 1 (GetDiscoveryType t) < 2 ^ 32.
Proof. unfold GetDiscoveryType. repeat case_if; vm_compute; split; congruence. Qed.

Lemma complete_node_typed c o r i j : conn_ok c -> chars (r_uuid r) = true -> typed_node i -> complete_node c o r i = Some j ->
  typed_node j.
Proof.
  intros [Ha Hc _ _] Hr Hi. unfold complete_node. cbv zeta.
  lazymatch goal with |- context [strncpy_s (uuid ?x) _ _] => set (i1 := x) end.
  assert (typed_node i1) as H1.
  { subst i1. destruct Hi. constructor; try done; [apply discovery_range|]. cbn. clear. wrap_lia. }
  clearbody i1. pose proof (strncpy_s_result UUID_BUF_LEN (uuid i1) (r_uuid r) (typed_uuid _ H1) Hr ltac:(done)) as Hu.
  destruct (strncpy_s (uuid i1) _ _) as [ok u]. cbn [snd] in Hu. destruct ok; [|done]. cbn [negb].
  assert (typed_node (i1 <| uuid := u |>)) as H2 by (destruct H1; by constructor). revert H2.
  generalize (i1 <| uuid := u |>). intros i2 H2.
  destruct (o_type o); try (by intros [= <-]).
  pose proof (strncpy_s_result IP_LEN (deviceIp (connectInfo i2)) (a_text (addr c)) (ty_ip _ H2) Hc ltac:(done)) as Hp.
  destruct (strncpy_s (deviceIp (connectInfo i2)) _ _) as [ok' a]. cbn [snd] in Hp. destruct ok'; [|done].
  intros [= <-]. destruct H2. by constructor.
Qed.

Lemma OnSyncDeviceInfoDone_fin k G p c w x a : At sc (S k) G p c (allowed c) w -> good G ->
  curState c = Some STATE_SYNC_DEVICE_INFO -> ext_ok x -> para_ok a ->
  wps (OnSyncDeviceInfoDone sc mem lenv x p a) (fun _ w' => fin k G w') w.
Proof.
  intros H HG Hs [_ Hx] Ha. unfold OnSyncDeviceInfoDone. destruct a as [|b|r]; try (by at_step; eapply fin_at).
  do 2 at_step. case_if; [by at_step; eapply fin_at|]. pose proof (at_ok _ _ _ _ _ _ _ H) as Hok.
  assert (forall w' c', curState c' = Some STATE_SYNC_DEVICE_INFO -> At sc (S k) G p c' (allowed c) w' ->
    wps (CompleteJoinLNN sc mem lenv p None SOFTBUS_ERR;; sret SOFTBUS_ERR) (fun _ w2 => fin k G w2) w') as Hf.
  { intros w' c' Hc' H'. apply wps_bind. eapply wps_mono; [eapply fin_fails; [done|done|apply allowed_join; by rewrite Hs]|].
    intros ? w2 H2. by at_step. }
  apply wps_bind. unfold ParsePeerNodeInfo. do 3 at_step.
  assert (forall w', At sc (S k) G p c (allowed c) w' -> wps (match nodeInfo c with Some _ => sret true | None => ask mem end)
    (fun ok w2 => ok = true /\ At sc (S k) G p c (allowed c) w2) w') as Hm.
  { intros w' H'. destruct (nodeInfo c); at_steps; rewrite ?Hmem; by split. }
  eapply wps_mono; [by apply Hm|]. intros ok w1 [-> H1]. cbn [negb]. cbv zeta.
  set (node := (o ← LnnConvertAddrToOption (addr c); i ← x_parse x; complete_node c o r i)).
  assert (forall j, node = Some j -> typed_node j) as Hty.
  { subst node. intros j. destruct (LnnConvertAddrToOption (addr c)); [|done]. cbn. destruct (x_parse x) as [i|]; [|done]. cbn.
    apply complete_node_typed; [done|done|by apply node_typed_iff]. }
  clearbody node. apply wps_bind. eapply wat_upd; [exact H1|by apply keeps_node|]. intros w2 H2. at_steps. cbn [nodeInfo].
  destruct node as [i|]; [|eapply Hf; [|done]; done]. rewrite bool_decide_eq_true_2 by eauto. cbn [negb].
  destruct (strncpy_s _ _ _) as [copied nid]. at_steps.
  destruct copied; cbn [negb]; [|eapply Hf; [|done]; done]. at_step. by eapply fin_at.
Qed.

Lemma OnAuthDoneInSyncInfo_fin k G p c w a : At sc (S k) G p c (allowed c) w -> good G ->
  curState c = Some STATE_SYNC_DEVICE_INFO -> running c = true ->
  wps (OnAuthDoneInSyncInfo sc mem coin lenv p a) (fun _ w' => fin k G w') w.
Proof.
  intros H HG Hs Hr. unfold OnAuthDoneInSyncInfo. destruct a as [|b|r]; try (by at_step; eapply fin_at).
  do 2 at_step. rewrite check_dead. destruct (isDead c) eqn:Ed; [by at_step; eapply fin_at|]. apply wps_bind.
  destruct b.
  - apply wps_bind. eapply LnnFsmTransactState_early; [done|by eauto|done|done|done|]. intros w1 H1. apply wps_bind.
    eapply wat_post_self; [exact Hmem|done|done|done|]. intros w2 H2. at_steps. eapply fin_at; [done|done|].
    unfold allowed. cbn. by rewrite Ed, Hs.
  - eapply wps_mono; [eapply fin_fails; [done|done|apply allowed_join; by rewrite Hs]|]. intros ? w' Hw. by at_step.
Qed.

(** ** Cleaning of invalid connections, online and leaving *)

Lemma OnLeaveInvalidConn_fin k G p c w : At sc (S k) G p c (allowed c) w -> good G ->
  curState c = Some STATE_CLEAN_INVALID_CONN -> running c = true -> is_Some (nodeInfo c) ->
  wps (OnLeaveInvalidConn sc mem coin lenv p) (fun _ w' => fin k G w') w.
Proof.
  intros H HG Hs Hr [i Hi]. unfold OnLeaveInvalidConn. do 2 at_step. rewrite Hi. apply wps_bind.
  cbn [LnnGetDeviceUdid mbind option_bind]. eapply wps_node_by_id; [by apply at_inv in H|]. intros old Hold.
  case_if; [by at_step; eapply fin_at|].
  destruct (if LnnIsNodeOnline old then _ else _) as [[o t]|].
  - apply wps_bind. eapply wat_invalid; [exact Hmem|done|]. intros r w1 H1. at_step. by eapply fin_at.
  - apply wps_bind. eapply wps_mono; [eapply enter_online_fin; eauto|]. intros ? w' Hw. by at_step.
Qed.

Lemma LeaveLNNInOnline_fin k G p c w : At sc (S k) G p c (allowed c) w -> good G -> curState c = Some STATE_ONLINE ->
  running c = true -> wps (LeaveLNNInOnline sc mem coin lenv p) (fun _ w' => fin k G w') w.
Proof.
  intros H HG Hs Hr. unfold LeaveLNNInOnline. do 2 at_step. case_if; [by at_step; eapply fin_at|]. apply wps_bind.
  eapply wps_mono; [by eapply enter_leaving_fin|]. intros ? w' Hw. by at_step.
Qed.

Lemma join_result_fin k G p c w nid r : At sc (S k) G p c (allowed c) w -> good G ->
  wps (NotifyJoinResult p nid r) (fun _ w' => fin k G w') w.
Proof. intros H HG. eapply wat_join_result; [done|]. intros w' H'. by eapply fin_at. Qed.

(** ** Messages of a machine *)

Lemma state_process_fin k G p c w x st t a : At sc (S k) G p c (allowed c) w -> good G -> curState c = Some st ->
  running c = true -> ext_ok x -> para_ok a -> has_node c t ->
  wps (state_process sc mem coin lenv x p st t a) (fun _ w' => fin k G w') w.
Proof.
  intros H HG Hs Hr Hx Ha Hn.
  assert (forall {B} (m : SF World B), wps m (fun _ w' => fin k G w') w ->
    wps (m;; sret true) (fun _ w' => fin k G w') w) as Hdone.
  { intros B m Hm. apply wps_bind. eapply wps_mono; [exact Hm|]. intros ? w' Hw. by at_step. }
  assert (wps (sret false) (fun _ w' => fin k G w') w) as Hskip by (at_step; by eapply fin_at).
  assert (st <> STATE_LEAVING -> curState c <> Some STATE_LEAVING) as Hl by (rewrite Hs; congruence).
  destruct st, t; cbn [state_process AuthStateProcess SyncDeviceInfoStateProcess CleanInvalidConnStateProcess
    OnlineStateProcess LeavingStateProcess]; try done; try apply Hdone;
    try (eapply OnJoinFail_fin; eauto; fail); try (eapply TryCancel_fin; eauto; fail);
    try (eapply LeaveLNNInOnline_fin; eauto; fail); try (eapply join_result_fin; eauto; fail).
  - by eapply OnJoinLNNInAuth_fin.
  - by eapply OnAuthKeyGeneratedInAuth_fin.
  - by eapply OnAuthDoneInAuth_fin.
  - by eapply OnAuthDoneInSyncInfo_fin.
  - by eapply OnSyncDeviceInfo_fin.
  - by eapply OnSyncDeviceInfoDone_fin.
  - eapply OnLeaveInvalidConn_fin; eauto.
  - eapply enter_online_fin; eauto.
  - unfold OnJoinLNNInOnline. do 2 at_step. by eapply join_result_fin.
  - do 3 at_step. eapply wat_leaves; [done|done|by apply allowed_leave|by intros _; at_step; eapply fin_at|].
    intros w' G' c' H' HG' Hst. at_step. eapply fin_stays; [|done]. by eapply fin_at_k.
  - do 3 at_step. eapply wat_leaves; [done|done|by apply allowed_leave|by intros _; at_step; eapply fin_at|].
    intros w' G' c' H' HG' Hst. at_step. eapply fin_stays; [|done]. by eapply fin_at_k.
Qed.

End fsm.
End LnnNetFsm.
