(* ===== verification/LnnNetSteps.v ===== *)
(** * The net builder keeps the invariant

    The functions of the net builder on the worlds of the invariant, and the step of
    the whole system: it ends in the invariant again, the listeners know the nodes
    that are online, and the master changes only by an election. *)

From S2P Require Import Prelude StateFault Utils LnnMap LnnNodeInfo LnnLedger LnnLedgerRel LnnLedgerSpec LnnLedgerOps LnnLedgerMain.
From S2P Require Import LnnNet LnnConnFsm LnnNetBuilder LnnNetInv LnnNetFsm.

Module LnnNetSteps.
Import LnnNodeInfo LnnLedger LnnLedgerRel LnnLedgerSpec LnnLedgerOps LnnLedgerMain LnnNet LnnConnFsm LnnNetBuilder LnnNetInv LnnNetFsm.
#[local] Open Scope sf_scope.

Definition opt_chars (o : option (list Z)) : Prop := match o with Some s => chars s = true | None => True end.
Definition opt_addr (o : option ConnectionAddr) : Prop := match o with Some a => chars (a_text a) = true | None => True end.

(** The arguments of a call from outside have their types. *)
Definition event_ok (e : Event) : Prop :=
  match e with
  | Join a | Discovery a => opt_addr a
  | KeyGenerated aid o _ => chars (o_text o) = true /\ int64 aid
  | RecvPeerDeviceInfo _ u _ => opt_chars u
  | MasterElect _ m _ => opt_chars m
  | Take x => ext_ok x
  | _ => True
  end.

(** The first message of the looper needs the node of a machine that has none. *)
Definition needs_node (w : World) (e : Event) : Prop :=
  exists x p t a q c, e = Take x /\ queue w = MData p t a :: q /\ heap w !! p = Some c /\ running c = true /\
    curState c = Some STATE_CLEAN_INVALID_CONN /\ nodeInfo c = None /\
    (t = FSM_MSG_TYPE_LEAVE_INVALID_CONN \/ (t = FSM_MSG_TYPE_INITIATE_ONLINE /\ isDead c = false)).

Section steps.
Context (sc : bool) (mem coin : nat -> bool) (lenv : nat -> Env) (rand : nat -> option Z) (local : Local).
Context (Hmem : forall n, mem n = true) (Henv : forall n, env_ok (lenv n)) (Hlocal : chars (l_udid local) = true).

Implicit Types (k : nat) (G : Ghost) (w : World) (p : nat) (c : LnnConnectionFsm) (ts : list StateMessageType).

(** The master of [G'] was elected over that of [G], or is this device, or is the same. *)
Definition elects G G' : Prop :=
  (gU G' = gU G /\ gW G' = gW G) \/
  LnnCompareNodeWeight (gW G) (gU G) (gW G') (gU G') < 0 \/
  (gU G' = l_udid local /\ 0 <= gW G' <= MAX_WEIGHT_VALUE).

Definition finished k G w : Prop := exists G', inv sc k G' None w /\ good G' /\ elects G G'.

Lemma finished_same k G G' w : inv sc k G' None w -> good G' -> gU G' = gU G -> gW G' = gW G -> finished k G w.
Proof. intros H HG Hu Hw. exists G'. split_and!; try done. by left. Qed.
Lemma finished_at k G G' p c ts w : At sc k G' p c ts w -> ts ⊆ allowed c -> good G' -> gU G' = gU G -> gW G' = gW G -> finished k G w.
Proof. intros H Hts. by eapply finished_same, at_close. Qed.
Lemma finished_fin k G w : fin sc k G w -> finished k G w.
Proof. intros (G' & H & HG & ? & ? & _). by eapply finished_same. Qed.
Lemma finished_inv k G w : inv sc (S k) G None w -> good G -> finished k G w.
Proof. intros H HG. eapply finished_same; [|done..]. eapply inv_le, H. lia. Qed.

(** ** Rules without a machine *)

Lemma winv_ask {B} k G w (f : nat -> B) (Q : B -> World -> Prop) : inv sc k G None w ->
  (forall n w', inv sc k G None w' -> heap w' = heap w -> Q (f n) w') -> wps (ask f) Q w.
Proof. intros H HQ. apply wps_ask, HQ; [|done]. by apply inv_tick. Qed.
Lemma winv_emit k G w o (Q : unit -> World -> Prop) : inv sc k G None w -> told o = None ->
  (forall w', inv sc k G None w' -> heap w' = heap w -> Q tt w') -> wps (emit o) Q w.
Proof. intros H Ho HQ. apply wps_modify, HQ; [|done]. by apply inv_emit. Qed.
Lemma winv_looper k G w m (Q : unit -> World -> Prop) : inv sc k G None w -> post_ok w m ->
  (forall w', inv sc k G None w' -> heap w' = heap w -> Q tt w') -> wps (looper_post mem m) Q w.
Proof.
  intros H Hm HQ. unfold looper_post. apply wps_bind, wps_ask. cbv beta. rewrite Hmem. apply wps_modify, HQ; [|done].
  apply inv_post; [by apply inv_tick|done].
Qed.
Lemma winv_post k G w m (Q : Z -> World -> Prop) : inv sc k G None w -> post_ok w m ->
  (forall w', inv sc k G None w' -> heap w' = heap w -> Q SOFTBUS_OK w') -> wps (PostMessageToFsm mem m) Q w.
Proof.
  intros H Hm HQ. unfold PostMessageToFsm. apply wps_bind, wps_ask. cbv beta. rewrite Hmem. apply wps_bind.
  eapply winv_looper; [by apply inv_tick|done|]. intros w' H' E. by apply wps_ret, HQ.
Qed.
Lemma winv_handler k G w m (Q : Z -> World -> Prop) : inv sc k G None w -> post_ok w (MBuilder m) ->
  (forall r w', inv sc k G None w' -> Q r w') -> wps (PostMessageToHandler mem m) Q w.
Proof.
  intros H Hm HQ. unfold PostMessageToHandler. apply wps_bind, wps_ask. cbv beta. rewrite Hmem. apply wps_bind.
  eapply winv_looper; [by apply inv_tick|done|]. intros w' H' E. by apply wps_ret, HQ.
Qed.

Lemma wps_conn w p c (Q : LnnConnectionFsm -> World -> Prop) : heap w !! p = Some c -> Q c w -> wps (conn p) Q w.
Proof. intros Hc HQ. unfold wps, conn. by rewrite Hc. Qed.

(** A message for a machine; one that is dead gets none. *)
Lemma winv_send k G w p c t a (Q : Z -> World -> Prop) : inv sc k G None w -> heap w !! p = Some c -> para_ok a ->
  (isDead c = true -> Q SOFTBUS_ERR w) ->
  (isDead c = false -> forall w', inv sc k G None w' -> heap w' = heap w -> Q SOFTBUS_OK w') -> wps (send mem p t a) Q w.
Proof.
  intros H Hc Ha Hd HQ. unfold send, CheckInterfaceCommonArgs. do 2 apply wps_bind. eapply wps_conn; [done|]. apply wps_ret.
  cbn [andb]. rewrite negb_involutive. destruct (isDead c) eqn:Ed; [by apply wps_ret, Hd|]. unfold LnnFsmPostMessage. apply wps_bind.
  eapply wps_conn; [done|]. eapply winv_post; [done|split; [done|by exists c]|auto].
Qed.

(** ** Searches *)

Lemma wps_find_in l w f (Q : option nat -> World -> Prop) : (forall p, p ∈ l -> is_Some (heap w !! p)) ->
  Q None w -> (forall p c, p ∈ l -> heap w !! p = Some c -> f c = true -> Q (Some p) w) -> wps (find_in l f) Q w.
Proof.
  intros Hl HN HS. induction l as [|p l IH]; cbn [find_in]; [by apply wps_ret|].
  destruct (Hl p) as [c Hc]; [left|]. apply wps_bind. eapply wps_conn; [done|]. case_if.
  - apply wps_ret. eapply HS; [left|done|done].
  - apply IH; [intros q Hq; apply Hl; by right|]. intros q d Hq. apply HS. by right.
Qed.
Lemma winv_find k G x w f (Q : option nat -> World -> Prop) : inv sc k G x w -> Q None w ->
  (forall p c, p ∈ gL G -> heap w !! p = Some c -> f c = true -> Q (Some p) w) -> wps (find_conn f) Q w.
Proof.
  intros H HN HS. apply wps_bind, wps_gets. apply wps_find_in; [by eapply i_in|done|]. intros p c. rewrite (i_list _ _ _ _ _ H).
  apply HS.
Qed.
(** The result of a search, dead or not. *)
Lemma winv_find_alive {B} k G w f (kont : option nat -> SF World B) (Q : B -> World -> Prop) : inv sc k G None w ->
  wps (kont None) Q w ->
  (forall p c, p ∈ gL G -> heap w !! p = Some c -> isDead c = false -> f c = true -> wps (kont (Some p)) Q w) ->
  wps (let* found := find_conn f in let* r := alive found in kont r) Q w.
Proof.
  intros H HN HS. apply wps_bind. eapply winv_find; [done| |].
  - by apply wps_bind, wps_ret.
  - intros p c Hp Hc Hf. do 2 apply wps_bind. eapply wps_conn; [done|]. apply wps_ret. destruct (isDead c) eqn:Ed; [done|].
    by eapply HS.
Qed.

(** ** A new machine *)

Definition fresh (n : Z) (a : ConnectionAddr) : LnnConnectionFsm := mkConn n None false a None [] None 0 0 0 false false.

Lemma fresh_ok n a : chars (a_text a) = true -> conn_ok (fresh n a).
Proof. intros Ha. split; try done. Qed.

Lemma inv_start k G w w' a p c : inv sc (S k) G None w -> c = fresh (connFsmId w + 1) a -> chars (a_text a) = true ->
  connCount w < maxConnCount w -> p = next w ->
  ledger w' = ledger w -> heap w' = <[p := c]> (heap w) -> next w' = S p -> fsmList w' = p :: fsmList w ->
  connCount w' = connCount w + 1 -> maxConnCount w' = maxConnCount w -> connFsmId w' = connFsmId w + 1 ->
  queue w' = queue w ++ [MStart p STATE_AUTH] -> timers w' = timers w -> masterUdid w' = masterUdid w ->
  masterWeight w' = masterWeight w -> localWeight w' = localWeight w -> out w' = out w ->
  inv sc k (G <| gL := p :: gL G |>) None w'.
Proof.
  intros H Ec Ha Hcount Ep EL Eh En Ef Ecc Em Ei Eq Et Eu Ew El Eo. pose proof H as [].
  assert (Hfree : heap w !! p = None).
  { destruct (heap w !! p) as [d|] eqn:E; [|done]. apply i_next0 in E. lia. }
  assert (Hnew : forall q d, <[p := c]> (heap w) !! q = Some d -> (q = p /\ d = c) \/ (q <> p /\ heap w !! q = Some d)).
  { intros q d. rewrite lookup_insert_Some. intros [[<- <-]|[? ?]]; [by left|right; auto]. }
  assert (Hq : forall m, m ∈ queue w -> about m <> Some p).
  { intros m Hm Hp. destruct (i_about0 m p Hm Hp). congruence. }
  assert (Hnl : p ∉ fsmList w) by (intros Hin; destruct (i_in0 p Hin); congruence).
  assert (Hid : id c = connFsmId w + 1) by (by rewrite Ec).
  split; rewrite ?EL, ?Eh, ?En, ?Ef, ?Ecc, ?Em, ?Ei, ?Eq, ?Et, ?Eu, ?Ew, ?El, ?Eo; try done.
  - by eapply room_le, i_room0; lia.
  - cbn. by rewrite i_list0.
  - lia.
  - rewrite length_cons. lia.
  - by constructor.
  - intros q [-> |Hin]%elem_of_cons; [by rewrite lookup_insert_eq; eauto|]. apply lookup_insert_is_Some'. right. auto.
  - intros q d [[-> ->]|[_ Hd]]%Hnew; [lia|]. apply i_next0 in Hd. lia.
  - intros q d [[-> ->]|[_ Hd]]%Hnew; [rewrite Ec; by apply fresh_ok|eauto].
  - intros q d [[-> ->]|[_ Hd]]%Hnew; [lia|]. apply i_id0 in Hd. lia.
  - intros q q' d d' [[-> ->]|[_ Hd]]%Hnew [[-> ->]|[_ Hd']]%Hnew E; [done| | |by eapply i_uniq0].
    + apply i_id0 in Hd'. lia.
    + apply i_id0 in Hd. lia.
  - intros q d [[-> ->]|[Hne Hd]]%Hnew Hn; [by destruct Hn; left|]. destruct (i_out0 q d Hd) as (? & ? & ?).
    + intros Hin. apply Hn. by right.
    + split_and!; [done|done|]. apply ends_app; [done|]. cbn. congruence.
  - intros m q [Hm|Hm]%elem_of_app Hab; [apply lookup_insert_is_Some'; right; by eapply i_about0|].
    apply list_elem_of_singleton in Hm as ->. injection Hab as <-. rewrite lookup_insert_eq. eauto.
  - intros q m Hin [Hm|Hm]%elem_of_app; [|by apply list_elem_of_singleton in Hm as ->].
    apply elem_of_cons in Hin as [-> |Hin]; [|by eapply i_noend0]. split; intros ->; by apply (Hq _ Hm).
  - intros m [Hm|Hm]%elem_of_app; [auto|]. by apply list_elem_of_singleton in Hm as ->.
  - intros n [Hm|Hm]%elem_of_app; [|by apply list_elem_of_singleton in Hm]. destruct (i_clean0 n Hm) as [Hle Hd]. split; [lia|].
    intros q d [[-> ->]|[_ Hq']]%Hnew E; [lia|eauto].
  - intros q t Hin. destruct (i_timer0 q t Hin) as (d & Hd & Hal). exists d. split; [|done]. rewrite lookup_insert_ne; [done|].
    congruence.
Qed.

Lemma wps_next_id w (Q : Z -> World -> Prop) :
  Q (u16 (connFsmId w + 1)) (w <| connFsmId := u16 (connFsmId w + 1) |>) -> wps GetNextConnectionFsmId Q w.
Proof. done. Qed.
Lemma wps_upd w p c f (Q : unit -> World -> Prop) : heap w !! p = Some c -> Q tt (w <| heap := <[p := f c]> (heap w) |>) ->
  wps (upd p f) Q w.
Proof. intros Hc HQ. unfold wps, upd. by rewrite Hc. Qed.

(** Runs a computation whose allocations succeed. *)
Ltac world_cbn :=
  cbn [ledger heap next fsmList connCount maxConnCount isInit connFsmId queue timers masterUdid masterWeight localWeight tick out].
Ltac run_step :=
  cbv beta zeta; world_cbn;
  lazymatch goal with
  | |- wps (sbind _ _) _ _ => apply wps_bind
  | |- wps (ask _) _ _ => apply wps_ask; cbv beta; rewrite ?Hmem; cbn [negb]
  | |- wps (sgets _) _ _ => apply wps_gets
  | |- wps (smodify _) _ _ => apply wps_modify
  | |- wps (sret _) _ _ => apply wps_ret
  end.
Ltac run_steps := repeat run_step.

Lemma winv_start k G w a (Q : option nat -> World -> Prop) : inv sc (S k) G None w -> chars (a_text a) = true ->
  (Q None w) ->
  (forall w' p c, At sc k (G <| gL := p :: gL G |>) p c [] w' -> conn_ok c -> isDead c = false -> flag c = 0 -> Q (Some p) w') ->
  wps (StartNewConnectionFsm mem a) Q w.
Proof.
  intros H Ha HN HS. unfold StartNewConnectionFsm. do 2 (apply wps_bind, wps_gets). case_if; [by apply wps_ret|].
  set (p := next w). set (c := fresh (connFsmId w + 1) a).
  pose proof (i_ids _ _ _ _ _ H) as Hids. pose proof (i_count _ _ _ _ _ H) as Hcount.
  assert (forall w', inv sc k (G <| gL := p :: gL G |>) None w' -> heap w' !! p = Some c -> Q (Some p) w') as HQ.
  { intros w' H' Hp. eapply (HS w' p c); [|by apply fresh_ok|done|done]. exact (at_open _ _ _ p c w' H' Hp). }
  unfold LnnCreateConnectionFsm, LnnStartConnectionFsm, PostMessageToFsm, looper_post. run_steps.
  apply wps_next_id. world_cbn. run_steps. replace (u16 (connFsmId w + 1)) with (connFsmId w + 1) by wrap_lia. fold p.
  eapply wps_conn; [by apply lookup_insert_eq|]. run_steps. cbn [Z.eqb SOFTBUS_OK negb]. run_steps.
  world_cbn. apply HQ; [|by apply lookup_insert_eq]. eapply (inv_start k G w _ a p c); try done; [lia|]. cbn. wrap_lia.
Qed.

(** ** A machine is stopped *)

Lemma length_without (l : list nat) p : NoDup l -> p ∈ l -> S (length (filter (fun q => q <> p) l)) = length l.
Proof.
  intros Hnd Hin. apply list_elem_of_split in Hin as (l1 & l2 & ->). apply NoDup_app in Hnd as (_ & Hd & Hnd).
  apply NoDup_cons in Hnd as [Hn2 _]. rewrite filter_app, filter_cons, decide_False by auto.
  assert (forall l : list nat, p ∉ l -> filter (fun q => q <> p) l = l) as Hall.
  { intros l Hl. induction l as [|x l IH]; [done|]. apply not_elem_of_cons in Hl as [? ?]. rewrite filter_cons, decide_True by auto.
    by rewrite IH. }
  rewrite !Hall; [rewrite !length_app; cbn; lia|done|]. intros Hin. eapply Hd; [done|left].
Qed.

Lemma inv_stop k G w w' p c : inv sc k G None w -> heap w !! p = Some c -> p ∈ gL G -> isDead c = true ->
  ledger w' = ledger w -> heap w' = <[p := c <| stopCallback := true |>]> (heap w) -> next w' = next w ->
  fsmList w' = filter (fun q => q <> p) (fsmList w) -> connCount w' = connCount w - 1 -> maxConnCount w' = maxConnCount w ->
  connFsmId w' = connFsmId w -> queue w' = (queue w ++ [MStop p]) ++ [MDeinit p] -> timers w' = timers w ->
  masterUdid w' = masterUdid w -> masterWeight w' = masterWeight w -> localWeight w' = localWeight w -> out w' = out w ->
  inv sc k (G <| gL := filter (fun q => q <> p) (gL G) |>) None w'.
Proof.
  intros H Hc Hin Hd EL Eh En Ef Ecc Em Ei Eq Et Eu Ew El Eo. pose proof H as []. rewrite <- i_list0 in Hin.
  pose proof (length_without _ _ i_nodup0 Hin) as Hlen.
  assert (Hnew : forall q d', <[p := c <| stopCallback := true |>]> (heap w) !! q = Some d' ->
    exists d, heap w !! q = Some d /\ conn_ok d' /\ id d' = id d /\ isDead d' = isDead d /\ (q <> p -> d' = d)).
  { intros q d'. rewrite lookup_insert_Some. intros [[<- <-]|[Hne Hq]].
    - exists c. split_and!; try done. by destruct (i_conn0 _ _ Hc).
    - exists d'. split_and!; eauto. }
  assert (Hm : forall m, m ∈ (queue w ++ [MStop p]) ++ [MDeinit p] -> m ∈ queue w \/ m = MStop p \/ m = MDeinit p).
  { intros m. rewrite !elem_of_app, !list_elem_of_singleton. naive_solver. }
  split; rewrite ?EL, ?Eh, ?En, ?Ef, ?Ecc, ?Em, ?Ei, ?Eq, ?Et, ?Eu, ?Ew, ?El, ?Eo; try done.
  - cbn. by rewrite i_list0.
  - lia.
  - by apply NoDup_filter.
  - intros q [_ Hq]%list_elem_of_filter. apply lookup_insert_is_Some'. right. auto.
  - intros q d' (d & Hq & _)%Hnew. eauto.
  - by intros q d' (d & _ & ? & _)%Hnew.
  - intros q d' (d & Hq & _ & -> & _)%Hnew. eauto.
  - intros q q' d d' (e & He & _ & Ee & _)%Hnew (e' & He' & _ & Ee' & _)%Hnew E. eapply (i_uniq0 q q' e e'); congruence.
  - intros q d' Hl Hn. destruct (Hnew q d' Hl) as (d & Hq & _ & _ & Ed & Heq). destruct (decide (q = p)) as [->|Hne].
    + rewrite lookup_insert_eq in Hl. injection Hl as <-. split_and!; try done. exists (queue w ++ [MStop p]), []. split_and!; [done| |done].
      intros [Hx|Hx]%elem_of_app; [by destruct (i_noend0 p _ Hin Hx)|by apply list_elem_of_singleton in Hx].
    + rewrite (Heq Hne). destruct (i_out0 q d Hq) as (? & ? & ?).
      { intros Hx. apply Hn. by apply list_elem_of_filter. }
      split_and!; try done. apply ends_app; [apply ends_app; [done|]|]; cbn; congruence.
  - intros m q [Hx|[-> | ->]]%Hm Hab; apply lookup_insert_is_Some'; [right; by eapply i_about0|left..]; cbn in Hab; congruence.
  - intros q m [Hne Hq]%list_elem_of_filter [Hx|[-> | ->]]%Hm; [by eapply i_noend0|split; congruence..].
  - intros m [Hx|[-> | ->]]%Hm; [auto|done|done].
  - intros n [Hx|[Hx|Hx]]%Hm; [|done|done]. destruct (i_clean0 n Hx) as [? Hdead]. split; [done|].
    intros q d' (d & Hq & _ & E & Ed & _)%Hnew Hi. rewrite Ed. apply (Hdead q d Hq). congruence.
  - intros q t Hx. destruct (i_timer0 q t Hx) as (d & Hd' & [?|Hal]); [done|]. exists d. split; [|by right].
    rewrite lookup_insert_ne; [done|]. intros <-. replace d with c in Hal by congruence. rewrite allowed_dead in Hal by done.
    by apply elem_of_nil in Hal.
Qed.

Lemma winv_stop k G w p c (Q : unit -> World -> Prop) : inv sc k G None w -> heap w !! p = Some c -> p ∈ gL G -> isDead c = true ->
  (forall w' c', inv sc k (G <| gL := filter (fun q => q <> p) (gL G) |>) None w' -> heap w' !! p = Some c' -> Q tt w') ->
  wps (StopConnectionFsm mem p) Q w.
Proof.
  intros H Hc Hin Hd HQ. unfold StopConnectionFsm, LnnStopConnectionFsm, PostMessageToFsm, looper_post. run_steps.
  eapply wps_upd; [done|]. world_cbn. run_steps. cbn [Z.eqb SOFTBUS_OK negb]. run_steps.
  pose proof (i_count _ _ _ _ _ H) as Hcount. pose proof (i_nodup _ _ _ _ _ H) as Hnd.
  pose proof (length_without _ _ Hnd ltac:(by rewrite (i_list _ _ _ _ _ H))) as Hlen.
  eapply HQ; [|by apply lookup_insert_eq]. eapply (inv_stop k G w _ p c); try done. cbn. wrap_lia.
Qed.

(** ** Loops over the connections *)

Lemma winv_for k G w body (P : World -> Prop) : inv sc k G None w -> P w ->
  (forall p c w1, inv sc k G None w1 -> P w1 -> p ∈ gL G -> heap w1 !! p = Some c ->
     wps (body p) (fun _ w2 => inv sc k G None w2 /\ P w2) w1) ->
  wps (sfor (fsmList w) body) (fun _ w' => inv sc k G None w' /\ P w') w.
Proof.
  intros H HP Hb. rewrite (i_list _ _ _ _ _ H).
  eapply wps_mono; [apply (wps_for body (fun l w' => l ⊆ gL G /\ inv sc k G None w' /\ P w') (gL G))|by intros ? w' (_ & ? & ?)].
  - done.
  - intros p l w1 (Hl & H1 & HP1). assert (p ∈ gL G) as Hp by (apply Hl; left).
    destruct (i_in _ _ _ _ _ H1 p) as [c Hc]; [by rewrite (i_list _ _ _ _ _ H1)|].
    eapply wps_mono; [by eapply Hb|]. intros ? w2 [? ?]. split_and!; try done. intros q Hq. apply Hl. by right.
Qed.

Lemma winv_fold {B} k G w (b : B) body : inv sc k G None w ->
  (forall b p c w1, inv sc k G None w1 -> p ∈ gL G -> heap w1 !! p = Some c ->
     wps (body b p) (fun _ w2 => inv sc k G None w2) w1) ->
  wps (sfold (fsmList w) b body) (fun _ w' => inv sc k G None w') w.
Proof.
  intros H Hb. rewrite (i_list _ _ _ _ _ H).
  eapply wps_mono; [apply (wps_fold body (fun l _ w' => l ⊆ gL G /\ inv sc k G None w') (gL G))|by intros ? w' (_ & ?)].
  - done.
  - intros p l b1 w1 (Hl & H1). assert (p ∈ gL G) as Hp by (apply Hl; left).
    destruct (i_in _ _ _ _ _ H1 p) as [c Hc]; [by rewrite (i_list _ _ _ _ _ H1)|].
    eapply wps_mono; [by eapply Hb|]. intros ? w2 ?. split_and!; try done. intros q Hq. apply Hl. by right.
Qed.

(** A change of the record of a connection that is not about its state. *)
Lemma winv_upd k G w p c f (Q : unit -> World -> Prop) : inv sc k G None w -> heap w !! p = Some c -> keeps c (f c) ->
  allowed (f c) = allowed c -> (forall w', inv sc k G None w' -> heap w' !! p = Some (f c) -> Q tt w') -> wps (upd p f) Q w.
Proof.
  intros H Hc Hk Ha HQ. eapply wat_upd; [by apply at_open|done|]. intros w' H'. apply HQ; [|by apply H'].
  eapply at_close; [done|by rewrite Ha].
Qed.

(** ** A connection is cleaned *)

Lemma winv_initiate k G w p c (Q : unit -> World -> Prop) : inv sc k G None w -> heap w !! p = Some c ->
  (forall w', inv sc k G None w' -> heap w' = heap w -> Q tt w') -> wps (tryInitiateNewNetworkOnline mem p) Q w.
Proof.
  intros H Hc HQ. unfold tryInitiateNewNetworkOnline. apply wps_bind. eapply wps_conn; [done|].
  case_if; [by apply wps_ret, HQ|]. apply wps_bind. eapply winv_find; [done| |by intros; apply wps_ret, HQ].
  apply wps_bind, wps_gets. destruct (co_clean c (i_conn _ _ _ _ _ H p c Hc)) as [i Hi]; [by destruct (has_flag c _)|].
  rewrite Hi. eapply wps_mono; [apply (winv_for k G w _ (fun w' => heap w' = heap w)); [done|done|]|intros [] w' [? ?]; by apply HQ].
  intros q d w1 H1 E Hq Hd. apply wps_bind. eapply wps_conn; [done|]. repeat (case_if; [by apply wps_ret|]). apply wps_bind.
  eapply winv_send; [done|done|done|by intros; apply wps_ret|]. intros _ w2 H2 E2. apply wps_ret. split; [done|congruence].
Qed.

Lemma winv_disconnect k G w p c (Q : unit -> World -> Prop) : inv sc k G None w -> heap w !! p = Some c ->
  (forall w', inv sc k G None w' -> heap w' = heap w -> Q tt w') -> wps (tryDisconnectAllConnection p) Q w.
Proof.
  intros H Hc HQ. unfold tryDisconnectAllConnection. apply wps_bind. eapply wps_conn; [done|]. apply wps_bind.
  eapply winv_find; [done| |by intros; apply wps_ret, HQ]. case_match; [by eapply winv_emit|by apply wps_ret, HQ].
Qed.
Lemma winv_type_offline k G w p c (Q : unit -> World -> Prop) : inv sc k G None w -> heap w !! p = Some c ->
  (forall w', inv sc k G None w' -> heap w' = heap w -> Q tt w') -> wps (tryNotifyAllTypeOffline p) Q w.
Proof.
  intros H Hc HQ. unfold tryNotifyAllTypeOffline. apply wps_bind. eapply wps_conn; [done|]. apply wps_bind.
  eapply winv_find; [done|by eapply winv_emit|by intros; apply wps_ret, HQ].
Qed.

Lemma ProcessClean_fin k G w n : inv sc (S k) G None w -> good G ->
  (forall p c, heap w !! p = Some c -> id c = n -> isDead c = true) ->
  wps (ProcessCleanConnectionFsm mem n) (fun _ w' => finished k G w') w.
Proof.
  intros H HG Hd. unfold ProcessCleanConnectionFsm, FindConnectionFsmByConnFsmId. apply wps_bind.
  eapply winv_find; [done|by apply wps_ret, finished_inv|]. intros p c Hp Hc E%Z.eqb_eq. apply wps_bind.
  eapply winv_stop; [done|done|done|by eapply Hd|]. intros w1 c1 H1 Hc1. apply wps_bind.
  eapply winv_initiate; [done|done|]. intros w2 H2 E2. apply wps_bind.
  eapply winv_disconnect; [done|by rewrite E2|]. intros w3 H3 E3. apply wps_bind.
  eapply winv_type_offline; [done|by rewrite E3, E2|]. intros w4 H4 _. apply wps_ret.
  eapply finished_same; [by eapply inv_le, H4; lia|done|done|done].
Qed.

(** ** Requests to join and results of the authentication *)

Lemma TrySendJoin_fin k G w a b : inv sc (S k) G None w -> good G -> chars (a_text a) = true ->
  wps (TrySendJoinLNNRequest mem a b) (fun _ w' => finished k G w') w.
Proof.
  intros H HG Ha. unfold TrySendJoinLNNRequest, FindConnectionFsmByAddr.
  set (f := if b then LNN_CONN_INFO_FLAG_JOIN_REQUEST else LNN_CONN_INFO_FLAG_JOIN_AUTO).
  assert (Z.land f LNN_CONN_INFO_FLAG_INITIATE_ONLINE = 0) as Hf by (subst f; by destruct b).
  eapply winv_find_alive; [done| |].
  - apply wps_bind. eapply winv_start; [done|done| |].
    + apply wps_bind, wps_ret. cbv iota. apply wps_bind. destruct b; [|by do 2 apply wps_ret; apply finished_inv].
      eapply winv_emit; [done|done|]. intros w' H' _. by apply wps_ret, finished_inv.
    + intros w1 p c H1 Hok Hd _. apply wps_bind. pose proof (at_close _ _ _ _ _ _ _ H1 ltac:(auto using nil_sub)) as Hi.
      eapply winv_send; [done|by apply H1|done|congruence|]. intros _ w2 H2 E2. cbn [Z.eqb SOFTBUS_OK]. apply wps_bind.
      eapply winv_upd; [done|by rewrite E2; apply H1|by apply keeps_set|done|]. intros w3 H3 _. apply wps_ret.
      by eapply finished_same.
  - intros p c Hp Hc Hd _. apply wps_bind, wps_ret, wps_bind. eapply winv_send; [done|done|done|congruence|].
    intros _ w2 H2 E2. cbn [Z.eqb SOFTBUS_OK]. apply wps_bind.
    eapply winv_upd; [done|by rewrite E2|apply keeps_set; [done|exact (i_conn _ _ _ _ _ H p c Hc)]|done|]. intros w3 H3 _. apply wps_ret.
    by apply finished_inv.
Qed.

Lemma ProcessAuthKeyGenerated_fin k G w para : inv sc (S k) G None w -> good G -> builder_ok (MSG_TYPE_AUTH_KEY_GENERATED para) ->
  wps (ProcessAuthKeyGenerated mem para) (fun _ w' => finished k G w') w.
Proof.
  intros H HG [Ha Hi]. unfold ProcessAuthKeyGenerated, FindConnectionFsmByAuthId. eapply winv_find_alive; [done| |].
  - do 2 apply wps_bind. eapply winv_start; [done|done|by do 2 apply wps_ret; apply finished_inv|].
    intros w1 p c H1 Hok Hd _. apply wps_bind. eapply wat_upd; [done|by apply keeps_auth|]. intros w2 H2. apply wps_bind.
    eapply wat_upd; [done|by apply keeps_set; [|eapply at_ok]|]. intros w3 H3. apply wps_ret, wps_bind.
    eapply wat_upd; [done|by apply keeps_version; eapply at_ok|]. intros w4 H4. apply wps_bind.
    eapply winv_send; [eapply at_close; [exact H4|apply nil_sub]|by apply H4|done|by cbn; congruence|].
    intros _ w5 H5 _. apply wps_ret. by eapply finished_same.
  - intros p c Hp Hc Hd _. apply wps_bind, wps_ret, wps_bind.
    eapply winv_upd; [done|done|exact (keeps_version _ _ (i_conn _ _ _ _ _ H p c Hc))|done|]. intros w1 H1 Hc1. apply wps_bind.
    eapply winv_send; [done|done|done|by cbn; congruence|]. intros _ w2 H2 _. by apply wps_ret, finished_inv.
Qed.

Lemma ProcessSyncDeviceInfoDone_fin k G w para : inv sc (S k) G None w -> good G -> chars (r_uuid para) = true ->
  wps (ProcessSyncDeviceInfoDone mem para) (fun _ w' => finished k G w') w.
Proof.
  intros H HG Ha. unfold ProcessSyncDeviceInfoDone, FindConnectionFsmByAuthId.
  eapply winv_find_alive; [done|by apply wps_ret, finished_inv|]. intros p c Hp Hc Hd _.
  eapply winv_send; [done|done|done|congruence|]. intros _ w' H' _. by apply finished_inv.
Qed.
Lemma ProcessAuthDisconnect_fin k G w aid : inv sc (S k) G None w -> good G ->
  wps (ProcessAuthDisconnect mem aid) (fun _ w' => finished k G w') w.
Proof.
  intros H HG. unfold ProcessAuthDisconnect, FindConnectionFsmByAuthId.
  eapply winv_find_alive; [done|by apply wps_ret, finished_inv|]. intros p c Hp Hc Hd _. apply wps_bind.
  eapply winv_send; [done|done|done|congruence|]. intros _ w' H' _. by apply wps_ret, finished_inv.
Qed.

Lemma ProcessAuthDone_fin k G w b aid : inv sc (S k) G None w -> good G ->
  wps (ProcessAuthDone mem b aid) (fun _ w' => finished k G w') w.
Proof.
  intros H HG. unfold ProcessAuthDone, FindConnectionFsmByAuthId. eapply winv_find_alive; [done|by apply wps_ret, finished_inv|].
  intros p c Hp Hc Hd _. apply wps_bind. unfold LnnSendAuthResultMsgToConnFsm, CheckInterfaceCommonArgs. do 2 apply wps_bind.
  eapply wps_conn; [done|]. apply wps_ret. rewrite Hd. cbn [andb negb]. apply wps_bind. eapply winv_ask; [done|].
  intros n w1 H1 E1. cbv beta. rewrite Hmem. cbn [negb]. unfold LnnFsmPostMessage. apply wps_bind.
  eapply wps_conn; [by rewrite E1|]. eapply winv_post; [done|split; [done|exists c; by rewrite E1]|]. intros w2 H2 _.
  by apply wps_ret, finished_inv.
Qed.

Lemma winv_find_udid {B} k G w u (kont : option nat -> SF World B) (Q : B -> World -> Prop) : inv sc k G None w ->
  wps (kont None) Q w ->
  (forall p c, p ∈ gL G -> heap w !! p = Some c -> isDead c = false -> wps (kont (Some p)) Q w) ->
  wps (let* found := FindConnectionFsmByUdid sc u in let* r := alive found in kont r) Q w.
Proof.
  intros H HN HS. apply wps_bind. unfold FindConnectionFsmByUdid, FindConnectionFsmByNetworkId.
  assert (forall p c, p ∈ gL G -> heap w !! p = Some c -> wps (let* r := alive (Some p) in kont r) Q w) as Hf.
  { intros p c Hp Hc. do 2 apply wps_bind. eapply wps_conn; [done|]. apply wps_ret. destruct (isDead c) eqn:Ed; [done|by eapply HS]. }
  apply wps_bind. eapply winv_find; [done| |intros p c Hp Hc _; apply wps_ret; by eapply Hf]. apply wps_bind.
  eapply wps_node_by_id; [done|]. intros r _. destruct r as [i|]; [|by apply wps_ret, wps_bind, wps_ret].
  eapply winv_find; [done|by apply wps_bind, wps_ret|]. intros p c Hp Hc _. by eapply Hf.
Qed.

Lemma ProcessDeviceNotTrusted_fin k G w u : inv sc (S k) G None w -> good G ->
  wps (ProcessDeviceNotTrusted sc mem u) (fun _ w' => finished k G w') w.
Proof.
  intros H HG. unfold ProcessDeviceNotTrusted. eapply winv_find_udid; [done|by apply wps_ret, finished_inv|].
  intros p c Hp Hc Hd. eapply winv_send; [done|done|done|congruence|]. intros _ w' H' _. by apply finished_inv.
Qed.

(** ** Requests to leave *)

Lemma fold_fin {B C} k G w (b : B) body (kont : B -> SF World C) : inv sc (S k) G None w -> good G ->
  (forall b p c w1, inv sc (S k) G None w1 -> p ∈ gL G -> heap w1 !! p = Some c ->
     wps (body b p) (fun _ w2 => inv sc (S k) G None w2) w1) ->
  (forall b w1, inv sc (S k) G None w1 -> wps (kont b) (fun _ w' => finished k G w') w1) ->
  wps (let* l := sgets fsmList in let* b := sfold l b body in kont b) (fun _ w' => finished k G w') w.
Proof.
  intros H HG Hb Hk. apply wps_bind, wps_gets. apply wps_bind. eapply wps_mono; [by apply winv_fold|]. intros b' w' H'. by apply Hk.
Qed.

Lemma ProcessLeaveLNNRequest_fin k G w nid : inv sc (S k) G None w -> good G ->
  wps (ProcessLeaveLNNRequest mem nid) (fun _ w' => finished k G w') w.
Proof.
  intros H HG. unfold ProcessLeaveLNNRequest. eapply fold_fin; [done|done| |].
  - intros b p c w1 H1 Hp Hc. apply wps_bind. eapply wps_conn; [done|]. case_if; [by apply wps_ret|].
    destruct (isDead c) eqn:Ed; [by rewrite orb_true_r in *|]. apply wps_bind.
    eapply winv_send; [done|done|done|congruence|]. intros _ w2 H2 E2. cbn [Z.eqb SOFTBUS_OK negb]. apply wps_bind.
    eapply winv_upd; [done|by rewrite E2|apply keeps_set; [done|exact (i_conn _ _ _ _ _ H1 p c Hc)]|done|].
    intros w3 H3 _. by apply wps_ret.
  - intros b w1 H1. apply wps_bind. case_if; [|by do 2 apply wps_ret; apply finished_inv].
    eapply winv_emit; [done|done|]. intros w2 H2 _. by apply wps_ret, finished_inv.
Qed.

Lemma ProcessSyncOfflineFinish_fin k G w nid : inv sc (S k) G None w -> good G ->
  wps (ProcessSyncOfflineFinish mem nid) (fun _ w' => finished k G w') w.
Proof.
  intros H HG. unfold ProcessSyncOfflineFinish. apply wps_bind, wps_gets.
  eapply wps_mono; [apply (winv_fold (S k) G); [done|]|intros; by apply finished_inv].
  intros b p c w1 H1 Hp Hc. apply wps_bind. eapply wps_conn; [done|]. case_if; [by apply wps_ret|].
  eapply winv_send; [done|done|done|done|]. auto.
Qed.

Lemma keeps_cleanInfo i c : conn_ok c -> is_Some i \/ has_flag c LNN_CONN_INFO_FLAG_INITIATE_ONLINE = false ->
  keeps c (c <| cleanInfo := i |>).
Proof.
  intros [] Hi. split_and!; try done. split; try done. cbn [cleanInfo]. unfold has_flag in *. cbn [flag].
  destruct Hi as [|E]; [done|by rewrite E].
Qed.
Lemma keeps_initiate c : conn_ok c -> is_Some (cleanInfo c) -> keeps c (set_flag LNN_CONN_INFO_FLAG_INITIATE_ONLINE c).
Proof. intros [] Hi. split_and!; try done. Qed.

Lemma ProcessLeaveInvalidConn_fin k G w para : inv sc (S k) G None w -> good G ->
  wps (ProcessLeaveInvalidConn mem para) (fun _ w' => finished k G w') w.
Proof.
  intros H HG. unfold ProcessLeaveInvalidConn. apply wps_bind, wps_gets.
  eapply wps_mono; [apply (winv_fold (S k) G); [done|]|intros; by apply finished_inv].
  intros b p c w1 H1 Hp Hc. apply wps_bind. eapply wps_conn; [done|]. case_if; [by apply wps_ret|].
  pose proof (i_conn _ _ _ _ _ H1 p c Hc) as Hok.
  assert (isDead c = false /\ has_flag c LNN_CONN_INFO_FLAG_INITIATE_ONLINE = false) as [Hd Hf].
  { unfold IsInvalidConnectionFsm in *. destruct (isDead c); [by rewrite orb_true_r in *|]. split; [done|].
    destruct (has_flag c LNN_CONN_INFO_FLAG_INITIATE_ONLINE); [|done]. by repeat case_if_in Hif. }
  apply wps_bind. eapply winv_ask; [done|]. intros n w2 H2 E2. cbv beta. rewrite Hmem. cbn [negb].
  destruct (strncpy_s [] _ _) as [copied nid]. destruct copied; cbn [negb]; cbv iota.
  - apply wps_bind. eapply winv_upd; [done|by rewrite E2|by apply keeps_cleanInfo; eauto|done|]. intros w3 H3 Hc3. apply wps_bind.
    eapply winv_send; [done|done|done|by cbn; congruence|]. intros _ w4 H4 E4. cbn [Z.eqb SOFTBUS_OK]. apply wps_bind, wps_bind.
    eapply winv_upd; [done|by rewrite E4|apply keeps_initiate; [exact (i_conn _ _ _ _ _ H3 p _ Hc3)|by cbn; eauto]|done|].
    intros w5 H5 Hc5. eapply winv_upd; [done|done|by apply keeps_set; [|exact (i_conn _ _ _ _ _ H5 p _ Hc5)]|done|].
    intros w6 H6 _. by apply wps_ret.
  - apply wps_bind. eapply winv_upd; [done|by rewrite E2|by apply keeps_cleanInfo; eauto|done|]. intros w3 H3 _. by apply wps_ret.
Qed.

Lemma ProcessLeaveByAddrType_fin k G w t : inv sc (S k) G None w -> good G ->
  wps (ProcessLeaveByAddrType mem t) (fun _ w' => finished k G w') w.
Proof.
  intros H HG. unfold ProcessLeaveByAddrType. eapply fold_fin; [done|done| |].
  - intros b p c w1 H1 Hp Hc. apply wps_bind. eapply wps_conn; [done|]. case_if; [by apply wps_ret|].
    case_if; [by apply wps_ret|]. apply wps_bind.
    eapply winv_send; [done|done|done|congruence|]. intros _ w2 H2 E2. cbn [Z.eqb SOFTBUS_OK negb]. apply wps_bind.
    eapply winv_upd; [done|by rewrite E2|apply keeps_set; [done|exact (i_conn _ _ _ _ _ H1 p c Hc)]|done|].
    intros w3 H3 _. by apply wps_ret.
  - intros b w1 H1. apply wps_bind. case_if; [|by do 2 apply wps_ret; apply finished_inv].
    eapply winv_emit; [done|done|]. intros w2 H2 _. by apply wps_ret, finished_inv.
Qed.

(** ** Election of the master *)

Lemma winv_lock k G w (Q : bool -> World -> Prop) : inv sc k G None w ->
  (forall w', inv sc k G None w' -> heap w' = heap w -> Q true w') -> wps (local_lock lenv) Q w.
Proof.
  intros H HQ. unfold local_lock. apply wps_bind. eapply winv_ask; [done|]. intros n w' H' E. apply wps_ret.
  destruct (Henv n) as (-> & _). by apply HQ.
Qed.

Lemma winv_online k G w nid (Q : bool -> World -> Prop) : inv sc k G None w ->
  (forall b w', inv sc k G None w' -> heap w' = heap w -> Q b w') -> wps (IsNodeOnline sc coin nid) Q w.
Proof.
  intros H HQ. unfold IsNodeOnline. apply wps_bind. eapply winv_ask; [done|]. intros n w1 H1 E1. apply wps_bind.
  eapply wps_node_by_id; [done|]. intros r _. by apply wps_ret, HQ.
Qed.

Lemma winv_sync k G w nid t i (Q : Z -> World -> Prop) : inv sc k G None w ->
  (forall r w', inv sc k G None w' -> Q r w') -> wps (LnnSyncLedgerItemInfo coin nid t i) Q w.
Proof.
  intros H HQ. unfold LnnSyncLedgerItemInfo. apply wps_bind. eapply winv_emit; [done|done|]. intros w1 H1 _. apply wps_bind.
  eapply winv_ask; [done|]. intros n w2 H2 _. by apply wps_ret, HQ.
Qed.

Lemma winv_elect_all k G w skip (Q : unit -> World -> Prop) : inv sc k G None w ->
  (forall w', inv sc k G None w' -> Q tt w') -> wps (SendElectMessageToAll sc coin skip) Q w.
Proof.
  intros H HQ. unfold SendElectMessageToAll. apply wps_bind, wps_gets.
  eapply wps_mono; [apply (winv_for k G w _ (fun _ => True)); [done|done|]|intros [] w' [? _]; by apply HQ].
  intros p c w1 H1 _ Hp Hc. apply wps_bind. eapply wps_conn; [done|]. case_if; [by apply wps_ret|]. apply wps_bind.
  eapply winv_online; [done|]. intros b w2 H2 _. case_if; [by apply wps_ret|]. apply wps_bind. eapply winv_sync; [done|].
  intros r w3 H3. by apply wps_ret.
Qed.

Lemma inv_master k G x w u v : inv sc k G x w ->
  inv sc k (G <| gU := u |> <| gW := v |>) x (w <| masterUdid := u |> <| masterWeight := v |>).
Proof. intros []. by split. Qed.

(** The master becomes the one given, or stays when its udid is not valid. *)
Lemma winv_update_master k G w u v (Q : unit -> World -> Prop) : inv sc k G None w -> fits UDID_BUF_LEN u = true ->
  (forall w', inv sc k G None w' -> Q tt w') ->
  (u <> [] -> forall w', inv sc k (G <| gU := u |> <| gW := v |>) None w' -> Q tt w') ->
  wps (UpdateLocalMasterNode lenv u v) Q w.
Proof.
  intros H Hu Hs Hn. pose proof (fits_short _ _ Hu) as Hl. pose proof Hu as [_ Hch]%andb_true_iff. unfold UDID_BUF_LEN in Hl.
  unfold UpdateLocalMasterNode, SetLocalMasterUdid. do 2 apply wps_bind. eapply winv_lock; [done|]. intros w1 H1 _. cbn [negb].
  apply wps_bind. eapply wps_lift; [apply (IsValidString_text u UDID_BUF_LEN); [done|lia]|]. rewrite negb_involutive.
  case_if; [by apply wps_ret; cbn; apply wps_ret, Hs|]. apply wps_bind, wps_gets. rewrite strncpy_s_fits by done.
  apply wps_bind, wps_modify, wps_ret. cbn [Z.eqb SOFTBUS_OK negb]. apply wps_bind. unfold SetLocalMasterWeight, local_lock.
  do 2 apply wps_bind. apply wps_ask, wps_ret. destruct (Henv (tick (w1 <| masterUdid := u |>))) as (-> & _). cbn [negb].
  apply wps_bind, wps_modify. do 2 apply wps_ret. apply Hn; [by intros ->|]. exact (inv_tick sc k _ None _ _ (inv_master k G None w1 u v H1)).
Qed.

Lemma winv_master_udid k G w (Q : option (list Z) -> World -> Prop) : inv sc k G None w ->
  (forall w', inv sc k G None w' -> heap w' = heap w -> Q None w' /\ Q (Some (gU G)) w') -> wps (GetLocalMasterUdid lenv) Q w.
Proof.
  intros H HQ. unfold GetLocalMasterUdid. apply wps_bind. eapply winv_lock; [done|]. intros w1 H1 E1. cbn [negb].
  apply wps_bind, wps_gets. rewrite (i_udid _ _ _ _ _ H1). unfold strncpy_s. repeat case_if; apply wps_ret; by apply HQ.
Qed.
Lemma winv_master_weight k G w (Q : option Z -> World -> Prop) : inv sc k G None w ->
  (forall w', inv sc k G None w' -> heap w' = heap w -> Q (Some (gW G)) w') -> wps (GetLocalMasterWeight lenv) Q w.
Proof.
  intros H HQ. unfold GetLocalMasterWeight. apply wps_bind. eapply winv_lock; [done|]. intros w1 H1 E1. cbn [negb].
  apply wps_bind, wps_gets, wps_ret. rewrite (i_weight _ _ _ _ _ H1). by apply HQ.
Qed.
Lemma winv_local_udid k G w (Q : option (list Z) -> World -> Prop) : inv sc k G None w ->
  (forall w' u, inv sc k G None w' -> heap w' = heap w -> u = None \/ (u = Some (l_udid local) /\ fits UDID_BUF_LEN (l_udid local) = true) ->
     Q u w') -> wps (GetLocalUdid lenv local) Q w.
Proof.
  intros H HQ. unfold GetLocalUdid. apply wps_bind. eapply winv_lock; [done|]. intros w1 H1 E1.
  destruct (strncpy_s [] UDID_BUF_LEN (l_udid local)) as [ok u] eqn:E. apply wps_ret, HQ; [done|done|]. destruct ok; [right|by left].
  unfold strncpy_s in E. repeat case_if_in E; [done|done|]. injection E as <-. split; [done|]. unfold fits.
  fold (chars (l_udid local)). rewrite Hlocal. bool_lia.
Qed.

Lemma winv_weight k G w (Q : Z -> World -> Prop) : inv sc k G None w ->
  (forall v w', inv sc k G None w' -> heap w' = heap w -> 0 <= v <= MAX_WEIGHT_VALUE -> Q v w') -> wps (LnnGetLocalWeight rand) Q w.
Proof.
  intros H HQ. unfold LnnGetLocalWeight. apply wps_bind, wps_gets. destruct (localWeight w) as [v|] eqn:El.
  { apply wps_ret, HQ; [done|done|]. by apply (i_local _ _ _ _ _ H). }
  apply wps_bind. eapply winv_ask; [done|]. intros n w1 H1 E1. destruct (rand n) as [v|]; [|by apply wps_ret, HQ].
  assert (0 <= u8 v * MAX_WEIGHT_VALUE ÷ UINT8_MAX <= MAX_WEIGHT_VALUE) as Hv.
  { unfold MAX_WEIGHT_VALUE, UINT8_MAX. assert (0 <= u8 v < 256) by wrap_lia.
    split; [apply Z.quot_pos; lia|]. apply Z.quot_le_upper_bound; lia. }
  apply wps_bind, wps_modify, wps_ret, HQ; [|done|done]. destruct H1. split; try done. cbn. by intros ? [= <-].
Qed.

Lemma elect_fin k G w u v nid : inv sc (S k) G None w -> good G -> fits UDID_BUF_LEN u = true ->
  (u <> [] -> elects G (G <| gU := u |> <| gW := v |>)) ->
  wps (UpdateLocalMasterNode lenv u v) (fun _ w1 => wps (SendElectMessageToAll sc coin nid) (fun _ w' => finished k G w') w1) w.
Proof.
  intros H HG Hu He. eapply winv_update_master; [done|done| |].
  - intros w1 H1. eapply winv_elect_all; [done|]. intros. by apply finished_inv.
  - intros Hne w1 H1. eapply winv_elect_all; [done|]. intros w2 H2. eexists. split; [eapply inv_le, H2; lia|auto].
Qed.

Lemma wps_bind_ret {B} (m : SF World unit) (b : B) (P : World -> Prop) w :
  wps m (fun _ w' => P w') w -> wps (m;; sret b) (fun _ w' => P w') w.
Proof. intros H. apply wps_bind. eapply wps_mono; [exact H|]. intros ? w' Hw. by apply wps_ret. Qed.

(** What the peer's master is, as the ledger tells. *)
Lemma winv_peer_udid k G w nid (Q : Z * option Buf -> World -> Prop) n : inv sc k G None w ->
  (forall w', inv sc k G None w' -> heap w' = heap w ->
     (forall r b, r <> SOFTBUS_OK -> Q (r, b) w') /\ (forall u, fits UDID_BUF_LEN u = true -> Q (SOFTBUS_OK, Some (BStr u)) w')) ->
  wps (on_ledger (LnnGetDLStrInfo sc (lenv n) (Some nid) STRING_KEY_MASTER_NODE_UDID (Some []) UDID_BUF_LEN)) Q w.
Proof.
  intros H HQ. pose proof (i_rel _ _ _ _ _ H) as HR. pose proof (i_room _ _ _ _ _ H) as Hroom.
  pose proof (meets_str sc (ledger w) (gA G) (lenv n) (Some nid) STRING_KEY_MASTER_NODE_UDID (Some []) UDID_BUF_LEN HR) as Hm.
  apply wps_on_ledger. eapply wps_mono; [apply (wps_bind_inv _ _ _ _ (Hm ltac:(eapply room_le, Hroom; lia) ltac:(done)))|].
  intros [r b] L' H'. cbv beta iota in H'. destruct H' as (A' & [-> Hs] & HR').
  destruct (HQ (w <| ledger := L' |>)) as [HE HO]; [|done|].
  { pose proof (inv_ledger sc k G None w L' (gA G) k H ltac:(lia) HR' Hroom) as Hi. by destruct G. }
  destruct (Henv n) as (El & _). rewrite El in Hs. cbn [Z.geb negb STRING_KEY_MASTER_NODE_UDID STRING_KEY_END Z.compare] in Hs.
  destruct Hs as (u & Hf & Hs). destruct u as [u|]; cbn in Hs; [|injection Hs as -> ->; by apply HE].
  destruct (nodes (gA G) !! u) as [m|] eqn:Em; cbn in Hs; [|injection Hs as -> ->; by apply HE].
  destruct (lr_typed _ _ _ HR u m Em) as [Ht _]. destruct (online m); cbn in Hs; [|injection Hs as -> ->; by apply HE].
  unfold copied in Hs. rewrite strncpy_s_fits in Hs; [|done|by apply ty_masterUdid]. injection Hs as -> ->. by apply HO, ty_masterUdid.
Qed.
Lemma winv_peer_weight k G w nid (Q : Z * option Buf -> World -> Prop) n : inv sc k G None w ->
  (forall w', inv sc k G None w' -> heap w' = heap w ->
     (forall r b, r <> SOFTBUS_OK -> Q (r, b) w') /\ (forall v, Q (SOFTBUS_OK, Some (BInt v)) w')) ->
  wps (on_ledger (LnnGetDLNumInfo sc (lenv n) (Some nid) NUM_KEY_MASTER_NODE_WEIGHT (Some 0))) Q w.
Proof.
  intros H HQ. pose proof (i_rel _ _ _ _ _ H) as HR. pose proof (i_room _ _ _ _ _ H) as Hroom.
  pose proof (meets_num sc (ledger w) (gA G) (lenv n) (Some nid) NUM_KEY_MASTER_NODE_WEIGHT (Some 0) HR) as Hm.
  apply wps_on_ledger. eapply wps_mono; [apply (wps_bind_inv _ _ _ _ (Hm ltac:(eapply room_le, Hroom; lia)))|].
  intros [r b] L' H'. cbv beta iota in H'. destruct H' as (A' & [-> Hs] & HR').
  destruct (HQ (w <| ledger := L' |>)) as [HE HO]; [|done|].
  { pose proof (inv_ledger sc k G None w L' (gA G) k H ltac:(lia) HR' Hroom) as Hi. by destruct G. }
  destruct (Henv n) as (El & _). rewrite El in Hs. cbn in Hs.
  destruct Hs as (u & Hf & Hs). destruct u as [u|]; cbn in Hs; [|injection Hs as -> ->; by apply HE].
  destruct (nodes (gA G) !! u) as [m|] eqn:Em; cbn in Hs; injection Hs as -> ->; [by apply HO|by apply HE].
Qed.

Lemma TryElectOnline_fin k G w p c : inv sc (S k) G None w -> good G -> heap w !! p = Some c ->
  wps (TryElectMasterNodeOnline sc coin lenv p) (fun _ w' => finished k G w') w.
Proof.
  intros H HG Hc. unfold TryElectMasterNodeOnline. apply wps_bind. eapply winv_master_udid; [done|]. intros w1 H1 E1.
  split; [by apply wps_ret, finished_inv|]. apply wps_bind. eapply winv_master_weight; [done|]. intros w2 H2 E2. apply wps_bind.
  eapply wps_conn; [by rewrite E2, E1|]. apply wps_bind. eapply winv_ask; [done|]. intros n w3 H3 E3. apply wps_bind.
  eapply winv_peer_udid; [done|]. intros w4 H4 E4. split.
  { intros r b Hr. apply Z.eqb_neq in Hr. rewrite Hr. by apply wps_ret, finished_inv. }
  intros u Hu. cbn [Z.eqb SOFTBUS_OK negb]. apply wps_bind. eapply winv_ask; [done|]. intros n' w5 H5 E5. apply wps_bind.
  eapply winv_peer_weight; [done|]. intros w6 H6 E6. split.
  { intros r b Hr. apply Z.eqb_neq in Hr. rewrite Hr. by apply wps_ret, finished_inv. }
  intros v. cbn [Z.eqb SOFTBUS_OK negb]. case_if; [by apply wps_ret, finished_inv|].
  pose proof (elect_fin k G w6 u v (Some (peerNetworkId c)) H6 HG Hu ltac:(intros _; right; left; cbn; lia)) as He.
  apply wps_bind. eapply wps_mono; [exact He|]. intros [] w7 H7. by apply wps_bind_ret.
Qed.

Lemma TryElectOffline_fin k G w p c : inv sc (S k) G None w -> good G -> heap w !! p = Some c ->
  wps (TryElectMasterNodeOffline sc coin lenv rand local p) (fun _ w' => finished k G w') w.
Proof.
  intros H HG Hc. unfold TryElectMasterNodeOffline. apply wps_bind. eapply winv_master_udid; [done|]. intros w1 H1 E1.
  split; [by apply wps_ret, finished_inv|]. apply wps_bind. eapply winv_local_udid; [done|]. intros w2 u H2 E2 Hu.
  case_if; [by apply wps_ret, finished_inv|]. apply wps_bind. eapply wps_conn; [by rewrite E2, E1|]. apply wps_bind.
  eapply winv_weight; [done|]. intros v w3 H3 E3 Hv. apply wps_bind.
  eapply wps_mono; [apply (elect_fin k G _ (default [] u) v (Some (peerNetworkId c)) H3 HG)|intros [] w4 H4; by apply wps_bind_ret].
  - by destruct Hu as [-> |[-> ?]].
  - intros Hne. right. right. by destruct Hu as [-> |[-> ?]].
Qed.

Lemma ProcessNodeStateChanged_fin k G w a : inv sc (S k) G None w -> good G ->
  wps (ProcessNodeStateChanged sc coin lenv rand local a) (fun _ w' => finished k G w') w.
Proof.
  intros H HG. unfold ProcessNodeStateChanged, FindConnectionFsmByAddr. apply wps_bind.
  eapply winv_find; [done|by apply wps_ret, finished_inv|]. intros p c Hp Hc _. apply wps_bind. eapply wps_conn; [done|].
  case_if; [by apply wps_ret, finished_inv|]. apply wps_bind. eapply winv_online; [done|]. intros b w1 H1 E1.
  case_if; [eapply TryElectOnline_fin|eapply TryElectOffline_fin]; (done || by rewrite E1).
Qed.

Lemma ProcessMasterElect_fin k G w para : inv sc (S k) G None w -> good G -> fits UDID_BUF_LEN (e_masterUdid para) = true ->
  wps (ProcessMasterElect sc coin lenv para) (fun _ w' => finished k G w') w.
Proof.
  intros H HG Hu. unfold ProcessMasterElect. eapply winv_find_udid; [done|by apply wps_ret, finished_inv|].
  intros p c Hp Hc Hd. apply wps_bind. eapply wps_conn; [done|]. apply wps_bind. eapply winv_online; [done|]. intros b w1 H1 E1.
  case_if; [by apply wps_ret, finished_inv|]. apply wps_bind. eapply winv_master_udid; [done|]. intros w2 H2 E2.
  split; [by apply wps_ret, finished_inv|]. apply wps_bind. eapply winv_master_weight; [done|]. intros w3 H3 E3.
  apply wps_bind_ret. case_if; apply wps_bind.
  - apply (elect_fin k G _ _ (e_masterWeight para) _ H3 HG Hu). intros _. right. left. cbn. lia.
  - eapply winv_sync; [done|]. intros r w4 H4. by apply wps_ret, finished_inv.
Qed.

(** ** The handler of the net builder *)

Lemma handler_fin k G w m : inv sc (S k) G None w -> good G -> builder_ok m ->
  (forall n, m = MSG_TYPE_CLEAN_CONN_FSM n -> forall p c, heap w !! p = Some c -> id c = n -> isDead c = true) ->
  wps (NetBuilderMessageHandler sc mem coin lenv rand local m) (fun _ w' => finished k G w') w.
Proof.
  intros H HG Hm Hc. destruct m; cbn [NetBuilderMessageHandler].
  - by apply TrySendJoin_fin.
  - by apply TrySendJoin_fin.
  - by apply ProcessClean_fin; [| |apply Hc].
  - by apply ProcessAuthKeyGenerated_fin.
  - by apply ProcessAuthDone_fin.
  - by apply ProcessSyncDeviceInfoDone_fin.
  - by apply ProcessDeviceNotTrusted_fin.
  - by apply ProcessAuthDisconnect_fin.
  - by apply ProcessLeaveLNNRequest_fin.
  - by apply ProcessSyncOfflineFinish_fin.
  - by apply ProcessNodeStateChanged_fin.
  - by apply ProcessMasterElect_fin.
  - by apply ProcessLeaveInvalidConn_fin.
  - by apply ProcessLeaveByAddrType_fin.
Qed.

(** ** Calls from outside *)

(** The messages that come from outside. *)
Definition from_outside (m : NetBuilderMessageType) : Prop :=
  builder_ok m /\ match m with MSG_TYPE_CLEAN_CONN_FSM _ => False | _ => True end.

Lemma post_fin k G w m : inv sc (S k) G None w -> good G -> from_outside m ->
  wps (PostMessageToHandler mem m) (fun _ w' => finished k G w') w.
Proof.
  intros H HG [Hm Ho]. eapply winv_handler; [done|by split; [|destruct m]|]. intros r w' H'. by apply finished_inv.
Qed.
Lemma post_unit_fin k G w m : inv sc (S k) G None w -> good G -> from_outside m ->
  wps (PostMessageToHandler mem m;; sret tt) (fun _ w' => finished k G w') w.
Proof. intros H HG Hm. apply wps_bind. eapply wps_mono; [by apply post_fin|]. intros ? w' Hw. by apply wps_ret. Qed.
Lemma post_para_fin k G w m : inv sc (S k) G None w -> good G -> from_outside m ->
  wps (post_para mem m) (fun _ w' => finished k G w') w.
Proof.
  intros H HG Hm. unfold post_para. apply wps_bind. eapply winv_ask; [done|]. intros n w1 H1 _. cbv beta. rewrite Hmem.
  by apply post_unit_fin.
Qed.
Lemma request_fin k G w m r : inv sc (S k) G None w -> good G -> from_outside m ->
  wps (request mem m r) (fun _ w' => finished k G w') w.
Proof.
  intros H HG Hm. unfold request. apply wps_bind, wps_gets. case_if; [by apply wps_ret, finished_inv|]. apply wps_bind.
  eapply winv_ask; [done|]. intros n w1 H1 _. cbv beta. rewrite Hmem. by apply post_fin.
Qed.
Lemma request_addr_fin k G w a m : inv sc (S k) G None w -> good G -> (forall x, a = Some x -> from_outside (m x)) ->
  wps (request_addr mem a m;; sret tt) (fun _ w' => finished k G w') w.
Proof.
  intros H HG Hm. apply wps_bind. unfold request_addr. apply wps_bind, wps_gets. case_if; [by do 2 apply wps_ret; apply finished_inv|].
  destruct a as [x|]; [|by do 2 apply wps_ret; apply finished_inv].
  eapply wps_mono; [by apply request_fin; [| |apply Hm]|]. intros ? w' Hw. by apply wps_ret.
Qed.
Lemma request_networkId_fin k G w a m : inv sc (S k) G None w -> good G -> (forall x, from_outside (m x)) ->
  wps (request_networkId mem a m;; sret tt) (fun _ w' => finished k G w') w.
Proof.
  intros H HG Hm. apply wps_bind. unfold request_networkId. apply wps_bind, wps_gets.
  case_if; [by do 2 apply wps_ret; apply finished_inv|]. destruct a as [x|]; [|by do 2 apply wps_ret; apply finished_inv].
  apply wps_bind. eapply winv_ask; [done|]. intros n w1 H1 _. cbv beta. rewrite Hmem. cbn [negb].
  destruct (strncpy_s [] _ x) as [ok y]. case_if; [by do 2 apply wps_ret; apply finished_inv|].
  eapply wps_mono; [by apply post_fin|]. intros ? w' Hw. by apply wps_ret.
Qed.

Lemma OnAuthKeyGenerated_fin k G w aid o v : inv sc (S k) G None w -> good G -> chars (o_text o) = true -> int64 aid ->
  wps (OnAuthKeyGenerated mem lenv local aid o v) (fun _ w' => finished k G w') w.
Proof.
  intros H HG Ho Ha. unfold OnAuthKeyGenerated. apply wps_bind. eapply winv_ask; [done|]. intros n w1 H1 _. cbv beta.
  rewrite Hmem. cbn [negb]. apply wps_bind. unfold GetCurrentConnectType. apply wps_bind. eapply winv_lock; [done|]. intros w2 H2 _.
  cbn [negb]. assert (forall t, wps (match t ← t; LnnConvertOptionToAddr o t with
    | None => sret tt | Some a => PostMessageToHandler mem (MSG_TYPE_AUTH_KEY_GENERATED (mkKeyGen a aid v));; sret tt end)
    (fun _ w' => finished k G w') w2) as Hp.
  { intros t. destruct t as [t|]; cbn [mbind option_bind]; [|by apply wps_ret, finished_inv].
    destruct (LnnConvertOptionToAddr o t) as [a|] eqn:Ea; [|by apply wps_ret, finished_inv].
    apply post_unit_fin; [done|done|]. split; [|done]. split; [|done]. cbn [k_addr]. revert Ea. unfold LnnConvertOptionToAddr.
    unfold strncpy_s. destruct (o_type o); repeat case_if; try done; by intros [= <-]. }
  repeat case_if; apply wps_ret, Hp.
Qed.

Lemma OnRecvPeerDeviceInfo_fin k G w aid u d : inv sc (S k) G None w -> good G -> opt_chars u ->
  wps (OnRecvPeerDeviceInfo mem aid u d) (fun _ w' => finished k G w') w.
Proof.
  intros H HG Hu. unfold OnRecvPeerDeviceInfo. destruct u as [u|]; [|by apply wps_ret, finished_inv].
  case_if; [by apply wps_ret, finished_inv|]. apply wps_bind. eapply winv_ask; [done|]. intros n w1 H1 _. cbv beta.
  rewrite Hmem. cbn [negb]. unfold strncpy_s. repeat case_if; try done; cbn [negb]; try (by apply wps_ret, finished_inv).
  by apply post_unit_fin.
Qed.

Lemma OnDeviceNotTrusted_fin k G w u : inv sc (S k) G None w -> good G ->
  wps (OnDeviceNotTrusted mem u) (fun _ w' => finished k G w') w.
Proof.
  intros H HG. unfold OnDeviceNotTrusted. destruct u as [u|]; [|by apply wps_ret, finished_inv].
  apply wps_bind. eapply winv_ask; [done|]. intros n w1 H1 _. cbv beta.
  rewrite Hmem. cbn [negb]. destruct (strncpy_s _ _ _) as [ok s]. case_if; [by apply wps_ret, finished_inv|]. by apply post_unit_fin.
Qed.

Lemma LnnNotifyMasterElect_fin k G w u m v : inv sc (S k) G None w -> good G -> opt_chars m ->
  wps (LnnNotifyMasterElect mem u m v;; sret tt) (fun _ w' => finished k G w') w.
Proof.
  intros H HG Hm. apply wps_bind. unfold LnnNotifyMasterElect. apply wps_bind, wps_gets.
  assert (forall w', inv sc (S k) G None w' -> forall r : Z, wps (sret r) (fun _ w2 => wps (sret tt) (fun _ w3 => finished k G w3) w2) w')
    as Hend by (intros w' H' r; do 2 apply wps_ret; by apply finished_inv).
  case_if; [auto|]. destruct u as [u|]; [|auto]. destruct m as [m|]; [|auto].
  apply wps_bind. eapply winv_ask; [done|]. intros n w1 H1 _. cbv beta. rewrite Hmem. cbn [negb].
  destruct (strncpy_s [] UDID_BUF_LEN u) as [ok1 u']. destruct (strncpy_s [] UDID_BUF_LEN m) as [ok2 m'] eqn:Em.
  pose proof (strncpy_s_result UDID_BUF_LEN [] m ltac:(done) Hm ltac:(done)) as Hf. rewrite Em in Hf.
  case_if; [auto|]. eapply wps_mono; [by apply post_fin|]. intros ? w' Hw. by apply wps_ret.
Qed.

(** ** Messages for the machines and steps *)

(** A message is taken; the end of a machine is for one that is not in the list. *)
Lemma inv_take k G w m q : inv sc k G None w -> queue w = m :: q -> (forall p, m <> MDeinit p) -> inv sc k G None (w <| queue := q |>).
Proof.
  intros H Eq Hm. pose proof H as []. rewrite Eq in *. split; try done; cbn [queue heap fsmList connFsmId].
  - intros p c Hc Hn. destruct (i_out0 p c Hc Hn) as (? & ? & l1 & l2 & E & H1 & H2). split_and!; try done.
    destruct l1 as [|x l1]; [injection E as ->; by destruct (Hm p)|]. injection E as -> ->. exists l1, l2. split_and!; try done.
    intros Hin. apply H1. by right.
  - intros m' p Hin. apply i_about0. by right.
  - intros p m' Hp Hin. apply (i_noend0 p m' Hp). by right.
  - intros m' Hin. apply i_msgs0. by right.
  - intros n Hin. apply i_clean0. by right.
Qed.

Lemma inv_end k G w p q : inv sc k G None w -> queue w = MDeinit p :: q ->
  exists c, heap w !! p = Some c /\ stopCallback c = true /\ inv sc k G None (w <| queue := q |> <| heap := delete p (heap w) |>).
Proof.
  intros H Eq. pose proof H as []. destruct (i_about0 (MDeinit p) p) as [c Hc]; [rewrite Eq; left|done|].
  assert (p ∉ fsmList w) as Hn by (intros Hp; destruct (i_noend0 p (MDeinit p) Hp); [rewrite Eq; left|done]).
  destruct (i_out0 p c Hc Hn) as (Hd & Hs & l1 & l2 & E & H1 & H2). exists c. split_and!; [done|done|].
  assert (q = l2) as ->.
  { rewrite Eq in E. destruct l1 as [|x l1]; [by injection E|]. injection E as <- _. by destruct H1; left. }
  assert (Hdel : forall r d, delete p (heap w) !! r = Some d -> r <> p /\ heap w !! r = Some d).
  { intros r d. rewrite lookup_delete_Some. intros [? ?]. split; [auto|done]. }
  rewrite Eq in *. split; try done; cbn [queue heap fsmList connFsmId timers next].
  - intros r Hr. rewrite lookup_delete_ne; [auto|]. congruence.
  - intros r d [_ Hr]%Hdel. eauto.
  - intros r d [_ Hr]%Hdel. eauto.
  - intros r d [_ Hr]%Hdel. eauto.
  - intros r r' d d' [_ Hr]%Hdel [_ Hr']%Hdel. eauto.
  - intros r d [Hne Hr]%Hdel Hnr. destruct (i_out0 r d Hr Hnr) as (? & ? & l1' & l2' & E' & H1' & H2'). split_and!; try done.
    destruct l1' as [|x l1']; [injection E'; congruence|]. injection E' as <- ->. exists l1', l2'. split_and!; try done.
    intros Hin. apply H1'. by right.
  - intros m r Hin Ha. rewrite lookup_delete_ne; [apply (i_about0 m r); [by right|done]|]. intros <-.
    eapply Forall_forall in H2; [|done]. done.
  - intros r m Hr Hin. apply (i_noend0 r m Hr). by right.
  - intros m Hin. apply i_msgs0. by right.
  - intros n Hin. destruct (i_clean0 n) as [? Hdd]; [by right|]. split; [done|]. intros r d [_ Hr]%Hdel. eauto.
  - intros r t Hin. destruct (i_timer0 r t Hin) as (d & Hd' & [?|Hal]); [done|]. exists d. split; [|by right].
    rewrite lookup_delete_ne; [done|]. intros <-. replace d with c in Hal by congruence. rewrite allowed_dead in Hal by done.
    by apply elem_of_nil in Hal.
Qed.

End steps.
End LnnNetSteps.
