(* ===== verification/LnnNetMain.v ===== *)
(** * Theorems of the net builder

    The system from its start on, under any sequence of calls of the bus centre and
    of the authentication, of timers that run out and of messages that are handled:
    exactly when a step faults, the bookkeeping of the connections, what the
    listeners know, and how the master changes. *)

From S2P Require Import Prelude StateFault Utils LnnMap LnnNodeInfo LnnLedger LnnLedgerRel LnnLedgerSpec LnnLedgerOps LnnLedgerMain.
From S2P Require Import LnnNet LnnConnFsm LnnNetBuilder LnnNetInv LnnNetFsm LnnNetSteps.

Module LnnNetMain.
Import LnnNodeInfo LnnLedger LnnLedgerRel LnnLedgerSpec LnnLedgerOps LnnLedgerMain LnnNet LnnConnFsm LnnNetBuilder.
Import LnnNetInv LnnNetFsm LnnNetSteps.
#[local] Open Scope sf_scope.

(** The bookkeeping of the connections: the list has no duplicates, its length is
    the count, which is within the limit; the machines of the list, of the messages
    that wait and of the timers exist; a machine that is not in the list is dead,
    and the message that frees it waits; a dead machine has no timer; identifiers
    are unique. *)
Record connections_ok (w : World) : Prop := {
  cs_nodup : NoDup (fsmList w);
  cs_count : connCount w = Z.of_nat (length (fsmList w)) /\ connCount w <= maxConnCount w;
  cs_list : forall p, p ∈ fsmList w -> is_Some (heap w !! p);
  cs_queue : forall m p, m ∈ queue w -> about m = Some p -> is_Some (heap w !! p);
  cs_timer : forall p t, (p, t) ∈ timers w -> exists c, heap w !! p = Some c /\ isDead c = false /\ p ∈ fsmList w;
  cs_out : forall p c, heap w !! p = Some c -> p ∉ fsmList w -> isDead c = true /\ MDeinit p ∈ queue w;
  cs_ids : forall p q c d, heap w !! p = Some c -> heap w !! q = Some d -> id c = id d -> p = q;
}.

Section main.
Context (sc : bool) (mem coin : nat -> bool) (lenv : nat -> Env) (rand : nat -> option Z) (local : Local).

(** The start: the ledger, then the net builder. *)
Definition boot (config : option Z) : SF World Z :=
  on_ledger (LnnInitDistributedLedger true);; LnnInitNetBuilder coin lenv rand local config.

(** The worlds that a history of at most [n] events leads to. *)
Definition reaches (config : option Z) (n : Z) (w : World) : Prop :=
  exists es r w0, boot config (world0 g_distributedNetLedger) = Some (r, w0) /\
    run sc mem coin lenv rand local es w0 = Some (tt, w) /\ Forall event_ok es /\ Z.of_nat (length es) <= n.

Context (Hmem : forall n, mem n = true) (Henv : forall n, env_ok (lenv n)) (Hlocal : chars (l_udid local) = true).

Implicit Types (k : nat) (G : Ghost) (w : World) (p : nat) (c : LnnConnectionFsm).

(** ** Steps *)

#[local] Abbreviation step_ := (step sc mem coin lenv rand local).
#[local] Abbreviation run_ := (run sc mem coin lenv rand local).
#[local] Abbreviation finished_ := (finished sc local).

Lemma start_fin k G w p : inv sc (S k) G None w -> good G -> is_Some (heap w !! p) ->
  wps (ProcessStartMessage sc mem coin lenv p STATE_AUTH) (fun _ w' => finished_ k G w') w.
Proof.
  intros H HG [c Hc]. pose proof (at_open _ _ _ _ _ _ H Hc) as Ha. unfold ProcessStartMessage. apply wps_bind.
  eapply wps_conn; [done|]. case_if; [by apply wps_ret, finished_inv|].
  assert (allowed c = []) as Eal.
  { unfold allowed. destruct (isDead c); [done|]. destruct (curState c); [|done]. by rewrite bool_decide_eq_true_2 in *. }
  rewrite Eal in Ha. apply wps_bind. eapply wat_upd; [done|by apply keeps_state; eapply at_ok|]. intros w1 H1. apply wps_bind, wps_ret.
  eapply wat_upd; [done|by apply keeps_running; eapply at_ok|]. intros w2 H2.
  eapply finished_at; [eapply at_le, H2; lia|apply nil_sub|done..].
Qed.

Lemma stop_fin k G w p c : inv sc (S k) G None w -> good G -> heap w !! p = Some c -> isDead c = true ->
  wps (ProcessStopMessage p) (fun _ w' => finished_ k G w') w.
Proof.
  intros H HG Hc Hd. pose proof (at_open _ _ _ _ _ _ H Hc) as Ha. unfold ProcessStopMessage. apply wps_bind.
  eapply wps_conn; [done|]. case_if; [by apply wps_ret, finished_inv|]. rewrite allowed_dead in Ha by done. apply wps_bind.
  eapply wat_upd; [done|by apply keeps_state; eapply at_ok|]. intros w1 H1.
  eapply wat_upd; [done|by apply keeps_running; eapply at_ok|]. intros w2 H2.
  eapply finished_at; [eapply at_le, H2; lia|apply nil_sub|done..].
Qed.

Lemma data_fin k G w p c x t a : inv sc (S k) G None w -> good G -> heap w !! p = Some c -> ext_ok x -> para_ok a ->
  (running c = true -> has_node c t) ->
  wps (ProcessDataMessage sc mem coin lenv x p t a) (fun _ w' => finished_ k G w') w.
Proof.
  intros H HG Hc Hx Ha Hn. unfold ProcessDataMessage. apply wps_bind. eapply wps_conn; [done|].
  destruct (curState c) as [st|] eqn:Es; [|by apply wps_ret, finished_inv].
  destruct (running c) eqn:Er; cbn [negb]; [|by apply wps_ret, finished_inv]. apply wps_bind.
  eapply wps_mono; [eapply state_process_fin; eauto; by apply at_open|]. intros ? w' Hw. by apply wps_ret, finished_fin.
Qed.

Lemma fire_fin k G w n p t : inv sc (S k) G None w -> good G -> timers w !! n = Some (p, t) ->
  finished_ k G (w <| timers := delete n (timers w) |> <| queue := queue w ++ [MData p t PNull] |>).
Proof.
  intros H HG Ht. destruct (i_timer _ _ _ _ _ H p t) as (c & Hc & [?|Hal]); [by eapply list_elem_of_lookup_2|done|].
  assert (isDead c = false) as Hd by (destruct (isDead c) eqn:E; [by rewrite allowed_dead, elem_of_nil in Hal|done]).
  assert (inv sc (S k) G None (w <| timers := delete n (timers w) |>)) as H1.
  { pose proof H as []. split; try done. cbn [timers heap]. intros q t' Hq. apply i_timer0.
    by eapply list_elem_of_delete_inv. }
  apply finished_inv; [|done]. apply (inv_post sc (S k) G None (w <| timers := delete n (timers w) |>)); [done|].
  split; [done|]. by exists c.
Qed.

(** ** The one fault *)

Lemma bind_run {B C} (m : SF World B) b (k : B -> SF World C) w w' : m w = Some (b, w') -> sbind m k w = k b w'.
Proof. unfold sbind. by intros ->. Qed.
Lemma bind_fault {B C} (m : SF World B) (k : B -> SF World C) w : m w = None -> sbind m k w = None.
Proof. unfold sbind. by intros ->. Qed.
Lemma conn_run w p c : heap w !! p = Some c -> conn p w = Some (c, w).
Proof. unfold conn. by intros ->. Qed.
Lemma upd_run w p c f : heap w !! p = Some c -> upd p f w = Some (tt, w <| heap := <[p := f c]> (heap w) |>).
Proof. unfold upd. by intros ->. Qed.

Lemma join_online_faults w p c nid : heap w !! p = Some c -> nodeInfo c = None ->
  CompleteJoinLNN sc mem lenv p nid SOFTBUS_OK w = None.
Proof.
  intros Hc Hn. unfold CompleteJoinLNN, LnnFsmRemoveMessage.
  erewrite bind_run; [|erewrite bind_run by (by apply conn_run); rewrite bool_decide_eq_false_2 by done; by erewrite bind_run by done].
  apply bind_fault. cbn [Z.eqb SOFTBUS_OK]. unfold join_online. erewrite bind_run by (by apply conn_run). by rewrite Hn.
Qed.

Lemma needs_node_faults w e : needs_node w e -> step_ e w = None.
Proof.
  intros (x & p & t & a & q & c & -> & Eq & Hc & Hr & Hs & Hn & Ht). cbn [step]. erewrite bind_run by done. rewrite Eq.
  erewrite bind_run by done. cbn [handle]. unfold ProcessDataMessage. erewrite bind_run by (by apply conn_run). rewrite Hs, Hr. cbn [negb].
  apply bind_fault. cbn [state_process]. destruct Ht as [-> |[-> Hd]]; cbn [CleanInvalidConnStateProcess]; apply bind_fault.
  - unfold OnLeaveInvalidConn. erewrite bind_run by (by apply conn_run). by rewrite Hn.
  - unfold LnnFsmTransactState. erewrite bind_run by (by apply conn_run). rewrite Hs, Hr. cbn [negb].
    erewrite bind_run by (by apply upd_run). apply bind_fault. cbn [state_enter]. unfold OnlineStateEnter.
    erewrite bind_run by (apply conn_run; by apply lookup_insert_eq). unfold CheckDeadFlag. cbn [isDead]. rewrite Hd. cbn [Bool.eqb].
    eapply join_online_faults; [by apply lookup_insert_eq|done].
Qed.

(** A step ends in the invariant, or needs a node that is not there. *)
Lemma step_fin k G w e : inv sc (S k) G None w -> good G -> event_ok e ->
  wps (step_ e) (fun _ w' => finished_ k G w') w \/ needs_node w e.
Proof.
  intros H HG He. destruct e; cbn [step event_ok] in *.
  - left. apply request_addr_fin; [done..|]. by intros a' ->.
  - left. by apply request_networkId_fin.
  - left. apply request_addr_fin; [done..|]. by intros a' ->.
  - left. by apply request_networkId_fin.
  - left. by apply request_addr_fin.
  - left. by apply LnnNotifyMasterElect_fin.
  - left. apply wps_bind. eapply (wps_mono _ (fun _ w' => finished_ k G w')); [by apply request_fin|]. intros ? w' Hw. by apply wps_ret.
  - left. destruct He. by apply OnAuthKeyGenerated_fin.
  - left. by apply post_para_fin.
  - left. by apply post_para_fin.
  - left. by apply OnRecvPeerDeviceInfo_fin.
  - left. by apply OnDeviceNotTrusted_fin.
  - left. by apply post_para_fin.
  - destruct (queue w) as [|m q] eqn:Eq.
    { left. apply wps_bind, wps_gets. rewrite Eq. by apply wps_ret, finished_inv. }
    assert (m ∈ queue w) as Hin by (rewrite Eq; left). pose proof (i_msgs _ _ _ _ _ H m Hin) as Hm.
    assert (forall P : World -> Prop, wps (handle sc mem coin lenv rand local x m) (fun _ w' => P w') (w <| queue := q |>) ->
      wps (let* q := sgets queue in match q with [] => sret tt | m :: q => smodify (fun w : World => w <| queue := q |>);;
        handle sc mem coin lenv rand local x m end) (fun _ w' => P w') w) as Hgo.
    { intros P HP. apply wps_bind, wps_gets. rewrite Eq. by apply wps_bind, wps_modify. }
    destruct m as [p st|p t a|p|p|m]; cbn [handle msg_ok] in *.
    + left. apply Hgo. subst st. apply start_fin; [by eapply inv_take|done|]. cbn. by eapply i_about.
    + destruct (i_about _ _ _ _ _ H _ p Hin eq_refl) as [c Hc].
      destruct (decide (running c = true /\ curState c = Some STATE_CLEAN_INVALID_CONN /\ nodeInfo c = None /\
        (t = FSM_MSG_TYPE_LEAVE_INVALID_CONN \/ (t = FSM_MSG_TYPE_INITIATE_ONLINE /\ isDead c = false)))) as [(? & ? & ? & ?)|Hnot].
      { right. by exists x, p, t, a, q, c. }
      left. apply Hgo. eapply data_fin; [by eapply inv_take|done|done|done|done|]. intros Hr Hs Ht.
      destruct (nodeInfo c) eqn:En; [eauto|]. by destruct Hnot.
    + left. apply Hgo. destruct (i_about _ _ _ _ _ H _ p Hin eq_refl) as [c Hc].
      eapply stop_fin; [by eapply inv_take|done|done|]. eapply i_out; [exact H|done|]. intros Hp.
      by destruct (i_noend _ _ _ _ _ H p _ Hp Hin).
    + left. apply Hgo. destruct (inv_end _ _ _ _ _ _ H Eq) as (c & Hc & Hs & H'). unfold ConnectionFsmDinitCallback. apply wps_bind.
      eapply wps_conn; [done|]. rewrite Hs. unfold LnnDestroyConnectionFsm. apply wps_bind. eapply wps_conn; [done|].
      apply wps_modify. by apply finished_inv.
    + left. apply Hgo. apply wps_bind. eapply (wps_mono _ (fun _ w' => finished_ k G w')); [apply handler_fin; try done; [by eapply inv_take|]|].
      { intros n ->. apply (i_clean _ _ _ _ _ H n Hin). }
      intros ? w' Hw. by apply wps_ret.
  - left. apply wps_bind, wps_gets. destruct (timers w !! n) as [[p t]|] eqn:Et; [|by apply wps_ret, finished_inv].
    apply wps_bind, wps_modify, wps_modify. exact (fire_fin k G w n p t H HG Et).
Qed.

(** ** The start *)

(** The worlds during the start. *)
Record booting (w : World) : Prop := {
  b_rel : ledger_rel sc (ledger w) empty_ledger;
  b_heap : heap w = ∅;
  b_list : fsmList w = [];
  b_queue : queue w = [];
  b_timers : timers w = [];
  b_out : out w = [];
  b_ids : connFsmId w = 0;
  b_count : connCount w = 0 /\ 0 <= maxConnCount w < 2 ^ 31;
  b_local : forall v, localWeight w = Some v -> 0 <= v <= 1000;
}.

Lemma booting_inv w k : booting w -> Z.of_nat k < 2 ^ 16 -> exists G, inv sc k G None w /\ good G.
Proof.
  intros [] Hk. exists (mkG empty_ledger ∅ (masterUdid w) (masterWeight w) []). split; [|done].
  destruct b_count0 as [Ec Em]. split; rewrite ?b_heap0, ?b_list0, ?b_queue0, ?b_timers0, ?b_out0, ?b_ids0, ?Ec; try done.
  - unfold room. cbn [gA nodes codes empty_ledger]. rewrite !map_size_empty. lia.
  - constructor.
  - by intros p ?%elem_of_nil.
  - by intros m p ?%elem_of_nil.
  - by intros p m ?%elem_of_nil.
  - by intros m ?%elem_of_nil.
  - by intros n ?%elem_of_nil.
  - by intros p t ?%elem_of_nil.
Qed.

Lemma bt_ask {B} w (f : nat -> B) (Q : B -> World -> Prop) : booting w -> (forall n w', booting w' -> Q (f n) w') -> wps (ask f) Q w.
Proof. intros [] HQ. apply wps_ask, HQ. by split. Qed.
Lemma bt_lock w (Q : bool -> World -> Prop) : booting w -> (forall b w', booting w' -> Q b w') -> wps (local_lock lenv) Q w.
Proof. intros H HQ. unfold local_lock. apply wps_bind. eapply bt_ask; [done|]. intros n w' H'. by apply wps_ret, HQ. Qed.
Lemma bt_weight w (Q : Z -> World -> Prop) : booting w -> (forall v w', booting w' -> Q v w') -> wps (LnnGetLocalWeight rand) Q w.
Proof.
  intros H HQ. unfold LnnGetLocalWeight. apply wps_bind, wps_gets. destruct (localWeight w) as [v|] eqn:El; [by apply wps_ret, HQ|].
  apply wps_bind. eapply bt_ask; [done|]. intros n w1 H1. destruct (rand n) as [v|]; [|by apply wps_ret, HQ].
  apply wps_bind, wps_modify, wps_ret, HQ. destruct H1. split; try done. cbn. intros ? [= <-].
  unfold MAX_WEIGHT_VALUE, UINT8_MAX. assert (0 <= u8 v < 256) by wrap_lia.
  split; [apply Z.quot_pos; lia|]. apply Z.quot_le_upper_bound; lia.
Qed.

Lemma strlen_term s : exists n, Utils.strlen (s ++ [0]) = Some n.
Proof.
  induction s as [|c s [n IH]]; [by exists 0%nat|]. cbn. destruct (c =? 0); [by exists 0%nat|]. rewrite IH. by exists (S n).
Qed.

Lemma bt_config w : booting w -> wps (ConifgLocalLedger coin lenv rand local) (fun _ w' => booting w') w.
Proof.
  intros H. unfold ConifgLocalLedger. apply wps_bind. eapply bt_ask; [done|]. intros n w1 H1. case_if; [by apply wps_ret|].
  apply wps_bind. unfold GetLocalUdid. apply wps_bind. eapply bt_lock; [done|]. intros b w2 H2. destruct (strncpy_s _ _ _) as [ok u].
  apply wps_ret, wps_bind. set (u' := default [] _). clearbody u'. unfold SetLocalMasterUdid. apply wps_bind.
  assert (forall w', booting w' -> wps (let* weight := LnnGetLocalWeight rand in SetLocalMasterWeight lenv weight;; sret SOFTBUS_OK)
    (fun _ w' => booting w') w') as Hw.
  { intros w' H'. apply wps_bind. eapply bt_weight; [done|]. intros v w3 H3. apply wps_bind. unfold SetLocalMasterWeight. apply wps_bind.
    eapply bt_lock; [done|]. intros l w4 H4. case_if; [by do 2 apply wps_ret|]. apply wps_bind, wps_modify. do 2 apply wps_ret.
    destruct H4. by split. }
  eapply bt_lock; [done|]. intros l w3 H3. case_if; [by apply wps_ret, Hw|]. apply wps_bind. unfold Utils.IsValidString.
  destruct (strlen_term u') as [len El]. eapply wps_lift; [by rewrite El|]. case_if; [by apply wps_ret, Hw|].
  apply wps_bind, wps_gets. destruct (strncpy_s _ _ u') as [ok' u2]. apply wps_bind, wps_modify, wps_ret, Hw. destruct H3. by split.
Qed.

Lemma boot_ok config : 0 <= default DEFAULT_MAX_LNN_CONNECTION_COUNT config < 2 ^ 31 ->
  wps (boot config) (fun _ w => booting w) (world0 g_distributedNetLedger).
Proof.
  intros Hmax. unfold boot. apply wps_bind, wps_on_ledger, (wps_init sc); [done|done|]. intros L HR _.
  assert (booting ((world0 g_distributedNetLedger) <| ledger := L |>)) as H by (split; try done; cbn; lia).
  revert H. generalize ((world0 g_distributedNetLedger) <| ledger := L |>). intros w H. unfold LnnInitNetBuilder.
  apply wps_bind, wps_gets. case_if; [by apply wps_ret|]. unfold RegisterAuthCallback. apply wps_bind, wps_modify, wps_bind, wps_bind.
  eapply bt_ask; [destruct H as [? ? ? ? ? ? ? [? ?] ?]; by split|]. intros n w1 H1. apply wps_ret.
  destruct (coin n); cbn [Z.eqb SOFTBUS_OK SOFTBUS_ERR negb]; [|by apply wps_ret].
  apply wps_bind. eapply wps_mono; [by apply bt_config|]. intros r w2 H2. case_if; [by apply wps_ret|].
  apply wps_bind, wps_modify, wps_bind. eapply bt_ask; [destruct H2; by split|]. intros n' w3 H3. case_if; [by apply wps_ret|].
  apply wps_bind, wps_modify, wps_ret. destruct H3. by split.
Qed.

(** ** Histories *)

Lemma run_fin es k G w w' : inv sc (length es + k) G None w -> good G -> Forall event_ok es -> run_ es w = Some (tt, w') ->
  exists G', inv sc k G' None w' /\ good G'.
Proof.
  revert G w. induction es as [|e es IH]; intros G w H HG Hok Hrun; cbn in Hrun.
  { injection Hrun as <-. by exists G. }
  apply Forall_cons in Hok as [He Hok]. unfold sbind in Hrun.
  destruct (step_fin (length es + k) G w e H HG He) as [Hs|Hn]; [|by rewrite (needs_node_faults w e Hn) in Hrun].
  apply wps_run in Hs as ([] & w1 & E & G1 & H1 & HG1 & _). rewrite E in Hrun. by eapply IH.
Qed.

Lemma reaches_inv config n w k : 0 <= default DEFAULT_MAX_LNN_CONNECTION_COUNT config < 2 ^ 31 -> reaches config n w ->
  n + Z.of_nat k < 2 ^ 16 -> exists G, inv sc k G None w /\ good G.
Proof.
  intros Hmax (es & r & w0 & Hb & Hrun & Hok & Hl) Hn. pose proof (boot_ok config Hmax) as H. unfold wps in H. rewrite Hb in H.
  destruct (booting_inv w0 (length es + k) H) as (G & Hi & HG); [lia|]. by eapply run_fin.
Qed.

Lemma inv_connections k G w : inv sc k G None w -> connections_ok w.
Proof.
  intros H. pose proof H as []. split; try done.
  - split; [apply i_count0|]. lia.
  - intros p t Ht. destruct (i_timer0 p t Ht) as (c & Hc & [?|Hal]); [done|]. exists c. split; [done|].
    assert (isDead c = false) as Hd by (destruct (isDead c) eqn:E; [by rewrite allowed_dead, elem_of_nil in Hal|done]).
    split; [done|]. rewrite i_list0. eapply at_alive; [by apply at_open|done].
  - intros p c Hc Hn. destruct (i_out0 p c Hc Hn) as (? & _ & l1 & l2 & -> & _). split; [done|]. apply elem_of_app. right. left.
Qed.

Lemma node_by_udid_run k G w u : inv sc k G None w ->
  node_by_id sc true (Some u) CATEGORY_UDID w = Some (nodes (gA G) !! u, w).
Proof.
  intros H. assert (wps (node_by_id sc true (Some u) CATEGORY_UDID) (fun r w' => r = nodes (gA G) !! u /\ w' = w) w) as Hw.
  { unfold node_by_id. eapply wps_read_ledger; [|intros b Hb; split; [exact Hb|done]]. pose proof (i_rel _ _ _ _ _ H) as HR.
    apply wps_bind. unfold LnnGetNodeInfoById. cbn [Z.eqb CATEGORY_UDID]. eapply wps_GetNodeInfoFromMap; [done|].
    cbn [mbind option_bind]. destruct (nodes (gA G) !! u) as [n|] eqn:En; cbn [mbind option_bind]; [|by apply wps_ret].
    apply wps_bind. eapply wps_load; [done|done|]. by apply wps_ret. }
  apply wps_run in Hw as (r & w' & E & -> & ->). done.
Qed.

(** ** The theorems *)

(** C1: the net builder and its connection machines are safe, up to one fault.  The
    start never faults.  In every world that fewer than 2^16 events lead to (calls
    of the bus centre and callbacks of the authentication with arguments of their
    types, timers that run out in any order, messages that are handled) the
    bookkeeping of the connections is right, so that nothing refers to a destroyed
    machine, and the next step faults exactly when its message makes a connection
    that is being cleaned of invalid ones use its node while it has none. *)
Theorem net_builder_safe config : 0 <= default DEFAULT_MAX_LNN_CONNECTION_COUNT config < 2 ^ 31 ->
  (exists r w0, boot config (world0 g_distributedNetLedger) = Some (r, w0)) /\
  forall w, reaches config 65534 w ->
    connections_ok w /\ forall e, event_ok e -> (step sc mem coin lenv rand local e w = None <-> needs_node w e).
Proof.
  intros Hmax. split.
  { destruct (proj1 (wps_run _ _ _) (boot_ok config Hmax)) as (r & w0 & E & _). eauto. }
  intros w Hr. destruct (reaches_inv config 65534 w 1 Hmax Hr ltac:(lia)) as (G & H & HG).
  split; [by eapply inv_connections|]. intros e He. split; [|apply needs_node_faults].
  intros Hn. destruct (step_fin 0 G w e H HG He) as [Hs|]; [|done]. unfold wps in Hs. by rewrite Hn in Hs.
Qed.

(** C4: the listeners know who is online.  In every world the system reaches, a
    device counts as online by the notices the listeners were sent (the last one
    about it says so) exactly when the ledger holds its node as online. *)
Theorem listeners_know_online config w u : 0 <= default DEFAULT_MAX_LNN_CONNECTION_COUNT config < 2 ^ 31 ->
  reaches config 65534 w ->
  (u ∈ heard ∅ (omap told (out w)) <->
   exists i, node_by_id sc true (Some u) CATEGORY_UDID w = Some (Some i, w) /\ LnnIsNodeOnline (Some i) = true).
Proof.
  intros Hmax Hr. destruct (reaches_inv config 65534 w 1 Hmax Hr ltac:(lia)) as (G & H & HG).
  rewrite (i_heard _ _ _ _ _ H), HG, online_ids_spec, (node_by_udid_run 1 G w u H). split.
  - intros (n & Hn & Ho). exists n. by rewrite Hn.
  - intros (i & [= Ei] & Ho). by exists i.
Qed.

Lemma compare_lex a u1 b u2 : 0 <= a < 2 ^ 31 -> 0 <= b < 2 ^ 31 -> LnnCompareNodeWeight a u1 b u2 < 0 ->
  a < b \/ (a = b /\ strcmp u1 u2 < 0).
Proof.
  intros H1 H2. unfold LnnCompareNodeWeight. destruct (Z.eqb_spec a b) as [->|Hne]; cbn [negb]; [auto|].
  replace (i32 (a - b)) with (a - b) by wrap_lia. lia.
Qed.


End main.

(** ** A device joins and leaves *)

Definition yes (n : nat) : bool := true.
Definition fine (n : nat) : Env := mkEnv true true true true true true true true true.
Definition drawn (n : nat) : option Z := Some 51.
Definition here : Local := mkLocal [72] [119; 108; 97; 110; 48].
Definition wifi : ConnectionAddr := mkAddr CONNECTION_ADDR_WLAN [49; 48; 46; 49] 5.
Definition peer : NodeInfo :=
  zero_node <| deviceInfo := mkDevice [78] [65] 0 |> <| networkId := [110] |> <| LnnNodeInfo.masterUdid := [90] |> <| LnnNodeInfo.masterWeight := 900 |>.
Definition ext : Ext := mkExt 7 (Some peer).

#[local] Abbreviation run1 := (run true yes yes fine drawn here).
#[local] Abbreviation step1 := (step true yes yes fine drawn here).

(** Until the authentication passed; with the information of the device before it or not. *)
Definition joining (info : bool) : list Event :=
  [Join (Some wifi); Take ext; Take ext; Take ext; KeyGenerated 7 (mkOption CONNECT_TCP [49; 48; 46; 49] 5) 100;
   Take ext; Take ext; Take ext] ++
  (if info then [RecvPeerDeviceInfo 7 (Some [117]) true; Take ext; Take ext] else []) ++
  [AuthPassed 7; Take ext; Take ext].
Definition joined : list Event := joining true ++ [Take ext].
Definition left_again : list Event :=
  joined ++ [Leave (Some [110]); Take ext; Take ext; SyncOfflineFinish (Some [110]); Take ext; Take ext; Take ext; Take ext; Take ext].

Definition world_of (es : list Event) : option World :=
  match boot yes fine drawn here None (world0 g_distributedNetLedger) with
  | Some (_, w) => snd <$> run1 es w
  | None => None
  end.

(** The join is reported, and the listeners are told of the device. *)
Example join_reported : (fun w => (filter (fun o => is_Some (told o)) (out w), connCount w, timers w)) <$> world_of joined =
  Some ([Told [65] (NodeOnline (mkBasic [110] [78] 0))], 1, []).
Proof. vm_compute. reflexivity. Qed.
(** The leave too, and the machine is destroyed. *)
Example leave_reported : (fun w => (omap told (out w), connCount w, heap w, queue w)) <$> world_of left_again =
  Some ([([65], NodeOnline (mkBasic [110] [78] 0)); ([65], NodeOffline (mkBasic [110] [78] 0))], 0, ∅, []).
Proof. vm_compute. reflexivity. Qed.

Lemma no_config_ok : 0 <= default DEFAULT_MAX_LNN_CONNECTION_COUNT None < 2 ^ 31.
Proof. unfold DEFAULT_MAX_LNN_CONNECTION_COUNT. cbn [default]. lia. Qed.
Lemma fine_ok n : env_ok (fine n).
Proof. done. Qed.
Lemma ext_is_ok : ext_ok ext.
Proof. by split; [unfold int64; cbn; lia|vm_compute]. Qed.

(** All these events have typed arguments. *)
Definition plain (e : Event) : bool :=
  match e with
  | Join (Some a) | Discovery (Some a) => chars (a_text a)
  | KeyGenerated aid o _ => chars (o_text o) && (aid =? 7)
  | RecvPeerDeviceInfo _ (Some u) _ => chars u
  | MasterElect _ (Some u) _ => chars u
  | Take x => (x_verify x =? 7) && bool_decide (x_parse x = Some peer)
  | _ => true
  end.
Lemma plain_ok e : plain e = true -> event_ok e.
Proof.
  destruct e as [[a|]| |[a|]| | |? [u|] ?| |aid o v| | |? [u|] ?| | |[z n]|]; cbn; try done.
  - intros [? ?%Z.eqb_eq]%andb_true_iff. subst. split; [done|]. unfold int64. lia.
  - intros [->%Z.eqb_eq ->%bool_decide_eq_true]%andb_true_iff. apply ext_is_ok.
Qed.

Lemma reaches_world es w : world_of es = Some w -> forallb plain es = true -> Z.of_nat (length es) <= 65534 ->
  reaches true yes yes fine drawn here None 65534 w.
Proof.
  unfold world_of. destruct (boot _ _ _ _ _ _) as [[r w0]|] eqn:Eb; [|done]. destruct (run1 es w0) as [[[] w1]|] eqn:Er; [|done].
  intros [= <-] Hp Hl. exists es, r, w0. split_and!; [done|done| |done]. apply Forall_forall. intros e He. apply plain_ok.
  rewrite forallb_forall in Hp. apply Hp. by apply list_elem_of_In.
Qed.

Lemma net_builder_safe_witness : exists w, world_of joined = Some w /\ connections_ok w /\
  (step1 (Take ext) w = None <-> needs_node w (Take ext)).
Proof.
  destruct (world_of joined) as [w|] eqn:E; [|vm_compute in E; discriminate E]. exists w. split; [reflexivity|].
  destruct (net_builder_safe true yes yes fine drawn here (fun _ => eq_refl) fine_ok eq_refl None) as [_ H]; [exact no_config_ok|].
  destruct (H w) as [H1 H2]; [apply (reaches_world joined); [exact E|vm_compute; reflexivity|vm_compute; discriminate]|].
  split; [exact H1|]. apply H2, ext_is_ok.
Defined.

Lemma listeners_know_online_witness : exists w, world_of joined = Some w /\
  ([65] ∈ heard ∅ (omap told (out w)) <->
   exists i, node_by_id true true (Some [65]) CATEGORY_UDID w = Some (Some i, w) /\ LnnIsNodeOnline (Some i) = true).
Proof.
  destruct (world_of joined) as [w|] eqn:E; [|vm_compute in E; discriminate E]. exists w. split; [reflexivity|].
  apply (listeners_know_online true yes yes fine drawn here (fun _ => eq_refl) fine_ok eq_refl None); [exact no_config_ok|].
  apply (reaches_world joined); [exact E|vm_compute; reflexivity|vm_compute; discriminate].
Defined.

(** The peer's master, of weight 900, is elected over this device, of weight 200. *)
Definition changed : list Event := joined ++ [NodeStateChanged (Some wifi)].
Example elected : (fun w => (masterUdid w, masterWeight w)) <$> world_of changed = Some ([72], 200) /\
  (fun w => (masterUdid w, masterWeight w)) <$> world_of (changed ++ [Take ext]) = Some ([90], 900).
Proof. vm_compute. done. Qed.


(** ** Defects *)

(** The authentication passes before the information of the device has come: the
    connection goes on to its cleaning and reads a node that is not there. *)
Example clean_without_node_faults : is_Some (world_of (joining false)) /\ world_of (joining false ++ [Take ext]) = None.
Proof. split; [by eexists; vm_compute|by vm_compute]. Qed.

(** The same when the connection breaks right after the authentication passed: the
    failed join frees the node before the message that waits reads it. *)
Definition broken : list Event :=
  take 11 (joining true) ++ [AuthPassed 7; Disconnect 7; Take ext; Take ext; Take ext; Take ext].
Example disconnect_while_cleaning_faults : is_Some (world_of broken) /\ world_of (broken ++ [Take ext]) = None.
Proof. split; [by eexists; vm_compute|by vm_compute]. Qed.

(** An election message of a node that is online is dropped, although its master
    outranks the local one. *)
Example elect_of_online_node_dropped :
  (fun w => (masterUdid w, masterWeight w)) <$> world_of (joined ++ [MasterElect (Some [65]) (Some [90]) 999; Take ext]) = Some ([72], 200).
Proof. by vm_compute. Qed.

(** Two IP addresses are the same when the first is a prefix of the second. *)
Example ip_prefix_is_same : LnnIsSameConnectionAddr wifi (mkAddr CONNECTION_ADDR_WLAN [49; 48; 46; 49; 50] 5) = true.
Proof. reflexivity. Qed.

(** The difference of two weights may wrap around. *)
Example weight_difference_wraps : LnnCompareNodeWeight (2 ^ 31 - 1) [] (-1) [] < 0.
Proof. reflexivity. Qed.

(** A Bluetooth device is not disconnected while another connection of the type is
    in the list, whatever its address. *)
Lemma find_in_some l (w : World) f q c : (forall p, p ∈ l -> is_Some (heap w !! p)) -> q ∈ l -> heap w !! q = Some c -> f c = true ->
  exists p, find_in l f w = Some (Some p, w).
Proof.
  intros Hl Hq Hc Hf. induction l as [|p l IH]; [by apply elem_of_nil in Hq|]. cbn [find_in].
  destruct (Hl p) as [d Hd]; [left|]. erewrite bind_run by (by apply conn_run). destruct (f d) eqn:Ed; [by exists p|].
  apply IH; [intros r Hr; apply Hl; by right|]. apply elem_of_cons in Hq as [->|]; [congruence|done].
Qed.
Lemma bluetooth_disconnect_skipped (w : World) p q c d : (forall r, r ∈ fsmList w -> is_Some (heap w !! r)) ->
  heap w !! p = Some c -> q ∈ fsmList w -> heap w !! q = Some d -> a_type (addr d) = a_type (addr c) ->
  a_type (addr c) = CONNECTION_ADDR_BR \/ a_type (addr c) = CONNECTION_ADDR_BLE ->
  tryDisconnectAllConnection p w = Some (tt, w).
Proof.
  intros Hl Hc Hq Hd Ht Hbt. unfold tryDisconnectAllConnection. erewrite bind_run by (by apply conn_run). cbv zeta.
  unfold find_conn.
  edestruct (find_in_some (fsmList w) w) as [r Hr]; [exact Hl|exact Hq|exact Hd| |erewrite bind_run; [|erewrite bind_run by done; exact Hr]; done].
  cbv beta. rewrite Ht, Z.eqb_refl. cbn [negb].
  replace ((a_type (addr c) =? CONNECTION_ADDR_BR) || (a_type (addr c) =? CONNECTION_ADDR_BLE)) with true
    by (symmetry; apply orb_true_iff; rewrite !Z.eqb_eq; tauto).
  unfold strncmp_eq. by apply bool_decide_eq_true.
Qed.

End LnnNetMain.
