(* ===== verification/DFileList.v ===== *)
(** * DFile: the list of files of a transfer

    components/nstackx/nstackx_core/dfile/core/nstackx_file_list.c with the
    inline accessors of include/nstackx_file_list.h, and the file-name
    functions of components/nstackx/nstackx_util/core/nstackx_util.c.

    A [char *] is the text before its terminator; [fileName] of an entry is the
    whole array of 1024 bytes, read up to its first zero byte.  The file system
    ([stat], [realpath], [access]) and the results of allocations are arguments.
    [None] as the result of an operation is an access outside an object.  The
    [vtrans*] fields of [FileList], which these files do not touch, are left out. *)

From S2P Require Import Prelude.

Module DFileList.

Definition NSTACKX_EOK : Z := 0.
Definition NSTACKX_EFAILED : Z := -1.
Definition NSTACKX_EINVAL : Z := -2.
Definition NSTACKX_ENOMEM : Z := -5.
Definition NSTACKX_EAGAIN : Z := -7.
Definition NSTACKX_ETIMEOUT : Z := -8.
Definition NSTACKX_TRUE : Z := 1.
Definition NSTACKX_FALSE : Z := 0.

Definition NSTACKX_FLAGS_FILE_NAME_ACK : Z := 0x01.
Definition NSTACKX_FLAGS_FILE_NAME_RECEIVED : Z := 0x02.
Definition NSTACKX_FLAGS_FILE_RECEIVE_SUCCESS : Z := 0x04.
Definition NSTACKX_FLAGS_FILE_RECEIVE_FAIL : Z := 0x08.
Definition NSTACKX_FLAGS_FILE_SEND_SUCCESS : Z := 0x10.
Definition NSTACKX_FLAGS_LAST_BLOCK_RECEIVED : Z := 0x20.
Definition NSTACKX_FLAGS_USER_DATA_ACK : Z := 0x4.
Definition NSTACKX_DFILE_HEADER_FRAME_USER_DATA_FLAG : Z := 0x1.
Definition NSTACKX_DFILE_HEADER_FRAME_PATH_TYPE_FLAG : Z := 0x2.
Definition NSTACKX_DFILE_HEADER_FRAME_NO_SYNC_FLAG : Z := 0x4.
Definition NOTICE_FILE_NAME_TYPE : Z := 0.
Definition NOTICE_FULL_FILE_NAME_TYPE : Z := 1.

Definition NSTACKX_DFILE_MAX_FILE_NUM : Z := 500.
Definition NSTACKX_MAX_FILE_NAME_LEN : Z := 256.
Definition NSTACKX_MAX_REMOTE_PATH_LEN : Z := 1024.
Definition NSTACKX_MAX_FILE_SIZE : Z := 0x7FFFFFFFFF.

(** ** C strings *)

(** The text of a character array. *)
Fixpoint cstr (buf : list byte) : list byte :=
  match buf with
  | [] => []
  | b :: buf => if decide (b = Byte.x00) then [] else b :: cstr buf
  end.

Abbreviation strlen s := (Z.of_nat (length s)) (only parsing).

(** [strcpy_s(dst, destMax, src)] for a text [src]: copied with its terminator
    when there is room, else the first byte of [dst] is cleared. *)
Definition strcpy_s (dst : list byte) (destMax : Z) (src : list byte) : bool * list byte :=
  if strlen src <? destMax then (true, splice 0 (src ++ [Byte.x00]) dst)
  else (false, splice 0 [Byte.x00] dst).

Definition PATH_SEPARATOR : byte := Byte.x2f.

(** The loop of [GetFileNameLen] from index [i] down. *)
Fixpoint name_start (dir : list byte) (i : nat) : nat :=
  if decide (dir !! i = Some PATH_SEPARATOR) then S i
  else match i with O => O | S i => name_start dir i end.

Definition GetFileNameLen (dir : option (list byte)) : Z :=
  match dir with
  | None => 0
  | Some d =>
      if (strlen d <? 1) || bool_decide (last d = Some PATH_SEPARATOR) then 0
      else u32 (strlen d + 1 - Z.of_nat (name_start d (length d - 1)))
  end.

Definition GetFileName (dir : option (list byte)) (name : list byte) (nameLen : Z) : Z * list byte :=
  match dir with
  | None => (NSTACKX_EINVAL, name)
  | Some d =>
      let fileNameLen := GetFileNameLen dir in
      if (fileNameLen =? 0) || (fileNameLen >? nameLen) then (NSTACKX_EINVAL, name)
      else
        let startIdx := u32 (strlen d + 1 - fileNameLen) in
        let '(ok, name) := strcpy_s name nameLen (drop (Z.to_nat startIdx) d) in
        (if ok then NSTACKX_EOK else NSTACKX_EFAILED, name)
  end.

(** ** Data *)

Record FileListEntry := mkEntry {
  fileId : Z;
  fileName : list byte;
  fullFileName : option (list byte);
  remotePath : option (list byte);
  fileSize : Z;
  flags : Z;
  startOffset : Z
}.
#[export] Instance FileListEntry_fields : Fields FileListEntry :=
  {| ctor := mkEntry;
     projs := (fileId, fileName, fullFileName, remotePath, fileSize, flags, startOffset) |}.

(** An entry of [calloc]. *)
Definition entry0 : FileListEntry :=
  mkEntry 0 (zeros (Z.to_nat NSTACKX_MAX_REMOTE_PATH_LEN)) None None 0 0 0.

Record FileList := mkFileList {
  files : option (list FileListEntry); (* list *)
  num : Z;
  userData : option (list byte);
  userDataFlag : Z;
  noticeFileNameType : Z;
  pathType : Z;
  packedUserData : option (list byte); (* packedUserDataLen is its length *)
  tarFlag : Z;
  smallFlag : Z;
  noSyncFlag : Z;
  tarFile : option (list byte)
}.
#[export] Instance FileList_fields : Fields FileList :=
  {| ctor := mkFileList;
     projs := (files, num, userData, userDataFlag, noticeFileNameType, pathType,
               packedUserData, tarFlag, smallFlag, noSyncFlag, tarFile) |}.

Record FileListInfo := mkInfo {
  i_files : option (list (option (list byte)));
  i_remotePath : option (list (option (list byte)));
  i_startOffset : list Z;
  i_fileSize : list Z;
  i_fileNum : Z;
  i_userData : option (list byte);
  i_tarFlag : Z;
  i_noSyncFlag : Z;
  i_vtransFlag : Z
}.

(** ** Accessors of the header file *)

(** [fileList->list[i]] *)
Definition entry (fl : FileList) (i : Z) : option FileListEntry :=
  l ← files fl; if i <? 0 then None else l !! Z.to_nat i.

Definition set_entry (fl : FileList) (i : Z) (f : FileListEntry -> FileListEntry) : option FileList :=
  match files fl with
  | Some l =>
      if i <? 0 then None else
      match l !! Z.to_nat i with
      | Some e => Some (fl <| files := Some (<[Z.to_nat i := f e]> l) |>)
      | None => None
      end
  | None => None
  end.

Definition or_flags (v : Z) (e : FileListEntry) : FileListEntry :=
  e <| flags := Z.lor (flags e) v |>.

Definition FileListGetRemotePath (fl : FileList) (id : Z) : option (option (list byte)) :=
  remotePath <$> entry fl (id - 1).
Definition FileListGetFileName (fl : FileList) (id : Z) : option (list byte) :=
  (fun e => cstr (fileName e)) <$> entry fl (id - 1).
Definition FileListGetFileSize (fl : FileList) (id : Z) : option Z := fileSize <$> entry fl (id - 1).
Definition FileListGetNum (fl : FileList) : Z := u16 (num fl).
Definition FileListGetPathType (fl : FileList) : Z := pathType fl.
Definition FileListGetFileNameReceived (fl : FileList) (id : Z) : option Z :=
  (fun e => Z.land (flags e) NSTACKX_FLAGS_FILE_NAME_RECEIVED) <$> entry fl (id - 1).
Definition FileListSetLastBlockReceived (fl : FileList) (id : Z) : option FileList :=
  set_entry fl (id - 1) (or_flags NSTACKX_FLAGS_LAST_BLOCK_RECEIVED).
Definition FileListGetLastBlockReceived (fl : FileList) (id : Z) : option Z :=
  (fun e => Z.land (flags e) NSTACKX_FLAGS_LAST_BLOCK_RECEIVED) <$> entry fl (id - 1).
Definition FileListSetFileReceiveSuccess (fl : FileList) (id : Z) : option FileList :=
  set_entry fl (id - 1) (or_flags NSTACKX_FLAGS_FILE_RECEIVE_SUCCESS).
Definition FileListSetFileReceiveFail (fl : FileList) (id : Z) : option FileList :=
  set_entry fl (id - 1) (or_flags NSTACKX_FLAGS_FILE_RECEIVE_FAIL).
Definition FileListSetFileSendSuccess (fl : FileList) (id : Z) : option FileList :=
  set_entry fl (id - 1) (or_flags NSTACKX_FLAGS_FILE_SEND_SUCCESS).

(** ** Operations of nstackx_file_list.c *)

(** [for (i = 0; i < num; i++) if (!(list[i].flags & v)) return FALSE] from [i]
    on, [n] iterations left. *)
Fixpoint all_flags (fl : FileList) (v : Z) (i : Z) (n : nat) : option bool :=
  match n with
  | O => Some true
  | S n =>
      e ← entry fl i;
      if Z.land (flags e) v =? 0 then Some false else all_flags fl v (i + 1) n
  end.

(** The common end of the three tests: the first entry of a tar list, every
    entry otherwise. *)
Definition all_or_tar (fl : FileList) (v : Z) : option bool :=
  if tarFlag fl =? NSTACKX_TRUE then
    e ← entry fl 0; Some (negb (Z.land (flags e) v =? 0))
  else all_flags fl v 0 (Z.to_nat (num fl)).

Definition FileListAllFileNameAcked (fl : FileList) : option bool :=
  if negb (Z.land (userDataFlag fl) NSTACKX_DFILE_HEADER_FRAME_USER_DATA_FLAG =? 0) &&
     (Z.land (userDataFlag fl) NSTACKX_FLAGS_USER_DATA_ACK =? 0) then Some false
  else all_or_tar fl NSTACKX_FLAGS_FILE_NAME_ACK.

Definition FileListAllFileNameReceived (fl : FileList) : option bool :=
  if num fl =? 0 then Some false
  else if negb (Z.land (userDataFlag fl) NSTACKX_DFILE_HEADER_FRAME_USER_DATA_FLAG =? 0) &&
     (Z.land (userDataFlag fl) NSTACKX_FLAGS_FILE_NAME_RECEIVED =? 0) then Some false
  else all_or_tar fl NSTACKX_FLAGS_FILE_NAME_RECEIVED.

Definition FileListAllFileReceived (fl : FileList) : option bool :=
  all_or_tar fl NSTACKX_FLAGS_FILE_RECEIVE_SUCCESS.

(** [GetTargetFileSize] with [stat] giving [st_size]. *)
Definition GetTargetFileSize (stat : list byte -> option Z) (dir : option (list byte)) : Z + Z :=
  match dir with
  | None => inl NSTACKX_EINVAL
  | Some d => match stat d with
              | Some s => if s <? 0 then inl NSTACKX_EFAILED else inr (u64 s)
              | None => inl NSTACKX_EFAILED
              end
  end.

(** The body of the loop of [FileListSetSendFileList] for file [i]: [inl] is the
    value returned at [L_FIN] ([ret] is [NSTACKX_EOK] for a file that is too
    large). *)
Definition send_entry (stat : list byte -> option Z) (info : FileListInfo) (i : nat)
    : option (Z + FileListEntry) :=
  fs ← i_files info;
  full ← fs !! i;
  remote ← match i_remotePath info with None => Some None | Some rs => rs !! i end;
  let '(ret, name) := GetFileName full (fileName entry0) NSTACKX_MAX_REMOTE_PATH_LEN in
  if negb (ret =? NSTACKX_EOK) then Some (inl ret)
  else match GetTargetFileSize stat full with
  | inl ret => Some (inl ret)
  | inr size =>
      if size >? NSTACKX_MAX_FILE_SIZE then Some (inl NSTACKX_EOK)
      else if i_vtransFlag info =? 0 then
        Some (inr (mkEntry (u16 (Z.of_nat i + 1)) name full remote size 0 0))
      else
        off ← i_startOffset info !! i;
        vsize ← i_fileSize info !! i;
        Some (inr (mkEntry (u16 (Z.of_nat i + 1)) name full remote vsize 0 off))
  end.

Fixpoint send_entries (stat : list byte -> option Z) (info : FileListInfo) (i n : nat)
    : option (Z + list FileListEntry) :=
  match n with
  | O => Some (inr [])
  | S n =>
      r ← send_entry stat info i;
      match r with
      | inl ret => Some (inl ret)
      | inr e =>
          rs ← send_entries stat info (S i) n;
          Some (match rs with inl ret => inl ret | inr es => inr (e :: es) end)
      end
  end.

Definition FileListSetSendFileList (stat : list byte -> option Z) (alloc : bool)
    (fl : FileList) (info : FileListInfo) : option (Z * FileList) :=
  match i_files info with
  | None => Some (NSTACKX_EINVAL, fl)
  | Some _ =>
  if (i_fileNum info =? 0) || (i_fileNum info >? NSTACKX_DFILE_MAX_FILE_NUM) then Some (NSTACKX_EINVAL, fl)
  else match files fl with
  | Some _ => Some (NSTACKX_EFAILED, fl)
  | None =>
  if negb alloc then Some (NSTACKX_ENOMEM, fl)
  else
    r ← send_entries stat info 0 (Z.to_nat (i_fileNum info));
    match r with
    | inl ret => Some (ret, fl)
    | inr es => Some (NSTACKX_EOK, fl <| files := Some es |> <| num := i_fileNum info |>)
    end
  end end.

Definition FileListSetNum (alloc : bool) (fl : FileList) (fileNum : Z) : Z * FileList :=
  if (fileNum =? 0) || (fileNum >? NSTACKX_DFILE_MAX_FILE_NUM) then (NSTACKX_EINVAL, fl)
  else match files fl with
  | Some _ => (NSTACKX_EOK, fl)
  | None =>
      if negb alloc then (NSTACKX_ENOMEM, fl)
      else (NSTACKX_EOK,
            fl <| files := Some (replicate (Z.to_nat fileNum) entry0) |> <| num := fileNum |>)
  end.

Definition FileListAddFile (fl : FileList) (id : Z) (name : list byte) (size : Z)
    : option (Z * FileList) :=
  match files fl with
  | None => Some (NSTACKX_EINVAL, fl)
  | Some _ =>
  if num fl =? 0 then Some (NSTACKX_EINVAL, fl)
  else if (id =? 0) || (id >? num fl) then Some (NSTACKX_EINVAL, fl)
  else if Z.of_nat (length name) + 1 >? NSTACKX_MAX_REMOTE_PATH_LEN then Some (NSTACKX_EINVAL, fl)
  else if size >? NSTACKX_MAX_FILE_SIZE then Some (NSTACKX_EINVAL, fl)
  else
    e ← entry fl (id - 1);
    if negb (Z.land (flags e) NSTACKX_FLAGS_FILE_NAME_RECEIVED =? 0) then Some (NSTACKX_EOK, fl)
    else
      '(ok, buf) ← memcpy_s (fileName e) 0 (NSTACKX_MAX_REMOTE_PATH_LEN - 1) name;
      if ok : bool then
        fl ← set_entry fl (id - 1) (fun e =>
               e <| fileName := buf |> <| fileId := id |> <| fileSize := size |>
                 <| flags := let v := Z.lor (flags e) NSTACKX_FLAGS_FILE_NAME_RECEIVED in
                             if size =? 0 then Z.lor v NSTACKX_FLAGS_LAST_BLOCK_RECEIVED else v |>);
        Some (NSTACKX_EOK, fl)
      else
        fl ← set_entry fl (id - 1) (fun e => e <| fileName := buf |>);
        Some (NSTACKX_EFAILED, fl)
  end.

(** Returns the code and the new values of [*pathType] and [*userData]. *)
Definition ParsePackedDFileUserData (alloc : bool) (buf : list byte) (path : Z)
    (user : option (list byte)) (flag : Z) : Z * Z * option (list byte) :=
  if Z.of_nat (length buf) <? 2 then (NSTACKX_EFAILED, path, user)
  else
    let path := le_val (take 2 buf) in
    if path =? 0 then (NSTACKX_EFAILED, path, user)
    else if Z.land flag NSTACKX_DFILE_HEADER_FRAME_USER_DATA_FLAG =? 0 then (NSTACKX_EOK, path, user)
    else if negb alloc then (NSTACKX_EFAILED, path, user)
    else
      let userDataStrLen := u16 (Z.of_nat (length buf) - 2) in
      (NSTACKX_EOK, path, Some (cstr (take (Z.to_nat userDataStrLen) (drop 2 buf)))).

Definition FileListAddUserData (alloc : bool) (fl : FileList) (data : list byte) (flag : Z)
    : Z * FileList :=
  if negb (Z.land (userDataFlag fl) NSTACKX_FLAGS_FILE_NAME_RECEIVED =? 0) then (NSTACKX_EOK, fl)
  else
    let received (fl : FileList) : Z * FileList :=
      (NSTACKX_EOK,
       fl <| userDataFlag := Z.lor (userDataFlag fl) NSTACKX_FLAGS_FILE_NAME_RECEIVED |>) in
    if negb (Z.land flag NSTACKX_DFILE_HEADER_FRAME_PATH_TYPE_FLAG =? 0) then
      let '(_, path, user) :=
        ParsePackedDFileUserData alloc data (pathType fl) (userData fl) flag in
      received (fl <| pathType := path |> <| userData := user |>)
    else if negb (Z.land flag NSTACKX_DFILE_HEADER_FRAME_USER_DATA_FLAG =? 0) then
      if negb alloc then (NSTACKX_ENOMEM, fl <| userData := @None (list byte) |>)
      else received (fl <| userData := Some (cstr data) |>)
    else (NSTACKX_EFAILED, fl).

(** The loop of [FileListGetNames] from index [i], [n] iterations left: the
    pointers stored from [files[i]] on. *)
Fixpoint get_names (fl : FileList) (type : Z) (i : Z) (n : nat) : option (list (option (list byte))) :=
  match n with
  | O => Some []
  | S n =>
      if tarFlag fl =? NSTACKX_TRUE then Some [tarFile fl]
      else
        e ← entry fl i;
        if type =? NOTICE_FULL_FILE_NAME_TYPE then
          rest ← get_names fl type (i + 1) n; Some (fullFileName e :: rest)
        else if type =? NOTICE_FILE_NAME_TYPE then
          rest ← get_names fl type (i + 1) n; Some (Some (cstr (fileName e)) :: rest)
        else Some []
  end.

(** The new [*fileNum] is the length of the result. *)
Definition FileListGetNames (fl : FileList) (fileNum : Z) (type : Z) : option (list (option (list byte))) :=
  get_names fl type 0 (Z.to_nat (Z.min (num fl) fileNum)).

Fixpoint received_ids (fl : FileList) (i : Z) (n : nat) : option (list Z) :=
  match n with
  | O => Some []
  | S n =>
      e ← entry fl i;
      rest ← received_ids fl (i + 1) n;
      Some (if Z.land (flags e) NSTACKX_FLAGS_FILE_RECEIVE_SUCCESS =? 0 then rest
            else fileId e :: rest)
  end.

Definition FileListGetReceivedFileIdList (fl : FileList) (fileNum : Z) : option (list Z) :=
  received_ids fl 0 (Z.to_nat (Z.min (num fl) fileNum)).

Fixpoint files_by_flag (fl : FileList) (v type : Z) (i : Z) (n : nat)
    : option (list (option (list byte))) :=
  match n with
  | O => Some []
  | S n =>
      e ← entry fl i;
      if Z.land (flags e) v =? 0 then files_by_flag fl v type (i + 1) n
      else if tarFlag fl =? NSTACKX_TRUE then Some [tarFile fl]
      else if type =? NOTICE_FULL_FILE_NAME_TYPE then
        rest ← files_by_flag fl v type (i + 1) n; Some (fullFileName e :: rest)
      else if type =? NOTICE_FILE_NAME_TYPE then
        rest ← files_by_flag fl v type (i + 1) n; Some (Some (cstr (fileName e)) :: rest)
      else Some []
  end.

Definition FileListGetFilesByFlag (fl : FileList) (v fileNum type : Z) : option (list (option (list byte))) :=
  files_by_flag fl v type 0 (Z.to_nat (Z.min (num fl) fileNum)).
Definition FileListGetReceivedFiles (fl : FileList) (fileNum : Z) : option (list (option (list byte))) :=
  FileListGetFilesByFlag fl NSTACKX_FLAGS_FILE_RECEIVE_SUCCESS fileNum NOTICE_FILE_NAME_TYPE.
Definition FileListGetSentFiles (fl : FileList) (fileNum : Z) : option (list (option (list byte))) :=
  FileListGetFilesByFlag fl NSTACKX_FLAGS_FILE_SEND_SUCCESS fileNum (noticeFileNameType fl).

Definition FileListSetFileNameAcked (fl : FileList) (id : Z) : option FileList :=
  if id =? 0 then
    Some (fl <| userDataFlag := Z.lor (userDataFlag fl) NSTACKX_FLAGS_USER_DATA_ACK |>)
  else set_entry fl (id - 1) (or_flags NSTACKX_FLAGS_FILE_NAME_ACK).

Definition FileListGetFileNameAcked (fl : FileList) (id : Z) : option Z :=
  if id =? 0 then Some (Z.land (userDataFlag fl) NSTACKX_FLAGS_USER_DATA_ACK)
  else (fun e => Z.land (flags e) NSTACKX_FLAGS_FILE_NAME_ACK) <$> entry fl (id - 1).

Definition FileListCreate (alloc : bool) : option FileList :=
  if alloc then Some (mkFileList None 0 None 0 0 0 None 0 0 0 None) else None.

Fixpoint total_bytes (fl : FileList) (i : Z) (n : nat) (acc : Z) : option Z :=
  match n with
  | O => Some acc
  | S n => e ← entry fl i; total_bytes fl (i + 1) n (u64 (acc + fileSize e))
  end.

Definition GetFilesTotalBytes (fl : option FileList) : option Z :=
  match fl with None => Some 0 | Some fl => total_bytes fl 0 (Z.to_nat (num fl)) 0 end.

(** [None] when the buffer of [packeUserDataLen] bytes is too short for the
    copy. *)
Definition PreparePackedDFileUserData (alloc : bool) (path : Z) (user : option (list byte))
    : option (option (list byte)) :=
  let data := default [] user in
  let packeUserDataLen := u16 (2 + u32 (strlen data)) in
  if negb alloc then Some None
  else if 2 + strlen data <=? packeUserDataLen then Some (Some (le_bytes 2 path ++ data))
  else None.

Definition FileListAddExtraInfo (alloc : bool) (fl : FileList) (path notice : Z) (user : option (list byte))
    : option (Z * FileList) :=
  if negb (notice =? NOTICE_FILE_NAME_TYPE) && negb (notice =? NOTICE_FULL_FILE_NAME_TYPE) then
    Some (NSTACKX_EFAILED, fl)
  else
    let fl := fl <| noticeFileNameType := notice |> in
    if (path =? 0) && bool_decide (user = None) then Some (NSTACKX_EOK, fl)
    else
      let fl := fl <| userDataFlag := NSTACKX_DFILE_HEADER_FRAME_USER_DATA_FLAG |>
                   <| userData := user |> <| pathType := path |> in
      if path >? 0 then
        packed ← PreparePackedDFileUserData alloc path user;
        Some (if bool_decide (packed = None) then NSTACKX_EFAILED else NSTACKX_EOK,
              fl <| packedUserData := packed |>)
      else Some (NSTACKX_EOK, fl).

Definition FileListRenameFile (fl : option FileList) (id : Z) (newFileName : option (list byte))
    : option (Z * option FileList) :=
  match fl, newFileName with
  | Some f, Some name =>
      if (id =? 0) || (id >? num f) || (strlen name =? 0) || (strlen name >=? NSTACKX_MAX_REMOTE_PATH_LEN)
      then Some (NSTACKX_EINVAL, fl)
      else
        e ← entry f (id - 1);
        let '(ok, buf) := strcpy_s (fileName e) NSTACKX_MAX_REMOTE_PATH_LEN name in
        f ← set_entry f (id - 1) (fun e => e <| fileName := buf |>);
        Some (if ok then NSTACKX_EOK else NSTACKX_EFAILED, Some f)
  | _, _ => Some (NSTACKX_EINVAL, fl)
  end.

(** ** Creation of a [FileListInfo] *)

(** What [CreateFileListInfo] obtains from the system: the file system, and for
    each index whether the copy of the path and of the remote path could be
    allocated. *)
Record FsEnv := mkFs {
  realpath : list byte -> bool;
  IsAccessiblePath : list byte -> bool;
  alloc_file : nat -> bool;
  alloc_remote : nat -> bool;
  alloc_info : bool;
  alloc_files : bool;
  alloc_user : bool;
  alloc_remotes : bool
}.

Record FileListPara := mkPara {
  p_files : list (list byte);
  p_remotePath : option (list (list byte));
  p_startOffset : option (list Z);
  p_fileNum : Z;
  p_fileSize : option (list Z);
  p_userData : option (list byte);
  p_tarFlag : Z
}.

(** Element [i] of an optional array of the parameter, copied to an array of
    [NSTACKX_DFILE_MAX_FILE_NUM] elements that is zero where there is none. *)
Definition opt_array (a : option (list Z)) (i : nat) : option Z :=
  match a with
  | None => Some 0
  | Some l => if Z.of_nat i <? NSTACKX_DFILE_MAX_FILE_NUM then l !! i else None
  end.

(** [CopyFilesListInfo] from index [i]: the copied paths, offsets and sizes;
    [Some None] is [NSTACKX_EFAILED]. *)
Fixpoint CopyFilesListInfo (e : FsEnv) (p : FileListPara) (i n : nat)
    : option (option (list (option (list byte)) * list Z * list Z)) :=
  match n with
  | O => Some (Some ([], [], []))
  | S n =>
      f ← p_files p !! i;
      if negb (realpath e f) then Some None
      else if negb (alloc_file e i) then Some None
      else
        let len := GetFileNameLen (Some f) in
        if (len >? NSTACKX_MAX_FILE_NAME_LEN) || (len =? 0) || negb (IsAccessiblePath e f) then Some None
        else
          off ← opt_array (p_startOffset p) i;
          size ← opt_array (p_fileSize p) i;
          r ← CopyFilesListInfo e p (S i) n;
          Some (match r with
                | Some (fs, offs, sizes) => Some (Some f :: fs, off :: offs, size :: sizes)
                | None => None
                end)
  end.

Fixpoint remote_loop (e : FsEnv) (tar : Z) (rs : list (list byte)) (i n : nat)
    : option (option (list (option (list byte)))) :=
  match n with
  | O => Some (Some [])
  | S n =>
      r ← rs !! (if tar =? NSTACKX_TRUE then O else i);
      if negb (alloc_remote e i) then Some None
      else if strlen r + 1 >? NSTACKX_MAX_REMOTE_PATH_LEN then Some None
      else rest ← remote_loop e tar rs (S i) n; Some (option_map (cons (Some r)) rest)
  end.

(** [fileListInfo->remotePath] after the call, [None] for a failure. *)
Definition FileListInfoAddRemotePath (e : FsEnv) (tar : Z) (rs : list (list byte)) (fileNum : Z)
    : option (option (list (option (list byte)))) :=
  if fileNum =? 0 then Some None
  else if negb (alloc_remotes e) then Some None
  else remote_loop e tar rs 0 (Z.to_nat fileNum).

Definition CreateFileListInfo (e : FsEnv) (p : FileListPara) : option (option FileListInfo) :=
  if p_fileNum p =? 0 then Some None
  else if negb (alloc_info e) then Some None
  else if negb (alloc_files e) then Some None
  else
    r ← CopyFilesListInfo e p 0 (Z.to_nat (p_fileNum p));
    match r with
    | None => Some None
    | Some (fs, offs, sizes) =>
        if negb (bool_decide (p_userData p = None)) && negb (alloc_user e) then Some None
        else
          remote ← match p_remotePath p with
                   | None => Some (Some None)
                   | Some rs =>
                       r ← FileListInfoAddRemotePath e (p_tarFlag p) rs (p_fileNum p);
                       Some (option_map Some r)
                   end;
          match remote with
          | None => Some None
          | Some rp => Some (Some (mkInfo (Some fs) rp offs sizes (p_fileNum p) (p_userData p)
                                     (p_tarFlag p) NSTACKX_FALSE 0))
          end
    end.

(** ** Well-formed lists *)

(** A name is terminated inside its array. *)
Definition wf_entry (e : FileListEntry) : Prop :=
  length (fileName e) = 1024%nat /\ fileName e !! 1023%nat = Some Byte.x00 /\ 0 <= flags e < 256.

(** [num] entries, at most 500, once the list exists. *)
Definition wf (fl : FileList) : Prop :=
  match files fl with
  | None => num fl = 0
  | Some l => Z.of_nat (length l) = num fl /\ 0 < num fl <= NSTACKX_DFILE_MAX_FILE_NUM /\ Forall wf_entry l
  end.

Lemma wf_num fl : wf fl -> 0 <= num fl <= NSTACKX_DFILE_MAX_FILE_NUM.
Proof. unfold wf, NSTACKX_DFILE_MAX_FILE_NUM. destruct (files fl); lia. Qed.

Lemma wf_GetNum fl : wf fl -> FileListGetNum fl = num fl.
Proof.
  intros H%wf_num. unfold NSTACKX_DFILE_MAX_FILE_NUM in H. apply wrap_small. simpl Z.pow. lia.
Qed.

Lemma entry_Some fl l i : files fl = Some l -> 0 <= i -> entry fl i = l !! Z.to_nat i.
Proof. unfold entry. intros -> ?. simpl. by replace (i <? 0) with false by lia. Qed.

Lemma wf_entry_in fl i : wf fl -> 0 <= i < num fl -> exists e, entry fl i = Some e /\ wf_entry e.
Proof.
  unfold wf. destruct (files fl) as [l|] eqn:E; [|lia]. intros (Hn & _ & Hl) Hi.
  destruct (lookup_lt_is_Some_2 l (Z.to_nat i)) as [e He]; [lia|].
  exists e. rewrite (entry_Some _ _ _ E) by lia. split; [done|]. by apply (proj1 (Forall_lookup _ _) Hl _ _ He).
Qed.

Lemma set_entry_eq fl i f e : entry fl i = Some e ->
  exists l, files fl = Some l /\ l !! Z.to_nat i = Some e /\ 0 <= i /\
    set_entry fl i f = Some (fl <| files := Some (<[Z.to_nat i := f e]> l) |>).
Proof.
  unfold entry, set_entry. destruct (files fl) as [l|]; simpl; [|done]. case_if; [done|]. intros He.
  exists l. rewrite He. repeat split; lia || done.
Qed.

(** An update of one entry leaves the other fields and entries as they are. *)
Lemma wf_set_entry fl i f : wf fl -> 0 <= i < num fl -> (forall e, wf_entry e -> wf_entry (f e)) ->
  exists fl', set_entry fl i f = Some fl' /\ wf fl' /\ fl' = fl <| files := files fl' |> /\
    (forall j, entry fl' j = if decide (j = i) then f <$> entry fl j else entry fl j).
Proof.
  intros Hwf Hi Hf. destruct (wf_entry_in _ _ Hwf Hi) as (e & He & Hwe).
  destruct (set_entry_eq _ _ f _ He) as (l & Hl & Hli & _ & ->). eexists. split; [done|].
  unfold wf in *. rewrite Hl in Hwf. destruct Hwf as (Hn & Hr & HF).
  split; [|split; [done|]].
  { cbn [files num]. rewrite length_insert. split; [done|]. split; [done|].
    apply Forall_insert; auto. }
  intros j. unfold entry. cbn [files]. rewrite Hl. simpl. destruct (j <? 0) eqn:Ej.
  { case_decide; [lia|done]. }
  case_decide as Hd.
  - subst j. rewrite list_lookup_insert_eq by (apply lookup_lt_Some in Hli; done). by rewrite Hli.
  - rewrite list_lookup_insert_ne by lia. done.
Qed.

Lemma wf_or_flags v e : 0 <= v < 256 -> wf_entry e -> wf_entry (or_flags v e).
Proof.
  intros Hv (H1 & H2 & H3). repeat split; try done; cbn [flags or_flags].
  - apply Z.lor_nonneg. lia.
  - destruct (Z.eq_dec (Z.lor (flags e) v) 0) as [->|]; [lia|].
    apply Z.log2_lt_cancel. rewrite Z.log2_lor by lia. apply Z.max_lub_lt.
    + destruct (Z.eq_dec (flags e) 0) as [->|]; [done|]. change (Z.log2 256) with 8.
      apply Z.log2_lt_pow2; lia.
    + destruct (Z.eq_dec v 0) as [->|]; [done|]. change (Z.log2 256) with 8.
      apply Z.log2_lt_pow2; lia.
Qed.

Lemma wf_files_num fl fl' : files fl' = files fl -> num fl' = num fl -> wf fl -> wf fl'.
Proof. unfold wf. by intros -> ->. Qed.

Lemma wf_SetNum alloc fl n r fl' : 0 <= n -> wf fl -> FileListSetNum alloc fl n = (r, fl') ->
  wf fl' /\ (r = NSTACKX_EOK -> num fl' = (if decide (files fl = None) then n else num fl)
                               /\ files fl' <> None).
Proof.
  unfold FileListSetNum. intros Hn Hwf. case_if; [by intros [= <- <-]|]. destruct (files fl) as [l|] eqn:E.
  { intros [= <- <-]. split; [done|]. rewrite E. simpl. done. }
  case_if; [by intros [= <- <-]|]. intros [= <- <-]. split; [|by cbn].
  unfold wf. cbn [files num]. rewrite length_replicate. unfold NSTACKX_DFILE_MAX_FILE_NUM in *.
  split; [lia|]. split; [lia|]. apply Forall_replicate. split; [|split; [|cbn; lia]]; vm_compute; done.
Qed.

Lemma wf_AddUserData alloc fl data flag r fl' : wf fl -> FileListAddUserData alloc fl data flag = (r, fl') ->
  wf fl' /\ files fl' = files fl /\ num fl' = num fl.
Proof.
  intros Hwf. unfold FileListAddUserData.
  destruct (ParsePackedDFileUserData _ _ _ _ _) as [[? ?] ?]. repeat case_if; intros [= <- <-]; done.
Qed.

(** The entry after its name arrived. *)
Definition stored (id : Z) (name : list byte) (size : Z) (e : FileListEntry) : FileListEntry :=
  mkEntry id (splice 0 name (fileName e)) (fullFileName e) (remotePath e) size
    (let v := Z.lor (flags e) NSTACKX_FLAGS_FILE_NAME_RECEIVED in
     if size =? 0 then Z.lor v NSTACKX_FLAGS_LAST_BLOCK_RECEIVED else v) (startOffset e).

Lemma wf_stored id name size e : Z.of_nat (length name) <= 1023 -> wf_entry e -> wf_entry (stored id name size e).
Proof.
  intros Hn He. assert (wf_entry (or_flags NSTACKX_FLAGS_FILE_NAME_RECEIVED e)) as He1
    by (apply wf_or_flags; [unfold NSTACKX_FLAGS_FILE_NAME_RECEIVED; lia|done]).
  assert (wf_entry (or_flags NSTACKX_FLAGS_LAST_BLOCK_RECEIVED (or_flags NSTACKX_FLAGS_FILE_NAME_RECEIVED e))) as He2
    by (apply wf_or_flags; [unfold NSTACKX_FLAGS_LAST_BLOCK_RECEIVED; lia|done]).
  destruct He as (Hl & Hz & _). split; [|split].
  - cbn [fileName stored]. rewrite length_splice; [done|]. lia.
  - cbn [fileName stored]. unfold splice. rewrite take_0. simpl. rewrite lookup_app_r by lia.
    rewrite lookup_drop. by replace (length name + (1023 - length name))%nat with 1023%nat by lia.
  - cbn [flags stored]. destruct (size =? 0); [apply He2|apply He1].
Qed.

(** [FileListAddFile] with arguments in range: a repetition is ignored, a new
    name stored. *)
Lemma AddFile_in_range fl id name size : wf fl -> 1 <= id <= num fl ->
  Z.of_nat (length name) <= 1023 -> size <= NSTACKX_MAX_FILE_SIZE ->
  exists e, entry fl (id - 1) = Some e /\
    FileListAddFile fl id name size =
      if Z.land (flags e) NSTACKX_FLAGS_FILE_NAME_RECEIVED =? 0
      then fl' ← set_entry fl (id - 1) (stored id name size); Some (NSTACKX_EOK, fl')
      else Some (NSTACKX_EOK, fl).
Proof.
  intros Hwf Hid Hn Hs. destruct (wf_entry_in fl (id - 1) Hwf) as (e & He & Hwe); [lia|].
  exists e. split; [done|]. unfold FileListAddFile.
  destruct (set_entry_eq fl (id - 1) (stored id name size) e He) as (l & Hl & Hle & _ & ->).
  rewrite Hl. replace (num fl =? 0) with false by lia.
  replace ((id =? 0) || (id >? num fl)) with false by lia.
  unfold NSTACKX_MAX_REMOTE_PATH_LEN. replace (_ + 1 >? 1024) with false by bool_lia.
  replace (size >? _) with false by bool_lia. rewrite He. cbn [mbind option_bind].
  destruct (Z.land _ _ =? 0); [|done]. cbn [negb].
  rewrite memcpy_s_ok; [|lia|lia|destruct Hwe as [-> _]; lia].
  cbn [mbind option_bind]. unfold set_entry. rewrite Hl. replace (id - 1 <? 0) with false by lia. by rewrite Hle.
Qed.

(** [FileListAddFile] refuses arguments that are out of range. *)
Lemma AddFile_out_of_range fl id name size : 0 <= id ->
  ~ (1 <= id <= num fl /\ Z.of_nat (length name) <= 1023 /\ size <= NSTACKX_MAX_FILE_SIZE) ->
  wf fl -> FileListAddFile fl id name size = Some (NSTACKX_EINVAL, fl).
Proof.
  intros Hid Hno Hwf. unfold FileListAddFile. destruct (files fl) as [l|] eqn:El; [|done].
  case_if; [done|]. case_if; [done|]. unfold NSTACKX_MAX_REMOTE_PATH_LEN.
  destruct (_ + 1 >? 1024) eqn:E1; [done|]. destruct (size >? _) eqn:E2; [done|].
  rewrite Z.gtb_ltb in E1, E2. apply Z.ltb_ge in E1, E2. exfalso. apply Hno. lia.
Qed.

(** [all_flags] tests every entry of its range. *)
Lemma all_flags_true fl v i n :
  (forall j, i <= j < i + Z.of_nat n -> exists e, entry fl j = Some e /\ Z.land (flags e) v <> 0) ->
  all_flags fl v i n = Some true.
Proof.
  revert i. induction n as [|n IH]; intros i H; [done|]. cbn [all_flags].
  destruct (H i) as (e & -> & He); [lia|]. cbn [mbind option_bind].
  replace (Z.land (flags e) v =? 0) with false by lia. apply IH. intros j Hj. apply H. lia.
Qed.

Lemma all_flags_inv fl v i n : all_flags fl v i n = Some true ->
  forall j, i <= j < i + Z.of_nat n -> exists e, entry fl j = Some e /\ Z.land (flags e) v <> 0.
Proof.
  revert i. induction n as [|n IH]; intros i H j Hj; [lia|]. cbn [all_flags] in H.
  destruct (entry fl i) as [e|] eqn:He; [|done]. cbn [mbind option_bind] in H.
  destruct (Z.land (flags e) v =? 0) eqn:Ef; [done|]. destruct (decide (j = i)) as [->|].
  - exists e. split; [done|lia].
  - apply (IH (i + 1)); [done|lia].
Qed.

Lemma all_flags_defined fl v i n : wf fl -> 0 <= i -> i + Z.of_nat n <= num fl ->
  exists b, all_flags fl v i n = Some b.
Proof.
  intros Hwf. revert i. induction n as [|n IH]; intros i Hi Hn; [by eexists|]. cbn [all_flags].
  destruct (wf_entry_in fl i Hwf) as (e & -> & _); [lia|]. cbn [mbind option_bind].
  case_if; [by eexists|]. apply IH; lia.
Qed.

(** ** How a list changes *)

(** No flag is lost. *)
Definition keeps (a b : Z) : Prop := forall v, Z.land a v <> 0 -> Z.land b v <> 0.

Lemma keeps_refl a : keeps a a.
Proof. by intros v. Qed.
Lemma keeps_trans a b c : keeps a b -> keeps b c -> keeps a c.
Proof. intros H1 H2 v ?. by apply H2, H1. Qed.
Lemma keeps_lor a v : keeps a (Z.lor a v).
Proof. intros w. rewrite Z.land_lor_distr_l. intros H [? _]%Z.lor_eq_0_iff. done. Qed.

(** [fl'] is [fl] with more flags, nothing else is changed. *)
Record marks (fl fl' : FileList) : Prop := {
  marks_wf : wf fl';
  marks_rest : fl' = fl <| files := files fl' |> <| userDataFlag := userDataFlag fl' |>;
  marks_entry : forall j, option_Forall2 (fun e e' : FileListEntry => e' = e <| flags := flags e' |> /\ keeps (flags e) (flags e'))
                            (entry fl j) (entry fl' j);
  marks_user : keeps (userDataFlag fl) (userDataFlag fl')
}.

(** [fl'] has the entries of [fl] with at least their flags; a list that was not
    there may have been set up. *)
Record grows (fl fl' : FileList) : Prop := {
  grows_wf : wf fl';
  grows_tar : tarFlag fl' = tarFlag fl;
  grows_num : num fl <> 0 -> num fl' = num fl;
  grows_entry : forall j e, entry fl j = Some e -> exists e', entry fl' j = Some e' /\ keeps (flags e) (flags e')
}.

Lemma marks_refl fl : wf fl -> marks fl fl.
Proof.
  intros Hwf. constructor; [done|by destruct fl| |apply keeps_refl]. intros j. destruct (entry fl j) as [e|]; constructor.
  split; [by destruct e|apply keeps_refl].
Qed.

Lemma marks_trans a b c : marks a b -> marks b c -> marks a c.
Proof.
  intros H1 H2. constructor.
  - apply H2.
  - rewrite (marks_rest _ _ H2), (marks_rest _ _ H1). done.
  - intros j. pose proof (marks_entry _ _ H1 j) as E1. pose proof (marks_entry _ _ H2 j) as E2.
    destruct E1 as [e1 e2 [E1 K1]|]; inversion E2 as [? e3 [E3 K2]|]; subst; constructor.
    split; [|by eapply keeps_trans]. rewrite E3, E1. done.
  - eapply keeps_trans; [apply H1|apply H2].
Qed.

Lemma marks_grows fl fl' : marks fl fl' -> grows fl fl'.
Proof.
  intros H. constructor.
  - apply H.
  - by rewrite (marks_rest _ _ H).
  - by rewrite (marks_rest _ _ H).
  - intros j e He. pose proof (marks_entry _ _ H j) as E. rewrite He in E. inversion E as [? e' [_ K]|]; subst. by exists e'.
Qed.

Lemma grows_refl fl : wf fl -> grows fl fl.
Proof. intros. by apply marks_grows, marks_refl. Qed.

Lemma grows_trans a b c : grows a b -> grows b c -> grows a c.
Proof.
  intros H1 H2. constructor.
  - apply H2.
  - rewrite (grows_tar _ _ H2). apply H1.
  - intros Hn. rewrite (grows_num _ _ H2); [by apply H1|]. by rewrite (grows_num _ _ H1).
  - intros j e He. destruct (grows_entry _ _ H1 j e He) as (e1 & He1 & K1).
    destruct (grows_entry _ _ H2 j e1 He1) as (e2 & He2 & K2). exists e2. split; [done|]. by eapply keeps_trans.
Qed.

Create HintDb dfile.
#[export] Hint Resolve grows_refl marks_refl : dfile.

(** An update of one entry that loses no flag. *)
Lemma grows_set_entry fl i f : wf fl -> 0 <= i < num fl ->
  (forall e, wf_entry e -> wf_entry (f e)) -> (forall e, keeps (flags e) (flags (f e))) ->
  exists fl', set_entry fl i f = Some fl' /\ grows fl fl' /\ num fl' = num fl.
Proof.
  intros Hwf Hi Hf Hk. destruct (wf_set_entry fl i f Hwf Hi Hf) as (fl' & -> & Hwf' & E & Hent).
  exists fl'. split; [done|]. split; [|by rewrite E]. constructor; [done|by rewrite E|by rewrite E|].
  intros j e He. rewrite Hent, He. destruct (decide (j = i)); [exists (f e)|exists e]; (split; [done|]); [apply Hk|apply keeps_refl].
Qed.

Lemma marks_or_flags fl i v : wf fl -> 0 <= i < num fl -> 0 <= v < 256 ->
  exists fl', set_entry fl i (or_flags v) = Some fl' /\ marks fl fl' /\ num fl' = num fl /\ userDataFlag fl' = userDataFlag fl.
Proof.
  intros Hwf Hi Hv. destruct (wf_set_entry fl i (or_flags v) Hwf Hi) as (fl' & -> & Hwf' & E & Hent).
  { intros e. by apply wf_or_flags. }
  assert (userDataFlag fl' = userDataFlag fl) as Hu by (by rewrite E).
  exists fl'. split; [done|]. split; [|by rewrite E]. constructor; [done| | |rewrite Hu; apply keeps_refl].
  - rewrite Hu. rewrite E at 1. by destruct fl.
  - intros j. rewrite Hent. destruct (decide (j = i)); destruct (entry fl j) as [en|]; constructor.
    + split; [done|apply keeps_lor].
    + split; [by destruct en|apply keeps_refl].
Qed.

Lemma marks_SetFileNameAcked fl id : wf fl -> 0 <= id <= num fl ->
  exists fl', FileListSetFileNameAcked fl id = Some fl' /\ marks fl fl' /\ num fl' = num fl.
Proof.
  intros Hwf Hid. unfold FileListSetFileNameAcked. case_if.
  - eexists. split; [done|]. split; [|done]. constructor; [done|done| |apply keeps_lor].
    intros j. apply (marks_entry _ _ (marks_refl fl Hwf) j).
  - destruct (marks_or_flags fl (id - 1) NSTACKX_FLAGS_FILE_NAME_ACK Hwf) as (fl' & ? & ? & ? & _);
      [lia|unfold NSTACKX_FLAGS_FILE_NAME_ACK; lia|by exists fl'].
Qed.

Lemma marks_SetFileSendSuccess fl id : wf fl -> 1 <= id <= num fl ->
  exists fl', FileListSetFileSendSuccess fl id = Some fl' /\ marks fl fl' /\ num fl' = num fl /\ userDataFlag fl' = userDataFlag fl.
Proof. intros. apply marks_or_flags; [done|lia|]. unfold NSTACKX_FLAGS_FILE_SEND_SUCCESS. lia. Qed.

Lemma grows_SetNum alloc fl n r fl' : 0 <= n -> wf fl -> FileListSetNum alloc fl n = (r, fl') -> grows fl fl'.
Proof.
  intros Hn Hwf E. pose proof (wf_SetNum _ _ _ _ _ Hn Hwf E) as [Hwf' _]. revert E. unfold FileListSetNum.
  case_if; [intros [= <- <-]; by apply grows_refl|]. destruct (files fl) as [l|] eqn:El; [intros [= <- <-]; by apply grows_refl|].
  case_if; [intros [= <- <-]; by apply grows_refl|]. intros [= <- <-]. unfold wf in Hwf. rewrite El in Hwf.
  constructor; try done. intros j e. unfold entry. by rewrite El.
Qed.

Lemma grows_AddUserData alloc fl data flag r fl' : wf fl -> FileListAddUserData alloc fl data flag = (r, fl') -> grows fl fl'.
Proof.
  intros Hwf E. pose proof (wf_AddUserData _ _ _ _ _ _ Hwf E) as (Hwf' & Hf & Hn). constructor; [done| |by intros|].
  - revert E. unfold FileListAddUserData. destruct (ParsePackedDFileUserData _ _ _ _ _) as [[? ?] ?].
    repeat case_if; intros [= <- <-]; done.
  - intros j e He. exists e. split; [|apply keeps_refl]. revert He. unfold entry. by rewrite Hf.
Qed.

Lemma stored_keeps id name size e : keeps (flags e) (flags (stored id name size e)).
Proof. cbn [flags stored]. cbn zeta. case_if; [eapply keeps_trans|]; apply keeps_lor. Qed.

Lemma grows_AddFile fl id name size : wf fl -> 0 <= id ->
  exists r fl', FileListAddFile fl id name size = Some (r, fl') /\ grows fl fl'.
Proof.
  intros Hwf Hid.
  destruct (decide (1 <= id <= num fl /\ Z.of_nat (length name) <= 1023 /\ size <= NSTACKX_MAX_FILE_SIZE))
    as [(H1 & H2 & H3)|Hno]; [|rewrite AddFile_out_of_range by done; eexists _, _; split; [done|by apply grows_refl]].
  destruct (AddFile_in_range fl id name size Hwf H1 H2 H3) as (e & He & ->).
  case_if; [|eexists _, _; split; [done|by apply grows_refl]].
  destruct (grows_set_entry fl (id - 1) (stored id name size) Hwf) as (fl' & -> & Hg & _).
  - lia.
  - intros ? ?. by apply wf_stored.
  - intros. apply stored_keeps.
  - by eexists _, _.
Qed.

(** Once every entry of a list has a flag, it stays so. *)
Lemma all_or_tar_grows fl fl' v : wf fl -> grows fl fl' -> num fl <> 0 -> all_or_tar fl v = Some true -> all_or_tar fl' v = Some true.
Proof.
  intros Hwf Hg Hn. unfold all_or_tar. rewrite (grows_tar _ _ Hg), (grows_num _ _ Hg Hn). case_if.
  - destruct (entry fl 0) as [e|] eqn:He; [|done]. cbn [mbind option_bind]. intros [= Hv].
    destruct (grows_entry _ _ Hg 0 e He) as (e' & -> & K). cbn [mbind option_bind]. f_equal.
    apply negb_true_iff, Z.eqb_neq, K. lia.
  - intros Hall. pose proof (all_flags_inv _ _ _ _ Hall) as Hin. apply all_flags_true. intros j Hj.
    destruct (Hin j Hj) as (e & He & Hf). destruct (grows_entry _ _ Hg j e He) as (e' & He' & K). exists e'. split; [done|]. by apply K.
Qed.
End DFileList.
