(* ===== verification/DFileFrame.v ===== *)
(** * DFile: frames

    components/nstackx/nstackx_core/dfile/core/nstackx_dfile_frame.c: the
    encoders and decoders of the control frames.  A frame is a packed 8-byte
    header (type, flag, session, transfer, length of the payload) and a payload,
    all numbers in network byte order.

    An encoder takes the send buffer and returns it with the frame in its first
    [frameLength] bytes; a decoder takes the bytes of the frame.  [None] is an
    access outside the buffer (or outside the file list). *)

From S2P Require Import Prelude DFileList.

Module DFileFrame.
Import DFileList.

Definition DFILE_FRAME_HEADER_LEN : Z := 8.
Definition FILE_INFO_UNIT_LEN : Z := 12. (* offsetof(FileInfoUnit, fileName) *)
Definition BLOCK_LEN : Z := 512.
Definition MAX_NAME_LEN : Z := 99.
Definition NSTACKX_RESERVED_FILE_ID : Z := 0.
Definition NSTACKX_MAX_FRAME_SIZE : Z := 14720.
Definition NSTACKX_MIN_MTU_SIZE : Z := 64.
Definition NSTACKX_DFILE_VERSION : Z := 1.
Definition CONNECT_TYPE_NONE : Z := 0.
Definition CONNECT_TYPE_MAX : Z := 3.

Definition NSTACKX_DFILE_FILE_HEADER_FRAME : Z := 1.
Definition NSTACKX_DFILE_FILE_HEADER_CONFIRM_FRAME : Z := 2.
Definition NSTACKX_DFILE_FILE_TRANSFER_REQ_FRAME : Z := 3.
Definition NSTACKX_DFILE_FILE_DATA_FRAME : Z := 4.
Definition NSTACKX_DFILE_FILE_DATA_ACK_FRAME : Z := 5.
Definition NSTACKX_DFILE_FILE_TRANSFER_DONE_FRAME : Z := 6.
Definition NSTACKX_DFILE_FILE_TRANSFER_DONE_ACK_FRAME : Z := 7.
Definition NSTACKX_DFILE_SETTING_FRAME : Z := 8.
Definition NSTACKX_DFILE_RST_FRAME : Z := 9.
Definition NSTACKX_DFILE_FILE_BACK_PRESSURE_FRAME : Z := 12.

(** ** Access to packed buffers *)

Definition put (buf : list byte) (off : Z) (bs : list byte) : option (list byte) :=
  if (0 <=? off) && (off + Z.of_nat (length bs) <=? Z.of_nat (length buf))
  then Some (splice (Z.to_nat off) bs buf) else None.

(** The [n]-byte big-endian number at [off]. *)
Definition be_at (n : nat) (off : Z) (buf : list byte) : option Z :=
  if (0 <=? off) && (off + Z.of_nat n <=? Z.of_nat (length buf))
  then Some (be_val (slice (Z.to_nat off) n buf)) else None.

Definition bytes_at (off n : Z) (buf : list byte) : option (list byte) :=
  if (0 <=? off) && (0 <=? n) && (off + n <=? Z.of_nat (length buf))
  then Some (slice (Z.to_nat off) (Z.to_nat n) buf) else None.

(** [DFileFrameHeader] *)
Definition OFF_TYPE : Z := 0.
Definition OFF_FLAG : Z := 1.
Definition OFF_SESSION_ID : Z := 2.
Definition OFF_TRANS_ID : Z := 4.
Definition OFF_LENGTH : Z := 6.

Definition SetDfileFrameTransID (buf : list byte) (value : Z) : option (list byte) :=
  put buf OFF_TRANS_ID (be_bytes 2 value).

(** [header->flag |= v] *)
Definition or_frame_flag (buf : list byte) (v : Z) : option (list byte) :=
  f ← be_at 1 OFF_FLAG buf; put buf OFF_FLAG (be_bytes 1 (Z.lor f v)).

(** ** Encoders *)

(** [None] is the null pointer that the unnamed entries of the table hold. *)
Definition GetFrameName (t : Z) : option string :=
  if t =? NSTACKX_DFILE_FILE_HEADER_FRAME then Some "FILE_HEADER_FRAME"%string
  else if t =? NSTACKX_DFILE_FILE_HEADER_CONFIRM_FRAME then Some "FILE_HEADER_CONFIRM_FRAME"%string
  else if t =? NSTACKX_DFILE_FILE_TRANSFER_REQ_FRAME then Some "FILE_TRANSFER_REQ_FRAME"%string
  else if t =? NSTACKX_DFILE_FILE_DATA_FRAME then Some "FILE_DATA_FRAME"%string
  else if t =? NSTACKX_DFILE_FILE_TRANSFER_DONE_FRAME then Some "FILE_TRANSFER_DONE_FRAME"%string
  else if t =? NSTACKX_DFILE_FILE_TRANSFER_DONE_ACK_FRAME then Some "FILE_TRANSFER_DONE_ACK_FRAME"%string
  else if t =? NSTACKX_DFILE_SETTING_FRAME then Some "SETTING_FRAME"%string
  else if t =? NSTACKX_DFILE_RST_FRAME then Some "RST_FRAME"%string
  else if (t =? 0) || (t =? NSTACKX_DFILE_FILE_DATA_ACK_FRAME) then None
  else Some "unknown"%string.

(** The loop of [GetTarTotalBlockLength] from file [i]; [Some None] is the
    early [return 0]. *)
Fixpoint tar_loop (stat : list byte -> option Z) (fl : FileList) (i : Z) (n : nat) (total : Z)
    : option (option Z) :=
  match n with
  | O => Some (Some total)
  | S n =>
      let total := u64 (total + BLOCK_LEN) in
      e ← entry fl i;
      path ← fullFileName e;
      let total :=
        if strlen path >? MAX_NAME_LEN then
          u64 (total + (BLOCK_LEN +
            (strlen path + 1 - (if bool_decide (path !! 0%nat = Some PATH_SEPARATOR) then 1 else 0)
               + BLOCK_LEN - 1) / BLOCK_LEN * BLOCK_LEN))
        else total in
      match stat path with
      | None => Some None
      | Some st_size =>
          let blockCnt := u64 (Z.quot (st_size + BLOCK_LEN - 1) BLOCK_LEN) in
          tar_loop stat fl (i + 1) n (u64 (total + u64 (blockCnt * BLOCK_LEN)))
      end
  end.

Definition GetTarTotalBlockLength (stat : list byte -> option Z) (fl : FileList) : option Z :=
  r ← tar_loop stat fl 0 (Z.to_nat (num fl)) 0;
  Some (match r with None => 0 | Some total => u64 (total + BLOCK_LEN) end).

(** The first half of [EncodeFileInfo]: the name and the size of unit [id]. *)
Definition file_info (stat : list byte -> option Z) (fl : FileList) (id : Z)
    : option (list byte * Z) :=
  if id =? 0 then
    match packedUserData fl with
    | Some p => Some (p, 0)
    | None => name ← userData fl; Some (name, 0)
    end
  else
    remote ← FileListGetRemotePath fl id;
    name ← match remote with Some r => Some r | None => FileListGetFileName fl id end;
    total ← (if tarFlag fl =? NSTACKX_FALSE then FileListGetFileSize fl id
             else GetTarTotalBlockLength stat fl);
    Some (name, total).

(** Encodes unit [id] at offset [o] of [buf], where [length] bytes are left;
    the result is the code, [*fileInfoSize] and the buffer. *)
Definition EncodeFileInfo (stat : list byte -> option Z) (fl : FileList) (id : Z)
    (buf : list byte) (o len : Z) : option (Z * Z * list byte) :=
  '(name, filesTotalLen) ← file_info stat fl id;
  let fileNameLen := u16 (strlen name) in
  if len <=? FILE_INFO_UNIT_LEN then Some (NSTACKX_EAGAIN, 0, buf)
  else
    '(ok, buf) ← memcpy_s buf (Z.to_nat (o + FILE_INFO_UNIT_LEN)) (len - FILE_INFO_UNIT_LEN)
                   (take (Z.to_nat fileNameLen) name);
    if negb ok then Some (NSTACKX_EAGAIN, 0, buf)
    else
      buf ← put buf o (be_bytes 2 id ++ be_bytes 8 filesTotalLen ++ be_bytes 2 fileNameLen);
      Some (NSTACKX_EOK, FILE_INFO_UNIT_LEN + fileNameLen, buf).

(** The loop of [EncodeFileHeaderFrameSp]: [offset] bytes of units are written
    and [last] is [lastAddedFileId].  Every iteration increments [last] or
    ends, and an id outside the list is an invalid access, so that [num + 2]
    iterations are enough. *)
Fixpoint encode_units (stat : list byte -> option Z) (fl : FileList) (fileNum bufferLength : Z)
    (fuel : nat) (last offset : Z) (buf : list byte) : option (Z * Z * list byte) :=
  if (last =? fileNum) || (bufferLength <=? offset) then Some (last, offset, buf)
  else match fuel with
  | O => None
  | S fuel =>
      let next := i32 (last + 1) in
      acked ← FileListGetFileNameAcked fl (u16 next);
      if negb (acked =? 0) ||
         ((next =? 0) && bool_decide (userData fl = None) && bool_decide (packedUserData fl = None))
      then encode_units stat fl fileNum bufferLength fuel next offset buf
      else
        '(ret, fileInfoSize, buf) ←
           EncodeFileInfo stat fl (u16 next) buf (DFILE_FRAME_HEADER_LEN + 2 + offset)
             (bufferLength - offset);
        if negb (ret =? NSTACKX_EOK) then Some (last, offset, buf)
        else encode_units stat fl fileNum bufferLength fuel next (offset + fileInfoSize) buf
  end.

(** The number of files of the header frames. *)
Definition header_num (fl : FileList) : Z :=
  if tarFlag fl =? NSTACKX_TRUE then 1 else FileListGetNum fl.

(** Returns [*fileId], [*frameLength] and the buffer. *)
Definition EncodeFileHeaderFrameSp (stat : list byte -> option Z) (fl : FileList) (id : Z)
    (buf : list byte) (len : Z) : option (Z * Z * list byte) :=
  let bufferLength := u64 (len - (2 + DFILE_FRAME_HEADER_LEN)) in
  let fileNum := header_num fl in
  '(last, offset, buf) ←
     encode_units stat fl fileNum bufferLength (Z.to_nat (num fl) + 2) id 0 buf;
  buf ← put buf OFF_TYPE (be_bytes 1 NSTACKX_DFILE_FILE_HEADER_FRAME);
  buf ← (if bool_decide (userData fl = None) then Some buf
         else or_frame_flag buf NSTACKX_DFILE_HEADER_FRAME_USER_DATA_FLAG);
  buf ← (if pathType fl >? 0 then or_frame_flag buf NSTACKX_DFILE_HEADER_FRAME_PATH_TYPE_FLAG
         else Some buf);
  buf ← (if noSyncFlag fl =? 0 then Some buf
         else or_frame_flag buf NSTACKX_DFILE_HEADER_FRAME_NO_SYNC_FLAG);
  let offset := offset + 2 in
  buf ← put buf OFF_LENGTH (be_bytes 2 (u16 offset));
  buf ← put buf DFILE_FRAME_HEADER_LEN (be_bytes 2 (u16 fileNum));
  Some (last, DFILE_FRAME_HEADER_LEN + offset, buf).

Definition EncodeFileHeaderFrame := EncodeFileHeaderFrameSp.

(** The loop of [EncodeFileHeaderConfirmFrame]; [i] ids are written. *)
Fixpoint encode_acks (fl : FileList) (bufferLength : Z) (fuel : nat) (last i : Z) (buf : list byte)
    : option (Z * Z * list byte) :=
  if last =? FileListGetNum fl then Some (last, i, buf)
  else match fuel with
  | O => None
  | S fuel =>
      let next := u16 (last + 1) in
      received ← FileListGetFileNameReceived fl next;
      if received =? 0 then encode_acks fl bufferLength fuel next i buf
      else if i >=? Z.shiftr bufferLength 1 then Some (last, i, buf)
      else
        buf ← put buf (DFILE_FRAME_HEADER_LEN + 2 * i) (be_bytes 2 next);
        encode_acks fl bufferLength fuel next (u16 (i + 1)) buf
  end.

Definition EncodeFileHeaderConfirmFrame (fl : FileList) (id : Z) (buf : list byte) (len : Z)
    : option (Z * Z * list byte) :=
  let bufferLength := u64 (len - DFILE_FRAME_HEADER_LEN) in
  '(i, buf) ←
     (if negb (Z.land (userDataFlag fl) NSTACKX_DFILE_HEADER_FRAME_USER_DATA_FLAG =? 0) &&
         negb (Z.land (userDataFlag fl) NSTACKX_FLAGS_FILE_NAME_RECEIVED =? 0)
      then buf ← put buf DFILE_FRAME_HEADER_LEN (be_bytes 2 0); Some (1, buf)
      else Some (0, buf));
  '(last, i, buf) ← encode_acks fl bufferLength (Z.to_nat (num fl) + 1) id i buf;
  let payloadLength := u16 (i * 2) in
  buf ← put buf OFF_TYPE (be_bytes 1 NSTACKX_DFILE_FILE_HEADER_CONFIRM_FRAME);
  buf ← put buf OFF_FLAG (be_bytes 1 0);
  buf ← put buf OFF_LENGTH (be_bytes 2 payloadLength);
  Some (last, DFILE_FRAME_HEADER_LEN + payloadLength, buf).

(** [for (i = 0; i < maxIdNum; i++) fileId[i] = htons(fileIdList[i])] *)
Fixpoint put_ids (buf : list byte) (i : Z) (ids : list Z) : option (list byte) :=
  match ids with
  | [] => Some buf
  | id :: ids => buf ← put buf (DFILE_FRAME_HEADER_LEN + 2 * i) (be_bytes 2 id); put_ids buf (i + 1) ids
  end.

Definition EncodeFileTransferDoneFrame (buf : list byte) (len : Z) (ids : list Z)
    : option (Z * list byte) :=
  let maxIdNum := u32 (u64 (len - DFILE_FRAME_HEADER_LEN) / 2) in
  let maxIdNum := if maxIdNum >? Z.of_nat (length ids) then Z.of_nat (length ids) else maxIdNum in
  buf ← put_ids buf 0 (take (Z.to_nat maxIdNum) ids);
  buf ← put buf OFF_TYPE (be_bytes 1 NSTACKX_DFILE_FILE_TRANSFER_DONE_FRAME);
  let payloadLength := u16 (maxIdNum * 2) in
  buf ← put buf OFF_LENGTH (be_bytes 2 payloadLength);
  Some (DFILE_FRAME_HEADER_LEN + payloadLength, buf).

(** The fields of a [SettingFrame] besides the rest of its header. *)
Record SettingFrame := mkSetting {
  s_sessionId : Z; s_mtu : Z; s_connType : Z; s_dFileVersion : Z; s_capability : Z
}.
#[export] Instance SettingFrame_fields : Fields SettingFrame :=
  {| ctor := mkSetting; projs := (s_sessionId, s_mtu, s_connType, s_dFileVersion, s_capability) |}.
Definition SETTING_FRAME_LEN : Z := 20.

Definition EncodeSettingFrame (buf : list byte) (len : Z) (p : SettingFrame) : option (Z * list byte) :=
  let frameLength := SETTING_FRAME_LEN in
  if frameLength >? len then Some (frameLength, buf)
  else
    buf ← put buf 0 (be_bytes 1 NSTACKX_DFILE_SETTING_FRAME ++ be_bytes 1 0 ++ be_bytes 2 0 ++ be_bytes 2 0
                     ++ be_bytes 2 (frameLength - DFILE_FRAME_HEADER_LEN)
                     ++ be_bytes 2 (s_mtu p) ++ be_bytes 2 (s_connType p)
                     ++ be_bytes 4 NSTACKX_DFILE_VERSION ++ be_bytes 4 (s_capability p));
    Some (frameLength, buf).

Definition EncodeRstFrame (buf : list byte) (len transId errCode : Z) : option (Z * list byte) :=
  let frameLength := DFILE_FRAME_HEADER_LEN + 2 in
  if frameLength >? len then Some (frameLength, buf)
  else
    buf ← put buf 0 (be_bytes 1 NSTACKX_DFILE_RST_FRAME ++ be_bytes 1 0 ++ be_bytes 2 0
                     ++ be_bytes 2 transId ++ be_bytes 2 2 ++ be_bytes 2 errCode);
    Some (frameLength, buf).

Record DataBackPressure := mkBackPress {
  recvListOverIo : Z; recvBufThreshold : Z; stopSendPeriod : Z
}.

Definition EncodeBackPressFrame (buf : list byte) (len overIo : Z) : option (Z * list byte) :=
  let frameLength := DFILE_FRAME_HEADER_LEN + 6 in
  if frameLength >? len then Some (frameLength, buf)
  else
    buf ← put buf 0 (be_bytes 1 NSTACKX_DFILE_FILE_BACK_PRESSURE_FRAME ++ be_bytes 1 0 ++ be_bytes 2 0
                     ++ be_bytes 2 0 ++ be_bytes 2 6
                     ++ be_bytes 1 overIo ++ be_bytes 1 0 ++ be_bytes 4 0);
    Some (frameLength, buf).

Definition EncodeFileTransferDoneAckFrame (buf : list byte) (len transId : Z) : option (Z * list byte) :=
  let frameLength := DFILE_FRAME_HEADER_LEN in
  if frameLength >? len then Some (frameLength, buf)
  else
    buf ← put buf OFF_TYPE (be_bytes 1 NSTACKX_DFILE_FILE_TRANSFER_DONE_ACK_FRAME);
    buf ← put buf OFF_TRANS_ID (be_bytes 2 transId);
    Some (frameLength, buf).

(** ** Decoders *)

Definition DecodeDFileFrame (buf : list byte) : option Z :=
  let bufferLength := Z.of_nat (length buf) in
  if bufferLength <? DFILE_FRAME_HEADER_LEN then Some NSTACKX_EFAILED
  else
    payloadLength ← be_at 2 OFF_LENGTH buf;
    if negb (bufferLength - DFILE_FRAME_HEADER_LEN =? payloadLength) then Some NSTACKX_EFAILED
    else Some NSTACKX_EOK.

Definition SetDfileHeaderFrameUserDataFlag (fl : FileList) : FileList :=
  fl <| userDataFlag := Z.lor (userDataFlag fl) NSTACKX_DFILE_HEADER_FRAME_USER_DATA_FLAG |>.
Definition CheckDfileHeaderFrameUserDataFlag (flag : Z) : Z :=
  Z.land flag NSTACKX_DFILE_HEADER_FRAME_USER_DATA_FLAG.
Definition CheckDfileHeaderFramePathTypeFlag (flag : Z) : Z :=
  Z.land flag NSTACKX_DFILE_HEADER_FRAME_PATH_TYPE_FLAG.
Definition CheckDfileHeaderFrameNoSyncFlag (flag : Z) : Z :=
  Z.land flag NSTACKX_DFILE_HEADER_FRAME_NO_SYNC_FLAG.

(** The loop of [DecodeFileHeaderFrameSp]; [offset] bytes of units are read.  An
    iteration consumes more than [FILE_INFO_UNIT_LEN] bytes or fewer than are
    left, so that [len] iterations are enough. *)
Fixpoint decode_units (alloc : bool) (flag : Z) (frame : list byte) (len : Z) (fuel : nat)
    (offset : Z) (fl : FileList) : option (Z * FileList) :=
  if negb (offset <? len) then Some (NSTACKX_EOK, fl)
  else match fuel with
  | O => None
  | S fuel =>
      if len - offset <=? FILE_INFO_UNIT_LEN then Some (NSTACKX_EFAILED, fl)
      else
        let unit := DFILE_FRAME_HEADER_LEN + 2 + offset in
        nameLen ← be_at 2 (unit + 10) frame;
        id ← be_at 2 unit frame;
        if (id =? 0) && (CheckDfileHeaderFrameUserDataFlag flag =? 0) &&
           (CheckDfileHeaderFramePathTypeFlag flag =? 0) then Some (NSTACKX_EFAILED, fl)
        else if (negb (id =? 0) && (nameLen =? 0)) || (nameLen >? len - offset - FILE_INFO_UNIT_LEN)
        then Some (NSTACKX_EFAILED, fl)
        else
          name ← bytes_at (unit + FILE_INFO_UNIT_LEN) nameLen frame;
          '(ret, fl) ← (if id =? 0 then Some (FileListAddUserData alloc fl name flag)
                        else size ← be_at 8 (unit + 2) frame; FileListAddFile fl id name size);
          if negb (ret =? NSTACKX_EOK) then Some (NSTACKX_EFAILED, fl)
          else decode_units alloc flag frame len fuel (offset + (FILE_INFO_UNIT_LEN + nameLen)) fl
  end.

Definition DecodeFileHeaderFrameSp (allocList allocUser : bool) (fl : FileList) (frame : list byte)
    : option (Z * FileList) :=
  plen ← be_at 2 OFF_LENGTH frame;
  if plen <=? 2 then Some (NSTACKX_EFAILED, fl)
  else
    let len := plen - 2 in
    nodeNumber ← be_at 2 DFILE_FRAME_HEADER_LEN frame;
    let '(ret, fl) := FileListSetNum allocList fl nodeNumber in
    if negb (ret =? NSTACKX_EOK) then Some (NSTACKX_EFAILED, fl)
    else
      flag ← be_at 1 OFF_FLAG frame;
      let fl :=
        if negb (CheckDfileHeaderFrameUserDataFlag flag =? 0) ||
           negb (CheckDfileHeaderFramePathTypeFlag flag =? 0)
        then SetDfileHeaderFrameUserDataFlag fl else fl in
      let fl :=
        if negb (CheckDfileHeaderFrameNoSyncFlag flag =? 0)
        then fl <| noSyncFlag := NSTACKX_TRUE |> else fl in
      decode_units allocUser flag frame len (Z.to_nat len) 0 fl.

Definition DecodeFileHeaderFrame := DecodeFileHeaderFrameSp.

Fixpoint decode_acks (frame : list byte) (i : Z) (n : nat) (fl : FileList) : option FileList :=
  match n with
  | O => Some fl
  | S n =>
      id ← be_at 2 (DFILE_FRAME_HEADER_LEN + 2 * i) frame;
      if id >? FileListGetNum fl then decode_acks frame (i + 1) n fl
      else fl ← FileListSetFileNameAcked fl id; decode_acks frame (i + 1) n fl
  end.

Definition DecodeFileHeaderConfirmFrame (fl : FileList) (frame : list byte) : option (Z * FileList) :=
  len ← be_at 2 OFF_LENGTH frame;
  if (len =? 0) || negb (len mod 2 =? 0) then Some (NSTACKX_EFAILED, fl)
  else
    let fileIdCount := u16 (Z.shiftr len 1) in
    fl ← decode_acks frame 0 (Z.to_nat fileIdCount) fl;
    Some (NSTACKX_EOK, fl).

(** The result has type [int16_t]. *)
Definition GetFileIdFromFileDataFrame (fl : FileList) (frame : list byte) : option Z :=
  id ← be_at 2 DFILE_FRAME_HEADER_LEN frame;
  if (id =? NSTACKX_RESERVED_FILE_ID) || (id >? FileListGetNum fl) then Some 0 else Some (i16 id).

Fixpoint decode_done (frame : list byte) (i : Z) (n : nat) (fl : FileList) : option FileList :=
  match n with
  | O => Some fl
  | S n =>
      id ← be_at 2 (DFILE_FRAME_HEADER_LEN + 2 * i) frame;
      if (id =? 0) || (id >? FileListGetNum fl) then decode_done frame (i + 1) n fl
      else fl ← FileListSetFileSendSuccess fl id; decode_done frame (i + 1) n fl
  end.

Definition DecodeFileTransferDoneFrame (fl : FileList) (frame : list byte) : option (Z * FileList) :=
  len ← be_at 2 OFF_LENGTH frame;
  if (len =? 0) || negb (len mod 2 =? 0) then Some (NSTACKX_EFAILED, fl)
  else
    fl ← decode_done frame 0 (Z.to_nat (len / 2)) fl;
    Some (NSTACKX_EOK, fl).

Definition IsSettingFrameLengthValid (payloadLength : Z) : bool :=
  (payloadLength =? 2 + 2) ||
  (payloadLength >=? SETTING_FRAME_LEN - DFILE_FRAME_HEADER_LEN) ||
  (payloadLength =? SETTING_FRAME_LEN - DFILE_FRAME_HEADER_LEN - 4).

Definition IsSettingFrameMtuAndTypeValid (frame : list byte) : option bool :=
  mtu ← be_at 2 8 frame;
  if mtu <? NSTACKX_MIN_MTU_SIZE then Some false
  else
    connType ← be_at 2 10 frame;
    Some (negb ((connType =? CONNECT_TYPE_NONE) || (connType >=? CONNECT_TYPE_MAX))).

Definition DecodeSettingFrame (frame : list byte) (host : SettingFrame) : option (Z * SettingFrame) :=
  sessionId ← be_at 2 OFF_SESSION_ID frame;
  transId ← be_at 2 OFF_TRANS_ID frame;
  if negb (sessionId =? 0) || negb (transId =? 0) then Some (NSTACKX_EFAILED, host)
  else
    payloadLength ← be_at 2 OFF_LENGTH frame;
    if negb (IsSettingFrameLengthValid payloadLength) then Some (NSTACKX_EFAILED, host)
    else
      ok ← IsSettingFrameMtuAndTypeValid frame;
      if negb ok then Some (NSTACKX_EFAILED, host)
      else
        mtu ← be_at 2 8 frame;
        connType ← be_at 2 10 frame;
        let host := host <| s_sessionId := sessionId |> <| s_mtu := mtu |> <| s_connType := connType |> in
        if payloadLength =? 2 + 2 then Some (NSTACKX_EOK, host <| s_dFileVersion := 0 |>)
        else
          version ← be_at 4 12 frame;
          capability ← be_at 4 16 frame;
          Some (NSTACKX_EOK, host <| s_dFileVersion := version |> <| s_capability := capability |>).

(** Returns the code, [*code], and [*listCount] (the list itself starts at byte
    10 of the frame). *)
Definition DecodeRstFrame (frame : list byte) : option (Z * Z * Z) :=
  payloadLen ← be_at 2 OFF_LENGTH frame;
  if (payloadLen <? 2) || negb ((payloadLen - 2) mod 2 =? 0) then Some (NSTACKX_EFAILED, 0, 0)
  else
    code ← be_at 2 DFILE_FRAME_HEADER_LEN frame;
    Some (NSTACKX_EOK, code, (payloadLen - 2) / 2).

Definition DecodeBackPressFrame (frame : list byte) (info : DataBackPressure)
    : option (Z * DataBackPressure) :=
  payloadLen ← be_at 2 OFF_LENGTH frame;
  if payloadLen <? 6 then Some (NSTACKX_EFAILED, info)
  else
    a ← be_at 1 8 frame;
    b ← be_at 1 9 frame;
    c ← be_at 4 10 frame;
    Some (NSTACKX_EOK, mkBackPress a b c).

(** ** Decoding arbitrary frames *)

Lemma be_at_Some n off buf : 0 <= off -> off + Z.of_nat n <= Z.of_nat (length buf) ->
  be_at n off buf = Some (be_val (slice (Z.to_nat off) n buf)).
Proof. intros. unfold be_at. by rewrite (proj2 (andb_true_iff _ _)) by lia. Qed.

Lemma be_at_ex n off buf : 0 <= off -> off + Z.of_nat n <= Z.of_nat (length buf) ->
  exists v, be_at n off buf = Some v /\ 0 <= v < 2 ^ (8 * Z.of_nat n).
Proof.
  intros. rewrite be_at_Some by done. eexists. split; [done|].
  pose proof (be_val_range (slice (Z.to_nat off) n buf)) as Hr. unfold slice in *.
  rewrite length_take, length_drop in Hr. by replace (n `min` _)%nat with n in Hr by lia.
Qed.

Lemma bytes_at_ex off n buf : 0 <= off -> 0 <= n -> off + n <= Z.of_nat (length buf) ->
  exists bs, bytes_at off n buf = Some bs /\ Z.of_nat (length bs) = n.
Proof.
  intros. unfold bytes_at. rewrite (proj2 (andb_true_iff _ _)) by lia. eexists. split; [done|].
  unfold slice. rewrite length_take, length_drop. lia.
Qed.

(** An accepted frame is as long as its header says. *)
Lemma frame_length buf : DecodeDFileFrame buf = Some NSTACKX_EOK ->
  exists plen, be_at 2 OFF_LENGTH buf = Some plen /\ 0 <= plen /\
    Z.of_nat (length buf) = DFILE_FRAME_HEADER_LEN + plen.
Proof.
  unfold DecodeDFileFrame. case_if; [done|]. unfold DFILE_FRAME_HEADER_LEN, OFF_LENGTH in *.
  apply Z.ltb_ge in Hif. destruct (be_at_ex 2 6 buf) as (v & -> & Hv); [lia|lia|]. simpl.
  case_if; [done|]. intros _. exists v. split; [done|]. lia.
Qed.

(** Read the field of [n] bytes at [o], which is inside frame [b]. *)
Ltac read_at n o b :=
  let v := fresh "v" in let Hv := fresh "Hv" in
  destruct (be_at_ex n o b) as (v & -> & Hv); [lia|lia|]; cbn [mbind option_bind];
  simpl Z.of_nat in Hv; simpl Z.mul in Hv; simpl Z.pow in Hv.

Lemma decode_units_safe alloc flag frame len fuel offset fl :
  wf fl -> 0 <= offset -> Z.of_nat (length frame) = DFILE_FRAME_HEADER_LEN + 2 + len ->
  len - offset <= Z.of_nat fuel ->
  exists r fl', decode_units alloc flag frame len fuel offset fl = Some (r, fl') /\ grows fl fl'.
Proof.
  unfold DFILE_FRAME_HEADER_LEN. revert offset fl.
  induction fuel as [|fuel IH]; intros offset fl Hwf Ho Hlen Hfuel; cbn [decode_units];
    (case_if; [eexists _, _; by eauto with dfile|]).
  { lia. }
  unfold DFILE_FRAME_HEADER_LEN, FILE_INFO_UNIT_LEN. case_if; [eexists _, _; by eauto with dfile|].
  read_at 2%nat (8 + 2 + offset + 10) frame. read_at 2%nat (8 + 2 + offset) frame.
  case_if; [eexists _, _; by eauto with dfile|]. case_if; [eexists _, _; by eauto with dfile|].
  destruct (bytes_at_ex (8 + 2 + offset + 12) v frame) as (name & -> & Hname); [lia..|].
  cbn [mbind option_bind].
  assert (exists r fl', (if v0 =? 0 then Some (FileListAddUserData alloc fl name flag)
            else size ← be_at 8 (8 + 2 + offset + 2) frame; FileListAddFile fl v0 name size)
            = Some (r, fl') /\ grows fl fl') as (r & fl' & -> & Hg).
  { case_if.
    - destruct (FileListAddUserData _ _ _ _) as [r fl'] eqn:E. eexists _, _. split; [done|].
      by eapply grows_AddUserData.
    - read_at 8%nat (8 + 2 + offset + 2) frame. destruct (grows_AddFile fl v0 name v1 Hwf) as (r & fl' & -> & ?); [lia|].
      eexists _, _; by eauto with dfile. }
  cbn [mbind option_bind]. case_if; [eexists _, _; by eauto with dfile|].
  destruct (IH (offset + (12 + v)) fl') as (r2 & fl2 & -> & Hg2); [apply Hg|lia..|]. eexists _, _. split; [done|]. by eapply grows_trans.
Qed.

Lemma decode_acks_safe frame i n fl : wf fl -> 0 <= i ->
  DFILE_FRAME_HEADER_LEN + 2 * (i + Z.of_nat n) <= Z.of_nat (length frame) ->
  exists fl', decode_acks frame i n fl = Some fl' /\ marks fl fl'.
Proof.
  unfold DFILE_FRAME_HEADER_LEN. revert i fl. induction n as [|n IH]; intros i fl Hwf Hi Hl; [eexists; by eauto with dfile|]; cbn [decode_acks decode_done].
  unfold DFILE_FRAME_HEADER_LEN. read_at 2%nat (8 + 2 * i) frame. rewrite wf_GetNum by done. case_if; [apply IH; lia || done|].
  destruct (marks_SetFileNameAcked fl v Hwf) as (fl' & -> & Hm & _); [lia|]. cbn [mbind option_bind].
  destruct (IH (i + 1) fl') as (fl2 & -> & Hm2); [apply Hm|lia..|]. eexists. split; [done|]. by eapply marks_trans.
Qed.

Lemma decode_done_safe frame i n fl : wf fl -> 0 <= i ->
  DFILE_FRAME_HEADER_LEN + 2 * (i + Z.of_nat n) <= Z.of_nat (length frame) ->
  exists fl', decode_done frame i n fl = Some fl' /\ marks fl fl' /\ userDataFlag fl' = userDataFlag fl.
Proof.
  unfold DFILE_FRAME_HEADER_LEN. revert i fl. induction n as [|n IH]; intros i fl Hwf Hi Hl; [eexists; by eauto with dfile|]; cbn [decode_acks decode_done].
  unfold DFILE_FRAME_HEADER_LEN. read_at 2%nat (8 + 2 * i) frame. rewrite wf_GetNum by done. case_if; [apply IH; lia || done|].
  destruct (marks_SetFileSendSuccess fl v Hwf) as (fl' & -> & Hm & _ & Hu); [lia|]. cbn [mbind option_bind].
  destruct (IH (i + 1) fl') as (fl2 & -> & Hm2 & Hu2); [apply Hm|lia..|]. eexists. split; [done|]. split; [by eapply marks_trans|congruence].
Qed.

Lemma header_decode_safe a b fl frame : wf fl -> DecodeDFileFrame frame = Some NSTACKX_EOK ->
  exists r fl', DecodeFileHeaderFrame a b fl frame = Some (r, fl') /\ grows fl fl'.
Proof.
  intros Hwf (plen & Hp & H0 & Hl)%frame_length. unfold DFILE_FRAME_HEADER_LEN in Hl.
  unfold DecodeFileHeaderFrame, DecodeFileHeaderFrameSp. rewrite Hp. cbn [mbind option_bind]. case_if; [eexists _, _; by eauto with dfile|].
  unfold DFILE_FRAME_HEADER_LEN, OFF_FLAG. read_at 2%nat 8 frame.
  destruct (FileListSetNum a fl v) as [r fl1] eqn:E. apply grows_SetNum in E as Hg; [|lia|done].
  case_if; [by eexists _, _|]. read_at 1%nat 1 frame. cbn zeta.
  match goal with |- exists r fl', decode_units _ _ _ _ _ _ ?x = _ /\ _ => set (fl2 := x) end.
  assert (grows fl1 fl2) as Hg2.
  { destruct (grows_refl fl1 (grows_wf _ _ Hg)) as [H1 H2 H3 H4]. unfold fl2. repeat case_if; by constructor. }
  destruct (decode_units_safe b v0 frame (plen - 2) (Z.to_nat (plen - 2)) 0 fl2) as (r2 & fl3 & -> & Hg3);
    [apply Hg2|done|unfold DFILE_FRAME_HEADER_LEN; lia|lia|].
  eexists _, _. split; [done|]. eapply grows_trans; [exact Hg|]. by eapply grows_trans.
Qed.

Lemma confirm_decode_safe fl frame : wf fl -> DecodeDFileFrame frame = Some NSTACKX_EOK ->
  exists r fl', DecodeFileHeaderConfirmFrame fl frame = Some (r, fl') /\ marks fl fl'.
Proof.
  intros Hwf (plen & Hp & H0 & Hl)%frame_length. unfold DecodeFileHeaderConfirmFrame. rewrite Hp. cbn [mbind option_bind].
  case_if; [eexists _, _; by eauto with dfile|]. rewrite Z.shiftr_div_pow2 by lia. change (2 ^ 1) with 2.
  assert (u16 (plen / 2) <= plen / 2) by (apply Z.mod_le; [apply Z.div_pos; lia|done]).
  pose proof (wrap_range 16 (plen / 2)).
  destruct (decode_acks_safe frame 0 (Z.to_nat (u16 (plen / 2))) fl) as (fl' & -> & ?); [done|done| |eexists _, _; by eauto with dfile].
  unfold DFILE_FRAME_HEADER_LEN in *. pose proof (Z.mul_div_le plen 2). lia.
Qed.

Lemma done_decode_safe fl frame : wf fl -> DecodeDFileFrame frame = Some NSTACKX_EOK ->
  exists r fl', DecodeFileTransferDoneFrame fl frame = Some (r, fl') /\ marks fl fl' /\ userDataFlag fl' = userDataFlag fl.
Proof.
  intros Hwf (plen & Hp & H0 & Hl)%frame_length. unfold DecodeFileTransferDoneFrame. rewrite Hp. cbn [mbind option_bind].
  case_if; [eexists _, _; by eauto with dfile|].
  destruct (decode_done_safe frame 0 (Z.to_nat (plen / 2)) fl) as (fl' & -> & ? & ?); [done|done| |eexists _, _; by eauto with dfile].
  unfold DFILE_FRAME_HEADER_LEN in *. pose proof (Z.mul_div_le plen 2). lia.
Qed.

Lemma setting_decode_safe frame host plen : DecodeDFileFrame frame = Some NSTACKX_EOK ->
  be_at 2 OFF_LENGTH frame = Some plen -> plen <> 8 ->
  exists r s, DecodeSettingFrame frame host = Some (r, s).
Proof.
  intros (p & Hp & H0 & Hl)%frame_length Hp' Hne. rewrite Hp in Hp'. injection Hp' as ->.
  unfold DFILE_FRAME_HEADER_LEN in Hl. unfold DecodeSettingFrame, OFF_SESSION_ID, OFF_TRANS_ID.
  read_at 2%nat 2 frame. read_at 2%nat 4 frame. case_if; [by eexists _, _|]. rewrite Hp. cbn [mbind option_bind].
  unfold IsSettingFrameLengthValid, SETTING_FRAME_LEN, DFILE_FRAME_HEADER_LEN.
  case_if; [by eexists _, _|]. unfold IsSettingFrameMtuAndTypeValid. read_at 2%nat 8 frame.
  destruct (v1 <? NSTACKX_MIN_MTU_SIZE); [by eexists _, _|]. read_at 2%nat 10 frame.
  case_if; [by eexists _, _|]. case_if; [by eexists _, _|]. read_at 4%nat 12 frame. read_at 4%nat 16 frame. by eexists _, _.
Qed.


(** A setting frame of the version without capability (payload of 8 bytes) is
    accepted, and its capability is read behind the end of the frame. *)
Lemma setting_frame_over_read : exists frame,
  DecodeDFileFrame frame = Some NSTACKX_EOK /\
  forall host, DecodeSettingFrame frame host = None.
Proof.
  exists (be_bytes 1 8 ++ be_bytes 1 0 ++ be_bytes 2 0 ++ be_bytes 2 0 ++ be_bytes 2 8
          ++ be_bytes 2 1472 ++ be_bytes 2 1 ++ be_bytes 4 1).
  split; [done|]. intros [? ? ? ? ?]. done.
Qed.

(** [GetFrameName] has no text for an acknowledgement of data. *)
Lemma frame_name_missing : GetFrameName NSTACKX_DFILE_FILE_DATA_ACK_FRAME = None.
Proof. done. Qed.


(** ** What the encoders write *)

(** [DFileFrameHeader] as bytes. *)
Definition frame_head (t flag session trans len : Z) : list byte :=
  be_bytes 1 t ++ be_bytes 1 flag ++ be_bytes 2 session ++ be_bytes 2 trans ++ be_bytes 2 len.

Lemma length_frame_head t f s tr l : length (frame_head t f s tr l) = 8%nat.
Proof. unfold frame_head. by rewrite !length_app, !length_be_bytes. Qed.

Lemma put_mid a old new c off : off = Z.of_nat (length a) -> length old = length new ->
  put (a ++ old ++ c) off new = Some (a ++ new ++ c).
Proof.
  intros -> Hl. unfold put. rewrite !length_app.
  rewrite (proj2 (andb_true_iff _ _)) by (split; bool_lia). rewrite Nat2Z.id. f_equal. unfold splice.
  rewrite take_app_length. f_equal. f_equal. rewrite app_assoc. apply drop_app_length'.
  rewrite length_app. lia.
Qed.

Lemma be_at_mid n a v c off : off = Z.of_nat (length a) ->
  be_at n off (a ++ be_bytes n v ++ c) = Some (v mod 2 ^ (Z.of_nat n * 8)).
Proof.
  intros ->. rewrite be_at_Some; [|lia|rewrite !length_app, length_be_bytes; lia].
  rewrite Nat2Z.id, slice_mid by (done || by rewrite length_be_bytes). by rewrite be_val_bytes.
Qed.

Lemma be_at_mid_small n a v c off : off = Z.of_nat (length a) -> 0 <= v < 2 ^ (Z.of_nat n * 8) ->
  be_at n off (a ++ be_bytes n v ++ c) = Some v.
Proof. intros Ho Hv. rewrite be_at_mid by done. by rewrite Z.mod_small. Qed.

Lemma be_at_skip n off k w rest : Z.of_nat k <= off ->
  be_at n off (be_bytes k w ++ rest) = be_at n (off - Z.of_nat k) rest.
Proof.
  intros Hk. unfold be_at. rewrite length_app, length_be_bytes.
  replace ((0 <=? off) && (off + Z.of_nat n <=? Z.of_nat (k + length rest)))
    with ((0 <=? off - Z.of_nat k) && (off - Z.of_nat k + Z.of_nat n <=? Z.of_nat (length rest)))
    by (apply eq_true_iff_eq; rewrite !andb_true_iff, !Z.leb_le; lia).
  case_if; [|done]. f_equal. f_equal. unfold slice. f_equal.
  rewrite drop_app_ge by (rewrite length_be_bytes; lia). f_equal. rewrite length_be_bytes. lia.
Qed.

Lemma be_at_here n off v c : off = 0 -> 0 <= v < 2 ^ (Z.of_nat n * 8) ->
  be_at n off (be_bytes n v ++ c) = Some v.
Proof. intros -> Hv. by rewrite (be_at_mid_small n [] v c). Qed.

Lemma be_at_last n off v : off = 0 -> 0 <= v < 2 ^ (Z.of_nat n * 8) ->
  be_at n off (be_bytes n v) = Some v.
Proof. intros -> Hv. rewrite <- (app_nil_r (be_bytes n v)). by apply be_at_here. Qed.

(** Read a field of a frame written as a concatenation of fields. *)
Ltac read_pack :=
  repeat first
    [ rewrite be_at_here by (simpl; lia)
    | rewrite be_at_last by (simpl; lia)
    | rewrite be_at_skip by lia ];
  cbn [mbind option_bind].

Lemma put_front bs buf : (length bs <= length buf)%nat -> put buf 0 bs = Some (bs ++ drop (length bs) buf).
Proof. intros. unfold put. by rewrite (proj2 (andb_true_iff _ _)) by (split; bool_lia). Qed.

(** The frame of an encoder that writes [bs] to the front of the buffer. *)
Lemma take_put_front n bs buf buf' : put buf 0 bs = Some buf' -> n = Z.of_nat (length bs) ->
  take (Z.to_nat n) buf' = bs.
Proof.
  unfold put. case_if; [|done]. intros [= <-] ->. rewrite Nat2Z.id. unfold splice. simpl.
  by rewrite take_app_length.
Qed.

(** The ids of a confirmation or transfer-done frame. *)
Definition id_bytes (ids : list Z) : list byte := concat (be_bytes 2 <$> ids).

Lemma length_id_bytes ids : length (id_bytes ids) = (2 * length ids)%nat.
Proof.
  unfold id_bytes. induction ids as [|id ids IH]; [done|]. rewrite fmap_cons. cbn [concat length].
  rewrite length_app, length_be_bytes, IH. lia.
Qed.

Lemma id_bytes_cons id ids : id_bytes (id :: ids) = be_bytes 2 id ++ id_bytes ids.
Proof. done. Qed.

Lemma id_bytes_app a b : id_bytes (a ++ b) = id_bytes a ++ id_bytes b.
Proof. unfold id_bytes. by rewrite fmap_app, concat_app. Qed.

Lemma put_ids_spec ids i a old c : Z.of_nat (length a) = DFILE_FRAME_HEADER_LEN + 2 * i ->
  length old = (2 * length ids)%nat ->
  put_ids (a ++ old ++ c) i ids = Some (a ++ id_bytes ids ++ c).
Proof.
  unfold DFILE_FRAME_HEADER_LEN. revert i a old. induction ids as [|id ids IH]; intros i a old Ha Ho.
  { destruct old; [done|simpl in Ho; lia]. }
  destruct old as [|x [|y old]]; simpl in Ho; [lia..|]. cbn [put_ids]. unfold DFILE_FRAME_HEADER_LEN.
  change (x :: y :: old) with ([x; y] ++ old). rewrite <- app_assoc.
  rewrite put_mid by (lia || by rewrite length_be_bytes). cbn [mbind option_bind].
  rewrite (app_assoc a). rewrite IH; [|rewrite length_app, length_be_bytes; lia|lia].
  by rewrite id_bytes_cons, <- !app_assoc.
Qed.

Lemma or_flags_idem v e : or_flags v (or_flags v e) = or_flags v e.
Proof. unfold or_flags. cbn. by rewrite <- Z.lor_assoc, Z.lor_diag. Qed.

(** [decode_done] marks the files of the frame and no others. *)
Lemma decode_done_spec ids i a c fl : wf fl -> Forall (fun id => 1 <= id <= num fl) ids ->
  Z.of_nat (length a) = DFILE_FRAME_HEADER_LEN + 2 * i ->
  exists fl', decode_done (a ++ id_bytes ids ++ c) i (length ids) fl = Some fl' /\ wf fl' /\
    fl' = fl <| files := files fl' |> /\
    forall j, entry fl' j = (if decide (j + 1 ∈ ids) then or_flags NSTACKX_FLAGS_FILE_SEND_SUCCESS else id)
                             <$> entry fl j.
Proof.
  unfold DFILE_FRAME_HEADER_LEN. revert i a fl. induction ids as [|x ids IH]; intros i a fl Hwf Hids Ha.
  { exists fl. split; [done|]. split; [done|]. split; [by destruct fl|]. intros j.
    rewrite decide_False by set_solver. by destruct (entry fl j). }
  apply Forall_cons in Hids as [Hx Hids]. pose proof (wf_num _ Hwf) as Hn.
  unfold NSTACKX_DFILE_MAX_FILE_NUM in Hn.
  cbn [length decode_done]. unfold DFILE_FRAME_HEADER_LEN. rewrite id_bytes_cons, <- app_assoc.
  rewrite (be_at_mid_small 2 a) by (simpl; lia). cbn [mbind option_bind]. rewrite wf_GetNum by done.
  replace ((x =? 0) || (x >? num fl)) with false by bool_lia. unfold FileListSetFileSendSuccess.
  destruct (wf_set_entry fl (x - 1) (or_flags NSTACKX_FLAGS_FILE_SEND_SUCCESS) Hwf) as (fl1 & -> & Hwf1 & E1 & Hent).
  { lia. }
  { intros ?. apply wf_or_flags. unfold NSTACKX_FLAGS_FILE_SEND_SUCCESS. lia. }
  cbn [mbind option_bind]. rewrite app_assoc.
  destruct (IH (i + 1) (a ++ be_bytes 2 x) fl1) as (fl2 & -> & Hwf2 & E2 & Hent2).
  - done.
  - by rewrite E1.
  - rewrite length_app, length_be_bytes. lia.
  - exists fl2. split; [done|]. split; [done|]. split; [rewrite E2; by rewrite E1|].
    intros j. rewrite Hent2, Hent. destruct (decide (j = x - 1)) as [->|Hj].
    + rewrite (decide_True (P := x - 1 + 1 ∈ x :: ids)) by (rewrite elem_of_cons; lia).
      destruct (entry fl (x - 1)); [|done]. simpl. case_decide; simpl; by rewrite ?or_flags_idem.
    + destruct (decide (j + 1 ∈ ids)) as [Hin|Hin].
      * by rewrite decide_True by (rewrite elem_of_cons; auto).
      * rewrite decide_False; [done|]. rewrite elem_of_cons. intros [|]; [lia|done].
Qed.

Lemma setting_roundtrip buf len p host : SETTING_FRAME_LEN <= len <= Z.of_nat (length buf) ->
  NSTACKX_MIN_MTU_SIZE <= s_mtu p < 65536 -> 0 < s_connType p < CONNECT_TYPE_MAX ->
  0 <= s_capability p < 2 ^ 32 ->
  exists n buf', EncodeSettingFrame buf len p = Some (n, buf') /\
    DecodeDFileFrame (take (Z.to_nat n) buf') = Some NSTACKX_EOK /\
    DecodeSettingFrame (take (Z.to_nat n) buf') host
      = Some (NSTACKX_EOK, mkSetting 0 (s_mtu p) (s_connType p) NSTACKX_DFILE_VERSION (s_capability p)).
Proof.
  unfold SETTING_FRAME_LEN, NSTACKX_MIN_MTU_SIZE, CONNECT_TYPE_MAX. intros Hl Hm Hc Hcap.
  unfold EncodeSettingFrame, SETTING_FRAME_LEN. replace (20 >? len) with false by bool_lia.
  set (bs := be_bytes 1 _ ++ _).
  assert (length bs = 20%nat) as Hbs by (unfold bs; rewrite !length_app, !length_be_bytes; done).
  rewrite put_front by lia. cbn [mbind option_bind]. eexists _, _. split; [done|].
  change (Z.to_nat 20) with 20%nat. rewrite (take_app_length' bs) by done.
  split.
  - unfold DecodeDFileFrame, OFF_LENGTH. rewrite Hbs. simpl. unfold bs, DFILE_FRAME_HEADER_LEN.
    read_pack. done.
  - unfold bs, DecodeSettingFrame, OFF_SESSION_ID, OFF_TRANS_ID, OFF_LENGTH, IsSettingFrameMtuAndTypeValid,
      NSTACKX_DFILE_VERSION, NSTACKX_DFILE_SETTING_FRAME, DFILE_FRAME_HEADER_LEN.
    read_pack. unfold NSTACKX_MIN_MTU_SIZE. replace (s_mtu p <? 64) with false by lia.
    unfold CONNECT_TYPE_NONE, CONNECT_TYPE_MAX.
    replace ((s_connType p =? 0) || (s_connType p >=? 3)) with false by lia. done.
Qed.

Lemma head_length_at t f s tr len rest : 0 <= len < 65536 ->
  be_at 2 OFF_LENGTH (frame_head t f s tr len ++ rest) = Some len.
Proof.
  intros. unfold frame_head, OFF_LENGTH. rewrite <- !app_assoc. read_pack. done.
Qed.

Lemma head_accepted t f s tr len body : Z.of_nat (length body) = len -> 0 <= len < 65536 ->
  DecodeDFileFrame (frame_head t f s tr len ++ body) = Some NSTACKX_EOK.
Proof.
  intros Hb Hlen. unfold DecodeDFileFrame. rewrite head_length_at, length_app, length_frame_head by done.
  cbn [mbind option_bind]. unfold DFILE_FRAME_HEADER_LEN.
  replace (Z.of_nat (8 + length body) <? 8) with false by bool_lia.
  by replace (Z.of_nat (8 + length body) - 8 =? len) with true by bool_lia.
Qed.

Lemma rst_roundtrip buf len trans code : 10 <= len <= Z.of_nat (length buf) -> 0 <= code < 65536 ->
  exists n buf', EncodeRstFrame buf len trans code = Some (n, buf') /\
    DecodeDFileFrame (take (Z.to_nat n) buf') = Some NSTACKX_EOK /\
    DecodeRstFrame (take (Z.to_nat n) buf') = Some (NSTACKX_EOK, code, 0).
Proof.
  intros Hl Hc. unfold EncodeRstFrame, DFILE_FRAME_HEADER_LEN. replace (8 + 2 >? len) with false by bool_lia.
  set (bs := be_bytes 1 _ ++ _).
  assert (length bs = 10%nat) as Hbs by (unfold bs; rewrite !length_app, !length_be_bytes; done).
  rewrite put_front by lia. cbn [mbind option_bind]. eexists _, _. split; [done|].
  change (Z.to_nat (8 + 2)) with 10%nat. rewrite (take_app_length' bs) by done. split.
  - replace bs with (frame_head NSTACKX_DFILE_RST_FRAME 0 0 trans 2 ++ be_bytes 2 code)
      by (unfold bs, frame_head; by rewrite <- !app_assoc).
    apply head_accepted; [by rewrite length_be_bytes|lia].
  - unfold bs, DecodeRstFrame, OFF_LENGTH, DFILE_FRAME_HEADER_LEN. read_pack. simpl. read_pack. done.
Qed.

Lemma backpress_roundtrip buf len overIo info : 14 <= len <= Z.of_nat (length buf) -> 0 <= overIo < 256 ->
  exists n buf', EncodeBackPressFrame buf len overIo = Some (n, buf') /\
    DecodeDFileFrame (take (Z.to_nat n) buf') = Some NSTACKX_EOK /\
    DecodeBackPressFrame (take (Z.to_nat n) buf') info = Some (NSTACKX_EOK, mkBackPress overIo 0 0).
Proof.
  intros Hl Hc. unfold EncodeBackPressFrame, DFILE_FRAME_HEADER_LEN. replace (8 + 6 >? len) with false by bool_lia.
  set (bs := be_bytes 1 _ ++ _).
  assert (length bs = 14%nat) as Hbs by (unfold bs; rewrite !length_app, !length_be_bytes; done).
  rewrite put_front by lia. cbn [mbind option_bind]. eexists _, _. split; [done|].
  change (Z.to_nat (8 + 6)) with 14%nat. rewrite (take_app_length' bs) by done. split.
  - replace bs with (frame_head NSTACKX_DFILE_FILE_BACK_PRESSURE_FRAME 0 0 0 6
                     ++ be_bytes 1 overIo ++ be_bytes 1 0 ++ be_bytes 4 0)
      by (unfold bs, frame_head; by rewrite <- !app_assoc).
    apply head_accepted; [by rewrite !length_app, !length_be_bytes|lia].
  - unfold bs, DecodeBackPressFrame, OFF_LENGTH, DFILE_FRAME_HEADER_LEN. read_pack. simpl.
    read_pack. done.
Qed.

(** Every frame begins with 8 bytes; [zeros 8] after [memset_s]. *)
Lemma zero_head : zeros 8 = frame_head 0 0 0 0 0.
Proof. vm_compute. done. Qed.

(** Setting a field of the header. *)
Lemma put_type t0 t f s tr l rest :
  put (frame_head t0 f s tr l ++ rest) OFF_TYPE (be_bytes 1 t) = Some (frame_head t f s tr l ++ rest).
Proof.
  unfold frame_head. rewrite <- !app_assoc.
  apply (put_mid [] (be_bytes 1 t0)); [done|by rewrite !length_be_bytes].
Qed.
Lemma put_flag t f0 f s tr l rest :
  put (frame_head t f0 s tr l ++ rest) OFF_FLAG (be_bytes 1 f) = Some (frame_head t f s tr l ++ rest).
Proof.
  unfold frame_head. rewrite <- !app_assoc.
  apply (put_mid (be_bytes 1 t) (be_bytes 1 f0)); [by rewrite length_be_bytes|by rewrite !length_be_bytes].
Qed.
Lemma put_trans t f s tr0 tr l rest :
  SetDfileFrameTransID (frame_head t f s tr0 l ++ rest) tr = Some (frame_head t f s tr l ++ rest).
Proof.
  unfold SetDfileFrameTransID, frame_head. rewrite <- !app_assoc.
  rewrite (app_assoc (be_bytes 1 t)), (app_assoc (_ ++ be_bytes 1 f)), put_mid; [by rewrite <- !app_assoc| |].
  - rewrite !length_app, !length_be_bytes. done.
  - by rewrite !length_be_bytes.
Qed.
Lemma put_length t f s tr l0 l rest :
  put (frame_head t f s tr l0 ++ rest) OFF_LENGTH (be_bytes 2 l) = Some (frame_head t f s tr l ++ rest).
Proof.
  unfold frame_head. rewrite <- !app_assoc.
  rewrite (app_assoc (be_bytes 1 t)), (app_assoc (_ ++ be_bytes 1 f)), (app_assoc (_ ++ be_bytes 2 s)), put_mid;
    [by rewrite <- !app_assoc| |].
  - rewrite !length_app, !length_be_bytes. done.
  - by rewrite !length_be_bytes.
Qed.
Lemma or_flag t f v s tr l rest : 0 <= f < 256 ->
  or_frame_flag (frame_head t f s tr l ++ rest) v = Some (frame_head t (Z.lor f v) s tr l ++ rest).
Proof.
  intros Hf. unfold or_frame_flag.
  assert (be_at 1 OFF_FLAG (frame_head t f s tr l ++ rest) = Some f) as ->.
  { unfold frame_head, OFF_FLAG. rewrite <- !app_assoc. read_pack. done. }
  cbn [mbind option_bind]. apply put_flag.
Qed.

Lemma zeros_head n : 8 <= n -> zeros (Z.to_nat n) = frame_head 0 0 0 0 0 ++ zeros (Z.to_nat (n - 8)).
Proof.
  intros. rewrite <- zero_head. unfold zeros. rewrite <- replicate_add. f_equal. lia.
Qed.

Lemma done_roundtrip n len ids fl : wf fl -> ids <> [] -> Forall (fun id => 1 <= id <= num fl) ids ->
  DFILE_FRAME_HEADER_LEN + 2 * Z.of_nat (length ids) <= len <= n -> len < 65536 ->
  exists m buf fl', EncodeFileTransferDoneFrame (zeros (Z.to_nat n)) len ids = Some (m, buf) /\
    DecodeDFileFrame (take (Z.to_nat m) buf) = Some NSTACKX_EOK /\
    DecodeFileTransferDoneFrame fl (take (Z.to_nat m) buf) = Some (NSTACKX_EOK, fl') /\ wf fl' /\
    forall j, entry fl' j = (if decide (j + 1 ∈ ids) then or_flags NSTACKX_FLAGS_FILE_SEND_SUCCESS else id)
                             <$> entry fl j.
Proof.
  unfold DFILE_FRAME_HEADER_LEN. intros Hwf Hne Hids Hl Hlen.
  assert (1 <= Z.of_nat (length ids)) as H1 by (destruct ids; [done|simpl; lia]).
  unfold EncodeFileTransferDoneFrame, DFILE_FRAME_HEADER_LEN.
  rewrite (wrap_small 64) by (simpl Z.pow; lia). pose proof (Z.mul_div_le (len - 8) 2).
  assert (Z.of_nat (length ids) <= (len - 8) / 2) by (apply Z.div_le_lower_bound; lia).
  rewrite (wrap_small 32) by (simpl Z.pow; lia).
  replace (if _ >? _ then _ else _) with (Z.of_nat (length ids)) by (case_if; lia).
  rewrite Nat2Z.id, firstn_all, zeros_head by lia.
  replace (zeros (Z.to_nat (n - 8))) with
    (zeros (2 * length ids) ++ zeros (Z.to_nat (n - 8) - 2 * length ids))
    by (unfold zeros; rewrite <- replicate_add; f_equal; lia).
  rewrite put_ids_spec; [|by rewrite length_frame_head|by unfold zeros; rewrite length_replicate].
  cbn [mbind option_bind]. rewrite put_type. cbn [mbind option_bind].
  rewrite (wrap_small 16) by (simpl Z.pow; lia). rewrite put_length. cbn [mbind option_bind].
  destruct (decode_done_spec ids 0 (frame_head NSTACKX_DFILE_FILE_TRANSFER_DONE_FRAME 0 0 0
              (Z.of_nat (length ids) * 2)) [] fl) as (fl' & Hdec & Hwf' & _ & Hent);
    [done|done|by rewrite length_frame_head|].
  eexists _, _, fl'. split; [reflexivity|].
  rewrite app_assoc, take_app_length' by (rewrite length_app, length_frame_head, length_id_bytes; lia).
  split; [apply head_accepted; [rewrite length_id_bytes|]; lia|]. split; [|done].
  unfold DecodeFileTransferDoneFrame. rewrite head_length_at by lia. cbn [mbind option_bind].
  replace ((_ =? 0) || negb (_ mod 2 =? 0)) with false by (rewrite Z.mod_mul by lia; bool_lia).
  rewrite Z.div_mul, Nat2Z.id by lia. rewrite app_nil_r in Hdec. by rewrite Hdec.
Qed.

(** C32: Control frames arrive as they were sent.  For a buffer of at least the
    length of the frame, the bytes that [EncodeSettingFrame], [EncodeRstFrame],
    [EncodeBackPressFrame] and [EncodeFileTransferDoneFrame] produce are accepted
    by [DecodeDFileFrame] and decoded to the mtu, connection type and capability
    (with the protocol version), to the error code, to the back-pressure state,
    and to the marking of exactly the listed files as sent. *)
Theorem control_frames_roundtrip (n len : Z) (p host : SettingFrame) (trans code overIo : Z)
    (info : DataBackPressure) (fl : FileList) (ids : list Z)
    (Hlen : SETTING_FRAME_LEN <= len <= n) (Hmax : len < 65536)
    (Hmtu : NSTACKX_MIN_MTU_SIZE <= s_mtu p < 65536) (Hconn : 0 < s_connType p < CONNECT_TYPE_MAX)
    (Hcap : 0 <= s_capability p < 2 ^ 32) (Hcode : 0 <= code < 65536) (Hover : 0 <= overIo < 256)
    (Hwf : wf fl) (Hne : ids <> []) (Hids : Forall (fun id => 1 <= id <= num fl) ids)
    (Hfit : DFILE_FRAME_HEADER_LEN + 2 * Z.of_nat (length ids) <= len) :
  let sent (e : option (Z * list byte)) (P : list byte -> Prop) :=
    exists m buf, e = Some (m, buf) /\
      DecodeDFileFrame (take (Z.to_nat m) buf) = Some NSTACKX_EOK /\ P (take (Z.to_nat m) buf) in
  let buf := zeros (Z.to_nat n) in
  sent (EncodeSettingFrame buf len p) (fun frame => DecodeSettingFrame frame host
    = Some (NSTACKX_EOK, mkSetting 0 (s_mtu p) (s_connType p) NSTACKX_DFILE_VERSION (s_capability p))) /\
  sent (EncodeRstFrame buf len trans code) (fun frame => DecodeRstFrame frame = Some (NSTACKX_EOK, code, 0)) /\
  sent (EncodeBackPressFrame buf len overIo) (fun frame =>
    DecodeBackPressFrame frame info = Some (NSTACKX_EOK, mkBackPress overIo 0 0)) /\
  sent (EncodeFileTransferDoneFrame buf len ids) (fun frame =>
    exists fl', DecodeFileTransferDoneFrame fl frame = Some (NSTACKX_EOK, fl') /\ wf fl' /\
    forall j, entry fl' j = (if decide (j + 1 ∈ ids) then or_flags NSTACKX_FLAGS_FILE_SEND_SUCCESS else id)
                             <$> entry fl j).
Proof.
  unfold SETTING_FRAME_LEN in Hlen. intros sent buf.
  assert (Z.of_nat (length buf) = n) as Hbuf by (unfold buf, zeros; rewrite length_replicate; lia).
  split; [|split; [|split]].
  - apply setting_roundtrip; unfold SETTING_FRAME_LEN; lia || done.
  - apply rst_roundtrip; lia.
  - apply backpress_roundtrip; lia.
  - destruct (done_roundtrip n len ids fl) as (m & b & fl' & ? & ? & ? & ? & ?); try done; [lia|].
    exists m, b. split; [done|]. split; [done|]. by exists fl'.
Qed.

Lemma control_frames_roundtrip_witness :
  let fl := mkFileList (Some [entry0; entry0]) 2 None 0 0 0 None 0 0 0 None in
  exists m buf, EncodeFileTransferDoneFrame (zeros 64) 64 [2] = Some (m, buf) /\
    DecodeDFileFrame (take (Z.to_nat m) buf) = Some NSTACKX_EOK /\
    exists fl', DecodeFileTransferDoneFrame fl (take (Z.to_nat m) buf) = Some (NSTACKX_EOK, fl') /\ wf fl' /\
    forall j, entry fl' j = (if decide (j + 1 ∈ [2]) then or_flags NSTACKX_FLAGS_FILE_SEND_SUCCESS else id)
                             <$> entry fl j.
Proof.
  intros fl.
  apply (control_frames_roundtrip 64 64 (mkSetting 0 1472 1 0 3) (mkSetting 0 0 0 0 0) 1 201 1
           (mkBackPress 0 0 0) fl [2]); unfold SETTING_FRAME_LEN, NSTACKX_MIN_MTU_SIZE, CONNECT_TYPE_MAX,
           DFILE_FRAME_HEADER_LEN; cbn [s_mtu s_connType s_capability length]; try lia; try done.
  - unfold wf. cbn [files num fl]. unfold NSTACKX_DFILE_MAX_FILE_NUM. split; [done|]. split; [lia|].
    repeat constructor; vm_compute; done.
  - repeat constructor; cbn; lia.
Defined.
End DFileFrame.
