(* ===== verification/DFileHandshake.v ===== *)
(** * DFile: the exchange of the file list

    What the frames of [DFileFrame] achieve together: the sender's header frames
    carry its file names, sizes and user data to the receiver, and the
    receiver's confirmation frames tell the sender which of them arrived.  The
    frames may be lost, repeated and reordered; the state of the receiver is
    compared with the sender's by the relation [agrees]. *)

From S2P Require Import Prelude DFileList DFileFrame.

Module DFileHandshake.
Import DFileList DFileFrame.

(** ** Units of a header frame *)

(** [FileInfoUnit] as bytes. *)
Definition unit_bytes (id : Z) (name : list byte) (size : Z) : list byte :=
  (be_bytes 2 id ++ be_bytes 8 size ++ be_bytes 2 (strlen name)) ++ name.

Lemma length_unit_bytes id name size : Z.of_nat (length (unit_bytes id name size)) = FILE_INFO_UNIT_LEN + strlen name.
Proof. unfold unit_bytes, FILE_INFO_UNIT_LEN. rewrite !length_app, !length_be_bytes. lia. Qed.

(** Two adjacent writes. *)
Lemma splice_adjacent {A} (o : nat) (a b l : list A) : (o + length a + length b <= length l)%nat ->
  splice o a (splice (o + length a) b l) = splice o (a ++ b) l.
Proof.
  intros H. unfold splice. rewrite length_app.
  rewrite take_app_le by (rewrite length_take; lia). rewrite take_take.
  replace (o `min` (o + length a))%nat with o by lia. rewrite <- app_assoc. f_equal. f_equal.
  rewrite drop_app_ge by (rewrite length_take; lia). rewrite length_take.
  replace (o + length a - _)%nat with 0%nat by lia. simpl. by replace (o + length a + length b)%nat
    with (o + (length a + length b))%nat by lia.
Qed.

Section encode.
Context (stat : list byte -> option Z) (fl : FileList).

Lemma EncodeFileInfo_fits id name size buf o len :
  file_info stat fl id = Some (name, size) -> strlen name < 65536 -> 0 <= o ->
  FILE_INFO_UNIT_LEN < len -> FILE_INFO_UNIT_LEN + strlen name <= len -> o + len <= Z.of_nat (length buf) ->
  EncodeFileInfo stat fl id buf o len
    = Some (NSTACKX_EOK, FILE_INFO_UNIT_LEN + strlen name, splice (Z.to_nat o) (unit_bytes id name size) buf).
Proof.
  unfold FILE_INFO_UNIT_LEN. intros Hi Hn Ho Hl Hfit Hbuf. unfold EncodeFileInfo, FILE_INFO_UNIT_LEN. rewrite Hi.
  cbn [mbind option_bind]. rewrite (wrap_small 16) by (simpl Z.pow; lia).
  replace (len <=? 12) with false by bool_lia. rewrite Nat2Z.id, firstn_all.
  rewrite memcpy_s_ok by lia. cbn [mbind option_bind negb].
  unfold put, unit_bytes. set (h := be_bytes 2 id ++ _).
  assert (length h = 12%nat) as Hh by (unfold h; rewrite !length_app, !length_be_bytes; done).
  rewrite length_splice by lia. rewrite (proj2 (andb_true_iff _ _)) by (split; bool_lia).
  cbn [mbind option_bind]. f_equal. f_equal. rewrite <- (splice_adjacent _ h name) by lia. rewrite Hh.
  f_equal. f_equal. lia.
Qed.

Lemma EncodeFileInfo_full id name size buf o len :
  file_info stat fl id = Some (name, size) -> strlen name < 65536 -> 0 <= o -> 0 <= len ->
  len <= FILE_INFO_UNIT_LEN \/ len < FILE_INFO_UNIT_LEN + strlen name -> o + len <= Z.of_nat (length buf) ->
  exists buf', EncodeFileInfo stat fl id buf o len = Some (NSTACKX_EAGAIN, 0, buf') /\
    length buf' = length buf /\ take (Z.to_nat o) buf' = take (Z.to_nat o) buf.
Proof.
  unfold FILE_INFO_UNIT_LEN. intros Hi Hn Ho Hl Hfull Hbuf. unfold EncodeFileInfo, FILE_INFO_UNIT_LEN. rewrite Hi.
  cbn [mbind option_bind]. rewrite (wrap_small 16) by (simpl Z.pow; lia).
  case_if; [by eexists|]. rewrite Nat2Z.id, firstn_all. unfold memcpy_s.
  replace (len - 12 <=? 0) with false by lia. replace (strlen name >? len - 12) with true by bool_lia.
  rewrite (proj2 (Nat.leb_le _ _)) by lia. cbn [mbind option_bind negb]. eexists. split; [done|]. split.
  - apply length_splice. unfold zeros. rewrite length_replicate. lia.
  - unfold splice. rewrite take_app_le by (rewrite length_take; lia). rewrite take_take. f_equal. lia.
Qed.

(** ** The loop of the encoder *)

(** Unit [id] is not acknowledged yet (and there is one). *)
Definition needs (id : Z) : bool :=
  match FileListGetFileNameAcked fl id with
  | Some a => (a =? 0) && negb ((id =? 0) && bool_decide (userData fl = None) && bool_decide (packedUserData fl = None))
  | None => false
  end.

(** The bytes of unit [id] of this list. *)
Definition unit_of (id : Z) : list byte :=
  match file_info stat fl id with Some (name, size) => unit_bytes id name size | None => [] end.

Definition units_of (ids : list Z) : list byte := concat (unit_of <$> ids).

(** Every unit of the list has a name that can be sent. *)
Definition encodable : Prop :=
  forall id, 0 <= id <= header_num fl -> needs id = true ->
  exists name size, file_info stat fl id = Some (name, size) /\ strlen name < 65536.

Lemma acked_defined id : wf fl -> 0 <= id <= num fl -> exists a, FileListGetFileNameAcked fl id = Some a.
Proof.
  intros Hwf Hid. unfold FileListGetFileNameAcked. case_if; [by eexists|].
  destruct (wf_entry_in fl (id - 1) Hwf) as (e & -> & _); [lia|]. by eexists.
Qed.

(** What the loop has done from [last] and [offset] on: the units of the ids up
    to [last'] that are needed are appended, and it stops early only when the
    next unit has no room. *)
Definition encoded (fileNum bufferLength last offset : Z) (buf : list byte) (r : option (Z * Z * list byte)) : Prop :=
  exists last' offset' buf' ids, r = Some (last', offset', buf') /\
    last <= last' <= fileNum /\ offset <= offset' <= bufferLength /\ length buf' = length buf /\
    ids = filter (fun id => needs id = true) (seqZ (last + 1) (last' - last)) /\
    take (Z.to_nat (10 + offset')) buf' = take (Z.to_nat (10 + offset)) buf ++ units_of ids /\
    offset' = offset + Z.of_nat (length (units_of ids)) /\
    (last < fileNum -> offset + FILE_INFO_UNIT_LEN < bufferLength ->
     (needs (last + 1) = true -> offset + Z.of_nat (length (unit_of (last + 1))) <= bufferLength) -> last < last').

Lemma encoded_stop fileNum bufferLength last offset buf buf' : -1 <= last <= fileNum ->
  0 <= offset <= bufferLength -> length buf' = length buf ->
  take (Z.to_nat (10 + offset)) buf' = take (Z.to_nat (10 + offset)) buf ->
  (last < fileNum -> offset + FILE_INFO_UNIT_LEN < bufferLength ->
   (needs (last + 1) = true -> offset + Z.of_nat (length (unit_of (last + 1))) <= bufferLength) -> False) ->
  encoded fileNum bufferLength last offset buf (Some (last, offset, buf')).
Proof.
  intros Hl Ho Hlen Htake Hstop. exists last, offset, buf', []. split; [done|]. split; [lia|]. split; [lia|].
  split; [done|]. split; [by rewrite Z.sub_diag|]. split; [by rewrite app_nil_r|]. split; [simpl; lia|].
  intros. exfalso. eauto.
Qed.

Lemma encoded_step fileNum bufferLength last offset offset1 buf buf1 r ids1 :
  -1 <= last < fileNum -> 0 <= offset <= offset1 -> length buf1 = length buf ->
  ids1 = (if needs (last + 1) then [last + 1] else []) ->
  take (Z.to_nat (10 + offset1)) buf1 = take (Z.to_nat (10 + offset)) buf ++ units_of ids1 ->
  offset1 = offset + Z.of_nat (length (units_of ids1)) ->
  encoded fileNum bufferLength (last + 1) offset1 buf1 r ->
  encoded fileNum bufferLength last offset buf r.
Proof.
  intros Hl Ho Hlen -> Htake Ho1 (last' & offset' & buf' & ids & -> & Hl' & Ho' & Hlen' & -> & Htake' & Hoff & _).
  exists last', offset', buf', (filter (fun id => needs id = true) (seqZ (last + 1) (last' - last))).
  assert (filter (fun id => needs id = true) (seqZ (last + 1) (last' - last)) =
          (if needs (last + 1) then [last + 1] else []) ++
          filter (fun id => needs id = true) (seqZ (last + 1 + 1) (last' - (last + 1)))) as E.
  { rewrite seqZ_cons by lia. rewrite filter_cons. replace (Z.pred (last' - last)) with (last' - (last + 1)) by lia.
    unfold Z.succ. by destruct (needs (last + 1)). }
  split; [done|]. split; [lia|]. split; [lia|]. split; [congruence|]. split; [done|]. rewrite E.
  unfold units_of in *. rewrite fmap_app, concat_app, length_app. split; [|split; [lia|lia]].
  rewrite Htake', Htake. by rewrite <- app_assoc.
Qed.

Lemma encode_units_spec fileNum bufferLength fuel last offset buf :
  wf fl -> encodable -> fileNum = header_num fl -> fileNum <= num fl -> -1 <= last <= fileNum ->
  0 <= offset <= bufferLength -> 10 + bufferLength <= Z.of_nat (length buf) ->
  fileNum - last <= Z.of_nat fuel ->
  encoded fileNum bufferLength last offset buf (encode_units stat fl fileNum bufferLength fuel last offset buf).
Proof.
  intros Hwf Henc Hnum Hn. pose proof (wf_num _ Hwf) as Hmax. unfold NSTACKX_DFILE_MAX_FILE_NUM in Hmax.
  revert last offset buf. induction fuel as [|fuel IH]; intros last offset buf Hl Ho Hbuf Hfuel;
    cbn [encode_units]; (case_if; [apply encoded_stop; unfold FILE_INFO_UNIT_LEN; lia || done|]); [lia|].
  rewrite i32_small by lia. rewrite (wrap_small 16) by (simpl Z.pow; lia).
  destruct (acked_defined (last + 1) Hwf) as [a Ha]; [lia|].
  assert (needs (last + 1) = (a =? 0) && negb ((last + 1 =? 0) && bool_decide (userData fl = None)
            && bool_decide (packedUserData fl = None))) as Hneeds by (unfold needs; by rewrite Ha).
  rewrite Ha. cbn [mbind option_bind]. case_if.
  { apply (encoded_step _ _ _ _ offset _ buf _ []); try lia; try done.
    - rewrite Hneeds. destruct (a =? 0), ((last + 1 =? 0) && _ && _); done.
    - by rewrite app_nil_r.
    - simpl. lia.
    - apply IH; lia. }
  assert (needs (last + 1) = true) as Hyes
    by (rewrite Hneeds; destruct (a =? 0), ((last + 1 =? 0) && _ && _); done).
  destruct (Henc (last + 1)) as (name & size & Hi & Hname); [lia|done|].
  assert (unit_of (last + 1) = unit_bytes (last + 1) name size) as Hu by (unfold unit_of; by rewrite Hi).
  pose proof (length_unit_bytes (last + 1) name size) as Hul. unfold DFILE_FRAME_HEADER_LEN, FILE_INFO_UNIT_LEN in *.
  destruct (decide (12 < bufferLength - offset /\ 12 + strlen name <= bufferLength - offset)) as [[Hf1 Hf2]|Hfull].
  - rewrite (EncodeFileInfo_fits _ name size) by (unfold FILE_INFO_UNIT_LEN; lia || done).
    cbn [mbind option_bind negb Z.eqb NSTACKX_EOK]. unfold FILE_INFO_UNIT_LEN.
    assert (units_of [last + 1] = unit_bytes (last + 1) name size) as Hus
      by (unfold units_of; simpl; by rewrite app_nil_r).
    apply (encoded_step _ _ _ _ (offset + (12 + strlen name)) _ (splice (Z.to_nat (8 + 2 + offset))
             (unit_bytes (last + 1) name size) buf) _ [last + 1]); try lia.
    + apply length_splice. lia.
    + by rewrite Hyes.
    + rewrite Hus. apply splice_take; lia.
    + by rewrite Hus, Hul.
    + apply IH; try lia. rewrite length_splice; lia.
  - destruct (EncodeFileInfo_full (last + 1) name size buf (8 + 2 + offset) (bufferLength - offset))
      as (buf' & -> & Hlen' & Htake'); unfold FILE_INFO_UNIT_LEN; try lia; try done.
    cbn [mbind option_bind negb]. apply encoded_stop; try lia; try done.
    unfold FILE_INFO_UNIT_LEN. intros _ ? H%(fun H => H Hyes). rewrite Hu, Hul in H. lia.
Qed.

(** ** A header frame *)

Definition header_flag : Z :=
  let f := if bool_decide (userData fl = None) then 0 else NSTACKX_DFILE_HEADER_FRAME_USER_DATA_FLAG in
  let f := if pathType fl >? 0 then Z.lor f NSTACKX_DFILE_HEADER_FRAME_PATH_TYPE_FLAG else f in
  if noSyncFlag fl =? 0 then f else Z.lor f NSTACKX_DFILE_HEADER_FRAME_NO_SYNC_FLAG.

Definition header_frame (trans : Z) (ids : list Z) : list byte :=
  frame_head NSTACKX_DFILE_FILE_HEADER_FRAME header_flag 0 trans (2 + Z.of_nat (length (units_of ids)))
  ++ be_bytes 2 (header_num fl) ++ units_of ids.

Lemma length_header_frame trans ids :
  Z.of_nat (length (header_frame trans ids)) = 10 + Z.of_nat (length (units_of ids)).
Proof. unfold header_frame. rewrite !length_app, length_frame_head, length_be_bytes. lia. Qed.

Lemma put_header_flag {A} l rest (k : list byte -> option A) :
  (buf ← (if bool_decide (userData fl = None) then Some (frame_head 1 0 0 0 l ++ rest)
          else or_frame_flag (frame_head 1 0 0 0 l ++ rest) NSTACKX_DFILE_HEADER_FRAME_USER_DATA_FLAG);
   buf ← (if pathType fl >? 0 then or_frame_flag buf NSTACKX_DFILE_HEADER_FRAME_PATH_TYPE_FLAG else Some buf);
   buf ← (if noSyncFlag fl =? 0 then Some buf else or_frame_flag buf NSTACKX_DFILE_HEADER_FRAME_NO_SYNC_FLAG);
   k buf)
  = k (frame_head 1 header_flag 0 0 l ++ rest).
Proof.
  unfold header_flag. destruct (bool_decide _), (pathType fl >? 0), (noSyncFlag fl =? 0);
    cbn [mbind option_bind];
    repeat (rewrite or_flag by (vm_compute; split; [discriminate|done]); cbn [mbind option_bind]); done.
Qed.

Lemma EncodeHeader_spec n len last :
  wf fl -> encodable -> 1 <= header_num fl <= num fl -> -1 <= last <= header_num fl ->
  10 <= len <= n -> len < 65536 ->
  exists last' m buf,
    let ids := filter (fun id => needs id = true) (seqZ (last + 1) (last' - last)) in
    EncodeFileHeaderFrame stat fl last (zeros (Z.to_nat n)) len = Some (last', m, buf) /\
    length buf = Z.to_nat n /\ last <= last' <= header_num fl /\
    take (Z.to_nat m) buf = header_frame 0 ids /\ m = Z.of_nat (length (header_frame 0 ids)) /\ m <= len /\
    (last < header_num fl -> 10 + FILE_INFO_UNIT_LEN < len ->
     (needs (last + 1) = true -> 10 + Z.of_nat (length (unit_of (last + 1))) <= len) -> last < last').
Proof.
  intros Hwf Henc Hnum Hlast Hlen Hmax. pose proof (wf_num _ Hwf) as Hn. unfold NSTACKX_DFILE_MAX_FILE_NUM in Hn.
  unfold EncodeFileHeaderFrame, EncodeFileHeaderFrameSp, DFILE_FRAME_HEADER_LEN.
  rewrite (wrap_small 64) by (simpl Z.pow; lia).
  assert (length (zeros (Z.to_nat n)) = Z.to_nat n) as Hz by (unfold zeros; apply length_replicate).
  destruct (encode_units_spec (header_num fl) (len - (2 + 8)) (Z.to_nat (num fl) + 2) last 0 (zeros (Z.to_nat n)))
    as (last' & off & buf & ids & -> & Hl & Ho & Hb & Hids & Htake & Hoff & Hprog); try lia; try done.
  cbn [mbind option_bind]. exists last'. rewrite <- Hids. cbn zeta.
  rewrite <- (take_drop (Z.to_nat (10 + off)) buf), Htake.
  replace (take (Z.to_nat (10 + 0)) (zeros (Z.to_nat n))) with (frame_head 0 0 0 0 0 ++ be_bytes 2 0)
    by (rewrite zeros_head, take_app_ge by (rewrite ?length_frame_head; lia);
        rewrite length_frame_head; unfold zeros; rewrite take_replicate, Nat.min_l by lia; done).
  rewrite <- !app_assoc. rewrite put_type. cbn [mbind option_bind].
  rewrite put_header_flag. rewrite (wrap_small 16) by (simpl Z.pow; lia). rewrite put_length.
  cbn [mbind option_bind]. rewrite put_mid by (by rewrite ?length_frame_head, ?length_be_bytes).
  cbn [mbind option_bind]. rewrite (wrap_small 16) by (simpl Z.pow; lia).
  rewrite Hoff, !Z.add_0_l, (Z.add_comm _ 2).
  eexists _, _. split; [reflexivity|]. split; [|split; [lia|]].
  { rewrite !length_app, length_frame_head, length_be_bytes, length_drop. lia. }
  rewrite length_header_frame. split; [|split; [lia|split; [lia|]]].
  2: { intros H1 H2 H3. apply Hprog; [lia|lia|]. intros H4. specialize (H3 H4). lia. }
  unfold header_frame, NSTACKX_DFILE_FILE_HEADER_FRAME. rewrite !app_assoc. apply take_app_length'.
  rewrite !length_app, length_frame_head, length_be_bytes. lia.
Qed.
End encode.

(** ** The receiver compared with the sender *)

Definition no_nul (t : list byte) : Prop := Forall (fun b => b <> Byte.x00) t.

Lemma cstr_no_nul t rest : no_nul t -> cstr (t ++ Byte.x00 :: rest) = t.
Proof.
  induction 1 as [|b t Hb Ht IH]; [done|]. simpl. rewrite decide_False by done. by rewrite IH.
Qed.

Lemma cstr_text t : no_nul t -> cstr t = t.
Proof. induction 1 as [|b t Hb Ht IH]; [done|]. simpl. rewrite decide_False by done. by rewrite IH. Qed.

(** A stored name is read back. *)
Lemma cstr_stored name : no_nul name -> (length name <= 1023)%nat -> cstr (splice 0 name (zeros 1024)) = name.
Proof.
  intros Hn Hl. unfold splice, zeros. rewrite take_0, app_nil_l, drop_replicate, Nat.add_0_l.
  replace (1024 - length name)%nat with (S (1023 - length name)) by lia. by apply cstr_no_nul.
Qed.

(** The sender's list can be offered: every file has a non-empty name that fits
    an entry of the receiver and an admissible size, and user data and path type
    are packed the way [FileListAddExtraInfo] does it. *)
Record offer (stat : list byte -> option Z) (s : FileList) : Prop := {
  offer_wf : wf s;
  offer_num : 1 <= header_num s <= num s;
  offer_file : forall id, 1 <= id <= header_num s ->
    exists name size, file_info stat s id = Some (name, size) /\
      0 < strlen name <= 1023 /\ no_nul name /\ 0 <= size <= NSTACKX_MAX_FILE_SIZE;
  offer_path : 0 <= pathType s < 65536;
  offer_packed : packedUserData s =
    if pathType s =? 0 then None else Some (le_bytes 2 (pathType s) ++ default [] (userData s));
  offer_user : forall u, userData s = Some u -> no_nul u /\ strlen u < 65534 /\ (pathType s = 0 -> u <> [])
}.

(** The name of unit [id] has arrived. *)
Definition received (r : FileList) (id : Z) : Prop :=
  if decide (id = 0) then Z.land (userDataFlag r) NSTACKX_FLAGS_FILE_NAME_RECEIVED <> 0
  else exists e, entry r (id - 1) = Some e /\ Z.land (flags e) NSTACKX_FLAGS_FILE_NAME_RECEIVED <> 0.

Definition has_user (s : FileList) : Prop := userData s <> None \/ 0 < pathType s.

(** An entry of the receiver is untouched, or holds what the sender offers. *)
Definition entry_agrees (stat : list byte -> option Z) (s : FileList) (id : Z) (e : FileListEntry) : Prop :=
  if decide (Z.land (flags e) NSTACKX_FLAGS_FILE_NAME_RECEIVED = 0) then fileName e = zeros 1024
  else file_info stat s id = Some (cstr (fileName e), fileSize e) /\ fileId e = id.

(** The receiver knows that user data will come. *)
Definition opened (r : FileList) : Prop :=
  Z.land (userDataFlag r) NSTACKX_DFILE_HEADER_FRAME_USER_DATA_FLAG <> 0.

Record agrees (stat : list byte -> option Z) (s r : FileList) : Prop := {
  agrees_wf : wf r;
  agrees_num : files r <> None -> num r = header_num s;
  agrees_entry : forall id e, 1 <= id -> entry r (id - 1) = Some e -> entry_agrees stat s id e;
  agrees_user : if decide (received r 0) then userData r = userData s /\ pathType r = pathType s
                else userData r = None /\ pathType r = 0;
  agrees_flag : opened r -> has_user s;
  agrees_open : received r 0 -> opened r;
  agrees_tar : tarFlag r = 0
}.

#[export] Instance received_0_dec r : Decision (received r 0).
Proof. unfold received. rewrite decide_True by done. apply _. Defined.

Lemma be_at_app n off a rest : Z.of_nat (length a) <= off ->
  be_at n off (a ++ rest) = be_at n (off - Z.of_nat (length a)) rest.
Proof.
  intros Hk. unfold be_at. rewrite length_app.
  replace ((0 <=? off) && (off + Z.of_nat n <=? Z.of_nat (length a + length rest)))
    with ((0 <=? off - Z.of_nat (length a)) && (off - Z.of_nat (length a) + Z.of_nat n <=? Z.of_nat (length rest)))
    by (apply eq_true_iff_eq; rewrite !andb_true_iff, !Z.leb_le; lia).
  case_if; [|done]. f_equal. f_equal. unfold slice. f_equal.
  rewrite drop_app_ge by lia. f_equal. lia.
Qed.

Lemma bytes_at_mid a b c off n : off = Z.of_nat (length a) -> n = Z.of_nat (length b) ->
  bytes_at off n (a ++ b ++ c) = Some b.
Proof.
  intros -> ->. unfold bytes_at. rewrite !length_app.
  replace ((0 <=? _) && _ && _) with true by (symmetry; rewrite !andb_true_iff, !Z.leb_le; lia).
  f_equal. apply slice_mid; lia.
Qed.

Section exchange.
Context (stat : list byte -> option Z) (s : FileList) (Hoffer : offer stat s).

(** [r'] agrees with the sender and has received at least what [r] had. *)
Definition advances (r r' : FileList) : Prop :=
  agrees stat s r' /\ (forall id, received r id -> received r' id) /\ (files r <> None -> files r' <> None) /\
  (opened r -> opened r').

Lemma land_lor_keep a b v : Z.land a v <> 0 -> Z.land (Z.lor a b) v <> 0.
Proof. rewrite Z.land_lor_distr_l. intros H [? _]%Z.lor_eq_0_iff. done. Qed.

Lemma stored_received id name size e : Z.land (flags (stored id name size e)) NSTACKX_FLAGS_FILE_NAME_RECEIVED <> 0.
Proof.
  cbn [flags stored]. cbn zeta. assert (Z.land (Z.lor (flags e) NSTACKX_FLAGS_FILE_NAME_RECEIVED)
    NSTACKX_FLAGS_FILE_NAME_RECEIVED <> 0).
  { rewrite Z.lor_comm. apply land_lor_keep. done. }
  case_if; [by apply land_lor_keep|done].
Qed.

Lemma add_file_agrees r id name size : agrees stat s r -> files r <> None ->
  file_info stat s id = Some (name, size) -> 1 <= id <= header_num s ->
  exists r', FileListAddFile r id name size = Some (NSTACKX_EOK, r') /\ advances r r' /\ received r' id.
Proof.
  intros [Hwf Hnum Hent Huser Hflag Hopen Htar] Hf Hi Hid. specialize (Hnum Hf).
  destruct (offer_file stat s Hoffer id Hid) as (n' & s' & Hi' & Hname & Hnul & Hsize).
  rewrite Hi in Hi'. injection Hi' as <- <-.
  destruct (AddFile_in_range r id name size Hwf) as (e & He & ->); [lia|lia|lia|].
  destruct (Z.land (flags e) _ =? 0) eqn:Er.
  2: { exists r. split; [done|]. split; [done|]. unfold received. rewrite decide_False by lia.
       exists e. split; [done|lia]. }
  destruct (wf_set_entry r (id - 1) (stored id name size) Hwf) as (r' & -> & Hwf' & E & Hent'); [lia| |].
  { intros. apply wf_stored; lia || done. }
  exists r'. split; [done|].
  assert (entry r' (id - 1) = Some (stored id name size e)) as He' by (rewrite Hent', decide_True, He by done; done).
  assert (received r' id) as Hrec by (unfold received; rewrite decide_False by lia; eauto using stored_received).
  split; [|done]. split; [|split; [|split]].
  - constructor; try by rewrite E.
    + done.
    + intros id' e' Hid'. rewrite Hent'.
      destruct (decide (id' - 1 = id - 1)) as [Hd|Hd]; [|by apply Hent].
      replace id' with id by lia. rewrite He. intros [= <-]. unfold entry_agrees.
      rewrite decide_False by apply stored_received. cbn [fileName fileSize fileId stored].
      specialize (Hent id e ltac:(lia) He). unfold entry_agrees in Hent. rewrite decide_True in Hent by lia.
      rewrite Hent, cstr_stored by (done || lia). done.
  - intros id' Hr. destruct (decide (id' = id)) as [->|Hne]; [done|]. unfold received in *.
    destruct (decide (id' = 0)); [by rewrite E|].
    destruct Hr as (e1 & He1 & Hr). exists e1. split; [|done]. rewrite Hent'. by rewrite decide_False by lia.
  - intros _ H0. unfold wf in Hwf'. rewrite H0 in Hwf'. unfold entry in He'. by rewrite H0 in He'.
  - unfold opened. by rewrite E.
Qed.

Lemma header_flag_user : (Z.land (header_flag s) NSTACKX_DFILE_HEADER_FRAME_USER_DATA_FLAG =? 0)
  = bool_decide (userData s = None).
Proof. unfold header_flag. by destruct (bool_decide _), (pathType s >? 0), (noSyncFlag s =? 0). Qed.
Lemma header_flag_path : (Z.land (header_flag s) NSTACKX_DFILE_HEADER_FRAME_PATH_TYPE_FLAG =? 0)
  = negb (pathType s >? 0).
Proof. unfold header_flag. by destruct (bool_decide _), (pathType s >? 0), (noSyncFlag s =? 0). Qed.
Lemma header_flag_range : 0 <= header_flag s < 256.
Proof. unfold header_flag. destruct (bool_decide _), (pathType s >? 0), (noSyncFlag s =? 0); vm_compute; split; done. Qed.

Lemma agrees_update_user r f : agrees stat s r ->
  Z.land f NSTACKX_FLAGS_FILE_NAME_RECEIVED <> 0 ->
  Z.land f NSTACKX_DFILE_HEADER_FRAME_USER_DATA_FLAG <> 0 -> has_user s ->
  advances r (r <| userDataFlag := f |> <| pathType := pathType s |> <| userData := userData s |>).
Proof.
  intros [Hwf Hnum Hent Huser Hflag Hopen Htar] Hf Hbit Hhas. split; [|split; [|split]].
  - constructor; [done|done|done| |done|done|done].
    rewrite decide_True; [done|]. unfold received. by rewrite decide_True.
  - intros id Hr. unfold received in Hr |- *. by destruct (decide (id = 0)).
  - done.
  - done.
Qed.

Lemma parse_packed : 0 < pathType s ->
  ParsePackedDFileUserData true (le_bytes 2 (pathType s) ++ default [] (userData s)) 0 None (header_flag s)
  = (NSTACKX_EOK, pathType s, userData s).
Proof.
  intros H0. pose proof (offer_path stat s Hoffer) as Hp.
  unfold ParsePackedDFileUserData. rewrite length_app, length_le_bytes, header_flag_user.
  replace (_ <? 2) with false by bool_lia. cbn [negb].
  rewrite take_app_length', drop_app_length', le_val_bytes by by rewrite length_le_bytes.
  simpl (2 ^ _). rewrite Z.mod_small by lia. replace (pathType s =? 0) with false by lia.
  destruct (userData s) as [u|] eqn:Eu; [|done].
  destruct (offer_user stat s Hoffer u Eu) as (Hnul & Hl & _). cbn [default from_option]. unfold id.
  rewrite bool_decide_false by done. rewrite (wrap_small 16) by (simpl Z.pow; lia).
  rewrite take_ge by lia. by rewrite cstr_text.
Qed.

(** [FileListAddUserData] stores the sender's user data and path type. *)
Lemma add_user_fresh r data z : userData r = None -> pathType r = 0 -> has_user s ->
  Z.land (userDataFlag r) NSTACKX_FLAGS_FILE_NAME_RECEIVED = 0 ->
  file_info stat s 0 = Some (data, z) ->
  FileListAddUserData true r data (header_flag s) =
    (NSTACKX_EOK, r <| userDataFlag := Z.lor (userDataFlag r) NSTACKX_FLAGS_FILE_NAME_RECEIVED |>
                    <| pathType := pathType s |> <| userData := userData s |>).
Proof.
  intros Hu0 Hp0 Hhas Hrec Hinfo. unfold FileListAddUserData. rewrite Hrec. cbn [negb Z.eqb].
  rewrite header_flag_path, header_flag_user. unfold file_info in Hinfo. cbn [Z.eqb] in Hinfo.
  rewrite (offer_packed stat s Hoffer) in Hinfo. pose proof (offer_path stat s Hoffer) as Hp.
  rewrite negb_involutive. destruct (pathType s =? 0) eqn:E0.
  - replace (pathType s >? 0) with false by bool_lia. destruct (userData s) as [u|] eqn:Eu; [|done].
    injection Hinfo as <- <-. cbn [negb bool_decide]. rewrite bool_decide_false by done. cbn [negb].
    destruct (offer_user stat s Hoffer u Eu) as (Hnul & _). rewrite cstr_text by done.
    rewrite Hp0. by replace (pathType s) with 0 by lia.
  - replace (pathType s >? 0) with true by bool_lia.
    assert (data = le_bytes 2 (pathType s) ++ default [] (userData s)) as -> by congruence.
    by rewrite Hu0, Hp0, parse_packed by lia.
Qed.

Lemma add_user_agrees r data z : agrees stat s r -> opened r -> file_info stat s 0 = Some (data, z) ->
  exists r', FileListAddUserData true r data (header_flag s) = (NSTACKX_EOK, r') /\ advances r r' /\ received r' 0.
Proof.
  intros Hag Hop Hinfo. pose proof (agrees_flag _ _ _ Hag Hop) as Hhas.
  destruct (decide (received r 0)) as [Hr|Hr].
  - exists r. split; [|done]. unfold FileListAddUserData. unfold received in Hr. rewrite decide_True in Hr by done.
    by replace (Z.land _ _ =? 0) with false by lia.
  - pose proof (agrees_user _ _ _ Hag) as Hu. rewrite decide_False in Hu by done. destruct Hu as [Hu Hp].
    unfold received in Hr. rewrite decide_True in Hr by done.
    rewrite (add_user_fresh r data z); try done; [|lia]. eexists. split; [done|]. split.
    + apply agrees_update_user; [done| | |done].
      * rewrite Z.lor_comm. by apply land_lor_keep.
      * by apply land_lor_keep.
    + unfold received. rewrite decide_True by done. cbn [userDataFlag]. rewrite Z.lor_comm. by apply land_lor_keep.
Qed.

(** A unit that may be in a header frame. *)
Definition valid_id (id : Z) : Prop := 1 <= id <= header_num s \/ (id = 0 /\ has_user s).

Lemma advances_refl r : agrees stat s r -> advances r r.
Proof. intros H. split; [exact H|]. split; auto. Qed.
Lemma advances_trans r1 r2 r3 : advances r1 r2 -> advances r2 r3 -> advances r1 r3.
Proof. intros (_ & H1 & H2 & H5) (H & H3 & H4 & H6). split; [exact H|]. split; auto. Qed.

(** Information on the unit: what is needed to decode it. *)
Lemma valid_info id : valid_id id -> exists name size, file_info stat s id = Some (name, size) /\
  0 <= id < 65536 /\ 0 < strlen name < 65536 /\ 0 <= size < 2 ^ 64.
Proof.
  pose proof (offer_num stat s Hoffer) as Hn. pose proof (wf_num _ (offer_wf stat s Hoffer)) as Hm.
  unfold NSTACKX_DFILE_MAX_FILE_NUM in Hm. intros [Hid|[-> Hhas]].
  - destruct (offer_file stat s Hoffer id Hid) as (name & size & Hi & Hl & _ & Hs).
    unfold NSTACKX_MAX_FILE_SIZE in Hs. exists name, size. split; [done|]. simpl Z.pow. lia.
  - unfold file_info. cbn [Z.eqb]. rewrite (offer_packed stat s Hoffer).
    pose proof (offer_path stat s Hoffer) as Hp. destruct (pathType s =? 0) eqn:E0.
    + destruct (userData s) as [u|] eqn:Eu; [|unfold has_user in Hhas; rewrite Eu in Hhas; destruct Hhas; [done|lia]].
      destruct (offer_user stat s Hoffer u Eu) as (_ & Hl & Hne). eexists _, _. split; [done|].
      assert (u <> []) by (apply Hne; lia). destruct u; [done|]. cbn [length] in *. lia.
    + eexists _, _. split; [done|]. rewrite length_app, length_le_bytes.
      destruct (userData s) as [u|] eqn:Eu; cbn [default from_option length].
      * destruct (offer_user stat s Hoffer u Eu) as (_ & Hl & _). unfold id. lia.
      * lia.
Qed.

Lemma unit_of_valid id : valid_id id -> exists name size, file_info stat s id = Some (name, size) /\
  unit_of stat s id = unit_bytes id name size /\ 0 <= id < 65536 /\ 0 < strlen name < 65536 /\ 0 <= size < 2 ^ 64.
Proof.
  intros (name & size & Hi & H)%valid_info. exists name, size. split; [done|]. split; [|done].
  unfold unit_of. by rewrite Hi.
Qed.

Lemma add_unit_agrees r id name size : agrees stat s r -> files r <> None -> (has_user s -> opened r) -> valid_id id ->
  file_info stat s id = Some (name, size) ->
  exists r', (if id =? 0 then Some (FileListAddUserData true r name (header_flag s))
              else FileListAddFile r id name size) = Some (NSTACKX_EOK, r') /\ advances r r' /\ received r' id.
Proof.
  intros Hag Hf Hop Hid Hi. destruct Hid as [Hid|[-> Hhas]].
  - replace (id =? 0) with false by lia. by apply add_file_agrees.
  - cbn [Z.eqb]. destruct (add_user_agrees r name size Hag (Hop Hhas) Hi) as (r' & -> & ? & ?). by exists r'.
Qed.

(** The fields of a unit behind [a]. *)
Lemma read_unit a id name size rest o : Z.of_nat (length a) = o ->
  0 <= id < 65536 -> strlen name < 65536 -> 0 <= size < 2 ^ 64 ->
  let frame := a ++ unit_bytes id name size ++ rest in
  be_at 2 (o + 10) frame = Some (strlen name) /\ be_at 2 o frame = Some id /\
  be_at 8 (o + 2) frame = Some size /\ bytes_at (o + 12) (strlen name) frame = Some name.
Proof.
  simpl Z.pow. intros Ha Hid Hn Hs frame. unfold frame. rewrite !(be_at_app _ _ a) by lia. unfold unit_bytes.
  rewrite <- !app_assoc. split; [by read_pack|]. split; [by read_pack|]. split; [by read_pack|].
  rewrite !(app_assoc _ _ (name ++ rest)), (app_assoc a). apply bytes_at_mid; [|done].
  rewrite !length_app, !length_be_bytes. lia.
Qed.

Lemma decode_units_spec ids a offset len fuel r :
  agrees stat s r -> files r <> None -> (has_user s -> opened r) -> Forall valid_id ids ->
  Z.of_nat (length a) = 10 + offset -> 0 <= offset ->
  len = offset + Z.of_nat (length (units_of stat s ids)) -> (length (units_of stat s ids) <= fuel)%nat ->
  exists r', decode_units true (header_flag s) (a ++ units_of stat s ids) len fuel offset r = Some (NSTACKX_EOK, r') /\
    advances r r' /\ Forall (received r') ids.
Proof.
  revert a offset len fuel r. induction ids as [|id ids IH]; intros a offset len fuel r Hag Hf Hop Hids Ha Ho Hlen Hfuel.
  { exists r. destruct fuel; cbn [decode_units]; replace (offset <? len) with false by (simpl in Hlen; lia);
      (split; [done|]; split; [by apply advances_refl|done]). }
  apply Forall_cons in Hids as [Hid Hids].
  destruct (unit_of_valid id Hid) as (name & size & Hi & Hu & Hidr & Hn & Hsz).
  pose proof (length_unit_bytes id name size) as Hul. unfold FILE_INFO_UNIT_LEN in Hul.
  assert (units_of stat s (id :: ids) = unit_bytes id name size ++ units_of stat s ids) as Hus
    by (unfold units_of; rewrite fmap_cons, <- Hu; done).
  rewrite Hus in *. rewrite length_app in *. destruct fuel as [|fuel]; [lia|].
  cbn [decode_units]. replace (offset <? len) with true by lia. cbn [negb].
  unfold DFILE_FRAME_HEADER_LEN, FILE_INFO_UNIT_LEN. replace (len - offset <=? 12) with false by lia.
  destruct (read_unit a id name size (units_of stat s ids) (8 + 2 + offset)) as (-> & -> & -> & Hb); try lia.
  cbn [mbind option_bind]. rewrite Hb. cbn [mbind option_bind]. clear Hb.
  replace ((id =? 0) && _ && _) with false.
  2: { unfold CheckDfileHeaderFrameUserDataFlag, CheckDfileHeaderFramePathTypeFlag.
       rewrite header_flag_user, header_flag_path. destruct Hid as [?|[-> [H|H]]]; [bool_lia| |].
       - by rewrite bool_decide_false.
       - replace (pathType s >? 0) with true by bool_lia. by rewrite andb_false_r. }
  replace (negb (id =? 0) && _ || _) with false
    by (symmetry; rewrite orb_false_iff, andb_false_iff, Z.gtb_ltb, Z.ltb_ge, Z.eqb_neq; lia).
  destruct (add_unit_agrees r id name size Hag Hf Hop Hid Hi) as (r1 & -> & Hadv & Hrec).
  cbn [mbind option_bind negb Z.eqb NSTACKX_EOK]. rewrite app_assoc.
  destruct (IH (a ++ unit_bytes id name size) (offset + (12 + strlen name)) len fuel r1) as (r2 & -> & Hadv2 & Hrec2).
  - apply Hadv.
  - by apply Hadv.
  - intros. by apply Hadv, Hop.
  - done.
  - rewrite length_app. lia.
  - lia.
  - lia.
  - lia.
  - exists r2. split; [done|]. split; [by eapply advances_trans|]. constructor; [by apply Hadv2|done].
Qed.

(** The list of the receiver is created by the first frame. *)
Lemma set_num_agrees r : agrees stat s r ->
  exists r', FileListSetNum true r (header_num s) = (NSTACKX_EOK, r') /\ advances r r' /\ files r' <> None.
Proof.
  intros Hag. pose proof (offer_num stat s Hoffer) as Hn. pose proof (wf_num _ (offer_wf stat s Hoffer)) as Hm.
  unfold NSTACKX_DFILE_MAX_FILE_NUM in Hm.
  destruct (FileListSetNum true r (header_num s)) as [ret r'] eqn:E. exists r'.
  assert (wf r') as Hwf' by (apply wf_SetNum in E as [? _]; [done|lia|apply Hag]).
  revert E. unfold FileListSetNum, NSTACKX_DFILE_MAX_FILE_NUM. replace (_ || _) with false by bool_lia.
  destruct (files r) as [l|] eqn:Ef; intros [= <- <-].
  { split; [done|]. split; [by apply advances_refl|]. by rewrite Ef. }
  split; [done|]. destruct Hag as [Hwf Hnum Hent Huser Hflag Hopen Htar]. split; [|done]. split; [|split; [|done]].
  - constructor; [done|done| |done|done|done|done]. intros id e Hid. unfold entry. cbn [files mbind option_bind].
    replace (id - 1 <? 0) with false by lia. intros [-> _]%lookup_replicate.
    unfold entry_agrees. by rewrite decide_True.
  - intros id. unfold received. destruct (decide (id = 0)); [done|]. intros (e & He & _).
    unfold entry in He. by rewrite Ef in He.
Qed.

(** The flags of a header frame only say that user data will come. *)
Lemma set_flags_agrees r : agrees stat s r -> files r <> None ->
  let r1 := if negb (CheckDfileHeaderFrameUserDataFlag (header_flag s) =? 0) ||
               negb (CheckDfileHeaderFramePathTypeFlag (header_flag s) =? 0)
            then SetDfileHeaderFrameUserDataFlag r else r in
  let r2 := if negb (CheckDfileHeaderFrameNoSyncFlag (header_flag s) =? 0)
            then r1 <| noSyncFlag := NSTACKX_TRUE |> else r1 in
  advances r r2 /\ files r2 <> None /\ (has_user s -> opened r2).
Proof.
  intros Hag Hf r1 r2.
  assert (advances r r1 /\ files r1 <> None /\ (has_user s -> opened r1)) as ((Hag1 & Hr1 & Hf1) & Hf1' & Hop1).
  { unfold r1. unfold CheckDfileHeaderFrameUserDataFlag, CheckDfileHeaderFramePathTypeFlag.
    rewrite header_flag_user, header_flag_path, negb_involutive.
    case_if.
    2: { split; [by apply advances_refl|]. split; [done|]. intros [Hu|Hp].
         - by rewrite bool_decide_false in Hif.
         - replace (pathType s >? 0) with true in Hif by bool_lia. by rewrite orb_true_r in Hif. }
    assert (opened (SetDfileHeaderFrameUserDataFlag r)) as Hop
      by (unfold opened; cbn [userDataFlag SetDfileHeaderFrameUserDataFlag]; rewrite Z.lor_comm; by apply land_lor_keep).
    split; [|done]. destruct Hag as [Hwf Hnum Hent Huser Hflag Hopen Htar].
    assert (Z.land (Z.lor (userDataFlag r) NSTACKX_DFILE_HEADER_FRAME_USER_DATA_FLAG) NSTACKX_FLAGS_FILE_NAME_RECEIVED
            = Z.land (userDataFlag r) NSTACKX_FLAGS_FILE_NAME_RECEIVED) as Hland
      by (rewrite Z.land_lor_distr_l; apply Z.lor_0_r).
    split; [|split; [|done]].
    - constructor; [done|done|done| | |done|done].
      + assert (received (SetDfileHeaderFrameUserDataFlag r) 0 <-> received r 0)
          by (unfold received; rewrite !decide_True by done; cbn; by rewrite Hland).
        revert Huser. destruct (decide (received r 0)), (decide (received _ 0)); tauto.
      + intros _. unfold has_user. destruct (userData s); [by left|]. right.
        rewrite bool_decide_true in Hif by done. simpl in Hif. lia.
    - intros id. unfold received. destruct (decide (id = 0)); [|done].
      cbn [userDataFlag SetDfileHeaderFrameUserDataFlag]. by rewrite Hland. }
  unfold r2. case_if; [|done]. split; [|done]. split; [|split; [|done]].
  - destruct Hag1 as [Hwf Hnum Hent Huser Hflag Hopen Htar]. by constructor.
  - done.
Qed.

(** A header frame of the sender is accepted, and its units have arrived. *)
Lemma header_frame_decode r trans ids : agrees stat s r -> ids <> [] -> Forall valid_id ids ->
  Z.of_nat (length (units_of stat s ids)) < 65534 ->
  DecodeDFileFrame (header_frame stat s trans ids) = Some NSTACKX_EOK /\
  exists r', DecodeFileHeaderFrame true true r (header_frame stat s trans ids) = Some (NSTACKX_EOK, r') /\
    advances r r' /\ Forall (received r') ids.
Proof.
  intros Hag Hne Hids Hl. pose proof (offer_num stat s Hoffer) as Hn.
  pose proof (wf_num _ (offer_wf stat s Hoffer)) as Hm. unfold NSTACKX_DFILE_MAX_FILE_NUM in Hm.
  pose proof header_flag_range as Hfr. unfold header_frame. split.
  { apply head_accepted; [|lia]. rewrite length_app, length_be_bytes. lia. }
  assert (0 < Z.of_nat (length (units_of stat s ids))) as Hpos.
  { destruct ids as [|id ids]; [done|]. apply Forall_cons in Hids as [Hid _].
    destruct (unit_of_valid id Hid) as (name & size & _ & Hu & _). unfold units_of. rewrite fmap_cons. cbn [concat].
    rewrite length_app, Hu. pose proof (length_unit_bytes id name size). unfold FILE_INFO_UNIT_LEN in *. lia. }
  unfold DecodeFileHeaderFrame, DecodeFileHeaderFrameSp. rewrite head_length_at by lia.
  cbn [mbind option_bind]. replace (_ <=? 2) with false by bool_lia. unfold DFILE_FRAME_HEADER_LEN.
  rewrite (be_at_app _ 8 (frame_head _ _ _ _ _)) by by rewrite length_frame_head.
  rewrite length_frame_head. read_pack.
  destruct (set_num_agrees r Hag) as (r1 & -> & Hadv1 & Hf1). cbn [negb Z.eqb NSTACKX_EOK].
  assert (forall rest l, be_at 1 OFF_FLAG (frame_head NSTACKX_DFILE_FILE_HEADER_FRAME (header_flag s) 0 trans l ++ rest)
            = Some (header_flag s)) as ->.
  { intros. unfold frame_head, OFF_FLAG. rewrite <- !app_assoc. read_pack. done. }
  cbn [mbind option_bind]. destruct (set_flags_agrees r1 (proj1 Hadv1) Hf1) as (Hadv2 & Hf2 & Hop2).
  match goal with |- context [decode_units _ _ _ _ _ 0 ?r2] => set (r3 := r2) in * end.
  rewrite app_assoc.
  destruct (decode_units_spec ids (frame_head NSTACKX_DFILE_FILE_HEADER_FRAME (header_flag s) 0 trans
     (2 + Z.of_nat (length (units_of stat s ids))) ++ be_bytes 2 (header_num s)) 0
     (2 + Z.of_nat (length (units_of stat s ids)) - 2)
     (Z.to_nat (2 + Z.of_nat (length (units_of stat s ids)) - 2)) r3) as (r4 & -> & Hadv4 & Hrec).
  - apply Hadv2.
  - done.
  - done.
  - done.
  - rewrite length_app, length_frame_head, length_be_bytes. lia.
  - lia.
  - lia.
  - lia.
  - exists r4. split; [done|]. split; [|done]. eauto using advances_trans.
Qed.
End exchange.
End DFileHandshake.
