(* ===== verification/DFileTransfer.v ===== *)
(** * DFile: the state machines of a transfer

    components/nstackx/nstackx_core/dfile/core/nstackx_dfile_transfer.c with
    nstackx_dfile_retransmission.c and the clock arithmetic of
    components/nstackx/nstackx_util/core/nstackx_timer.c: the sender sends its
    file list, then blocks, then waits to be told that everything was written;
    the receiver confirms the list, collects blocks and reports the end.

    The operations are written in a state monad over [St].  The file manager
    (queues of blocks and file I/O), the socket and the application's rename
    callback are arguments [Env]: their answers may differ at every call, so each is a
    function of the number of calls made so far.  A message that ends the
    transfer makes the session free it ([CheckTransDone] of
    nstackx_dfile_session.c): [alive] becomes false, and any access after that is
    a [Fault], like an access outside an object.  [OutOfFuel] is a loop that has
    not ended.

    Left out: fields that only serve log output, and [sendBuffer], which is
    cleared before every use (a local buffer here). *)

From S2P Require Import Prelude DFileList DFileFrame.

Module DFileTransfer.
Import DFileList DFileFrame.

(** ** Clock *)

Record timespec := mkTime { tv_sec : Z; tv_nsec : Z }.

Definition NSTACKX_MILLI_TICKS : Z := 1000.
Definition NSTACKX_MICRO_TICKS : Z := 1000000.
Definition NSTACKX_NANO_TICKS : Z := 1000000000.
Definition NSTACKX_NANO_SEC_PER_MICRO_SEC : Z := 1000.

Definition time_lt (e s : timespec) : bool :=
  (tv_sec e <? tv_sec s) || ((tv_sec e =? tv_sec s) && (tv_nsec e <? tv_nsec s)).

Definition GetTimeDiffMs (e s : timespec) : Z :=
  if time_lt e s then 0
  else
    let ms :=
      if tv_nsec e <? tv_nsec s then
        u64 (u64 ((tv_sec e - tv_sec s - 1) * NSTACKX_MILLI_TICKS)
             + (NSTACKX_NANO_TICKS + tv_nsec e - tv_nsec s) / NSTACKX_MICRO_TICKS)
      else
        u64 (u64 ((tv_sec e - tv_sec s) * NSTACKX_MILLI_TICKS)
             + (tv_nsec e - tv_nsec s) / NSTACKX_MICRO_TICKS) in
    if ms >? UINT32_MAX then UINT32_MAX else ms.

Definition GetTimeDiffUs (e s : timespec) : Z :=
  if time_lt e s then 0
  else
    let us :=
      if tv_nsec e <? tv_nsec s then
        u64 (u64 ((tv_sec e - tv_sec s - 1) * NSTACKX_MICRO_TICKS)
             + (NSTACKX_NANO_TICKS + tv_nsec e - tv_nsec s) / NSTACKX_NANO_SEC_PER_MICRO_SEC)
      else
        u64 (u64 ((tv_sec e - tv_sec s) * NSTACKX_MILLI_TICKS)
             + (tv_nsec e - tv_nsec s) / NSTACKX_NANO_SEC_PER_MICRO_SEC) in
    if us >? UINT32_MAX then UINT32_MAX else us.

(** ** Data *)

Inductive DFileTransMsgType :=
  | DFILE_TRANS_MSG_FILE_SEND_DATA
  | DFILE_TRANS_MSG_FILE_LIST_RECEIVED
  | DFILE_TRANS_MSG_FILE_RECEIVED
  | DFILE_TRANS_MSG_FILE_RECEIVE_FAIL
  | DFILE_TRANS_MSG_FILE_RECEIVED_TO_FAIL
  | DFILE_TRANS_MSG_FILE_SENT
  | DFILE_TRANS_MSG_FILE_SEND_FAIL
  | DFILE_TRANS_MSG_IN_PROGRESS
  | DFILE_TRANS_MSG_FILE_SEND_ACK
  | DFILE_TRANS_MSG_END.
#[export] Instance DFileTransMsgType_eq_dec : EqDecision DFileTransMsgType.
Proof. solve_decision. Defined.

Inductive DFileTransErrorCode :=
  | DFILE_TRANS_NO_ERROR
  | DFILE_TRANS_SOCKET_ERROR
  | DFILE_TRANS_INTERNAL_ERROR
  | DFILE_TRANS_FILE_HEADER_CONFIRM_TIMEOUT
  | DFILE_TRANS_FILE_DATA_ACK_TIMEOUT
  | DFILE_TRANS_TRANSFER_DONE_TIMEOUT
  | DFILE_TRANS_FILE_HEADER_TIMEOUT
  | DFILE_TRANS_FILE_DATA_TIMEOUT
  | DFILE_TRANS_TRANSFER_DONE_ACK_TIMEOUT
  | DFILE_TRANS_FILE_SEND_TASK_ERROR
  | DFILE_TRANS_FILE_RECEIVE_TASK_ERROR
  | DFILE_TRANS_FILE_WRITE_FAIL
  | DFILE_TRANS_FILE_RENAME_FAIL.

Inductive DFileSendState :=
  | STATE_SEND_FILE_INIT
  | STATE_SEND_FILE_HEADER_ONGOING
  | STATE_WAIT_FOR_FILE_HEADER_CONFIRM
  | STATE_SEND_FILE_DATA_ONGOING
  | STATE_WAIT_FOR_FILE_TRANSFER_DONE_FRAME
  | STATE_SEND_FILE_TRANSFER_DONE_ACK
  | STATE_SEND_FILE_DONE
  | STATE_SEND_FILE_FAIL.
#[export] Instance DFileSendState_eq_dec : EqDecision DFileSendState.
Proof. solve_decision. Defined.

Inductive DFileReceiveState :=
  | STATE_RECEIVE_FILE_INIT
  | STATE_RECEIVE_FILE_HEADER_ONGOING
  | STATE_SEND_FILE_HEADER_CONFIRM
  | STATE_RECEIVE_FILE_DATA_ONGOING
  | STATE_SEND_FILE_DATA_ACK
  | STATE_SEND_FILE_TRANSFER_DONE
  | STATE_WAIT_FOR_FILE_TRANSFER_DONE_ACK
  | STATE_RECEIVE_FILE_DONE
  | STATE_RECEIVE_FILE_FAIL.
#[export] Instance DFileReceiveState_eq_dec : EqDecision DFileReceiveState.
Proof. solve_decision. Defined.

(** The values of the enumerations, which the code compares. *)
Definition send_rank (s : DFileSendState) : Z :=
  match s with
  | STATE_SEND_FILE_INIT => 0
  | STATE_SEND_FILE_HEADER_ONGOING => 1
  | STATE_WAIT_FOR_FILE_HEADER_CONFIRM => 2
  | STATE_SEND_FILE_DATA_ONGOING => 3
  | STATE_WAIT_FOR_FILE_TRANSFER_DONE_FRAME => 4
  | STATE_SEND_FILE_TRANSFER_DONE_ACK => 5
  | STATE_SEND_FILE_DONE => 6
  | STATE_SEND_FILE_FAIL => 7
  end.
Definition recv_rank (s : DFileReceiveState) : Z :=
  match s with
  | STATE_RECEIVE_FILE_INIT => 0
  | STATE_RECEIVE_FILE_HEADER_ONGOING => 1
  | STATE_SEND_FILE_HEADER_CONFIRM => 2
  | STATE_RECEIVE_FILE_DATA_ONGOING => 3
  | STATE_SEND_FILE_DATA_ACK => 4
  | STATE_SEND_FILE_TRANSFER_DONE => 5
  | STATE_WAIT_FOR_FILE_TRANSFER_DONE_ACK => 6
  | STATE_RECEIVE_FILE_DONE => 7
  | STATE_RECEIVE_FILE_FAIL => 8
  end.

Record DFileTransConfig := mkConfig {
  maxRtt : Z;
  maxAckCnt : Z;
  maxCtrlFrameRetryCnt : Z;
  maxCtrlFrameTimeout : Z;
  maxFileHeaderConfirmFrameTimeout : Z;
  maxFileWriteTimeout : Z;
  initialRecvIdleTimeout : Z;
  maxRecvIdleCnt : Z;
  initialAckInterval : Z;
  recvLimitAckInterval : Z;
  lastFrameAckInterval : Z;
  maxRetryPageCnt : Z;
  maxRetryListNodeCnt : Z
}.

Record DFileTrans := mkTrans {
  transId : Z;
  isSender : bool;
  sendState : DFileSendState;
  recvState : DFileReceiveState;
  lastSentHeaderFileId : Z;
  headerRetryCnt : Z;
  lostAckCnt : Z;
  fileTransferDoneReceived : bool;
  lastAckedHeaderFileId : Z;
  heartBeatTs : timespec;
  headerAckRetryCnt : Z;
  idleTimeoutCnt : Z;
  allFileNameReceived : bool;
  dupFileName : bool;
  allFileDataReceived : bool;
  fileTransferDoneAcked : bool;
  transferDoneRetryCnt : Z;
  shouldSendAckDividor : Z;
  totalDataFrameCnt : Z;
  receivedDataFrameCnt : Z;
  adjustAckIntervalLimit : Z;
  ackInterval : Z;
  transRetryCount : Z;
  config : DFileTransConfig;
  errorCode : DFileTransErrorCode;
  ts : timespec;
  timeout : Z;
  fileManagerTaskStarted : bool;
  mtu : Z;
  fileList : FileList;
  isRecvSucMsgNotified : bool;
  bytesTransferredLastRecord : Z;
  bytesTransferred : Z;
  totalBytes : Z;
  isAckSend : bool;
  recvBlockListFullTimes : Z;
  adjustToLastFrameAckInterval : bool;
  recvCount : Z;
  ioWriteFinishFlag : bool
}.
#[export] Instance DFileTrans_fields : Fields DFileTrans :=
  {| ctor := mkTrans;
     projs := (transId, isSender, sendState, recvState, lastSentHeaderFileId, headerRetryCnt, lostAckCnt,
               fileTransferDoneReceived, lastAckedHeaderFileId, heartBeatTs, headerAckRetryCnt, idleTimeoutCnt,
               allFileNameReceived, dupFileName, allFileDataReceived, fileTransferDoneAcked, transferDoneRetryCnt,
               shouldSendAckDividor, totalDataFrameCnt, receivedDataFrameCnt, adjustAckIntervalLimit, ackInterval,
               transRetryCount, config, errorCode, ts, timeout, fileManagerTaskStarted, mtu, fileList,
               isRecvSucMsgNotified, bytesTransferredLastRecord, bytesTransferred, totalBytes, isAckSend,
               recvBlockListFullTimes, adjustToLastFrameAckInterval, recvCount, ioWriteFinishFlag) |}.

(** ** Configuration (nstackx_dfile_config.c) *)

Definition CONNECT_TYPE_P2P : Z := 1.
Definition CONNECT_TYPE_WLAN : Z := 2.

Definition ConfigDFileTransP2p : DFileTransConfig :=
  mkConfig 200 50 75 10000 5000 10000 10000 1 200 500 100 16 100000.
Definition ConfigDFileTransWlan : DFileTransConfig :=
  mkConfig 200 50 75 5000 5000 1000 10000 1 200 500 100 16 50000.

Definition CheckConnType (connType : Z) : Z :=
  if negb (connType =? CONNECT_TYPE_P2P) && negb (connType =? CONNECT_TYPE_WLAN)
  then NSTACKX_EINVAL else NSTACKX_EOK.

Definition ConfigDFileTrans (connType : Z) : option DFileTransConfig :=
  if negb (CheckConnType connType =? NSTACKX_EOK) then None
  else if connType =? CONNECT_TYPE_P2P then Some ConfigDFileTransP2p else Some ConfigDFileTransWlan.

Definition NSTACKX_SEND_ACK_PER_THREE_RECYCLE : Z := 5.
Definition NSTACKX_SEND_ACK_PER_TWO_RECYCLE : Z := 2.
Definition NSTACKX_SEND_ACK_PER_ONE_RECYCLE : Z := 1.

Definition DFileTransCreate (allocTrans allocList : bool) (sender : bool) (id connType : Z) : option DFileTrans :=
  if negb allocTrans then None
  else
    fl ← FileListCreate allocList;
    config ← ConfigDFileTrans connType;
    Some (mkTrans id sender STATE_SEND_FILE_INIT STATE_RECEIVE_FILE_INIT (-1) 0 0 false 0 (mkTime 0 0) 0 0
            false false false false 0 NSTACKX_SEND_ACK_PER_THREE_RECYCLE 0 0 0 0 0 config DFILE_TRANS_NO_ERROR
            (mkTime 0 0) 0 false 0 fl false 0 0 0 false 0 false 0 false).

Definition DFileTransSetMtu (t : DFileTrans) (m : Z) : Z * DFileTrans :=
  if (m <=? 14) || (m >? NSTACKX_MAX_FRAME_SIZE) then (NSTACKX_EINVAL, t)
  else if mtu t =? m then (NSTACKX_EOK, t)
  else (NSTACKX_EOK, t <| mtu := m |>).

(** ** Environment and monad *)

(** What a transfer does to the outside. *)
Inductive Event :=
  | Sent (frame : list byte)
  | Notified (m : DFileTransMsgType) (names : list (option (list byte))) (err : Z)
  | TaskStarted
  | TaskStopped
  | DoneAckQueued (id sendNum : Z).

(** Answers to the [k]-th call. *)
Record Env := mkEnv {
  clock : nat -> timespec;
  writeHandle : nat -> list byte -> Z;
  FileManagerSendFileTask : nat -> Z;
  FileManagerRecvFileTask : nat -> Z;
  FileManagerIsLastBlockRead : nat -> bool;
  FileManagerGetLastSequence : nat -> Z -> option Z;
  FileManagerGetReceivedFiles : nat -> option (list (Z * bool));
  FileManagerSetAllDataReceived : nat -> Z;
  FileManagerIsRecvBlockWritable : nat -> bool;
  FileManagerFileWrite : nat -> list byte -> Z;
  calloc : nat -> bool;
  MutexListAddNode : nat -> bool;
  onRenameFile : option (Z -> list byte -> list byte);
  e_stat : list byte -> option Z;
  CapsTcp : bool;
  CapsRecvFeedback : bool;
  peerAckInterval : Z
}.

Record St := mkSt {
  tr : DFileTrans;
  alive : bool;
  transFlag : bool; (* of the session and of the file manager *)
  recvListOverIo_ : Z; (* of the file manager *)
  tick : nat;
  out : list Event
}.
#[export] Instance St_fields : Fields St :=
  {| ctor := mkSt; projs := (tr, alive, transFlag, recvListOverIo_, tick, out) |}.

Inductive outcome (A : Type) :=
  | Ok (a : A) (s : St)
  | Fault
  | OutOfFuel.
#[global] Arguments Ok {A}.
#[global] Arguments Fault {A}.
#[global] Arguments OutOfFuel {A}.

Definition M (A : Type) : Type := St -> outcome A.
Definition ret {A} (a : A) : M A := fun s => Ok a s.
Definition bind {A B} (m : M A) (k : A -> M B) : M B :=
  fun s => match m s with Ok a s => k a s | Fault => Fault | OutOfFuel => OutOfFuel end.
Definition out_of_fuel {A} : M A := fun _ => OutOfFuel.
Definition lift {A} (o : option A) : M A := fun s => match o with Some a => Ok a s | None => Fault end.
Definition emit (e : Event) : M unit := fun s => Ok tt (s <| out := out s ++ [e] |>).
(** Read and change the transfer, which must not have been freed. *)
Definition get : M DFileTrans := fun s => if alive s then Ok (tr s) s else Fault.
Definition modify (f : DFileTrans -> DFileTrans) : M unit :=
  fun s => if alive s then Ok tt (s <| tr := f (tr s) |>) else Fault.
Definition modify_list (f : FileList -> option FileList) : M unit :=
  fun s => if alive s then
             match f (fileList (tr s)) with
             | Some fl => let t := tr s in Ok tt (s <| tr := t <| fileList := fl |> |>)
             | None => Fault
             end
           else Fault.
Definition free_trans : M unit := fun s => Ok tt (s <| alive := false |>).
(** Ask the environment. *)
Definition ask {A} (f : nat -> A) : M A := fun s => Ok (f (tick s)) (s <| tick := S (tick s) |>).

Declare Scope dfile_scope.
Delimit Scope dfile_scope with dfile.
Notation "'let*' x := m 'in' k" := (bind m (fun x => k))
  (at level 10, x name, m at level 99, k at level 200) : dfile_scope.
Notation "'let!' p := m 'in' k" := (bind m (fun x => match x with p => k end))
  (at level 10, p strict pattern, m at level 99, k at level 200) : dfile_scope.
Notation "m ;; k" := (bind m (fun _ => k)) (at level 100, k at level 200, right associativity) : dfile_scope.
#[local] Open Scope dfile_scope.

Definition ClockGetTime (e : Env) : M timespec := ask (clock e).
Definition GetElapseTime (e : Env) (since : timespec) : M Z :=
  let* now := ClockGetTime e in ret (GetTimeDiffMs now since).

(** ** Messages to the session *)

Definition ConvertTransError (c : DFileTransErrorCode) : Z :=
  match c with
  | DFILE_TRANS_NO_ERROR => NSTACKX_EOK
  | DFILE_TRANS_SOCKET_ERROR | DFILE_TRANS_INTERNAL_ERROR | DFILE_TRANS_FILE_SEND_TASK_ERROR
  | DFILE_TRANS_FILE_RECEIVE_TASK_ERROR | DFILE_TRANS_FILE_WRITE_FAIL | DFILE_TRANS_FILE_RENAME_FAIL => NSTACKX_EFAILED
  | DFILE_TRANS_FILE_HEADER_CONFIRM_TIMEOUT | DFILE_TRANS_FILE_DATA_ACK_TIMEOUT | DFILE_TRANS_TRANSFER_DONE_TIMEOUT
  | DFILE_TRANS_FILE_HEADER_TIMEOUT | DFILE_TRANS_FILE_DATA_TIMEOUT | DFILE_TRANS_TRANSFER_DONE_ACK_TIMEOUT =>
      NSTACKX_ETIMEOUT
  end.

(** The messages after which the session destroys the transfer. *)
Definition is_end (m : DFileTransMsgType) : bool :=
  match m with
  | DFILE_TRANS_MSG_FILE_RECEIVE_FAIL | DFILE_TRANS_MSG_FILE_SENT | DFILE_TRANS_MSG_FILE_SEND_FAIL
  | DFILE_TRANS_MSG_END => true
  | _ => false
  end.

(** [msgReceiver] ([DTransMsgReceiver] with [CheckTransDone]). *)
Definition msgReceiver (m : DFileTransMsgType) (names : list (option (list byte))) (err : Z) : M unit :=
  get ;; emit (Notified m names err) ;; (if is_end m then free_trans else ret tt).

Definition NotifyTransProgress : M unit :=
  let* t := get in
  let* names := lift (FileListGetNames (fileList t) NSTACKX_DFILE_MAX_FILE_NUM NOTICE_FILE_NAME_TYPE) in
  msgReceiver DFILE_TRANS_MSG_IN_PROGRESS names 0.

(** A success message without any file becomes a failure. *)
Definition ReviewSuccessMsg (fl : FileList) (m : DFileTransMsgType) (names : list (option (list byte))) (err : Z)
    : option (DFileTransMsgType * list (option (list byte)) * Z) :=
  match m, names with
  | DFILE_TRANS_MSG_FILE_SENT, [] =>
      names ← FileListGetNames fl NSTACKX_DFILE_MAX_FILE_NUM (noticeFileNameType fl);
      Some (DFILE_TRANS_MSG_FILE_SEND_FAIL, names, NSTACKX_EFAILED)
  | DFILE_TRANS_MSG_FILE_RECEIVED, [] =>
      names ← FileListGetNames fl NSTACKX_DFILE_MAX_FILE_NUM NOTICE_FILE_NAME_TYPE;
      Some (DFILE_TRANS_MSG_FILE_RECEIVED_TO_FAIL, names, NSTACKX_EFAILED)
  | _, _ => Some (m, names, err)
  end.

Definition NotifyTransMsg (m : DFileTransMsgType) : M unit :=
  let* t := get in
  let fl := fileList t in
  let max := NSTACKX_DFILE_MAX_FILE_NUM in
  let! (names, err) :=
    match m with
    | DFILE_TRANS_MSG_FILE_LIST_RECEIVED =>
        let* names := lift (FileListGetNames fl max NOTICE_FILE_NAME_TYPE) in ret (names, 0)
    | DFILE_TRANS_MSG_FILE_RECEIVED =>
        let* names := lift (FileListGetReceivedFiles fl max) in
        (if Z.of_nat (length names) =? num fl then NotifyTransProgress else ret tt) ;; ret (names, 0)
    | DFILE_TRANS_MSG_FILE_SENT =>
        let* names := lift (FileListGetSentFiles fl max) in ret (names, 0)
    | DFILE_TRANS_MSG_FILE_RECEIVE_FAIL =>
        let* all := lift (FileListAllFileNameReceived fl) in
        let* names := (if all : bool then lift (FileListGetNames fl max NOTICE_FILE_NAME_TYPE) else ret []) in
        ret (names, ConvertTransError (errorCode t))
    | DFILE_TRANS_MSG_FILE_SEND_FAIL =>
        let* names := lift (FileListGetNames fl max (noticeFileNameType fl)) in
        ret (names, ConvertTransError (errorCode t))
    | _ => ret ([], 0)
    end in
  let! (m, names, err) := lift (ReviewSuccessMsg fl m names err) in
  msgReceiver m names err.

Definition DFileTransNotifyEndMsg : M unit :=
  let* t := get in
  if isSender t then
    if decide (sendState t = STATE_SEND_FILE_FAIL) then NotifyTransMsg DFILE_TRANS_MSG_FILE_SEND_FAIL
    else if decide (sendState t = STATE_SEND_FILE_DONE) then NotifyTransMsg DFILE_TRANS_MSG_FILE_SENT
    else ret tt
  else
    if decide (recvState t = STATE_RECEIVE_FILE_FAIL) then NotifyTransMsg DFILE_TRANS_MSG_FILE_RECEIVE_FAIL
    else if decide (recvState t = STATE_RECEIVE_FILE_DONE) then NotifyTransMsg DFILE_TRANS_MSG_END
    else ret tt.

Definition send_finished (s : DFileSendState) : bool :=
  bool_decide (s = STATE_SEND_FILE_FAIL) || bool_decide (s = STATE_SEND_FILE_DONE).
Definition recv_finished (s : DFileReceiveState) : bool :=
  bool_decide (s = STATE_RECEIVE_FILE_FAIL) || bool_decide (s = STATE_RECEIVE_FILE_DONE).

Definition DFileTransStateFinished (t : DFileTrans) : bool :=
  if isSender t then send_finished (sendState t) else recv_finished (recvState t).

(** ** Sending frames *)

(** Sends [len] bytes of [frame]; the result is the code and the new values of
    [*nextSend] and [*nextRecv] ([None] is a null pointer). *)
Definition SendFrame (e : Env) (frame : list byte) (len : Z)
    (nextSend : option DFileSendState) (nextRecv : option DFileReceiveState)
    : M (Z * option DFileSendState * option DFileReceiveState) :=
  let* t := get in
  let* frame := lift (SetDfileFrameTransID frame (transId t)) in
  let* r := ask (fun k => writeHandle e k (take (Z.to_nat len) frame)) in
  if negb (r =? i32 len) then
    if negb (r =? NSTACKX_EAGAIN) then
      modify (fun t => t <| errorCode := DFILE_TRANS_SOCKET_ERROR |>) ;;
      ret (NSTACKX_EFAILED,
           (if isSender t then (fun _ => STATE_SEND_FILE_FAIL) <$> nextSend else nextSend),
           (if isSender t then nextRecv else (fun _ => STATE_RECEIVE_FILE_FAIL) <$> nextRecv))
    else ret (r, nextSend, nextRecv)
  else
    emit (Sent (take (Z.to_nat len) frame)) ;; ret (NSTACKX_EOK, nextSend, nextRecv).

Definition SendFrame_s (e : Env) (frame : list byte) (len : Z) (next : DFileSendState) : M (Z * DFileSendState) :=
  let! (r, ns, _) := SendFrame e frame len (Some next) None in ret (r, default next ns).
Definition SendFrame_r (e : Env) (frame : list byte) (len : Z) (next : DFileReceiveState) : M (Z * DFileReceiveState) :=
  let! (r, _, nr) := SendFrame e frame len None (Some next) in ret (r, default next nr).

(** [sendBuffer] after [memset_s] *)
Definition sendBuffer : list byte := zeros (Z.to_nat NSTACKX_MAX_FRAME_SIZE).

Definition NSTACKX_DFILE_BACKOFF_FACTOR : Z := 2.

Definition ExtendTimeout (timeout maxTimeout : Z) : Z :=
  if timeout <? maxTimeout then
    let timeout := u32 (timeout * NSTACKX_DFILE_BACKOFF_FACTOR) in
    if timeout >? maxTimeout then maxTimeout else timeout
  else timeout.

(** ** The sender *)

Fixpoint SendFileHeader (e : Env) (fuel : nat) (nextState : DFileSendState) : M DFileSendState :=
  match fuel with
  | O => out_of_fuel
  | S fuel =>
      let* t := get in
      let fileNum := header_num (fileList t) in
      let! (lastEncodeHeaderFileId, len, buf) :=
        lift (EncodeFileHeaderFrame (e_stat e) (fileList t) (lastSentHeaderFileId t) sendBuffer (mtu t)) in
      let! (r, nextState) := SendFrame_s e buf len nextState in
      if negb (r =? NSTACKX_EOK) then ret nextState
      else
        modify (fun t => t <| lastSentHeaderFileId := lastEncodeHeaderFileId |>) ;;
        if lastEncodeHeaderFileId =? fileNum then ret STATE_WAIT_FOR_FILE_HEADER_CONFIRM
        else SendFileHeader e fuel nextState
  end.

(** The loop of [GetTotalFrameCount] from [id], [n] files left. *)
Fixpoint frame_count (e : Env) (fl : FileList) (id : Z) (n : nat) (total : Z) : M Z :=
  match n with
  | O => ret total
  | S n =>
      let* size := lift (FileListGetFileSize fl id) in
      if size =? 0 then frame_count e fl (id + 1) n total
      else
        let* seq := ask (fun k => FileManagerGetLastSequence e k id) in
        match seq with
        | None => frame_count e fl (id + 1) n total
        | Some lastSequence => frame_count e fl (id + 1) n (u64 (total + u32 (lastSequence + 1)))
        end
  end.

Definition GetTotalFrameCount (e : Env) : M Z :=
  let* t := get in frame_count e (fileList t) 1 (Z.to_nat (FileListGetNum (fileList t))) 0.

(** The first [n] entries, which are handed to the file manager. *)
Fixpoint entries (fl : FileList) (i : Z) (n : nat) : option (list FileListEntry) :=
  match n with
  | O => Some []
  | S n => e ← entry fl i; es ← entries fl (i + 1) n; Some (e :: es)
  end.

Definition StartFileManagerSenderTask (e : Env) : M Z :=
  let* t := get in
  let fileNum := FileListGetNum (fileList t) in
  if fileManagerTaskStarted t then ret NSTACKX_EOK
  else if fileNum >? NSTACKX_DFILE_MAX_FILE_NUM then ret NSTACKX_ENOMEM
  else
    lift (entries (fileList t) 0 (Z.to_nat fileNum)) ;;
    let* r := ask (FileManagerSendFileTask e) in
    if negb (r =? NSTACKX_EOK) then ret r
    else
      emit TaskStarted ;;
      modify (fun t => t <| fileManagerTaskStarted := true |>) ;;
      let* count := GetTotalFrameCount e in
      modify (fun t => t <| totalDataFrameCnt := count |>) ;;
      ret NSTACKX_EOK.

Definition WaitForFileHeaderConfirmPrepare (e : Env) : M unit :=
  modify (fun t =>
    t <| lastSentHeaderFileId := -1 |>
      <| timeout := if headerRetryCnt t =? 0 then maxRtt (config t)
                    else ExtendTimeout (timeout t) (maxFileHeaderConfirmFrameTimeout (config t)) |>) ;;
  let* now := ClockGetTime e in
  modify (fun t => t <| ts := now |>).

Definition WaitForFileHeaderConfirm (e : Env) (nextState : DFileSendState) : M DFileSendState :=
  let* t := get in
  let* acked := lift (FileListAllFileNameAcked (fileList t)) in
  if acked : bool then
    let* r := StartFileManagerSenderTask e in
    if r =? NSTACKX_EOK then ret STATE_SEND_FILE_DATA_ONGOING
    else modify (fun t => t <| errorCode := DFILE_TRANS_INTERNAL_ERROR |>) ;; ret STATE_SEND_FILE_FAIL
  else
    let* elapsed := GetElapseTime e (ts t) in
    if elapsed >=? timeout t then
      if headerRetryCnt t >? maxCtrlFrameRetryCnt (config t) then
        modify (fun t => t <| errorCode := DFILE_TRANS_FILE_HEADER_CONFIRM_TIMEOUT |>) ;; ret STATE_SEND_FILE_FAIL
      else
        modify (fun t => t <| headerRetryCnt := u8 (headerRetryCnt t + 1) |>) ;; ret STATE_SEND_FILE_HEADER_ONGOING
    else ret nextState.

Definition SendFileBlockPrepare (e : Env) : M unit :=
  let* now := ClockGetTime e in
  modify (fun t => t <| ts := now |> <| timeout := initialAckInterval (config t) |>) ;;
  NotifyTransMsg DFILE_TRANS_MSG_FILE_SEND_DATA.

Definition SendFileDataOngoing (e : Env) (nextState : DFileSendState) : M DFileSendState :=
  let* t := get in
  if fileTransferDoneReceived t then ret STATE_SEND_FILE_TRANSFER_DONE_ACK
  else
    let* elapsed := GetElapseTime e (ts t) in
    if elapsed >=? timeout t then
      let refresh : M DFileSendState :=
        let* now := ClockGetTime e in modify (fun t => t <| ts := now |>) ;; ret nextState in
      if negb (CapsTcp e) then
        let cnt := u8 (lostAckCnt t + 1) in
        modify (fun t => t <| lostAckCnt := cnt |>) ;;
        if cnt >=? maxAckCnt (config t) then
          modify (fun t => t <| errorCode := DFILE_TRANS_FILE_DATA_ACK_TIMEOUT |>) ;; ret STATE_SEND_FILE_FAIL
        else refresh
      else refresh
    else
      let* last := ask (FileManagerIsLastBlockRead e) in
      ret (if last : bool then STATE_WAIT_FOR_FILE_TRANSFER_DONE_FRAME else nextState).

Definition WaitForFileTransferDonePrepare (e : Env) : M unit :=
  let* now := ClockGetTime e in
  modify (fun t => t <| ts := now |> <| timeout := maxCtrlFrameTimeout (config t) |>).

Definition WaitForFileTransferDoneFrame (e : Env) (nextState : DFileSendState) : M DFileSendState :=
  let* t := get in
  let nextState := if fileTransferDoneReceived t then STATE_SEND_FILE_TRANSFER_DONE_ACK else nextState in
  let* elapsed := GetElapseTime e (ts t) in
  if elapsed >=? timeout t then
    if CapsTcp e then ret STATE_SEND_FILE_DATA_ONGOING
    else modify (fun t => t <| errorCode := DFILE_TRANS_TRANSFER_DONE_TIMEOUT |>) ;; ret STATE_SEND_FILE_FAIL
  else
    let* last := ask (FileManagerIsLastBlockRead e) in
    if negb last then ret STATE_SEND_FILE_DATA_ONGOING else ret nextState.

Definition TRANSFER_DONE_ACK_REPEATED_TIMES : nat := 3.
Definition MAX_SEND_TRANSFERDONE_ACK_FRAME_COUNT : Z := 14.

(** [n] repetitions left, [i] frames sent. *)
Fixpoint send_done_acks (e : Env) (buf : list byte) (len : Z) (n : nat) (i : Z) (nextState : DFileSendState)
    : M (Z * DFileSendState) :=
  match n with
  | O => ret (i, nextState)
  | S n =>
      let! (r, nextState) := SendFrame_s e buf len nextState in
      if negb (r =? NSTACKX_EOK) then ret (i, nextState)
      else send_done_acks e buf len n (i + 1) nextState
  end.

Definition SendFileTransferDoneAckFrame (e : Env) (nextState : DFileSendState) : M DFileSendState :=
  let* t := get in
  let! (len, buf) := lift (EncodeFileTransferDoneAckFrame sendBuffer (mtu t) (transId t)) in
  let! (i, nextState) := send_done_acks e buf len TRANSFER_DONE_ACK_REPEATED_TIMES 0 nextState in
  let* node := ask (calloc e) in
  if negb node then ret nextState
  else
    let* added := ask (MutexListAddNode e) in
    (if added : bool then emit (DoneAckQueued (transId t) MAX_SEND_TRANSFERDONE_ACK_FRAME_COUNT) else ret tt) ;;
    ret (if i =? 0 then nextState else STATE_SEND_FILE_DONE).

(** [FileManagerStopTask] at the end of a transfer; its result is only logged. *)
Definition stop_task : M unit :=
  let* t := get in
  if fileManagerTaskStarted t then
    emit TaskStopped ;; modify (fun t => t <| fileManagerTaskStarted := false |>)
  else ret tt.

Definition SetSendState (e : Env) (nextState : DFileSendState) : M unit :=
  let* t := get in
  if decide (sendState t = nextState) then ret tt
  else
    match nextState with
    | STATE_WAIT_FOR_FILE_HEADER_CONFIRM => WaitForFileHeaderConfirmPrepare e
    | STATE_SEND_FILE_DATA_ONGOING => SendFileBlockPrepare e
    | STATE_WAIT_FOR_FILE_TRANSFER_DONE_FRAME => WaitForFileTransferDonePrepare e
    | _ => ret tt
    end ;;
    let* t := get in
    let nextState :=
      if (send_rank (sendState t) >=? send_rank STATE_SEND_FILE_TRANSFER_DONE_ACK) &&
         bool_decide (nextState = STATE_SEND_FILE_FAIL)
      then STATE_SEND_FILE_DONE else nextState in
    modify (fun t => t <| sendState := nextState |>) ;;
    if send_finished nextState then stop_task else ret tt.

Definition set_trans_flag : M unit := fun s => Ok tt (s <| transFlag := true |>).

(** The [switch] of [SenderFsm]; [hf] bounds the frames of one [SendFileHeader]. *)
Definition sender_step (e : Env) (hf : nat) (nextState : DFileSendState) : M DFileSendState :=
  let* t := get in
  match sendState t with
  | STATE_SEND_FILE_INIT => set_trans_flag ;; ret STATE_SEND_FILE_HEADER_ONGOING
  | STATE_SEND_FILE_HEADER_ONGOING => SendFileHeader e hf nextState
  | STATE_WAIT_FOR_FILE_HEADER_CONFIRM => WaitForFileHeaderConfirm e nextState
  | STATE_SEND_FILE_DATA_ONGOING => SendFileDataOngoing e nextState
  | STATE_WAIT_FOR_FILE_TRANSFER_DONE_FRAME => WaitForFileTransferDoneFrame e nextState
  | STATE_SEND_FILE_TRANSFER_DONE_ACK => SendFileTransferDoneAckFrame e nextState
  | _ => ret nextState
  end.

(** The loop of [SenderFsm] with its local [nextState]. *)
Fixpoint sender_loop (e : Env) (hf fuel : nat) (nextState : DFileSendState) : M unit :=
  match fuel with
  | O => out_of_fuel
  | S fuel =>
      let* nextState := sender_step e hf nextState in
      let* t := get in
      if decide (sendState t = nextState) then ret tt
      else
        SetSendState e nextState ;;
        let* t := get in
        if send_finished (sendState t) then ret tt else sender_loop e hf fuel nextState
  end.

Definition SenderFsm (e : Env) (hf fuel : nat) : M unit :=
  let* t := get in sender_loop e hf fuel (sendState t).

(** ** The receiver *)

Definition ReceiveFileHeaderPrepare (e : Env) : M unit :=
  let* now := ClockGetTime e in
  modify (fun t =>
    t <| ts := now |>
      <| timeout := if headerAckRetryCnt t =? 0 then maxRtt (config t)
                    else ExtendTimeout (timeout t) (maxCtrlFrameTimeout (config t)) |>).

Definition ReceiveFileHeaderOngoing (e : Env) (nextState : DFileReceiveState) : M DFileReceiveState :=
  let* t := get in
  let* elapsed := GetElapseTime e (ts t) in
  ret (if allFileNameReceived t || (elapsed >=? timeout t) then STATE_SEND_FILE_HEADER_CONFIRM else nextState).

Definition NotifyRecvSucMsg : M unit :=
  let* t := get in
  if isRecvSucMsgNotified t then ret tt
  else
    NotifyTransMsg DFILE_TRANS_MSG_FILE_RECEIVED ;;
    modify (fun t => t <| isRecvSucMsgNotified := true |>).

Definition StartFileManagerReceiverTask (e : Env) : M Z :=
  let* t := get in
  if fileManagerTaskStarted t then ret NSTACKX_EOK
  else
    let* mem := ask (calloc e) in
    if negb mem then ret NSTACKX_ENOMEM
    else
      let* es := lift (entries (fileList t) 0 (Z.to_nat (FileListGetNum (fileList t)))) in
      let total := foldl (fun a x => u64 (a + fileSize x)) (totalBytes t) es in
      modify (fun t => t <| totalBytes := total |>) ;;
      let* r := ask (FileManagerRecvFileTask e) in
      if negb (r =? NSTACKX_EOK) then ret NSTACKX_EFAILED
      else
        emit TaskStarted ;; modify (fun t => t <| fileManagerTaskStarted := true |>) ;; ret NSTACKX_EOK.

(** The loop of [SendFileHeaderConfirm]; [inl] is the early return. *)
Fixpoint confirm_loop (e : Env) (fuel : nat) (nextState : DFileReceiveState)
    : M (DFileReceiveState + DFileReceiveState) :=
  match fuel with
  | O => out_of_fuel
  | S fuel =>
      let* t := get in
      let! (lastEncAckedHeaderFileId, len, buf) :=
        lift (EncodeFileHeaderConfirmFrame (fileList t) (lastAckedHeaderFileId t) sendBuffer (mtu t)) in
      let! (r, nextState) := SendFrame_r e buf len nextState in
      if negb (r =? NSTACKX_EOK) then ret (inl nextState)
      else
        modify (fun t => t <| lastAckedHeaderFileId := lastEncAckedHeaderFileId |>) ;;
        if lastEncAckedHeaderFileId =? FileListGetNum (fileList t) then ret (inr nextState)
        else confirm_loop e fuel nextState
  end.

Definition SendFileHeaderConfirm (e : Env) (fuel : nat) (nextState : DFileReceiveState) : M DFileReceiveState :=
  let* r := confirm_loop e fuel nextState in
  match r with
  | inl nextState => ret nextState
  | inr nextState =>
      let* t := get in
      if allFileNameReceived t then
        let* r := StartFileManagerReceiverTask e in
        if negb (r =? NSTACKX_EOK) then
          modify (fun t => t <| errorCode := DFILE_TRANS_INTERNAL_ERROR |>) ;; ret STATE_RECEIVE_FILE_FAIL
        else ret STATE_RECEIVE_FILE_DATA_ONGOING
      else if headerAckRetryCnt t >? maxCtrlFrameRetryCnt (config t) then
        modify (fun t => t <| errorCode := DFILE_TRANS_FILE_HEADER_TIMEOUT |>) ;; ret STATE_RECEIVE_FILE_FAIL
      else
        modify (fun t => t <| headerAckRetryCnt := u8 (headerAckRetryCnt t + 1) |>) ;;
        ret STATE_RECEIVE_FILE_HEADER_ONGOING
  end.

Definition NstackAdjustAckIntervalRatio (n : Z) : Z := u64 (n * 95) / 100.

Definition ReceiveFileDataPrepare (e : Env) : M unit :=
  let* t := get in
  if decide (recvState t = STATE_SEND_FILE_HEADER_CONFIRM) then
    let* now := ClockGetTime e in
    let* now2 := ClockGetTime e in
    modify (fun t =>
      t <| ts := now |> <| heartBeatTs := now2 |> <| timeout := initialRecvIdleTimeout (config t) |>
        <| ackInterval := peerAckInterval e |> <| transRetryCount := maxRetryPageCnt (config t) |>
        <| receivedDataFrameCnt := 0 |>) ;;
    let* count := GetTotalFrameCount e in
    modify (fun t => t <| totalDataFrameCnt := count |>
                       <| adjustAckIntervalLimit := NstackAdjustAckIntervalRatio count |>)
  else ret tt.

(** Returns whether the receiver gives up, and [*nextState]. *)
Definition ReceiverIdleTimeout (e : Env) (nextState : DFileReceiveState) : M (bool * DFileReceiveState) :=
  let* t := get in
  let* elapseTime := GetElapseTime e (ts t) in
  if elapseTime >=? timeout t then
    let cnt := u8 (idleTimeoutCnt t + 1) in
    modify (fun t => t <| idleTimeoutCnt := cnt |>) ;;
    if (cnt >=? maxRecvIdleCnt (config t)) && negb (CapsTcp e) then ret (true, nextState)
    else
      let* now := ClockGetTime e in
      modify (fun t => t <| ts := now |>) ;; ret (false, STATE_SEND_FILE_DATA_ACK)
  else ret (false, nextState).

Fixpoint refresh_files (l : list (Z * bool)) : M unit :=
  match l with
  | [] => ret tt
  | (id, ok) :: l =>
      (if id =? 0 then ret tt
       else if ok : bool then modify_list (fun fl => FileListSetFileReceiveSuccess fl id)
       else modify_list (fun fl => FileListSetFileReceiveFail fl id)) ;;
      refresh_files l
  end.

Definition RefreshFileRecvStatus (e : Env) : M Z :=
  let* l := ask (FileManagerGetReceivedFiles e) in
  match l with
  | None => ret NSTACKX_EFAILED
  | Some l => refresh_files l ;; ret NSTACKX_EOK
  end.

(** The end of [ReceiveFileDataOngoing]: the heart beat. *)
Definition heart_beat (e : Env) (nextState : DFileReceiveState) : M DFileReceiveState :=
  if decide (nextState = STATE_SEND_FILE_DATA_ACK) then ret nextState
  else
    let* t := get in
    let* elapsed := GetElapseTime e (heartBeatTs t) in
    if elapsed >=? ackInterval t then
      let* r := (if allFileDataReceived t then ask (FileManagerSetAllDataReceived e) else ret NSTACKX_EOK) in
      if negb (r =? NSTACKX_EOK) then
        modify (fun t => t <| errorCode := DFILE_TRANS_FILE_RECEIVE_TASK_ERROR |>) ;; ret STATE_RECEIVE_FILE_FAIL
      else
        modify (fun t => t <| isAckSend := true |>) ;; ret STATE_SEND_FILE_DATA_ACK
    else ret nextState.

Definition ReceiveFileDataOngoing (e : Env) (nextState : DFileReceiveState) : M DFileReceiveState :=
  let* t := get in
  if dupFileName t then
    modify (fun t => t <| dupFileName := false |>) ;; ret STATE_SEND_FILE_HEADER_CONFIRM
  else if allFileDataReceived t then
    if negb (ioWriteFinishFlag t) then ret nextState
    else
      let* r := RefreshFileRecvStatus e in
      if negb (r =? NSTACKX_EOK) then
        modify (fun t => t <| errorCode := DFILE_TRANS_FILE_RECEIVE_TASK_ERROR |>) ;; ret STATE_RECEIVE_FILE_FAIL
      else
        let* t := get in
        let* all := lift (FileListAllFileReceived (fileList t)) in
        if all : bool then ret STATE_SEND_FILE_TRANSFER_DONE else heart_beat e nextState
  else
    let! (giveup, nextState) := ReceiverIdleTimeout e nextState in
    if giveup : bool then
      modify (fun t => t <| errorCode := DFILE_TRANS_FILE_DATA_TIMEOUT |>) ;; ret STATE_RECEIVE_FILE_FAIL
    else heart_beat e nextState.

Definition SendFileTransferDoneFrame (e : Env) (nextState : DFileReceiveState) : M DFileReceiveState :=
  let* t := get in
  let* elapsed := GetElapseTime e (ts t) in
  if elapsed >=? timeout t then
    modify (fun t => t <| errorCode := DFILE_TRANS_FILE_WRITE_FAIL |>) ;; ret STATE_RECEIVE_FILE_FAIL
  else
    NotifyRecvSucMsg ;;
    let* t := get in
    let* ids := lift (FileListGetReceivedFileIdList (fileList t) NSTACKX_DFILE_MAX_FILE_NUM) in
    let! (len, buf) := lift (EncodeFileTransferDoneFrame sendBuffer (mtu t) ids) in
    let! (r, nextState) := SendFrame_r e buf len nextState in
    ret (if negb (r =? NSTACKX_EOK) then nextState else STATE_WAIT_FOR_FILE_TRANSFER_DONE_ACK).

Definition WaitForFileTransferDoneAckPrepare (e : Env) : M unit :=
  let* now := ClockGetTime e in
  modify (fun t => t <| ts := now |> <| timeout := maxRtt (config t) |>).

Definition WaitForFileTransferDoneAck (e : Env) (nextState : DFileReceiveState) : M DFileReceiveState :=
  let* t := get in
  if fileTransferDoneAcked t then ret STATE_RECEIVE_FILE_DONE
  else
    let* elapsed := GetElapseTime e (ts t) in
    if elapsed >=? timeout t then
      if (transferDoneRetryCnt t >? maxCtrlFrameRetryCnt (config t)) && negb (CapsTcp e) then
        modify (fun t => t <| errorCode := DFILE_TRANS_TRANSFER_DONE_ACK_TIMEOUT |>) ;; ret STATE_RECEIVE_FILE_FAIL
      else
        let* now := ClockGetTime e in
        modify (fun t => t <| ts := now |> <| transferDoneRetryCnt := u8 (transferDoneRetryCnt t + 1) |>) ;;
        ret STATE_SEND_FILE_TRANSFER_DONE
    else ret nextState.

Definition SetReceiveStateHandle (e : Env) (nextState : DFileReceiveState) : M unit :=
  match nextState with
  | STATE_RECEIVE_FILE_HEADER_ONGOING => ReceiveFileHeaderPrepare e
  | STATE_RECEIVE_FILE_DATA_ONGOING => ReceiveFileDataPrepare e
  | STATE_SEND_FILE_HEADER_CONFIRM =>
      modify (fun t => t <| lastAckedHeaderFileId := NSTACKX_RESERVED_FILE_ID |>)
  | STATE_WAIT_FOR_FILE_TRANSFER_DONE_ACK => WaitForFileTransferDoneAckPrepare e
  | STATE_SEND_FILE_TRANSFER_DONE =>
      let* now := ClockGetTime e in
      modify (fun t => t <| ts := now |> <| timeout := maxFileWriteTimeout (config t) |>)
  | _ => ret tt
  end.

Definition SetReceiveState (e : Env) (nextState : DFileReceiveState) : M unit :=
  let* t := get in
  if decide (recvState t = nextState) then ret tt
  else
    SetReceiveStateHandle e nextState ;;
    let* t := get in
    let nextState :=
      if (recv_rank (recvState t) >? recv_rank STATE_SEND_FILE_TRANSFER_DONE) &&
         bool_decide (nextState = STATE_RECEIVE_FILE_FAIL)
      then STATE_RECEIVE_FILE_DONE else nextState in
    modify (fun t => t <| recvState := nextState |>) ;;
    if recv_finished nextState then stop_task else ret tt.

Definition NSTACKX_DEFAULT_FRAME_SIZE : Z := 1472.

Definition get_over_io : M Z := fun s => Ok (recvListOverIo_ s) s.
Definition clear_over_io : M unit := fun s => Ok tt (s <| recvListOverIo_ := 0 |>).

Definition SendBackPressureFrame (e : Env) : M unit :=
  if negb (CapsRecvFeedback e) then ret tt
  else
    let* over := get_over_io in
    let! (len, buf) := lift (EncodeBackPressFrame (zeros (Z.to_nat NSTACKX_DEFAULT_FRAME_SIZE))
                               NSTACKX_DEFAULT_FRAME_SIZE over) in
    let* r := ask (fun k => writeHandle e k (take (Z.to_nat len) buf)) in
    (if r =? i32 len then emit (Sent (take (Z.to_nat len) buf)) else ret tt) ;;
    (if over =? 1 then let* now := ClockGetTime e in modify (fun t => t <| ts := now |>) else ret tt) ;;
    clear_over_io.

Definition SendFileDataAck (e : Env) : M DFileReceiveState :=
  let* now := ClockGetTime e in
  modify (fun t => t <| heartBeatTs := now |>) ;;
  SendBackPressureFrame e ;;
  ret STATE_RECEIVE_FILE_DATA_ONGOING.

Definition receiver_step (e : Env) (hf : nat) (nextState : DFileReceiveState) : M DFileReceiveState :=
  let* t := get in
  match recvState t with
  | STATE_RECEIVE_FILE_INIT => set_trans_flag ;; ret STATE_RECEIVE_FILE_HEADER_ONGOING
  | STATE_RECEIVE_FILE_HEADER_ONGOING => ReceiveFileHeaderOngoing e nextState
  | STATE_SEND_FILE_HEADER_CONFIRM => SendFileHeaderConfirm e hf nextState
  | STATE_RECEIVE_FILE_DATA_ONGOING => ReceiveFileDataOngoing e nextState
  | STATE_SEND_FILE_DATA_ACK => SendFileDataAck e
  | STATE_SEND_FILE_TRANSFER_DONE => SendFileTransferDoneFrame e nextState
  | STATE_WAIT_FOR_FILE_TRANSFER_DONE_ACK => WaitForFileTransferDoneAck e nextState
  | _ => ret nextState
  end.

Fixpoint receiver_loop (e : Env) (hf fuel : nat) (nextState : DFileReceiveState) : M unit :=
  match fuel with
  | O => out_of_fuel
  | S fuel =>
      let* nextState := receiver_step e hf nextState in
      let* t := get in
      if decide (recvState t = nextState) then ret tt
      else
        SetReceiveState e nextState ;;
        let* t := get in
        if recv_finished (recvState t) then ret tt else receiver_loop e hf fuel nextState
  end.

Definition ReceiverFsm (e : Env) (hf fuel : nat) : M unit :=
  let* t := get in receiver_loop e hf fuel (recvState t).

Definition TransferFsm (e : Env) (hf fuel : nat) : M unit :=
  let* t := get in if isSender t then SenderFsm e hf fuel else ReceiverFsm e hf fuel.

(** ** Frames, ticks and messages of the file manager *)

(** The loop of [RenameFileIfExisting] from file [i], [n] files left. *)
Fixpoint rename_loop (rename : Z -> list byte -> list byte) (path i : Z) (n : nat) : M Z :=
  match n with
  | O => ret NSTACKX_EOK
  | S n =>
      let* t := get in
      let* name := lift (FileListGetFileName (fileList t) (i + 1)) in
      let new := rename path name in
      if (strlen new =? 0) || (strlen new + 1 >? NSTACKX_MAX_REMOTE_PATH_LEN) then ret NSTACKX_EFAILED
      else if GetFileNameLen (Some new) >? NSTACKX_MAX_FILE_NAME_LEN then ret NSTACKX_EFAILED
      else
        let! (r, fl) := lift (FileListRenameFile (Some (fileList t)) (i + 1) (Some new)) in
        modify_list (fun _ => fl) ;;
        if negb (r =? NSTACKX_EOK) then ret NSTACKX_EFAILED else rename_loop rename path (i + 1) n
  end.

Definition RenameFileIfExisting (e : Env) : M Z :=
  let* t := get in
  match onRenameFile e with
  | None => ret NSTACKX_EOK
  | Some rename =>
      rename_loop rename (FileListGetPathType (fileList t)) 0 (Z.to_nat (FileListGetNum (fileList t)))
  end.

Definition takes_header (s : DFileReceiveState) : bool :=
  match s with
  | STATE_RECEIVE_FILE_INIT | STATE_RECEIVE_FILE_HEADER_ONGOING | STATE_SEND_FILE_HEADER_CONFIRM
  | STATE_RECEIVE_FILE_DATA_ONGOING => true
  | _ => false
  end.

Definition HandleFileNameTableFrame (e : Env) (frame : list byte) : M Z :=
  let* t := get in
  if isSender t then ret NSTACKX_EFAILED
  else if negb (takes_header (recvState t)) then ret NSTACKX_EFAILED
  else
    let* allocList := ask (calloc e) in
    let* allocUser := ask (calloc e) in
    let! (_, fl) := lift (DecodeFileHeaderFrame allocList allocUser (fileList t) frame) in
    modify_list (fun _ => Some fl) ;;
    (if negb (allFileNameReceived t) then
       let* all := lift (FileListAllFileNameReceived fl) in
       modify (fun t => t <| allFileNameReceived := all |>) ;;
       if all : bool then
         let* r := RenameFileIfExisting e in
         (if negb (r =? NSTACKX_EOK) then
            modify (fun t => t <| errorCode := DFILE_TRANS_FILE_RENAME_FAIL |>) ;;
            NotifyTransMsg DFILE_TRANS_MSG_FILE_RECEIVE_FAIL ;;
            modify (fun t => t <| allFileNameReceived := false |>)
          else ret tt) ;;
         NotifyTransMsg DFILE_TRANS_MSG_FILE_LIST_RECEIVED
       else ret tt
     else modify (fun t => t <| dupFileName := true |>)) ;;
    ret NSTACKX_EOK.

Definition HandleFileTableAckFrame (frame : list byte) : M Z :=
  let* t := get in
  if negb (isSender t) then ret NSTACKX_EFAILED
  else
    modify (fun t => t <| lostAckCnt := 0 |>) ;;
    match sendState t with
    | STATE_SEND_FILE_HEADER_ONGOING | STATE_WAIT_FOR_FILE_HEADER_CONFIRM =>
        let! (r, fl) := lift (DecodeFileHeaderConfirmFrame (fileList t) frame) in
        modify_list (fun _ => Some fl) ;;
        ret (if negb (r =? NSTACKX_EOK) then NSTACKX_EFAILED else NSTACKX_EOK)
    | _ => ret NSTACKX_EFAILED
    end.

Definition UpdateTransParam (e : Env) (endFlag : bool) (id len : Z) : M unit :=
  let* t := get in
  let maxFileId := FileListGetNum (fileList t) in
  (if endFlag then modify_list (fun fl => FileListSetLastBlockReceived fl id) else ret tt) ;;
  let* t := get in
  let* last := lift (FileListGetLastBlockReceived (fileList t) maxFileId) in
  (if negb (last =? 0) then
     modify (fun t => t <| shouldSendAckDividor := NSTACKX_SEND_ACK_PER_TWO_RECYCLE |>) else ret tt) ;;
  (if negb (last =? 0) && (receivedDataFrameCnt t >=? adjustAckIntervalLimit t) then
     (if negb (adjustToLastFrameAckInterval t) then
        modify (fun t => t <| ackInterval := lastFrameAckInterval (config t) |>
                           <| adjustToLastFrameAckInterval := true |>)
      else ret tt) ;;
     modify (fun t => t <| shouldSendAckDividor := NSTACKX_SEND_ACK_PER_ONE_RECYCLE |>)
   else ret tt) ;;
  (if endFlag && (id =? maxFileId) then SendFileDataAck e ;; ret tt else ret tt) ;;
  modify (fun t => t <| receivedDataFrameCnt := u64 (receivedDataFrameCnt t + 1) |>
                     <| bytesTransferred := u64 (bytesTransferred t + len) |>) ;;
  let* t := get in
  if bytesTransferred t <? u64 (bytesTransferredLastRecord t + 1024 * 20480) then ret tt
  else
    modify (fun t => t <| bytesTransferredLastRecord := bytesTransferred t |>) ;;
    if bytesTransferred t >=? totalBytes t then ret tt else NotifyTransProgress.

Definition WriteDataFrame (e : Env) (frame : list byte) : M Z :=
  let* id := lift (be_at 2 DFILE_FRAME_HEADER_LEN frame) in
  let* plen := lift (be_at 2 OFF_LENGTH frame) in
  let* flag := lift (be_at 1 OFF_FLAG frame) in
  let* r := ask (fun k => FileManagerFileWrite e k frame) in
  if negb (r =? NSTACKX_EOK) then
    modify (fun t => t <| errorCode := DFILE_TRANS_FILE_WRITE_FAIL |>) ;;
    SetReceiveState e STATE_RECEIVE_FILE_FAIL ;;
    ret r
  else
    UpdateTransParam e (Z.land flag 3 =? 3) id (u16 (plen + 8 - 14)) ;; ret NSTACKX_EOK.

Definition CheckReceiverTransAndFrameValid (t : DFileTrans) (frame : list byte) : option Z :=
  plen ← be_at 2 OFF_LENGTH frame;
  if plen <=? 6 then Some NSTACKX_EFAILED
  else if isSender t || negb (bool_decide (recvState t = STATE_RECEIVE_FILE_DATA_ONGOING)
                              || bool_decide (recvState t = STATE_SEND_FILE_DATA_ACK)) then Some NSTACKX_EFAILED
  else
    id ← GetFileIdFromFileDataFrame (fileList t) frame;
    Some (if id =? NSTACKX_RESERVED_FILE_ID then NSTACKX_EFAILED else NSTACKX_EOK).

Definition HandleFileDataFrame (e : Env) (frame : list byte) : M Z :=
  let refresh (r : Z) : M Z :=
    let* now := ClockGetTime e in modify (fun t => t <| ts := now |>) ;; ret r in
  let* t := get in
  let* c := lift (CheckReceiverTransAndFrameValid t frame) in
  if negb (c =? NSTACKX_EOK) then ret NSTACKX_EFAILED
  else
    modify (fun t => t <| recvCount := u32 (recvCount t + 1) |>) ;;
    let* writable := ask (FileManagerIsRecvBlockWritable e) in
    if negb writable then
      modify (fun t => t <| recvBlockListFullTimes := u64 (recvBlockListFullTimes t + 1) |>) ;;
      refresh NSTACKX_EFAILED
    else
      let* r := WriteDataFrame e frame in
      if negb (r =? NSTACKX_EOK) then ret r
      else
        let* t := get in
        let* last := lift (FileListGetLastBlockReceived (fileList t) (FileListGetNum (fileList t))) in
        (if (receivedDataFrameCnt t >=? totalDataFrameCnt t) && negb (last =? 0) then
           modify (fun t => t <| allFileDataReceived := true |>) else ret tt) ;;
        refresh r.

Definition takes_done (s : DFileSendState) : bool :=
  match s with
  | STATE_WAIT_FOR_FILE_TRANSFER_DONE_FRAME | STATE_SEND_FILE_TRANSFER_DONE_ACK | STATE_SEND_FILE_DATA_ONGOING => true
  | _ => false
  end.

Definition HandleTransferDoneFrame (frame : list byte) : M Z :=
  let* t := get in
  if negb (isSender t) then ret NSTACKX_EFAILED
  else if negb (takes_done (sendState t)) then ret NSTACKX_EFAILED
  else if fileTransferDoneReceived t then ret NSTACKX_EOK
  else
    modify (fun t => t <| fileTransferDoneReceived := true |>) ;;
    let! (r, fl) := lift (DecodeFileTransferDoneFrame (fileList t) frame) in
    modify_list (fun _ => Some fl) ;;
    ret (if negb (r =? NSTACKX_EOK) then NSTACKX_EFAILED else NSTACKX_EOK).

Definition handle_frame (e : Env) (frame : list byte) : M Z :=
  let* type := lift (be_at 1 OFF_TYPE frame) in
  if type =? NSTACKX_DFILE_FILE_HEADER_FRAME then HandleFileNameTableFrame e frame
  else if type =? NSTACKX_DFILE_FILE_HEADER_CONFIRM_FRAME then HandleFileTableAckFrame frame
  else if type =? NSTACKX_DFILE_FILE_DATA_FRAME then HandleFileDataFrame e frame
  else if type =? NSTACKX_DFILE_FILE_TRANSFER_DONE_FRAME then HandleTransferDoneFrame frame
  else if type =? NSTACKX_DFILE_FILE_TRANSFER_DONE_ACK_FRAME then
    modify (fun t => if isSender t then t else t <| fileTransferDoneAcked := true |>) ;; ret NSTACKX_EOK
  else ret NSTACKX_EFAILED.

Definition HandleDFileFrame (e : Env) (hf fuel : nat) (frame : list byte) : M Z :=
  let* t := get in
  if (mtu t =? 0) || DFileTransStateFinished t then ret NSTACKX_EFAILED
  else
    let* r := handle_frame e frame in
    TransferFsm e hf fuel ;;
    let* t := get in
    (if isAckSend t then
       NotifyTransMsg DFILE_TRANS_MSG_FILE_SEND_ACK ;; modify (fun t => t <| isAckSend := false |>)
     else ret tt) ;;
    DFileTransNotifyEndMsg ;;
    ret r.

Definition DFileTransProcess (e : Env) (hf fuel : nat) : M unit :=
  let* t := get in
  if (mtu t =? 0) || DFileTransStateFinished t then ret tt
  else
    TransferFsm e hf fuel ;;
    modify (fun t => t <| isAckSend := false |>) ;;
    DFileTransNotifyEndMsg.

(** [FileManagerMsgType], as far as the handlers distinguish them. *)
Inductive FileManagerMsgType :=
  | FILE_MANAGER_SEND_FAIL
  | FILE_MANAGER_RECEIVE_FAIL
  | FILE_MANAGER_RECEIVE_SUCCESS
  | FILE_MANAGER_TRANS_IN_PROGRESS
  | FILE_MANAGER_OTHER.

Definition FileManagerSenderMsgHandler (e : Env) (m : FileManagerMsgType) : M unit :=
  match m with
  | FILE_MANAGER_TRANS_IN_PROGRESS =>
      let* t := get in
      let* names := lift (FileListGetNames (fileList t) NSTACKX_DFILE_MAX_FILE_NUM (noticeFileNameType (fileList t))) in
      msgReceiver DFILE_TRANS_MSG_IN_PROGRESS names 0
  | FILE_MANAGER_SEND_FAIL =>
      modify (fun t => t <| errorCode := DFILE_TRANS_FILE_SEND_TASK_ERROR |>) ;;
      SetSendState e STATE_SEND_FILE_FAIL ;;
      NotifyTransMsg DFILE_TRANS_MSG_FILE_SEND_FAIL
  | _ => ret tt
  end.

Definition FileManagerReceiverMsgHandler (e : Env) (hf fuel : nat) (id : Z) (m : FileManagerMsgType) : M unit :=
  match m with
  | FILE_MANAGER_RECEIVE_FAIL =>
      modify (fun t => t <| errorCode := DFILE_TRANS_FILE_RECEIVE_TASK_ERROR |>) ;;
      SetReceiveState e STATE_RECEIVE_FILE_FAIL ;;
      NotifyTransMsg DFILE_TRANS_MSG_FILE_RECEIVE_FAIL
  | _ =>
      if id =? 0 then ret tt
      else
        match m with
        | FILE_MANAGER_RECEIVE_SUCCESS => modify_list (fun fl => FileListSetFileReceiveSuccess fl id)
        | _ => ret tt
        end ;;
        let* t := get in
        let* all := lift (FileListAllFileReceived (fileList t)) in
        if all : bool then
          modify (fun t => t <| allFileDataReceived := true |> <| ioWriteFinishFlag := true |>) ;;
          NotifyRecvSucMsg ;;
          ReceiverFsm e hf fuel ;;
          modify (fun t => t <| isAckSend := false |>)
        else ret tt
  end.

(** ** Timers *)

Definition GetRemainingTime (maxTime : Z) (now since : timespec) : Z :=
  let elapseTime := GetTimeDiffMs now since in
  if elapseTime >=? maxTime then 0 else maxTime - elapseTime.

Definition SenderGetTimeout (t : DFileTrans) (now : timespec) : Z :=
  match sendState t with
  | STATE_WAIT_FOR_FILE_HEADER_CONFIRM | STATE_SEND_FILE_DATA_ONGOING
  | STATE_WAIT_FOR_FILE_TRANSFER_DONE_FRAME => GetRemainingTime (timeout t) now (ts t)
  | _ => NSTACKX_EFAILED
  end.

Definition ReceiverGetTimeout (t : DFileTrans) (now : timespec) : Z :=
  match recvState t with
  | STATE_RECEIVE_FILE_HEADER_ONGOING | STATE_SEND_FILE_TRANSFER_DONE
  | STATE_WAIT_FOR_FILE_TRANSFER_DONE_ACK => GetRemainingTime (timeout t) now (ts t)
  | STATE_RECEIVE_FILE_DATA_ONGOING =>
      Z.min (GetRemainingTime (timeout t) now (ts t)) (GetRemainingTime (ackInterval t) now (heartBeatTs t))
  | _ => NSTACKX_EFAILED
  end.

Definition DFileTransGetTimeout (t : DFileTrans) (now : timespec) : Z :=
  if isSender t then SenderGetTimeout t now else ReceiverGetTimeout t now.

Definition DFileTransGetTotalBytes (t : option DFileTrans) : option Z :=
  match t with None => Some 0 | Some t => GetFilesTotalBytes (Some (fileList t)) end.

Definition DFileTransSendFiles (e : Env) (alloc : bool) (t : DFileTrans) (info : FileListInfo)
    : option (Z * DFileTrans) :=
  '(r, fl) ← FileListSetSendFileList (e_stat e) alloc (fileList t) info; Some (r, t <| fileList := fl |>).

Definition DFileTransAddExtraInfo (alloc : bool) (t : DFileTrans) (path notice : Z) (user : option (list byte))
    : option (Z * DFileTrans) :=
  '(r, fl) ← FileListAddExtraInfo alloc (fileList t) path notice user; Some (r, t <| fileList := fl |>).
End DFileTransfer.
