(* ===== verification/DFileExchange.v ===== *)
(** * DFile: delivery of the file list by the state machines

    The frames that [SendFileHeader] and [SendFileHeaderConfirm] of
    [DFileTransfer] put on the network, delivered in any order and any number of
    times. *)

From S2P Require Import Prelude DFileList DFileFrame DFileHandshake DFileTransfer.

Module DFileExchange.
Import DFileList DFileFrame DFileHandshake DFileTransfer.

(** Every write succeeds. *)
Definition writes_ok (e : Env) : Prop := forall k frame, writeHandle e k frame = Z.of_nat (length frame).

(** Every unit that has to be sent fits a frame of its own. *)
Definition units_fit (stat : list byte -> option Z) (fl : FileList) (m : Z) : Prop :=
  forall id, 0 <= id <= header_num fl -> needs fl id = true -> 10 + Z.of_nat (length (unit_of stat fl id)) <= m.

Lemma needs_valid stat s id : offer stat s -> 0 <= id <= header_num s -> needs s id = true -> valid_id s id.
Proof.
  intros Ho Hid Hn. destruct (decide (id = 0)) as [->|]; [|left; lia]. right. split; [done|].
  revert Hn. unfold needs, FileListGetFileNameAcked, has_user. cbn [Z.eqb].
  rewrite (offer_packed stat s Ho). intros [_ Hn]%andb_true_iff. revert Hn.
  destruct (userData s); [by left|]. rewrite bool_decide_true by done.
  pose proof (offer_path stat s Ho). destruct (pathType s =? 0) eqn:E; [by rewrite bool_decide_true|]. right. lia.
Qed.

Lemma encodable_offer stat s : offer stat s -> encodable stat s.
Proof.
  intros Ho id Hid Hn. destruct (valid_info stat s Ho id) as (name & size & Hi & _ & Hl & _).
  - by eapply needs_valid.
  - exists name, size. split; [done|lia].
Qed.

(** One frame sent by the sender. *)
Lemma SendFrame_s_ok e s buf len next frame :
  writes_ok e -> alive s = true -> 8 <= len <= 14720 ->
  SetDfileFrameTransID buf (transId (tr s)) = Some frame -> (Z.to_nat len <= length frame)%nat ->
  SendFrame_s e buf len next s
    = Ok (NSTACKX_EOK, next) (s <| tick := S (tick s) |> <| out := out s ++ [Sent (take (Z.to_nat len) frame)] |>).
Proof.
  intros Hw Ha Hlen Hf Hl. unfold SendFrame_s, SendFrame, bind, get. rewrite Ha. unfold lift. rewrite Hf.
  unfold ask. rewrite Hw, length_take. rewrite i32_small by lia.
  replace (Z.of_nat (Z.to_nat len `min` length frame) =? len) with true by bool_lia. cbn. by rewrite Ha.
Qed.

(** [SendFileHeader] sends every unit that is not acknowledged, in frames of at
    most [mtu] bytes, and ends. *)
Lemma SendFileHeader_spec e fuel next s :
  let t := tr s in let fl := fileList t in let stat := e_stat e in
  writes_ok e -> alive s = true -> offer stat fl ->
  -1 <= lastSentHeaderFileId t <= header_num fl -> 22 < mtu t <= 14720 -> units_fit stat fl (mtu t) ->
  header_num fl - lastSentHeaderFileId t < Z.of_nat fuel ->
  exists idss,
    SendFileHeader e fuel next s = Ok STATE_WAIT_FOR_FILE_HEADER_CONFIRM
      (mkSt (t <| lastSentHeaderFileId := header_num fl |>) true (transFlag s) (recvListOverIo_ s)
         (tick s + length idss) (out s ++ ((fun ids => Sent (header_frame stat fl (transId t) ids)) <$> idss))) /\
    concat idss = filter (fun id => needs fl id = true)
                    (seqZ (lastSentHeaderFileId t + 1) (header_num fl - lastSentHeaderFileId t)) /\
    Forall (fun ids => 10 + Z.of_nat (length (units_of stat fl ids)) <= mtu t) idss.
Proof.
  cbn zeta. intros Hw Ha Ho. pose proof (offer_num _ _ Ho) as Hn. pose proof (offer_wf _ _ Ho) as Hwf.
  pose proof (encodable_offer _ _ Ho) as Henc.
  revert s Ha Ho Hn Hwf Henc. induction fuel as [|fuel IH]; intros s Ha Ho Hn Hwf Henc Hl Hm Hfit Hf; [lia|].
  set (t := tr s) in *. set (fl := fileList t) in *. set (stat := e_stat e) in *.
  destruct (EncodeHeader_spec stat fl 14720 (mtu t) (lastSentHeaderFileId t))
    as (last' & m & buf & Heq & Hbuf & Hl' & Htake & Hmlen & Hmm & Hprog); try done; try lia.
  cbn zeta in Htake, Hmlen. set (ids := filter _ _) in Htake, Hmlen.
  cbn [SendFileHeader]. unfold bind at 1. unfold get at 1. rewrite Ha. fold t. fold fl. fold stat.
  unfold bind at 1. unfold sendBuffer, NSTACKX_MAX_FRAME_SIZE. rewrite Heq. cbn [lift].
  assert (SetDfileFrameTransID buf (transId t) = Some (header_frame stat fl (transId t) ids ++ drop (Z.to_nat m) buf)) as Hset.
  { rewrite <- (take_drop (Z.to_nat m) buf) at 1. rewrite Htake. unfold header_frame.
    rewrite <- !app_assoc. by rewrite put_trans. }
  pose proof (length_header_frame stat fl 0 ids) as Hlen0. pose proof (length_header_frame stat fl (transId t) ids) as Hlen1.
  unfold bind at 1. rewrite (SendFrame_s_ok e s buf m next (header_frame stat fl (transId t) ids ++ drop (Z.to_nat m) buf) Hw Ha);
    [|lia|done|rewrite length_app; lia].
  rewrite take_app_length' by lia. cbn [negb Z.eqb NSTACKX_EOK].
  unfold bind at 1. unfold modify at 1. cbn [alive]. rewrite Ha. cbn [tr].
  destruct (last' =? header_num fl) eqn:Elast.
  - exists [ids]. split; [|split].
    + unfold ret. f_equal. replace last' with (header_num fl) by lia. unfold t. simpl.
      by rewrite Nat.add_1_r.
    + simpl. rewrite app_nil_r. unfold ids. by replace last' with (header_num fl) by lia.
    + constructor; [|done]. lia.
  - assert (lastSentHeaderFileId t < last') as Hp.
    { apply Hprog; [lia|unfold FILE_INFO_UNIT_LEN; lia|]. intros Hneed. apply Hfit; [lia|done]. }
    set (s1 := mkSt (t <| lastSentHeaderFileId := last' |>) true (transFlag s) (recvListOverIo_ s)
                 (S (tick s)) (out s ++ [Sent (header_frame stat fl (transId t) ids)])).
    destruct (IH s1) as (idss & Hrun & Hids & Hsmall); try done.
    { cbn [tr s1 lastSentHeaderFileId fileList]. fold fl. lia. }
    { cbn [tr s1 lastSentHeaderFileId fileList]. fold fl. lia. }
    exists (ids :: idss). split; [|split].
    + match goal with |- SendFileHeader _ _ _ ?s0 = _ => change s0 with s1 end. rewrite Hrun. cbn [tr s1 fileList lastSentHeaderFileId transId transFlag recvListOverIo_ tick out].
      fold fl stat. rewrite fmap_cons, <- app_assoc. cbn [length app]. by rewrite Nat.add_succ_r.
    + cbn [concat]. rewrite Hids. cbn [tr s1 lastSentHeaderFileId fileList]. fold fl. unfold ids.
      rewrite <- filter_app. f_equal.
      replace (header_num fl - lastSentHeaderFileId t) with ((last' - lastSentHeaderFileId t) + (header_num fl - last')) by lia.
      rewrite seqZ_app by lia. f_equal. f_equal. lia.
    + constructor; [lia|done].
Qed.

(** ** Delivery of header frames *)

(** A received datagram of type header. *)
Definition deliver (r : FileList) (w : list byte) : option FileList :=
  c ← DecodeDFileFrame w;
  if c =? NSTACKX_EOK then snd <$> DecodeFileHeaderFrame true true r w else Some r.

Fixpoint deliver_all (r : FileList) (ws : list (list byte)) : option FileList :=
  match ws with [] => Some r | w :: ws => r ← deliver r w; deliver_all r ws end.

Section delivery.
Context (stat : list byte -> option Z) (s : FileList) (Hoffer : offer stat s) (trans : Z).

Lemma deliver_frame r ids : agrees stat s r -> Forall (valid_id s) ids ->
  Z.of_nat (length (units_of stat s ids)) < 65534 ->
  exists r', deliver r (header_frame stat s trans ids) = Some r' /\ advances stat s r r' /\ Forall (received r') ids.
Proof.
  intros Hag Hv Hl. unfold deliver. destruct ids as [|id ids].
  - exists r. split; [|split; [by apply advances_refl|done]]. unfold header_frame.
    rewrite head_accepted by (rewrite ?length_app, ?length_be_bytes; simpl; lia). cbn [mbind option_bind Z.eqb NSTACKX_EOK].
    unfold DecodeFileHeaderFrame, DecodeFileHeaderFrameSp. by rewrite head_length_at by (simpl; lia).
  - destruct (header_frame_decode stat s Hoffer r trans (id :: ids)) as (-> & r' & -> & Hadv & Hrec); try done.
    by exists r'.
Qed.

Lemma deliver_frames idss ws r :
  Forall (fun ids => Forall (valid_id s) ids /\ Z.of_nat (length (units_of stat s ids)) < 65534) idss ->
  (forall w, w ∈ ws -> w ∈ header_frame stat s trans <$> idss) -> agrees stat s r ->
  exists r', deliver_all r ws = Some r' /\ advances stat s r r' /\
    forall ids, ids ∈ idss -> header_frame stat s trans ids ∈ ws -> Forall (received r') ids.
Proof.
  intros Hidss. revert r. induction ws as [|w ws IH]; intros r Hws Hag.
  { exists r. split; [done|]. split; [by apply advances_refl|]. set_solver. }
  pose proof (Hws w ltac:(by left)) as (ids & -> & Hin)%list_elem_of_fmap.
  destruct (proj1 (Forall_forall _ _) Hidss ids Hin) as [Hv Hl]. cbn [deliver_all].
  destruct (deliver_frame r ids Hag Hv Hl) as (r1 & Hr1 & Hadv & _). rewrite Hr1. cbn [mbind option_bind].
  destruct (IH r1) as (r2 & -> & Hadv2 & Hrec2); [by intros; apply Hws; right|apply Hadv|].
  exists r2. split; [done|]. split; [by eapply advances_trans|].
  intros ids' Hin' [E|Hlater]%elem_of_cons; [|by apply Hrec2].
  destruct (proj1 (Forall_forall _ _) Hidss ids' Hin') as [Hv' Hl'].
  destruct (deliver_frame r ids' Hag Hv' Hl') as (r1' & Hr1' & _ & Hrec'). rewrite E, Hr1 in Hr1'.
  injection Hr1' as <-. eapply Forall_impl; [exact Hrec'|]. apply Hadv2.
Qed.

(** Nothing is acknowledged yet. *)
Definition unacked : Prop := forall id, 0 <= id <= header_num s -> FileListGetFileNameAcked s id = Some 0.

Lemma unacked_needs id : unacked -> valid_id s id -> needs s id = true.
Proof.
  intros Hun Hv. pose proof (offer_num stat s Hoffer). unfold needs. rewrite Hun by (destruct Hv; lia). cbn [Z.eqb andb].
  destruct Hv as [?|[-> Hhas]]; [by replace (id =? 0) with false by lia|].
  rewrite (offer_packed stat s Hoffer). destruct Hhas as [Hu|Hp].
  - by rewrite bool_decide_false.
  - replace (pathType s =? 0) with false by lia. rewrite (bool_decide_false (Some _ = None)) by done.
    by rewrite andb_false_r.
Qed.

(** What the receiver holds when every unit has arrived. *)
Lemma all_received r : agrees stat s r -> (forall id, valid_id s id -> received r id) ->
  FileListAllFileNameReceived r = Some true /\
  (has_user s -> userData r = userData s /\ pathType r = pathType s) /\
  forall id, 1 <= id <= header_num s -> exists name size, file_info stat s id = Some (name, size) /\
    FileListGetFileName r id = Some name /\ FileListGetFileSize r id = Some size.
Proof.
  intros Hag Hrec. pose proof (offer_num stat s Hoffer) as Hn.
  assert (forall id, 1 <= id <= header_num s -> exists e, entry r (id - 1) = Some e /\
            Z.land (flags e) NSTACKX_FLAGS_FILE_NAME_RECEIVED <> 0) as Hent.
  { intros id Hid. specialize (Hrec id ltac:(by left)). unfold received in Hrec. by rewrite decide_False in Hrec by lia. }
  assert (files r <> None) as Hf.
  { intros H0. destruct (Hent 1) as (e & He & _); [lia|]. unfold entry in He. by rewrite H0 in He. }
  pose proof (agrees_num _ _ _ Hag Hf) as Hnum. split; [|split].
  - unfold FileListAllFileNameReceived, all_or_tar. replace (num r =? 0) with false by lia.
    rewrite (agrees_tar _ _ _ Hag). cbn [Z.eqb NSTACKX_TRUE].
    replace (negb _ && _) with false.
    + apply all_flags_true. intros j Hj. rewrite Z2Nat.id in Hj by lia. destruct (Hent (j + 1)) as (e & He & ?); [lia|].
      exists e. by replace (j + 1 - 1) with j in He by lia.
    + symmetry. apply andb_false_iff. destruct (Z.land (userDataFlag r) NSTACKX_DFILE_HEADER_FRAME_USER_DATA_FLAG =? 0) eqn:E0;
        [by left|right]. specialize (Hrec 0). unfold received in Hrec. rewrite decide_True in Hrec by done.
      apply Z.eqb_neq, Hrec. right. split; [done|]. apply (agrees_flag _ _ _ Hag). unfold opened. lia.
  - intros Hhas. pose proof (agrees_user _ _ _ Hag) as Hu. rewrite decide_True in Hu; [done|]. apply Hrec. by right.
  - intros id Hid. destruct (Hent id Hid) as (e & He & Hfl). pose proof (agrees_entry _ _ _ Hag id e ltac:(lia) He) as Ha.
    unfold entry_agrees in Ha. rewrite decide_False in Ha by done. destruct Ha as [Hi _].
    eexists _, _. split; [exact Hi|]. unfold FileListGetFileName, FileListGetFileSize. by rewrite He.
Qed.
End delivery.

(** A new receiver agrees with every sender. *)
Lemma agrees_new stat s r : FileListCreate true = Some r -> agrees stat s r.
Proof. intros [= <-]. by constructor. Qed.


(** ** An example: one file with user data *)

Definition example_env : Env :=
  mkEnv (fun _ => mkTime 7 0) (fun _ frame => Z.of_nat (length frame)) (fun _ => 0) (fun _ => 0) (fun _ => true)
    (fun _ _ => Some 0) (fun _ => Some [(1, true)]) (fun _ => 0) (fun _ => true) (fun _ _ => 0) (fun _ => true)
    (fun _ => true) None (fun _ => None) false true 100.

Definition example_entry (fl : Z) : FileListEntry :=
  mkEntry 1 (splice 0 [Byte.x61; Byte.x62] (zeros 1024)) (Some [Byte.x2f; Byte.x61; Byte.x62]) None 5 fl 0.

Definition example_offer (fl user : Z) : FileList :=
  mkFileList (Some [example_entry fl]) 1 (Some [Byte.x75]) user 0 0 None 0 0 0 None.

Definition example_st (sender : bool) (fl : FileList) (last lastAcked : Z) : St :=
  mkSt (mkTrans 9 sender STATE_SEND_FILE_INIT STATE_RECEIVE_FILE_INIT last 0 0 false lastAcked (mkTime 0 0) 0 0
          false false false false 0 5 0 0 0 0 0 ConfigDFileTransP2p DFILE_TRANS_NO_ERROR
          (mkTime 0 0) 0 false 40 fl false 0 0 0 false 0 false 0 false) true false 0 0 [].

Lemma example_offers fl user : 0 <= fl < 256 -> offer (fun _ => None) (example_offer fl user).
Proof.
  intros Hfl. constructor; try done.
  - split; [done|]. split; [done|]. constructor; [|constructor]. split; [done|]. split; [done|]. simpl. lia.
  - intros id Hid. change (1 <= id <= 1) in Hid. assert (id = 1) as -> by lia.
    exists [Byte.x61; Byte.x62], 5. split; [by vm_compute|]. split; [done|]. split; [repeat constructor; done|done].
  - intros u [= <-]. split; [repeat constructor; done|]. done.
Qed.

End DFileExchange.
