(* ===== verification/DFileConfirm.v ===== *)
(** * DFile: acknowledgement of the file list

    The confirmation frames that the loop of [SendFileHeaderConfirm] of
    [DFileTransfer] puts on the network, delivered to the sender in any order and
    any number of times. *)

From S2P Require Import Prelude DFileList DFileFrame DFileHandshake DFileTransfer DFileExchange.

Module DFileConfirm.
Import DFileList DFileFrame DFileHandshake DFileTransfer DFileExchange.

Definition acked (s : FileList) (id : Z) : Prop := exists a, FileListGetFileNameAcked s id = Some a /\ a <> 0.

(** ** Encoding *)

Section encoding.
Context (r : FileList) (Hwf : wf r).

(** The name of file [id] is confirmed. *)
Definition got (id : Z) : bool :=
  match FileListGetFileNameReceived r id with Some v => negb (v =? 0) | None => false end.

Lemma got_received id : 1 <= id -> got id = true <-> received r id.
Proof.
  intros Hid. unfold got, received, FileListGetFileNameReceived. rewrite decide_False by lia.
  destruct (entry r (id - 1)) as [e|]; simpl; [|by split; [|intros (? & ? & _)]]. rewrite negb_true_iff, Z.eqb_neq.
  split; [intros; eauto|]. by intros (e' & [= <-] & ?).
Qed.

(** The leading id for the user data. *)
Definition user_ack : list Z := if decide (opened r /\ received r 0) then [0] else [].

Lemma received_0 : received r 0 <-> Z.land (userDataFlag r) NSTACKX_FLAGS_FILE_NAME_RECEIVED <> 0.
Proof. unfold received. by rewrite decide_True. Qed.

Lemma encode_acks_spec bufferLength fuel last head pre rest :
  let B := Z.shiftr bufferLength 1 in
  0 <= last <= num r -> num r - last <= Z.of_nat fuel -> Z.of_nat (length pre) <= B <= 30000 ->
  length head = 8%nat -> 2 * (B - Z.of_nat (length pre)) <= Z.of_nat (length rest) ->
  exists last' rest', let ids := filter (fun id => got id = true) (seqZ (last + 1) (last' - last)) in
    encode_acks r bufferLength fuel last (Z.of_nat (length pre)) (head ++ id_bytes pre ++ rest)
      = Some (last', Z.of_nat (length (pre ++ ids)), head ++ id_bytes (pre ++ ids) ++ rest') /\
    last <= last' <= num r /\ Z.of_nat (length (pre ++ ids)) <= B /\
    (last < num r -> Z.of_nat (length pre) < B -> last < last').
Proof.
  intros B. pose proof (wf_num _ Hwf) as Hn. unfold NSTACKX_DFILE_MAX_FILE_NUM in Hn.
  revert last pre rest. induction fuel as [|fuel IH]; intros last pre rest Hlast Hf Hpre Hh Hrest.
  { assert (last = num r) as -> by lia. exists (num r), rest. cbn [encode_acks].
    rewrite wf_GetNum, Z.eqb_refl, Z.sub_diag, seqZ_nil, filter_nil, app_nil_r by (done || lia). split; [done|]. lia. }
  cbn [encode_acks]. rewrite wf_GetNum by done. destruct (last =? num r) eqn:Elast.
  { exists last, rest. rewrite Z.sub_diag, seqZ_nil, filter_nil, app_nil_r by lia. split; [done|]. lia. }
  rewrite (wrap_small 16 (last + 1)) by (simpl Z.pow; lia). cbn zeta.
  assert (exists v, FileListGetFileNameReceived r (last + 1) = Some v) as (v & Hv).
  { destruct (wf_entry_in _ (last + 1 - 1) Hwf) as (e & He & _); [lia|]. unfold FileListGetFileNameReceived. by rewrite He; eexists. }
  rewrite Hv. cbn [mbind option_bind].
  assert (forall last', last + 1 <= last' -> filter (fun id => got id = true) (seqZ (last + 1) (last' - last))
    = (if v =? 0 then [] else [last + 1]) ++ filter (fun id => got id = true) (seqZ (last + 1 + 1) (last' - (last + 1)))) as Hstep.
  { intros last' Hl. rewrite (seqZ_cons (last + 1)) by lia.
    replace (Z.pred (last' - last)) with (last' - (last + 1)) by lia.
    replace (Z.succ (last + 1)) with (last + 1 + 1) by lia.
    assert (got (last + 1) = negb (v =? 0)) as Hgot by (unfold got; by rewrite Hv).
    rewrite filter_cons. destruct (v =? 0); [rewrite decide_False by (by rewrite Hgot)|rewrite decide_True by done]; done. }
  destruct (v =? 0) eqn:Ev.
  - destruct (IH (last + 1) pre rest) as (last' & rest' & Heq & Hl & Hb & _); try done; [lia..|].
    exists last', rest'. cbn zeta in Heq, Hb |- *. rewrite Hstep by lia. cbn [app]. split; [exact Heq|]. lia.
  - fold B. destruct (Z.of_nat (length pre) >=? B) eqn:Efull.
    { exists last, rest. rewrite Z.sub_diag, seqZ_nil, filter_nil, app_nil_r by lia. split; [done|]. lia. }
    destruct rest as [|x [|y rest]]; simpl in Hrest; [lia..|].
    change (x :: y :: rest) with ([x; y] ++ rest). rewrite (app_assoc head).
    rewrite put_mid; [|rewrite length_app, length_id_bytes; unfold DFILE_FRAME_HEADER_LEN; lia|by rewrite length_be_bytes].
    cbn [mbind option_bind]. rewrite <- app_assoc.
    replace (id_bytes pre ++ be_bytes 2 (last + 1) ++ rest) with (id_bytes (pre ++ [last + 1]) ++ rest)
      by (by rewrite id_bytes_app, <- app_assoc).
    rewrite (wrap_small 16) by (simpl Z.pow; lia).
    replace (Z.of_nat (length pre) + 1) with (Z.of_nat (length (pre ++ [last + 1]))) by (rewrite length_app; simpl; lia).
    destruct (IH (last + 1) (pre ++ [last + 1]) rest) as (last' & rest' & Heq & Hl & Hb & _); try done;
      [rewrite ?length_app; cbn [length]; lia..|].
    exists last', rest'. cbn zeta in Heq, Hb |- *. rewrite Hstep by lia. rewrite <- app_assoc in Heq, Hb.
    split; [exact Heq|]. lia.
Qed.

(** The frame that confirms [ids]. *)
Definition confirm_frame (trans : Z) (ids : list Z) : list byte :=
  frame_head NSTACKX_DFILE_FILE_HEADER_CONFIRM_FRAME 0 0 trans (2 * Z.of_nat (length ids)) ++ id_bytes ids.

Lemma length_confirm_frame trans ids : Z.of_nat (length (confirm_frame trans ids)) = 8 + 2 * Z.of_nat (length ids).
Proof. unfold confirm_frame. rewrite length_app, length_frame_head, length_id_bytes. lia. Qed.

Lemma user_ack_length : (length user_ack <= 1)%nat.
Proof. unfold user_ack. case_decide; simpl; lia. Qed.

Lemma EncodeConfirm_spec n len last : 0 <= last <= num r -> 14 < len <= n -> n <= 60000 ->
  exists last' m buf, let ids := filter (fun id => got id = true) (seqZ (last + 1) (last' - last)) in
    EncodeFileHeaderConfirmFrame r last (zeros (Z.to_nat n)) len = Some (last', m, buf) /\
    last <= last' <= num r /\ (last < num r -> last < last') /\
    m = 8 + 2 * Z.of_nat (length (user_ack ++ ids)) /\ m <= len /\
    take (Z.to_nat m) buf = confirm_frame 0 (user_ack ++ ids).
Proof.
  intros Hlast Hlen Hn. pose proof (wf_num _ Hwf) as Hnum. unfold EncodeFileHeaderConfirmFrame, DFILE_FRAME_HEADER_LEN.
  rewrite (wrap_small 64) by (simpl Z.pow; lia). rewrite zeros_head by lia.
  set (rest := zeros (Z.to_nat (n - 8))).
  assert (exists rest0, (if negb (Z.land (userDataFlag r) NSTACKX_DFILE_HEADER_FRAME_USER_DATA_FLAG =? 0) &&
         negb (Z.land (userDataFlag r) NSTACKX_FLAGS_FILE_NAME_RECEIVED =? 0)
      then buf ← put (frame_head 0 0 0 0 0 ++ rest) 8 (be_bytes 2 0); Some (1, buf)
      else Some (0, frame_head 0 0 0 0 0 ++ rest))
     = Some (Z.of_nat (length user_ack), frame_head 0 0 0 0 0 ++ id_bytes user_ack ++ rest0) /\
     Z.of_nat (length rest0) = n - 8 - 2 * Z.of_nat (length user_ack)) as (rest0 & -> & Hrest0).
  { assert (Z.of_nat (length rest) = n - 8) as Hr by (unfold rest, zeros; rewrite length_replicate; lia).
    unfold user_ack. destruct (decide (opened r /\ received r 0)) as [[H1 H2]|Hno]; rewrite received_0 in *; unfold opened in *.
    - replace (_ && _) with true by (symmetry; rewrite andb_true_iff, !negb_true_iff, !Z.eqb_neq; done).
      destruct rest as [|x [|y rest0]]; simpl in Hr; [lia..|]. change (x :: y :: rest0) with ([x; y] ++ rest0).
      rewrite put_mid by (rewrite ?length_frame_head, ?length_be_bytes; done || lia). exists rest0. split; [done|]. simpl. lia.
    - replace (_ && _) with false; [exists rest; split; [done|simpl; lia]|].
      symmetry. apply not_true_is_false. by rewrite andb_true_iff, !negb_true_iff, !Z.eqb_neq. }
  cbn [mbind option_bind]. pose proof user_ack_length as Hua.
  assert (3 <= Z.shiftr (len - 8) 1 <= (n - 8) / 2) as HB.
  { rewrite Z.shiftr_div_pow2 by lia. change (2 ^ 1) with 2. pose proof (Z.div_mod (len - 8) 2).
    split; [apply Z.div_le_lower_bound; lia|apply Z.div_le_mono; lia]. }
  assert (2 * Z.shiftr (len - 8) 1 <= len - 8) as HB2.
  { rewrite Z.shiftr_div_pow2 by lia. apply Z.mul_div_le. lia. }
  destruct (encode_acks_spec (len - 8) (Z.to_nat (num r) + 1) last (frame_head 0 0 0 0 0) user_ack rest0)
    as (last' & rest' & Heq & Hl & Hids & Hprog); [lia..|by rewrite length_frame_head|lia|].
  cbn zeta in Heq, Hids |- *. rewrite Heq. cbn [mbind option_bind].
  set (ids := user_ack ++ _) in *. rewrite (wrap_small 16) by (simpl Z.pow; lia).
  rewrite put_type. cbn [mbind option_bind]. rewrite put_flag. cbn [mbind option_bind]. rewrite put_length. cbn [mbind option_bind].
  exists last'. eexists _, _. split; [reflexivity|]. fold ids. split; [done|]. split; [lia|]. split; [lia|]. split; [lia|].
  rewrite app_assoc, take_app_length'; [|rewrite length_app, length_frame_head, length_id_bytes; lia].
  unfold confirm_frame. f_equal. f_equal. lia.
Qed.
End encoding.

(** One frame sent by the receiver. *)
Lemma SendFrame_r_ok e s buf len next frame :
  writes_ok e -> alive s = true -> 8 <= len <= 14720 ->
  SetDfileFrameTransID buf (transId (tr s)) = Some frame -> (Z.to_nat len <= length frame)%nat ->
  SendFrame_r e buf len next s
    = Ok (NSTACKX_EOK, next) (s <| tick := S (tick s) |> <| out := out s ++ [Sent (take (Z.to_nat len) frame)] |>).
Proof.
  intros Hw Ha Hlen Hf Hl. unfold SendFrame_r, SendFrame, bind, get. rewrite Ha. unfold lift. rewrite Hf.
  unfold ask. rewrite Hw, length_take. rewrite i32_small by lia.
  replace (Z.of_nat (Z.to_nat len `min` length frame) =? len) with true by bool_lia. cbn. by rewrite Ha.
Qed.

(** The loop of [SendFileHeaderConfirm] confirms every name received so far, in
    frames of at most [mtu] bytes, and ends. *)
Lemma confirm_loop_spec e fuel next s :
  let t := tr s in let r := fileList t in
  writes_ok e -> alive s = true -> wf r ->
  0 <= lastAckedHeaderFileId t <= num r -> 14 < mtu t <= 14720 ->
  num r - lastAckedHeaderFileId t < Z.of_nat fuel ->
  exists idss,
    confirm_loop e fuel next s = Ok (inr next)
      (mkSt (t <| lastAckedHeaderFileId := num r |>) true (transFlag s) (recvListOverIo_ s)
         (tick s + length idss) (out s ++ ((fun ids => Sent (confirm_frame (transId t) (user_ack r ++ ids))) <$> idss))) /\
    concat idss = filter (fun id => got r id = true)
                    (seqZ (lastAckedHeaderFileId t + 1) (num r - lastAckedHeaderFileId t)) /\
    idss <> [] /\ Forall (fun ids => 8 + 2 * Z.of_nat (length (user_ack r ++ ids)) <= mtu t) idss.
Proof.
  cbn zeta. intros Hw. revert s. induction fuel as [|fuel IH]; intros s Ha Hwf Hl Hm Hf; [lia|].
  set (t := tr s) in *. set (r := fileList t) in *.
  destruct (EncodeConfirm_spec r Hwf 14720 (mtu t) (lastAckedHeaderFileId t))
    as (last' & m & buf & Heq & Hl' & Hprog & Hm1 & Hm2 & Htake); [lia..|].
  cbn zeta in Hm1, Htake. set (ids := filter _ _) in Htake, Hm1.
  cbn [confirm_loop]. unfold bind at 1. unfold get at 1. rewrite Ha. fold t. fold r.
  unfold bind at 1. unfold sendBuffer, NSTACKX_MAX_FRAME_SIZE. rewrite Heq. cbn [lift].
  set (frame tr := confirm_frame tr (user_ack r ++ ids)) in *.
  assert (SetDfileFrameTransID buf (transId t) = Some (frame (transId t) ++ drop (Z.to_nat m) buf)) as Hset.
  { rewrite <- (take_drop (Z.to_nat m) buf) at 1. rewrite Htake. unfold frame, confirm_frame.
    rewrite <- !app_assoc. by rewrite put_trans. }
  pose proof (length_confirm_frame (transId t) (user_ack r ++ ids)) as Hlen.
  unfold bind at 1. rewrite (SendFrame_r_ok e s buf m next (frame (transId t) ++ drop (Z.to_nat m) buf) Hw Ha);
    [|lia|done|rewrite length_app; unfold frame; lia].
  rewrite take_app_length' by (unfold frame; lia). cbn [negb Z.eqb NSTACKX_EOK].
  unfold bind at 1. unfold modify at 1. cbn [alive]. rewrite Ha. cbn [tr]. rewrite wf_GetNum by done.
  destruct (last' =? num r) eqn:Elast.
  - exists [ids]. split; [|split; [|split]].
    + unfold ret. f_equal. replace last' with (num r) by lia. unfold t. simpl. by rewrite Nat.add_1_r.
    + simpl. rewrite app_nil_r. unfold ids. by replace last' with (num r) by lia.
    + done.
    + constructor; [|done]. lia.
  - set (s1 := mkSt (t <| lastAckedHeaderFileId := last' |>) true (transFlag s) (recvListOverIo_ s)
                 (S (tick s)) (out s ++ [Sent (frame (transId t))])).
    destruct (IH s1) as (idss & Hrun & Hids & _ & Hsmall); try done.
    { cbn [tr s1 lastAckedHeaderFileId fileList]. fold r. lia. }
    { cbn [tr s1 lastAckedHeaderFileId fileList]. fold r. lia. }
    exists (ids :: idss). split; [|split; [|split]].
    + match goal with |- confirm_loop _ _ _ ?s0 = _ => change s0 with s1 end. rewrite Hrun.
      cbn [tr s1 fileList lastAckedHeaderFileId transId transFlag recvListOverIo_ tick out].
      fold r. rewrite fmap_cons, <- app_assoc. cbn [length app]. by rewrite Nat.add_succ_r.
    + cbn [concat]. rewrite Hids. cbn [tr s1 lastAckedHeaderFileId fileList]. fold r. unfold ids.
      rewrite <- filter_app. f_equal.
      replace (num r - lastAckedHeaderFileId t) with ((last' - lastAckedHeaderFileId t) + (num r - last')) by lia.
      rewrite seqZ_app by lia. f_equal. f_equal. lia.
    + done.
    + constructor; [lia|done].
Qed.

(** ** Delivery of confirmation frames *)

(** A received datagram of type confirmation. *)
Definition deliver_ack (s : FileList) (w : list byte) : option FileList :=
  c ← DecodeDFileFrame w;
  if c =? NSTACKX_EOK then snd <$> DecodeFileHeaderConfirmFrame s w else Some s.

Fixpoint deliver_acks (s : FileList) (ws : list (list byte)) : option FileList :=
  match ws with [] => Some s | w :: ws => s ← deliver_ack s w; deliver_acks s ws end.

(** [s'] is [s] with the names of [ids] acknowledged. *)
Record acked_by (ids : list Z) (s s' : FileList) : Prop := {
  acked_wf : wf s';
  acked_rest : s' = s <| files := files s' |> <| userDataFlag := userDataFlag s' |>;
  acked_entry : forall j, entry s' j = (if decide (j + 1 ∈ ids) then or_flags NSTACKX_FLAGS_FILE_NAME_ACK else id)
                                         <$> entry s j;
  acked_user : userDataFlag s' = if decide (0 ∈ ids) then Z.lor (userDataFlag s) NSTACKX_FLAGS_USER_DATA_ACK
                                 else userDataFlag s
}.

Lemma acked_by_nil s : wf s -> acked_by [] s s.
Proof. intros Hwf. constructor; [done|by destruct s| |done]. intros j. by destruct (entry s j). Qed.

Lemma acked_by_app ids ids' s s' s'' : acked_by ids s s' -> acked_by ids' s' s'' -> acked_by (ids ++ ids') s s''.
Proof.
  intros H1 H2. constructor.
  - apply H2.
  - rewrite (acked_rest _ _ _ H2). rewrite (acked_rest _ _ _ H1). done.
  - intros j. rewrite (acked_entry _ _ _ H2), (acked_entry _ _ _ H1).
    destruct (entry s j) as [en|]; [|done]. simpl. f_equal.
    destruct (decide (j + 1 ∈ ids)), (decide (j + 1 ∈ ids')), (decide (j + 1 ∈ ids ++ ids')) as [Hin|Hin];
      rewrite elem_of_app in Hin; try tauto; simpl; by rewrite ?or_flags_idem.
  - rewrite (acked_user _ _ _ H2), (acked_user _ _ _ H1).
    destruct (decide (0 ∈ ids)), (decide (0 ∈ ids')), (decide (0 ∈ ids ++ ids')) as [Hin|Hin];
      rewrite elem_of_app in Hin; try tauto; by rewrite <- ?Z.lor_assoc, ?Z.lor_diag.
Qed.

Lemma acked_by_one s id : wf s -> 0 <= id <= num s ->
  exists s', FileListSetFileNameAcked s id = Some s' /\ acked_by [id] s s'.
Proof.
  intros Hwf Hid. unfold FileListSetFileNameAcked. destruct (id =? 0) eqn:E0.
  - assert (id = 0) as -> by lia. eexists. split; [done|]. constructor.
    + done.
    + done.
    + intros j. match goal with |- entry ?x j = _ => change (entry x j) with (entry s j) end.
      destruct (decide (j + 1 ∈ [0])) as [Hj|]; [|by destruct (entry s j)]. apply list_elem_of_singleton in Hj.
      assert (entry s j = None) as ->; [|done]. unfold entry. destruct (files s); [|done].
      cbn [mbind option_bind]. by replace (j <? 0) with true by bool_lia.
    + by rewrite decide_True by (by left).
  - destruct (wf_set_entry s (id - 1) (or_flags NSTACKX_FLAGS_FILE_NAME_ACK) Hwf) as (s' & -> & Hwf' & E & Hent).
    { lia. }
    { intros ?. apply wf_or_flags. unfold NSTACKX_FLAGS_FILE_NAME_ACK. lia. }
    assert (userDataFlag s' = userDataFlag s) as Hu by (rewrite E; done).
    exists s'. split; [done|]. constructor; [done| | |].
    + rewrite Hu. rewrite E at 1. by destruct s.
    + intros j. rewrite Hent. destruct (decide (j = id - 1)) as [->|Hj].
      * rewrite decide_True by (apply list_elem_of_singleton; lia). done.
      * rewrite decide_False by (rewrite list_elem_of_singleton; lia). by destruct (entry s j).
    + rewrite decide_False; [done|]. rewrite list_elem_of_singleton. lia.
Qed.

Lemma acked_by_num ids s s' : acked_by ids s s' -> num s' = num s.
Proof. intros H. by rewrite (acked_rest _ _ _ H). Qed.

Lemma decode_acks_spec ids i a c s : wf s -> Forall (fun id => 0 <= id <= num s) ids ->
  Z.of_nat (length a) = DFILE_FRAME_HEADER_LEN + 2 * i ->
  exists s', decode_acks (a ++ id_bytes ids ++ c) i (length ids) s = Some s' /\ acked_by ids s s'.
Proof.
  unfold DFILE_FRAME_HEADER_LEN. revert i a s. induction ids as [|x ids IH]; intros i a s Hwf Hids Ha.
  { exists s. split; [done|]. by apply acked_by_nil. }
  apply Forall_cons in Hids as [Hx Hids]. pose proof (wf_num _ Hwf) as Hn. unfold NSTACKX_DFILE_MAX_FILE_NUM in Hn.
  cbn [length decode_acks]. unfold DFILE_FRAME_HEADER_LEN. rewrite id_bytes_cons, <- app_assoc.
  rewrite (be_at_mid_small 2 a) by (simpl; lia). cbn [mbind option_bind]. rewrite wf_GetNum by done.
  replace (x >? num s) with false by bool_lia.
  destruct (acked_by_one s x Hwf Hx) as (s1 & -> & H1). cbn [mbind option_bind]. rewrite app_assoc.
  destruct (IH (i + 1) (a ++ be_bytes 2 x) s1) as (s2 & -> & H2).
  - apply H1.
  - by rewrite (acked_by_num _ _ _ H1).
  - rewrite length_app, length_be_bytes. lia.
  - exists s2. split; [done|]. by eapply (acked_by_app [x] ids).
Qed.

Lemma deliver_ack_frame s trans ids : wf s -> Forall (fun id => 0 <= id <= num s) ids ->
  Z.of_nat (length ids) < 30000 ->
  exists s', deliver_ack s (confirm_frame trans ids) = Some s' /\ acked_by ids s s'.
Proof.
  intros Hwf Hids Hl. unfold deliver_ack, confirm_frame.
  rewrite head_accepted by (rewrite ?length_id_bytes; lia). cbn [mbind option_bind Z.eqb NSTACKX_EOK].
  unfold DecodeFileHeaderConfirmFrame. rewrite head_length_at by lia. cbn [mbind option_bind].
  destruct ids as [|id ids]; [exists s; split; [done|by apply acked_by_nil]|].
  set (l := id :: ids) in *. assert (0 < Z.of_nat (length l)) by (simpl; lia).
  rewrite Z.mul_comm, Z.mod_mul by lia. replace (_ || _) with false by bool_lia.
  rewrite Z.shiftr_div_pow2 by lia. change (2 ^ 1) with 2. rewrite Z.div_mul by lia.
  rewrite (wrap_small 16) by (simpl Z.pow; lia). rewrite Nat2Z.id.
  destruct (decode_acks_spec l 0 (frame_head NSTACKX_DFILE_FILE_HEADER_CONFIRM_FRAME 0 0 trans (Z.of_nat (length l) * 2)) [] s)
    as (s' & Hs' & H'); [done..|by rewrite length_frame_head|].
  rewrite app_nil_r in Hs'. rewrite Hs'. by exists s'.
Qed.

(** Flags change nothing of what the sender offers. *)
Section offered.
Context (stat : list byte -> option Z) (s s' : FileList) (Hm : marks s s').

Lemma marks_proj {A} (p : FileListEntry -> A) j : (forall (e : FileListEntry) v, p (e <| flags := v |>) = p e) ->
  p <$> entry s' j = p <$> entry s j.
Proof.
  intros Hp. destruct (marks_entry _ _ Hm j) as [e e' [E _]|]; [|done]. simpl. f_equal. rewrite E. apply Hp.
Qed.

Lemma marks_tar_loop i n total : tar_loop stat s' i n total = tar_loop stat s i n total.
Proof.
  revert i total. induction n as [|n IH]; intros i total; [done|]. cbn [tar_loop].
  pose proof (marks_proj fullFileName i ltac:(done)) as Hf.
  destruct (entry s' i), (entry s i); try done. cbn [mbind option_bind]. injection Hf as ->.
  destruct (fullFileName f0); [|done]. cbn [mbind option_bind]. destruct (stat l); [|done]. apply IH.
Qed.

Lemma marks_info id : file_info stat s' id = file_info stat s id.
Proof.
  unfold file_info, FileListGetRemotePath, FileListGetFileName, FileListGetFileSize, GetTarTotalBlockLength.
  rewrite !marks_tar_loop, !marks_proj by done. rewrite (marks_rest _ _ Hm). done.
Qed.

Lemma marks_header_num : header_num s' = header_num s.
Proof. unfold header_num. by rewrite (marks_rest _ _ Hm). Qed.

Lemma marks_offer : offer stat s -> offer stat s'.
Proof.
  intros [Hwf Hn Hfile Hpath Hpacked Huser]. pose proof marks_header_num as Hh.
  rewrite (marks_rest _ _ Hm) in Hh |- *. constructor; rewrite ?Hh; try done.
  - rewrite <- (marks_rest _ _ Hm). apply Hm.
  - rewrite <- (marks_rest _ _ Hm). intros id Hid. rewrite marks_info. by apply Hfile.
Qed.

Lemma marks_agrees r : agrees stat s r -> agrees stat s' r.
Proof.
  intros [Hwf Hn Hent Huser Hflag Hopen Htar].
  assert (userData s' = userData s /\ pathType s' = pathType s) as [Hu Hp] by (by rewrite (marks_rest _ _ Hm)).
  constructor; try done.
  - by rewrite marks_header_num.
  - intros id e Hid He. specialize (Hent id e Hid He). unfold entry_agrees in *. by rewrite marks_info.
  - by rewrite Hu, Hp.
  - unfold has_user. by rewrite Hu, Hp.
Qed.
End offered.

Section acknowledged.
Context (ids : list Z) (s s' : FileList) (Hack : acked_by ids s s').

Lemma acked_by_marks : marks s s'.
Proof.
  constructor; [apply Hack|apply Hack| |].
  - intros j. rewrite (acked_entry _ _ _ Hack). destruct (entry s j) as [en|]; constructor.
    case_decide; [split; [done|apply keeps_lor]|split; [by destruct en|apply keeps_refl]].
  - rewrite (acked_user _ _ _ Hack). case_decide; [apply keeps_lor|apply keeps_refl].
Qed.

Lemma acked_opened : opened s' <-> opened s.
Proof.
  unfold opened. rewrite (acked_user _ _ _ Hack). case_decide; [|done]. rewrite Z.land_lor_distr_l.
  change (Z.land NSTACKX_FLAGS_USER_DATA_ACK _) with 0. by rewrite Z.lor_0_r.
Qed.

Lemma acked_iff id : 0 <= id <= num s -> wf s -> acked s' id <-> acked s id \/ id ∈ ids.
Proof.
  intros Hid Hwf. unfold acked, FileListGetFileNameAcked. destruct (id =? 0) eqn:E0.
  - assert (id = 0) as -> by lia. rewrite (acked_user _ _ _ Hack). destruct (decide (0 ∈ ids)) as [Hin|Hin].
    + split; [by right|]. intros _. eexists. split; [done|]. rewrite Z.lor_comm. by apply land_lor_keep.
    + tauto.
  - destruct (wf_entry_in s (id - 1) Hwf) as (e & He & _); [lia|]. rewrite (acked_entry _ _ _ Hack), He. simpl.
    replace (id - 1 + 1) with id by lia. destruct (decide (id ∈ ids)) as [Hin|Hin].
    + split; [by right|]. intros _. eexists. split; [done|]. cbn [flags or_flags]. rewrite Z.lor_comm. by apply land_lor_keep.
    + simpl. tauto.
Qed.
End acknowledged.

Lemma id_bytes_inj l l' : Forall (fun id => 0 <= id < 65536) l -> Forall (fun id => 0 <= id < 65536) l' ->
  id_bytes l = id_bytes l' -> l = l'.
Proof.
  intros Hl. revert l'. induction Hl as [|x l Hx Hl IH]; intros l' Hl' E.
  - apply (f_equal length) in E. rewrite !length_id_bytes in E. destruct l'; [done|simpl in E; lia].
  - destruct Hl' as [|y l' Hy Hl'].
    { apply (f_equal length) in E. rewrite !length_id_bytes in E. simpl in E; lia. }
    rewrite !id_bytes_cons in E. apply app_inj_1 in E as [E1 E2]; [|by rewrite !length_be_bytes].
    f_equal; [|by apply IH]. apply (f_equal be_val) in E1. rewrite !be_val_bytes in E1.
    rewrite !Z.mod_small in E1 by (simpl Z.pow; lia). done.
Qed.

Lemma deliver_ack_frames trans idss ws s : wf s ->
  Forall (fun ids => Forall (fun id => 0 <= id <= num s) ids /\ Z.of_nat (length ids) < 30000) idss ->
  (forall w, w ∈ ws -> w ∈ confirm_frame trans <$> idss) ->
  exists s' ids, deliver_acks s ws = Some s' /\ acked_by ids s s' /\
    forall id, id ∈ ids <-> exists l, l ∈ idss /\ confirm_frame trans l ∈ ws /\ id ∈ l.
Proof.
  revert s. induction ws as [|w ws IH]; intros s Hwf Hidss Hws.
  { exists s, []. split; [done|]. split; [by apply acked_by_nil|]. intros id.
    split; [by intros ?%elem_of_nil|]. by intros (? & _ & ?%elem_of_nil & _). }
  pose proof (Hws w ltac:(by left)) as (l & -> & Hin)%list_elem_of_fmap.
  destruct (proj1 (Forall_forall _ _) Hidss l Hin) as [Hv Hl]. cbn [deliver_acks].
  destruct (deliver_ack_frame s trans l Hwf Hv Hl) as (s1 & Hs1 & H1). rewrite Hs1. cbn [mbind option_bind].
  destruct (IH s1) as (s2 & ids & -> & H2 & Hiff).
  { apply H1. }
  { by rewrite (acked_by_num _ _ _ H1). }
  { intros w' Hw'. apply Hws. by right. }
  exists s2, (l ++ ids). split; [done|]. split; [by eapply acked_by_app|]. intros id. rewrite elem_of_app, Hiff. split.
  - intros [Hid|(l' & ? & ? & ?)]; [exists l|exists l']; (split; [done|]); (split; [|done]); [by left|by right].
  - intros (l' & Hl' & [E|Hlater]%elem_of_cons & Hid); [|by right; exists l']. left.
    destruct (proj1 (Forall_forall _ _) Hidss l' Hl') as [Hv' _].
    pose proof (wf_num _ Hwf) as Hn. unfold NSTACKX_DFILE_MAX_FILE_NUM in Hn.
    apply app_inj_1 in E as [_ E]; [|by rewrite !length_frame_head]. apply id_bytes_inj in E; [by subst l'| |];
      (eapply Forall_impl; [eassumption|]; simpl; lia).
Qed.

(** The ids of the confirmation frames are those of the units that arrived. *)
Lemma confirmed_iff stat s r idss : agrees stat s r -> idss <> [] ->
  concat idss = filter (fun id => got r id = true) (seqZ 1 (num r)) ->
  forall id, (exists l, l ∈ app (user_ack r) <$> idss /\ id ∈ l) <-> 0 <= id <= num r /\ received r id.
Proof.
  intros Hag Hne Hids id. pose proof (wf_num _ (agrees_wf _ _ _ Hag)) as Hn.
  assert (id ∈ concat idss <-> 1 <= id <= num r /\ received r id) as Hc.
  { rewrite Hids, list_elem_of_filter, elem_of_seqZ. split.
    - intros [Hg ?]. split; [lia|]. apply got_received; [lia|done].
    - intros [? Hr]. split; [|lia]. apply got_received; [lia|done]. }
  assert (id ∈ user_ack r <-> id = 0 /\ received r 0) as Hu.
  { unfold user_ack. destruct (decide _) as [[_ Hr]|Hno]; [rewrite list_elem_of_singleton; tauto|].
    split; [by intros ?%elem_of_nil|]. intros [_ Hr]. destruct Hno. split; [by apply (agrees_open _ _ _ Hag)|done]. }
  split.
  - intros (l & (ids & -> & Hin)%list_elem_of_fmap & [H0|H1]%elem_of_app).
    + apply Hu in H0 as [-> ?]. split; [lia|done].
    + assert (id ∈ concat idss) as [? ?]%Hc by (apply list_elem_of_In, in_concat; exists ids; by rewrite <- !list_elem_of_In).
      split; [lia|done].
  - intros [Hid Hr]. destruct (decide (id = 0)) as [->|].
    + destruct idss as [|ids idss]; [done|]. exists (user_ack r ++ ids). split; [by left|]. apply elem_of_app. left. by apply Hu.
    + assert (id ∈ concat idss) as Hin by (apply Hc; split; [lia|done]).
      apply list_elem_of_In, in_concat in Hin as (ids & H1 & H2). rewrite <- list_elem_of_In in H1. rewrite <- list_elem_of_In in H2.
      exists (user_ack r ++ ids). split; [by apply list_elem_of_fmap_2|]. apply elem_of_app. by right.
Qed.

(** All names received, all names acknowledged. *)
Lemma all_acked stat s s' r : offer stat s' -> agrees stat s' r -> (opened s' <-> opened s) ->
  (forall id, 0 <= id <= header_num s' -> received r id -> acked s' id) ->
  FileListAllFileNameReceived r = Some true -> (opened s -> opened r) -> FileListAllFileNameAcked s' = Some true.
Proof.
  intros Ho Hag Hop Hack Hall Hopen. pose proof (offer_num _ _ Ho) as Hn.
  pose proof (offer_wf _ _ Ho) as Hwf. revert Hall. unfold FileListAllFileNameReceived, all_or_tar.
  rewrite (agrees_tar _ _ _ Hag). cbn [Z.eqb NSTACKX_TRUE].
  destruct (num r =? 0) eqn:E0; [done|]. destruct (_ && _) eqn:Eu; [done|]. intros Hflags. pose proof (all_flags_inv _ _ _ _ Hflags) as Hfl. clear Hflags.
  assert (files r <> None) as Hf.
  { intros Hf. pose proof (agrees_wf _ _ _ Hag) as Hw. unfold wf in Hw. rewrite Hf in Hw. lia. }
  pose proof (agrees_num _ _ _ Hag Hf) as Hnum.
  assert (forall j, 0 <= j < header_num s' -> exists e, entry s' j = Some e /\ Z.land (flags e) NSTACKX_FLAGS_FILE_NAME_ACK <> 0) as Hent.
  { intros j Hj. destruct (Hack (j + 1)) as (a & Ha & Ha0).
    - lia.
    - unfold received. rewrite decide_False by lia. replace (j + 1 - 1) with j by lia. apply Hfl. lia.
    - revert Ha. unfold FileListGetFileNameAcked. replace (j + 1 =? 0) with false by bool_lia.
      replace (j + 1 - 1) with j by lia. destruct (entry s' j) as [en|]; [|done]. simpl. intros [= <-]. by exists en. }
  unfold FileListAllFileNameAcked. replace (_ && _) with false.
  - unfold all_or_tar. unfold header_num in Hent. destruct (tarFlag s' =? NSTACKX_TRUE).
    + destruct (Hent 0) as (en & -> & Hen); [lia|]. cbn [mbind option_bind]. f_equal. by apply negb_true_iff, Z.eqb_neq.
    + apply all_flags_true. intros j Hj. apply Hent. rewrite wf_GetNum by done. lia.
  - symmetry. apply andb_false_iff.
    destruct (Z.land (userDataFlag s') NSTACKX_DFILE_HEADER_FRAME_USER_DATA_FLAG =? 0) eqn:E1; [by left|right]. apply Z.eqb_neq in E1.
    assert (received r 0) as Hr.
    { apply received_0. specialize (Hopen (proj1 Hop E1)). unfold opened in Hopen. apply andb_false_iff in Eu as [Eu|Eu].
      - apply negb_false_iff, Z.eqb_eq in Eu. done.
      - by apply Z.eqb_neq. }
    destruct (Hack 0) as (a & [= <-] & Ha0); [lia|done|]. by apply Z.eqb_neq.
Qed.

(** C13: The acknowledgements reach the sender.  When the writes succeed, the loop
    of [SendFileHeaderConfirm] ends, after frames not longer than the MTU; and
    when these frames are delivered in any order and any number of times, the
    sender has an acknowledgement for exactly the units it had one for before and
    those that have arrived at the receiver, and what it offers is unchanged.  If
    the receiver has all names (and was told of the user data, when the sender
    waits for its acknowledgement), the sender has all acknowledgements. *)
Theorem confirm_exchange (e : Env) (fuel : nat) (next : DFileReceiveState) (q : St)
    (stat : list byte -> option Z) (s : FileList)
    (Hw : writes_ok e) (Ha : alive q = true) (Hoffer : offer stat s) (Hag : agrees stat s (fileList (tr q)))
    (Hlast : lastAckedHeaderFileId (tr q) = NSTACKX_RESERVED_FILE_ID) (Hmtu : 14 < mtu (tr q) <= 14720)
    (Hfuel : num (fileList (tr q)) < Z.of_nat fuel) :
  let r := fileList (tr q) in
  exists q' frames, confirm_loop e fuel next q = Ok (inr next) q' /\
    out q' = out q ++ (Sent <$> frames) /\ fileList (tr q') = r /\
    Forall (fun f => Z.of_nat (length f) <= mtu (tr q)) frames /\
    forall ws, (forall w, w ∈ ws <-> w ∈ frames) ->
    exists s', deliver_acks s ws = Some s' /\ offer stat s' /\ agrees stat s' r /\
      (forall id, 0 <= id <= header_num s -> acked s' id <-> acked s id \/ received r id) /\
      (FileListAllFileNameReceived r = Some true -> (opened s -> opened r) -> FileListAllFileNameAcked s' = Some true).
Proof.
  intros r. unfold NSTACKX_RESERVED_FILE_ID in Hlast. pose proof (agrees_wf _ _ _ Hag) as Hwf. fold r in Hag, Hwf, Hfuel.
  pose proof (wf_num _ Hwf) as Hn. pose proof (offer_num _ _ Hoffer) as Hh.
  destruct (confirm_loop_spec e fuel next q) as (idss & -> & Hids & Hne & Hsmall); try done; [fold r; lia..|].
  fold r in Hids, Hsmall |- *. rewrite Hlast in Hids. cbn in Hids. rewrite Z.sub_0_r in Hids.
  eexists _, (confirm_frame (transId (tr q)) <$> (app (user_ack r) <$> idss)). split; [reflexivity|]. cbn [out tr fileList].
  split; [by rewrite <- !list_fmap_compose|]. split; [done|]. split.
  { apply Forall_fmap, Forall_fmap. eapply Forall_impl; [exact Hsmall|]. intros ids. unfold compose.
    by rewrite length_confirm_frame. }
  intros ws Hws. assert (header_num s = num r \/ num r = 0) as Hnum.
  { destruct (decide (files r = None)) as [Hf|Hf]; [right|left; symmetry; by apply (agrees_num _ _ _ Hag)].
    unfold wf in Hwf. by rewrite Hf in Hwf. }
  pose proof (confirmed_iff stat s r idss Hag Hne Hids) as Hconf.
  destruct (deliver_ack_frames (transId (tr q)) (app (user_ack r) <$> idss) ws s) as (s' & ids & Hd & Hack & Hiff).
  - apply Hoffer.
  - apply Forall_forall. intros l Hl. split.
    + apply Forall_forall. intros id Hid. assert (0 <= id <= num r /\ received r id) by (apply Hconf; by exists l). lia.
    + apply list_elem_of_fmap in Hl as (ids & -> & Hl). pose proof (proj1 (Forall_forall _ _) Hsmall ids Hl). simpl in *. lia.
  - intros w. apply Hws.
  - pose proof (acked_by_marks _ _ _ Hack) as Hm.
    assert (forall id, 0 <= id <= header_num s -> acked s' id <-> acked s id \/ received r id) as Hiff'.
    { intros id Hid. rewrite (acked_iff _ _ _ Hack) by (lia || apply Hoffer).
      assert (id ∈ ids <-> received r id); [|tauto]. rewrite Hiff. split.
      - intros (l & Hl & _ & Hin). apply (Hconf id). by exists l.
      - intros Hr. destruct (proj2 (Hconf id)) as (l & Hl & Hin).
        + split; [|done]. destruct Hnum as [|H0]; [lia|]. unfold received in Hr. destruct (decide (id = 0)); [lia|].
          destruct Hr as (en & Hen & _). unfold entry in Hen. unfold wf in Hwf. destruct (files r); [lia|done].
        + exists l. split; [done|]. split; [|done]. apply Hws. by apply list_elem_of_fmap_2. }
    exists s'. split; [done|]. split; [by apply (marks_offer stat s s')|]. split; [by apply (marks_agrees stat s s')|]. split; [done|].
    apply (all_acked stat s s' r); [by apply (marks_offer stat s s')|by apply (marks_agrees stat s s')| |].
    + by eapply acked_opened.
    + rewrite (marks_header_num _ _ Hm). intros id Hid Hr. apply Hiff'; [done|by right].
Qed.

Lemma example_agrees : agrees (fun _ => None) (example_offer 0 1) (example_offer NSTACKX_FLAGS_FILE_NAME_RECEIVED 3).
Proof.
  constructor; try done.
  - by apply (offer_wf _ _ (example_offers 2 3 ltac:(lia))).
  - intros id en Hid. unfold entry. cbn [files example_offer mbind option_bind]. case_if; [done|].
    intros He. pose proof (lookup_lt_Some _ _ _ He) as Hl. simpl in Hl. assert (id = 1) as -> by lia.
    injection He as <-. unfold entry_agrees. rewrite decide_False by done. split; [by vm_compute|done].
  - by left.
Qed.

Lemma confirm_exchange_witness :
  exists q' frames, confirm_loop example_env 9 STATE_SEND_FILE_HEADER_CONFIRM
      (example_st false (example_offer NSTACKX_FLAGS_FILE_NAME_RECEIVED 3) 0 0) = Ok (inr STATE_SEND_FILE_HEADER_CONFIRM) q' /\
    out q' = Sent <$> frames /\
    forall ws, (forall w, w ∈ ws <-> w ∈ frames) ->
    exists s', deliver_acks (example_offer 0 1) ws = Some s' /\ FileListAllFileNameAcked s' = Some true.
Proof.
  destruct (confirm_exchange example_env 9 STATE_SEND_FILE_HEADER_CONFIRM
              (example_st false (example_offer NSTACKX_FLAGS_FILE_NAME_RECEIVED 3) 0 0) (fun _ => None) (example_offer 0 1))
    as (q' & frames & Hrun & Hout & _ & _ & Hws).
  - by intros k frame.
  - done.
  - by apply example_offers.
  - apply example_agrees.
  - done.
  - done.
  - by vm_compute.
  - exists q', frames. split; [exact Hrun|]. split; [exact Hout|]. intros ws Hw.
    destruct (Hws ws Hw) as (s' & Hd & _ & _ & _ & Hall). exists s'. split; [exact Hd|].
    apply Hall; [by vm_compute|done].
Defined.
End DFileConfirm.
