(* ===== verification/DFileLogic.v ===== *)
(** * DFile: reasoning about the transfer monad

    A weakest-precondition calculus for the monad of [DFileTransfer], the part of
    the state the invariants speak about (the view), and the effect of the
    operations that both sides share. *)

From S2P Require Import Prelude DFileList DFileFrame DFileHandshake DFileTransfer.

Module DFileLogic.
Import DFileList DFileFrame DFileHandshake DFileTransfer.
#[local] Open Scope dfile_scope.

(** ** Weakest preconditions *)

(** The computation does not fault, and what it returns satisfies [Q]. *)
Definition wp {A} (m : M A) (Q : A -> St -> Prop) (s : St) : Prop :=
  match m s with Ok a s' => Q a s' | Fault => False | OutOfFuel => True end.

Section rules.
Context {A B : Type}.
Implicit Types (Q : A -> St -> Prop) (s : St).

Lemma wp_mono (m : M A) Q Q' s : wp m Q s -> (forall a s', Q a s' -> Q' a s') -> wp m Q' s.
Proof. unfold wp. destruct (m s); auto. Qed.

Lemma wp_bind (m : M B) (k : B -> M A) Q s : wp m (fun b s' => wp (k b) Q s') s -> wp (bind m k) Q s.
Proof. unfold wp, bind. by destruct (m s). Qed.

Lemma wp_ret a Q s : Q a s -> wp (ret a) Q s.
Proof. done. Qed.

Lemma wp_fuel Q s : wp out_of_fuel Q s.
Proof. done. Qed.

Lemma wp_lift o a Q s : o = Some a -> Q a s -> wp (lift o) Q s.
Proof. by intros ->. Qed.

Lemma wp_ask (f : nat -> A) Q s : Q (f (tick s)) (s <| tick := S (tick s) |>) -> wp (ask f) Q s.
Proof. done. Qed.
End rules.

Lemma wp_get (Q : DFileTrans -> St -> Prop) s : alive s = true -> Q (tr s) s -> wp get Q s.
Proof. unfold wp, get. by intros ->. Qed.

Lemma wp_modify (f : DFileTrans -> DFileTrans) (Q : unit -> St -> Prop) s : alive s = true -> Q tt (s <| tr := f (tr s) |>) -> wp (modify f) Q s.
Proof. unfold wp, modify. by intros ->. Qed.

Lemma wp_modify_list (f : FileList -> option FileList) (fl : FileList) (Q : unit -> St -> Prop) s : alive s = true -> f (fileList (tr s)) = Some fl ->
  (let t := tr s in Q tt (s <| tr := t <| fileList := fl |> |>)) -> wp (modify_list f) Q s.
Proof. unfold wp, modify_list. by intros -> ->. Qed.

Lemma wp_emit ev (Q : unit -> St -> Prop) s : Q tt (s <| out := out s ++ [ev] |>) -> wp (emit ev) Q s.
Proof. done. Qed.

Lemma wp_free (Q : unit -> St -> Prop) s : Q tt (s <| alive := false |>) -> wp free_trans Q s.
Proof. done. Qed.

(** Reading a postcondition off a run whose end is known. *)
Lemma wp_elim {A} (m : M A) (Q : A -> St -> Prop) (test : St -> bool) (P : St -> Prop) s :
  wp m Q s -> match m s with Ok _ s' => test s' | _ => false end = true ->
  (forall a s', test s' = true -> Q a s' -> P s') ->
  match m s with Ok _ s' => P s' | _ => False end.
Proof. unfold wp. destruct (m s); naive_solver. Qed.

(** ** The view *)

Definition count (p : Event -> bool) (l : list Event) : nat := length (List.filter p l).

Definition is_end_event (ev : Event) : bool := match ev with Notified m _ _ => is_end m | _ => false end.
Definition is_sent_event (ev : Event) : bool := match ev with Notified DFILE_TRANS_MSG_FILE_SENT _ _ => true | _ => false end.
Definition is_received_event (ev : Event) : bool :=
  match ev with Notified DFILE_TRANS_MSG_FILE_RECEIVED _ _ => true | _ => false end.
Definition is_start (ev : Event) : bool := match ev with TaskStarted => true | _ => false end.
Definition is_stop (ev : Event) : bool := match ev with TaskStopped => true | _ => false end.

Lemma count_snoc p l ev : count p (l ++ [ev]) = if p ev then S (count p l) else count p l.
Proof. unfold count. rewrite List.filter_app, length_app. simpl. destruct (p ev); simpl; lia. Qed.

Record View := mkView {
  v_alive : bool;
  v_sender : bool;
  v_send : DFileSendState;
  v_recv : DFileReceiveState;
  v_started : bool;
  v_list : FileList;
  v_names : bool;
  v_done : bool;
  v_data : bool;
  v_notified : bool;
  v_mtu : Z;
  v_lastSent : Z;
  v_lastAcked : Z;
  v_ends : nat;
  v_sent : nat;
  v_received : nat;
  v_starts : nat;
  v_stops : nat
}.
#[export] Instance View_fields : Fields View :=
  {| ctor := mkView;
     projs := (v_alive, v_sender, v_send, v_recv, v_started, v_list, v_names, v_done, v_data, v_notified, v_mtu,
               v_lastSent, v_lastAcked, v_ends, v_sent, v_received, v_starts, v_stops) |}.

Definition view (s : St) : View :=
  let t := tr s in
  mkView (alive s) (isSender t) (sendState t) (recvState t) (fileManagerTaskStarted t) (fileList t)
    (allFileNameReceived t) (fileTransferDoneReceived t) (allFileDataReceived t) (isRecvSucMsgNotified t) (mtu t)
    (lastSentHeaderFileId t) (lastAckedHeaderFileId t) (count is_end_event (out s)) (count is_sent_event (out s))
    (count is_received_event (out s)) (count is_start (out s)) (count is_stop (out s)).

(** An event that changes none of the counters. *)
Definition plain (ev : Event) : bool :=
  negb (is_end_event ev || is_sent_event ev || is_received_event ev || is_start ev || is_stop ev).

Lemma view_out s ev : plain ev = true -> view (s <| out := out s ++ [ev] |>) = view s.
Proof.
  unfold plain. rewrite negb_true_iff, !orb_false_iff. intros ((((H1 & H2) & H3) & H4) & H5).
  unfold view. cbn [out tr alive]. by rewrite !count_snoc, H1, H2, H3, H4, H5.
Qed.

(** Projections of equal views. *)
Lemma view_alive s : v_alive (view s) = alive s.
Proof. done. Qed.

(** The computation leaves the view as it is. *)
Definition quiet {A} (m : M A) (s : St) : Prop := wp m (fun _ s' => view s' = view s) s.

(** One step of a computation that reads and changes the transfer: structural
    rules only, so that the remaining goals are about the operations called. *)
Ltac alive_tac :=
  first [assumption
        | match goal with
          | H : view ?s' = view ?s, Ha : alive ?s = true |- alive ?s' = true =>
              change (v_alive (view s') = true); rewrite H; exact Ha
          end
        | match goal with
          | |- alive ?s' = true => change (v_alive (view s') = true);
              repeat match goal with H : view _ = _ |- _ => rewrite H end; cbn; assumption
          end].
Ltac wp_step :=
  cbv beta zeta;
  match goal with
  | |- wp (bind _ _) _ _ => apply wp_bind
  | |- wp (ret _) _ _ => apply wp_ret
  | |- wp out_of_fuel _ _ => exact I
  | |- wp get _ _ => apply wp_get; [alive_tac|]
  | |- wp (modify _) _ _ => apply wp_modify; [alive_tac|]
  | |- wp (ask _) _ _ => apply wp_ask
  | |- wp (ClockGetTime _) _ _ => apply wp_ask
  | |- wp (GetElapseTime _ _) _ _ => apply wp_bind
  | |- wp (if decide ?P then _ else _) _ _ => destruct (decide P)
  | |- wp (if ?b then _ else _) _ _ => let E := fresh "E" in destruct b eqn:E; try discriminate E
  end.
Ltac wp_steps := repeat wp_step.
(** The effect of an operation is known. *)
Ltac wp_use H := eapply wp_mono; [eapply H|cbv beta; cbn beta iota].

(** The operations that follow in a handler keep the view. *)
Lemma quiet_then {A B} (m : M A) (k : A -> M B) Q s : alive s = true -> quiet m s ->
  (forall a s', alive s' = true -> view s' = view s -> wp (k a) Q s') -> wp (bind m k) Q s.
Proof.
  intros Ha Hq Hk. wp_step. eapply wp_mono; [exact Hq|]. intros a s' Hv. cbv beta in Hv. apply Hk; [alive_tac|done].
Qed.

(** ** Reading the file list *)

Lemma put_ex buf off bs : 0 <= off -> off + Z.of_nat (length bs) <= Z.of_nat (length buf) ->
  exists buf', put buf off bs = Some buf' /\ length buf' = length buf.
Proof.
  intros H0 H1. unfold put. rewrite (proj2 (andb_true_iff _ _)) by (split; bool_lia).
  eexists. split; [done|]. apply length_splice. lia.
Qed.

Section reading.
Context (fl : FileList) (Hwf : wf fl).

Lemma get_names_ok type i n : 0 <= i -> i + Z.of_nat n <= num fl -> exists l, get_names fl type i n = Some l.
Proof.
  revert i. induction n as [|n IH]; intros i Hi Hn; [by eexists|]. cbn [get_names]. case_if; [by eexists|].
  destruct (wf_entry_in fl i Hwf) as (e & -> & _); [lia|]. cbn [mbind option_bind].
  destruct (IH (i + 1)) as (l & ->); [lia..|]. repeat case_if; by eexists.
Qed.

Lemma names_ok type : exists l, FileListGetNames fl NSTACKX_DFILE_MAX_FILE_NUM type = Some l.
Proof. pose proof (wf_num _ Hwf). apply get_names_ok; lia. Qed.

Lemma files_by_flag_ok v type i n : 0 <= i -> i + Z.of_nat n <= num fl -> exists l, files_by_flag fl v type i n = Some l.
Proof.
  revert i. induction n as [|n IH]; intros i Hi Hn; [by eexists|]. cbn [files_by_flag].
  destruct (wf_entry_in fl i Hwf) as (e & -> & _); [lia|]. cbn [mbind option_bind].
  destruct (IH (i + 1)) as (l & ->); [lia..|]. repeat case_if; by eexists.
Qed.

Lemma by_flag_ok v type : exists l, FileListGetFilesByFlag fl v NSTACKX_DFILE_MAX_FILE_NUM type = Some l.
Proof. pose proof (wf_num _ Hwf). apply files_by_flag_ok; lia. Qed.

Lemma received_ids_ok : exists l, FileListGetReceivedFileIdList fl NSTACKX_DFILE_MAX_FILE_NUM = Some l.
Proof.
  pose proof (wf_num _ Hwf). unfold FileListGetReceivedFileIdList.
  assert (forall n i, 0 <= i -> i + Z.of_nat n <= num fl -> exists l, received_ids fl i n = Some l) as Hall; [|apply Hall; lia].
  induction n as [|n IH]; intros i Hi Hn; [by eexists|]. cbn [received_ids].
  destruct (wf_entry_in fl i Hwf) as (e & -> & _); [lia|]. cbn [mbind option_bind].
  destruct (IH (i + 1)) as (l & ->); [lia..|]. by eexists.
Qed.

Lemma entries_ok i n : 0 <= i -> i + Z.of_nat n <= num fl -> exists l, entries fl i n = Some l.
Proof.
  revert i. induction n as [|n IH]; intros i Hi Hn; [by eexists|]. cbn [entries].
  destruct (wf_entry_in fl i Hwf) as (e & -> & _); [lia|]. cbn [mbind option_bind].
  destruct (IH (i + 1)) as (l & ->); [lia..|]. by eexists.
Qed.

Lemma all_or_tar_ok v : tarFlag fl = 0 \/ num fl <> 0 -> exists b, all_or_tar fl v = Some b.
Proof.
  pose proof (wf_num _ Hwf). intros Ht. unfold all_or_tar. destruct (tarFlag fl =? NSTACKX_TRUE) eqn:E.
  - unfold NSTACKX_TRUE in E. destruct (wf_entry_in fl 0 Hwf) as (e & -> & _); [lia|]. by eexists.
  - apply all_flags_defined; [done|lia..].
Qed.

Lemma name_received_ok : exists b, FileListAllFileNameReceived fl = Some b.
Proof.
  unfold FileListAllFileNameReceived. case_if; [by eexists|]. case_if; [by eexists|]. apply all_or_tar_ok. right. lia.
Qed.

Lemma frame_count_quiet e id n total s : 1 <= id -> id + Z.of_nat n <= num fl + 1 -> quiet (frame_count e fl id n total) s.
Proof.
  revert id total s. induction n as [|n IH]; intros id total s Hid Hn; [done|]. cbn [frame_count]. unfold quiet. wp_step.
  destruct (wf_entry_in fl (id - 1) Hwf) as (en & He & _); [lia|].
  apply (wp_lift _ (fileSize en)); [unfold FileListGetFileSize; by rewrite He|]. wp_step; [apply IH; lia|].
  wp_steps. destruct (FileManagerGetLastSequence _ _ _); (eapply wp_mono; [apply IH; lia|by intros ? ? ->]).
Qed.
End reading.

(** ** Notifications *)

Definition ended (v : View) (sent : nat) : View :=
  v <| v_alive := false |> <| v_ends := S (v_ends v) |> <| v_sent := (sent + v_sent v)%nat |>.

Section notify.
Context (s : St) (Ha : alive s = true) (Hwf : wf (fileList (tr s))).
Let v := view s.

Lemma GetTotalFrameCount_quiet e : quiet (GetTotalFrameCount e) s.
Proof.
  unfold quiet, GetTotalFrameCount. wp_steps. pose proof (wf_num _ Hwf). rewrite wf_GetNum by done. by apply frame_count_quiet; lia || done.
Qed.

Lemma progress_quiet : quiet NotifyTransProgress s.
Proof.
  unfold quiet, NotifyTransProgress. wp_steps. destruct (names_ok _ Hwf NOTICE_FILE_NAME_TYPE) as (l & Hl).
  apply (wp_lift _ l); [done|]. unfold msgReceiver. wp_steps. apply wp_emit. cbn [is_end]. wp_steps. by apply view_out.
Qed.

(** A message that does not end the transfer. *)
Lemma notify_plain m : is_end m = false -> m <> DFILE_TRANS_MSG_FILE_RECEIVED -> m <> DFILE_TRANS_MSG_IN_PROGRESS ->
  quiet (NotifyTransMsg m) s.
Proof.
  intros Hm Hr Hp. unfold quiet, NotifyTransMsg. wp_steps. destruct (names_ok _ Hwf NOTICE_FILE_NAME_TYPE) as (l & Hl).
  destruct m; try done; wp_steps; try (apply (wp_lift _ l); [done|]); wp_steps;
    (eapply wp_lift; [reflexivity|]); unfold msgReceiver; wp_steps; apply wp_emit; cbn [is_end]; wp_steps; by apply view_out.
Qed.

(** The end of [HandleDFileFrame] before the end message. *)
Lemma ack_quiet (b : bool) :
  quiet (if b then NotifyTransMsg DFILE_TRANS_MSG_FILE_SEND_ACK ;; modify (fun t => t <| isAckSend := false |>) else ret tt) s.
Proof.
  unfold quiet. wp_step; [|done]. wp_step. eapply wp_mono; [by apply notify_plain|]. intros ? s1 Hv. cbv beta in Hv.
  assert (alive s1 = true) by alive_tac. wp_step. exact Hv.
Qed.

(** A message that ends the transfer. *)
Lemma notify_end m : is_end m = true ->
  wp (NotifyTransMsg m) (fun _ s' => exists k, view s' = ended v k /\ (k = 0%nat \/ (k = 1%nat /\ m = DFILE_TRANS_MSG_FILE_SENT))) s.
Proof.
  intros Hm. unfold NotifyTransMsg. wp_steps.
  assert (forall m0 names err, is_end m0 = true -> (m0 = DFILE_TRANS_MSG_FILE_SENT -> m = DFILE_TRANS_MSG_FILE_SENT) ->
    wp (msgReceiver m0 names err) (fun _ s' => exists k, view s' = ended v k /\ (k = 0%nat \/ (k = 1%nat /\ m = DFILE_TRANS_MSG_FILE_SENT))) s) as Hmsg.
  { intros m0 names err Hm0 Hs. unfold msgReceiver. wp_steps. apply wp_emit. rewrite Hm0. apply wp_free.
    exists (if is_sent_event (Notified m0 names err) then 1%nat else 0%nat). split.
    - unfold view, ended, v. cbn [out tr alive]. rewrite !count_snoc. cbn [is_end_event]. rewrite Hm0.
      destruct m0; done.
    - destruct m0; auto. }
  destruct (name_received_ok _ Hwf) as (b & Hb).
  destruct m; try done; wp_steps.
  - apply (wp_lift _ b); [done|]. destruct (names_ok _ Hwf NOTICE_FILE_NAME_TYPE) as (l & Hl). wp_steps;
      try (apply (wp_lift _ l); [done|]); wp_steps; (eapply wp_lift; [reflexivity|]); by apply Hmsg.
  - destruct (by_flag_ok _ Hwf NSTACKX_FLAGS_FILE_SEND_SUCCESS (noticeFileNameType (fileList (tr s)))) as (l & Hl).
    apply (wp_lift _ l); [done|]. wp_steps.
    destruct (names_ok _ Hwf (noticeFileNameType (fileList (tr s)))) as (l' & Hl').
    destruct l as [|x l].
    + eapply wp_lift; [cbn [ReviewSuccessMsg]; rewrite Hl'; reflexivity|]. by apply Hmsg.
    + eapply wp_lift; [reflexivity|]. by apply Hmsg.
  - destruct (names_ok _ Hwf (noticeFileNameType (fileList (tr s)))) as (l & Hl).
    apply (wp_lift _ l); [done|]. wp_steps. (eapply wp_lift; [reflexivity|]). by apply Hmsg.
  - (eapply wp_lift; [reflexivity|]). by apply Hmsg.
Qed.

(** The success message of a receiver. *)
Lemma notify_received : wp (NotifyTransMsg DFILE_TRANS_MSG_FILE_RECEIVED)
  (fun _ s' => exists k, view s' = v <| v_received := (k + v_received v)%nat |>) s.
Proof.
  unfold NotifyTransMsg. wp_steps.
  destruct (by_flag_ok _ Hwf NSTACKX_FLAGS_FILE_RECEIVE_SUCCESS NOTICE_FILE_NAME_TYPE) as (l & Hl).
  apply (wp_lift _ l); [done|]. wp_step. eapply (wp_mono _ (fun _ s' => view s' = v)).
  { wp_steps; [apply progress_quiet|done]. }
  intros _ s1 Hv1. wp_steps. destruct (names_ok _ Hwf NOTICE_FILE_NAME_TYPE) as (l' & Hl').
  assert (alive s1 = true) as Ha1 by alive_tac.
  destruct l as [|x l].
  - eapply wp_lift; [cbn [ReviewSuccessMsg]; rewrite Hl'; reflexivity|]. unfold msgReceiver. wp_steps. apply wp_emit.
    cbn [is_end]. wp_steps. exists 0%nat. rewrite view_out by done. exact Hv1.
  - eapply wp_lift; [reflexivity|]. unfold msgReceiver. wp_steps. apply wp_emit. cbn [is_end]. wp_steps. exists 1%nat.
    rewrite <- Hv1. unfold view. cbn [out tr alive]. by rewrite !count_snoc.
Qed.
End notify.

(** ** Sending a frame *)

Lemma length_sendBuffer : Z.of_nat (length sendBuffer) = 14720.
Proof. unfold sendBuffer, zeros. rewrite length_replicate, Z2Nat.id; done. Qed.

(** A [Z * state] result of sending: the next state is kept, or failure. *)
Lemma SendFrame_quiet e frame len ns nr s : alive s = true -> (8 <= length frame)%nat ->
  wp (SendFrame e frame len ns nr) (fun '(r, ns', nr') s' => view s' = view s /\
    (r = NSTACKX_EOK -> ns' = ns /\ nr' = nr) /\
    (ns' = ns \/ ns' = (fun _ => STATE_SEND_FILE_FAIL) <$> ns) /\
    (nr' = nr \/ nr' = (fun _ => STATE_RECEIVE_FILE_FAIL) <$> nr)) s.
Proof.
  intros Ha Hl. unfold SendFrame. wp_steps.
  destruct (put_ex frame OFF_TRANS_ID (be_bytes 2 (transId (tr s)))) as (f' & Hf' & _);
    [done|rewrite length_be_bytes; unfold OFF_TRANS_ID; lia|].
  apply (wp_lift _ f'); [done|]. wp_steps.
  - split; [done|]. split; [done|]. destruct (isSender _); auto.
  - split; [done|]. split; [by apply negb_false_iff, Z.eqb_eq in E0; rewrite E0|]. auto.
  - apply wp_emit. wp_steps. split; [by apply (view_out (s <| tick := S (tick s) |>))|]. auto.
Qed.

Lemma SendFrame_s_quiet e frame len next s : alive s = true -> (8 <= length frame)%nat ->
  wp (SendFrame_s e frame len next) (fun '(r, n) s' => view s' = view s /\
    (r = NSTACKX_EOK -> n = next) /\ (n = next \/ n = STATE_SEND_FILE_FAIL)) s.
Proof.
  intros Ha Hl. unfold SendFrame_s. wp_step. eapply wp_mono; [by apply SendFrame_quiet|].
  intros [[r ns] nr] s' (Hv & Hok & Hn & _). wp_steps. split; [done|]. split; [by intros [-> _]%Hok|].
  destruct Hn as [->| ->]; auto.
Qed.

Lemma SendFrame_r_quiet e frame len next s : alive s = true -> (8 <= length frame)%nat ->
  wp (SendFrame_r e frame len next) (fun '(r, n) s' => view s' = view s /\
    (r = NSTACKX_EOK -> n = next) /\ (n = next \/ n = STATE_RECEIVE_FILE_FAIL)) s.
Proof.
  intros Ha Hl. unfold SendFrame_r. wp_step. eapply wp_mono; [by apply SendFrame_quiet|].
  intros [[r ns] nr] s' (Hv & Hok & _ & Hn). wp_steps. split; [done|]. split; [by intros [_ ->]%Hok|].
  destruct Hn as [->| ->]; auto.
Qed.

(** ** The task of the file manager *)

Definition started (v : View) : View :=
  if v_started v then v else v <| v_started := true |> <| v_starts := S (v_starts v) |>.
Definition stopped (v : View) : View :=
  if v_started v then v <| v_started := false |> <| v_stops := S (v_stops v) |> else v.

Lemma view_start s : fileManagerTaskStarted (tr s) = false ->
  let t := tr s in
  view (s <| out := out s ++ [TaskStarted] |> <| tr := t <| fileManagerTaskStarted := true |> |>) = started (view s).
Proof.
  intros Hs. cbn zeta. unfold started. cbn [view v_started]. rewrite Hs. unfold view. cbn [out tr alive].
  by rewrite !count_snoc.
Qed.

Lemma stop_task_view s : alive s = true -> wp stop_task (fun _ s' => view s' = stopped (view s)) s.
Proof.
  intros Ha. unfold stop_task, stopped. cbn [view v_started]. wp_steps.
  - apply wp_emit. wp_steps. unfold view. cbn [out tr alive]. by rewrite !count_snoc.
  - done.
Qed.
End DFileLogic.
