(* ===== verification/DFileSender.v ===== *)
(** * DFile: the sender

    What the state machine of the sender of [DFileTransfer] does to the view, and
    its safety for every sequence of frames, ticks and file-manager messages. *)

From S2P Require Import Prelude DFileList DFileFrame DFileHandshake DFileTransfer DFileExchange DFileConfirm DFileLogic.

Module DFileSender.
Import DFileList DFileFrame DFileHandshake DFileTransfer DFileExchange DFileConfirm DFileLogic.
#[local] Open Scope dfile_scope.

(** ** Effects *)

Section effects.
Context (e : Env).

(** What the operations need of the transfer. *)
Definition sendable (s : St) : Prop :=
  alive s = true /\ offer (e_stat e) (fileList (tr s)) /\ 14 < mtu (tr s) <= 14720 /\
  -1 <= lastSentHeaderFileId (tr s) <= header_num (fileList (tr s)).

Lemma SendFileHeader_view fuel next s : sendable s ->
  wp (SendFileHeader e fuel next) (fun n s' =>
    (exists x, -1 <= x <= header_num (fileList (tr s)) /\ view s' = (view s) <| v_lastSent := x |>) /\
    (n = next \/ n = STATE_SEND_FILE_FAIL \/ n = STATE_WAIT_FOR_FILE_HEADER_CONFIRM)) s.
Proof.
  revert next s. induction fuel as [|fuel IH]; intros next s (Ha & Ho & Hm & Hl); [done|].
  cbn [SendFileHeader]. wp_steps. pose proof (offer_num _ _ Ho) as Hn.
  destruct (EncodeHeader_spec (e_stat e) (fileList (tr s)) 14720 (mtu (tr s)) (lastSentHeaderFileId (tr s)))
    as (last' & m & buf & Heq & Hbuf & Hl' & _); [apply Ho|by apply encodable_offer|lia..|].
  apply (wp_lift _ (last', m, buf)); [exact Heq|]. wp_step.
  eapply wp_mono; [apply SendFrame_s_quiet; [done|lia]|]. intros [r n] s1 (Hv & Hok & Hn1).
  assert (alive s1 = true) as Ha1 by alive_tac. wp_step.
  - wp_steps. split; [|tauto]. exists (lastSentHeaderFileId (tr s)). split; [done|]. by rewrite Hv.
  - apply negb_false_iff, Z.eqb_eq in E. rewrite (Hok E). wp_steps.
    + split; [|tauto]. exists last'. split; [lia|]. change ((view s1) <| v_lastSent := last' |> = (view s) <| v_lastSent := last' |>).
      by rewrite Hv.
    + set (s2 := mkSt _ _ _ _ _ _). assert (view s2 = (view s) <| v_lastSent := last' |>) as Hv2.
      { change ((view s1) <| v_lastSent := last' |> = (view s) <| v_lastSent := last' |>). by rewrite Hv. }
      assert (fileList (tr s2) = fileList (tr s) /\ mtu (tr s2) = mtu (tr s)) as [Hfl Hmtu].
      { by injection Hv2. }
      eapply wp_mono; [apply IH; split; [alive_tac|]; rewrite Hfl, Hmtu; split; [done|]; split; [lia|]; change (lastSentHeaderFileId (tr s2)) with last'; lia|].
      intros n' s' ((x & Hx & Hv') & Hn'). rewrite Hfl in Hx. split; [|done]. exists x. split; [done|]. by rewrite Hv', Hv2.
Qed.

Lemma StartSender_view s : alive s = true -> wf (fileList (tr s)) ->
  wp (StartFileManagerSenderTask e) (fun r s' =>
    (r = NSTACKX_EOK /\ view s' = started (view s)) \/ (r <> NSTACKX_EOK /\ view s' = view s)) s.
Proof.
  intros Ha Hwf. pose proof (wf_num _ Hwf) as Hn. unfold StartFileManagerSenderTask. wp_steps.
  - left. split; [done|]. unfold started. cbn [view v_started]. by rewrite E.
  - by right.
  - destruct (entries_ok _ Hwf 0 (Z.to_nat (FileListGetNum (fileList (tr s))))) as (l & Hl).
    { done. }
    { rewrite wf_GetNum by done. lia. }
    apply (wp_lift _ l); [done|]. wp_step. wp_step. wp_step.
    + wp_steps. right. split; [|done]. apply negb_true_iff, Z.eqb_neq in E1. done.
    + wp_step. apply wp_emit. wp_step. wp_step. set (s1 := mkSt _ _ _ _ _ _).
      assert (view s1 = started (view s)) as Hv1 by (exact (view_start (s <| tick := S (tick s) |>) E)).
      wp_step. eapply wp_mono; [apply GetTotalFrameCount_quiet; [exact Ha|exact Hwf]|].
      intros n s2 Hv2. assert (alive s2 = true) by (change (v_alive (view s2) = true); by rewrite Hv2). wp_steps. left. split; [done|]. rewrite <- Hv1, <- Hv2. done.
Qed.

(** What one step of the state machine may ask for. *)
Definition reaches (n next : DFileSendState) (l : list DFileSendState) : Prop := n = next \/ n ∈ l.

Ltac reach := unfold reaches in *; rewrite ?elem_of_cons, ?elem_of_nil in *; tauto.

Lemma WaitForFileHeaderConfirm_view next s : sendable s ->
  wp (WaitForFileHeaderConfirm e next) (fun n s' =>
    (reaches n next [STATE_SEND_FILE_FAIL; STATE_SEND_FILE_HEADER_ONGOING] /\ view s' = view s) \/
    (n = STATE_SEND_FILE_DATA_ONGOING /\ FileListAllFileNameAcked (fileList (tr s)) = Some true /\
     view s' = started (view s))) s.
Proof.
  intros (Ha & Ho & Hm & Hl). pose proof (offer_wf _ _ Ho) as Hwf. pose proof (offer_num _ _ Ho) as Hn.
  unfold WaitForFileHeaderConfirm. wp_step. wp_step. wp_step.
  assert (exists b, FileListAllFileNameAcked (fileList (tr s)) = Some b) as (b & Hb).
  { unfold FileListAllFileNameAcked. case_if; [by eexists|]. apply all_or_tar_ok; [done|]. right. lia. }
  apply (wp_lift _ b); [done|]. destruct b; cbn iota.
  - wp_step. eapply wp_mono; [by apply StartSender_view|]. intros r s' [[-> Hv]|[Hr Hv]].
    + rewrite Z.eqb_refl. wp_steps. by right.
    + assert (alive s' = true) by alive_tac. replace (r =? NSTACKX_EOK) with false by bool_lia. wp_steps. left.
      split; [reach|]. by rewrite <- Hv.
  - wp_steps; left; (split; [reach|done]).
Qed.

Lemma SendFileDataOngoing_view next s : alive s = true ->
  wp (SendFileDataOngoing e next) (fun n s' => view s' = view s /\
    (reaches n next [STATE_SEND_FILE_FAIL; STATE_WAIT_FOR_FILE_TRANSFER_DONE_FRAME] \/
     (n = STATE_SEND_FILE_TRANSFER_DONE_ACK /\ v_done (view s) = true))) s.
Proof.
  intros Ha. unfold SendFileDataOngoing. wp_steps; (split; [done|]); try (left; reach).
  - by right.
  - left. case_if; reach.
Qed.

Lemma WaitForFileTransferDoneFrame_view next s : alive s = true ->
  wp (WaitForFileTransferDoneFrame e next) (fun n s' => view s' = view s /\
    (reaches n next [STATE_SEND_FILE_FAIL; STATE_SEND_FILE_DATA_ONGOING] \/
     (n = STATE_SEND_FILE_TRANSFER_DONE_ACK /\ v_done (view s) = true))) s.
Proof.
  intros Ha. unfold WaitForFileTransferDoneFrame. wp_steps; (split; [done|]); try (left; reach).
  destruct (fileTransferDoneReceived (tr s)) eqn:Ed; [by right|left; reach].
Qed.

Lemma send_done_acks_view buf len n i next s : alive s = true -> (8 <= length buf)%nat ->
  wp (send_done_acks e buf len n i next) (fun '(_, k) s' => view s' = view s /\ reaches k next [STATE_SEND_FILE_FAIL]) s.
Proof.
  revert i s. induction n as [|n IH]; intros i s Ha Hl; cbn [send_done_acks].
  { wp_steps. split; [done|reach]. }
  wp_step. eapply wp_mono; [by apply SendFrame_s_quiet|]. intros [r k] s1 (Hv & Hok & Hk).
  assert (alive s1 = true) as Ha1 by alive_tac. wp_step.
  - wp_steps. split; [done|]. reach.
  - apply negb_false_iff, Z.eqb_eq in E. rewrite (Hok E). eapply wp_mono; [by apply IH|].
    intros [i' k'] s' [Hv' Hk']. split; [by rewrite Hv'|done].
Qed.

Lemma SendFileTransferDoneAckFrame_view next s : sendable s ->
  wp (SendFileTransferDoneAckFrame e next) (fun n s' => view s' = view s /\
    reaches n next [STATE_SEND_FILE_FAIL; STATE_SEND_FILE_DONE]) s.
Proof.
  intros (Ha & Ho & Hm & _). unfold SendFileTransferDoneAckFrame. wp_steps.
  pose proof length_sendBuffer as Hb.
  assert (exists buf, EncodeFileTransferDoneAckFrame sendBuffer (mtu (tr s)) (transId (tr s)) = Some (8, buf) /\
    (8 <= length buf)%nat) as (buf & Heq & Hlb).
  { unfold EncodeFileTransferDoneAckFrame, DFILE_FRAME_HEADER_LEN, OFF_TYPE, OFF_TRANS_ID. replace (8 >? _) with false by bool_lia.
    destruct (put_ex sendBuffer 0 (be_bytes 1 NSTACKX_DFILE_FILE_TRANSFER_DONE_ACK_FRAME)) as (b1 & -> & Hb1);
      [done|rewrite length_be_bytes; lia|]. cbn [mbind option_bind].
    destruct (put_ex b1 4 (be_bytes 2 (transId (tr s)))) as (b2 & -> & Hb2); [done|rewrite length_be_bytes; lia|].
    cbn [mbind option_bind]. exists b2. split; [reflexivity|lia]. }
  apply (wp_lift _ (8, buf)); [exact Heq|]. wp_step. eapply wp_mono; [by apply send_done_acks_view|].
  intros [i k] s1 [Hv Hk]. assert (alive s1 = true) as Ha1 by alive_tac. wp_step. wp_step. wp_step.
  - wp_steps. split; [exact Hv|]. reach.
  - wp_step. wp_step. wp_step. wp_step; wp_steps; try apply wp_emit; wp_steps; (split; [|case_if; reach]).
    + rewrite <- Hv. exact (view_out (s1 <| tick := S (S (tick s1)) |>) (DoneAckQueued _ _) eq_refl).
    + exact Hv.
Qed.

(** The state after a failed end counts as done once the done frame came. *)
Definition settled (v : View) (n : DFileSendState) : DFileSendState :=
  if (send_rank (v_send v) >=? send_rank STATE_SEND_FILE_TRANSFER_DONE_ACK) && bool_decide (n = STATE_SEND_FILE_FAIL)
  then STATE_SEND_FILE_DONE else n.

Definition moved (v : View) (n : DFileSendState) : View :=
  if decide (v_send v = n) then v
  else
    let last := if decide (n = STATE_WAIT_FOR_FILE_HEADER_CONFIRM) then -1 else v_lastSent v in
    let v' := v <| v_lastSent := last |> <| v_send := settled v n |> in
    if send_finished (settled v n) then stopped v' else v'.

Lemma SetSendState_view n s : alive s = true -> wf (fileList (tr s)) ->
  wp (SetSendState e n) (fun _ s' => view s' = moved (view s) n) s.
Proof.
  intros Ha Hwf. unfold SetSendState. wp_step. wp_step. unfold moved. cbn [view v_send].
  destruct (decide (sendState (tr s) = n)) as [|Hne]; [done|]. wp_step.
  eapply (wp_mono _ (fun _ s' => view s' =
    (view s) <| v_lastSent := if decide (n = STATE_WAIT_FOR_FILE_HEADER_CONFIRM) then -1 else v_lastSent (view s) |>)).
  { destruct n; try done; unfold WaitForFileHeaderConfirmPrepare, SendFileBlockPrepare, WaitForFileTransferDonePrepare; wp_steps;
      try done. eapply wp_mono; [by apply notify_plain|]. by intros ? ? ->. }
  intros _ s1 Hv1. assert (alive s1 = true) as Ha1 by alive_tac. wp_step. wp_step. wp_step.
  assert (sendState (tr s1) = sendState (tr s)) as Hs1 by (by injection Hv1).
  rewrite Hs1.
  match goal with |- context [if ?b && bool_decide (n = STATE_SEND_FILE_FAIL) then STATE_SEND_FILE_DONE else n] =>
    change (if b && bool_decide (n = STATE_SEND_FILE_FAIL) then STATE_SEND_FILE_DONE else n) with (settled (view s) n) end.
  wp_step. set (n' := settled _ n). match goal with |- wp _ _ ?x => set (s2 := x) end.
  assert (view s2 = (view s) <| v_lastSent := if decide (n = STATE_WAIT_FOR_FILE_HEADER_CONFIRM) then -1 else v_lastSent (view s) |>
                             <| v_send := n' |>) as Hv2.
  { change (view s2) with ((view s1) <| v_send := n' |>). by rewrite Hv1. }
  destruct (send_finished n') eqn:Ef.
  - eapply wp_mono; [by apply stop_task_view|]. intros _ s' ->. by rewrite Hv2.
  - wp_steps. exact Hv2.
Qed.
End effects.

(** ** Invariant *)

(** What state [n] promises. *)
Record promises (v : View) (n : DFileSendState) : Prop := {
  p_acked : 3 <= send_rank n <= 6 -> FileListAllFileNameAcked (v_list v) = Some true;
  p_done : 5 <= send_rank n <= 6 -> v_done v = true;
  p_running : 3 <= send_rank n <= 5 -> v_started v = true
}.

Record sound (stat : list byte -> option Z) (v : View) : Prop := {
  s_alive : v_alive v = true;
  s_sender : v_sender v = true;
  s_offer : offer stat (v_list v);
  s_mtu' : 14 < v_mtu v <= 14720;
  s_last : -1 <= v_lastSent v <= header_num (v_list v);
  s_ends : v_ends v = 0%nat;
  s_sent : v_sent v = 0%nat;
  s_balance : v_starts v = (v_stops v + Nat.b2n (v_started v))%nat
}.

Definition sender_inv (stat : list byte -> option Z) (v : View) : Prop :=
  sound stat v /\ promises v (v_send v) /\ (v_started v = true -> 3 <= send_rank (v_send v) <= 5).

(** A step that asks for state [n]. *)
Definition asks (stat : list byte -> option Z) (v : View) (n : DFileSendState) : Prop :=
  sound stat v /\ promises v (v_send v) /\ promises v n /\
  (v_started v = true -> 3 <= send_rank n <= 5 \/ (n <> v_send v /\ 6 <= send_rank n)).

Lemma finished_rank n : send_finished n = true <-> 6 <= send_rank n.
Proof. destruct n; unfold send_finished; simpl; split; done || lia. Qed.

Lemma stopped_sound stat v : sound stat v -> sound stat (stopped v) /\ v_started (stopped v) = false.
Proof.
  intros []. unfold stopped. destruct (v_started v) eqn:E; [|by split; [constructor; by rewrite ?E|]].
  split; [|done]. constructor; cbn; try done. simpl in *. lia.
Qed.

(** Moving to the state a step asks for. *)
Lemma moved_inv stat v n : asks stat v n -> sender_inv stat (moved v n).
Proof.
  intros (Hs & Hc & Hn & Hst). unfold moved. destruct (decide (v_send v = n)) as [<-|Hne].
  { split; [done|]. split; [done|]. intros H. destruct (Hst H) as [|[[] _]]; done. }
  cbv zeta. match goal with |- context [stopped ?x] => set (v1 := x) end. pose proof (offer_num _ _ (s_offer _ _ Hs)).
  assert (sound stat v1) as Hs1.
  { destruct Hs. constructor; try done. cbn. case_decide; lia. }
  assert (promises v1 (settled v n)) as Hp1.
  { unfold settled. destruct (_ && _) eqn:E; [|by destruct Hn; constructor].
    apply andb_true_iff in E as [E En%bool_decide_eq_true]. cbn in E. subst n.
    assert (5 <= send_rank (v_send v) <= 6) by (destruct (v_send v); simpl in *; lia || done).
    destruct Hc. constructor; cbn; intros; try lia; [apply p_acked0; lia|by apply p_done0]. }
  destruct (send_finished (settled v n)) eqn:Ef; cbn zeta.
  - destruct (stopped_sound _ _ Hs1) as [Hs2 Hf]. apply finished_rank in Ef. split; [done|].
    assert (v_send (stopped v1) = settled v n /\ v_list (stopped v1) = v_list v /\ v_done (stopped v1) = v_done v) as (-> & El & Ed).
    { unfold stopped. by destruct (v_started v1). }
    split; [|by rewrite Hf]. destruct Hp1 as [P1 P2 P3]. constructor; rewrite ?El, ?Ed; auto. lia.
  - split; [done|]. split; [done|]. intros H0. change (3 <= send_rank (settled v n) <= 5).
    assert (~ 6 <= send_rank (settled v n)) by (rewrite <- finished_rank, Ef; done).
    unfold settled in *. destruct (_ && _) eqn:E; [by simpl in *; lia|]. destruct (Hst H0) as [|[_ ?]]; lia.
Qed.

(** ** The state machine *)

Section machine.
Context (e : Env).

Lemma inv_sendable s : sound (e_stat e) (view s) -> sendable e s.
Proof. intros []. exact (conj s_alive0 (conj s_offer0 (conj s_mtu'0 s_last0))). Qed.

Lemma started_sound stat v : sound stat v -> sound stat (started v).
Proof.
  intros []. unfold started. destruct (v_started v) eqn:E; [by constructor; rewrite ?E|]. constructor; cbn; try done.
  simpl in *. lia.
Qed.

(** A step that keeps the view and asks for its own state, or for one that
    promises nothing or fails. *)
Lemma asks_same v n : sender_inv (e_stat e) v -> n = v_send v -> asks (e_stat e) v n.
Proof. intros (Hs & Hp & Hst) ->. split_and!; auto. Qed.

Lemma asks_fail v : sender_inv (e_stat e) v -> send_rank (v_send v) <= 5 -> asks (e_stat e) v STATE_SEND_FILE_FAIL.
Proof.
  intros (Hs & Hp & Hst) Hr. split_and!; auto.
  - constructor; simpl; lia.
  - intros _. right. split; [|done]. intros E. rewrite <- E in Hr. simpl in Hr. lia.
Qed.

Lemma asks_early v n : sender_inv (e_stat e) v -> send_rank (v_send v) <= 2 -> send_rank n <= 2 -> asks (e_stat e) v n.
Proof.
  intros (Hs & Hp & Hst) Hr Hn. split_and!; auto.
  - constructor; lia.
  - intros H. specialize (Hst H). lia.
Qed.

Lemma asks_data v n : sender_inv (e_stat e) v -> 3 <= send_rank (v_send v) <= 5 -> 3 <= send_rank n <= 6 ->
  (5 <= send_rank n -> v_done v = true) -> n <> v_send v \/ send_rank n <= 5 -> asks (e_stat e) v n.
Proof.
  intros (Hs & Hp & Hst) Hr Hn Hd Hne. split_and!; auto.
  - constructor; [intros; apply (p_acked _ _ Hp); lia|intros; apply Hd; lia|intros; apply (p_running _ _ Hp); lia].
  - intros _. destruct (decide (send_rank n <= 5)); [left; lia|right]. split; [|lia]. destruct Hne; [done|lia].
Qed.

Lemma sender_step_inv hf s : sender_inv (e_stat e) (view s) ->
  wp (sender_step e hf (sendState (tr s))) (fun n s' => asks (e_stat e) (view s') n) s.
Proof.
  intros Hi. pose proof (proj1 Hi) as Hs. pose proof (inv_sendable _ Hs) as Hse. assert (alive s = true) as Ha by apply Hs.
  unfold sender_step. wp_step. wp_step. destruct (sendState (tr s)) eqn:Est; rewrite <- ?Est.
  - assert (v_send (view s) = STATE_SEND_FILE_INIT) as Es by done.
    exact (asks_early (view s) STATE_SEND_FILE_HEADER_ONGOING Hi ltac:(by rewrite Es) ltac:(done)).
  - eapply wp_mono; [by apply SendFileHeader_view|]. intros n s' [(x & Hx & Hv) Hn].
    assert (sender_inv (e_stat e) (view s')) as Hi'.
    { rewrite Hv. destruct Hi as ([] & [] & Hst). split; [|split; [|done]]; by constructor. }
    assert (v_send (view s') = STATE_SEND_FILE_HEADER_ONGOING) as Es' by (by rewrite Hv).
    destruct Hn as [->|[->| ->]]; [apply asks_same|apply asks_fail|apply asks_early]; rewrite ?Es'; simpl; done || lia.
  - eapply wp_mono; [by apply WaitForFileHeaderConfirm_view|]. intros n s' [[Hn Hv]|(-> & Hack & Hv)].
    + rewrite Hv. assert (v_send (view s) = STATE_WAIT_FOR_FILE_HEADER_CONFIRM) as Es by done.
      unfold reaches in Hn. rewrite !elem_of_cons, elem_of_nil in Hn.
      destruct Hn as [->|[->|[->|[]]]]; [apply asks_same|apply asks_fail|apply asks_early]; rewrite ?Es; simpl; done || lia.
    + destruct Hi as (_ & Hp & _). rewrite Hv.
      assert (v_send (started (view s)) = STATE_WAIT_FOR_FILE_HEADER_CONFIRM /\ v_started (started (view s)) = true /\
              v_list (started (view s)) = v_list (view s)) as (Es & Et & El).
      { unfold started. destruct (v_started (view s)) eqn:E; done. }
      split; [by apply started_sound|]. rewrite Es. split; [constructor; simpl; lia|].
      split; [|intros _; left; simpl; lia]. constructor; simpl; [by rewrite El|lia|by rewrite Et].
  - eapply wp_mono; [by apply SendFileDataOngoing_view|]. intros n s' [Hv Hn]. rewrite Hv.
    assert (v_send (view s) = STATE_SEND_FILE_DATA_ONGOING) as Es by done.
    unfold reaches in Hn. rewrite !elem_of_cons, elem_of_nil in Hn.
    destruct Hn as [[->|[->|[->|[]]]]|[-> ?]]; [apply asks_same|apply asks_fail|apply asks_data..]; rewrite ?Es; simpl; auto; lia.
  - eapply wp_mono; [by apply WaitForFileTransferDoneFrame_view|]. intros n s' [Hv Hn]. rewrite Hv.
    assert (v_send (view s) = STATE_WAIT_FOR_FILE_TRANSFER_DONE_FRAME) as Es by done.
    unfold reaches in Hn. rewrite !elem_of_cons, elem_of_nil in Hn.
    destruct Hn as [[->|[->|[->|[]]]]|[-> ?]]; [apply asks_same|apply asks_fail|apply asks_data..]; rewrite ?Es; simpl; auto; lia.
  - eapply wp_mono; [by apply SendFileTransferDoneAckFrame_view|]. intros n s' [Hv Hn]. rewrite Hv.
    assert (v_send (view s) = STATE_SEND_FILE_TRANSFER_DONE_ACK) as Es by done.
    assert (v_done (view s) = true) as Hd by (destruct Hi as (_ & [? Hd ?] & _); apply Hd; by rewrite Es).
    unfold reaches in Hn. rewrite !elem_of_cons, elem_of_nil in Hn.
    destruct Hn as [->|[->|[->|[]]]]; [apply asks_same|apply asks_fail|apply asks_data]; rewrite ?Es; simpl; auto; lia.
  - wp_step. by apply asks_same.
  - wp_step. by apply asks_same.
Qed.

Lemma settled_unfinished v n : send_finished (settled v n) = false -> settled v n = n.
Proof. unfold settled. by destruct (_ && _). Qed.

Lemma moved_send v n : v_send v <> n -> v_send (moved v n) = settled v n.
Proof.
  intros Hne. unfold moved. rewrite decide_False by done. cbv zeta. case_if; [|done]. unfold stopped. cbn [v_started]. by destruct (v_started v).
Qed.

Lemma sender_loop_inv hf fuel s : sender_inv (e_stat e) (view s) ->
  wp (sender_loop e hf fuel (sendState (tr s))) (fun _ s' => sender_inv (e_stat e) (view s')) s.
Proof.
  revert s. induction fuel as [|fuel IH]; intros s Hi; [done|]. cbn [sender_loop]. wp_step.
  eapply wp_mono; [by apply sender_step_inv|]. intros n s1 Hask. assert (alive s1 = true) as Ha1 by apply Hask.
  pose proof (moved_inv _ _ _ Hask) as Hmv. pose proof (offer_wf _ _ (s_offer _ _ (proj1 Hask))) as Hwf1.
  wp_step. wp_step. destruct (decide (sendState (tr s1) = n)) as [Heq|Hne].
  { wp_step. unfold moved in Hmv. by rewrite decide_True in Hmv. }
  wp_step. eapply wp_mono; [by apply SetSendState_view|]. intros ? s2 Hv2. cbv beta in Hv2. rewrite <- Hv2 in Hmv.
  assert (alive s2 = true) as Ha2 by apply Hmv. wp_step. wp_step.
  destruct (send_finished (sendState (tr s2))) eqn:Ef; [by wp_step|].
  assert (sendState (tr s2) = n) as Hn2.
  { change (v_send (view s2) = n). change (send_finished (v_send (view s2)) = false) in Ef. rewrite Hv2, moved_send in Ef |- * by done.
    by apply settled_unfinished. }
  rewrite <- Hn2. by apply IH.
Qed.

Lemma SenderFsm_inv hf fuel s : sender_inv (e_stat e) (view s) ->
  wp (TransferFsm e hf fuel) (fun _ s' => sender_inv (e_stat e) (view s')) s.
Proof.
  intros Hi. assert (alive s = true) as Ha by apply Hi. assert (isSender (tr s) = true) as Hs by apply Hi.
  unfold TransferFsm, SenderFsm. wp_step. wp_step. rewrite Hs. wp_step. wp_step. by apply sender_loop_inv.
Qed.

(** Acknowledgements that arrive before the data phase, and the done frame. *)
Lemma marks_inv v fl b : sender_inv (e_stat e) v -> marks (v_list v) fl ->
  send_rank (v_send v) <= 2 \/ userDataFlag fl = userDataFlag (v_list v) -> (v_done v = true -> b = true) ->
  sender_inv (e_stat e) (v <| v_list := fl |> <| v_done := b |>).
Proof.
  intros ([] & [] & Hst) Hm Hu Hb. split; [|split; [|done]].
  - constructor; try done; cbn.
    + by apply (marks_offer _ (v_list v)).
    + by rewrite (marks_header_num _ _ Hm).
  - constructor; cbn; try done; [|auto]. intros Hr. destruct Hu as [|Hu]; [lia|]. specialize (p_acked0 Hr). revert p_acked0.
    pose proof (offer_num _ _ s_offer0). pose proof (offer_wf _ _ s_offer0) as Hwf.
    unfold FileListAllFileNameAcked. rewrite Hu. case_if; [done|].
    apply all_or_tar_grows; [done|by apply marks_grows|lia].
Qed.

Lemma sender_frame_inv frame s : DecodeDFileFrame frame = Some NSTACKX_EOK -> sender_inv (e_stat e) (view s) ->
  wp (handle_frame e frame) (fun _ s' => sender_inv (e_stat e) (view s')) s.
Proof.
  intros Hacc Hi. assert (alive s = true) as Ha by apply Hi. assert (isSender (tr s) = true) as Hs by apply Hi.
  assert (wf (fileList (tr s))) as Hwf by (by apply (offer_wf _ _ (s_offer _ _ (proj1 Hi)))).
  destruct (frame_length _ Hacc) as (plen & Hp & H0 & Hl). unfold DFILE_FRAME_HEADER_LEN in Hl.
  unfold handle_frame. wp_step. destruct (be_at_ex 1 OFF_TYPE frame) as (ty & Hty & _); [done|unfold OFF_TYPE; lia|].
  apply (wp_lift _ ty); [done|]. wp_step; [|wp_step; [|wp_step; [|wp_step; [|wp_step]]]].
  - unfold HandleFileNameTableFrame. wp_step. wp_step. rewrite Hs. cbv iota. by wp_step.
  - unfold HandleFileTableAckFrame. wp_step. wp_step. rewrite Hs. cbn [negb]. cbv iota. wp_step. wp_step.
    destruct (confirm_decode_safe _ _ Hwf Hacc) as (r & fl' & Hd & Hm).
    assert (forall n, sendState (tr s) = n -> send_rank n <= 2 ->
      wp (let! (r, fl) := lift (DecodeFileHeaderConfirmFrame (fileList (tr s)) frame) in
          modify_list (fun _ => Some fl) ;; ret (if negb (r =? NSTACKX_EOK) then NSTACKX_EFAILED else NSTACKX_EOK))
        (fun _ s' => sender_inv (e_stat e) (view s')) (let t := tr s in s <| tr := t <| lostAckCnt := 0 |> |>)) as Hrun.
    { intros n Hn Hr. wp_step. apply (wp_lift _ (r, fl')); [done|]. wp_step. eapply wp_modify_list; [done|done|].
      cbv zeta. wp_step. refine (marks_inv (view s) fl' (v_done (view s)) Hi Hm (or_introl _) (fun H => H)).
      change (send_rank (sendState (tr s)) <= 2). by rewrite Hn. }
    destruct (sendState (tr s)) eqn:Est; rewrite <- Est; try (wp_step; exact Hi); apply (Hrun _ eq_refl); simpl; lia.
  - unfold HandleFileDataFrame. wp_step. wp_step. wp_step. unfold CheckReceiverTransAndFrameValid. rewrite Hp, Hs.
    cbn [mbind option_bind orb]. destruct (plen <=? 6); (eapply wp_lift; [reflexivity|]); by wp_step.
  - unfold HandleTransferDoneFrame. wp_step. wp_step. rewrite Hs. cbn [negb]. cbv iota. wp_step; [by wp_step|]. wp_step; [by wp_step|].
    wp_step. wp_step. wp_step. destruct (done_decode_safe _ _ Hwf Hacc) as (r & fl' & Hd & Hm & Hu).
    apply (wp_lift _ (r, fl')); [done|]. wp_step. eapply wp_modify_list; [done|done|]. cbv zeta. wp_step.
    exact (marks_inv (view s) fl' true Hi Hm (or_intror Hu) (fun _ => eq_refl)).
  - wp_steps. rewrite Hs. by destruct s as [[] ? ? ? ? ?].
  - by wp_step.
Qed.

(** The transfer is over. *)
Record sender_over (v : View) : Prop := {
  o_alive : v_alive v = false;
  o_ends : v_ends v = 1%nat;
  o_stopped : v_started v = false /\ v_starts v = v_stops v;
  o_sent : v_sent v = 0%nat \/ (v_sent v = 1%nat /\ v_send v = STATE_SEND_FILE_DONE /\ v_done v = true /\
                              FileListAllFileNameAcked (v_list v) = Some true)
}.

Definition sender_safe (stat : list byte -> option Z) (v : View) : Prop :=
  if v_alive v then sender_inv stat v else sender_over v.

Lemma safe_inv v : sender_inv (e_stat e) v -> sender_safe (e_stat e) v.
Proof. intros Hi. unfold sender_safe. by rewrite (s_alive _ _ (proj1 Hi)). Qed.

Lemma safe_ended v k : sender_inv (e_stat e) v -> v_started v = false ->
  k = 0%nat \/ (k = 1%nat /\ v_send v = STATE_SEND_FILE_DONE) -> sender_safe (e_stat e) (ended v k).
Proof.
  intros ([] & [] & _) Hst Hk. constructor; cbn; try done.
  - by rewrite s_ends0.
  - split; [done|]. rewrite Hst in s_balance0. simpl in s_balance0. lia.
  - rewrite s_sent0. destruct Hk as [->|[-> Hd]]; [by left|right]. rewrite Hd in *. split_and!; try done.
    + apply p_done0. simpl. lia.
    + apply p_acked0. simpl. lia.
Qed.

Lemma sender_end_inv s : sender_inv (e_stat e) (view s) ->
  wp DFileTransNotifyEndMsg (fun _ s' => sender_safe (e_stat e) (view s')) s.
Proof.
  intros Hi. assert (alive s = true) as Ha by apply Hi. assert (isSender (tr s) = true) as Hs by apply Hi.
  assert (wf (fileList (tr s))) as Hwf by (by apply (offer_wf _ _ (s_offer _ _ (proj1 Hi)))).
  assert (send_finished (v_send (view s)) = true -> v_started (view s) = false) as Hst.
  { intros Hf%finished_rank. destruct (v_started (view s)) eqn:E; [|done]. destruct Hi as (_ & _ & Hst). specialize (Hst E). lia. }
  unfold DFileTransNotifyEndMsg. wp_step. wp_step. rewrite Hs. cbv iota. wp_step; [|wp_step].
  - eapply wp_mono; [by apply notify_end|]. intros _ s' (k & -> & Hk). apply safe_ended; [done| |].
    + apply Hst. change (v_send (view s)) with (sendState (tr s)). by rewrite e0.
    + destruct Hk as [->|[_ ?]]; [by left|done].
  - eapply wp_mono; [by apply notify_end|]. intros _ s' (k & -> & Hk). apply safe_ended; [done| |].
    + apply Hst. change (v_send (view s)) with (sendState (tr s)). by rewrite e0.
    + destruct Hk as [->|[-> _]]; auto.
  - wp_step. by apply safe_inv.
Qed.

Lemma HandleDFileFrame_safe hf fuel frame s : DecodeDFileFrame frame = Some NSTACKX_EOK -> sender_inv (e_stat e) (view s) ->
  wp (HandleDFileFrame e hf fuel frame) (fun _ s' => sender_safe (e_stat e) (view s')) s.
Proof.
  intros Hacc Hi. assert (alive s = true) as Ha by apply Hi. unfold HandleDFileFrame. wp_step. wp_step. wp_step.
  { wp_step. by apply safe_inv. }
  wp_step. eapply wp_mono; [by apply sender_frame_inv|]. intros r s1 Hi1. cbv beta in Hi1.
  wp_step. eapply wp_mono; [by apply SenderFsm_inv|]. intros ? s2 Hi2. cbv beta in Hi2. assert (alive s2 = true) by apply Hi2.
  wp_step. wp_step. wp_step. eapply wp_mono; [apply ack_quiet; [done|apply (offer_wf _ _ (s_offer _ _ (proj1 Hi2)))]|].
  intros ? s3 Hv. cbv beta in Hv. wp_step. eapply wp_mono; [apply sender_end_inv; by rewrite Hv|]. intros ? s4 Hs4. by wp_step.
Qed.

Lemma DFileTransProcess_safe hf fuel s : sender_inv (e_stat e) (view s) ->
  wp (DFileTransProcess e hf fuel) (fun _ s' => sender_safe (e_stat e) (view s')) s.
Proof.
  intros Hi. assert (alive s = true) as Ha by apply Hi. unfold DFileTransProcess. wp_step. wp_step. wp_step.
  { wp_step. by apply safe_inv. }
  wp_step. eapply wp_mono; [by apply SenderFsm_inv|]. intros ? s2 Hi2. cbv beta in Hi2. assert (alive s2 = true) by apply Hi2.
  wp_step. wp_step. apply sender_end_inv. exact Hi2.
Qed.

Lemma SenderMsgHandler_safe m s : sender_inv (e_stat e) (view s) ->
  wp (FileManagerSenderMsgHandler e m) (fun _ s' => sender_safe (e_stat e) (view s')) s.
Proof.
  intros Hi. assert (alive s = true) as Ha by apply Hi.
  assert (wf (fileList (tr s))) as Hwf by (by apply (offer_wf _ _ (s_offer _ _ (proj1 Hi)))).
  destruct m; try (by apply safe_inv).
  - unfold FileManagerSenderMsgHandler. wp_step. wp_step. wp_step.
    eapply wp_mono; [apply SetSendState_view; done|]. intros ? s1 Hv. cbv beta in Hv.
    match type of Hv with _ = moved ?x _ => change x with (view s) in Hv end.
    assert (asks (e_stat e) (view s) STATE_SEND_FILE_FAIL) as Hask.
    { destruct Hi as (Hs & Hp & Hst). split_and!; auto; [constructor; simpl; lia|]. intros H. right. specialize (Hst H).
      split; [|done]. intros Eq. rewrite <- Eq in Hst. simpl in Hst. lia. }
    apply moved_inv in Hask. rewrite <- Hv in Hask. eapply wp_mono.
    { apply notify_end; [apply Hask|apply (offer_wf _ _ (s_offer _ _ (proj1 Hask)))|done]. }
    intros ? s2 (k & -> & Hk). apply safe_ended; [done| |destruct Hk as [->|[_ ?]]; [by left|done]].
    destruct (v_started (view s1)) eqn:Est; [|done]. destruct Hask as (_ & _ & Hst). specialize (Hst Est).
    rewrite Hv in Hst. destruct (decide (v_send (view s) = STATE_SEND_FILE_FAIL)) as [Eq|Ne].
    + unfold moved in Hst. rewrite decide_True in Hst by done. rewrite Eq in Hst. simpl in Hst. lia.
    + rewrite moved_send in Hst by done. unfold settled in Hst. destruct (_ && _); simpl in Hst; lia.
  - unfold FileManagerSenderMsgHandler. wp_step. wp_step. wp_step.
    destruct (names_ok _ Hwf (noticeFileNameType (fileList (tr s)))) as (l & Hl). apply (wp_lift _ l); [done|].
    unfold msgReceiver. wp_steps. apply wp_emit. cbn [is_end]. wp_steps. rewrite view_out by done. by apply safe_inv.
Qed.
End machine.

(** ** Every sequence of inputs *)

(** What reaches a transfer: frames, ticks, messages of the file manager and the
    MTU of the session.  The bounds are those of the loops. *)
Inductive Input :=
  | InFrame (frame : list byte)
  | InTick
  | InManager (m : FileManagerMsgType)
  | InMtu (m : Z).

Definition handle (e : Env) (hf fuel : nat) (i : Input) : M unit :=
  match i with
  | InFrame frame => HandleDFileFrame e hf fuel frame ;; ret tt
  | InTick => DFileTransProcess e hf fuel
  | InManager m => FileManagerSenderMsgHandler e m
  | InMtu m => modify (fun t => snd (DFileTransSetMtu t m))
  end.

(** A destroyed transfer is not found any more. *)
Fixpoint run (hf fuel : nat) (l : list (Env * Input)) : M unit :=
  fun s => match l with
           | [] => Ok tt s
           | (e, i) :: l => if alive s then bind (handle e hf fuel i) (fun _ => run hf fuel l) s else Ok tt s
           end.

(** The session passes on frames that [DecodeDFileFrame] accepts; the file system
    does not change during the transfer. *)
Definition admissible (stat : list byte -> option Z) (x : Env * Input) : Prop :=
  e_stat (fst x) = stat /\
  match snd x with InFrame frame => DecodeDFileFrame frame = Some NSTACKX_EOK | _ => True end.

Lemma handle_safe stat e hf fuel i s : admissible stat (e, i) -> sender_inv stat (view s) ->
  wp (handle e hf fuel i) (fun _ s' => sender_safe stat (view s')) s.
Proof.
  intros [He Hf] Hi. simpl in He, Hf. subst stat. destruct i as [frame| |m|m]; cbn [handle].
  - wp_step. eapply wp_mono; [by apply HandleDFileFrame_safe|]. intros ? s1 Hs. by wp_step.
  - by apply DFileTransProcess_safe.
  - by apply SenderMsgHandler_safe.
  - assert (alive s = true) as Ha by apply Hi. wp_step. apply safe_inv. unfold DFileTransSetMtu.
    destruct ((m <=? 14) || (m >? NSTACKX_MAX_FRAME_SIZE)) eqn:E; [exact Hi|]. case_if; [exact Hi|].
    apply orb_false_iff in E as [E1 E2]. unfold NSTACKX_MAX_FRAME_SIZE in E2.
    destruct Hi as ([] & [] & Hst). split; [|split; [|done]]; [|by constructor]. constructor; try done. cbn. lia.
Qed.

Lemma sender_new stat s :
  alive s = true /\ isSender (tr s) = true /\ sendState (tr s) = STATE_SEND_FILE_INIT /\
  fileManagerTaskStarted (tr s) = false /\ lastSentHeaderFileId (tr s) = -1 /\ out s = [] ->
  offer stat (fileList (tr s)) -> 14 < mtu (tr s) <= 14720 -> sender_safe stat (view s).
Proof.
  intros (Ha & Hs & Hst & Hts & Hls & Hout) Hoffer Hmtu. pose proof (offer_num _ _ Hoffer).
  unfold sender_safe. cbn [view v_alive]. rewrite Ha. split; [|split].
  - constructor; cbn; rewrite ?Hout, ?Hts, ?Hls; try done. lia.
  - constructor; cbn; rewrite Hst; simpl; lia.
  - cbn. by rewrite Hts.
Qed.

(** C10: A sending transfer is safe for every sequence of inputs: whatever accepted
    frames arrive, whatever the clock, the socket and the file manager answer, no
    freed transfer or invalid entry is touched.  Data is sent only after every name
    was acknowledged, and the transfer counts as done only after the done frame.
    While it lives, the file-manager task runs exactly in the three states that
    need it; when it ends, it reports exactly one end, the task has been stopped as
    often as started, and success is reported only for a transfer that is done. *)
Theorem sender_transfer_safe (stat : list byte -> option Z) (hf fuel : nat) (inputs : list (Env * Input)) (s : St)
    (Hin : Forall (admissible stat) inputs)
    (Hnew : alive s = true /\ isSender (tr s) = true /\ sendState (tr s) = STATE_SEND_FILE_INIT /\
            fileManagerTaskStarted (tr s) = false /\ lastSentHeaderFileId (tr s) = -1 /\ out s = [])
    (Hoffer : offer stat (fileList (tr s))) (Hmtu : 14 < mtu (tr s) <= 14720) :
  wp (run hf fuel inputs) (fun _ s' => let v := view s' in
    if alive s' then
      (3 <= send_rank (sendState (tr s')) <= 6 -> FileListAllFileNameAcked (fileList (tr s')) = Some true) /\
      (5 <= send_rank (sendState (tr s')) <= 6 -> fileTransferDoneReceived (tr s') = true) /\
      (fileManagerTaskStarted (tr s') = true <-> 3 <= send_rank (sendState (tr s')) <= 5) /\
      count is_end_event (out s') = 0%nat /\
      count is_start (out s') = (count is_stop (out s') + Nat.b2n (fileManagerTaskStarted (tr s')))%nat
    else
      count is_end_event (out s') = 1%nat /\ fileManagerTaskStarted (tr s') = false /\
      count is_start (out s') = count is_stop (out s') /\
      (0 < count is_sent_event (out s') ->
       sendState (tr s') = STATE_SEND_FILE_DONE /\ fileTransferDoneReceived (tr s') = true /\
       FileListAllFileNameAcked (fileList (tr s')) = Some true)%nat) s.
Proof.
  assert (forall s, sender_safe stat (view s) -> wp (run hf fuel inputs) (fun _ s' => sender_safe stat (view s')) s) as Hrun.
  { clear s Hnew Hoffer Hmtu. induction Hin as [|[e i] l Hx Hl IH]; intros s Hs; [done|]. cbn [run]. unfold wp.
    destruct (alive s) eqn:Ha; [|done]. change (wp (bind (handle e hf fuel i) (fun _ => run hf fuel l))
      (fun _ s' => sender_safe stat (view s')) s). apply wp_bind.
    unfold sender_safe in Hs. cbn [view v_alive] in Hs. rewrite Ha in Hs.
    eapply wp_mono; [by apply handle_safe|]. intros ? s1. apply IH. }
  eapply wp_mono.
  - by apply Hrun, sender_new.
  - intros ? s' Hsafe. unfold sender_safe in Hsafe. cbn [view v_alive] in Hsafe. cbv zeta. destruct (alive s').
    + destruct Hsafe as ([] & [] & Hst'). split_and!; try done.
    + destruct Hsafe as [_ He [Ho1 Ho2] Hsent]. split_and!; try done. intros H1. cbn in Hsent. destruct Hsent as [H0|(_ & ?)]; [lia|done].
Qed.

Lemma sender_transfer_safe_witness :
  match run 9 9 [(example_env, InTick); (example_env, InManager FILE_MANAGER_SEND_FAIL)]
          (example_st true (example_offer 0 1) (-1) 0) with
  | Ok _ s' => alive s' = false /\ count is_end_event (out s') = 1%nat
  | _ => False
  end.
Proof.
  eapply (wp_elim _ _ (fun s' => negb (alive s'))).
  - apply (sender_transfer_safe (fun _ => None) 9 9 [(example_env, InTick); (example_env, InManager FILE_MANAGER_SEND_FAIL)]).
    + repeat constructor.
    + repeat split.
    + apply example_offers. lia.
    + change (14 < 40 <= 14720). lia.
  - vm_compute. reflexivity.
  - intros ? s' Ht%negb_true_iff H. cbv beta zeta in H. rewrite Ht in H. by split; [|apply H].
Defined.
End DFileSender.
