(* ===== verification/DFileReceiver.v ===== *)
(** * DFile: the receiver

    What the state machine of the receiver of [DFileTransfer] does to the view, and
    its safety for every sequence of frames, ticks and file-manager messages. *)

From S2P Require Import Prelude DFileList DFileFrame DFileHandshake DFileTransfer DFileExchange DFileConfirm DFileLogic.

Module DFileReceiver.
Import DFileList DFileFrame DFileHandshake DFileTransfer DFileExchange DFileConfirm DFileLogic.
#[local] Open Scope dfile_scope.

(** ** Effects *)

(** The ids the file manager reports are those of the list. *)
Definition ids_ok (e : Env) (n : Z) : Prop :=
  forall k l, FileManagerGetReceivedFiles e k = Some l -> Forall (fun p => 0 <= fst p <= n) l.

(** A new name fits an entry. *)
Definition fits (name : list byte) : Prop := 0 < strlen name < 1024 /\ GetFileNameLen (Some name) <= NSTACKX_MAX_FILE_NAME_LEN.
Definition rename_ok (e : Env) : Prop :=
  match onRenameFile e with None => True | Some f => forall path name, fits (f path name) end.

Section effects.
Context (e : Env).

(** What the operations need of the transfer. *)
Definition receivable (s : St) : Prop :=
  alive s = true /\ wf (fileList (tr s)) /\ tarFlag (fileList (tr s)) = 0 /\ 14 < mtu (tr s) <= 14720 /\
  0 <= lastAckedHeaderFileId (tr s) <= num (fileList (tr s)).

Definition reaches (n next : DFileReceiveState) (l : list DFileReceiveState) : Prop := n = next \/ n ∈ l.
Ltac reach := unfold reaches in *; rewrite ?elem_of_cons, ?elem_of_nil in *; destruct_or?; subst; tauto.

Lemma ReceiveFileHeaderOngoing_view next s : alive s = true ->
  wp (ReceiveFileHeaderOngoing e next) (fun n s' => view s' = view s /\ reaches n next [STATE_SEND_FILE_HEADER_CONFIRM]) s.
Proof. intros Ha. unfold ReceiveFileHeaderOngoing. wp_steps. split; [done|]. case_if; reach. Qed.

Lemma NotifyRecvSucMsg_view s : alive s = true -> wf (fileList (tr s)) ->
  wp NotifyRecvSucMsg (fun _ s' => exists k, view s' = (view s) <| v_notified := true |> <| v_received := k |>) s.
Proof.
  intros Ha Hwf. unfold NotifyRecvSucMsg. wp_step. wp_step. wp_step.
  - wp_step. exists (v_received (view s)). unfold view. by rewrite E.
  - wp_step. eapply wp_mono; [by apply notify_received|]. intros ? s1 (k & Hv).
    assert (alive s1 = true) by alive_tac. wp_step. exists (k + v_received (view s))%nat.
    change ((view s1) <| v_notified := true |> = (view s) <| v_notified := true |> <| v_received := (k + v_received (view s))%nat |>).
    by rewrite Hv.
Qed.

Lemma StartReceiver_view s : alive s = true -> wf (fileList (tr s)) ->
  wp (StartFileManagerReceiverTask e) (fun r s' =>
    (r = NSTACKX_EOK /\ view s' = started (view s)) \/ (r <> NSTACKX_EOK /\ view s' = view s)) s.
Proof.
  intros Ha Hwf. unfold StartFileManagerReceiverTask. wp_step. wp_step. wp_step.
  { wp_step. left. split; [done|]. unfold started. cbn [view v_started]. by rewrite E. }
  apply quiet_then; [done|done|]. intros mem s1 Ha1 Hv1. wp_step; [wp_step; by right|]. wp_step.
  destruct (entries_ok _ Hwf 0 (Z.to_nat (FileListGetNum (fileList (tr s))))) as (l & Hl).
  { done. }
  { pose proof (wf_num _ Hwf). rewrite wf_GetNum by done. lia. }
  apply (wp_lift _ l); [done|]. apply quiet_then; [done|unfold quiet; by wp_step|]. intros _ s2 Ha2 Hv2.
  apply quiet_then; [done|done|]. intros r s3 Ha3 Hv3. assert (view s3 = view s) as Hv by (by rewrite Hv3, Hv2). clear Hv1 Hv2 Hv3.
  wp_step; [wp_step; by right|]. wp_step. apply wp_emit. wp_step. wp_step. wp_step. left. split; [done|].
  rewrite <- Hv. refine (view_start s3 _). change (v_started (view s3) = false). by rewrite Hv.
Qed.

Lemma confirm_loop_view fuel next s : receivable s ->
  wp (confirm_loop e fuel next) (fun r s' =>
    (exists x, 0 <= x <= num (fileList (tr s)) /\ view s' = (view s) <| v_lastAcked := x |>) /\
    match r with inl n => reaches n next [STATE_RECEIVE_FILE_FAIL] | inr n => n = next end) s.
Proof.
  revert s. induction fuel as [|fuel IH]; intros s (Ha & Hwf & Htar & Hm & Hl); [done|].
  cbn [confirm_loop]. wp_step. wp_step. wp_step.
  destruct (EncodeConfirm_spec (fileList (tr s)) Hwf 14720 (mtu (tr s)) (lastAckedHeaderFileId (tr s)))
    as (last' & m & buf & Heq & Hl' & _ & Hm1 & Hm2 & Htake); [lia..|].
  apply (wp_lift _ (last', m, buf)); [exact Heq|]. wp_step.
  assert (8 <= length buf)%nat as Hbl.
  { apply (f_equal length) in Htake. rewrite length_take in Htake.
    pose proof (length_confirm_frame 0 (user_ack (fileList (tr s)) ++ filter (fun id => got (fileList (tr s)) id = true)
      (seqZ (lastAckedHeaderFileId (tr s) + 1) (last' - lastAckedHeaderFileId (tr s))))). cbn zeta in Htake. lia. }
  eapply wp_mono; [by apply SendFrame_r_quiet|]. intros [r n] s1 (Hv & Hok & Hn).
  assert (alive s1 = true) as Ha1 by alive_tac. wp_step.
  - wp_step. split; [|reach]. exists (lastAckedHeaderFileId (tr s)). split; [lia|]. by rewrite Hv.
  - apply negb_false_iff, Z.eqb_eq in E. rewrite (Hok E). wp_step. wp_step. wp_step.
    + wp_step. split; [|done]. exists last'. split; [lia|].
      change ((view s1) <| v_lastAcked := last' |> = (view s) <| v_lastAcked := last' |>). by rewrite Hv.
    + match goal with |- wp _ _ ?x => set (s2 := x) end. assert (view s2 = (view s) <| v_lastAcked := last' |>) as Hv2.
      { change ((view s1) <| v_lastAcked := last' |> = (view s) <| v_lastAcked := last' |>). by rewrite Hv. }
      assert (fileList (tr s2) = fileList (tr s) /\ mtu (tr s2) = mtu (tr s)) as [Hfl Hmtu] by (by injection Hv2).
      eapply wp_mono.
      { apply IH. split; [alive_tac|]. rewrite Hfl, Hmtu. split; [done|]. split; [done|]. split; [lia|].
        change (lastAckedHeaderFileId (tr s2)) with last'. lia. }
      intros r' s' ((x & Hx & Hv') & Hr'). rewrite Hfl in Hx. split; [|done]. exists x. split; [done|]. by rewrite Hv', Hv2.
Qed.

Lemma SendFileHeaderConfirm_view fuel next s : receivable s ->
  wp (SendFileHeaderConfirm e fuel next) (fun n s' =>
    exists x, 0 <= x <= num (fileList (tr s)) /\
    ((reaches n next [STATE_RECEIVE_FILE_FAIL] /\ view s' = (view s) <| v_lastAcked := x |>) \/
     (n = STATE_RECEIVE_FILE_HEADER_ONGOING /\ v_names (view s) = false /\ view s' = (view s) <| v_lastAcked := x |>) \/
     (n = STATE_RECEIVE_FILE_DATA_ONGOING /\ v_names (view s) = true /\
      view s' = started ((view s) <| v_lastAcked := x |>)))) s.
Proof.
  intros Hr. unfold SendFileHeaderConfirm. wp_step. eapply wp_mono; [by apply confirm_loop_view|].
  intros r s1 ((x & Hx & Hv) & Hn). destruct Hr as (Ha & Hwf & Htar & _). assert (alive s1 = true) as Ha1 by alive_tac.
  assert (fileList (tr s1) = fileList (tr s) /\ allFileNameReceived (tr s1) = allFileNameReceived (tr s)) as [Hfl Hnm]
    by (by injection Hv).
  destruct r as [n|n].
  - wp_step. exists x. split; [done|]. by left.
  - subst n. wp_step. wp_step. rewrite Hnm. wp_step.
    + wp_step. eapply wp_mono; [apply StartReceiver_view; [done|by rewrite Hfl]|]. intros r s2 [[-> Hv2]|[Hr Hv2]].
      * wp_steps. exists x. split; [done|]. right. right.
        split; [done|]. split; [done|]. by rewrite Hv2, Hv.
      * replace (negb (r =? NSTACKX_EOK)) with true by bool_lia. assert (alive s2 = true) by alive_tac. wp_steps.
        exists x. split; [done|]. left. split; [reach|]. by rewrite <- Hv, <- Hv2.
    + wp_steps; exists x; (split; [done|]); [left; split; [reach|exact Hv]|right; left; split_and!; [done|exact E|exact Hv]].
Qed.

Lemma ReceiveFileDataPrepare_view s : alive s = true -> wf (fileList (tr s)) -> quiet (ReceiveFileDataPrepare e) s.
Proof.
  intros Ha Hwf. unfold quiet, ReceiveFileDataPrepare. wp_step. wp_step. wp_step; [|done].
  do 7 wp_step. eapply wp_mono; [by apply GetTotalFrameCount_quiet|]. intros n s1 Hv. cbv beta in Hv.
  assert (alive s1 = true) by alive_tac. wp_step. exact Hv.
Qed.

Lemma ReceiverIdleTimeout_view next s : alive s = true ->
  wp (ReceiverIdleTimeout e next) (fun '(_, n) s' => view s' = view s /\ reaches n next [STATE_SEND_FILE_DATA_ACK]) s.
Proof. intros Ha. unfold ReceiverIdleTimeout. wp_steps; (split; [done|reach]). Qed.

Lemma refresh_files_view l s : alive s = true -> wf (fileList (tr s)) ->
  Forall (fun p => 0 <= fst p <= num (fileList (tr s))) l ->
  wp (refresh_files l) (fun _ s' => exists fl, marks (fileList (tr s)) fl /\ view s' = (view s) <| v_list := fl |>) s.
Proof.
  revert s. induction l as [|[id ok] l IH]; intros s Ha Hwf Hl; cbn [refresh_files].
  { wp_step. exists (fileList (tr s)). split; [by apply marks_refl|done]. }
  apply Forall_cons in Hl as [Hid Hl]. simpl in Hid. wp_step.
  eapply (wp_mono _ (fun _ s' => exists fl, marks (fileList (tr s)) fl /\ view s' = (view s) <| v_list := fl |>)).
  { wp_step; [wp_step; exists (fileList (tr s)); split; [by apply marks_refl|done]|]. wp_step.
    - destruct (marks_or_flags (fileList (tr s)) (id - 1) NSTACKX_FLAGS_FILE_RECEIVE_SUCCESS Hwf) as (fl & Hfl & Hm & _);
        [lia|unfold NSTACKX_FLAGS_FILE_RECEIVE_SUCCESS; lia|]. eapply wp_modify_list; [done|exact Hfl|]. by exists fl.
    - destruct (marks_or_flags (fileList (tr s)) (id - 1) NSTACKX_FLAGS_FILE_RECEIVE_FAIL Hwf) as (fl & Hfl & Hm & _);
        [lia|unfold NSTACKX_FLAGS_FILE_RECEIVE_FAIL; lia|]. eapply wp_modify_list; [done|exact Hfl|]. by exists fl. }
  intros ? s1 (fl & Hm & Hv). assert (fileList (tr s1) = fl) as Hfl by (by injection Hv).
  eapply wp_mono.
  { apply IH; [alive_tac|by rewrite Hfl; apply Hm|]. rewrite Hfl. by rewrite (marks_rest _ _ Hm). }
  intros ? s2 (fl2 & Hm2 & Hv2). exists fl2. rewrite Hfl in Hm2. split; [by eapply marks_trans|]. by rewrite Hv2, Hv.
Qed.

Lemma RefreshFileRecvStatus_view s : alive s = true -> wf (fileList (tr s)) -> ids_ok e (num (fileList (tr s))) ->
  wp (RefreshFileRecvStatus e) (fun _ s' => exists fl, marks (fileList (tr s)) fl /\ view s' = (view s) <| v_list := fl |>) s.
Proof.
  intros Ha Hwf Hids. unfold RefreshFileRecvStatus. wp_step. wp_step.
  destruct (FileManagerGetReceivedFiles e (tick s)) as [l|] eqn:El.
  - wp_step. eapply wp_mono; [apply refresh_files_view; [done|done|by apply (Hids (tick s))]|]. done.
  - wp_step. exists (fileList (tr s)). split; [by apply marks_refl|done].
Qed.

Lemma heart_beat_view next s : alive s = true ->
  wp (heart_beat e next) (fun n s' => view s' = view s /\ reaches n next [STATE_RECEIVE_FILE_FAIL; STATE_SEND_FILE_DATA_ACK]) s.
Proof. intros Ha. unfold heart_beat. wp_steps; (split; [done|reach]). Qed.

Lemma ReceiveFileDataOngoing_view next s : receivable s -> (v_data (view s) = true -> ids_ok e (num (fileList (tr s)))) ->
  wp (ReceiveFileDataOngoing e next) (fun n s' => exists fl, marks (fileList (tr s)) fl /\ view s' = (view s) <| v_list := fl |> /\
    (reaches n next [STATE_SEND_FILE_HEADER_CONFIRM; STATE_RECEIVE_FILE_FAIL; STATE_SEND_FILE_DATA_ACK] \/
     (n = STATE_SEND_FILE_TRANSFER_DONE /\ FileListAllFileReceived fl = Some true))) s.
Proof.
  intros (Ha & Hwf & Htar & _) Hids. unfold ReceiveFileDataOngoing. pose proof (marks_refl _ Hwf) as Hm0. wp_step. wp_step. wp_step.
  { wp_steps. exists (fileList (tr s)). split; [done|]. split; [done|]. left. reach. }
  wp_step.
  - wp_step; [wp_step; exists (fileList (tr s)); split; [done|]; split; [done|]; left; reach|].
    wp_step. eapply wp_mono; [by apply RefreshFileRecvStatus_view; auto|]. intros r s1 (fl & Hm & Hv).
    assert (alive s1 = true) as Ha1 by alive_tac. wp_step.
    { wp_steps. exists fl. split; [done|]. split; [exact Hv|]. left. reach. }
    wp_step. wp_step. wp_step. assert (fileList (tr s1) = fl) as Hfl by (by injection Hv). rewrite Hfl.
    destruct (all_or_tar_ok fl (marks_wf _ _ Hm) NSTACKX_FLAGS_FILE_RECEIVE_SUCCESS) as (b & Hb).
    { left. by rewrite (marks_rest _ _ Hm). }
    apply (wp_lift _ b); [done|]. destruct b; cbv iota.
    + wp_step. exists fl. split; [done|]. split; [done|]. by right.
    + eapply wp_mono; [by apply heart_beat_view|]. intros n s2 [Hv2 Hn]. exists fl. split; [done|]. split; [by rewrite Hv2|].
      left. reach.
  - wp_step. eapply wp_mono; [by apply ReceiverIdleTimeout_view|]. intros [g n] s1 [Hv Hn].
    assert (alive s1 = true) as Ha1 by alive_tac. wp_step.
    { wp_steps. exists (fileList (tr s)). split; [done|]. split; [exact Hv|]. left. reach. }
    eapply wp_mono; [by apply heart_beat_view|]. intros n2 s2 [Hv2 Hn2]. exists (fileList (tr s)). split; [done|].
    split; [by rewrite Hv2|]. left. reach.
Qed.

Lemma put_ids_ok buf i ids : 0 <= i -> 8 + 2 * (i + Z.of_nat (length ids)) <= Z.of_nat (length buf) ->
  exists buf', put_ids buf i ids = Some buf' /\ length buf' = length buf.
Proof.
  revert buf i. induction ids as [|id ids IH]; intros buf i Hi Hl; [by eexists|]. cbn [put_ids]. unfold DFILE_FRAME_HEADER_LEN.
  simpl in Hl. destruct (put_ex buf (8 + 2 * i) (be_bytes 2 id)) as (b1 & -> & Hb1); [lia|rewrite length_be_bytes; lia|].
  cbn [mbind option_bind]. destruct (IH b1 (i + 1)) as (b2 & -> & Hb2); [lia..|]. eexists. split; [done|lia].
Qed.

Lemma EncodeDone_ok m ids : 14 < m <= 14720 ->
  exists len buf, EncodeFileTransferDoneFrame sendBuffer m ids = Some (len, buf) /\ (8 <= length buf)%nat.
Proof.
  intros Hm. pose proof length_sendBuffer as Hb. unfold EncodeFileTransferDoneFrame, DFILE_FRAME_HEADER_LEN, OFF_TYPE, OFF_LENGTH.
  rewrite (wrap_small 64) by (simpl Z.pow; lia). pose proof (Z.mul_div_le (m - 8) 2). pose proof (Z.div_pos (m - 8) 2).
  rewrite (wrap_small 32) by (simpl Z.pow; lia). set (k := if _ >? _ then _ else _).
  assert (0 <= k <= (m - 8) / 2) as Hk by (unfold k; destruct (_ >? _) eqn:E; lia).
  destruct (put_ids_ok sendBuffer 0 (take (Z.to_nat k) ids)) as (b1 & -> & Hb1).
  { done. }
  { rewrite length_take. lia. }
  cbn [mbind option_bind]. destruct (put_ex b1 0 (be_bytes 1 NSTACKX_DFILE_FILE_TRANSFER_DONE_FRAME)) as (b2 & -> & Hb2);
    [done|rewrite length_be_bytes; lia|]. cbn [mbind option_bind].
  destruct (put_ex b2 6 (be_bytes 2 (u16 (k * 2)))) as (b3 & -> & Hb3); [done|rewrite length_be_bytes; lia|].
  cbn [mbind option_bind]. eexists _, b3. split; [reflexivity|lia].
Qed.

Lemma SendFileTransferDoneFrame_view next s : receivable s ->
  wp (SendFileTransferDoneFrame e next) (fun n s' =>
    reaches n next [STATE_RECEIVE_FILE_FAIL; STATE_WAIT_FOR_FILE_TRANSFER_DONE_ACK] /\
    (view s' = view s \/ exists k, view s' = (view s) <| v_notified := true |> <| v_received := k |>)) s.
Proof.
  intros (Ha & Hwf & _ & Hm & _). unfold SendFileTransferDoneFrame. wp_step. wp_step. wp_step. wp_step. wp_step. wp_step. wp_step.
  { wp_steps. split; [reach|by left]. }
  wp_step. eapply wp_mono; [by apply NotifyRecvSucMsg_view|]. intros ? s1 (k & Hv). assert (alive s1 = true) as Ha1 by alive_tac.
  assert (fileList (tr s1) = fileList (tr s) /\ mtu (tr s1) = mtu (tr s)) as [Hfl Hmtu] by (by injection Hv).
  wp_step. wp_step. wp_step. rewrite Hfl, Hmtu. destruct (received_ids_ok _ Hwf) as (ids & Hids). apply (wp_lift _ ids); [done|].
  wp_step. destruct (EncodeDone_ok (mtu (tr s)) ids Hm) as (len & buf & Heq & Hb). apply (wp_lift _ (len, buf)); [exact Heq|].
  wp_step. eapply wp_mono; [by apply SendFrame_r_quiet|]. intros [r n] s2 (Hv2 & _ & Hn). wp_step.
  split; [case_if; reach|]. right. exists k. by rewrite Hv2.
Qed.

Lemma WaitForFileTransferDoneAck_view next s : alive s = true ->
  wp (WaitForFileTransferDoneAck e next) (fun n s' => view s' = view s /\
    reaches n next [STATE_RECEIVE_FILE_DONE; STATE_RECEIVE_FILE_FAIL; STATE_SEND_FILE_TRANSFER_DONE]) s.
Proof. intros Ha. unfold WaitForFileTransferDoneAck. wp_steps; (split; [done|reach]). Qed.

Lemma SendFileDataAck_view s : alive s = true -> wp (SendFileDataAck e) (fun n s' => view s' = view s /\ n = STATE_RECEIVE_FILE_DATA_ONGOING) s.
Proof.
  intros Ha. unfold SendFileDataAck. wp_step. wp_step. wp_step. wp_step. wp_step.
  eapply (wp_mono _ (fun _ s' => view s' = view s)); [|by intros ? s1 Hv; wp_step].
  unfold SendBackPressureFrame. wp_step; [done|]. wp_step. unfold wp at 1, get_over_io. wp_step.
  destruct (EncodeBackPressFrame (zeros (Z.to_nat NSTACKX_DEFAULT_FRAME_SIZE)) NSTACKX_DEFAULT_FRAME_SIZE (recvListOverIo_ s))
    as [[len buf]|] eqn:Eq.
  - apply (wp_lift _ (len, buf)); [exact Eq|]. clear Eq. wp_step. wp_step. wp_step.
    match goal with |- wp _ _ ?x => set (s1 := x) end. assert (view s1 = view s) as Hv1 by done.
    eapply (wp_mono _ (fun _ s' => view s' = view s)); [wp_step; [by apply wp_emit; rewrite view_out|done]|].
    intros ? s2 Hv2. wp_step. eapply (wp_mono _ (fun _ s' => view s' = view s)).
    { assert (alive s2 = true) by alive_tac. wp_steps; exact Hv2. }
    by intros ? s3 Hv3.
  - exfalso. revert Eq. unfold EncodeBackPressFrame, NSTACKX_DEFAULT_FRAME_SIZE, DFILE_FRAME_HEADER_LEN.
    destruct (put_ex (zeros (Z.to_nat 1472)) 0 (be_bytes 1 NSTACKX_DFILE_FILE_BACK_PRESSURE_FRAME ++ be_bytes 1 0 ++ be_bytes 2 0
                     ++ be_bytes 2 0 ++ be_bytes 2 6 ++ be_bytes 1 (recvListOverIo_ s) ++ be_bytes 1 0 ++ be_bytes 4 0))
      as (b & Hb & _); [done|unfold zeros; rewrite !length_app, !length_be_bytes, length_replicate; lia|].
    rewrite Hb. done.
Qed.

(** ** Changing the state *)

Definition settled (v : View) (n : DFileReceiveState) : DFileReceiveState :=
  if (recv_rank (v_recv v) >? recv_rank STATE_SEND_FILE_TRANSFER_DONE) && bool_decide (n = STATE_RECEIVE_FILE_FAIL)
  then STATE_RECEIVE_FILE_DONE else n.

Definition moved (v : View) (n : DFileReceiveState) : View :=
  if decide (v_recv v = n) then v
  else
    let last := if decide (n = STATE_SEND_FILE_HEADER_CONFIRM) then 0 else v_lastAcked v in
    let v' := v <| v_lastAcked := last |> <| v_recv := settled v n |> in
    if recv_finished (settled v n) then stopped v' else v'.

Lemma SetReceiveState_view n s : alive s = true -> wf (fileList (tr s)) ->
  wp (SetReceiveState e n) (fun _ s' => view s' = moved (view s) n) s.
Proof.
  intros Ha Hwf. unfold SetReceiveState. wp_step. wp_step. unfold moved. cbn [view v_recv].
  destruct (decide (recvState (tr s) = n)) as [|Hne]; [done|]. wp_step.
  eapply (wp_mono _ (fun _ s' => view s' =
    (view s) <| v_lastAcked := if decide (n = STATE_SEND_FILE_HEADER_CONFIRM) then 0 else v_lastAcked (view s) |>)).
  { destruct n; try done; unfold SetReceiveStateHandle, ReceiveFileHeaderPrepare, WaitForFileTransferDoneAckPrepare; wp_steps;
      try done. by apply ReceiveFileDataPrepare_view. }
  intros _ s1 Hv1. assert (alive s1 = true) as Ha1 by alive_tac. wp_step. wp_step. wp_step.
  assert (recvState (tr s1) = recvState (tr s)) as Hs1 by (by injection Hv1). rewrite Hs1.
  match goal with |- context [if ?b && bool_decide (n = STATE_RECEIVE_FILE_FAIL) then STATE_RECEIVE_FILE_DONE else n] =>
    change (if b && bool_decide (n = STATE_RECEIVE_FILE_FAIL) then STATE_RECEIVE_FILE_DONE else n) with (settled (view s) n) end.
  wp_step. set (n' := settled _ n). match goal with |- wp _ _ ?x => set (s2 := x) end.
  assert (view s2 = (view s) <| v_lastAcked := if decide (n = STATE_SEND_FILE_HEADER_CONFIRM) then 0 else v_lastAcked (view s) |>
                             <| v_recv := n' |>) as Hv2.
  { change (view s2) with ((view s1) <| v_recv := n' |>). by rewrite Hv1. }
  destruct (recv_finished n') eqn:Ef.
  - eapply wp_mono; [by apply stop_task_view|]. intros _ s' ->. by rewrite Hv2.
  - wp_steps. exact Hv2.
Qed.
End effects.

(** ** Invariant *)

(** What state [n] promises. *)
Record promises (v : View) (n : DFileReceiveState) : Prop := {
  p_names : 3 <= recv_rank n <= 7 -> v_names v = true;
  p_received : 5 <= recv_rank n <= 7 -> FileListAllFileReceived (v_list v) = Some true;
  p_running : 3 <= recv_rank n <= 6 -> v_started v = true
}.

Record sound (e : Env) (v : View) : Prop := {
  s_alive : v_alive v = true;
  s_receiver : v_sender v = false;
  s_wf : wf (v_list v);
  s_tar : tarFlag (v_list v) = 0;
  s_mtu' : 14 < v_mtu v <= 14720;
  s_last : 0 <= v_lastAcked v <= num (v_list v);
  s_ends : v_ends v = 0%nat;
  s_sent : v_sent v = 0%nat;
  s_balance : v_starts v = (v_stops v + Nat.b2n (v_started v))%nat;
  s_names : v_names v = true -> num (v_list v) <> 0 /\ all_or_tar (v_list v) NSTACKX_FLAGS_FILE_NAME_RECEIVED = Some true;
  s_started : v_started v = true -> v_names v = true;
  s_data : v_data v = true -> num (v_list v) <> 0 /\ ids_ok e (num (v_list v));
  s_notified : v_notified v = true -> num (v_list v) <> 0 /\ FileListAllFileReceived (v_list v) = Some true;
  s_received : v_notified v = false -> v_received v = 0%nat
}.

Definition receiver_inv (e : Env) (v : View) : Prop :=
  sound e v /\ promises v (v_recv v) /\ (v_started v = true -> 2 <= recv_rank (v_recv v) <= 6).

Definition asks (e : Env) (v : View) (n : DFileReceiveState) : Prop :=
  sound e v /\ promises v (v_recv v) /\ promises v n /\
  (v_started v = true -> 2 <= recv_rank n <= 6 \/ (n <> v_recv v /\ 7 <= recv_rank n)).

Lemma recv_finished_rank n : recv_finished n = true <-> 7 <= recv_rank n.
Proof. destruct n; unfold recv_finished; simpl; split; done || lia. Qed.

Section invariant.
Context (e : Env).

Lemma recv_stopped_sound v : sound e v -> sound e (stopped v) /\ v_started (stopped v) = false.
Proof.
  intros []. unfold stopped. destruct (v_started v) eqn:E; [|by split; [constructor; by rewrite ?E|]].
  split; [|done]. constructor; cbn; try done. simpl in *. lia.
Qed.

Lemma recv_started_sound v : sound e v -> v_names v = true -> sound e (started v).
Proof.
  intros [] Hn. unfold started. destruct (v_started v) eqn:E; [by constructor; rewrite ?E|]. constructor; cbn; try done.
  simpl in *. lia.
Qed.

Lemma recv_moved_inv v n : asks e v n -> receiver_inv e (moved v n).
Proof.
  intros (Hs & Hc & Hn & Hst). unfold moved. destruct (decide (v_recv v = n)) as [<-|Hne].
  { split; [done|]. split; [done|]. intros H. destruct (Hst H) as [|[[] _]]; done. }
  cbv zeta. match goal with |- context [stopped ?x] => set (v1 := x) end. pose proof (wf_num _ (s_wf _ _ Hs)).
  assert (sound e v1) as Hs1.
  { destruct Hs. constructor; try done. cbn. case_decide; lia. }
  assert (promises v1 (settled v n)) as Hp1.
  { unfold settled. destruct (_ && _) eqn:E; [|by destruct Hn; constructor].
    apply andb_true_iff in E as [E En%bool_decide_eq_true]. cbn in E. subst n.
    assert (6 <= recv_rank (v_recv v) <= 7) by (destruct (v_recv v); simpl in *; lia || done).
    destruct Hc. constructor; cbn; intros; try lia; [apply p_names0; lia|apply p_received0; lia]. }
  destruct (recv_finished (settled v n)) eqn:Ef; cbn zeta.
  - destruct (recv_stopped_sound _ Hs1) as [Hs2 Hf]. apply recv_finished_rank in Ef. split; [done|].
    assert (v_recv (stopped v1) = settled v n /\ v_list (stopped v1) = v_list v /\ v_names (stopped v1) = v_names v) as (-> & El & Ed).
    { unfold stopped. by destruct (v_started v1). }
    split; [|by rewrite Hf]. destruct Hp1 as [P1 P2 P3]. constructor; rewrite ?El, ?Ed; auto. lia.
  - split; [done|]. split; [done|]. intros H0. change (2 <= recv_rank (settled v n) <= 6).
    assert (~ 7 <= recv_rank (settled v n)) by (rewrite <- recv_finished_rank, Ef; done).
    unfold settled in *. destruct (_ && _) eqn:E; [by simpl in *; lia|]. destruct (Hst H0) as [|[_ ?]]; lia.
Qed.

(** The list may grow. *)
Lemma grow_sound v fl : sound e v -> grows (v_list v) fl -> sound e (v <| v_list := fl |>).
Proof.
  intros [] Hg. pose proof (wf_num _ s_wf0). pose proof (wf_num _ (grows_wf _ _ Hg)).
  assert (num (v_list v) <> 0 -> num fl = num (v_list v)) as Hn by apply Hg.
  constructor; cbn; try done.
  - apply Hg.
  - rewrite (grows_tar _ _ Hg). done.
  - destruct (decide (num (v_list v) = 0)) as [E|E]; [lia|]. rewrite Hn; lia.
  - intros Hv. destruct (s_names0 Hv) as [H1 H2]. rewrite Hn by done. split; [done|]. by eapply all_or_tar_grows.
  - intros Hv. destruct (s_data0 Hv) as [H1 H2]. by rewrite Hn.
  - intros Hv. destruct (s_notified0 Hv) as [H1 H2]. rewrite Hn by done. split; [done|].
    by apply (all_or_tar_grows (v_list v)).
Qed.

Lemma grow_promises v fl n : sound e v -> grows (v_list v) fl -> promises v n -> promises (v <| v_list := fl |>) n.
Proof.
  intros Hs Hg []. constructor; cbn; try done. intros Hr. apply (all_or_tar_grows (v_list v)); [apply Hs|done| |by apply p_received0].
  apply (s_names _ _ Hs), p_names0. lia.
Qed.

Lemma grow_inv v fl : receiver_inv e v -> grows (v_list v) fl -> receiver_inv e (v <| v_list := fl |>).
Proof. intros (Hs & Hp & Hst) Hg. split; [by apply grow_sound|]. split; [by apply grow_promises|done]. Qed.

Lemma recv_asks_same v n : receiver_inv e v -> n = v_recv v -> asks e v n.
Proof. intros (Hs & Hp & Hst) ->. split_and!; auto. Qed.

Lemma recv_asks_fail v : receiver_inv e v -> recv_rank (v_recv v) <= 6 -> asks e v STATE_RECEIVE_FILE_FAIL.
Proof.
  intros (Hs & Hp & Hst) Hr. split_and!; auto.
  - constructor; simpl; lia.
  - intros _. right. split; [|done]. intros E. rewrite <- E in Hr. simpl in Hr. lia.
Qed.

(** Without a running task: the states before the data phase. *)
Lemma recv_asks_early v n : receiver_inv e v -> (v_started v = true -> 2 <= recv_rank n) -> recv_rank n <= 2 -> asks e v n.
Proof.
  intros (Hs & Hp & Hst) Hr Hn. split_and!; auto.
  - constructor; lia.
  - intros H. left. specialize (Hr H). lia.
Qed.

Lemma recv_asks_data v n : receiver_inv e v -> 3 <= recv_rank (v_recv v) <= 6 -> 3 <= recv_rank n <= 7 ->
  (5 <= recv_rank n -> FileListAllFileReceived (v_list v) = Some true) -> n <> v_recv v \/ recv_rank n <= 6 -> asks e v n.
Proof.
  intros (Hs & Hp & Hst) Hr Hn Hd Hne. split_and!; auto.
  - constructor; [intros; apply (p_names _ _ Hp); lia|intros; apply Hd; lia|intros; apply (p_running _ _ Hp); lia].
  - intros _. destruct (decide (recv_rank n <= 6)); [left; lia|right]. split; [|lia]. destruct Hne; [done|lia].
Qed.

Lemma notified_inv v k : receiver_inv e v -> num (v_list v) <> 0 -> FileListAllFileReceived (v_list v) = Some true ->
  receiver_inv e (v <| v_notified := true |> <| v_received := k |>).
Proof. intros ([] & [] & Hst) Hn Hr. split; [|split; [|done]]; by constructor. Qed.

Lemma acked_inv v x : receiver_inv e v -> 0 <= x <= num (v_list v) -> receiver_inv e (v <| v_lastAcked := x |>).
Proof. intros ([] & [] & Hst) Hx. split; [|split; [|done]]; by constructor. Qed.
End invariant.

(** ** The state machine *)

Section machine.
Context (e : Env).

Lemma inv_receivable s : sound e (view s) -> receivable s.
Proof. intros []. exact (conj s_alive0 (conj s_wf0 (conj s_tar0 (conj s_mtu'0 s_last0)))). Qed.

Ltac reached H := unfold reaches in H; rewrite ?elem_of_cons, ?elem_of_nil in H; destruct_or? H; try done.

Lemma confirm_step_inv hf s : receiver_inv e (view s) -> v_recv (view s) = STATE_SEND_FILE_HEADER_CONFIRM ->
  wp (SendFileHeaderConfirm e hf (recvState (tr s))) (fun n s' => asks e (view s') n) s.
Proof.
  intros Hi Es. pose proof (proj1 Hi) as Hs. eapply wp_mono; [by apply SendFileHeaderConfirm_view, inv_receivable|].
  intros n s' (x & Hx & Hn). pose proof (acked_inv e (view s) x Hi Hx) as Hi'.
  destruct Hn as [[Hn Hv]|[(-> & Hnm & Hv)|(-> & Hnm & Hv)]]; rewrite Hv.
  - reached Hn; subst n; [by apply recv_asks_same|]. apply recv_asks_fail; [done|]. cbn. change (recvState (tr s)) with (v_recv (view s)).
    rewrite Es. simpl. lia.
  - apply recv_asks_early; [done| |simpl; lia]. intros Hst. pose proof (s_started _ _ Hs Hst). congruence.
  - set (v1 := (view s) <| v_lastAcked := x |>) in *.
    assert (v_recv (started v1) = v_recv (view s) /\ v_started (started v1) = true /\ v_names (started v1) = true) as (E1 & E2 & E3).
    { unfold started. destruct (v_started v1) eqn:E; done. }
    split; [by apply recv_started_sound; [apply Hi'|]|]. rewrite E1, Es. split; [constructor; simpl; lia|].
    split; [|intros _; left; simpl; lia]. constructor; simpl; [done|lia|done].
Qed.

Lemma data_step_inv s : receiver_inv e (view s) -> v_recv (view s) = STATE_RECEIVE_FILE_DATA_ONGOING ->
  wp (ReceiveFileDataOngoing e (recvState (tr s))) (fun n s' => asks e (view s') n) s.
Proof.
  intros Hi Es. pose proof (proj1 Hi) as Hs. eapply wp_mono.
  { apply ReceiveFileDataOngoing_view; [by apply inv_receivable|]. intros Hd. by apply (s_data _ _ Hs). }
  intros n s' (fl & Hm & Hv & Hn). pose proof (grow_inv e (view s) fl Hi (marks_grows _ _ Hm)) as Hi'. rewrite Hv.
  assert (v_recv ((view s) <| v_list := fl |>) = STATE_RECEIVE_FILE_DATA_ONGOING) as Es' by done.
  destruct Hn as [Hn|[-> Hall]].
  - reached Hn; subst n; [by apply recv_asks_same|apply recv_asks_early|apply recv_asks_fail|apply recv_asks_data];
      rewrite ?Es'; simpl; auto; lia.
  - apply recv_asks_data; rewrite ?Es'; simpl; auto; lia.
Qed.

Lemma done_step_inv s : receiver_inv e (view s) -> v_recv (view s) = STATE_SEND_FILE_TRANSFER_DONE ->
  wp (SendFileTransferDoneFrame e (recvState (tr s))) (fun n s' => asks e (view s') n) s.
Proof.
  intros Hi Es. pose proof (proj1 Hi) as Hs. eapply wp_mono; [by apply SendFileTransferDoneFrame_view, inv_receivable|].
  intros n s' [Hn Hv]. assert (FileListAllFileReceived (v_list (view s)) = Some true) as Hall.
  { destruct Hi as (_ & [] & _). apply p_received0. rewrite Es. simpl. lia. }
  assert (num (v_list (view s)) <> 0) as Hnum.
  { destruct Hi as (_ & [] & _). apply (s_names _ _ Hs), p_names0. rewrite Es. simpl. lia. }
  assert (receiver_inv e (view s') /\ v_recv (view s') = STATE_SEND_FILE_TRANSFER_DONE /\
          FileListAllFileReceived (v_list (view s')) = Some true) as (Hi' & Es' & Hall').
  { destruct Hv as [->|(k & ->)]; [done|]. split; [by apply notified_inv|done]. }
  reached Hn; subst n; [apply recv_asks_same|apply recv_asks_fail|apply recv_asks_data]; rewrite ?Es'; simpl; auto; lia.
Qed.

Lemma receiver_step_inv hf s : receiver_inv e (view s) ->
  wp (receiver_step e hf (recvState (tr s))) (fun n s' => asks e (view s') n) s.
Proof.
  intros Hi. pose proof (proj1 Hi) as Hs. assert (alive s = true) as Ha by apply Hs.
  unfold receiver_step. wp_step. wp_step. destruct (recvState (tr s)) eqn:Est; rewrite <- ?Est.
  - assert (v_recv (view s) = STATE_RECEIVE_FILE_INIT) as Es by done.
    refine (recv_asks_early e (view s) STATE_RECEIVE_FILE_HEADER_ONGOING Hi _ ltac:(done)).
    intros H. destruct Hi as (_ & _ & Hst). specialize (Hst H). rewrite Es in Hst. simpl in Hst. lia.
  - assert (v_recv (view s) = STATE_RECEIVE_FILE_HEADER_ONGOING) as Es by done.
    eapply wp_mono; [by apply ReceiveFileHeaderOngoing_view|]. intros n s' [Hv Hn]. rewrite Hv.
    reached Hn; subst n; [by apply recv_asks_same|]. by apply recv_asks_early.
  - by apply confirm_step_inv.
  - by apply data_step_inv.
  - assert (v_recv (view s) = STATE_SEND_FILE_DATA_ACK) as Es by done.
    eapply wp_mono; [by apply SendFileDataAck_view|]. intros n s' [Hv ->]. rewrite Hv.
    apply recv_asks_data; rewrite ?Es; simpl; auto; lia.
  - by apply done_step_inv.
  - assert (v_recv (view s) = STATE_WAIT_FOR_FILE_TRANSFER_DONE_ACK) as Es by done.
    assert (FileListAllFileReceived (v_list (view s)) = Some true) as Hall.
    { destruct Hi as (_ & [] & _). apply p_received0. rewrite Es. simpl. lia. }
    eapply wp_mono; [by apply WaitForFileTransferDoneAck_view|]. intros n s' [Hv Hn]. rewrite Hv.
    reached Hn; subst n; [apply recv_asks_same|apply recv_asks_data|apply recv_asks_fail|apply recv_asks_data];
      rewrite ?Es; simpl; auto; lia.
  - wp_step. by apply recv_asks_same.
  - wp_step. by apply recv_asks_same.
Qed.

Lemma recv_settled_unfinished v n : recv_finished (settled v n) = false -> settled v n = n.
Proof. unfold settled. by destruct (_ && _). Qed.

Lemma recv_moved_state v n : v_recv v <> n -> v_recv (moved v n) = settled v n.
Proof.
  intros Hne. unfold moved. rewrite decide_False by done. cbv zeta. case_if; [|done].
  unfold stopped. cbn [v_started]. by destruct (v_started v).
Qed.

Lemma receiver_loop_inv hf fuel s : receiver_inv e (view s) ->
  wp (receiver_loop e hf fuel (recvState (tr s))) (fun _ s' => receiver_inv e (view s')) s.
Proof.
  revert s. induction fuel as [|fuel IH]; intros s Hi; [done|]. cbn [receiver_loop]. wp_step.
  eapply wp_mono; [by apply receiver_step_inv|]. intros n s1 Hask. assert (alive s1 = true) as Ha1 by apply Hask.
  pose proof (recv_moved_inv _ _ _ Hask) as Hmv. pose proof (s_wf _ _ (proj1 Hask)) as Hwf1.
  wp_step. wp_step. destruct (decide (recvState (tr s1) = n)) as [Heq|Hne].
  { wp_step. unfold moved in Hmv. by rewrite decide_True in Hmv. }
  wp_step. eapply wp_mono; [by apply SetReceiveState_view|]. intros ? s2 Hv2. cbv beta in Hv2. rewrite <- Hv2 in Hmv.
  assert (alive s2 = true) as Ha2 by apply Hmv. wp_step. wp_step.
  destruct (recv_finished (recvState (tr s2))) eqn:Ef; [by wp_step|].
  assert (recvState (tr s2) = n) as Hn2.
  { change (v_recv (view s2) = n). change (recv_finished (v_recv (view s2)) = false) in Ef.
    rewrite Hv2, recv_moved_state in Ef |- * by done. by apply recv_settled_unfinished. }
  rewrite <- Hn2. by apply IH.
Qed.

Lemma ReceiverFsm_inv hf fuel s : receiver_inv e (view s) ->
  wp (ReceiverFsm e hf fuel) (fun _ s' => receiver_inv e (view s')) s.
Proof.
  intros Hi. assert (alive s = true) as Ha by apply Hi. unfold ReceiverFsm. wp_step. wp_step. by apply receiver_loop_inv.
Qed.

Lemma recv_TransferFsm_inv hf fuel s : receiver_inv e (view s) ->
  wp (TransferFsm e hf fuel) (fun _ s' => receiver_inv e (view s')) s.
Proof.
  intros Hi. assert (alive s = true) as Ha by apply Hi. assert (isSender (tr s) = false) as Hs by apply Hi.
  unfold TransferFsm. wp_step. wp_step. rewrite Hs. by apply ReceiverFsm_inv.
Qed.

(** ** Frames *)

Lemma strcpy_wf name en : strlen name < 1024 -> wf_entry en ->
  wf_entry (en <| fileName := splice 0 (name ++ [Byte.x00]) (fileName en) |>).
Proof.
  intros Hl (H1 & H2 & H3). split; [|split; [|done]]; cbn [fileName].
  - rewrite length_splice; [done|]. rewrite length_app, H1. simpl. lia.
  - unfold splice. rewrite take_0. cbn [app]. rewrite length_app. simpl length.
    destruct (decide (length name = 1023%nat)) as [E|E].
    + rewrite <- E, lookup_app_l by (rewrite length_app; simpl; lia). rewrite lookup_app_r by lia. by rewrite Nat.sub_diag.
    + rewrite lookup_app_r by (rewrite length_app; simpl; lia). rewrite lookup_drop, length_app. simpl length.
      by replace (0 + (length name + 1) + (1023 - (length name + 1)))%nat with 1023%nat by lia.
Qed.

Lemma RenameFile_ok fl id name : wf fl -> 1 <= id <= num fl -> 0 < strlen name < 1024 ->
  exists fl', FileListRenameFile (Some fl) id (Some name) = Some (NSTACKX_EOK, Some fl') /\ grows fl fl'.
Proof.
  intros Hwf Hid Hn. destruct (wf_entry_in fl (id - 1) Hwf) as (en & He & Hwe); [lia|].
  unfold FileListRenameFile, NSTACKX_MAX_REMOTE_PATH_LEN. replace (_ || _ || _ || _) with false by bool_lia. rewrite He.
  cbn [mbind option_bind]. unfold strcpy_s. replace (strlen name <? 1024) with true by bool_lia.
  destruct (grows_set_entry fl (id - 1) (fun x => x <| fileName := splice 0 (name ++ [Byte.x00]) (fileName en) |>) Hwf)
    as (fl' & -> & Hg & _); [lia| |intros; apply keeps_refl|by eexists].
  intros x (H1 & H2 & H3). destruct (strcpy_wf name en) as (W1 & W2 & _); [lia|done|]. exact (conj W1 (conj W2 H3)).
Qed.

Lemma rename_loop_view f path i n s : (forall p name, fits (f p name)) -> alive s = true -> wf (fileList (tr s)) ->
  0 <= i -> i + Z.of_nat n <= num (fileList (tr s)) ->
  wp (rename_loop f path i n) (fun r s' => r = NSTACKX_EOK /\
    exists fl, grows (fileList (tr s)) fl /\ view s' = (view s) <| v_list := fl |>) s.
Proof.
  intros Hf. revert i s. induction n as [|n IH]; intros i s Ha Hwf Hi Hn; cbn [rename_loop].
  { wp_step. split; [done|]. exists (fileList (tr s)). split; [by apply grows_refl|done]. }
  wp_step. wp_step. wp_step. destruct (wf_entry_in (fileList (tr s)) i Hwf) as (en & He & _); [lia|].
  apply (wp_lift _ (cstr (fileName en))).
  { unfold FileListGetFileName. replace (i + 1 - 1) with i by lia. by rewrite He. }
  cbv zeta. destruct (Hf path (cstr (fileName en))) as [[H1 H2] H3]. unfold NSTACKX_MAX_REMOTE_PATH_LEN.
  replace ((strlen _ =? 0) || _) with false by bool_lia. replace (GetFileNameLen _ >? _) with false by bool_lia. cbv iota. wp_step.
  destruct (RenameFile_ok (fileList (tr s)) (i + 1) (f path (cstr (fileName en)))) as (fl & Hfl & Hg); [done|lia|lia|].
  apply (wp_lift _ (NSTACKX_EOK, Some fl)); [exact Hfl|]. wp_step. eapply wp_modify_list; [done|reflexivity|]. cbv zeta.
  match goal with |- wp _ _ ?x => set (s1 := x) end. assert (fileList (tr s1) = fl) as Hfl1 by done.
  assert (view s1 = (view s) <| v_list := fl |>) as Hv1 by done. assert (alive s1 = true) as Ha1 by done. clearbody s1.
  wp_step. eapply wp_mono; [apply IH; [done|rewrite Hfl1; apply Hg|lia|]|].
  { rewrite Hfl1, (grows_num _ _ Hg); lia. }
  intros r s2 (Hr & fl2 & Hg2 & Hv2). rewrite Hfl1 in Hg2. split; [done|]. exists fl2. split; [by eapply grows_trans|].
  by rewrite Hv2, Hv1.
Qed.

Lemma RenameFileIfExisting_view s : rename_ok e -> alive s = true -> wf (fileList (tr s)) ->
  wp (RenameFileIfExisting e) (fun r s' => r = NSTACKX_EOK /\
    exists fl, grows (fileList (tr s)) fl /\ view s' = (view s) <| v_list := fl |>) s.
Proof.
  intros Hr Ha Hwf. unfold RenameFileIfExisting. wp_step. wp_step. unfold rename_ok in Hr. destruct (onRenameFile e) as [f|].
  - pose proof (wf_num _ Hwf). apply rename_loop_view; [done..|]. rewrite wf_GetNum by done. lia.
  - wp_step. split; [done|]. exists (fileList (tr s)). split; [by apply grows_refl|done].
Qed.

Lemma names_inv v : receiver_inv e v -> num (v_list v) <> 0 ->
  all_or_tar (v_list v) NSTACKX_FLAGS_FILE_NAME_RECEIVED = Some true -> receiver_inv e (v <| v_names := true |>).
Proof. intros ([] & [] & Hst) Hn Hr. split; [|split; [|done]]; by constructor. Qed.

Lemma name_received_inv fl : tarFlag fl = 0 -> FileListAllFileNameReceived fl = Some true ->
  num fl <> 0 /\ all_or_tar fl NSTACKX_FLAGS_FILE_NAME_RECEIVED = Some true.
Proof.
  unfold FileListAllFileNameReceived. intros _. destruct (num fl =? 0) eqn:E; [done|]. case_if; [done|]. split; [lia|done].
Qed.

Lemma header_frame_inv frame s : rename_ok e -> DecodeDFileFrame frame = Some NSTACKX_EOK -> receiver_inv e (view s) ->
  wp (HandleFileNameTableFrame e frame) (fun _ s' => receiver_inv e (view s')) s.
Proof.
  intros Hr Hacc Hi. assert (alive s = true) as Ha by apply Hi. assert (wf (fileList (tr s))) as Hwf by apply (s_wf _ _ (proj1 Hi)).
  unfold HandleFileNameTableFrame. wp_step. wp_step. wp_step; [by wp_step|]. wp_step; [by wp_step|].
  do 5 wp_step.
  match goal with |- wp (lift (DecodeFileHeaderFrame ?a ?b _ _)) _ _ =>
    destruct (header_decode_safe a b (fileList (tr s)) frame Hwf Hacc) as (r & fl & Hd & Hg) end.
  apply (wp_lift _ (r, fl)); [exact Hd|]. wp_step. eapply wp_modify_list; [done|reflexivity|]. cbv zeta.
  match goal with |- wp _ _ ?x => set (s1 := x) end. pose proof (grow_inv e (view s) fl Hi Hg) as Hi1.
  assert (view s1 = (view s) <| v_list := fl |>) as Hv1 by done. rewrite <- Hv1 in Hi1.
  assert (alive s1 = true) as Ha1 by done. clearbody s1. wp_step.
  eapply (wp_mono _ (fun _ s' => receiver_inv e (view s'))); [|by intros ? s2 ?; wp_step].
  wp_step; [|wp_step; exact Hi1]. wp_step. destruct (name_received_ok fl (grows_wf _ _ Hg)) as (b & Hb).
  apply (wp_lift _ b); [done|]. wp_step. wp_step. apply negb_true_iff in E1.
  assert (v_names (view s1) = false) as Hn1 by (by rewrite Hv1). assert (v_list (view s1) = fl) as Hl1 by (by rewrite Hv1).
  destruct b; cbv iota; wp_step.
  - match goal with |- wp _ _ ?x => set (s2 := x) end.
    assert (receiver_inv e (view s2)) as Hi2.
    { destruct (name_received_inv fl) as [Hnum Hall]; [rewrite <- Hl1; apply Hi1|done|].
      apply (names_inv (view s1)); [done|by rewrite Hl1..]. }
    assert (alive s2 = true) as Ha2 by done. clearbody s2.
    eapply wp_mono; [by apply RenameFileIfExisting_view; [| |apply (s_wf _ _ (proj1 Hi2))]|].
    intros rr s3 (-> & fl3 & Hg3 & Hv3). pose proof (grow_inv e (view s2) fl3 Hi2 Hg3) as Hi3. rewrite <- Hv3 in Hi3.
    wp_step. eapply (wp_mono _ (fun _ s' => view s' = view s3)); [by wp_steps|]. intros ? s4 Hv4.
    eapply wp_mono; [apply notify_plain; [alive_tac || by apply Hi3| |done..]|].
    + change (wf (v_list (view s4))). rewrite Hv4. apply Hi3.
    + intros ? s5 Hv5. cbv beta in Hv5. by rewrite Hv5, Hv4.
  - unfold view. cbn [tr alive out allFileNameReceived]. change (allFileNameReceived (tr s1)) with (v_names (view s1)) in *.
    destruct Hi1 as ([] & [] & Hst). rewrite Hn1 in *. split; [|split; [|done]]; by constructor.
Qed.

Lemma last_block_ok fl : wf fl -> num fl <> 0 -> exists x, FileListGetLastBlockReceived fl (FileListGetNum fl) = Some x.
Proof.
  intros Hwf Hn. pose proof (wf_num _ Hwf). rewrite wf_GetNum by done. unfold FileListGetLastBlockReceived.
  destruct (wf_entry_in fl (num fl - 1) Hwf) as (en & -> & _); [lia|]. by eexists.
Qed.

Lemma UpdateTransParam_view endFlag id len s : alive s = true -> wf (fileList (tr s)) -> 1 <= id <= num (fileList (tr s)) ->
  wp (UpdateTransParam e endFlag id len) (fun _ s' =>
    exists fl, marks (fileList (tr s)) fl /\ view s' = (view s) <| v_list := fl |>) s.
Proof.
  intros Ha Hwf Hid. unfold UpdateTransParam. wp_step. wp_step. wp_step.
  eapply (wp_mono _ (fun _ s' => exists fl, marks (fileList (tr s)) fl /\ view s' = (view s) <| v_list := fl |>)).
  { wp_step; [|wp_step; exists (fileList (tr s)); split; [by apply marks_refl|done]].
    destruct (marks_or_flags (fileList (tr s)) (id - 1) NSTACKX_FLAGS_LAST_BLOCK_RECEIVED Hwf) as (fl & Hfl & Hm & _);
      [lia|unfold NSTACKX_FLAGS_LAST_BLOCK_RECEIVED; lia|]. eapply wp_modify_list; [done|exact Hfl|]. by exists fl. }
  intros ? s1 (fl & Hm & Hv). assert (alive s1 = true) as Ha1 by alive_tac. assert (fileList (tr s1) = fl) as Hfl by (by injection Hv).
  assert (num fl = num (fileList (tr s))) as Hnum by (by rewrite (marks_rest _ _ Hm)).
  wp_step. wp_step. wp_step. rewrite Hfl. destruct (last_block_ok fl) as (x & Hx); [apply Hm|lia|].
  apply (wp_lift _ x).
  { rewrite <- Hx. rewrite !wf_GetNum by (done || apply Hm). by rewrite Hnum. }
  apply quiet_then; [done|unfold quiet; by wp_steps|]. intros _ s2 Ha2 Hv2.
  apply quiet_then; [done|unfold quiet; by wp_steps|]. intros _ s3 Ha3 Hv3.
  apply quiet_then; [done| |].
  { unfold quiet. wp_step; [|by wp_step]. wp_step. eapply wp_mono; [by apply SendFileDataAck_view|]. intros ? s' [Hv' _]. by wp_step. }
  intros _ s4 Ha4 Hv4. assert (view s4 = (view s) <| v_list := fl |>) as Hv4' by (by rewrite Hv4, Hv3, Hv2).
  wp_step. wp_step. wp_step. wp_step. wp_step; [wp_step; by exists fl|]. wp_step. wp_step. wp_step; [wp_step; by exists fl|].
  match goal with |- wp _ _ ?x => set (s5 := x) end.
  eapply (wp_mono _ (fun _ s' => view s' = view s5)); [apply progress_quiet; [done|]|].
  - change (wf (v_list (view s4))). rewrite Hv4'. apply Hm.
  - intros ? s6 ->. by exists fl.
Qed.

Lemma fail_asks v : receiver_inv e v -> asks e v STATE_RECEIVE_FILE_FAIL.
Proof.
  intros (Hs & Hp & Hst). split_and!; auto; [constructor; simpl; lia|]. intros H. right. specialize (Hst H).
  split; [|done]. intros Eq. rewrite <- Eq in Hst. simpl in Hst. lia.
Qed.

Lemma WriteDataFrame_inv frame plen id s : receiver_inv e (view s) ->
  be_at 2 DFILE_FRAME_HEADER_LEN frame = Some id -> be_at 2 OFF_LENGTH frame = Some plen ->
  8 <= Z.of_nat (length frame) -> 1 <= id <= num (fileList (tr s)) ->
  wp (WriteDataFrame e frame) (fun r s' => receiver_inv e (view s') /\
    (r = NSTACKX_EOK -> num (v_list (view s')) = num (v_list (view s)))) s.
Proof.
  intros Hi Hid Hp Hl Hr. assert (alive s = true) as Ha by apply Hi. assert (wf (fileList (tr s))) as Hwf by apply (s_wf _ _ (proj1 Hi)).
  unfold WriteDataFrame. wp_step. apply (wp_lift _ id); [done|]. wp_step. apply (wp_lift _ plen); [done|]. wp_step.
  destruct (be_at_ex 1 OFF_FLAG frame) as (fg & Hfg & _); [done|unfold OFF_FLAG; lia|]. apply (wp_lift _ fg); [done|].
  wp_step. wp_step. wp_step.
  - wp_step. wp_step. wp_step. eapply wp_mono; [apply SetReceiveState_view; done|]. intros ? s1 Hv. cbv beta in Hv.
    match type of Hv with _ = moved ?x _ => change x with (view s) in Hv end. wp_step. split.
    + rewrite Hv. by apply recv_moved_inv, fail_asks.
    + apply negb_true_iff, Z.eqb_neq in E. done.
  - wp_step. eapply wp_mono; [by apply UpdateTransParam_view|]. intros ? s1 (fl & Hm & Hv). wp_step. split.
    + rewrite Hv. apply (grow_inv e (view s) fl Hi). by apply marks_grows.
    + intros _. rewrite Hv. cbn [v_list]. by rewrite (marks_rest _ _ Hm).
Qed.

Lemma data_inv v : receiver_inv e v -> num (v_list v) <> 0 -> ids_ok e (num (v_list v)) -> receiver_inv e (v <| v_data := true |>).
Proof. intros ([] & [] & Hst) Hn Hr. split; [|split; [|done]]; by constructor. Qed.

Lemma data_frame_inv frame s : DecodeDFileFrame frame = Some NSTACKX_EOK -> receiver_inv e (view s) ->
  (num (fileList (tr s)) <> 0 -> ids_ok e (num (fileList (tr s)))) ->
  wp (HandleFileDataFrame e frame) (fun _ s' => receiver_inv e (view s')) s.
Proof.
  intros Hacc Hi Hids. assert (alive s = true) as Ha by apply Hi. assert (wf (fileList (tr s))) as Hwf by apply (s_wf _ _ (proj1 Hi)).
  pose proof (wf_num _ Hwf) as Hnum. unfold NSTACKX_DFILE_MAX_FILE_NUM in Hnum.
  destruct (frame_length _ Hacc) as (plen & Hp & H0 & Hl). unfold DFILE_FRAME_HEADER_LEN in Hl.
  unfold HandleFileDataFrame. wp_step. wp_step. wp_step. unfold CheckReceiverTransAndFrameValid. rewrite Hp. cbn [mbind option_bind].
  destruct (plen <=? 6) eqn:E6; [eapply wp_lift; [reflexivity|]; by wp_step|].
  case_if; [eapply wp_lift; [reflexivity|]; by wp_step|].
  unfold GetFileIdFromFileDataFrame, DFILE_FRAME_HEADER_LEN. destruct (be_at_ex 2 8 frame) as (id & Hid & Hid2); [done|lia|].
  rewrite Hid. cbn [mbind option_bind]. rewrite wf_GetNum by done. unfold NSTACKX_RESERVED_FILE_ID.
  destruct ((id =? 0) || (id >? num (fileList (tr s)))) eqn:Eid; [eapply wp_lift; [reflexivity|]; by wp_step|].
  cbn [mbind option_bind]. eapply wp_lift; [reflexivity|]. apply orb_false_iff in Eid as [Ei1 Ei2].
  wp_step; [by wp_step|]. apply quiet_then; [done|unfold quiet; by wp_step|]. intros _ s0 Ha0 Hv0.
  apply quiet_then; [done|done|]. intros w s1 Ha1 Hv1. rewrite Hv0 in Hv1. rewrite <- Hv1 in Hi. wp_step.
  { apply quiet_then; [done|unfold quiet; by wp_step|]. intros _ s2 Ha2 Hv2. rewrite <- Hv2 in Hi. wp_steps. exact Hi. }
  wp_step. eapply wp_mono; [apply (WriteDataFrame_inv frame plen id); [done|done|done|lia|]|].
  { change (1 <= id <= num (v_list (view s1))). rewrite Hv1. cbn. lia. }
  intros r s2 [Hi2 Hnum2]. assert (alive s2 = true) as Ha2 by apply Hi2. wp_step; [by wp_step|]. apply negb_false_iff, Z.eqb_eq in E1.
  specialize (Hnum2 E1). rewrite Hv1 in Hnum2. wp_step. wp_step. wp_step.
  assert (num (fileList (tr s2)) = num (fileList (tr s))) as Hnum3 by done.
  destruct (last_block_ok (fileList (tr s2))) as (x & Hx); [apply (s_wf _ _ (proj1 Hi2))|lia|]. apply (wp_lift _ x); [done|].
  wp_step. eapply (wp_mono _ (fun _ s' => receiver_inv e (view s'))).
  - wp_step; [|by wp_step]. wp_step. apply (data_inv (view s2)); [done|change (num (fileList (tr s2)) <> 0); lia|].
    change (ids_ok e (num (fileList (tr s2)))). rewrite Hnum3. apply Hids. lia.
  - intros ? s3 Hi3. assert (alive s3 = true) by apply Hi3. by wp_steps.
Qed.

Lemma recv_frame_inv frame s : rename_ok e -> DecodeDFileFrame frame = Some NSTACKX_EOK -> receiver_inv e (view s) ->
  (num (fileList (tr s)) <> 0 -> ids_ok e (num (fileList (tr s)))) ->
  wp (handle_frame e frame) (fun _ s' => receiver_inv e (view s')) s.
Proof.
  intros Hr Hacc Hi Hids. assert (alive s = true) as Ha by apply Hi. assert (isSender (tr s) = false) as Hs by apply Hi.
  destruct (frame_length _ Hacc) as (plen & Hp & H0 & Hl). unfold DFILE_FRAME_HEADER_LEN in Hl.
  unfold handle_frame. wp_step. destruct (be_at_ex 1 OFF_TYPE frame) as (ty & Hty & _); [done|unfold OFF_TYPE; lia|].
  apply (wp_lift _ ty); [done|]. wp_step; [|wp_step; [|wp_step; [|wp_step; [|wp_step]]]].
  - by apply header_frame_inv.
  - unfold HandleFileTableAckFrame. wp_step. wp_step. rewrite Hs. cbn [negb]. cbv iota. by wp_step.
  - by apply data_frame_inv.
  - unfold HandleTransferDoneFrame. wp_step. wp_step. rewrite Hs. cbn [negb]. cbv iota. by wp_step.
  - wp_steps. rewrite Hs at 1. cbv iota. exact Hi.
  - by wp_step.
Qed.

(** ** The end of a transfer *)

Record receiver_over (v : View) : Prop := {
  o_alive : v_alive v = false;
  o_ends : v_ends v = 1%nat;
  o_stopped : v_started v = false /\ v_starts v = v_stops v;
  o_received : (0 < v_received v)%nat -> FileListAllFileReceived (v_list v) = Some true
}.

Definition receiver_safe (v : View) : Prop := if v_alive v then receiver_inv e v else receiver_over v.

Lemma recv_safe_inv v : receiver_inv e v -> receiver_safe v.
Proof. intros Hi. unfold receiver_safe. by rewrite (s_alive _ _ (proj1 Hi)). Qed.

Lemma received_count v : sound e v -> (0 < v_received v)%nat -> FileListAllFileReceived (v_list v) = Some true.
Proof.
  intros [] Hr. destruct (v_notified v) eqn:E; [by apply s_notified0|]. rewrite s_received0 in Hr by done. lia.
Qed.

Lemma recv_safe_ended v k : receiver_inv e v -> v_started v = false -> k = 0%nat -> receiver_safe (ended v k).
Proof.
  intros (Hs & _ & _) Hst ->. pose proof (received_count _ Hs) as Hr. destruct Hs. constructor; cbn; try done.
  - by rewrite s_ends0.
  - split; [done|]. rewrite Hst in s_balance0. simpl in s_balance0. lia.
Qed.

Lemma recv_end_inv s : receiver_inv e (view s) -> wp DFileTransNotifyEndMsg (fun _ s' => receiver_safe (view s')) s.
Proof.
  intros Hi. assert (alive s = true) as Ha by apply Hi. assert (isSender (tr s) = false) as Hs by apply Hi.
  assert (wf (fileList (tr s))) as Hwf by apply (s_wf _ _ (proj1 Hi)).
  assert (recv_finished (v_recv (view s)) = true -> v_started (view s) = false) as Hst.
  { intros Hf%recv_finished_rank. destruct (v_started (view s)) eqn:E; [|done]. destruct Hi as (_ & _ & Hst). specialize (Hst E). lia. }
  unfold DFileTransNotifyEndMsg. wp_step. wp_step. rewrite Hs. cbv iota. wp_step; [|wp_step].
  - eapply wp_mono; [by apply notify_end|]. intros _ s' (k & -> & Hk). apply recv_safe_ended; [done| |by destruct Hk as [|[_ ?]]].
    apply Hst. change (v_recv (view s)) with (recvState (tr s)). by rewrite e0.
  - eapply wp_mono; [by apply notify_end|]. intros _ s' (k & -> & Hk). apply recv_safe_ended; [done| |by destruct Hk as [|[_ ?]]].
    apply Hst. change (v_recv (view s)) with (recvState (tr s)). by rewrite e0.
  - wp_step. by apply recv_safe_inv.
Qed.

Lemma recv_frame_safe hf fuel frame s : rename_ok e -> DecodeDFileFrame frame = Some NSTACKX_EOK -> receiver_inv e (view s) ->
  (num (fileList (tr s)) <> 0 -> ids_ok e (num (fileList (tr s)))) ->
  wp (HandleDFileFrame e hf fuel frame) (fun _ s' => receiver_safe (view s')) s.
Proof.
  intros Hr Hacc Hi Hids. assert (alive s = true) as Ha by apply Hi. unfold HandleDFileFrame. wp_step. wp_step. wp_step.
  { wp_step. by apply recv_safe_inv. }
  wp_step. eapply wp_mono; [by apply recv_frame_inv|]. intros r s1 Hi1. cbv beta in Hi1.
  wp_step. eapply wp_mono; [by apply recv_TransferFsm_inv|]. intros ? s2 Hi2. cbv beta in Hi2. assert (alive s2 = true) by apply Hi2.
  wp_step. wp_step. wp_step. eapply wp_mono; [apply ack_quiet; [done|apply (s_wf _ _ (proj1 Hi2))]|].
  intros ? s3 Hv. cbv beta in Hv. wp_step. eapply wp_mono; [apply recv_end_inv; by rewrite Hv|]. intros ? s4 Hs4. by wp_step.
Qed.

Lemma recv_tick_safe hf fuel s : receiver_inv e (view s) ->
  wp (DFileTransProcess e hf fuel) (fun _ s' => receiver_safe (view s')) s.
Proof.
  intros Hi. assert (alive s = true) as Ha by apply Hi. unfold DFileTransProcess. wp_step. wp_step. wp_step.
  { wp_step. by apply recv_safe_inv. }
  wp_step. eapply wp_mono; [by apply recv_TransferFsm_inv|]. intros ? s2 Hi2. cbv beta in Hi2. assert (alive s2 = true) by apply Hi2.
  wp_step. wp_step. apply recv_end_inv. exact Hi2.
Qed.

Lemma recv_fail_safe s : receiver_inv e (view s) ->
  wp (FileManagerReceiverMsgHandler e 0 0 0 FILE_MANAGER_RECEIVE_FAIL) (fun _ s' => receiver_safe (view s')) s.
Proof.
  intros Hi. assert (alive s = true) as Ha by apply Hi. assert (wf (fileList (tr s))) as Hwf by apply (s_wf _ _ (proj1 Hi)).
  unfold FileManagerReceiverMsgHandler. wp_step. wp_step. wp_step.
  eapply wp_mono; [apply SetReceiveState_view; done|]. intros ? s1 Hv. cbv beta in Hv.
  match type of Hv with _ = moved ?x _ => change x with (view s) in Hv end.
  pose proof (recv_moved_inv _ _ _ (fail_asks _ Hi)) as Hask. rewrite <- Hv in Hask. eapply wp_mono.
  { apply notify_end; [apply Hask|apply (s_wf _ _ (proj1 Hask))|done]. }
  intros ? s2 (k & -> & Hk). apply recv_safe_ended; [done| |by destruct Hk as [|[_ ?]]].
  destruct (v_started (view s1)) eqn:Est; [|done]. destruct Hask as (_ & _ & Hst). specialize (Hst Est).
  rewrite Hv in Hst. destruct (decide (v_recv (view s) = STATE_RECEIVE_FILE_FAIL)) as [Eq|Ne].
  - unfold moved in Hst. rewrite decide_True in Hst by done. rewrite Eq in Hst. simpl in Hst. lia.
  - rewrite recv_moved_state in Hst by done. unfold settled in Hst. destruct (_ && _); simpl in Hst; lia.
Qed.

Lemma recv_manager_safe hf fuel id m s : receiver_inv e (view s) -> 0 <= id <= num (fileList (tr s)) ->
  (num (fileList (tr s)) <> 0 -> ids_ok e (num (fileList (tr s)))) ->
  wp (FileManagerReceiverMsgHandler e hf fuel id m) (fun _ s' => receiver_safe (view s')) s.
Proof.
  intros Hi Hid Hids. assert (m = FILE_MANAGER_RECEIVE_FAIL \/ m <> FILE_MANAGER_RECEIVE_FAIL) as [->|Hm] by (destruct m; auto); [by apply recv_fail_safe|].
  assert (alive s = true) as Ha by apply Hi. assert (wf (fileList (tr s))) as Hwf by apply (s_wf _ _ (proj1 Hi)).
  destruct (decide (id = 0)) as [->|Hne].
  { unfold FileManagerReceiverMsgHandler. destruct m; try done; cbn [Z.eqb]; cbv iota; wp_step; by apply recv_safe_inv. }
  set (set_flag := match m with FILE_MANAGER_RECEIVE_SUCCESS => modify_list (fun fl => FileListSetFileReceiveSuccess fl id)
                   | _ => ret tt end).
  assert (wp set_flag (fun _ s' => exists fl, marks (fileList (tr s)) fl /\ view s' = (view s) <| v_list := fl |>) s) as Hset.
  { unfold set_flag. destruct m; try (wp_step; exists (fileList (tr s)); split; [by apply marks_refl|done]).
    destruct (marks_or_flags (fileList (tr s)) (id - 1) NSTACKX_FLAGS_FILE_RECEIVE_SUCCESS Hwf) as (fl & Hfl & Hmk & _);
      [lia|unfold NSTACKX_FLAGS_FILE_RECEIVE_SUCCESS; lia|]. eapply wp_modify_list; [done|exact Hfl|]. by exists fl. }
  assert (FileManagerReceiverMsgHandler e hf fuel id m =
    bind set_flag
      (fun _ => let* t := get in
        let* all := lift (FileListAllFileReceived (fileList t)) in
        if all : bool then
          modify (fun t => t <| allFileDataReceived := true |> <| ioWriteFinishFlag := true |>) ;;
          NotifyRecvSucMsg ;;
          ReceiverFsm e hf fuel ;;
          modify (fun t => t <| isAckSend := false |>)
        else ret tt)) as ->.
  { unfold FileManagerReceiverMsgHandler. replace (id =? 0) with false by bool_lia. by destruct m. }
  wp_step. eapply wp_mono; [exact Hset|]. intros ? s1 (fl & Hmk & Hv).
  pose proof (grow_inv e (view s) fl Hi (marks_grows _ _ Hmk)) as Hi1. rewrite <- Hv in Hi1. assert (alive s1 = true) as Ha1 by apply Hi1.
  assert (fileList (tr s1) = fl) as Hfl by (by injection Hv).
  assert (num fl = num (fileList (tr s))) as Hnum by (by rewrite (marks_rest _ _ Hmk)).
  wp_step. wp_step. wp_step. rewrite Hfl.
  destruct (all_or_tar_ok fl (marks_wf _ _ Hmk) NSTACKX_FLAGS_FILE_RECEIVE_SUCCESS) as (b & Hb); [right; lia|].
  apply (wp_lift _ b); [done|]. destruct b; cbv iota; [|wp_step; by apply recv_safe_inv].
  wp_step. wp_step. wp_step. match goal with |- wp _ _ ?x => set (s2 := x) end.
  assert (v_list (view s1) = fl) as Hl1 by done.
  assert (receiver_inv e (view s2)) as Hi2.
  { apply (data_inv (view s1)); [done|rewrite Hl1; lia|]. rewrite Hl1, Hnum. apply Hids. lia. }
  assert (v_list (view s2) = fl) as Hl2 by done. assert (alive s2 = true) as Ha2 by done. clearbody s2.
  eapply wp_mono; [apply NotifyRecvSucMsg_view; [done|apply (s_wf _ _ (proj1 Hi2))]|]. intros ? s3 (k & Hv3).
  assert (receiver_inv e (view s3)) as Hi3.
  { rewrite Hv3. apply notified_inv; [done|rewrite Hl2; lia|by rewrite Hl2]. }
  wp_step. eapply wp_mono; [by apply ReceiverFsm_inv|]. intros ? s4 Hi4. cbv beta in Hi4. assert (alive s4 = true) by apply Hi4.
  wp_step. apply recv_safe_inv. exact Hi4.
Qed.
End machine.

(** ** Every sequence of inputs *)

Inductive Input :=
  | InFrame (frame : list byte)
  | InTick
  | InManager (id : Z) (m : FileManagerMsgType)
  | InMtu (m : Z).

Definition handle (e : Env) (hf fuel : nat) (i : Input) : M unit :=
  match i with
  | InFrame frame => HandleDFileFrame e hf fuel frame ;; ret tt
  | InTick => DFileTransProcess e hf fuel
  | InManager id m => FileManagerReceiverMsgHandler e hf fuel id m
  | InMtu m => modify (fun t => snd (DFileTransSetMtu t m))
  end.

(** The session passes on frames that [DecodeDFileFrame] accepts, the file manager
    names files of the list, and the application renames to names that fit. *)
Definition admissible (e : Env) (i : Input) (s : St) : Prop :=
  let n := num (fileList (tr s)) in
  rename_ok e /\ (n <> 0 -> ids_ok e n) /\
  match i with
  | InFrame frame => DecodeDFileFrame frame = Some NSTACKX_EOK
  | InManager id _ => 0 <= id <= n
  | _ => True
  end.

(** The transfer as the session creates it for a first header frame. *)
Definition fresh (s : St) : Prop :=
  exists id conn m t, DFileTransCreate true true false id conn = Some t /\ 14 < m <= 14720 /\
    tr s = snd (DFileTransSetMtu t m) /\ alive s = true /\ out s = [].

Inductive reachable : St -> Prop :=
  | reach_new s : fresh s -> reachable s
  | reach_step s e hf fuel i s' :
      reachable s -> alive s = true -> admissible e i s -> handle e hf fuel i s = Ok tt s' -> reachable s'.

Lemma sound_env e e' v : sound e v -> (num (v_list v) <> 0 -> ids_ok e' (num (v_list v))) -> sound e' v.
Proof. intros [] Hids. constructor; try done. intros Hd. destruct (s_data0 Hd) as [H1 _]. auto. Qed.

Lemma fresh_inv e s : fresh s -> receiver_inv e (view s).
Proof.
  intros (id & conn & m & t & Ht & Hm & Htr & Ha & Hout). unfold DFileTransCreate in Ht. cbn [negb FileListCreate mbind option_bind] in Ht.
  destruct (ConfigDFileTrans conn) as [c|]; [|done]. cbn [mbind option_bind] in Ht. injection Ht as <-.
  unfold DFileTransSetMtu, NSTACKX_MAX_FRAME_SIZE in Htr. replace ((m <=? 14) || (m >? 14720)) with false in Htr by bool_lia.
  cbn [mtu] in Htr. replace (0 =? m) with false in Htr by bool_lia. cbn [snd] in Htr.
  unfold view. rewrite Htr, Hout, Ha. split; [|split; [|done]].
  - constructor; try done; cbn; lia.
  - constructor; simpl; lia.
Qed.

Lemma recv_handle_safe e hf fuel i s : admissible e i s -> receiver_inv e (view s) ->
  wp (handle e hf fuel i) (fun _ s' => receiver_safe e (view s')) s.
Proof.
  intros (Hr & Hids & Hin) Hi. destruct i as [frame| |id m|m]; cbn [handle].
  - wp_step. eapply wp_mono; [by apply recv_frame_safe|]. intros ? s1 Hs. by wp_step.
  - by apply recv_tick_safe.
  - by apply recv_manager_safe.
  - assert (alive s = true) as Ha by apply Hi. wp_step. apply recv_safe_inv. unfold DFileTransSetMtu.
    destruct ((m <=? 14) || (m >? NSTACKX_MAX_FRAME_SIZE)) eqn:E; [exact Hi|]. case_if; [exact Hi|].
    apply orb_false_iff in E as [E1 E2]. unfold NSTACKX_MAX_FRAME_SIZE in E2.
    destruct Hi as ([] & [] & Hst). split; [|split; [|done]]; [|by constructor]. constructor; try done. cbn. lia.
Qed.

(** In a living reachable state the invariant holds for every admissible environment. *)
Lemma recv_reachable_inv s e i : reachable s -> alive s = true -> admissible e i s -> receiver_inv e (view s).
Proof.
  intros Hreach. revert e i. induction Hreach as [s Hf|s0 e0 hf fuel i0 s Hreach IH Ha0 Hadm0 Hrun]; intros e i Ha Hadm.
  - by apply fresh_inv.
  - pose proof (recv_handle_safe e0 hf fuel i0 s0 Hadm0 (IH _ _ Ha0 Hadm0)) as Hw. unfold wp in Hw. rewrite Hrun in Hw.
    unfold receiver_safe in Hw. change (v_alive (view s)) with (alive s) in Hw. rewrite Ha in Hw. destruct Hw as (Hs & Hp).
    split; [|done]. by eapply sound_env; [|apply Hadm].
Qed.

Lemma reachable_over s : reachable s -> alive s = false -> receiver_over (view s).
Proof.
  intros Hreach Ha. destruct Hreach as [s Hf|s0 e0 hf fuel i0 s Hreach Ha0 Hadm0 Hrun].
  - destruct Hf as (? & ? & ? & ? & _ & _ & _ & Ha' & _). congruence.
  - pose proof (recv_handle_safe e0 hf fuel i0 s0 Hadm0 (recv_reachable_inv _ _ _ Hreach Ha0 Hadm0)) as Hw. unfold wp in Hw.
    rewrite Hrun in Hw. unfold receiver_safe in Hw. change (v_alive (view s)) with (alive s) in Hw. by rewrite Ha in Hw.
Qed.

(** An environment that is always admissible: nothing is renamed and no file has
    been received. *)
Definition idle_env : Env := 
  mkEnv (fun _ => mkTime 0 0) (fun _ _ => 0) (fun _ => 0) (fun _ => 0) (fun _ => true) (fun _ _ => None) (fun _ => None)
    (fun _ => 0) (fun _ => true) (fun _ _ => 0) (fun _ => true) (fun _ => true) None (fun _ => None) false true 100.

Lemma idle_admissible s : admissible idle_env InTick s.
Proof. split; [done|]. split; done. Qed.


(** A receiver that got the header frame of the example and confirmed it. *)
Definition example_receiver : St :=
  mkSt (snd (DFileTransSetMtu (mkTrans 9 false STATE_SEND_FILE_INIT STATE_RECEIVE_FILE_INIT (-1) 0 0 false 0 (mkTime 0 0) 0 0
          false false false false 0 NSTACKX_SEND_ACK_PER_THREE_RECYCLE 0 0 0 0 0 ConfigDFileTransP2p DFILE_TRANS_NO_ERROR
          (mkTime 0 0) 0 false 0 (mkFileList None 0 None 0 0 0 None 0 0 0 None) false 0 0 0 false 0 false 0 false) 40))
    true false 0 0 [].

Definition example_frame : list byte := header_frame (fun _ => None) (example_offer 0 1) 9 [0; 1].

Lemma example_fresh : fresh example_receiver.
Proof. by exists 9, CONNECT_TYPE_P2P, 40; eexists. Qed.

End DFileReceiver.
