(* ===== verification/DFileTermination.v ===== *)
(** * DFile: the loops of the state machines end

    One call of a handler of [DFileTransfer] runs the state machine until the
    state does not change.  While the clock and the file manager give the same
    answers during that call, the loop ends after a bounded number of rounds, and
    with the safety of [DFileSender] every sequence of inputs is handled. *)

From S2P Require Import Prelude DFileList DFileFrame DFileHandshake DFileTransfer DFileExchange DFileConfirm DFileLogic DFileSender.

Module DFileTermination.
Import DFileList DFileFrame DFileHandshake DFileTransfer DFileExchange DFileConfirm DFileLogic.
#[local] Open Scope dfile_scope.

(** ** Computations that do not run out of fuel *)

Definition ends {A} (m : M A) (Q : A -> St -> Prop) (s : St) : Prop :=
  match m s with Ok a s' => Q a s' | Fault => True | OutOfFuel => False end.

Section rules.
Context {A B : Type}.
Implicit Types (Q : A -> St -> Prop) (s : St).

Lemma ends_mono (m : M A) Q Q' s : ends m Q s -> (forall a s', Q a s' -> Q' a s') -> ends m Q' s.
Proof. unfold ends. destruct (m s); auto. Qed.
Lemma ends_bind (m : M B) (k : B -> M A) Q s : ends m (fun b s' => ends (k b) Q s') s -> ends (bind m k) Q s.
Proof. unfold ends, bind. by destruct (m s). Qed.
Lemma ends_ret a Q s : Q a s -> ends (ret a) Q s.
Proof. done. Qed.
Lemma ends_lift o Q s : (forall a, o = Some a -> Q a s) -> ends (lift o) Q s.
Proof. unfold ends, lift. destruct o; auto. Qed.
(** The environment's answer, and a state in which nothing else has changed. *)
Lemma ends_ask (f : nat -> A) Q s : (forall s', tr s' = tr s -> Q (f (tick s)) s') -> ends (ask f) Q s.
Proof. unfold ends, ask. auto. Qed.
End rules.

Lemma ends_get (Q : DFileTrans -> St -> Prop) s : Q (tr s) s -> ends get Q s.
Proof. unfold ends, get. by destruct (alive s). Qed.
Lemma ends_modify (f : DFileTrans -> DFileTrans) (Q : unit -> St -> Prop) s :
  (forall s', tr s' = f (tr s) -> alive s' = true -> Q tt s') -> ends (modify f) Q s.
Proof. unfold ends, modify. destruct (alive s) eqn:E; [|done]. intros H. by apply H. Qed.
Lemma ends_modify_list (f : FileList -> option FileList) (Q : unit -> St -> Prop) s :
  (forall fl s', f (fileList (tr s)) = Some fl -> tr s' = (let t := tr s in t <| fileList := fl |>) -> Q tt s') -> ends (modify_list f) Q s.
Proof. unfold ends, modify_list. destruct (alive s); [|done]. destruct (f _) eqn:E; [|done]. intros H. by eapply H. Qed.
Lemma ends_emit ev (Q : unit -> St -> Prop) s : (forall s', tr s' = tr s -> Q tt s') -> ends (emit ev) Q s.
Proof. unfold ends, emit. auto. Qed.
Lemma ends_free (Q : unit -> St -> Prop) s : (forall s', tr s' = tr s -> Q tt s') -> ends free_trans Q s.
Proof. unfold ends, free_trans. auto. Qed.

(** Safety and termination together. *)
Lemma ends_wp {A} (m : M A) Q Q' s : wp m Q s -> ends m Q' s -> ends m (fun a s' => Q a s' /\ Q' a s') s.
Proof. unfold wp, ends. by destruct (m s). Qed.
Lemma total {A} (m : M A) Q Q' s : wp m Q s -> ends m Q' s -> exists a s', m s = Ok a s' /\ Q a s' /\ Q' a s'.
Proof. unfold wp, ends. destruct (m s) as [a s'| |]; [|done|done]. by exists a, s'. Qed.

Ltac ends_step :=
  cbv beta zeta;
  match goal with
  | |- ends (bind _ _) _ _ => apply ends_bind
  | |- ends (ret _) _ _ => apply ends_ret
  | |- ends get _ _ => apply ends_get
  | |- ends (lift _) _ _ => apply ends_lift; intros ? ?
  | |- ends (ask _) _ _ => let H := fresh "Ht" in apply ends_ask; intros ? H
  | |- ends (ClockGetTime _) _ _ => let H := fresh "Ht" in apply ends_ask; intros ? H
  | |- ends (GetElapseTime _ _) _ _ => apply ends_bind
  | |- ends (emit _) _ _ => let H := fresh "Ht" in apply ends_emit; intros ? H
  | |- ends free_trans _ _ => let H := fresh "Ht" in apply ends_free; intros ? H
  | |- ends (modify _) _ _ => let H := fresh "Ht" in apply ends_modify; intros ? H ?
  | |- ends (modify_list _) _ _ => let H := fresh "Ht" in apply ends_modify_list; intros ? ? ? H
  | |- ends (if decide ?P then _ else _) _ _ => destruct (decide P)
  | |- ends (if ?b then _ else _) _ _ => let E := fresh "E" in destruct b eqn:E; try discriminate E
  | |- ends (match ?x with (_, _) => _ end) _ _ => destruct x
  end.
Ltac ends_steps := repeat ends_step.

(** The fields the rounds of the sender depend on. *)
Definition times (t : DFileTrans) := (sendState t, ts t, timeout t, headerRetryCnt t, config t, (fileList t, mtu t)).

Ltac by_times := cbv beta in *; repeat match goal with H : tr _ = _ |- _ => rewrite H; clear H end; (reflexivity || congruence).

Section quiet.
Context (e : Env).
Implicit Types s : St.

Lemma SendFrame_s_times frame len next s :
  ends (SendFrame_s e frame len next) (fun '(_, n) s' => times (tr s') = times (tr s) /\ (n = next \/ n = STATE_SEND_FILE_FAIL)) s.
Proof.
  unfold SendFrame_s, SendFrame. ends_steps; (split; [by_times|]); auto. destruct (isSender (tr s)); simpl; auto.
Qed.

Lemma progress_times s : ends NotifyTransProgress (fun _ s' => tr s' = tr s) s.
Proof. unfold NotifyTransProgress, msgReceiver. ends_steps; by_times. Qed.

Lemma notify_times m s : ends (NotifyTransMsg m) (fun _ s' => tr s' = tr s) s.
Proof.
  unfold NotifyTransMsg, msgReceiver. ends_step. ends_step. ends_step.
  eapply (ends_mono _ (fun _ s' => tr s' = tr s)).
  - destruct m; ends_steps; try by_times. eapply ends_mono; [apply progress_times|]. intros ? ? H1. ends_steps. by_times.
  - intros [names err] s1 H1. ends_steps; by_times.
Qed.

Lemma frame_count_times fl id n total s : ends (frame_count e fl id n total) (fun _ s' => tr s' = tr s) s.
Proof.
  revert id total s. induction n as [|n IH]; intros id total s; cbn [frame_count]; ends_steps; [done|apply IH|].
  destruct (FileManagerGetLastSequence _ _ _); (eapply ends_mono; [apply IH|]; intros ? ? H1; by_times).
Qed.

Lemma StartSender_times s : ends (StartFileManagerSenderTask e) (fun _ s' => times (tr s') = times (tr s)) s.
Proof.
  unfold StartFileManagerSenderTask, GetTotalFrameCount. ends_steps; try by_times.
  eapply ends_mono; [apply frame_count_times|]. intros ? ? H1. ends_steps. by_times.
Qed.

Lemma stop_task_times s : ends stop_task (fun _ s' => times (tr s') = times (tr s)) s.
Proof. unfold stop_task. ends_steps; by_times. Qed.

Lemma send_done_acks_times buf len n i next s :
  ends (send_done_acks e buf len n i next) (fun '(_, k) s' => times (tr s') = times (tr s) /\ (k = next \/ k = STATE_SEND_FILE_FAIL)) s.
Proof.
  revert i next s. induction n as [|n IH]; intros i next s; cbn [send_done_acks]; [by ends_steps; auto|].
  ends_step. eapply ends_mono; [apply SendFrame_s_times|]. intros [r k] s1 [H1 Hk]. ends_step; [by ends_step|].
  eapply ends_mono; [apply IH|]. intros [i' k'] s2 [H2 Hk2]. split; [congruence|]. destruct Hk2, Hk; subst; auto.
Qed.

Lemma done_ack_times next s :
  ends (SendFileTransferDoneAckFrame e next) (fun n s' => times (tr s') = times (tr s) /\
    (n = next \/ n = STATE_SEND_FILE_FAIL \/ n = STATE_SEND_FILE_DONE)) s.
Proof.
  unfold SendFileTransferDoneAckFrame. ends_step. ends_step. ends_step. ends_step. destruct a as [len buf].
  ends_step. eapply ends_mono; [apply send_done_acks_times|]. intros [i k] s1 [H1 Hk].
  ends_steps; (split; [rewrite <- H1; by_times|]); try case_if; tauto.
Qed.
End quiet.

(** ** The sender *)

Definition positive (x : Z) : Prop := 0 < x <= 2 ^ 31.
Definition config_ok (c : DFileTransConfig) : Prop :=
  positive (maxRtt c) /\ positive (initialAckInterval c) /\ positive (maxCtrlFrameTimeout c) /\
  positive (maxFileHeaderConfirmFrameTimeout c).

(** A timeout that is waited for is not zero. *)
Definition timers_ok (t : DFileTrans) : Prop :=
  config_ok (config t) /\
  (headerRetryCnt t <> 0 \/ 2 <= send_rank (sendState t) <= 5 -> 0 < timeout t < 2 ^ 32).

(** During one call the clock stands still and the file manager reads no block. *)
Definition steady (e : Env) (now : timespec) (last : bool) : Prop :=
  (forall k, clock e k = now) /\ (forall k, FileManagerIsLastBlockRead e k = last).

Lemma no_time now : GetTimeDiffMs now now = 0.
Proof.
  unfold GetTimeDiffMs, time_lt. rewrite !Z.ltb_irrefl, Z.eqb_refl. cbn [orb andb].
  by rewrite !Z.sub_diag.
Qed.

Lemma ExtendTimeout_range x m : 0 < x < 2 ^ 32 -> positive m -> 0 < ExtendTimeout x m < 2 ^ 32.
Proof.
  unfold ExtendTimeout, NSTACKX_DFILE_BACKOFF_FACTOR, positive. intros Hx Hm. destruct (x <? m) eqn:E; [|lia].
  cbv zeta. rewrite u32_small by lia. case_if; lia.
Qed.

(** A header frame of [w] bytes holds any one unit of the list. *)
Definition wide (stat : list byte -> option Z) (fl : FileList) (w : Z) : Prop :=
  22 < w /\ forall id name size, file_info stat fl id = Some (name, size) -> 22 + strlen name <= w.

Definition roomy (w : Z) (stat : list byte -> option Z) (fl : FileList) (m : Z) : Prop := wide stat fl w /\ w <= m.

(** What the header frames need in order to end. *)
Definition header_ready (w : Z) (stat : list byte -> option Z) (hf : nat) (t : DFileTrans) : Prop :=
  roomy w stat (fileList t) (mtu t) /\ (502 <= hf)%nat.

(** Between two inputs. *)
Definition prepared (w : Z) (stat : list byte -> option Z) (hf : nat) (s : St) : Prop :=
  timers_ok (tr s) /\ header_ready w stat hf (tr s).

Section sender.
Context (w : Z) (e : Env) (now : timespec) (last : bool) (Hsteady : steady e now last).

(** The timeout of the current state has not passed. *)
Definition young (t : DFileTrans) : bool := GetTimeDiffMs now (ts t) <? timeout t.

(** The rounds that are left. *)
Definition rounds (t : DFileTrans) : nat :=
  match sendState t with
  | STATE_SEND_FILE_INIT => 7
  | STATE_SEND_FILE_HEADER_ONGOING => 6
  | STATE_WAIT_FOR_FILE_HEADER_CONFIRM => if young t then 5 else 7
  | STATE_SEND_FILE_DATA_ONGOING => if last then 4 else 3
  | STATE_WAIT_FOR_FILE_TRANSFER_DONE_FRAME => if young t then (if last then 3 else 4) else 5
  | STATE_SEND_FILE_TRANSFER_DONE_ACK => 2
  | _ => 1
  end.

(** The changes of state a round can ask for. *)
Definition edge (t : DFileTrans) (n : DFileSendState) : bool :=
  match sendState t, n with
  | _, STATE_SEND_FILE_FAIL => true
  | STATE_SEND_FILE_INIT, STATE_SEND_FILE_HEADER_ONGOING => true
  | STATE_SEND_FILE_HEADER_ONGOING, STATE_WAIT_FOR_FILE_HEADER_CONFIRM => true
  | STATE_WAIT_FOR_FILE_HEADER_CONFIRM, STATE_SEND_FILE_HEADER_ONGOING => negb (young t)
  | STATE_WAIT_FOR_FILE_HEADER_CONFIRM, STATE_SEND_FILE_DATA_ONGOING => true
  | STATE_SEND_FILE_DATA_ONGOING, STATE_WAIT_FOR_FILE_TRANSFER_DONE_FRAME => last
  | STATE_SEND_FILE_DATA_ONGOING, STATE_SEND_FILE_TRANSFER_DONE_ACK => true
  | STATE_WAIT_FOR_FILE_TRANSFER_DONE_FRAME, STATE_SEND_FILE_DATA_ONGOING => negb (young t) || negb last
  | STATE_WAIT_FOR_FILE_TRANSFER_DONE_FRAME, STATE_SEND_FILE_TRANSFER_DONE_ACK => true
  | STATE_SEND_FILE_TRANSFER_DONE_ACK, STATE_SEND_FILE_DONE => true
  | _, _ => false
  end.

(** A round asks for its own state or follows an edge; it may count a retry of
    the header and restart its timer. *)
Definition round (t : DFileTrans) (n : DFileSendState) (t' : DFileTrans) : Prop :=
  sendState t' = sendState t /\ timeout t' = timeout t /\ (config t', fileList t', mtu t') = (config t, fileList t, mtu t) /\
  (headerRetryCnt t' = headerRetryCnt t \/ sendState t = STATE_WAIT_FOR_FILE_HEADER_CONFIRM) /\
  (n = sendState t \/ edge t n = true).

Lemma times_round s s' n : times (tr s') = times (tr s) -> n = sendState (tr s) \/ edge (tr s) n = true -> round (tr s) n (tr s').
Proof. intros H Hn. injection H as H1 H2 H3 H4 H5 H6 H7. split_and!; auto. congruence. Qed.

Lemma header_round hf s : sendState (tr s) = STATE_SEND_FILE_HEADER_ONGOING -> DFileSender.sendable e s ->
  22 < mtu (tr s) -> units_fit (e_stat e) (fileList (tr s)) (mtu (tr s)) ->
  header_num (fileList (tr s)) - lastSentHeaderFileId (tr s) < Z.of_nat hf ->
  ends (SendFileHeader e hf (sendState (tr s))) (fun n s' => round (tr s) n (tr s')) s.
Proof.
  intros Est Hs Hm Hfit Hhf.
  enough (forall hf s next, DFileSender.sendable e s -> 22 < mtu (tr s) -> units_fit (e_stat e) (fileList (tr s)) (mtu (tr s)) ->
    header_num (fileList (tr s)) - lastSentHeaderFileId (tr s) < Z.of_nat hf ->
    ends (SendFileHeader e hf next) (fun n s' => times (tr s') = times (tr s) /\
      (n = next \/ n = STATE_SEND_FILE_FAIL \/ n = STATE_WAIT_FOR_FILE_HEADER_CONFIRM)) s) as Hall.
  { eapply ends_mono; [by apply Hall|]. intros n s' [Ht Hn]. apply times_round; [done|]. unfold edge. rewrite Est.
    destruct Hn as [->|[->| ->]]; auto. }
  clear. induction hf as [|hf IH]; intros s next (Ha & Ho & Hm & Hl) Hm2 Hfit Hhf; [lia|]. cbn [SendFileHeader].
  pose proof (offer_num _ _ Ho) as Hn.
  destruct (EncodeHeader_spec (e_stat e) (fileList (tr s)) 14720 (mtu (tr s)) (lastSentHeaderFileId (tr s)))
    as (last' & m & buf & Heq & Hbuf & Hl' & _ & _ & _ & Hprog); [apply Ho|by apply encodable_offer|lia..|].
  ends_step. ends_step. ends_step. ends_step. destruct a as [[l0 m0] b0]. change (zeros (Z.to_nat 14720)) with sendBuffer in Heq.
  rewrite Heq in H. injection H as <- <- <-. ends_step.
  eapply ends_mono; [apply ends_wp; [apply SendFrame_s_quiet; [done|lia]|apply SendFrame_s_times]|].
  intros [r n] s1 [(Hv & Hok & _) [Ht Hn1]]. ends_step; [ends_step; split; [done|tauto]|].
  apply negb_false_iff, Z.eqb_eq in E. rewrite (Hok E). ends_step. ends_step.
  assert (times (tr s') = times (tr s)) as Ht' by (rewrite Ht0; exact Ht).
  assert (fileList (tr s') = fileList (tr s) /\ mtu (tr s') = mtu (tr s)) as [Hfl Hmtu] by (rewrite Ht0; by injection Hv).
  assert (lastSentHeaderFileId (tr s') = last') as Hls by (by rewrite Ht0).
  ends_step; [ends_step; split; [done|tauto]|].
  assert (lastSentHeaderFileId (tr s) < last') as Hp.
  { apply Hprog; [lia|unfold FILE_INFO_UNIT_LEN; lia|]. intros Hneed. apply Hfit; [lia|done]. }
  eapply ends_mono; [apply IH|].
  - unfold DFileSender.sendable. rewrite Hfl, Hmtu, Hls. split; [done|]. split; [done|]. lia.
  - by rewrite Hmtu.
  - by rewrite Hfl, Hmtu.
  - rewrite Hfl, Hls. lia.
  - intros n' s2 [Ht2 Hn2]. split; [by rewrite Ht2|]. done.
Qed.

Lemma confirm_round s : sendState (tr s) = STATE_WAIT_FOR_FILE_HEADER_CONFIRM ->
  ends (WaitForFileHeaderConfirm e (sendState (tr s))) (fun n s' => round (tr s) n (tr s')) s.
Proof.
  intros Est. unfold WaitForFileHeaderConfirm. ends_step. ends_step. ends_step. ends_step. ends_step.
  - ends_step. eapply ends_mono; [apply StartSender_times|]. intros r s1 H1. ends_steps.
    + apply times_round; [done|]. right. unfold edge. by rewrite Est.
    + apply times_round; [by rewrite <- H1; rewrite Ht|]. right. unfold edge. by rewrite Est.
  - ends_step. ends_step. ends_step. ends_step. rewrite (proj1 Hsteady). ends_step.
    + assert (young (tr s) = false) as Hy by (unfold young; bool_lia).
      ends_steps; rewrite ?Ht0, ?Ht; (split; [done|]); (split; [done|]); (split; [done|]); (split; [auto|]); right; unfold edge;
        rewrite Est; [done|]. by rewrite Hy.
    + ends_step. apply times_round; [by rewrite Ht|]. by left.
Qed.

Lemma data_round s : sendState (tr s) = STATE_SEND_FILE_DATA_ONGOING ->
  ends (SendFileDataOngoing e (sendState (tr s))) (fun n s' => round (tr s) n (tr s')) s.
Proof.
  intros Est. unfold SendFileDataOngoing.
  ends_steps; rewrite ?(proj2 Hsteady); repeat match goal with H : tr _ = _ |- _ => rewrite H; clear H end;
    (split; [done|]); (split; [done|]); (split; [done|]); (split; [auto|]); unfold edge; rewrite Est; auto.
  destruct last; auto.
Qed.

Lemma wait_round s : sendState (tr s) = STATE_WAIT_FOR_FILE_TRANSFER_DONE_FRAME ->
  ends (WaitForFileTransferDoneFrame e (sendState (tr s))) (fun n s' => round (tr s) n (tr s')) s.
Proof.
  intros Est. unfold WaitForFileTransferDoneFrame. ends_step. ends_step. ends_step. ends_step. ends_step. ends_step.
  rewrite (proj1 Hsteady). ends_step.
  - assert (young (tr s) = false) as Hy by (unfold young; bool_lia).
    ends_steps; repeat match goal with H : tr _ = _ |- _ => rewrite H; clear H end;
    (split; [done|]); (split; [done|]); (split; [done|]); (split; [auto|]); unfold edge; rewrite Est, ?Hy; auto.
  - ends_step. ends_step. rewrite (proj2 Hsteady).
    ends_steps; repeat match goal with H : tr _ = _ |- _ => rewrite H; clear H end;
    (split; [done|]); (split; [done|]); (split; [done|]); (split; [auto|]); unfold edge; rewrite Est.
    + rewrite E0. rewrite orb_true_r. auto.
    + destruct (fileTransferDoneReceived (tr s)); auto.
Qed.

(** Every unit of the list fits a frame of [m] bytes. *)
Lemma roomy_fit fl m : roomy w (e_stat e) fl m -> units_fit (e_stat e) fl m.
Proof.
  intros [[Hw Hr] Hm] id Hid Hn. unfold unit_of. destruct (file_info (e_stat e) fl id) as [[name size]|] eqn:E; [|simpl; lia].
  rewrite length_unit_bytes. unfold FILE_INFO_UNIT_LEN. specialize (Hr _ _ _ E). lia.
Qed.

Lemma sender_round hf s : DFileSender.sendable e s -> header_ready w (e_stat e) hf (tr s) ->
  ends (sender_step e hf (sendState (tr s))) (fun n s' => round (tr s) n (tr s')) s.
Proof.
  intros Hs (Hroom & Hhf). pose proof (roomy_fit _ _ Hroom) as Hfit. assert (22 < mtu (tr s)) as Hm by (destruct Hroom as [[] ?]; lia). unfold sender_step. ends_step. ends_step.
  destruct (sendState (tr s)) eqn:Est; rewrite <- ?Est.
  - unfold ends, bind, set_trans_flag, ret. cbn [tr]. apply times_round; [done|]. right. unfold edge. by rewrite Est.
  - apply header_round; try done. destruct Hs as (_ & Ho & _ & Hl). pose proof (offer_num _ _ Ho).
    pose proof (wf_num _ (offer_wf _ _ Ho)) as Hn. unfold NSTACKX_DFILE_MAX_FILE_NUM in Hn. lia.
  - by apply confirm_round.
  - by apply data_round.
  - by apply wait_round.
  - eapply ends_mono; [apply done_ack_times|]. intros n s' [H1 Hn]. apply times_round; [done|]. unfold edge. rewrite Est.
    destruct Hn as [->|[->| ->]]; auto.
  - ends_step. apply times_round; [done|]. by left.
  - ends_step. apply times_round; [done|]. by left.
Qed.

(** A change of state starts the timer of the new state. *)
Lemma set_state_times n s : config_ok (config (tr s)) -> sendState (tr s) <> n ->
  (n = STATE_WAIT_FOR_FILE_HEADER_CONFIRM -> headerRetryCnt (tr s) <> 0 -> 0 < timeout (tr s) < 2 ^ 32) ->
  ends (SetSendState e n) (fun _ s' =>
    sendState (tr s') = DFileSender.settled (view s) n /\
    (config (tr s'), fileList (tr s'), mtu (tr s')) = (config (tr s), fileList (tr s), mtu (tr s)) /\
    headerRetryCnt (tr s') = headerRetryCnt (tr s) /\
    (if decide (2 <= send_rank n <= 4) then young (tr s') = true /\ 0 < timeout (tr s') < 2 ^ 32
     else timeout (tr s') = timeout (tr s))) s.
Proof.
  intros (H1 & H2 & H3 & H4) Hne Hretry. unfold positive in *. unfold SetSendState. ends_step. ends_step. rewrite decide_False by done. ends_step.
  eapply (ends_mono _ (fun _ s' => sendState (tr s') = sendState (tr s) /\
    (config (tr s'), fileList (tr s'), mtu (tr s')) = (config (tr s), fileList (tr s), mtu (tr s)) /\
    headerRetryCnt (tr s') = headerRetryCnt (tr s) /\
    (if decide (2 <= send_rank n <= 4) then young (tr s') = true /\ 0 < timeout (tr s') < 2 ^ 32
     else timeout (tr s') = timeout (tr s)))).
  { destruct n; try (by ends_step); unfold WaitForFileHeaderConfirmPrepare, SendFileBlockPrepare, WaitForFileTransferDonePrepare.
    - ends_steps. rewrite Ht1, Ht0, Ht. rewrite decide_True by (simpl; lia).
      assert (0 < (if headerRetryCnt (tr s) =? 0 then maxRtt (config (tr s))
                   else ExtendTimeout (timeout (tr s)) (maxFileHeaderConfirmFrameTimeout (config (tr s)))) < 2 ^ 32) as Hto.
      { destruct (headerRetryCnt (tr s) =? 0) eqn:E; [lia|]. apply ExtendTimeout_range; [apply Hretry; [done|lia]|done]. }
      split; [done|]. split; [done|]. split; [done|]. split; [|exact Hto]. unfold young. cbn [timeout ts].
      rewrite (proj1 Hsteady), no_time. lia.
    - ends_steps. eapply ends_mono; [apply notify_times|]. intros ? s2 Hs2. rewrite Hs2, Ht0, Ht.
      rewrite decide_True by (simpl; lia). split_and!; try done; unfold young; cbn [timeout ts]; rewrite ?(proj1 Hsteady), ?no_time; lia.
    - ends_steps. rewrite Ht0, Ht. rewrite decide_True by (simpl; lia). split_and!; try done;
        unfold young; cbn [timeout ts]; rewrite ?(proj1 Hsteady), ?no_time; lia. }
  intros _ s1 (E1 & E2 & E3 & E4). ends_step. ends_step. ends_step. ends_step.
  eapply (ends_mono _ (fun _ s2 => times (tr s2) = times (tr s'))).
  - ends_step; [apply stop_task_times|by ends_step].
  - intros ? s2 Hs2. rewrite Ht in Hs2. injection Hs2 as F1 F2 F3 F4 F5 F6 F7. rewrite F1, F4, F5, F6, F7. split_and!; [|done..|].
    + unfold DFileSender.settled. cbn [view v_send]. by rewrite E1.
    + unfold young in *. by rewrite F2, F3.
Qed.

Lemma edge_rounds t n t' : edge t n = true -> n <> sendState t -> sendState t' = n ->
  (2 <= send_rank n <= 4 -> young t' = true) -> send_finished n = false -> (rounds t' < rounds t)%nat.
Proof.
  unfold edge, rounds. intros He Hne Hn' Hy Hf. rewrite Hn'.
  destruct (sendState t), n; try done; rewrite ?Hy by (simpl; lia); try (destruct last, (young t); simpl in *; done || lia).
Qed.

Lemma sender_loop_ends hf fuel s : DFileSender.sender_inv (e_stat e) (view s) -> timers_ok (tr s) -> header_ready w (e_stat e) hf (tr s) ->
  (rounds (tr s) <= fuel)%nat ->
  ends (sender_loop e hf fuel (sendState (tr s))) (fun _ s' => timers_ok (tr s') /\ header_ready w (e_stat e) hf (tr s')) s.
Proof.
  revert s. induction fuel as [|fuel IH]; intros s Hi Hto Hready Hr.
  { unfold rounds in Hr. destruct (sendState (tr s)); try lia; destruct last; try lia; destruct (young (tr s)); lia. }
  cbn [sender_loop]. ends_step. eapply ends_mono.
  { apply ends_wp; [by apply DFileSender.sender_step_inv|]. apply sender_round; [|done]. by apply DFileSender.inv_sendable, Hi. }
  intros n s1 [Hask (E1 & E2 & E3 & E4 & E5)]. injection E3 as E3 E3' E3''.
  assert (timers_ok (tr s1)) as Hto1.
  { destruct Hto as [Hc Ht]. split; [by rewrite E3|]. rewrite E1, E2. intros Hor. apply Ht.
    destruct Hor as [Hor|Hor]; [|by right]. destruct E4 as [E4|E4]; [left; congruence|right; rewrite E4; simpl; lia]. }
  assert (header_ready w (e_stat e) hf (tr s1)) as Hready1 by (unfold header_ready; by rewrite E3', E3'').
  ends_step. ends_step. destruct (decide (sendState (tr s1) = n)) as [Heq|Hne]; [by ends_step|].
  ends_step. pose proof (DFileSender.moved_inv _ _ _ Hask) as Hmv. eapply ends_mono.
  { apply ends_wp; [apply (DFileSender.SetSendState_view e n); [apply Hask|by apply (offer_wf _ _ (DFileSender.s_offer _ _ (proj1 Hask)))]|].
    apply set_state_times; [apply Hto1|done|]. intros -> Hretry. apply Hto1. by left. }
  intros ? s2 [Hv2 (F1 & F2 & F3 & F4)]. injection F2 as F2 F2' F2''. rewrite <- Hv2 in Hmv.
  assert (timers_ok (tr s2)) as Hto2.
  { destruct Hto1 as [Hc Ht]. split; [by rewrite F2|]. destruct (decide (2 <= send_rank n <= 4)) as [Hd|Hd]; [tauto|].
    rewrite F1, F3, F4. intros Hor. apply Ht. destruct Hor as [Hor|Hor]; [by left|right].
    rewrite E1. destruct E5 as [E5|E5]; [congruence|]. unfold DFileSender.settled in Hor. destruct (_ && _); [simpl in Hor; lia|].
    unfold edge in E5. destruct (sendState (tr s)), n; simpl in *; done || lia. }
  assert (header_ready w (e_stat e) hf (tr s2)) as Hready2 by (unfold header_ready; rewrite F2', F2''; done).
  ends_step. ends_step. destruct (send_finished (sendState (tr s2))) eqn:Ef; [by ends_step|].
  assert (sendState (tr s2) = n) as Hn2 by (rewrite F1 in Ef |- *; by apply DFileSender.settled_unfinished).
  rewrite <- Hn2. apply IH; try done. destruct E5 as [E5|E5]; [congruence|].
  assert (rounds (tr s2) < rounds (tr s))%nat; [|lia]. apply (edge_rounds _ n); try done.
  - congruence.
  - intros Hd. rewrite decide_True in F4 by done. tauto.
  - by rewrite <- Hn2.
Qed.

Lemma roomy_marks fl fl' m : marks fl fl' -> roomy w (e_stat e) fl m -> roomy w (e_stat e) fl' m.
Proof.
  intros Hm [[H1 H2] H3]. split; [|done]. split; [done|]. intros id name size. rewrite (marks_info _ _ _ Hm). apply H2.
Qed.

(** The handlers change neither the timers nor the units. *)
Lemma prepared_times hf s s' : times (tr s') = times (tr s) -> prepared w (e_stat e) hf s -> prepared w (e_stat e) hf s'.
Proof.
  intros H [H1 H2]. injection H as E1 E2 E3 E4 E5 E6 E7. unfold prepared, timers_ok, header_ready in *.
  by rewrite E1, E3, E4, E5, E6, E7.
Qed.

Lemma prepared_list hf s s' fl : marks (fileList (tr s)) fl -> prepared w (e_stat e) hf s ->
  (times (tr s')) = (sendState (tr s), ts (tr s), timeout (tr s), headerRetryCnt (tr s), config (tr s), (fl, mtu (tr s))) -> prepared w (e_stat e) hf s'.
Proof.
  intros Hm [H1 [H2 H3]] H. injection H as E1 E2 E3 E4 E5 E6 E7. unfold prepared, timers_ok, header_ready in *.
  rewrite E1, E3, E4, E5, E6, E7. split; [done|]. split; [by apply (roomy_marks (fileList (tr s)))|done].
Qed.

Lemma sender_frame_ends hf frame s : DecodeDFileFrame frame = Some NSTACKX_EOK -> wf (fileList (tr s)) -> isSender (tr s) = true ->
  prepared w (e_stat e) hf s -> ends (handle_frame e frame) (fun _ s' => prepared w (e_stat e) hf s') s.
Proof.
  intros Hacc Hwf Hs Hp. destruct (confirm_decode_safe _ _ Hwf Hacc) as (r1 & fl1 & Hd1 & Hm1).
  destruct (done_decode_safe _ _ Hwf Hacc) as (r2 & fl2 & Hd2 & Hm2 & _).
  unfold handle_frame. ends_step. ends_step. ends_step; [|ends_step; [|ends_step; [|ends_step; [|ends_step]]]].
  - unfold HandleFileNameTableFrame. ends_step. ends_step. rewrite Hs. cbv iota. by ends_step.
  - unfold HandleFileTableAckFrame. ends_step. ends_step. rewrite Hs. cbn [negb]. cbv iota. ends_step. ends_step.
    destruct (sendState (tr s)) eqn:Est; try (ends_step; eapply prepared_times; [|exact Hp]; rewrite Ht; unfold times; cbn; by rewrite ?Est).
    + ends_step. rewrite Hd1. ends_step. simplify_eq. ends_step. ends_step. simplify_eq. ends_step.
      eapply (prepared_list hf s); [exact Hm1|done|]. rewrite Ht0, Ht. unfold times. cbn. by rewrite ?Est.
    + ends_step. rewrite Hd1. ends_step. simplify_eq. ends_step. ends_step. simplify_eq. ends_step.
      eapply (prepared_list hf s); [exact Hm1|done|]. rewrite Ht0, Ht. unfold times. cbn. by rewrite ?Est.
  - unfold HandleFileDataFrame. ends_step. ends_step. ends_step. ends_step. 
    match goal with H : CheckReceiverTransAndFrameValid _ _ = _ |- _ => revert H end. unfold CheckReceiverTransAndFrameValid. rewrite Hs.
    destruct (be_at 2 OFF_LENGTH frame) as [plen|]; [|done]. cbn [mbind option_bind orb].
    destruct (plen <=? 6); intros [= <-]; ends_step; by ends_step.
  - unfold HandleTransferDoneFrame. ends_step. ends_step. rewrite Hs. cbn [negb]. cbv iota. ends_step; [by ends_step|].
    ends_step; [by ends_step|]. ends_step. ends_step. ends_step. rewrite Hd2. ends_step. simplify_eq.
    ends_step. ends_step. simplify_eq. ends_step. eapply (prepared_list hf s); [exact Hm2|done|]. by rewrite Ht0, Ht.
  - ends_steps. eapply prepared_times; [|exact Hp]. rewrite Ht, Hs. done.
  - by ends_step.
Qed.

Lemma SenderFsm_ends hf fuel s : DFileSender.sender_inv (e_stat e) (view s) -> prepared w (e_stat e) hf s -> (7 <= fuel)%nat ->
  ends (TransferFsm e hf fuel) (fun _ s' => prepared w (e_stat e) hf s') s.
Proof.
  intros Hi [Hto Hr] Hfuel. assert (isSender (tr s) = true) as Hs by apply Hi.
  unfold TransferFsm, SenderFsm. ends_step. ends_step. rewrite Hs. cbv iota. ends_step. ends_step.
  apply sender_loop_ends; try done. unfold rounds. destruct (sendState (tr s)), last, (young (tr s)); lia.
Qed.

Lemma sender_end_ends hf s : prepared w (e_stat e) hf s -> ends DFileTransNotifyEndMsg (fun _ s' => prepared w (e_stat e) hf s') s.
Proof.
  intros Hp. unfold DFileTransNotifyEndMsg. ends_steps; try done; (eapply ends_mono; [apply notify_times|]); intros ? s' Hs';
    (eapply prepared_times; [|exact Hp]); by rewrite Hs'.
Qed.

Lemma HandleDFileFrame_ends hf fuel frame s : DecodeDFileFrame frame = Some NSTACKX_EOK -> DFileSender.sender_inv (e_stat e) (view s) ->
  prepared w (e_stat e) hf s -> (7 <= fuel)%nat -> ends (HandleDFileFrame e hf fuel frame) (fun _ s' => prepared w (e_stat e) hf s') s.
Proof.
  intros Hacc Hi Hp Hfuel. unfold HandleDFileFrame. ends_step. ends_step. ends_step; [by ends_step|].
  ends_step. eapply ends_mono.
  { apply ends_wp; [by apply DFileSender.sender_frame_inv|].
    by apply sender_frame_ends; [done|apply (offer_wf _ _ (DFileSender.s_offer _ _ (proj1 Hi)))|apply Hi|]. }
  intros r s1 [Hi1 Hp1]. cbv beta in Hi1. ends_step. eapply ends_mono; [by apply SenderFsm_ends|].
  intros ? s2 Hp2. cbv beta in Hp2. ends_step. ends_step. ends_step.
  eapply (ends_mono _ (fun _ s3 => times (tr s3) = times (tr s2))).
  { ends_step; [ends_step; eapply ends_mono; [apply notify_times|]; intros ? s3 H3; ends_step; by_times|by ends_step]. }
  intros ? s3 H3. ends_step. eapply ends_mono; [by apply sender_end_ends, (prepared_times hf s2)|]. intros ? s4 H4. by ends_step.
Qed.

Lemma DFileTransProcess_ends hf fuel s : DFileSender.sender_inv (e_stat e) (view s) ->
  prepared w (e_stat e) hf s -> (7 <= fuel)%nat -> ends (DFileTransProcess e hf fuel) (fun _ s' => prepared w (e_stat e) hf s') s.
Proof.
  intros Hi Hp Hfuel. unfold DFileTransProcess. ends_step. ends_step. ends_step; [by ends_step|].
  ends_step. eapply ends_mono; [by apply SenderFsm_ends|]. intros ? s2 Hp2. cbv beta in Hp2. ends_step. ends_step.
  apply sender_end_ends, (prepared_times hf s2); [by rewrite Ht|done].
Qed.

Lemma SenderMsgHandler_ends hf m s : prepared w (e_stat e) hf s ->
  ends (FileManagerSenderMsgHandler e m) (fun _ s' => prepared w (e_stat e) hf s') s.
Proof.
  intros Hp. unfold FileManagerSenderMsgHandler, msgReceiver. destruct m; ends_steps; try done;
    try (eapply prepared_times; [|exact Hp]; by_times).
  eapply ends_mono; [|intros ? s2 H2; eapply ends_mono; [apply notify_times|];
    intros ? s3 H3; apply (prepared_times hf s2); [by rewrite H3|exact H2]].
  assert (prepared w (e_stat e) hf s') as Hp1 by (eapply prepared_times; [|exact Hp]; by rewrite Ht).
  destruct (decide (sendState (tr s') = STATE_SEND_FILE_FAIL)) as [E|E].
  { unfold SetSendState. ends_step. ends_step. rewrite decide_True by done. by ends_step. }
  eapply ends_mono; [by apply set_state_times; [apply Hp1|done|]|]. intros ? s2 (F1 & F2 & F3 & F4).
  rewrite decide_False in F4 by (simpl; lia). injection F2 as F2 F2' F2''. destruct Hp1 as [[Hc Hto] Hr].
  split; [|unfold header_ready; by rewrite F2', F2'']. split; [by rewrite F2|]. rewrite F1, F3, F4.
  intros [Hor|Hor]; [by apply Hto; left|]. unfold DFileSender.settled in Hor. destruct (_ && _); simpl in Hor; lia.
Qed.
End sender.

(** ** Every sequence of inputs *)

(** During one call the clock and the file manager do not move, and an MTU that is
    taken over holds [w] bytes. *)
Definition timely (w : Z) (x : Env * DFileSender.Input) : Prop :=
  (exists now last, steady (fst x) now last) /\
  match snd x with DFileSender.InMtu m => m <= 14 \/ NSTACKX_MAX_FRAME_SIZE < m \/ w <= m | _ => True end.

Lemma handle_ends w stat e hf fuel i s : DFileSender.admissible stat (e, i) -> timely w (e, i) ->
  DFileSender.sender_inv stat (view s) -> prepared w stat hf s -> (7 <= fuel)%nat ->
  ends (DFileSender.handle e hf fuel i) (fun _ s' => prepared w stat hf s') s.
Proof.
  intros [He Hf] [(now & last & Hst) Hm] Hi Hp Hfuel. simpl in He, Hf, Hst, Hm. subst stat.
  destruct i as [frame| |m|m]; cbn [DFileSender.handle].
  - ends_step. eapply ends_mono; [by eapply HandleDFileFrame_ends|]. intros ? s1 H1. by ends_step.
  - by eapply DFileTransProcess_ends.
  - by eapply SenderMsgHandler_ends.
  - ends_step. unfold prepared. rewrite Ht. unfold DFileTransSetMtu.
    destruct ((m <=? 14) || (m >? NSTACKX_MAX_FRAME_SIZE)) eqn:E; [exact Hp|]. case_if; [exact Hp|].
    destruct Hp as [Hto [[Hw _] Hhf]]. split; [exact Hto|]. split; [|done]. split; [exact Hw|]. cbn. lia.
Qed.

(** C12: A sending transfer handles every sequence of inputs: each call of a handler
    returns, without a fault, as long as the MTU holds any one of the names, and the
    clock and the file manager do not move during the call.  Seven rounds of the
    state machine and as many header frames as there can be units are enough for one
    call, whatever the retries, the timeouts and the errors of the socket are. *)
Theorem sender_transfer_terminates (w : Z) (stat : list byte -> option Z) (hf fuel : nat)
    (inputs : list (Env * DFileSender.Input)) (s : St)
    (Hin : Forall (DFileSender.admissible stat) inputs) (Htime : Forall (timely w) inputs)
    (Hnew : alive s = true /\ isSender (tr s) = true /\ sendState (tr s) = STATE_SEND_FILE_INIT /\
            fileManagerTaskStarted (tr s) = false /\ lastSentHeaderFileId (tr s) = -1 /\ out s = [])
    (Hoffer : offer stat (fileList (tr s))) (Hmtu : w <= mtu (tr s) <= 14720) (Hwide : wide stat (fileList (tr s)) w)
    (Hconf : config_ok (config (tr s)) /\ headerRetryCnt (tr s) = 0)
    (Hhf : (502 <= hf)%nat) (Hfuel : (7 <= fuel)%nat) :
  exists s', DFileSender.run hf fuel inputs s = Ok tt s'.
Proof.
  assert (forall s, DFileSender.sender_safe stat (view s) -> prepared w stat hf s ->
    ends (DFileSender.run hf fuel inputs) (fun _ _ => True) s /\ wp (DFileSender.run hf fuel inputs) (fun _ _ => True) s) as Hrun.
  { clear s Hnew Hoffer Hmtu Hwide Hconf. induction inputs as [|[e i] l IH]; intros s Hs Hp; [done|].
    inversion_clear Hin as [|? ? Hx Hl]. inversion_clear Htime as [|? ? Hy Hl'].
    cbn [DFileSender.run]. unfold wp, ends. destruct (alive s) eqn:Ha; [|done].
    unfold DFileSender.sender_safe in Hs. cbn [view v_alive] in Hs. rewrite Ha in Hs.
    destruct (total _ _ _ _ (DFileSender.handle_safe stat e hf fuel i s Hx Hs) (handle_ends w stat e hf fuel i s Hx Hy Hs Hp Hfuel))
      as ([] & s1 & Hr & Hs1 & Hp1). unfold bind. rewrite Hr. by apply IH. }
  destruct Hnew as (Ha & Hs & Hst & Hts & Hls & Hout). pose proof (offer_num _ _ Hoffer). destruct Hwide as [Hw0 Hw].
  assert (DFileSender.sender_safe stat (view s)) as Hsafe.
  { apply DFileSender.sender_new; [by split_and!|done|lia]. }
  destruct (Hrun s Hsafe) as [He Hwp].
  { split; [|split; [split; [by split|lia]|done]]. split; [apply Hconf|]. rewrite Hst. simpl. destruct Hconf. lia. }
  destruct (total _ _ _ _ Hwp He) as ([] & s' & Hr & _). by exists s'.
Qed.

Lemma sender_transfer_terminates_witness :
  exists s', DFileSender.run 502 7 [(example_env, DFileSender.InTick); (example_env, DFileSender.InMtu 64); (example_env, DFileSender.InTick)]
    (example_st true (example_offer 0 1) (-1) 0) = Ok tt s'.
Proof.
  apply (sender_transfer_terminates 40 (fun _ => None)).
  - repeat constructor.
  - assert (steady example_env (mkTime 7 0) true) as Hst by (split; intros k; reflexivity).
    repeat apply Forall_cons_2; try apply Forall_nil_2; (split; [by exists (mkTime 7 0), true|]); cbn [snd]; try exact I. lia.
  - repeat split.
  - apply example_offers. lia.
  - change (40 <= 40 <= 14720). lia.
  - split; [lia|]. intros id name size. unfold file_info.
    destruct (id =? 0); [by intros [= <- <-]|].
    unfold FileListGetRemotePath, FileListGetFileName, FileListGetFileSize, entry. cbn [files example_offer mbind option_bind].
    destruct (id - 1 <? 0); [done|]. destruct (Z.to_nat (id - 1)) as [|k]; [|done]. by intros [= <- _].
  - by vm_compute.
  - lia.
  - lia.
Defined.
(** ** A name that does not fit *)

(** A list of one file whose name has 48 bytes, without user data. *)
Definition long_name_list : FileList :=
  mkFileList (Some [mkEntry 1 (splice 0 (replicate 48 Byte.x61) (zeros 1024)) (Some [Byte.x2f; Byte.x61]) None 5 0 0])
    1 None 0 0 0 None 0 0 0 None.

(** The smallest MTU [DecodeSettingFrame] accepts is 64. *)
Definition long_name_st (k : nat) (o : list Event) : St :=
  let s := example_st true long_name_list 0 0 in
  let t := tr s in
  s <| tr := t <| mtu := NSTACKX_MIN_MTU_SIZE |> |> <| tick := k |> <| out := o |>.

Lemma bind_ok {A B} (m : M A) (f : A -> M B) s a s' : m s = Ok a s' -> bind m f s = f a s'.
Proof. unfold bind. by intros ->. Qed.

Lemma lift_ok {A} (o : option A) a s : o = Some a -> lift o s = Ok a s.
Proof. by intros ->. Qed.

(** Without [wide], [SendFileHeader] sends empty header frames for ever: a unit that
    does not fit is left for the next frame, which has no more room. *)
Lemma header_never_ends fuel k o :
  SendFileHeader example_env fuel STATE_SEND_FILE_HEADER_ONGOING (long_name_st k o) = OutOfFuel.
Proof.
  revert k o. induction fuel as [|fuel IH]; intros k o; [done|].
  assert (exists len buf buf', 
    EncodeFileHeaderFrame (e_stat example_env) long_name_list 0 sendBuffer NSTACKX_MIN_MTU_SIZE = Some (0, len, buf) /\
    SetDfileFrameTransID buf 9 = Some buf' /\ Z.of_nat (length (take (Z.to_nat len) buf')) = i32 len) as (len & buf & buf' & He & Ht & Hl).
  { eexists _, _, _. split; [vm_compute; reflexivity|]. split; vm_compute; reflexivity. }
  cbn [SendFileHeader]. rewrite (bind_ok _ _ _ (tr (long_name_st k o)) (long_name_st k o)) by done.
  rewrite (bind_ok _ _ _ (0, len, buf) (long_name_st k o)) by (by apply lift_ok, He). cbv iota beta.
  rewrite (bind_ok _ _ _ (NSTACKX_EOK, STATE_SEND_FILE_HEADER_ONGOING)
             (long_name_st (S k) (o ++ [Sent (take (Z.to_nat len) buf')]))).
  - cbn [negb Z.eqb NSTACKX_EOK]. rewrite (bind_ok _ _ _ tt (long_name_st (S k) (o ++ [Sent (take (Z.to_nat len) buf')]))) by done.
    apply IH.
  - unfold SendFrame_s, SendFrame. rewrite (bind_ok _ _ _ (NSTACKX_EOK, Some STATE_SEND_FILE_HEADER_ONGOING, None)
             (long_name_st (S k) (o ++ [Sent (take (Z.to_nat len) buf')]))); [done|].
    rewrite (bind_ok _ _ _ (tr (long_name_st k o)) (long_name_st k o)) by done.
    rewrite (bind_ok _ _ _ buf' (long_name_st k o)) by (by apply lift_ok, Ht).
    rewrite (bind_ok _ _ _ (i32 len) (long_name_st (S k) o)) by (unfold ask; by rewrite <- Hl).
    by rewrite Z.eqb_refl.
Qed.
End DFileTermination.
